(* ===== verification/_CoqProject ===== *)
-Q . S2P
Prelude.v
Mem.v
Str.v
KState.v
Spinlock.v
Sched.v
Sleeplock.v
Layout.v
Path.v
Bio.v
BioLaw.v
Log.v
LogLaw.v
Ide.v
Services.v
Fs.v
Icache.v
FsLaw.v
FsSpec.v
Dir.v
Namei.v
Mkfs.v
Image.v
Kalloc.v
Mp.v
Vm.v
VmLaw.v
Pipe.v
File.v
Proc.v
Signal.v
Syscall.v
Sysfile.v
Exec.v
Trap.v
Umalloc.v
Printf.v
Console.v
Grep.v
Tools.v
Sh.v
Uthread.v
Csem.v
