(* ===== verification/Prelude.v ===== *)
(** * xv6 with signals, alarms and user level threads

    A model of the xv6 kernel of this repository (x86, in C), of its user library and
    utilities and of the program that builds its disk image, with the theorems that
    say they are correct.  Definitions follow the C functions of the same name; file
    and function names below are those under src/.

    ** The program and where it is modelled

    - Shared base.  [Prelude]: 32-bit integers with their wrap-around, bytes and words,
      list lemmas, the monad, its reasoning principle [wp], the tactics and the hint
      databases.  [Mem]: byte-addressed memory.  [Str]: string.c and the string part of
      ulib.c.  [KState]: the structures of proc.h, spinlock.h, sleeplock.h, file.h,
      buf.h and pipe.c and the global state [kst W] they live in; [W] is what is behind
      an interface (memory, hardware).
    - Locks and scheduling.  [Spinlock]: spinlock.c as one CPU runs it, and in [Module
      MP] the same code cut at its atomic accesses and run by any number of CPUs.
      [Sched]: sched, yield, sleep, wakeup, kill and scheduler of proc.c with switchuvm
      and switchkvm of vm.c.  [Sleeplock]: sleeplock.c.
    - Disk and file system, from below.  [Bio]: bio.c and memide.c; [BioLaw]: the
      buffer cache as a map from block numbers to contents.  [Ide]: ide.c over I/O ports
      with an ATA drive behind them.  [Log]: log.c; [LogLaw]: atomic transactions.  [Layout]: fs.h.
      [Path]: skipelem and namecmp.  [Fs]: fs.c; [Icache], [FsLaw]: the laws of its
      operations; [FsSpec], [Dir], [Namei]: what files, directories and paths promise.
      [Mkfs]: mkfs.c; [Image]: the kernel on an image mkfs built.
    - Memory.  [Kalloc]: kalloc.c.  [Vm]: vm.c, page tables as the words the hardware
      reads; [VmLaw]: they keep the contract of address spaces.  [Mp]: mp.c.
    - Interfaces between kernel parts.  [Services]: [VmOps] with [VmLaws] (kalloc.c and
      vm.c for processes), [FsOps] with [FsLaws] (log.c and fs.c for files and
      processes).  Clients are verified against the laws; [VmLaw] proves that vm.c
      keeps [VmLaws], and [Fs] gives the operations of [FsOps].
    - Processes.  [Proc]: allocproc, userinit, growproc, fork, exit, wait and forkret
      of proc.c.  [Signal]: its signals and alarms.  [Syscall]: syscall.c and
      sysproc.c.  [Pipe]: pipe.c.  [File]: file.c and pipealloc.  [Sysfile]: sysfile.c.
      [Exec]: exec.c.  [Trap]: trap.c, trapasm.S and the dispatcher of syscall.c.
      [Console]: console.c, uart.c, kbd.c and procdump of proc.c.
    - User programs.  [Umalloc]: umalloc.c.  [Printf]: printf.c, with the system call
      interface [Unix] that the programs are written against.  [Grep]: grep.c.
      [Tools]: cat, wc, echo, kill, ln, mkdir, rm, fmtname of ls, gets and stat of
      ulib.c.  [Sh]: sh.c.  [Uthread], [Csem]: uthread.c.

    proc.c, uthread.c and some other files carry conflict markers of a merge that was
    never finished (HEAD against d445f14).  Signals of both sides are modelled, as
    [Signal.Head] and [Signal.Other]; elsewhere the model is the HEAD side.

    ** How state and effects correspond to the code

    Stateful code is a computation in the resumption monad [M St A := St -> res St A].
    Its outcomes are [Done] with a value and a state, [Panic] (the kernel's panic),
    [Spin] (a loop that never ends), [Fuel] and [Switch].  [Switch] is a context
    switch: the state in which the CPU is given up, and what is run when it is given
    back, as a function of the state found then.  Where the order of lock operations
    matters ([Sched.sleep]), other CPUs also run before each of them.  Theorems about code that sleeps
    quantify over that state, restricted by what the locks protect, so they hold for
    every interleaving of processes at the points where the code can be left.
    Pointers to kernel objects are names of table slots; user and physical memory are
    bytes at addresses.  Errors are the values the C code returns.

    ** What the theorems show

    - File system ([FsSpec], [LogLaw], [BioLaw], [Dir], [Namei], [Mkfs], [Image]):
      the buffer cache refines a map of blocks; a transaction is atomic whatever prefix
      of its disk writes survives and however often recovery is interrupted; a file
      reads as it was written; blocks and inodes are allocated exactly once and
      references counted exactly; directories are maps, paths are resolved through
      them; the image of mkfs has what the kernel relies on, and a file put into it is
      found by its path and read back.
    - Memory ([Kalloc], [VmLaw], [Umalloc], [Exec]): pages and heap blocks in use never
      overlap, heap blocks are aligned; page tables implement separate address spaces;
      a program starts with the stack its main expects.
    - Processes and concurrency ([Spinlock], [Sched], [Sleeplock], [Proc], [Pipe],
      [Ide], [Uthread], [Csem]): mutual exclusion in every interleaving of CPUs, no
      lost wakeup between the caller's lock and ptable.lock, the life cycle of a
      process, FIFO refinement of pipes, disk queue and semaphores, bounded waiting of
      user threads.
    - Traps, signals and system calls ([Trap], [Signal], [Syscall], [Sysfile]): killed
      processes never return to user code, handlers run on a saved frame that
      sigreturn restores, alarms fire at their tick, arguments are bounds-checked.
    - Terminal and programs ([Console], [Printf], [Grep], [Sh]): output and line
      editing, formatted numbers, grep as its regular language, the shell's parser
      against its printer and what a session runs.
    - Machine ([Mp]): what mpinit reads from well-formed tables, and that it does not
      end on an entry of an unknown type.

    Where the code does something other than it means to, a lemma says what it does
    (for example [root_holes], [malloc_wraps], [sigreturn_loses_eax]).

    ** Fuel and bounds

    Loops over a table or a range are structural.  The others take fuel, of two kinds.
    Loops bounded by their data (string loops, readi and writei, the allocator's walk,
    printf, the schedulers) are given fuel from the data, or proved to finish for all
    fuel above a stated bound.  Loops that wait for other processes (acquiresleep,
    bget, pipewrite, wait, sys_sleep, consoleread) have no bound in the code: their
    fuel counts wakeups, theorems hold for every amount of it, and running out is the
    separate outcome [Fuel], which code that runs alone is proved not to reach.
    Integers are 32-bit patterns in [Z] with the wrap-around written out wherever the
    C code can overflow.

    The laws of the file system ([BioLaw], [LogLaw], [FsLaw] and what is built on
    them) are about one process running alone over the disk in memory of memide.c; a
    kernel path that sleeps on a disk interrupt is covered by [Ide].

    ** Not modelled

    - Set-up of the machine: main.c, bootmain.c, bootasm.S, entry.S, entryother.S,
      seginit, idtinit, the vectors that vectors.pl generates ([Trap.tvinit] takes them
      as an argument), lapic.c, ioapic.c, picirq.c and timer.c.  They are sequences of writes to device and control
      registers whose meaning is the hardware's, not the source's.
    - swtch.S, usys.S and initcode.S: the switch of stacks is the [Switch] outcome, a
      system call stub is a call of the interface [Unix].
    - The d445f14 side of uthread.c, and uthreads-oldver.c, an earlier version that no
      rule of the Makefile builds.
    - The main loop of ls.c, init.c and zombie.c, and the test programs usertests.c,
      forktest.c, stressfs.c, sanity.c, t.c, t2.c and t3.c, which exercise the system
      calls specified here.
    - Interrupts arriving at arbitrary points of kernel code: with the interrupt flag
      on, a timer interrupt is an extra yield, treated as the separate event
      [Trap.trap]. *)
From stdpp Require Export base list strings numbers gmap.
From Stdlib Require Export ZArith Lia.

#[global] Open Scope Z_scope.

(** * Machine integers *)

(** A C [uint] is a [Z] in [0, 2^32); a C [int] is a [Z] in [-2^31, 2^31). *)
Definition u32 (z : Z) : Z := z mod 2^32.
Definition s32 (z : Z) : Z := (z + 2^31) mod 2^32 - 2^31.
Definition u16 (z : Z) : Z := z mod 2^16.
Definition s16 (z : Z) : Z := (z + 2^15) mod 2^16 - 2^15.
Definition u8 (z : Z) : Z := z mod 2^8.

(** * The kernel's computation monad

    A computation over a state [St] finishes with a value ([Done]), stops the
    machine ([Panic]), busy-waits for something only another CPU can change
    ([Spin]), exhausts the loop bound of the model ([Fuel]), or gives up the
    CPU ([Switch]): the rest of the computation is then a function of the state
    in which it is resumed, whatever other threads did in between. *)

Inductive res (St A : Type) : Type :=
| Done (a : A) (s : St)
| Panic (msg : string)
| Spin
| Fuel
| Switch (s : St) (k : St → res St A).
Arguments Done {St A} a s.
Arguments Panic {St A} msg.
Arguments Spin {St A}.
Arguments Fuel {St A}.
Arguments Switch {St A} s k.

Definition M (St A : Type) : Type := St → res St A.

Fixpoint rbind {St A B} (r : res St A) (f : A → M St B) : res St B :=
  match r with
  | Done a s => f a s
  | Panic msg => Panic msg
  | Spin => Spin
  | Fuel => Fuel
  | Switch s k => Switch s (λ s', rbind (k s') f)
  end.

Definition ret {St A} (a : A) : M St A := λ s, Done a s.
Definition bind {St A B} (m : M St A) (f : A → M St B) : M St B := λ s, rbind (m s) f.
Definition panic {St A} (msg : string) : M St A := λ _, Panic msg.
Definition gets {St A} (f : St → A) : M St A := λ s, Done (f s) s.
Definition modify {St} (f : St → St) : M St unit := λ s, Done tt (f s).
Definition swtch {St} : M St unit := λ s, Switch s (λ s', Done tt s').

Arguments ret {St A} a s /.
Arguments bind {St A B} m f s /.
Arguments panic {St A} msg s /.
Arguments gets {St A} f s /.
Arguments modify {St} f s /.

Declare Scope mon_scope.
Delimit Scope mon_scope with mon.
Notation "x <- m ;; k" := (bind m (λ x, k))
  (at level 100, m at next level, right associativity) : mon_scope.
Notation "m ;;; k" := (bind m (λ _, k))
  (at level 100, right associativity) : mon_scope.
#[global] Open Scope mon_scope.

(** Run the monad's own combinators, and nothing else. *)
Ltac mstep := cbn [bind rbind ret gets modify panic].

Definition when {St} (b : bool) (m : M St unit) : M St unit := if b then m else ret tt.

(** [for(x in l) body]: a loop with no early exit. *)
Fixpoint for_each {St A} (l : list A) (body : A → M St unit) : M St unit :=
  match l with
  | [] => ret tt
  | x :: l' => body x ;;; for_each l' body
  end.

(** [for(x in l) body] where [body] may leave the loop with a result. *)
Fixpoint for_break {St A R} (l : list A) (body : A → M St (option R)) : M St (option R) :=
  match l with
  | [] => ret None
  | x :: l' => r <- body x ;; match r with Some v => ret (Some v) | None => for_break l' body end
  end.

(** [for(;;) body] until [body] returns a result; [n] bounds the iterations. *)
Fixpoint loop {St R} (n : nat) (body : M St (option R)) : M St R :=
  match n with
  | O => λ _, Fuel
  | S n' => r <- body ;; match r with Some v => ret v | None => loop n' body end
  end.

(** * Reasoning about computations

    [wp e r Q]: the computation [r] neither panics nor spins; where it gives up
    the CPU the state satisfies the guarantee of [e], and however the rest of
    the system (within the rely of [e]) changes the state before it is resumed,
    it goes on to finish with [Q].  [fuel_ok] says what running out of loop
    fuel means: [False] for total correctness, [True] for loops that only an
    outside event can end. *)

Record env (St : Type) := Env {
  guar : St → Prop;
  rely : St → St → Prop;
  fuel_ok : Prop;
}.
Arguments Env {St} guar rely fuel_ok.
Arguments guar {St} e s.
Arguments rely {St} e s s'.
Arguments fuel_ok {St} e.

Fixpoint wp {St A} (e : env St) (r : res St A) (Q : A → St → Prop) : Prop :=
  match r with
  | Done a s => Q a s
  | Panic _ => False
  | Spin => False
  | Fuel => fuel_ok e
  | Switch s k => guar e s ∧ ∀ s', rely e s s' → wp e (k s') Q
  end.

Lemma wp_mono {St A} (e : env St) (r : res St A) (P Q : A → St → Prop) :
  (∀ a s, P a s → Q a s) → wp e r P → wp e r Q.
Proof. intros HPQ. induction r; simpl; naive_solver. Qed.

Lemma wp_bind {St A B} (e : env St) (r : res St A) (f : A → M St B) Q :
  wp e (rbind r f) Q ↔ wp e r (λ a s, wp e (f a s) Q).
Proof.
  induction r as [a s|msg| | |s k IH]; simpl; try done.
  split; intros [Hg Hk]; (split; [done|]); intros s' Hr; apply IH, Hk, Hr.
Qed.

(** A computation that runs alone: it finishes without giving up the CPU. *)
Definition alone {St} : env St := Env (λ _, False) (λ _ _, False) False.

Lemma wp_alone {St A} (r : res St A) Q : wp alone r Q ↔ ∃ a s, r = Done a s ∧ Q a s.
Proof.
  destruct r as [a s|msg| | |s k]; cbn; split; try naive_solver.
Qed.

Lemma wp_then {St A B} (e : env St) (r : res St A) (f : A → M St B) P Q :
  wp e r P → (∀ a s, P a s → wp e (f a s) Q) → wp e (rbind r f) Q.
Proof. intros Hr Hf. apply wp_bind. by eapply wp_mono. Qed.

Lemma rbind_assoc_done {St A B} (r : res St A) (f : A → M St B) a s :
  r = Done a s → rbind r f = f a s.
Proof. by intros ->. Qed.

(** A straight-line computation: it finishes without giving up the CPU. *)
Lemma for_each_inv {St A} (I : St → Prop) (body : A → M St unit) (l : list A) (s : St) :
  I s →
  (∀ x s, x ∈ l → I s → ∃ s', body x s = Done tt s' ∧ I s') →
  ∃ s', for_each l body s = Done tt s' ∧ I s'.
Proof.
  revert s. induction l as [|x l IH]; intros s HI Hb; simpl; [by eauto|].
  destruct (Hb x s) as (s1 & H1 & HI1); [by left|done|].
  unfold bind. rewrite H1. simpl. apply IH; [done|].
  intros y s2 Hy. apply Hb. by right.
Qed.

Lemma for_each_cons {St A} (body : A → M St unit) (x : A) (l : list A) (s : St) :
  for_each (x :: l) body s = rbind (body x s) (λ _, for_each l body).
Proof. done. Qed.

Lemma for_each_app {St A} (body : A → M St unit) (l1 l2 : list A) (s s1 : St) :
  for_each l1 body s = Done tt s1 →
  for_each (l1 ++ l2) body s = for_each l2 body s1.
Proof.
  revert s. induction l1 as [|x l1 IH]; simpl; intros s H; [by injection H as <-|].
  unfold bind in *. destruct (body x s) as [[] s2|?| | |? ?]; simpl in *; try done.
  by apply IH.
Qed.

Lemma for_each_wp {St A} (e : env St) (I : St → Prop) (body : A → M St unit) (l : list A) (s : St) :
  I s →
  (∀ x s, x ∈ l → I s → wp e (body x s) (λ _ s', I s')) →
  wp e (for_each l body s) (λ _ s', I s').
Proof.
  revert s. induction l as [|x l IH]; intros s HI Hb; simpl; [done|].
  apply wp_bind. eapply wp_mono; [|apply Hb; [by left|done]].
  intros [] s' HI'. apply IH; [done|]. intros y s2 Hy. apply Hb. by right.
Qed.

(** [for(k = 0; k < n; k++) body] with an invariant that counts. *)
Lemma for_each_count {St} (e : env St) (I : nat → St → Prop) (body : Z → M St unit) (n : nat) (s : St) :
  I O s →
  (∀ k s, (k < n)%nat → I k s → wp e (body (Z.of_nat k) s) (λ _ s', I (S k) s')) →
  wp e (for_each (seqZ 0 (Z.of_nat n)) body s) (λ _ s', I n s').
Proof.
  intros H0 Hb. unfold seqZ. rewrite Nat2Z.id.
  cut (∀ m k s, (m + k = n)%nat → I k s →
    wp e (for_each ((λ i : nat, Z.of_nat i + 0) <$> seq k m) body s) (λ _ s', I n s')).
  { intros Hc. apply (Hc n O); [lia|done]. }
  induction m as [|m IH]; intros k s' Hk HI; [by replace n with k by lia|].
  cbn [seq]. rewrite fmap_cons, Z.add_0_r. cbn [for_each]. unfold bind.
  eapply wp_then; [apply Hb; [lia|done]|]. intros [] s1 H1. apply IH; [lia|done].
Qed.

Lemma for_break_wp {St A R} (e : env St) (I : St → Prop) (Q : R → St → Prop)
    (body : A → M St (option R)) (l : list A) (s : St) :
  I s →
  (∀ x s, x ∈ l → I s →
    wp e (body x s) (λ r s', match r with Some v => Q v s' | None => I s' end)) →
  wp e (for_break l body s) (λ r s', match r with Some v => Q v s' | None => I s' end).
Proof.
  revert s. induction l as [|x l IH]; intros s HI Hb; simpl; [done|].
  apply wp_bind. eapply wp_mono; [|apply Hb; [by left|done]].
  intros [v|] s' Hr; [done|]. apply IH; [done|]. intros y s2 Hy. apply Hb. by right.
Qed.

Lemma for_break_skip {St A R} (body : A → M St (option R)) (l1 l2 : list A) (s : St) :
  (∀ x, x ∈ l1 → body x s = Done None s) →
  for_break (l1 ++ l2) body s = for_break l2 body s.
Proof.
  induction l1 as [|x l1 IH]; simpl; intros H; [done|].
  rewrite H by set_solver. simpl. apply IH. set_solver.
Qed.

Lemma for_break_none {St A R} (body : A → M St (option R)) (l : list A) (s : St) :
  (∀ x, x ∈ l → body x s = Done None s) → for_break l body s = Done None s.
Proof. intros H. rewrite <- (app_nil_r l), for_break_skip by done. done. Qed.

(** A search through a table that only reads it. *)
Lemma for_break_find {St T} (P : T → Prop) `{!∀ x, Decision (P x)} (body : nat → M St (option nat))
    (l : list T) (k : nat) (s : St) :
  (∀ i x, l !! i = Some x → body (k + i)%nat s = Done (if decide (P x) then Some (k + i)%nat else None) s) →
  for_break (seq k (length l)) body s = Done ((λ p, (k + p.1)%nat) <$> list_find P l) s.
Proof.
  revert k. induction l as [|x l IH]; intros k Hb; [done|]. cbn [length seq for_break list_find]. mstep.
  pose proof (Hb O x eq_refl) as H0. rewrite Nat.add_0_r in H0. rewrite H0. mstep.
  destruct (decide (P x)); cbn [fmap option_fmap option_map fst]; [by rewrite Nat.add_0_r|].
  rewrite IH.
  - destruct (list_find P l) as [[i y]|]; cbn; [|done]. do 2 f_equal. lia.
  - intros i y Hy. specialize (Hb (S i) y Hy). replace (S k + i)%nat with (k + S i)%nat by lia. done.
Qed.

Lemma for_break_findZ {St T} (P : T → Prop) `{!∀ x, Decision (P x)} (body : Z → M St (option Z))
    (l : list T) (k : Z) (s : St) :
  (∀ i x, l !! i = Some x →
    body (k + Z.of_nat i) s = Done (if decide (P x) then Some (k + Z.of_nat i) else None) s) →
  for_break (seqZ k (Z.of_nat (length l))) body s = Done ((λ p, k + Z.of_nat p.1) <$> list_find P l) s.
Proof.
  revert k. induction l as [|x l IH]; intros k Hb; [done|].
  rewrite seqZ_cons by (cbn; lia). cbn [for_break list_find]. mstep.
  pose proof (Hb O x eq_refl) as H0. rewrite Z.add_0_r in H0. rewrite H0. mstep.
  destruct (decide (P x)); [by cbn; rewrite Z.add_0_r|].
  replace (Z.pred (Z.of_nat (length (x :: l)))) with (Z.of_nat (length l)) by (cbn [length]; lia). mstep.
  rewrite IH.
  - destruct (list_find P l) as [[i y]|]; cbn; [|done]. do 2 f_equal. lia.
  - intros i y Hy. replace (Z.succ k + Z.of_nat i) with (k + Z.of_nat (S i)) by lia. by apply Hb.
Qed.

(** [for(k = 0; k < n; k++)] over [f k], with an early exit and an invariant that counts. *)
Lemma for_break_count {St B R} (e : env St) (I : nat → St → Prop) (Q : R → St → Prop)
    (f : Z → B) (body : B → M St (option R)) (n : nat) (s : St) :
  I O s →
  (∀ k s, (k < n)%nat → I k s →
    wp e (body (f (Z.of_nat k)) s) (λ r s', match r with Some v => Q v s' | None => I (S k) s' end)) →
  wp e (for_break (f <$> seqZ 0 (Z.of_nat n)) body s) (λ r s', match r with Some v => Q v s' | None => I n s' end).
Proof.
  intros H0 Hb. unfold seqZ. rewrite Nat2Z.id.
  cut (∀ m k s, (m + k = n)%nat → I k s →
    wp e (for_break (f <$> ((λ i : nat, Z.of_nat i + 0) <$> seq k m)) body s)
      (λ r s', match r with Some v => Q v s' | None => I n s' end)).
  { intros Hc. apply (Hc n O); [lia|done]. }
  induction m as [|m IH]; intros k s' Hk HI; [by replace n with k by lia|].
  cbn [seq]. rewrite !fmap_cons, Z.add_0_r. cbn [for_break]. unfold bind.
  eapply wp_then; [apply Hb; [lia|done]|]. intros [v|] s1 H1; [done|]. apply IH; [lia|done].
Qed.

(** A search that reads until the first hit, and acts there. *)
Lemma for_break_scan {St R} (P : Z → Prop) `{!∀ z, Decision (P z)} (body : Z → M St (option R)) (k n : Z) (s : St) :
  (∀ z, k ≤ z < k + n → ¬ P z → body z s = Done None s) →
  (∃ z l, k ≤ z < k + n ∧ P z ∧ (∀ z', k ≤ z' < z → ¬ P z') ∧
     for_break (seqZ k n) body s = for_break (z :: l) body s) ∨
  (∀ z, k ≤ z < k + n → ¬ P z) ∧ for_break (seqZ k n) body s = Done None s.
Proof.
  intros Hb. destruct (decide (n ≤ 0)) as [Hn|Hn].
  { right. split; [lia|]. by rewrite seqZ_nil by lia. }
  assert (∃ m, n = Z.of_nat m) as [m ->] by (exists (Z.to_nat n); lia). clear Hn.
  revert k Hb. induction m as [|m IH]; intros k Hb; [right; split; [lia|done]|].
  rewrite seqZ_cons by lia. replace (Z.pred (Z.of_nat (S m))) with (Z.of_nat m) by lia.
  destruct (decide (P k)) as [Hk|Hk]; [left; exists k; eexists; (split; [lia|]); (split; [done|]); split; [lia|done]|].
  assert (for_break (k :: seqZ (Z.succ k) (Z.of_nat m)) body s = for_break (seqZ (Z.succ k) (Z.of_nat m)) body s) as ->.
  { cbn [for_break]. mstep. by rewrite Hb by (done || lia). }
  destruct (IH (Z.succ k)) as [(z & l & Hz & HP & Hlt & He)|[Hno He]]; [intros z Hz; apply Hb; lia| |].
  - left. exists z, l. split; [lia|]. split; [done|]. split; [|done]. intros z' Hz'.
    destruct (decide (z' = k)) as [->|]; [done|]. apply Hlt. lia.
  - right. split; [|done]. intros z Hz. destruct (decide (z = k)) as [->|]; [done|]. apply Hno. lia.
Qed.

(** A search that acts on the first entry it looks for. *)
Lemma for_break_first {St T R} (P : T → Prop) `{!∀ x, Decision (P x)} (body : nat → M St (option R))
    (l : list T) (k i : nat) (x : T) (v : R) (s s' : St) :
  list_find P l = Some (i, x) →
  (∀ j y, l !! j = Some y → ¬ P y → body (k + j)%nat s = Done None s) →
  body (k + i)%nat s = Done (Some v) s' →
  for_break (seq k (length l)) body s = Done (Some v) s'.
Proof.
  revert k i. induction l as [|y l IH]; intros k i Hf Hb Hx; [done|]. cbn [length seq for_break]. mstep.
  cbn [list_find] in Hf. destruct (decide (P y)) as [Hy|Hy].
  - injection Hf as <- <-. rewrite Nat.add_0_r in Hx. by rewrite Hx.
  - pose proof (Hb O y eq_refl Hy) as H0. rewrite Nat.add_0_r in H0. rewrite H0. mstep.
    destruct (list_find P l) as [[i' x']|] eqn:E; [|done]. cbn in Hf. injection Hf as <- <-.
    apply (IH (S k) i'); [done| |by rewrite <- Nat.add_succ_comm in Hx].
    intros j z Hz Hn. rewrite Nat.add_succ_comm. by apply (Hb (S j) z).
Qed.

Lemma for_break_absent {St T R} (P : T → Prop) `{!∀ x, Decision (P x)} (body : nat → M St (option R))
    (l : list T) (k : nat) (s : St) :
  list_find P l = None →
  (∀ j y, l !! j = Some y → ¬ P y → body (k + j)%nat s = Done None s) →
  for_break (seq k (length l)) body s = Done None s.
Proof.
  intros Hf Hb. apply for_break_none. intros j [Hj1 Hj2]%elem_of_seq.
  destruct (lookup_lt_is_Some_2 l (j - k)) as [y Hy]; [lia|].
  replace j with (k + (j - k))%nat by lia. apply (Hb _ y Hy).
  apply list_find_None in Hf. exact (Forall_lookup_1 _ _ _ _ Hf Hy).
Qed.

(** * Arithmetic on machine words *)

Lemma u32_range z : 0 ≤ u32 z < 2^32.
Proof. apply Z.mod_pos_bound. lia. Qed.
Lemma u32_id z : 0 ≤ z < 2^32 → u32 z = z.
Proof. intros. by apply Z.mod_small. Qed.
Lemma s32_range z : - 2^31 ≤ s32 z < 2^31.
Proof. unfold s32. pose proof (Z.mod_pos_bound (z + 2^31) (2^32)). lia. Qed.
Lemma s32_id z : - 2^31 ≤ z < 2^31 → s32 z = z.
Proof. intros. unfold s32. rewrite Z.mod_small; lia. Qed.
Lemma u32_idem z : u32 (u32 z) = u32 z.
Proof. apply u32_id, u32_range. Qed.
Lemma s32_u32 z : s32 (u32 z) = s32 z.
Proof. unfold s32, u32. by rewrite Zplus_mod_idemp_l. Qed.
Lemma u32_s32 z : u32 (s32 z) = u32 z.
Proof.
  unfold s32, u32. rewrite Zminus_mod_idemp_l. f_equal. lia.
Qed.
Lemma u8_range z : 0 ≤ u8 z < 2^8.
Proof. apply Z.mod_pos_bound. lia. Qed.
Lemma u8_id z : 0 ≤ z < 2^8 → u8 z = z.
Proof. intros. by apply Z.mod_small. Qed.

(** Clearing low bits rounds down to a multiple of a power of two. *)
Lemma land_lnot_ones x k : 0 ≤ k → Z.land x (Z.lnot (Z.ones k)) = 2^k * (x / 2^k).
Proof.
  intros Hk. rewrite <- Z.ldiff_land, Z.ldiff_ones_r, Z.shiftl_mul_pow2, Z.shiftr_div_pow2 by done. lia.
Qed.

Create HintDb words.
Create Rewrite HintDb words.
#[export] Hint Rewrite u32_idem s32_u32 u32_s32 : words.
#[export] Hint Resolve u32_range s32_range u8_range : words.

(** * Invariants of step relations *)
Lemma rtc_inv {A} (R : A → A → Prop) (P : A → Prop) (x y : A) :
  P x → (∀ a b, P a → R a b → P b) → rtc R x y → P y.
Proof. intros Hx Hs Hr. induction Hr; eauto. Qed.
