(* ===== verification/Mem.v ===== *)
(** Byte-addressed memory: the model of what C code reads and writes through
    pointers.  An address is a [Z] (C pointer arithmetic inside an object does
    not wrap), a cell holds a byte, a [uint] is stored as four bytes, least
    significant first, as on x86. *)
From S2P Require Import Prelude.

Definition mem : Type := Z → Z.

(** Two memories are the same when every cell is. *)
#[export] Instance mem_equiv : Equiv mem := λ m1 m2, ∀ a, m1 a = m2 a.
#[export] Instance mem_equivalence : Equivalence (≡@{mem}).
Proof. split; [by intros m a|by intros m1 m2 H a|]. intros m1 m2 m3 H1 H2 a. by rewrite H1. Qed.

Definition mem_ok (m : mem) : Prop := ∀ a, 0 ≤ m a < 256.

(** One byte store: the cell keeps the low eight bits of the value. *)
Definition upd (m : mem) (a v : Z) : mem := λ x, if x =? a then u8 v else m x.

#[export] Instance upd_proper : Proper ((≡) ==> (=) ==> (=) ==> (≡)) upd.
Proof. intros m1 m2 H a ? <- v ? <- x. unfold upd. by destruct (x =? a). Qed.

Lemma upd_eq m a v : upd m a v a = u8 v.
Proof. unfold upd. by rewrite Z.eqb_refl. Qed.
Lemma upd_ne m a v x : x ≠ a → upd m a v x = m x.
Proof. intros. unfold upd. by destruct (Z.eqb_spec x a). Qed.
Lemma upd_ok m a v : mem_ok m → mem_ok (upd m a v).
Proof. intros H x. unfold upd. destruct (x =? a); [apply (u8_range v)|apply H]. Qed.

(** A run of byte stores at ascending addresses. *)
Fixpoint writes (m : mem) (a : Z) (bs : list Z) : mem :=
  match bs with
  | [] => m
  | b :: bs' => writes (upd m a b) (a + 1) bs'
  end.

(** The [n] bytes at [a]. *)
Definition bytes (m : mem) (a : Z) (n : nat) : list Z := (λ i, m (a + Z.of_nat i)) <$> seq 0 n.

Definition in_range (a n x : Z) : bool := (a <=? x) && (x <? a + n).

Lemma in_range_spec a n x : in_range a n x = true ↔ a ≤ x < a + n.
Proof. unfold in_range. rewrite andb_true_iff, Z.leb_le, Z.ltb_lt. lia. Qed.
Lemma in_range_false a n x : in_range a n x = false ↔ ¬ (a ≤ x < a + n).
Proof. rewrite <- in_range_spec. by destruct (in_range a n x). Qed.

#[export] Instance writes_proper : Proper ((≡) ==> (=) ==> (=) ==> (≡)) writes.
Proof.
  intros m1 m2 H a ? <- bs ? <-. revert m1 m2 H a.
  induction bs as [|b bs IH]; intros m1 m2 H a; simpl; [done|]. apply IH. by rewrite H.
Qed.

Lemma writes_out m a bs x : ¬ (a ≤ x < a + Z.of_nat (length bs)) → writes m a bs x = m x.
Proof.
  revert m a. induction bs as [|b bs IH]; intros m a Hx; [done|].
  simpl length in Hx. cbn [writes]. rewrite IH by lia. apply upd_ne. lia.
Qed.

Lemma writes_in m a bs i b :
  bs !! i = Some b → writes m a bs (a + Z.of_nat i) = u8 b.
Proof.
  revert m a i. induction bs as [|b' bs IH]; intros m a i Hi; [done|].
  destruct i as [|i]; simpl in Hi; cbn [writes].
  - injection Hi as ->. rewrite writes_out by lia. rewrite Z.add_0_r. apply upd_eq.
  - replace (a + Z.of_nat (S i)) with (a + 1 + Z.of_nat i) by lia. by apply IH.
Qed.

Lemma writes_ok m a bs : mem_ok m → mem_ok (writes m a bs).
Proof. revert m a. induction bs; simpl; intros; auto using upd_ok. Qed.

Lemma writes_app m a bs1 bs2 :
  writes m a (bs1 ++ bs2) = writes (writes m a bs1) (a + Z.of_nat (length bs1)) bs2.
Proof.
  revert m a. induction bs1 as [|b bs1 IH]; intros m a; simpl; [by rewrite Z.add_0_r|].
  rewrite IH. f_equal. lia.
Qed.

Lemma writes_upd_out m a bs d v :
  ¬ (a ≤ d < a + Z.of_nat (length bs)) → writes (upd m d v) a bs ≡ upd (writes m a bs) d v.
Proof.
  intros Hd x. unfold upd at 2. destruct (Z.eqb_spec x d) as [->|Hx].
  - rewrite writes_out by done. apply upd_eq.
  - destruct (decide (a ≤ x < a + Z.of_nat (length bs))) as [Hin|Hout].
    + destruct (lookup_lt_is_Some_2 bs (Z.to_nat (x - a))) as [b Hb]; [lia|].
      replace x with (a + Z.of_nat (Z.to_nat (x - a))) by lia.
      by rewrite !(writes_in _ _ _ _ b).
    + rewrite !writes_out by done. by apply upd_ne.
Qed.

Lemma writes_snoc m a bs b :
  writes m a (bs ++ [b]) = upd (writes m a bs) (a + Z.of_nat (length bs)) b.
Proof. by rewrite writes_app. Qed.

Lemma length_bytes m a n : length (bytes m a n) = n.
Proof. unfold bytes. by rewrite length_fmap, length_seq. Qed.

Lemma bytes_lookup m a n i : (i < n)%nat → bytes m a n !! i = Some (m (a + Z.of_nat i)).
Proof. intros. unfold bytes. rewrite list_lookup_fmap, lookup_seq_lt by done. done. Qed.

Lemma bytes_ext m1 m2 a1 a2 n :
  (∀ i, (i < n)%nat → m1 (a1 + Z.of_nat i) = m2 (a2 + Z.of_nat i)) → bytes m1 a1 n = bytes m2 a2 n.
Proof.
  intros H. apply list_eq. intros i. destruct (decide (i < n)%nat) as [Hi|Hi].
  - rewrite !bytes_lookup by done. by rewrite H.
  - by rewrite !lookup_ge_None_2 by (rewrite length_bytes; lia).
Qed.

Lemma bytes_S m a n : bytes m a (S n) = m a :: bytes m (a + 1) n.
Proof.
  unfold bytes. rewrite <- cons_seq, <- fmap_S_seq, fmap_cons, <- list_fmap_compose.
  f_equal; [f_equal; lia|]. apply list_fmap_ext. intros i x _. simpl. f_equal. lia.
Qed.

Lemma bytes_snoc m a n : bytes m a (S n) = bytes m a n ++ [m (a + Z.of_nat n)].
Proof. unfold bytes. rewrite seq_S, fmap_app. done. Qed.

Lemma bytes_upd_out m a n d v :
  ¬ (a ≤ d < a + Z.of_nat n) → bytes (upd m d v) a n = bytes m a n.
Proof. intros. apply bytes_ext. intros i Hi. apply upd_ne. lia. Qed.

Lemma bytes_app m a n1 n2 :
  bytes m a (n1 + n2) = bytes m a n1 ++ bytes m (a + Z.of_nat n1) n2.
Proof.
  revert a. induction n1 as [|n1 IH]; intros a; [by rewrite Z.add_0_r|].
  rewrite Nat.add_succ_l, !bytes_S, IH. simpl. do 3 f_equal. lia.
Qed.

#[export] Instance bytes_proper : Proper ((≡) ==> (=) ==> (=) ==> (=)) bytes.
Proof. intros m1 m2 H a ? <- n ? <-. apply bytes_ext. intros. apply H. Qed.

Lemma bytes_writes m a bs :
  Forall (λ b, 0 ≤ b < 256) bs → bytes (writes m a bs) a (length bs) = bs.
Proof.
  intros Hb. apply list_eq. intros i. destruct (bs !! i) as [b|] eqn:E.
  - pose proof (lookup_lt_Some _ _ _ E). rewrite bytes_lookup by done.
    rewrite (writes_in _ _ _ _ b) by done. f_equal. apply u8_id.
    by eapply (Forall_lookup_1 _ _ _ _ Hb E).
  - apply lookup_ge_None_2. rewrite length_bytes. by apply lookup_ge_None_1.
Qed.

Lemma bytes_writes_disjoint m a bs b n :
  (b + Z.of_nat n ≤ a ∨ a + Z.of_nat (length bs) ≤ b) →
  bytes (writes m a bs) b n = bytes m b n.
Proof. intros. apply bytes_ext. intros i Hi. apply writes_out. lia. Qed.

(** * 32-bit words *)

Definition le32 (v : Z) : list Z := [u8 v; u8 (v / 2^8); u8 (v / 2^16); u8 (v / 2^24)].
Definition of_le (bs : list Z) : Z := foldr (λ b acc, b + 256 * acc) 0 bs.

Definition load32 (m : mem) (a : Z) : Z := of_le (bytes m a 4).
Definition store32 (m : mem) (a v : Z) : mem := writes m a (le32 v).

Lemma of_le_le32 v : of_le (le32 v) = u32 v.
Proof. unfold of_le, le32, u8, u32. simpl. Z.div_mod_to_equations. lia. Qed.

Lemma le32_bytes v : Forall (λ b, 0 ≤ b < 256) (le32 v).
Proof. unfold le32. repeat constructor; try apply u8_range. Qed.

Lemma load32_store32 m a v : load32 (store32 m a v) a = u32 v.
Proof.
  unfold load32, store32. change 4%nat with (length (le32 v)).
  rewrite bytes_writes by apply le32_bytes. apply of_le_le32.
Qed.

Lemma load32_store32_ne m a b v :
  (b + 4 ≤ a ∨ a + 4 ≤ b) → load32 (store32 m a v) b = load32 m b.
Proof. intros. unfold load32, store32. rewrite bytes_writes_disjoint; [done|]. simpl. lia. Qed.

Lemma load32_ext m1 m2 a : (∀ x, a ≤ x < a + 4 → m1 x = m2 x) → load32 m1 a = load32 m2 a.
Proof. intros H. unfold load32. f_equal. apply bytes_ext. intros. apply H. lia. Qed.

Lemma load32_range m a : mem_ok m → 0 ≤ load32 m a < 2^32.
Proof.
  intros H. unfold load32, of_le, bytes. cbn [seq fmap list_fmap foldr].
  repeat match goal with |- context [m ?x] => pose proof (H x); generalize dependent (m x) end.
  lia.
Qed.

#[export] Instance load32_proper : Proper ((≡) ==> (=) ==> (=)) load32.
Proof. intros m1 m2 H a ? <-. unfold load32. by rewrite H. Qed.
