(* ===== verification/Str.v ===== *)
(** string.c and ulib.c: the memory and string routines of the kernel and of the
    user library, over byte memory.  Each routine is the C loop; the theorems
    relate the loops to list-level specifications ([writes] of a byte list, the
    C string [cstr]). *)
From S2P Require Import Prelude Mem.

(** * x86.h: the string instructions *)

(** [rep stosb]: [cnt] byte stores. *)
Fixpoint stosb (m : mem) (addr data : Z) (cnt : nat) : mem :=
  match cnt with
  | O => m
  | S cnt' => stosb (upd m addr data) (addr + 1) data cnt'
  end.

(** [rep stosl]: [cnt] four-byte stores. *)
Fixpoint stosl (m : mem) (addr data : Z) (cnt : nat) : mem :=
  match cnt with
  | O => m
  | S cnt' => stosl (store32 m addr data) (addr + 4) data cnt'
  end.

(** The C string at [a]: the bytes of [l], none zero, then a terminator. *)
Definition cstr (m : mem) (a : Z) (l : list Z) : Prop :=
  bytes m a (length l) = l ∧ Forall (λ b, 0 < b < 256) l ∧ m (a + Z.of_nat (length l)) = 0.

(** * string.c *)
Module KString.

Definition memset (m : mem) (dst c : Z) (n : nat) : mem :=
  if (Z.rem (s32 dst) 4 =? 0) && (n mod 4 =? 0)%nat then
    let c := Z.land c 255 in
    stosl m dst (Z.lor (Z.lor (Z.lor (Z.shiftl c 24) (Z.shiftl c 16)) (Z.shiftl c 8)) c)
      (n / 4)
  else stosb m dst c n.

Fixpoint memcmp (m : mem) (s1 s2 : Z) (n : nat) : Z :=
  match n with
  | O => 0
  | S n' => if negb (m s1 =? m s2) then m s1 - m s2 else memcmp m (s1 + 1) (s2 + 1) n'
  end.

(** [while(n-- > 0) *d++ = *s++;] *)
Fixpoint copy_up (m : mem) (d s : Z) (n : nat) : mem :=
  match n with
  | O => m
  | S n' => copy_up (upd m d (m s)) (d + 1) (s + 1) n'
  end.

(** [while(n-- > 0) *--d = *--s;] *)
Fixpoint copy_down (m : mem) (d s : Z) (n : nat) : mem :=
  match n with
  | O => m
  | S n' => copy_down (upd m (d - 1) (m (s - 1))) (d - 1) (s - 1) n'
  end.

Definition memmove (m : mem) (dst src : Z) (n : nat) : mem :=
  if (src <? dst) && (dst <? src + Z.of_nat n) then
    copy_down m (dst + Z.of_nat n) (src + Z.of_nat n) n
  else copy_up m dst src n.

Definition memcpy (m : mem) (dst src : Z) (n : nat) : mem := memmove m dst src n.

Fixpoint strncmp (m : mem) (p q : Z) (n : nat) : Z :=
  match n with
  | O => 0
  | S n' =>
    if negb (m p =? 0) && (m p =? m q) then strncmp m (p + 1) (q + 1) n'
    else u8 (m p) - u8 (m q)
  end.

(** [while(n-- > 0) *s++ = 0;] *)
Fixpoint zero_fill (m : mem) (s : Z) (n : nat) : mem :=
  match n with
  | O => m
  | S n' => zero_fill (upd m s 0) (s + 1) n'
  end.

Fixpoint strncpy_loop (m : mem) (s t : Z) (n : nat) : mem :=
  match n with
  | O => m
  | S n' =>
    let m' := upd m s (m t) in
    if negb (m t =? 0) then strncpy_loop m' (s + 1) (t + 1) n' else zero_fill m' (s + 1) n'
  end.

Definition strncpy (m : mem) (s t : Z) (n : Z) : mem := strncpy_loop m s t (Z.to_nat n).

(** [while(--n > 0 && ( *s++ = *t++ ) != 0) ;  *s = 0;], entered with [n] iterations left. *)
Fixpoint safestrcpy_loop (m : mem) (s t : Z) (n : nat) : mem :=
  match n with
  | O => upd m s 0
  | S n' =>
    let m' := upd m s (m t) in
    if negb (m t =? 0) then safestrcpy_loop m' (s + 1) (t + 1) n' else upd m' (s + 1) 0
  end.

Definition safestrcpy (m : mem) (s t : Z) (n : Z) : mem :=
  if n <=? 0 then m else safestrcpy_loop m s t (Z.to_nat (n - 1)).

(** [for(n = 0; s[n]; n++);]; [fuel] bounds the scan. *)
Fixpoint strlen (fuel : nat) (m : mem) (s n : Z) : option Z :=
  match fuel with
  | O => None
  | S fuel' => if m (s + n) =? 0 then Some n else strlen fuel' m s (n + 1)
  end.

End KString.

(** * ulib.c *)
Module Ulib.

Fixpoint strcpy (fuel : nat) (m : mem) (s t : Z) : option mem :=
  match fuel with
  | O => None
  | S fuel' =>
    let m' := upd m s (m t) in
    if m t =? 0 then Some m' else strcpy fuel' m' (s + 1) (t + 1)
  end.

Fixpoint strcmp (fuel : nat) (m : mem) (p q : Z) : option Z :=
  match fuel with
  | O => None
  | S fuel' =>
    if negb (m p =? 0) && (m p =? m q) then strcmp fuel' m (p + 1) (q + 1)
    else Some (u8 (m p) - u8 (m q))
  end.

Definition strlen (fuel : nat) (m : mem) (s : Z) : option Z := KString.strlen fuel m s 0.

Definition memset (m : mem) (dst c : Z) (n : nat) : mem := stosb m dst c n.

Fixpoint strchr (fuel : nat) (m : mem) (s c : Z) : option Z :=
  match fuel with
  | O => None
  | S fuel' =>
    if m s =? 0 then Some 0
    else if m s =? c then Some s else strchr fuel' m (s + 1) c
  end.

Fixpoint atoi_loop (fuel : nat) (m : mem) (s n : Z) : option Z :=
  match fuel with
  | O => None
  | S fuel' =>
    if (48 <=? m s) && (m s <=? 57) then atoi_loop fuel' m (s + 1) (s32 (n * 10 + m s - 48))
    else Some n
  end.
Definition atoi (fuel : nat) (m : mem) (s : Z) : option Z := atoi_loop fuel m s 0.

(** The user library's [memmove] always copies upwards. *)
Definition memmove (m : mem) (dst src : Z) (n : Z) : mem :=
  KString.copy_up m dst src (Z.to_nat n).

End Ulib.

(** * The loops against their specifications *)

Lemma stosb_writes m a c n : stosb m a c n = writes m a (replicate n c).
Proof. revert m a. induction n as [|n IH]; intros m a; simpl; [done|]. apply IH. Qed.

Lemma stosl_writes m a w n : stosl m a w n = writes m a (concat (replicate n (le32 w))).
Proof.
  revert m a. induction n as [|n IH]; intros m a; [done|].
  cbn [stosl replicate concat]. rewrite writes_app, IH. done.
Qed.

Lemma concat_replicate {A} (k n : nat) (x : A) :
  concat (replicate n (replicate k x)) = replicate (n * k) x.
Proof. induction n as [|n IH]; simpl; [done|]. by rewrite IH, replicate_add. Qed.

(** The word [memset] builds holds the byte four times. *)
Lemma le32_splat c :
  le32 (Z.lor (Z.lor (Z.lor (Z.shiftl (Z.land c 255) 24) (Z.shiftl (Z.land c 255) 16))
    (Z.shiftl (Z.land c 255) 8)) (Z.land c 255)) = replicate 4 (u8 c).
Proof.
  assert (Hc : Z.land c 255 = u8 c) by (change 255 with (Z.ones 8); by rewrite Z.land_ones).
  rewrite Hc. pose proof (u8_range c) as Hr. revert Hr. generalize (u8 c). clear c Hc. intros c Hr.
  set (chk := λ c, bool_decide (le32 (Z.lor (Z.lor (Z.lor (Z.shiftl c 24) (Z.shiftl c 16))
    (Z.shiftl c 8)) c) = replicate 4 c)).
  assert (H : forallb chk (seqZ 0 256) = true) by (vm_compute; reflexivity).
  rewrite forallb_forall in H. apply (bool_decide_eq_true_1 (le32 _ = _)).
  apply (H c), list_elem_of_In, elem_of_seqZ. lia.
Qed.

(** Stores keep the low byte only, so reducing the data first changes nothing. *)
Lemma writes_u8 m a bs : writes m a (u8 <$> bs) ≡ writes m a bs.
Proof.
  revert m a. induction bs as [|b bs IH]; intros m a; simpl; [done|]. rewrite IH.
  apply writes_proper; [|done..]. intros x. unfold upd. destruct (x =? a); [|done].
  apply u8_id, u8_range.
Qed.

Lemma memset_writes m dst c n : KString.memset m dst c n ≡ writes m dst (replicate n c).
Proof.
  unfold KString.memset. destruct (Z.rem (s32 dst) 4 =? 0); cbn [andb]; [|rewrite stosb_writes; reflexivity].
  destruct (Nat.eqb_spec (n mod 4) 0) as [Hn|Hn]; [|rewrite stosb_writes; reflexivity].
  rewrite stosl_writes, le32_splat, concat_replicate, <- fmap_replicate, writes_u8.
  apply Nat.Div0.div_exact in Hn. by rewrite (Nat.mul_comm (n / 4)), <- Hn.
Qed.

Lemma copy_up_writes m d s n :
  (d ≤ s ∨ s + Z.of_nat n ≤ d) → KString.copy_up m d s n ≡ writes m d (bytes m s n).
Proof.
  revert m d s. induction n as [|n IH]; intros m d s Hd; [done|].
  cbn [KString.copy_up]. rewrite bytes_S, IH by lia. simpl.
  apply writes_proper; [done..|]. apply bytes_upd_out. lia.
Qed.

Lemma copy_down_writes m d s n :
  s ≤ d → KString.copy_down m (d + Z.of_nat n) (s + Z.of_nat n) n ≡ writes m d (bytes m s n).
Proof.
  revert m. induction n as [|n IH]; intros m Hd; [done|].
  rewrite bytes_snoc, writes_snoc, length_bytes. cbn [KString.copy_down].
  replace (d + Z.of_nat (S n) - 1) with (d + Z.of_nat n) by lia.
  replace (s + Z.of_nat (S n) - 1) with (s + Z.of_nat n) by lia.
  rewrite IH, bytes_upd_out, writes_upd_out by (rewrite ?length_bytes; lia). done.
Qed.

Lemma memmove_writes m dst src n : KString.memmove m dst src n ≡ writes m dst (bytes m src n).
Proof.
  unfold KString.memmove.
  destruct (Z.ltb_spec src dst); simpl; [|apply copy_up_writes; lia].
  destruct (Z.ltb_spec dst (src + Z.of_nat n)); [apply copy_down_writes|apply copy_up_writes]; lia.
Qed.

(** ** C strings *)

Lemma cstr_nil m a : cstr m a [] ↔ m a = 0.
Proof. unfold cstr. simpl. rewrite Z.add_0_r. naive_solver. Qed.

Lemma cstr_cons m a b l : cstr m a (b :: l) ↔ m a = b ∧ 0 < b < 256 ∧ cstr m (a + 1) l.
Proof.
  unfold cstr. cbn [length]. rewrite bytes_S, Forall_cons.
  replace (a + 1 + Z.of_nat (length l)) with (a + Z.of_nat (S (length l))) by lia.
  split; [intros ([=] & [??] & ?)|intros (-> & ? & -> & ? & ?)]; naive_solver.
Qed.

Lemma cstr_ext m1 m2 a l :
  (∀ x, a ≤ x ≤ a + Z.of_nat (length l) → m1 x = m2 x) → cstr m1 a l → cstr m2 a l.
Proof.
  intros H (Hb & Hl & H0). split; [|split; [done|]].
  - rewrite <- Hb at 2. apply bytes_ext. intros. rewrite H; [done|lia].
  - rewrite <- H; [done|lia].
Qed.

Lemma cstr_upd_out m a l d v :
  ¬ (a ≤ d ≤ a + Z.of_nat (length l)) → cstr m a l → cstr (upd m d v) a l.
Proof. intros Hd. apply cstr_ext. intros x Hx. rewrite upd_ne; [done|lia]. Qed.

Lemma strlen_loop m s l k fuel :
  cstr m (s + k) l → (length l < fuel)%nat →
  KString.strlen fuel m s k = Some (k + Z.of_nat (length l)).
Proof.
  revert k fuel. induction l as [|b l IH]; intros k [|fuel] Hs Hf; try (simpl in Hf; lia).
  - apply cstr_nil in Hs. simpl. rewrite Hs. simpl. f_equal. lia.
  - apply cstr_cons in Hs as (Hb & Hr & Hs). cbn [KString.strlen].
    destruct (Z.eqb_spec (m (s + k)) 0); [lia|].
    rewrite IH; [f_equal; simpl; lia| |simpl in Hf; lia].
    by replace (s + (k + 1)) with (s + k + 1) by lia.
Qed.

Lemma strncmp_cstr m p q n l1 l2 :
  cstr m p l1 → cstr m q l2 → KString.strncmp m p q n = 0 ↔ take n l1 = take n l2.
Proof.
  revert p q l1 l2. induction n as [|n IH]; intros p q l1 l2 H1 H2; [done|].
  cbn [KString.strncmp].
  destruct l1 as [|b1 l1]; [apply cstr_nil in H1|apply cstr_cons in H1 as (Hb1 & Hr1 & H1)];
  (destruct l2 as [|b2 l2]; [apply cstr_nil in H2|apply cstr_cons in H2 as (Hb2 & Hr2 & H2)]).
  - rewrite H1, H2. simpl. done.
  - rewrite H1, Hb2. simpl. rewrite (u8_id b2) by lia. change (u8 0) with 0. split; [lia|done].
  - rewrite Hb1, H2. destruct (Z.eqb_spec b1 0); [lia|]. simpl. rewrite (u8_id b1) by lia.
    change (u8 0) with 0. split; [lia|done].
  - rewrite Hb1, Hb2. destruct (Z.eqb_spec b1 0); [lia|]. simpl.
    destruct (Z.eqb_spec b1 b2) as [->|Hne].
    + rewrite (IH _ _ _ _ H1 H2). split; [by intros ->|by intros [= ->]].
    + rewrite !u8_id by lia. split; [lia|congruence].
Qed.

Lemma zero_fill_writes m s n : KString.zero_fill m s n = writes m s (replicate n 0).
Proof. revert m s. induction n; intros; simpl; auto. Qed.

Lemma strncpy_loop_cstr m s t n l :
  cstr m t l → (t + Z.of_nat (length l) < s ∨ s + Z.of_nat n ≤ t) →
  KString.strncpy_loop m s t n ≡ writes m s (take n (l ++ replicate n 0)).
Proof.
  revert m s t l. induction n as [|n IH]; intros m s t l Hl Hd; [done|].
  cbn [KString.strncpy_loop]. destruct l as [|b l].
  - apply cstr_nil in Hl. rewrite Hl, zero_fill_writes. cbn [app negb Z.eqb].
    rewrite take_ge by (rewrite length_replicate; lia). reflexivity.
  - apply cstr_cons in Hl as (Hb & Hr & Hl). rewrite Hb.
    destruct (Z.eqb_spec b 0); [lia|]. cbn [negb].
    rewrite (IH _ _ _ l); [|apply cstr_upd_out; [simpl in Hd; lia|done]|simpl in Hd; lia].
    simpl. apply writes_proper; [done..|].
    rewrite <- (replicate_S n 0), replicate_S_end, app_assoc, (take_app_le (l ++ _)); [done|].
    rewrite length_app, length_replicate. lia.
Qed.

Lemma safestrcpy_loop_cstr m s t k l :
  cstr m t l → (t + Z.of_nat (length l) < s ∨ s + Z.of_nat k < t) →
  let m' := KString.safestrcpy_loop m s t k in
  cstr m' s (take k l) ∧ (∀ x, ¬ (s ≤ x ≤ s + Z.of_nat k) → m' x = m x).
Proof.
  revert m s t l. induction k as [|k IH]; intros m s t l Hl Hd; simpl.
  - split; [|intros; apply upd_ne; lia]. apply cstr_nil, upd_eq.
  - destruct l as [|b l].
    + apply cstr_nil in Hl. rewrite Hl. simpl. split.
      * apply cstr_nil. rewrite upd_ne by lia. apply upd_eq.
      * intros x Hx. rewrite !upd_ne by lia. done.
    + apply cstr_cons in Hl as (Hb & Hr & Hl). rewrite Hb.
      destruct (Z.eqb_spec b 0); [lia|]. cbn [negb].
      destruct (IH (upd m s b) (s + 1) (t + 1) l) as [Hc Ho];
        [apply cstr_upd_out; [simpl in Hd; lia|done]|simpl in Hd; lia|].
      split.
      * apply cstr_cons. split; [|split; [lia|done]].
        rewrite Ho by lia. rewrite upd_eq. apply u8_id. lia.
      * intros x Hx. rewrite Ho by lia. apply upd_ne. lia.
Qed.

(** * Properties *)

(** [memmove] copies the [n] bytes found at [src] to [dst] and changes no
    other byte, however the two ranges overlap; [memset] fills exactly [n]
    bytes, whichever of its two loops (words or bytes) it takes. *)
Theorem memmove_memset_spec m dst src c n :
  KString.memmove m dst src n ≡ writes m dst (bytes m src n) ∧
  KString.memset m dst c n ≡ writes m dst (replicate n c).
Proof. split; [apply memmove_writes|apply memset_writes]. Qed.

(** [safestrcpy] into a buffer of [n] bytes leaves a NUL-terminated string
    there, the source cut to [n - 1] characters, and writes nowhere else. *)
Theorem safestrcpy_spec m s t n l :
  cstr m t l → 0 < n → (t + Z.of_nat (length l) < s ∨ s + n ≤ t) →
  let m' := KString.safestrcpy m s t n in
  cstr m' s (take (Z.to_nat (n - 1)) l) ∧ (∀ x, ¬ (s ≤ x < s + n) → m' x = m x).
Proof.
  intros Hl Hn Hd. unfold KString.safestrcpy.
  destruct (Z.leb_spec n 0); [lia|].
  destruct (safestrcpy_loop_cstr m s t (Z.to_nat (n - 1)) l) as [H1 H2]; [done|lia|].
  split; [done|]. intros x Hx. apply H2. lia.
Qed.

Lemma safestrcpy_spec_witness :
  let m := writes (λ _, 0) 100 [105; 110; 105; 116] in
  cstr (KString.safestrcpy m 200 100 3) 200 [105; 110].
Proof.
  intros m. refine (proj1 (safestrcpy_spec m 200 100 3 [105; 110; 105; 116] _ _ _)); [|lia|simpl; lia].
  split; [reflexivity|]. split; [|reflexivity]. repeat constructor; lia.
Defined.
