(* ===== verification/KState.v ===== *)
(** The kernel's data: the structures of proc.h, x86.h, spinlock.h, sleeplock.h,
    file.h, buf.h and pipe.c as records, those of the log and the inode cache, and
    the global state [kst] they live in.

    A pointer to a kernel object is the object's name: the slot of its table
    ([ptable.proc], [ftable.file], [icache.inode]), a [lockid] for a spinlock, a
    [chan] for the address a process sleeps on.  Distinct objects have distinct
    addresses, so equality of names is equality of pointers.  Scalar fields hold
    the value C gives them; signal masks and alarm counters, which the two sides
    of the merge declare with different signedness, are 32-bit patterns. *)
From S2P Require Import Prelude Mem Str.

(** * Constants: param.h, mmu.h, proc.h *)
Definition NPROC : nat := 64.
Definition KSTACKSIZE : Z := 4096.
Definition NOFILE : nat := 16.
Definition NFILE : nat := 100.
Definition NUMSIG : nat := 32.
Definition SIGALRM : Z := 14.
Definition PGSIZE : Z := 4096.
Definition SEG_UCODE : Z := 4.
Definition SEG_UDATA : Z := 5.
Definition DPL_USER : Z := 3.
Definition FL_IF : Z := 512.
Definition NBUF : nat := 30.
Definition NINODE : nat := 50.
Definition NDIRECT : nat := 12.
Definition BSIZE : Z := 512.

(** * Names of kernel objects *)

(** The spinlocks of the kernel. *)
Inductive lockid :=
| L_ptable | L_tickslock | L_ftable | L_idelock | L_bcache | L_icache | L_log | L_cons
| L_pipe (addr : Z)
| L_sleeplock (i : nat).

(** The addresses processes sleep on. *)
Inductive chan :=
| C_null
| C_proc (i : nat)
| C_ticks
| C_log
| C_input
| C_nread (pipe : Z)
| C_nwrite (pipe : Z)
| C_sleeplock (i : nat)
| C_buf (i : nat).

#[export] Instance lockid_eq : EqDecision lockid.
Proof. solve_decision. Defined.
#[export] Instance lockid_countable : Countable lockid.
Proof.
  apply (inj_countable'
    (λ l, match l with
          | L_ptable => (0, 0) | L_tickslock => (1, 0) | L_ftable => (2, 0) | L_idelock => (3, 0)
          | L_bcache => (4, 0) | L_icache => (5, 0) | L_log => (6, 0) | L_cons => (7, 0)
          | L_pipe a => (8, a) | L_sleeplock i => (9, Z.of_nat i)
          end)
    (λ p, match p with
          | (0, _) => L_ptable | (1, _) => L_tickslock | (2, _) => L_ftable | (3, _) => L_idelock
          | (4, _) => L_bcache | (5, _) => L_icache | (6, _) => L_log | (7, _) => L_cons
          | (8, a) => L_pipe a | (_, i) => L_sleeplock (Z.to_nat i)
          end)).
  intros []; try done. by rewrite Nat2Z.id.
Defined.
#[export] Instance chan_eq : EqDecision chan.
Proof. solve_decision. Defined.

(** * Structures *)

Inductive procstate := UNUSED | EMBRYO | SLEEPING | RUNNABLE | RUNNING | ZOMBIE.
#[export] Instance procstate_eq : EqDecision procstate.
Proof. solve_decision. Defined.

(** struct cpu (proc.h): what kernel code keeps per CPU *)
Record cpu := mkCpu {
  c_ncli : Z;  (* Depth of pushcli nesting *)
  c_intena : bool;  (* Were interrupts enabled before pushcli? *)
  c_if : bool;  (* FL_IF in eflags *)
  c_esp0 : Z;  (* ts.esp0: kernel stack for interrupts *)
  c_cr3 : Z;  (* page table register *)
}.

(** struct spinlock, without the call stack it records for debugging. *)
Record spinlock := mkLock {
  l_locked : Z;
  l_name : string;
  l_cpu : option nat;  (* the CPU holding the lock *)
}.

(** struct sleeplock; its spinlock is [L_sleeplock i]. *)
Record sleeplock := mkSleep {
  sl_locked : Z;
  sl_name : string;
  sl_pid : Z;
}.

(** struct trapframe (x86.h) *)
Record trapframe := mkTf {
  tf_edi : Z;
  tf_esi : Z;
  tf_ebp : Z;
  tf_oesp : Z;
  tf_ebx : Z;
  tf_edx : Z;
  tf_ecx : Z;
  tf_eax : Z;
  tf_gs : Z;
  tf_padding1 : Z;
  tf_fs : Z;
  tf_padding2 : Z;
  tf_es : Z;
  tf_padding3 : Z;
  tf_ds : Z;
  tf_padding4 : Z;
  tf_trapno : Z;
  tf_err : Z;
  tf_eip : Z;
  tf_cs : Z;
  tf_padding5 : Z;
  tf_eflags : Z;
  tf_esp : Z;
  tf_ss : Z;
  tf_padding6 : Z;
}.
(** struct context (proc.h) *)
Record context := mkContext {
  ctx_edi : Z;
  ctx_esi : Z;
  ctx_ebx : Z;
  ctx_ebp : Z;
  ctx_eip : Z;
}.
(** struct proc (proc.h) *)
Record proc := mkProc {
  p_sz : Z;  (* Size of process memory (bytes) *)
  p_pgdir : Z;  (* Page table *)
  p_kstack : Z;  (* Bottom of kernel stack *)
  p_state : procstate;  (* Process state *)
  p_pid : Z;  (* Process ID *)
  p_parent : option nat;  (* Parent process (slot of ptable) *)
  p_tf : trapframe;  (* Trap frame for current syscall *)
  p_context : context;  (* swtch() here to run process *)
  p_chan : chan;  (* If not C_null, sleeping on chan *)
  p_killed : Z;  (* If non-zero, have been killed *)
  p_ofile : list (option nat);  (* Open files (slots of ftable) *)
  p_cwd : option nat;  (* Current directory (slot of icache) *)
  p_name : list Z;  (* Process name: 16 bytes *)
  p_pending : Z;  (* Pending signals, one bit each (32-bit pattern) *)
  p_handlers : list Z;  (* Signal handlers (user addresses, 0 = default) *)
  p_isHandlingsignal : Z;  (* HEAD: currently handling a signal *)
  p_isHandelingSignal : Z;  (* d445f14: the same flag under its other name *)
  p_alarmFlag : Z;  (* Ticks to the alarm (32-bit pattern) *)
}.

(** struct file (file.h) *)
Inductive ftype := FD_NONE | FD_PIPE | FD_INODE.
#[export] Instance ftype_eq : EqDecision ftype.
Proof. solve_decision. Defined.

Record file := mkFile {
  f_type : ftype;
  f_ref : Z;
  f_readable : Z;
  f_writable : Z;
  f_pipe : Z;            (* address of the pipe, 0 for none *)
  f_ip : option nat;     (* slot of icache *)
  f_off : Z;
}.

(** struct pipe (pipe.c); its spinlock is [L_pipe] of its address. *)
Record pipe := mkPipe {
  pi_data : list Z;
  pi_nread : Z;
  pi_nwrite : Z;
  pi_readopen : Z;
  pi_writeopen : Z;
}.

(** struct buf (buf.h); its sleep lock is named by its index, and so are the buffers it points to *)
Record buf := mkBuf {
  b_flags : Z;  (* B_VALID, B_DIRTY *)
  b_dev : Z;
  b_blockno : Z;
  b_refcnt : Z;
  b_prev : nat;  (* LRU cache list *)
  b_next : nat;
  b_qnext : option nat;  (* disk queue *)
  b_data : list Z;  (* BSIZE bytes *)
}.
(** struct inode (file.h); its sleep lock is named by its slot *)
Record inode := mkInode {
  i_dev : Z;  (* Device number *)
  i_inum : Z;  (* Inode number *)
  i_ref : Z;  (* Reference count *)
  i_flags : Z;  (* I_VALID *)
  i_type : Z;  (* copy of disk inode *)
  i_major : Z;
  i_minor : Z;
  i_nlink : Z;
  i_size : Z;
  i_addrs : list Z;  (* NDIRECT + 1 block numbers *)
}.
(** struct log with its struct logheader (log.c) *)
Record log := mkLog {
  lg_start : Z;
  lg_size : Z;
  lg_outstanding : Z;  (* how many FS sys calls are executing *)
  lg_committing : Z;  (* in commit(), please wait *)
  lg_dev : Z;
  lg_n : Z;  (* lh.n *)
  lg_block : list Z;  (* lh.block *)
}.
(** struct superblock (fs.h) *)
Record superblock := mkSb {
  sb_size : Z;  (* Size of file system image (blocks) *)
  sb_nblocks : Z;  (* Number of data blocks *)
  sb_ninodes : Z;  (* Number of inodes *)
  sb_nlog : Z;  (* Number of log blocks *)
  sb_logstart : Z;  (* Block number of first log block *)
  sb_inodestart : Z;  (* Block number of first inode block *)
  sb_bmapstart : Z;  (* Block number of first free map block *)
}.
(** The state of the file system: bio.c, log.c, fs.c, ide.c and memide.c *)
Record fsst := mkFs {
  fs_bufs : list buf;  (* bcache.buf, and bcache.head as the last entry *)
  fs_log : log;  (* log *)
  fs_sb : superblock;  (* sb *)
  fs_inodes : list inode;  (* icache.inode *)
  fs_idequeue : option nat;  (* idequeue (ide.c) *)
  fs_havedisk1 : Z;  (* havedisk1 (ide.c) *)
  fs_disk : gmap Z (list Z);  (* what the blocks of the disk hold *)
  fs_disksize : Z;  (* disksize (memide.c) *)
  fs_writes : list (Z * list Z);  (* blocks written to the disk, latest first *)
}.

(** The state kernel code runs in *)
Record kst (W : Type) := mkKst {
  k_cpuid : nat;  (* index of the CPU that runs this code *)
  k_cpu : cpu;  (* its struct cpu *)
  k_locks : gmap lockid spinlock;  (* every spinlock of the kernel *)
  k_procs : list proc;  (* ptable.proc *)
  k_nextpid : Z;  (* nextpid *)
  k_cur : option nat;  (* proc: the current process *)
  k_initproc : option nat;  (* initproc *)
  k_ticks : Z;  (* ticks (uint) *)
  k_first : bool;  (* forkret's static first *)
  k_kpgdir : Z;  (* kpgdir *)
  k_files : list file;  (* ftable.file *)
  k_pipes : gmap Z pipe;  (* live struct pipe objects, by address *)
  k_slocks : gmap nat sleeplock;  (* sleep locks *)
  k_mem : W;  (* physical memory and page tables *)
  k_fs : fsst;  (* file system *)
  k_console : list (string * list Z);  (* cprintf calls, latest first *)
}.
Arguments mkKst {W}.
Arguments k_cpuid {W}.
Arguments k_cpu {W}.
Arguments k_locks {W}.
Arguments k_procs {W}.
Arguments k_nextpid {W}.
Arguments k_cur {W}.
Arguments k_initproc {W}.
Arguments k_ticks {W}.
Arguments k_first {W}.
Arguments k_kpgdir {W}.
Arguments k_files {W}.
Arguments k_pipes {W}.
Arguments k_slocks {W}.
Arguments k_mem {W}.
Arguments k_fs {W}.
Arguments k_console {W}.

(** * Field assignment *)

Definition set_c_ncli (v : Z) (r : cpu) : cpu :=
  mkCpu v (c_intena r) (c_if r) (c_esp0 r) (c_cr3 r).
Definition set_c_intena (v : bool) (r : cpu) : cpu :=
  mkCpu (c_ncli r) v (c_if r) (c_esp0 r) (c_cr3 r).
Definition set_c_if (v : bool) (r : cpu) : cpu :=
  mkCpu (c_ncli r) (c_intena r) v (c_esp0 r) (c_cr3 r).
Definition set_c_esp0 (v : Z) (r : cpu) : cpu :=
  mkCpu (c_ncli r) (c_intena r) (c_if r) v (c_cr3 r).
Definition set_c_cr3 (v : Z) (r : cpu) : cpu :=
  mkCpu (c_ncli r) (c_intena r) (c_if r) (c_esp0 r) v.

Definition set_tf_edi (v : Z) (r : trapframe) : trapframe :=
  mkTf v (tf_esi r) (tf_ebp r) (tf_oesp r) (tf_ebx r) (tf_edx r) (tf_ecx r) (tf_eax r) (tf_gs r)
    (tf_padding1 r) (tf_fs r) (tf_padding2 r) (tf_es r) (tf_padding3 r) (tf_ds r) (tf_padding4
    r) (tf_trapno r) (tf_err r) (tf_eip r) (tf_cs r) (tf_padding5 r) (tf_eflags r) (tf_esp r)
    (tf_ss r) (tf_padding6 r).
Definition set_tf_esi (v : Z) (r : trapframe) : trapframe :=
  mkTf (tf_edi r) v (tf_ebp r) (tf_oesp r) (tf_ebx r) (tf_edx r) (tf_ecx r) (tf_eax r) (tf_gs r)
    (tf_padding1 r) (tf_fs r) (tf_padding2 r) (tf_es r) (tf_padding3 r) (tf_ds r) (tf_padding4
    r) (tf_trapno r) (tf_err r) (tf_eip r) (tf_cs r) (tf_padding5 r) (tf_eflags r) (tf_esp r)
    (tf_ss r) (tf_padding6 r).
Definition set_tf_ebp (v : Z) (r : trapframe) : trapframe :=
  mkTf (tf_edi r) (tf_esi r) v (tf_oesp r) (tf_ebx r) (tf_edx r) (tf_ecx r) (tf_eax r) (tf_gs r)
    (tf_padding1 r) (tf_fs r) (tf_padding2 r) (tf_es r) (tf_padding3 r) (tf_ds r) (tf_padding4
    r) (tf_trapno r) (tf_err r) (tf_eip r) (tf_cs r) (tf_padding5 r) (tf_eflags r) (tf_esp r)
    (tf_ss r) (tf_padding6 r).
Definition set_tf_oesp (v : Z) (r : trapframe) : trapframe :=
  mkTf (tf_edi r) (tf_esi r) (tf_ebp r) v (tf_ebx r) (tf_edx r) (tf_ecx r) (tf_eax r) (tf_gs r)
    (tf_padding1 r) (tf_fs r) (tf_padding2 r) (tf_es r) (tf_padding3 r) (tf_ds r) (tf_padding4
    r) (tf_trapno r) (tf_err r) (tf_eip r) (tf_cs r) (tf_padding5 r) (tf_eflags r) (tf_esp r)
    (tf_ss r) (tf_padding6 r).
Definition set_tf_ebx (v : Z) (r : trapframe) : trapframe :=
  mkTf (tf_edi r) (tf_esi r) (tf_ebp r) (tf_oesp r) v (tf_edx r) (tf_ecx r) (tf_eax r) (tf_gs r)
    (tf_padding1 r) (tf_fs r) (tf_padding2 r) (tf_es r) (tf_padding3 r) (tf_ds r) (tf_padding4
    r) (tf_trapno r) (tf_err r) (tf_eip r) (tf_cs r) (tf_padding5 r) (tf_eflags r) (tf_esp r)
    (tf_ss r) (tf_padding6 r).
Definition set_tf_edx (v : Z) (r : trapframe) : trapframe :=
  mkTf (tf_edi r) (tf_esi r) (tf_ebp r) (tf_oesp r) (tf_ebx r) v (tf_ecx r) (tf_eax r) (tf_gs r)
    (tf_padding1 r) (tf_fs r) (tf_padding2 r) (tf_es r) (tf_padding3 r) (tf_ds r) (tf_padding4
    r) (tf_trapno r) (tf_err r) (tf_eip r) (tf_cs r) (tf_padding5 r) (tf_eflags r) (tf_esp r)
    (tf_ss r) (tf_padding6 r).
Definition set_tf_ecx (v : Z) (r : trapframe) : trapframe :=
  mkTf (tf_edi r) (tf_esi r) (tf_ebp r) (tf_oesp r) (tf_ebx r) (tf_edx r) v (tf_eax r) (tf_gs r)
    (tf_padding1 r) (tf_fs r) (tf_padding2 r) (tf_es r) (tf_padding3 r) (tf_ds r) (tf_padding4
    r) (tf_trapno r) (tf_err r) (tf_eip r) (tf_cs r) (tf_padding5 r) (tf_eflags r) (tf_esp r)
    (tf_ss r) (tf_padding6 r).
Definition set_tf_eax (v : Z) (r : trapframe) : trapframe :=
  mkTf (tf_edi r) (tf_esi r) (tf_ebp r) (tf_oesp r) (tf_ebx r) (tf_edx r) (tf_ecx r) v (tf_gs r)
    (tf_padding1 r) (tf_fs r) (tf_padding2 r) (tf_es r) (tf_padding3 r) (tf_ds r) (tf_padding4
    r) (tf_trapno r) (tf_err r) (tf_eip r) (tf_cs r) (tf_padding5 r) (tf_eflags r) (tf_esp r)
    (tf_ss r) (tf_padding6 r).
Definition set_tf_gs (v : Z) (r : trapframe) : trapframe :=
  mkTf (tf_edi r) (tf_esi r) (tf_ebp r) (tf_oesp r) (tf_ebx r) (tf_edx r) (tf_ecx r) (tf_eax r)
    v (tf_padding1 r) (tf_fs r) (tf_padding2 r) (tf_es r) (tf_padding3 r) (tf_ds r) (tf_padding4
    r) (tf_trapno r) (tf_err r) (tf_eip r) (tf_cs r) (tf_padding5 r) (tf_eflags r) (tf_esp r)
    (tf_ss r) (tf_padding6 r).
Definition set_tf_padding1 (v : Z) (r : trapframe) : trapframe :=
  mkTf (tf_edi r) (tf_esi r) (tf_ebp r) (tf_oesp r) (tf_ebx r) (tf_edx r) (tf_ecx r) (tf_eax r)
    (tf_gs r) v (tf_fs r) (tf_padding2 r) (tf_es r) (tf_padding3 r) (tf_ds r) (tf_padding4 r)
    (tf_trapno r) (tf_err r) (tf_eip r) (tf_cs r) (tf_padding5 r) (tf_eflags r) (tf_esp r)
    (tf_ss r) (tf_padding6 r).
Definition set_tf_fs (v : Z) (r : trapframe) : trapframe :=
  mkTf (tf_edi r) (tf_esi r) (tf_ebp r) (tf_oesp r) (tf_ebx r) (tf_edx r) (tf_ecx r) (tf_eax r)
    (tf_gs r) (tf_padding1 r) v (tf_padding2 r) (tf_es r) (tf_padding3 r) (tf_ds r) (tf_padding4
    r) (tf_trapno r) (tf_err r) (tf_eip r) (tf_cs r) (tf_padding5 r) (tf_eflags r) (tf_esp r)
    (tf_ss r) (tf_padding6 r).
Definition set_tf_padding2 (v : Z) (r : trapframe) : trapframe :=
  mkTf (tf_edi r) (tf_esi r) (tf_ebp r) (tf_oesp r) (tf_ebx r) (tf_edx r) (tf_ecx r) (tf_eax r)
    (tf_gs r) (tf_padding1 r) (tf_fs r) v (tf_es r) (tf_padding3 r) (tf_ds r) (tf_padding4 r)
    (tf_trapno r) (tf_err r) (tf_eip r) (tf_cs r) (tf_padding5 r) (tf_eflags r) (tf_esp r)
    (tf_ss r) (tf_padding6 r).
Definition set_tf_es (v : Z) (r : trapframe) : trapframe :=
  mkTf (tf_edi r) (tf_esi r) (tf_ebp r) (tf_oesp r) (tf_ebx r) (tf_edx r) (tf_ecx r) (tf_eax r)
    (tf_gs r) (tf_padding1 r) (tf_fs r) (tf_padding2 r) v (tf_padding3 r) (tf_ds r) (tf_padding4
    r) (tf_trapno r) (tf_err r) (tf_eip r) (tf_cs r) (tf_padding5 r) (tf_eflags r) (tf_esp r)
    (tf_ss r) (tf_padding6 r).
Definition set_tf_padding3 (v : Z) (r : trapframe) : trapframe :=
  mkTf (tf_edi r) (tf_esi r) (tf_ebp r) (tf_oesp r) (tf_ebx r) (tf_edx r) (tf_ecx r) (tf_eax r)
    (tf_gs r) (tf_padding1 r) (tf_fs r) (tf_padding2 r) (tf_es r) v (tf_ds r) (tf_padding4 r)
    (tf_trapno r) (tf_err r) (tf_eip r) (tf_cs r) (tf_padding5 r) (tf_eflags r) (tf_esp r)
    (tf_ss r) (tf_padding6 r).
Definition set_tf_ds (v : Z) (r : trapframe) : trapframe :=
  mkTf (tf_edi r) (tf_esi r) (tf_ebp r) (tf_oesp r) (tf_ebx r) (tf_edx r) (tf_ecx r) (tf_eax r)
    (tf_gs r) (tf_padding1 r) (tf_fs r) (tf_padding2 r) (tf_es r) (tf_padding3 r) v (tf_padding4
    r) (tf_trapno r) (tf_err r) (tf_eip r) (tf_cs r) (tf_padding5 r) (tf_eflags r) (tf_esp r)
    (tf_ss r) (tf_padding6 r).
Definition set_tf_padding4 (v : Z) (r : trapframe) : trapframe :=
  mkTf (tf_edi r) (tf_esi r) (tf_ebp r) (tf_oesp r) (tf_ebx r) (tf_edx r) (tf_ecx r) (tf_eax r)
    (tf_gs r) (tf_padding1 r) (tf_fs r) (tf_padding2 r) (tf_es r) (tf_padding3 r) (tf_ds r) v
    (tf_trapno r) (tf_err r) (tf_eip r) (tf_cs r) (tf_padding5 r) (tf_eflags r) (tf_esp r)
    (tf_ss r) (tf_padding6 r).
Definition set_tf_trapno (v : Z) (r : trapframe) : trapframe :=
  mkTf (tf_edi r) (tf_esi r) (tf_ebp r) (tf_oesp r) (tf_ebx r) (tf_edx r) (tf_ecx r) (tf_eax r)
    (tf_gs r) (tf_padding1 r) (tf_fs r) (tf_padding2 r) (tf_es r) (tf_padding3 r) (tf_ds r)
    (tf_padding4 r) v (tf_err r) (tf_eip r) (tf_cs r) (tf_padding5 r) (tf_eflags r) (tf_esp r)
    (tf_ss r) (tf_padding6 r).
Definition set_tf_err (v : Z) (r : trapframe) : trapframe :=
  mkTf (tf_edi r) (tf_esi r) (tf_ebp r) (tf_oesp r) (tf_ebx r) (tf_edx r) (tf_ecx r) (tf_eax r)
    (tf_gs r) (tf_padding1 r) (tf_fs r) (tf_padding2 r) (tf_es r) (tf_padding3 r) (tf_ds r)
    (tf_padding4 r) (tf_trapno r) v (tf_eip r) (tf_cs r) (tf_padding5 r) (tf_eflags r) (tf_esp
    r) (tf_ss r) (tf_padding6 r).
Definition set_tf_eip (v : Z) (r : trapframe) : trapframe :=
  mkTf (tf_edi r) (tf_esi r) (tf_ebp r) (tf_oesp r) (tf_ebx r) (tf_edx r) (tf_ecx r) (tf_eax r)
    (tf_gs r) (tf_padding1 r) (tf_fs r) (tf_padding2 r) (tf_es r) (tf_padding3 r) (tf_ds r)
    (tf_padding4 r) (tf_trapno r) (tf_err r) v (tf_cs r) (tf_padding5 r) (tf_eflags r) (tf_esp
    r) (tf_ss r) (tf_padding6 r).
Definition set_tf_cs (v : Z) (r : trapframe) : trapframe :=
  mkTf (tf_edi r) (tf_esi r) (tf_ebp r) (tf_oesp r) (tf_ebx r) (tf_edx r) (tf_ecx r) (tf_eax r)
    (tf_gs r) (tf_padding1 r) (tf_fs r) (tf_padding2 r) (tf_es r) (tf_padding3 r) (tf_ds r)
    (tf_padding4 r) (tf_trapno r) (tf_err r) (tf_eip r) v (tf_padding5 r) (tf_eflags r) (tf_esp
    r) (tf_ss r) (tf_padding6 r).
Definition set_tf_padding5 (v : Z) (r : trapframe) : trapframe :=
  mkTf (tf_edi r) (tf_esi r) (tf_ebp r) (tf_oesp r) (tf_ebx r) (tf_edx r) (tf_ecx r) (tf_eax r)
    (tf_gs r) (tf_padding1 r) (tf_fs r) (tf_padding2 r) (tf_es r) (tf_padding3 r) (tf_ds r)
    (tf_padding4 r) (tf_trapno r) (tf_err r) (tf_eip r) (tf_cs r) v (tf_eflags r) (tf_esp r)
    (tf_ss r) (tf_padding6 r).
Definition set_tf_eflags (v : Z) (r : trapframe) : trapframe :=
  mkTf (tf_edi r) (tf_esi r) (tf_ebp r) (tf_oesp r) (tf_ebx r) (tf_edx r) (tf_ecx r) (tf_eax r)
    (tf_gs r) (tf_padding1 r) (tf_fs r) (tf_padding2 r) (tf_es r) (tf_padding3 r) (tf_ds r)
    (tf_padding4 r) (tf_trapno r) (tf_err r) (tf_eip r) (tf_cs r) (tf_padding5 r) v (tf_esp r)
    (tf_ss r) (tf_padding6 r).
Definition set_tf_esp (v : Z) (r : trapframe) : trapframe :=
  mkTf (tf_edi r) (tf_esi r) (tf_ebp r) (tf_oesp r) (tf_ebx r) (tf_edx r) (tf_ecx r) (tf_eax r)
    (tf_gs r) (tf_padding1 r) (tf_fs r) (tf_padding2 r) (tf_es r) (tf_padding3 r) (tf_ds r)
    (tf_padding4 r) (tf_trapno r) (tf_err r) (tf_eip r) (tf_cs r) (tf_padding5 r) (tf_eflags r)
    v (tf_ss r) (tf_padding6 r).
Definition set_tf_ss (v : Z) (r : trapframe) : trapframe :=
  mkTf (tf_edi r) (tf_esi r) (tf_ebp r) (tf_oesp r) (tf_ebx r) (tf_edx r) (tf_ecx r) (tf_eax r)
    (tf_gs r) (tf_padding1 r) (tf_fs r) (tf_padding2 r) (tf_es r) (tf_padding3 r) (tf_ds r)
    (tf_padding4 r) (tf_trapno r) (tf_err r) (tf_eip r) (tf_cs r) (tf_padding5 r) (tf_eflags r)
    (tf_esp r) v (tf_padding6 r).
Definition set_tf_padding6 (v : Z) (r : trapframe) : trapframe :=
  mkTf (tf_edi r) (tf_esi r) (tf_ebp r) (tf_oesp r) (tf_ebx r) (tf_edx r) (tf_ecx r) (tf_eax r)
    (tf_gs r) (tf_padding1 r) (tf_fs r) (tf_padding2 r) (tf_es r) (tf_padding3 r) (tf_ds r)
    (tf_padding4 r) (tf_trapno r) (tf_err r) (tf_eip r) (tf_cs r) (tf_padding5 r) (tf_eflags r)
    (tf_esp r) (tf_ss r) v.

Definition set_p_sz (v : Z) (r : proc) : proc :=
  mkProc v (p_pgdir r) (p_kstack r) (p_state r) (p_pid r) (p_parent r) (p_tf r) (p_context r)
    (p_chan r) (p_killed r) (p_ofile r) (p_cwd r) (p_name r) (p_pending r) (p_handlers r)
    (p_isHandlingsignal r) (p_isHandelingSignal r) (p_alarmFlag r).
Definition set_p_pgdir (v : Z) (r : proc) : proc :=
  mkProc (p_sz r) v (p_kstack r) (p_state r) (p_pid r) (p_parent r) (p_tf r) (p_context r)
    (p_chan r) (p_killed r) (p_ofile r) (p_cwd r) (p_name r) (p_pending r) (p_handlers r)
    (p_isHandlingsignal r) (p_isHandelingSignal r) (p_alarmFlag r).
Definition set_p_kstack (v : Z) (r : proc) : proc :=
  mkProc (p_sz r) (p_pgdir r) v (p_state r) (p_pid r) (p_parent r) (p_tf r) (p_context r)
    (p_chan r) (p_killed r) (p_ofile r) (p_cwd r) (p_name r) (p_pending r) (p_handlers r)
    (p_isHandlingsignal r) (p_isHandelingSignal r) (p_alarmFlag r).
Definition set_p_state (v : procstate) (r : proc) : proc :=
  mkProc (p_sz r) (p_pgdir r) (p_kstack r) v (p_pid r) (p_parent r) (p_tf r) (p_context r)
    (p_chan r) (p_killed r) (p_ofile r) (p_cwd r) (p_name r) (p_pending r) (p_handlers r)
    (p_isHandlingsignal r) (p_isHandelingSignal r) (p_alarmFlag r).
Definition set_p_pid (v : Z) (r : proc) : proc :=
  mkProc (p_sz r) (p_pgdir r) (p_kstack r) (p_state r) v (p_parent r) (p_tf r) (p_context r)
    (p_chan r) (p_killed r) (p_ofile r) (p_cwd r) (p_name r) (p_pending r) (p_handlers r)
    (p_isHandlingsignal r) (p_isHandelingSignal r) (p_alarmFlag r).
Definition set_p_parent (v : option nat) (r : proc) : proc :=
  mkProc (p_sz r) (p_pgdir r) (p_kstack r) (p_state r) (p_pid r) v (p_tf r) (p_context r)
    (p_chan r) (p_killed r) (p_ofile r) (p_cwd r) (p_name r) (p_pending r) (p_handlers r)
    (p_isHandlingsignal r) (p_isHandelingSignal r) (p_alarmFlag r).
Definition set_p_tf (v : trapframe) (r : proc) : proc :=
  mkProc (p_sz r) (p_pgdir r) (p_kstack r) (p_state r) (p_pid r) (p_parent r) v (p_context r)
    (p_chan r) (p_killed r) (p_ofile r) (p_cwd r) (p_name r) (p_pending r) (p_handlers r)
    (p_isHandlingsignal r) (p_isHandelingSignal r) (p_alarmFlag r).
Definition set_p_context (v : context) (r : proc) : proc :=
  mkProc (p_sz r) (p_pgdir r) (p_kstack r) (p_state r) (p_pid r) (p_parent r) (p_tf r) v (p_chan
    r) (p_killed r) (p_ofile r) (p_cwd r) (p_name r) (p_pending r) (p_handlers r)
    (p_isHandlingsignal r) (p_isHandelingSignal r) (p_alarmFlag r).
Definition set_p_chan (v : chan) (r : proc) : proc :=
  mkProc (p_sz r) (p_pgdir r) (p_kstack r) (p_state r) (p_pid r) (p_parent r) (p_tf r)
    (p_context r) v (p_killed r) (p_ofile r) (p_cwd r) (p_name r) (p_pending r) (p_handlers r)
    (p_isHandlingsignal r) (p_isHandelingSignal r) (p_alarmFlag r).
Definition set_p_killed (v : Z) (r : proc) : proc :=
  mkProc (p_sz r) (p_pgdir r) (p_kstack r) (p_state r) (p_pid r) (p_parent r) (p_tf r)
    (p_context r) (p_chan r) v (p_ofile r) (p_cwd r) (p_name r) (p_pending r) (p_handlers r)
    (p_isHandlingsignal r) (p_isHandelingSignal r) (p_alarmFlag r).
Definition set_p_ofile (v : list (option nat)) (r : proc) : proc :=
  mkProc (p_sz r) (p_pgdir r) (p_kstack r) (p_state r) (p_pid r) (p_parent r) (p_tf r)
    (p_context r) (p_chan r) (p_killed r) v (p_cwd r) (p_name r) (p_pending r) (p_handlers r)
    (p_isHandlingsignal r) (p_isHandelingSignal r) (p_alarmFlag r).
Definition set_p_cwd (v : option nat) (r : proc) : proc :=
  mkProc (p_sz r) (p_pgdir r) (p_kstack r) (p_state r) (p_pid r) (p_parent r) (p_tf r)
    (p_context r) (p_chan r) (p_killed r) (p_ofile r) v (p_name r) (p_pending r) (p_handlers r)
    (p_isHandlingsignal r) (p_isHandelingSignal r) (p_alarmFlag r).
Definition set_p_name (v : list Z) (r : proc) : proc :=
  mkProc (p_sz r) (p_pgdir r) (p_kstack r) (p_state r) (p_pid r) (p_parent r) (p_tf r)
    (p_context r) (p_chan r) (p_killed r) (p_ofile r) (p_cwd r) v (p_pending r) (p_handlers r)
    (p_isHandlingsignal r) (p_isHandelingSignal r) (p_alarmFlag r).
Definition set_p_pending (v : Z) (r : proc) : proc :=
  mkProc (p_sz r) (p_pgdir r) (p_kstack r) (p_state r) (p_pid r) (p_parent r) (p_tf r)
    (p_context r) (p_chan r) (p_killed r) (p_ofile r) (p_cwd r) (p_name r) v (p_handlers r)
    (p_isHandlingsignal r) (p_isHandelingSignal r) (p_alarmFlag r).
Definition set_p_handlers (v : list Z) (r : proc) : proc :=
  mkProc (p_sz r) (p_pgdir r) (p_kstack r) (p_state r) (p_pid r) (p_parent r) (p_tf r)
    (p_context r) (p_chan r) (p_killed r) (p_ofile r) (p_cwd r) (p_name r) (p_pending r) v
    (p_isHandlingsignal r) (p_isHandelingSignal r) (p_alarmFlag r).
Definition set_p_isHandlingsignal (v : Z) (r : proc) : proc :=
  mkProc (p_sz r) (p_pgdir r) (p_kstack r) (p_state r) (p_pid r) (p_parent r) (p_tf r)
    (p_context r) (p_chan r) (p_killed r) (p_ofile r) (p_cwd r) (p_name r) (p_pending r)
    (p_handlers r) v (p_isHandelingSignal r) (p_alarmFlag r).
Definition set_p_isHandelingSignal (v : Z) (r : proc) : proc :=
  mkProc (p_sz r) (p_pgdir r) (p_kstack r) (p_state r) (p_pid r) (p_parent r) (p_tf r)
    (p_context r) (p_chan r) (p_killed r) (p_ofile r) (p_cwd r) (p_name r) (p_pending r)
    (p_handlers r) (p_isHandlingsignal r) v (p_alarmFlag r).
Definition set_p_alarmFlag (v : Z) (r : proc) : proc :=
  mkProc (p_sz r) (p_pgdir r) (p_kstack r) (p_state r) (p_pid r) (p_parent r) (p_tf r)
    (p_context r) (p_chan r) (p_killed r) (p_ofile r) (p_cwd r) (p_name r) (p_pending r)
    (p_handlers r) (p_isHandlingsignal r) (p_isHandelingSignal r) v.

Definition set_k_cpuid {W} (v : nat) (r : kst W) : kst W :=
  mkKst v (k_cpu r) (k_locks r) (k_procs r) (k_nextpid r) (k_cur r) (k_initproc r) (k_ticks r)
    (k_first r) (k_kpgdir r) (k_files r) (k_pipes r) (k_slocks r) (k_mem r) (k_fs r) (k_console
    r).
Definition set_k_cpu {W} (v : cpu) (r : kst W) : kst W :=
  mkKst (k_cpuid r) v (k_locks r) (k_procs r) (k_nextpid r) (k_cur r) (k_initproc r) (k_ticks r)
    (k_first r) (k_kpgdir r) (k_files r) (k_pipes r) (k_slocks r) (k_mem r) (k_fs r) (k_console
    r).
Definition set_k_locks {W} (v : gmap lockid spinlock) (r : kst W) : kst W :=
  mkKst (k_cpuid r) (k_cpu r) v (k_procs r) (k_nextpid r) (k_cur r) (k_initproc r) (k_ticks r)
    (k_first r) (k_kpgdir r) (k_files r) (k_pipes r) (k_slocks r) (k_mem r) (k_fs r) (k_console
    r).
Definition set_k_procs {W} (v : list proc) (r : kst W) : kst W :=
  mkKst (k_cpuid r) (k_cpu r) (k_locks r) v (k_nextpid r) (k_cur r) (k_initproc r) (k_ticks r)
    (k_first r) (k_kpgdir r) (k_files r) (k_pipes r) (k_slocks r) (k_mem r) (k_fs r) (k_console
    r).
Definition set_k_nextpid {W} (v : Z) (r : kst W) : kst W :=
  mkKst (k_cpuid r) (k_cpu r) (k_locks r) (k_procs r) v (k_cur r) (k_initproc r) (k_ticks r)
    (k_first r) (k_kpgdir r) (k_files r) (k_pipes r) (k_slocks r) (k_mem r) (k_fs r) (k_console
    r).
Definition set_k_cur {W} (v : option nat) (r : kst W) : kst W :=
  mkKst (k_cpuid r) (k_cpu r) (k_locks r) (k_procs r) (k_nextpid r) v (k_initproc r) (k_ticks r)
    (k_first r) (k_kpgdir r) (k_files r) (k_pipes r) (k_slocks r) (k_mem r) (k_fs r) (k_console
    r).
Definition set_k_initproc {W} (v : option nat) (r : kst W) : kst W :=
  mkKst (k_cpuid r) (k_cpu r) (k_locks r) (k_procs r) (k_nextpid r) (k_cur r) v (k_ticks r)
    (k_first r) (k_kpgdir r) (k_files r) (k_pipes r) (k_slocks r) (k_mem r) (k_fs r) (k_console
    r).
Definition set_k_ticks {W} (v : Z) (r : kst W) : kst W :=
  mkKst (k_cpuid r) (k_cpu r) (k_locks r) (k_procs r) (k_nextpid r) (k_cur r) (k_initproc r) v
    (k_first r) (k_kpgdir r) (k_files r) (k_pipes r) (k_slocks r) (k_mem r) (k_fs r) (k_console
    r).
Definition set_k_first {W} (v : bool) (r : kst W) : kst W :=
  mkKst (k_cpuid r) (k_cpu r) (k_locks r) (k_procs r) (k_nextpid r) (k_cur r) (k_initproc r)
    (k_ticks r) v (k_kpgdir r) (k_files r) (k_pipes r) (k_slocks r) (k_mem r) (k_fs r)
    (k_console r).
Definition set_k_kpgdir {W} (v : Z) (r : kst W) : kst W :=
  mkKst (k_cpuid r) (k_cpu r) (k_locks r) (k_procs r) (k_nextpid r) (k_cur r) (k_initproc r)
    (k_ticks r) (k_first r) v (k_files r) (k_pipes r) (k_slocks r) (k_mem r) (k_fs r) (k_console
    r).
Definition set_k_files {W} (v : list file) (r : kst W) : kst W :=
  mkKst (k_cpuid r) (k_cpu r) (k_locks r) (k_procs r) (k_nextpid r) (k_cur r) (k_initproc r)
    (k_ticks r) (k_first r) (k_kpgdir r) v (k_pipes r) (k_slocks r) (k_mem r) (k_fs r)
    (k_console r).
Definition set_k_pipes {W} (v : gmap Z pipe) (r : kst W) : kst W :=
  mkKst (k_cpuid r) (k_cpu r) (k_locks r) (k_procs r) (k_nextpid r) (k_cur r) (k_initproc r)
    (k_ticks r) (k_first r) (k_kpgdir r) (k_files r) v (k_slocks r) (k_mem r) (k_fs r)
    (k_console r).
Definition set_k_slocks {W} (v : gmap nat sleeplock) (r : kst W) : kst W :=
  mkKst (k_cpuid r) (k_cpu r) (k_locks r) (k_procs r) (k_nextpid r) (k_cur r) (k_initproc r)
    (k_ticks r) (k_first r) (k_kpgdir r) (k_files r) (k_pipes r) v (k_mem r) (k_fs r) (k_console
    r).
Definition set_k_mem {W} (v : W) (r : kst W) : kst W :=
  mkKst (k_cpuid r) (k_cpu r) (k_locks r) (k_procs r) (k_nextpid r) (k_cur r) (k_initproc r)
    (k_ticks r) (k_first r) (k_kpgdir r) (k_files r) (k_pipes r) (k_slocks r) v (k_fs r)
    (k_console r).
Definition set_k_fs {W} (v : fsst) (r : kst W) : kst W :=
  mkKst (k_cpuid r) (k_cpu r) (k_locks r) (k_procs r) (k_nextpid r) (k_cur r) (k_initproc r)
    (k_ticks r) (k_first r) (k_kpgdir r) (k_files r) (k_pipes r) (k_slocks r) (k_mem r) v
    (k_console r).
Definition set_k_console {W} (v : list (string * list Z)) (r : kst W) : kst W :=
  mkKst (k_cpuid r) (k_cpu r) (k_locks r) (k_procs r) (k_nextpid r) (k_cur r) (k_initproc r)
    (k_ticks r) (k_first r) (k_kpgdir r) (k_files r) (k_pipes r) (k_slocks r) (k_mem r) (k_fs r)
    v.

Definition set_b_flags (v : Z) (r : buf) : buf :=
  mkBuf v (b_dev r) (b_blockno r) (b_refcnt r) (b_prev r) (b_next r) (b_qnext r) (b_data r).
Definition set_b_dev (v : Z) (r : buf) : buf :=
  mkBuf (b_flags r) v (b_blockno r) (b_refcnt r) (b_prev r) (b_next r) (b_qnext r) (b_data r).
Definition set_b_blockno (v : Z) (r : buf) : buf :=
  mkBuf (b_flags r) (b_dev r) v (b_refcnt r) (b_prev r) (b_next r) (b_qnext r) (b_data r).
Definition set_b_refcnt (v : Z) (r : buf) : buf :=
  mkBuf (b_flags r) (b_dev r) (b_blockno r) v (b_prev r) (b_next r) (b_qnext r) (b_data r).
Definition set_b_prev (v : nat) (r : buf) : buf :=
  mkBuf (b_flags r) (b_dev r) (b_blockno r) (b_refcnt r) v (b_next r) (b_qnext r) (b_data r).
Definition set_b_next (v : nat) (r : buf) : buf :=
  mkBuf (b_flags r) (b_dev r) (b_blockno r) (b_refcnt r) (b_prev r) v (b_qnext r) (b_data r).
Definition set_b_qnext (v : option nat) (r : buf) : buf :=
  mkBuf (b_flags r) (b_dev r) (b_blockno r) (b_refcnt r) (b_prev r) (b_next r) v (b_data r).
Definition set_b_data (v : list Z) (r : buf) : buf :=
  mkBuf (b_flags r) (b_dev r) (b_blockno r) (b_refcnt r) (b_prev r) (b_next r) (b_qnext r) v.

Definition set_i_dev (v : Z) (r : inode) : inode :=
  mkInode v (i_inum r) (i_ref r) (i_flags r) (i_type r) (i_major r) (i_minor r) (i_nlink r)
    (i_size r) (i_addrs r).
Definition set_i_inum (v : Z) (r : inode) : inode :=
  mkInode (i_dev r) v (i_ref r) (i_flags r) (i_type r) (i_major r) (i_minor r) (i_nlink r)
    (i_size r) (i_addrs r).
Definition set_i_ref (v : Z) (r : inode) : inode :=
  mkInode (i_dev r) (i_inum r) v (i_flags r) (i_type r) (i_major r) (i_minor r) (i_nlink r)
    (i_size r) (i_addrs r).
Definition set_i_flags (v : Z) (r : inode) : inode :=
  mkInode (i_dev r) (i_inum r) (i_ref r) v (i_type r) (i_major r) (i_minor r) (i_nlink r)
    (i_size r) (i_addrs r).
Definition set_i_type (v : Z) (r : inode) : inode :=
  mkInode (i_dev r) (i_inum r) (i_ref r) (i_flags r) v (i_major r) (i_minor r) (i_nlink r)
    (i_size r) (i_addrs r).
Definition set_i_major (v : Z) (r : inode) : inode :=
  mkInode (i_dev r) (i_inum r) (i_ref r) (i_flags r) (i_type r) v (i_minor r) (i_nlink r)
    (i_size r) (i_addrs r).
Definition set_i_minor (v : Z) (r : inode) : inode :=
  mkInode (i_dev r) (i_inum r) (i_ref r) (i_flags r) (i_type r) (i_major r) v (i_nlink r)
    (i_size r) (i_addrs r).
Definition set_i_nlink (v : Z) (r : inode) : inode :=
  mkInode (i_dev r) (i_inum r) (i_ref r) (i_flags r) (i_type r) (i_major r) (i_minor r) v
    (i_size r) (i_addrs r).
Definition set_i_size (v : Z) (r : inode) : inode :=
  mkInode (i_dev r) (i_inum r) (i_ref r) (i_flags r) (i_type r) (i_major r) (i_minor r) (i_nlink
    r) v (i_addrs r).
Definition set_i_addrs (v : list Z) (r : inode) : inode :=
  mkInode (i_dev r) (i_inum r) (i_ref r) (i_flags r) (i_type r) (i_major r) (i_minor r) (i_nlink
    r) (i_size r) v.

Definition set_lg_start (v : Z) (r : log) : log :=
  mkLog v (lg_size r) (lg_outstanding r) (lg_committing r) (lg_dev r) (lg_n r) (lg_block r).
Definition set_lg_size (v : Z) (r : log) : log :=
  mkLog (lg_start r) v (lg_outstanding r) (lg_committing r) (lg_dev r) (lg_n r) (lg_block r).
Definition set_lg_outstanding (v : Z) (r : log) : log :=
  mkLog (lg_start r) (lg_size r) v (lg_committing r) (lg_dev r) (lg_n r) (lg_block r).
Definition set_lg_committing (v : Z) (r : log) : log :=
  mkLog (lg_start r) (lg_size r) (lg_outstanding r) v (lg_dev r) (lg_n r) (lg_block r).
Definition set_lg_dev (v : Z) (r : log) : log :=
  mkLog (lg_start r) (lg_size r) (lg_outstanding r) (lg_committing r) v (lg_n r) (lg_block r).
Definition set_lg_n (v : Z) (r : log) : log :=
  mkLog (lg_start r) (lg_size r) (lg_outstanding r) (lg_committing r) (lg_dev r) v (lg_block r).
Definition set_lg_block (v : list Z) (r : log) : log :=
  mkLog (lg_start r) (lg_size r) (lg_outstanding r) (lg_committing r) (lg_dev r) (lg_n r) v.

Definition set_sb_size (v : Z) (r : superblock) : superblock :=
  mkSb v (sb_nblocks r) (sb_ninodes r) (sb_nlog r) (sb_logstart r) (sb_inodestart r)
    (sb_bmapstart r).
Definition set_sb_nblocks (v : Z) (r : superblock) : superblock :=
  mkSb (sb_size r) v (sb_ninodes r) (sb_nlog r) (sb_logstart r) (sb_inodestart r) (sb_bmapstart r).
Definition set_sb_ninodes (v : Z) (r : superblock) : superblock :=
  mkSb (sb_size r) (sb_nblocks r) v (sb_nlog r) (sb_logstart r) (sb_inodestart r) (sb_bmapstart r).
Definition set_sb_nlog (v : Z) (r : superblock) : superblock :=
  mkSb (sb_size r) (sb_nblocks r) (sb_ninodes r) v (sb_logstart r) (sb_inodestart r)
    (sb_bmapstart r).
Definition set_sb_logstart (v : Z) (r : superblock) : superblock :=
  mkSb (sb_size r) (sb_nblocks r) (sb_ninodes r) (sb_nlog r) v (sb_inodestart r) (sb_bmapstart r).
Definition set_sb_inodestart (v : Z) (r : superblock) : superblock :=
  mkSb (sb_size r) (sb_nblocks r) (sb_ninodes r) (sb_nlog r) (sb_logstart r) v (sb_bmapstart r).
Definition set_sb_bmapstart (v : Z) (r : superblock) : superblock :=
  mkSb (sb_size r) (sb_nblocks r) (sb_ninodes r) (sb_nlog r) (sb_logstart r) (sb_inodestart r) v.

Definition set_fs_bufs (v : list buf) (r : fsst) : fsst :=
  mkFs v (fs_log r) (fs_sb r) (fs_inodes r) (fs_idequeue r) (fs_havedisk1 r) (fs_disk r)
    (fs_disksize r) (fs_writes r).
Definition set_fs_log (v : log) (r : fsst) : fsst :=
  mkFs (fs_bufs r) v (fs_sb r) (fs_inodes r) (fs_idequeue r) (fs_havedisk1 r) (fs_disk r)
    (fs_disksize r) (fs_writes r).
Definition set_fs_sb (v : superblock) (r : fsst) : fsst :=
  mkFs (fs_bufs r) (fs_log r) v (fs_inodes r) (fs_idequeue r) (fs_havedisk1 r) (fs_disk r)
    (fs_disksize r) (fs_writes r).
Definition set_fs_inodes (v : list inode) (r : fsst) : fsst :=
  mkFs (fs_bufs r) (fs_log r) (fs_sb r) v (fs_idequeue r) (fs_havedisk1 r) (fs_disk r)
    (fs_disksize r) (fs_writes r).
Definition set_fs_idequeue (v : option nat) (r : fsst) : fsst :=
  mkFs (fs_bufs r) (fs_log r) (fs_sb r) (fs_inodes r) v (fs_havedisk1 r) (fs_disk r)
    (fs_disksize r) (fs_writes r).
Definition set_fs_havedisk1 (v : Z) (r : fsst) : fsst :=
  mkFs (fs_bufs r) (fs_log r) (fs_sb r) (fs_inodes r) (fs_idequeue r) v (fs_disk r) (fs_disksize
    r) (fs_writes r).
Definition set_fs_disk (v : gmap Z (list Z)) (r : fsst) : fsst :=
  mkFs (fs_bufs r) (fs_log r) (fs_sb r) (fs_inodes r) (fs_idequeue r) (fs_havedisk1 r) v
    (fs_disksize r) (fs_writes r).
Definition set_fs_disksize (v : Z) (r : fsst) : fsst :=
  mkFs (fs_bufs r) (fs_log r) (fs_sb r) (fs_inodes r) (fs_idequeue r) (fs_havedisk1 r) (fs_disk
    r) v (fs_writes r).
Definition set_fs_writes (v : list (Z * list Z)) (r : fsst) : fsst :=
  mkFs (fs_bufs r) (fs_log r) (fs_sb r) (fs_inodes r) (fs_idequeue r) (fs_havedisk1 r) (fs_disk
    r) (fs_disksize r) v.

(** Assignment to a field of [ptable.proc[i]]. *)
Definition upd_proc {W} (i : nat) (f : proc → proc) (s : kst W) : kst W :=
  set_k_procs (alter f i (k_procs s)) s.

Definition lock_of {W} (s : kst W) (l : lockid) : spinlock :=
  default (mkLock 0 EmptyString None) (k_locks s !! l).
Definition upd_lock {W} (l : lockid) (lk : spinlock) (s : kst W) : kst W :=
  set_k_locks (<[l := lk]> (k_locks s)) s.

(** * Bytes of a trap frame

    The 19 words of [struct trapframe] in the order of its declaration, two
    [ushort] fields to a word: what [memmove] copies to and from user stacks. *)

Definition tf_words (t : trapframe) : list Z :=
  [ tf_edi t; tf_esi t; tf_ebp t; tf_oesp t; tf_ebx t; tf_edx t; tf_ecx t; tf_eax t;
    tf_gs t + 2^16 * tf_padding1 t; tf_fs t + 2^16 * tf_padding2 t;
    tf_es t + 2^16 * tf_padding3 t; tf_ds t + 2^16 * tf_padding4 t;
    tf_trapno t; tf_err t; tf_eip t;
    tf_cs t + 2^16 * tf_padding5 t; tf_eflags t; tf_esp t; tf_ss t + 2^16 * tf_padding6 t ].

Definition tf_bytes (t : trapframe) : list Z := concat (le32 <$> tf_words t).
Definition tf_size : nat := 76.

Definition lo16 (w : Z) : Z := w mod 2^16.
Definition hi16 (w : Z) : Z := w / 2^16.

Definition tf_of_words (w : list Z) : trapframe :=
  let g i := default 0 (w !! i) in
  mkTf (g 0%nat) (g 1%nat) (g 2%nat) (g 3%nat) (g 4%nat) (g 5%nat) (g 6%nat) (g 7%nat)
    (lo16 (g 8%nat)) (hi16 (g 8%nat)) (lo16 (g 9%nat)) (hi16 (g 9%nat))
    (lo16 (g 10%nat)) (hi16 (g 10%nat)) (lo16 (g 11%nat)) (hi16 (g 11%nat))
    (g 12%nat) (g 13%nat) (g 14%nat) (lo16 (g 15%nat)) (hi16 (g 15%nat))
    (g 16%nat) (g 17%nat) (lo16 (g 18%nat)) (hi16 (g 18%nat)).

(** Words from bytes, four at a time. *)
Fixpoint words_of (n : nat) (bs : list Z) : list Z :=
  match n with
  | O => []
  | S n' => of_le (take 4 bs) :: words_of n' (drop 4 bs)
  end.

Definition tf_of_bytes (bs : list Z) : trapframe := tf_of_words (words_of 19 bs).

(** Evaluate field assignments. *)
Ltac kunf := unfold set_k_cpuid, set_k_cpu, set_k_locks, set_k_procs, set_k_nextpid, set_k_cur,
  set_k_initproc, set_k_ticks, set_k_first, set_k_kpgdir, set_k_files, set_k_pipes, set_k_slocks,
  set_k_mem, set_k_fs, set_k_console in *; cbn.
Ltac punf := unfold set_p_sz, set_p_pgdir, set_p_kstack, set_p_state, set_p_pid, set_p_parent,
  set_p_tf, set_p_context, set_p_chan, set_p_killed, set_p_ofile, set_p_cwd, set_p_name,
  set_p_pending, set_p_handlers, set_p_isHandlingsignal, set_p_isHandelingSignal, set_p_alarmFlag,
  set_tf_edi, set_tf_esi, set_tf_ebp, set_tf_oesp, set_tf_ebx, set_tf_edx, set_tf_ecx, set_tf_eax,
  set_tf_gs, set_tf_padding1, set_tf_fs, set_tf_padding2, set_tf_es, set_tf_padding3, set_tf_ds,
  set_tf_padding4, set_tf_trapno, set_tf_err, set_tf_eip, set_tf_cs, set_tf_padding5,
  set_tf_eflags, set_tf_esp, set_tf_ss, set_tf_padding6 in *; cbn.

(** * The state at boot

    What the loader and the zeroed .bss leave: an empty process table and file
    table, no lock initialised, [nextpid = 1], [forkret]'s [first = 1]. *)
Definition tf0 : trapframe := tf_of_words [].
Definition proc0 : proc :=
  mkProc 0 0 0 UNUSED 0 None tf0 (mkContext 0 0 0 0 0) C_null 0 (replicate NOFILE None) None
    (replicate 16 0) 0 (replicate NUMSIG 0) 0 0 0.
Definition file0 : file := mkFile FD_NONE 0 0 0 0 None 0.
Definition buf0 : buf := mkBuf 0 0 0 0 0 0 None (replicate (Z.to_nat BSIZE) 0).
Definition inode0 : inode := mkInode 0 0 0 0 0 0 0 0 0 (replicate (S NDIRECT) 0).
Definition fs0 : fsst :=
  mkFs (replicate (S NBUF) buf0) (mkLog 0 0 0 0 0 0 (replicate NBUF 0)) (mkSb 0 0 0 0 0 0 0)
    (replicate NINODE inode0) None 0 ∅ 0 [].
Definition kst_boot {W} (w : W) : kst W :=
  mkKst 0%nat (mkCpu 0 false false 0 0) ∅ (replicate NPROC proc0) 1 None None 0 true 0
    (replicate NFILE file0) ∅ ∅ w fs0 [].
