(* ===== verification/Spinlock.v ===== *)
(** spinlock.c.  The first part is the code as one CPU runs it, over the kernel
    state: [pushcli]/[popcli] nesting, [acquire], [release], [holding].  The
    second part, [Module MP], is the same code cut at its atomic memory accesses
    and run by any number of CPUs: mutual exclusion is an invariant of every
    interleaving. *)
From S2P Require Import Prelude Mem KState.

Section Spinlock.
Context {W : Type}.

Definition initlock (l : lockid) (name : string) : M (kst W) unit :=
  modify (upd_lock l (mkLock 0 name None)).

(** [lock->locked && lock->cpu == cpu] *)
Definition holdingb (l : lockid) (s : kst W) : bool :=
  negb (l_locked (lock_of s l) =? 0) && bool_decide (l_cpu (lock_of s l) = Some (k_cpuid s)).

Definition holding (l : lockid) : M (kst W) bool := gets (holdingb l).

Definition readeflags_if : M (kst W) bool := gets (λ s, c_if (k_cpu s)).
Definition upd_cpu (f : cpu → cpu) : M (kst W) unit := modify (λ s, set_k_cpu (f (k_cpu s)) s).
Definition cli : M (kst W) unit := upd_cpu (set_c_if false).
Definition sti : M (kst W) unit := upd_cpu (set_c_if true).

Definition pushcli : M (kst W) unit :=
  eflags <- readeflags_if ;;
  cli ;;;
  n <- gets (λ s, c_ncli (k_cpu s)) ;;
  when (n =? 0) (upd_cpu (set_c_intena eflags)) ;;;
  upd_cpu (λ c, set_c_ncli (c_ncli c + 1) c).

Definition popcli : M (kst W) unit :=
  eflags <- readeflags_if ;;
  (if eflags : bool then panic "popcli - interruptible" else ret tt) ;;;
  upd_cpu (λ c, set_c_ncli (c_ncli c - 1) c) ;;;
  n <- gets (λ s, c_ncli (k_cpu s)) ;;
  (if n <? 0 then panic "popcli" else ret tt) ;;;
  i <- gets (λ s, c_intena (k_cpu s)) ;;
  when ((n =? 0) && i) sti.

(** [while(xchg(&lk->locked, 1) != 0);]: on one CPU a lock that is already taken
    stays taken for as long as this code spins. *)
Definition spin_xchg (l : lockid) : M (kst W) unit := λ s,
  let lk := lock_of s l in
  if l_locked lk =? 0 then Done tt (upd_lock l (mkLock 1 (l_name lk) (l_cpu lk)) s) else Spin.

Definition acquire (l : lockid) : M (kst W) unit :=
  pushcli ;;;
  h <- holding l ;;
  (if h : bool then panic "acquire" else ret tt) ;;;
  spin_xchg l ;;;
  modify (λ s, let lk := lock_of s l in
    upd_lock l (mkLock (l_locked lk) (l_name lk) (Some (k_cpuid s))) s).

Definition release (l : lockid) : M (kst W) unit :=
  h <- holding l ;;
  (if h : bool then ret tt else panic "release") ;;;
  modify (λ s, let lk := lock_of s l in upd_lock l (mkLock (l_locked lk) (l_name lk) None) s) ;;;
  modify (λ s, let lk := lock_of s l in upd_lock l (mkLock 0 (l_name lk) (l_cpu lk)) s) ;;;
  popcli.

End Spinlock.

Arguments pushcli : simpl never.
Arguments popcli : simpl never.
Arguments acquire : simpl never.
Arguments release : simpl never.
Arguments spin_xchg : simpl never.

(** [getcallerpcs(v, pcs)]: follow at most ten saved frame pointers from [v],
    reading kernel memory; the unused entries of [pcs] are zero. *)
Definition KERNBASE : Z := 2147483648.

Fixpoint getcallerpcs_loop (m : mem) (ebp : Z) (i : nat) : list Z :=
  match i with
  | O => []
  | S i' =>
    if (ebp =? 0) || (ebp <? KERNBASE) || (ebp =? 2^32 - 1) then replicate i 0
    else load32 m (u32 (ebp + 4)) :: getcallerpcs_loop m (load32 m ebp) i'
  end.

Definition getcallerpcs (m : mem) (v : Z) : list Z := getcallerpcs_loop m (u32 (v - 8)) 10.

(** * One CPU: what the routines compute *)

Definition push_cpu (c : cpu) : cpu :=
  mkCpu (c_ncli c + 1) (if c_ncli c =? 0 then c_if c else c_intena c) false (c_esp0 c) (c_cr3 c).
Definition pop_cpu (c : cpu) : cpu :=
  mkCpu (c_ncli c - 1) (c_intena c) ((c_ncli c - 1 =? 0) && c_intena c) (c_esp0 c) (c_cr3 c).

(** Interrupts are off wherever [pushcli] is in force. *)
Definition cpu_wf (c : cpu) : Prop := 0 ≤ c_ncli c ∧ (0 < c_ncli c → c_if c = false).

(** The state after a matched push and pop: [intena] holds the flag [pushcli] saw. *)
Definition cpu_norm (c : cpu) : cpu :=
  if c_ncli c =? 0 then mkCpu 0 (c_if c) (c_if c) (c_esp0 c) (c_cr3 c) else c.

Lemma pop_push c : cpu_wf c → pop_cpu (push_cpu c) = cpu_norm c.
Proof.
  intros [Hn Hi]. destruct c as [n i f e0 c3]. unfold pop_cpu, push_cpu, cpu_norm. simpl in *.
  replace (n + 1 - 1) with n by lia. destruct (Z.eqb_spec n 0) as [->|]; simpl; [done|].
  rewrite Hi by lia. done.
Qed.

Lemma push_cpu_wf c : cpu_wf c → cpu_wf (push_cpu c).
Proof. intros [??]. split; simpl; [lia|done]. Qed.

(** Evaluate the lock table with the entry that [Hl] gives. *)
Ltac locks_with Hl := repeat first [progress cbn | rewrite Hl | rewrite lookup_insert_eq].

Section SpinlockLemmas.
Context {W : Type}.
Implicit Types s : kst W.

Lemma pushcli_eq s : pushcli s = Done tt (set_k_cpu (push_cpu (k_cpu s)) s).
Proof.
  unfold pushcli, push_cpu, bind, when. cbn.
  destruct (c_ncli (k_cpu s) =? 0); reflexivity.
Qed.

Lemma popcli_eq s :
  c_if (k_cpu s) = false → 0 < c_ncli (k_cpu s) →
  popcli s = Done tt (set_k_cpu (pop_cpu (k_cpu s)) s).
Proof.
  intros Hi Hn. unfold popcli, pop_cpu, bind, when. cbn. rewrite Hi. cbn.
  destruct (Z.ltb_spec (c_ncli (k_cpu s) - 1) 0); [lia|]. cbn.
  destruct ((c_ncli (k_cpu s) - 1 =? 0) && c_intena (k_cpu s)); cbn;
    unfold set_c_ncli; by rewrite Hi.
Qed.

(** [l] is initialised and free. *)
Definition lock_free (l : lockid) (s : kst W) : Prop :=
  ∃ name, k_locks s !! l = Some (mkLock 0 name None).
(** [l] is held by this CPU. *)
Definition lock_held (l : lockid) (s : kst W) : Prop :=
  ∃ name, k_locks s !! l = Some (mkLock 1 name (Some (k_cpuid s))).

Definition acquired (l : lockid) (s : kst W) : kst W :=
  set_k_cpu (push_cpu (k_cpu s))
    (upd_lock l (mkLock 1 (l_name (lock_of s l)) (Some (k_cpuid s))) s).
Definition released (l : lockid) (s : kst W) : kst W :=
  set_k_cpu (pop_cpu (k_cpu s)) (upd_lock l (mkLock 0 (l_name (lock_of s l)) None) s).

Lemma acquire_eq l s : lock_free l s → acquire l s = Done tt (acquired l s).
Proof.
  intros [name Hl]. unfold acquire, bind. rewrite pushcli_eq. cbn.
  unfold holdingb, spin_xchg, acquired, upd_lock, lock_of. locks_with Hl.
  by rewrite insert_insert_eq.
Qed.

Lemma acquire_held l s : lock_held l s → acquire l s = Panic "acquire".
Proof.
  intros [name Hl]. unfold acquire, bind. rewrite pushcli_eq. cbn.
  unfold holdingb, lock_of. cbn. rewrite Hl. cbn. by rewrite bool_decide_eq_true_2.
Qed.

Lemma release_eq l s :
  lock_held l s → c_if (k_cpu s) = false → 0 < c_ncli (k_cpu s) →
  release l s = Done tt (released l s).
Proof.
  intros [name Hl] Hi Hn. unfold release, bind. cbn.
  unfold holdingb, lock_of. rewrite Hl. cbn. rewrite bool_decide_eq_true_2 by done. cbn.
  rewrite popcli_eq by done. cbn. unfold released, upd_lock, lock_of. locks_with Hl.
  by rewrite insert_insert_eq.
Qed.

Lemma release_not_held l s : holdingb l s = false → release l s = Panic "release".
Proof. intros H. unfold release, bind, holding, gets. cbn. rewrite H. done. Qed.

Lemma acquired_held l s : lock_held l (acquired l s).
Proof. exists (l_name (lock_of s l)). apply lookup_insert_eq. Qed.

Lemma holdingb_held l s : lock_held l s → holdingb l s = true.
Proof.
  intros [name Hl]. unfold holdingb, lock_of. rewrite Hl. cbn. by rewrite bool_decide_eq_true_2.
Qed.

Lemma holdingb_free l s : lock_free l s → holdingb l s = false.
Proof. intros [name Hl]. unfold holdingb, lock_of. by rewrite Hl. Qed.

Lemma lock_free_ne l l' lk s :
  l ≠ l' → lock_free l s → lock_free l (upd_lock l' lk s).
Proof. intros Hne [n Hl]. exists n. cbn. by rewrite lookup_insert_ne. Qed.

(** Releasing what was acquired gives back the lock table and the CPU state. *)
Lemma released_acquired l s :
  lock_free l s → cpu_wf (k_cpu s) →
  released l (acquired l s) = set_k_cpu (cpu_norm (k_cpu s)) s.
Proof.
  intros [name Hl] Hc. unfold released, acquired, upd_lock, lock_of. cbn.
  rewrite pop_push, lookup_insert_eq, insert_insert_eq, Hl by done.
  destruct s as [? ? locks]. kunf. f_equal. by apply insert_id.
Qed.

End SpinlockLemmas.

(** * Many CPUs

    [acquire] and [release] cut at their accesses to the shared lock words.  A
    CPU is running other code ([Run]), spinning in [acquire] ([AcqSpin]), past a
    successful [xchg] but not yet recorded as the owner ([AcqGot]), or in
    [release] before clearing [lk->cpu] ([RelCpu]) or before the final store
    ([RelStore]).  [held c l] says that CPU [c] has returned from [acquire l] and
    not yet called [release l]: it is the critical section. *)
Module MP.

Inductive pc := Run | AcqSpin (l : lockid) | AcqGot (l : lockid) | RelCpu (l : lockid) | RelStore (l : lockid).

Record state := mkState {
  locked : lockid → Z;
  owner : lockid → option nat;
  pcs : nat → pc;
  held : nat → lockid → bool;
}.

Definition init : state := mkState (λ _, 0) (λ _, None) (λ _, Run) (λ _ _, false).

Definition holding (st : state) (c : nat) (l : lockid) : bool :=
  negb (locked st l =? 0) && bool_decide (owner st l = Some c).

Definition fset {A B} `{EqDecision A} (a : A) (v : B) (f : A → B) : A → B :=
  λ x, if decide (x = a) then v else f x.

Definition set_pc (c : nat) (p : pc) (st : state) : state :=
  mkState (locked st) (owner st) (fset c p (pcs st)) (held st).
Definition set_locked (l : lockid) (v : Z) (st : state) : state :=
  mkState (fset l v (locked st)) (owner st) (pcs st) (held st).
Definition set_owner (l : lockid) (o : option nat) (st : state) : state :=
  mkState (locked st) (fset l o (owner st)) (pcs st) (held st).
Definition set_held (c : nat) (l : lockid) (b : bool) (st : state) : state :=
  mkState (locked st) (owner st) (pcs st) (fset c (fset l b (held st c)) (held st)).

Inductive step : state → state → Prop :=
| step_acquire st c l :        (* pushcli(); if(holding(lk)) panic *)
    pcs st c = Run → holding st c l = false → step st (set_pc c (AcqSpin l) st)
| step_xchg_busy st c l :      (* xchg returns non-zero: spin *)
    pcs st c = AcqSpin l → locked st l ≠ 0 → step st (set_locked l 1 st)
| step_xchg_free st c l :      (* xchg returns zero *)
    pcs st c = AcqSpin l → locked st l = 0 → step st (set_pc c (AcqGot l) (set_locked l 1 st))
| step_record st c l :         (* lk->cpu = cpu; return *)
    pcs st c = AcqGot l →
    step st (set_held c l true (set_pc c Run (set_owner l (Some c) st)))
| step_release st c l :        (* if(!holding(lk)) panic *)
    pcs st c = Run → holding st c l = true → step st (set_held c l false (set_pc c (RelCpu l) st))
| step_clear st c l :          (* lk->cpu = 0 *)
    pcs st c = RelCpu l → step st (set_pc c (RelStore l) (set_owner l None st))
| step_store st c l :          (* movl $0, lk->locked *)
    pcs st c = RelStore l → step st (set_pc c Run (set_locked l 0 st)).

Definition reachable (st : state) : Prop := rtc step init st.

(** CPU [c] is between a successful [xchg] on [l] and the store that frees [l]. *)
Definition owns (st : state) (c : nat) (l : lockid) : Prop :=
  pcs st c = AcqGot l ∨ held st c l = true ∨ pcs st c = RelCpu l ∨ pcs st c = RelStore l.

(** [g] names the owner of each lock, if any. *)
Record inv (g : lockid → option nat) (st : state) : Prop := {
  inv_owns c l : owns st c l → g l = Some c;
  inv_locked c l : g l = Some c → locked st l ≠ 0;
  inv_owner c l : owner st l = Some c → held st c l = true ∨ pcs st c = RelCpu l;
  inv_held c l : held st c l = true → owner st l = Some c;
  inv_rel c l : pcs st c = RelCpu l → owner st l = Some c;
  inv_pc c l : held st c l = true →
    pcs st c ≠ AcqGot l ∧ pcs st c ≠ RelCpu l ∧ pcs st c ≠ RelStore l;
}.

Lemma fset_eq {A B} `{EqDecision A} (a : A) (v : B) f : fset a v f a = v.
Proof. unfold fset. by rewrite decide_True. Qed.
Lemma fset_ne {A B} `{EqDecision A} (a x : A) (v : B) f : x ≠ a → fset a v f x = f x.
Proof. intros. unfold fset. by rewrite decide_False. Qed.

Lemma inv_init : inv (λ _, None) init.
Proof. split; unfold owns; simpl; naive_solver. Qed.

(** Case analysis on which CPU and which lock a function update concerns. *)
Ltac split_fset :=
  repeat match goal with
  | H : context [fset ?a _ _ ?x] |- _ => unfold fset in H
  | |- context [fset ?a _ _ ?x] => unfold fset
  | H : context [decide (?x = ?y)] |- _ => destruct (decide (x = y)); subst
  | |- context [decide (?x = ?y)] => destruct (decide (x = y)); subst
  end.

Lemma holding_spec st c l : holding st c l = true ↔ locked st l ≠ 0 ∧ owner st l = Some c.
Proof. unfold holding. rewrite andb_true_iff, negb_true_iff, Z.eqb_neq, bool_decide_eq_true. done. Qed.

(** Forward reasoning from the program counters and the [held] flags. *)
Ltac know P := let T := type of P in match goal with H : T |- _ => fail 1 | _ => pose proof P end.
Ltac saturate I1 I2 I3 I4 I5 I6 :=
  repeat match goal with
  | H : pcs _ ?c = AcqGot ?l |- _ => know (I1 c l (or_introl H))
  | H : held _ ?c ?l = true |- _ =>
    first [know (I1 c l (or_intror (or_introl H))) | know (I4 c l H) | know (I6 c l H)]
  | H : pcs _ ?c = RelCpu ?l |- _ =>
    first [know (I1 c l (or_intror (or_intror (or_introl H)))) | know (I5 c l H)]
  | H : pcs _ ?c = RelStore ?l |- _ => know (I1 c l (or_intror (or_intror (or_intror H))))
  | H : owner _ ?l = Some ?c |- _ => know (I3 c l H)
  | H : _ = Some ?c |- _ => know (I2 c _ H)
  end.

Lemma step_inv g st st' : step st st' → inv g st → ∃ g', inv g' st'.
Proof.
  intros Hs [I1 I2 I3 I4 I5 I6]. unfold owns in *.
  destruct Hs as [st c l Hp Hh|st c l Hp Hl|st c l Hp Hl|st c l Hp|st c l Hp Hh|st c l Hp|st c l Hp];
    [exists g|exists g|exists (fset l (Some c) g)|exists g|exists g|exists g|exists (fset l None g)];
    try apply holding_spec in Hh as [Hh1 Hh2];
    split; unfold owns; simpl; intros; split_fset; destruct_or?; try congruence;
    try solve [eauto | intuition congruence].
  all: saturate I1 I2 I3 I4 I5 I6; destruct_or?; try congruence.
  all: saturate I1 I2 I3 I4 I5 I6; clear I1 I2 I3 I4 I5 I6; intuition congruence.
Qed.

Lemma reachable_inv st : reachable st → ∃ g, inv g st.
Proof.
  apply (rtc_inv step (λ st, ∃ g, inv g st)); [by eexists; apply inv_init|].
  intros st1 st2 [g Hg] Hs. by eapply step_inv.
Qed.

(** C9: Mutual exclusion: in no interleaving of any number of CPUs are two of them
    inside the critical section of one lock; and [holding] is exact, so a CPU in
    its critical section never panics in [release], and one outside it never
    passes the check. *)
Theorem mutual_exclusion st :
  reachable st →
  (∀ c c' l, held st c l = true → held st c' l = true → c = c') ∧
  (∀ c l, pcs st c = Run → holding st c l = held st c l).
Proof.
  intros [g [I1 I2 I3 I4 I5 I6]]%reachable_inv. split.
  - intros c c' l H H'. apply I4 in H, H'. congruence.
  - intros c l Hr. apply eq_bool_prop_intro. rewrite !Is_true_true, holding_spec. split.
    + intros [_ Ho]. apply I3 in Ho as [?|?]; [done|congruence].
    + intros Hh. split; [|by apply I4]. apply (I2 c), I1. unfold owns. auto.
Qed.

(** CPU 1 has returned from [acquire L_ptable] while CPU 0 spins on it. *)
Definition contended : state :=
  set_pc 0%nat (AcqSpin L_ptable)
    (set_held 1%nat L_ptable true (set_pc 1%nat Run (set_owner L_ptable (Some 1%nat)
      (set_pc 1%nat (AcqGot L_ptable) (set_locked L_ptable 1
        (set_pc 1%nat (AcqSpin L_ptable) init)))))).

Lemma mutual_exclusion_witness :
  held contended 1%nat L_ptable = true ∧
  (∀ c, held contended c L_ptable = true → c = 1%nat).
Proof.
  split; [reflexivity|]. intros c Hc.
  refine (proj1 (mutual_exclusion contended _) c 1%nat L_ptable Hc eq_refl).
  eapply rtc_l; [apply (step_acquire _ 1%nat L_ptable); reflexivity|].
  eapply rtc_l; [apply (step_xchg_free _ 1%nat L_ptable); reflexivity|].
  eapply rtc_l; [apply (step_record _ 1%nat L_ptable); reflexivity|].
  eapply rtc_l; [apply (step_acquire _ 0%nat L_ptable); reflexivity|].
  apply rtc_refl.
Defined.

End MP.
