(* ===== verification/Sched.v ===== *)
(** proc.c, the scheduling half: [sched], [yield], [sleep], [wakeup], [kill],
    [scheduler], with [switchuvm]/[switchkvm] of vm.c, which [scheduler] calls.  A
    context switch ([swtch]) is the [Switch] outcome of the monad: what runs before
    the switch, and, as a function of the state at resumption, what runs after it.
    Of a CPU's task state and descriptor tables, which [switchuvm] also sets up, only
    the kernel stack pointer is kept. *)
From S2P Require Import Prelude Mem KState Spinlock.

Section Sched.
Context {W : Type}.

(** [proc] as a pointer that is about to be dereferenced: a null one faults in
    kernel mode, which [trap] answers with [panic("trap")]. *)
Definition myproc : M (kst W) nat :=
  o <- gets k_cur ;; match o with Some i => ret i | None => panic "trap" end.

(** The fields of [ptable.proc[i]]. *)
Definition proc_at (i : nat) : M (kst W) proc :=
  o <- gets (λ s, k_procs s !! i) ;; match o with Some p => ret p | None => panic "trap" end.

Definition set_proc (i : nat) (f : proc → proc) : M (kst W) unit := modify (upd_proc i f).

(** [proc->f = v] *)
Definition set_cur (f : proc → proc) : M (kst W) unit := i <- myproc ;; set_proc i f.
Definition cur : M (kst W) proc := i <- myproc ;; proc_at i.

(** The slots of [ptable.proc] in the order the C loops visit them. *)
Definition slots : list nat := seq 0 NPROC.

Definition cprintf (fmt : string) (args : list Z) : M (kst W) unit :=
  modify (λ s, set_k_console ((fmt, args) :: k_console s) s).

(** ** vm.c: switching address spaces *)

Definition V2P (a : Z) : Z := u32 (a - KERNBASE).

Definition switchkvm : M (kst W) unit :=
  kp <- gets k_kpgdir ;; upd_cpu (set_c_cr3 (V2P kp)).

Definition switchuvm (i : nat) : M (kst W) unit :=
  p <- proc_at i ;;
  (if p_kstack p =? 0 then panic "switchuvm: no kstack" else ret tt) ;;;
  (if p_pgdir p =? 0 then panic "switchuvm: no pgdir" else ret tt) ;;;
  pushcli ;;;
  upd_cpu (set_c_esp0 (u32 (p_kstack p + KSTACKSIZE))) ;;;
  upd_cpu (set_c_cr3 (V2P (p_pgdir p))) ;;;
  popcli.

(** ** proc.c *)

Definition pinit : M (kst W) unit := initlock L_ptable "ptable".

(** Enter scheduler. *)
Definition sched : M (kst W) unit :=
  h <- holding L_ptable ;;
  (if h : bool then ret tt else panic "sched ptable.lock") ;;;
  n <- gets (λ s, c_ncli (k_cpu s)) ;;
  (if n =? 1 then ret tt else panic "sched locks") ;;;
  p <- cur ;;
  (if decide (p_state p = RUNNING) then panic "sched running" else ret tt) ;;;
  f <- readeflags_if ;;
  (if f : bool then panic "sched interruptible" else ret tt) ;;;
  intena <- gets (λ s, c_intena (k_cpu s)) ;;
  swtch ;;;
  upd_cpu (set_c_intena intena).

(** Give up the CPU for one scheduling round. *)
Definition yield : M (kst W) unit :=
  acquire L_ptable ;;;
  set_cur (set_p_state RUNNABLE) ;;;
  sched ;;;
  release L_ptable.

(** The part of [sleep] that runs with [ptable.lock] held: go to sleep, tidy up. *)
Definition sleep_core (ch : chan) : M (kst W) unit :=
  set_cur (set_p_chan ch) ;;;
  set_cur (set_p_state SLEEPING) ;;;
  sched ;;;
  set_cur (set_p_chan C_null).

(** Atomically release [lk] and sleep on [ch]; [lk = None] is a null pointer.  The
    lock operations are arguments, so that the same code can be run with other CPUs
    in between. *)
Definition sleep_by (acq rel : lockid → M (kst W) unit) (ch : chan) (lk : option lockid) : M (kst W) unit :=
  o <- gets k_cur ;;
  match o, lk with
  | None, _ => panic "sleep"
  | Some _, None => panic "sleep without lk"
  | Some _, Some l =>
    when (negb (bool_decide (l = L_ptable))) (acq L_ptable ;;; rel l) ;;;
    sleep_core ch ;;;
    when (negb (bool_decide (l = L_ptable))) (rel L_ptable ;;; acq l)
  end.
Definition sleep : chan → option lockid → M (kst W) unit := sleep_by acquire release.

(** Wake up all processes sleeping on [ch]. *)
Definition wakeup1_body (ch : chan) (i : nat) : M (kst W) unit :=
  p <- proc_at i ;;
  when (bool_decide (p_state p = SLEEPING) && bool_decide (p_chan p = ch))
    (set_proc i (set_p_state RUNNABLE)).
Definition wakeup1 (ch : chan) : M (kst W) unit := for_each slots (wakeup1_body ch).

Definition wakeup (ch : chan) : M (kst W) unit :=
  acquire L_ptable ;;; wakeup1 ch ;;; release L_ptable.

(** Kill the process with the given pid. *)
Definition kill (pid : Z) : M (kst W) Z :=
  acquire L_ptable ;;;
  r <- for_break slots (λ i,
    p <- proc_at i ;;
    if p_pid p =? pid then
      set_proc i (set_p_killed 1) ;;;
      when (bool_decide (p_state p = SLEEPING)) (set_proc i (set_p_state RUNNABLE)) ;;;
      release L_ptable ;;;
      ret (Some 0)
    else ret None) ;;
  match r with
  | Some v => ret v
  | None => release L_ptable ;;; ret (-1)
  end.

(** One round of the per-CPU scheduler: enable interrupts, then run every
    process found RUNNABLE. *)
Definition scheduler_body (i : nat) : M (kst W) unit :=
  p <- proc_at i ;;
  if decide (p_state p = RUNNABLE) then
    modify (set_k_cur (Some i)) ;;;
    switchuvm i ;;;
    set_proc i (set_p_state RUNNING) ;;;
    swtch ;;;
    switchkvm ;;;
    modify (set_k_cur None)
  else ret tt.

Definition scheduler_round : M (kst W) unit :=
  sti ;;;
  acquire L_ptable ;;;
  for_each slots scheduler_body ;;;
  release L_ptable.

(** [for(;;)]: [n] bounds the rounds. *)
Definition scheduler (n : nat) : M (kst W) unit :=
  loop n (scheduler_round ;;; ret None).

End Sched.

Arguments myproc : simpl never.
Arguments proc_at : simpl never.
Arguments set_cur : simpl never.
Arguments cur : simpl never.
Arguments switchuvm : simpl never.
Arguments switchkvm : simpl never.
Arguments sched : simpl never.
Arguments sleep_core : simpl never.
Arguments wakeup1 : simpl never.
Arguments wakeup : simpl never.
Arguments sleep_by : simpl never.
Arguments sleep : simpl never.
Arguments kill : simpl never.
Arguments yield : simpl never.
Arguments slots : simpl never.

(** * Lock discipline

    [kctx held s]: this CPU holds exactly the spinlocks [held], every other
    initialised lock is free, and [ncli] counts the held locks, so interrupts
    are off as soon as one is held. *)
Section Discipline.
Context {W : Type}.
Implicit Types s : kst W.

Record kctx (held : list lockid) (s : kst W) : Prop := {
  kc_locks l lk : k_locks s !! l = Some lk →
    lk = if decide (l ∈ held) then mkLock 1 (l_name lk) (Some (k_cpuid s))
         else mkLock 0 (l_name lk) None;
  kc_init l : l ∈ held → is_Some (k_locks s !! l);
  kc_ncli : c_ncli (k_cpu s) = Z.of_nat (length held);
  kc_if : held ≠ [] → c_if (k_cpu s) = false;
  kc_nodup : NoDup held;
}.

(** [kctx] does not look at anything but the CPU and the locks. *)
Lemma kctx_frame held s s' :
  k_cpuid s' = k_cpuid s → k_cpu s' = k_cpu s → k_locks s' = k_locks s →
  kctx held s → kctx held s'.
Proof. intros H1 H2 H3 [A B C D E]. split; rewrite ?H1, ?H2, ?H3; auto. Qed.

Lemma kctx_procs held ps s : kctx held s → kctx held (set_k_procs ps s).
Proof. by apply kctx_frame. Qed.

Lemma kctx_intena held b s :
  kctx held s → kctx held (set_k_cpu (set_c_intena b (k_cpu s)) s).
Proof. intros [A B C D E]. split; cbn; auto. Qed.

Lemma kctx_cpu_wf held s : kctx held s → cpu_wf (k_cpu s).
Proof.
  intros [A B C D E]. split; rewrite C; [lia|]. intros. apply D. by destruct held.
Qed.

Lemma kctx_free held l s :
  kctx held s → l ∉ held → is_Some (k_locks s !! l) → lock_free l s.
Proof.
  intros [A _ _ _ _] Hl [lk Hk]. exists (l_name lk). rewrite Hk. f_equal.
  specialize (A l lk Hk). by rewrite decide_False in A.
Qed.

Lemma kctx_held held l s : kctx held s → l ∈ held → lock_held l s.
Proof.
  intros [A B _ _ _] Hl. destruct (B l Hl) as [lk Hk]. exists (l_name lk). rewrite Hk. f_equal.
  specialize (A l lk Hk). by rewrite decide_True in A.
Qed.

Lemma acquire_kctx held l s :
  kctx held s → l ∉ held → is_Some (k_locks s !! l) →
  acquire l s = Done tt (acquired l s) ∧ kctx (l :: held) (acquired l s).
Proof.
  intros Hc Hl Hi. split; [by eapply acquire_eq, kctx_free|].
  destruct Hc as [A B C D E]. split; cbn.
  - intros l' lk. destruct (decide (l' = l)) as [->|Hne].
    + rewrite lookup_insert_eq, decide_True by set_solver. by intros [= <-].
    + rewrite lookup_insert_ne by done. intros Hk. specialize (A l' lk Hk).
      destruct (decide (l' ∈ held)); [rewrite decide_True by set_solver|
        rewrite decide_False by set_solver]; done.
  - intros l'. rewrite elem_of_cons. intros [->|Hl']; [rewrite lookup_insert_eq; eauto|].
    destruct (decide (l' = l)) as [->|]; [rewrite lookup_insert_eq; eauto|].
    rewrite lookup_insert_ne by done. auto.
  - rewrite C. lia.
  - done.
  - by constructor.
Qed.

Lemma release_kctx held l s :
  kctx (l :: held) s →
  release l s = Done tt (released l s) ∧ kctx held (released l s).
Proof.
  intros Hc. pose proof (kctx_held _ l s Hc ltac:(set_solver)) as Hh.
  destruct Hc as [A B C D E]. split.
  { apply release_eq; [done|by apply D|rewrite C; simpl; lia]. }
  apply NoDup_cons in E as [El En]. destruct Hh as [name Hh].
  split; cbn; unfold lock_of; rewrite ?Hh; cbn.
  - intros l' lk. destruct (decide (l' = l)) as [->|Hne].
    + rewrite lookup_insert_eq, decide_False by done. by intros [= <-].
    + rewrite lookup_insert_ne by done. intros Hk. specialize (A l' lk Hk).
      destruct (decide (l' ∈ held)); [rewrite decide_True in A by set_solver|
        rewrite decide_False in A by set_solver]; done.
  - intros l' Hl'. destruct (decide (l' = l)) as [->|]; [done|].
    rewrite lookup_insert_ne by done. apply B. set_solver.
  - rewrite C. simpl length. lia.
  - intros Hne. rewrite C. simpl length. destruct held; [done|].
    destruct (Z.eqb_spec (Z.of_nat (S (length (l0 :: held))) - 1) 0); [simpl in *; lia|done].
  - done.
Qed.

(** A critical section: the lock is taken and given back around a body that
    leaves the CPU and the locks alone. *)
Lemma released_set_procs l ps s :
  released l (set_k_procs ps s) = set_k_procs ps (released l s).
Proof. done. Qed.

Lemma acquired_procs l s : k_procs (acquired l s) = k_procs s.
Proof. done. Qed.

Lemma critical_procs held l ps s :
  kctx held s → l ∉ held → is_Some (k_locks s !! l) →
  released l (set_k_procs ps (acquired l s)) =
  set_k_cpu (cpu_norm (k_cpu s)) (set_k_procs ps s).
Proof.
  intros Hc Hl Hi. rewrite released_set_procs, released_acquired.
  - done.
  - by eapply kctx_free.
  - by eapply kctx_cpu_wf.
Qed.

Lemma kctx_norm held s : kctx held s → kctx held (set_k_cpu (cpu_norm (k_cpu s)) s).
Proof.
  intros [A B C D E]. split; cbn; auto; unfold cpu_norm;
    destruct (Z.eqb_spec (c_ncli (k_cpu s)) 0) as [H0|]; cbn; auto; try lia.
Qed.

End Discipline.

(** * Loops over the process table *)
Section Table.
Context {W : Type}.
Implicit Types s : kst W.

Lemma set_procs_id s : set_k_procs (k_procs s) s = s.
Proof. by destruct s. Qed.

Lemma upd_proc_id i f p s : k_procs s !! i = Some p → f p = p → upd_proc i f s = s.
Proof.
  intros Hp Hf. unfold upd_proc. rewrite (list_alter_ext f id _ (k_procs s)); [|by intros q; rewrite Hp; intros [= <-]|done].
  rewrite list_alter_id by done. apply set_procs_id.
Qed.

Lemma upd_proc_ext i f g p s :
  k_procs s !! i = Some p → f p = g p → upd_proc i f s = upd_proc i g s.
Proof.
  intros Hp Hf. unfold upd_proc. f_equal. apply list_alter_ext; [|done].
  intros q. rewrite Hp. by intros [= <-].
Qed.

Lemma upd_proc_upd i f g s : upd_proc i g (upd_proc i f s) = upd_proc i (g ∘ f) s.
Proof. unfold upd_proc. kunf. by rewrite list_alter_alter_eq. Qed.

Lemma proc_at_eq i p s : k_procs s !! i = Some p → proc_at i s = Done p s.
Proof. intros H. unfold proc_at. cbn. by rewrite H. Qed.

Lemma myproc_eq i s : k_cur s = Some i → myproc s = Done i s.
Proof. intros H. unfold myproc. cbn. by rewrite H. Qed.

Lemma set_cur_eq i f s : k_cur s = Some i → set_cur f s = Done tt (upd_proc i f s).
Proof. intros H. unfold set_cur. cbn. by rewrite (myproc_eq i s H). Qed.

Lemma cur_eq i p s : k_cur s = Some i → k_procs s !! i = Some p → cur s = Done p s.
Proof. intros H Hp. unfold cur. cbn. rewrite (myproc_eq i s H). cbn. by apply proc_at_eq. Qed.

(** The table after the first [n] slots have been rewritten by [g]. *)
Definition upto (n : nat) (g : proc → proc) (ps : list proc) : list proc :=
  imap (λ i p, if decide (i < n)%nat then g p else p) ps.

Lemma upto_0 g ps : upto 0 g ps = ps.
Proof. apply list_eq. intros i. unfold upto. rewrite list_lookup_imap. by destruct (ps !! i). Qed.

Lemma upto_all g ps n : (length ps ≤ n)%nat → upto n g ps = g <$> ps.
Proof.
  intros Hn. apply list_eq. intros i. unfold upto. rewrite list_lookup_imap, list_lookup_fmap.
  destruct (ps !! i) as [p|] eqn:E; simpl; [|done].
  apply lookup_lt_Some in E. rewrite decide_True by lia. done.
Qed.

Lemma upto_S n g ps : alter g n (upto n g ps) = upto (S n) g ps.
Proof.
  apply list_eq. intros i. unfold upto. destruct (decide (i = n)) as [->|Hne].
  - rewrite list_lookup_alter_eq, !list_lookup_imap. destruct (ps !! n); simpl; [|done].
    rewrite decide_False, decide_True by lia. done.
  - rewrite list_lookup_alter_ne, !list_lookup_imap by done. destruct (ps !! i); simpl; [|done].
    f_equal. repeat case_decide; first [done|lia].
Qed.

Lemma for_each_slots (g : proc → proc) (body : nat → M (kst W) unit) s :
  length (k_procs s) = NPROC →
  (∀ i p s', k_procs s' !! i = Some p → body i s' = Done tt (upd_proc i g s')) →
  for_each slots body s = Done tt (set_k_procs (g <$> k_procs s) s).
Proof.
  intros Hlen Hb. unfold slots.
  enough (∀ n, (n ≤ NPROC)%nat →
    for_each (seq 0 n) body s = Done tt (set_k_procs (upto n g (k_procs s)) s)) as H.
  { rewrite H by lia. by rewrite upto_all by lia. }
  induction n as [|n IH]; intros Hn.
  - cbn. by rewrite upto_0, set_procs_id.
  - rewrite seq_S. erewrite for_each_app by (apply IH; lia). cbn [for_each].
    destruct (lookup_lt_is_Some_2 (upto n g (k_procs s)) n) as [p Hp].
    { unfold upto. rewrite length_imap. lia. }
    cbn. rewrite (Hb _ p) by done. cbn. unfold upd_proc. cbn. by rewrite upto_S.
Qed.

(** The same where the body needs an invariant of the states it runs in. *)
Lemma for_each_slots_inv (I : kst W → Prop) (g : proc → proc) (body : nat → M (kst W) unit) s :
  length (k_procs s) = NPROC → I s →
  (∀ i p s', I s' → k_procs s' !! i = Some p →
    body i s' = Done tt (upd_proc i g s') ∧ I (upd_proc i g s')) →
  for_each slots body s = Done tt (set_k_procs (g <$> k_procs s) s).
Proof.
  intros Hlen HI Hb. unfold slots.
  enough (∀ n, (n ≤ NPROC)%nat →
    for_each (seq 0 n) body s = Done tt (set_k_procs (upto n g (k_procs s)) s) ∧
    I (set_k_procs (upto n g (k_procs s)) s)) as H.
  { destruct (H NPROC) as [-> _]; [lia|]. by rewrite upto_all by lia. }
  induction n as [|n IH]; intros Hn.
  - cbn. by rewrite upto_0, set_procs_id.
  - destruct IH as [IH HIn]; [lia|].
    destruct (lookup_lt_is_Some_2 (upto n g (k_procs s)) n) as [p Hp].
    { unfold upto. rewrite length_imap. lia. }
    destruct (Hb n p _ HIn Hp) as [Hbn HI'].
    rewrite seq_S. erewrite for_each_app by apply IH. cbn [for_each Nat.add].
    cbn. rewrite Hbn. cbn. unfold upd_proc in *. cbn in *. by rewrite upto_S in *.
Qed.

(** A search through the table: the first slot that satisfies [P]. *)
Lemma for_break_slots_some {R} (P : proc → Prop) `{∀ p, Decision (P p)}
    (body : nat → M (kst W) (option R)) i p v s s' :
  length (k_procs s) = NPROC →
  list_find P (k_procs s) = Some (i, p) →
  (∀ j q, k_procs s !! j = Some q → ¬ P q → body j s = Done None s) →
  body i s = Done (Some v) s' →
  for_break slots body s = Done (Some v) s'.
Proof.
  intros Hlen (Hi & HP & Hmin)%list_find_Some Hskip Hb.
  pose proof (lookup_lt_Some _ _ _ Hi) as Hlt. rewrite Hlen in Hlt.
  unfold slots. replace NPROC with (i + S (NPROC - S i))%nat by lia.
  rewrite seq_app. simpl seq. rewrite for_break_skip.
  - cbn. by rewrite Hb.
  - intros j [_ Hj]%elem_of_seq. destruct (lookup_lt_is_Some_2 (k_procs s) j) as [q Hq]; [lia|].
    apply (Hskip j q Hq). apply (Hmin j q Hq). lia.
Qed.

Lemma for_break_slots_none {R} (P : proc → Prop) `{∀ p, Decision (P p)}
    (body : nat → M (kst W) (option R)) s :
  length (k_procs s) = NPROC →
  list_find P (k_procs s) = None →
  (∀ j q, k_procs s !! j = Some q → ¬ P q → body j s = Done None s) →
  for_break slots body s = Done None s.
Proof.
  intros Hlen Hn Hskip. apply for_break_none. intros j [_ Hj]%elem_of_seq.
  destruct (lookup_lt_is_Some_2 (k_procs s) j) as [q Hq]; [lia|].
  apply (Hskip j q Hq). apply list_find_None in Hn. rewrite Forall_lookup in Hn. eauto.
Qed.

(** ** wakeup *)

Definition wake (ch : chan) (p : proc) : proc :=
  if bool_decide (p_state p = SLEEPING) && bool_decide (p_chan p = ch)
  then set_p_state RUNNABLE p else p.

Lemma wakeup1_eq ch s :
  length (k_procs s) = NPROC → wakeup1 ch s = Done tt (set_k_procs (wake ch <$> k_procs s) s).
Proof.
  intros Hl. apply for_each_slots; [done|]. intros i p s' Hp.
  unfold wakeup1_body. cbn. rewrite (proc_at_eq _ _ _ Hp). cbn.
  assert (Hw : wake ch p = if bool_decide (p_state p = SLEEPING) && bool_decide (p_chan p = ch)
    then set_p_state RUNNABLE p else p) by done.
  destruct (bool_decide (p_state p = SLEEPING) && bool_decide (p_chan p = ch)); cbn.
  - unfold set_proc, upd_proc. cbn. do 2 f_equal. apply list_alter_ext; [|done].
    intros q Hq. rewrite Hp in Hq. injection Hq as <-. by rewrite Hw.
  - by rewrite (upd_proc_id i _ p).
Qed.

Lemma wakeup_eq held ch s :
  kctx held s → L_ptable ∉ held → is_Some (k_locks s !! L_ptable) → length (k_procs s) = NPROC →
  wakeup ch s =
  Done tt (set_k_cpu (cpu_norm (k_cpu s)) (set_k_procs (wake ch <$> k_procs s) s)).
Proof.
  intros Hc Hn Hi Hl. unfold wakeup. cbn.
  destruct (acquire_kctx held L_ptable s) as [-> Hc1]; [done..|]. cbn.
  rewrite wakeup1_eq by done. cbn.
  destruct (release_kctx held L_ptable (set_k_procs (wake ch <$> k_procs s) (acquired L_ptable s)))
    as [-> _]; [by apply kctx_procs|].
  by rewrite (critical_procs held).
Qed.

End Table.

(** Whether a slot of the process table is in use. *)
Inductive lclass := Unused | Embryo | Live.

(** * The process table invariant *)

Record proc_ok (p : proc) : Prop := {
  po_pid : p_state p ≠ UNUSED → 0 < p_pid p;
  po_vm : p_state p ≠ UNUSED → p_state p ≠ EMBRYO → p_kstack p ≠ 0 ∧ p_pgdir p ≠ 0;
  po_parent k : p_parent p = Some k → (k < NPROC)%nat;
  po_ofile : length (p_ofile p) = NOFILE;
  po_handlers : length (p_handlers p) = NUMSIG;
  po_name : length (p_name p) = 16%nat;
  po_pending : 0 ≤ p_pending p < 2^32;
  po_alarm : 0 ≤ p_alarmFlag p < 2^32;
}.

Section Invariant.
Context {W : Type}.
Implicit Types s : kst W.

Record ptable_wf (s : kst W) : Prop := {
  wf_len : length (k_procs s) = NPROC;
  wf_ok i p : k_procs s !! i = Some p → proc_ok p;
  wf_pid i p : k_procs s !! i = Some p → 0 ≤ p_pid p < k_nextpid s;
  wf_uniq i j p q : k_procs s !! i = Some p → k_procs s !! j = Some q →
    p_pid p = p_pid q → p_pid p ≠ 0 → i = j;
  wf_run i p : k_procs s !! i = Some p → p_state p = RUNNING → k_cur s = Some i;
  wf_cur i : k_cur s = Some i → (i < NPROC)%nat;
  wf_init i : k_initproc s = Some i → (i < NPROC)%nat;
}.

Lemma wf_frame s s' :
  k_procs s' = k_procs s → k_nextpid s' = k_nextpid s → k_cur s' = k_cur s →
  k_initproc s' = k_initproc s → ptable_wf s → ptable_wf s'.
Proof. intros H1 H2 H3 H4 [? ? ? ? ? ? ?]. split; rewrite ?H1, ?H2, ?H3, ?H4; auto. Qed.

(** Rewriting the table slot by slot. *)
Lemma wf_forall2 (ps : list proc) s :
  ptable_wf s →
  Forall2 (λ p q, p_pid q = p_pid p ∧ (proc_ok p → proc_ok q) ∧
    (p_state q = RUNNING → p_state p = RUNNING)) (k_procs s) ps →
  ptable_wf (set_k_procs ps s).
Proof.
  intros [A B C D E F G] H.
  assert (L : ∀ i q, ps !! i = Some q → ∃ p, k_procs s !! i = Some p ∧ p_pid q = p_pid p ∧
    (proc_ok p → proc_ok q) ∧ (p_state q = RUNNING → p_state p = RUNNING)).
  { intros i q Hq. destruct (Forall2_lookup_r _ _ _ _ _ H Hq) as (p & ? & ? & ? & ?). eauto 6. }
  split; cbn; try done.
  - rewrite <- (Forall2_length _ _ _ H). done.
  - intros i q (p & Hp & _ & Hok & _)%L. eauto.
  - intros i q (p & Hp & -> & _)%L. eauto.
  - intros i j q q' (p & Hp & -> & _)%L (p' & Hp' & -> & _)%L. eauto.
  - intros i q (p & Hp & _ & _ & Hr)%L ?. eauto.
Qed.

Lemma wf_upd i p f s :
  ptable_wf s → k_procs s !! i = Some p → proc_ok (f p) → p_pid (f p) = p_pid p →
  (p_state (f p) = RUNNING → k_cur s = Some i) → ptable_wf (upd_proc i f s).
Proof.
  intros [A B C D E F G] Hp Hok Hpid Hrun. unfold upd_proc.
  assert (L : ∀ j q, alter f i (k_procs s) !! j = Some q →
    (j = i ∧ q = f p) ∨ (j ≠ i ∧ k_procs s !! j = Some q)).
  { intros j q. destruct (decide (j = i)) as [->|Hne].
    - rewrite list_lookup_alter_eq, Hp. intros [= <-]. by left.
    - rewrite list_lookup_alter_ne by done. by right. }
  split; cbn; try done.
  - by rewrite length_alter.
  - intros j q [[-> ->]|[_ Hj]]%L; eauto.
  - intros j q [[-> ->]|[_ Hj]]%L; [rewrite Hpid|]; eauto.
  - intros j j' q q' [[-> ->]|[? Hj]]%L [[-> ->]|[? Hj']]%L; rewrite ?Hpid; eauto.
  - intros j q [[-> ->]|[_ Hj]]%L; eauto.
Qed.

Lemma wake_ok ch p : proc_ok p → proc_ok (wake ch p).
Proof.
  intros [A B C D E F G H]. unfold wake.
  destruct (bool_decide_reflect (p_state p = SLEEPING)) as [Hs|]; simpl; [|done].
  destruct (bool_decide (p_chan p = ch)); [|done].
  split; cbn; auto; intros; [apply A|apply B]; by rewrite Hs.
Qed.

Lemma wake_wf ch s : ptable_wf s → ptable_wf (set_k_procs (wake ch <$> k_procs s) s).
Proof.
  intros Hwf. apply wf_forall2; [done|]. apply Forall2_fmap_r, Forall_Forall2_diag, Forall_true. intros p.
  split; [|split; [apply wake_ok|]]; unfold wake;
    destruct (bool_decide (p_state p = SLEEPING) && bool_decide (p_chan p = ch)); done.
Qed.

(** * Giving up the CPU *)

(** The fields of a process that only the process itself assigns. *)
Definition private (p : proc) :=
  (p_sz p, p_pgdir p, p_kstack p, p_pid p, p_tf p, p_chan p, p_ofile p, p_cwd p, p_name p,
   p_handlers p, p_isHandlingsignal p, p_isHandelingSignal p).

Definition lclass_of (st : procstate) : lclass :=
  match st with UNUSED => Unused | EMBRYO => Embryo | _ => Live end.

Definition pview (p : proc) :=
  (lclass_of (p_state p), p_sz p, p_pgdir p, p_kstack p, p_pid p, p_parent p, p_ofile p, p_cwd p).

Lemma pview_upd i f p s :
  k_procs s !! i = Some p → pview (f p) = pview p →
  pview <$> k_procs (upd_proc i f s) = pview <$> k_procs s.
Proof.
  intros Hp Hf. apply list_eq. intros j. cbn. rewrite !list_lookup_fmap.
  destruct (decide (j = i)) as [->|].
  - rewrite list_lookup_alter_eq, Hp. cbn. by rewrite Hf.
  - by rewrite list_lookup_alter_ne.
Qed.

(** What code other than the scheduler cares about: pipes, files, sleep locks, disk,
    memory, ticks, and of each process whether its slot is in use, what it owns
    and who its parent is; but not which of the live states it is in. *)
Definition kdata (s : kst W) :=
  (k_pipes s, k_files s, k_slocks s, k_mem s, k_ticks s, pview <$> k_procs s, k_fs s).

Lemma kdata_upd i f p s :
  k_procs s !! i = Some p → pview (f p) = pview p → kdata (upd_proc i f s) = kdata s.
Proof. intros Hp Hf. unfold kdata. by rewrite (pview_upd i f p). Qed.

(** What holds when process [i] calls [swtch]. *)
Record switch_ok (i : nat) (s : kst W) : Prop := {
  sw_ctx : kctx [L_ptable] s;
  sw_wf : ptable_wf s;
  sw_cur : k_cur s = Some i;
  sw_state : ∃ p, k_procs s !! i = Some p ∧
    (p_state p = RUNNABLE ∨ p_state p = SLEEPING ∨ p_state p = ZOMBIE);
}.

(** What process [i] can count on when the scheduler runs it again: [s] is the
    state it left, [s'] the one it finds.  A zombie is never run again. *)
Record resumed (i : nat) (s s' : kst W) : Prop := {
  rs_ctx : kctx [L_ptable] s';
  rs_wf : ptable_wf s';
  rs_cur : k_cur s' = Some i;
  rs_init : k_initproc s' = k_initproc s;
  rs_locks l : is_Some (k_locks s !! l) → is_Some (k_locks s' !! l);
  rs_self p : k_procs s !! i = Some p → p_state p ≠ ZOMBIE ∧
    ∃ p', k_procs s' !! i = Some p' ∧ p_state p' = RUNNING ∧ private p' = private p;
}.

(** Code of process [i] that shares [kdata] with others under the invariant [J]. *)
Definition kenv (i : nat) (J : kst W → Prop) (fuel : Prop) : env (kst W) :=
  Env (λ s, switch_ok i s ∧ J s) (λ s s', resumed i s s' ∧ J s') fuel.

(** [J] only looks at [kdata]. *)
Definition data_only (J : kst W → Prop) : Prop := ∀ s s', kdata s' = kdata s → J s → J s'.

Lemma kctx_perm h1 h2 s : h1 ≡ₚ h2 → kctx h1 s → kctx h2 s.
Proof.
  intros Hp [A B C D E]. split.
  - intros l lk Hl. rewrite (A l lk Hl). cbn.
    destruct (decide (l ∈ h1)) as [Hin|Hin]; rewrite Hp in Hin;
      [rewrite decide_True|rewrite decide_False]; done.
  - intros l. rewrite <- Hp. auto.
  - by rewrite <- Hp.
  - intros Hne. apply D. intros ->. by apply Permutation_nil_l in Hp.
  - by rewrite <- Hp.
Qed.

(** [sched] reaches the context switch in the state it was called in. *)
Lemma sched_eq i p s :
  kctx [L_ptable] s → k_cur s = Some i → k_procs s !! i = Some p → p_state p ≠ RUNNING →
  sched s = Switch s (λ s', Done tt (set_k_cpu (set_c_intena (c_intena (k_cpu s)) (k_cpu s')) s')).
Proof.
  intros Hc Hcur Hp Hst. unfold sched. cbn.
  rewrite (holdingb_held L_ptable s) by (eapply kctx_held; [done|set_solver]). cbn.
  rewrite (kc_ncli _ _ Hc : _ = 1). cbn. rewrite (cur_eq i p) by done. cbn.
  rewrite decide_False by done. cbn. by rewrite (kc_if _ _ Hc).
Qed.

Lemma sched_wp i p J F s :
  data_only J → J s →
  kctx [L_ptable] s → ptable_wf s → k_cur s = Some i → k_procs s !! i = Some p →
  p_state p = RUNNABLE ∨ p_state p = SLEEPING ∨ p_state p = ZOMBIE →
  wp (kenv i J F) (sched s) (λ _ s', resumed i s s' ∧ J s').
Proof.
  intros HJd HJ Hc Hwf Hcur Hp Hst.
  rewrite (sched_eq i p) by (done || intros E; rewrite E in Hst; naive_solver).
  cbn. split; [split; [by split; eauto|done]|].
  intros s' [[A B C D E G] HJ']. split; [|by eapply (HJd s')].
  split; cbn; auto using kctx_intena. by apply (wf_frame s').
Qed.

End Invariant.

Section Blocking.
Context {W : Type}.
Implicit Types s : kst W.

(** Process [i], whose private fields were those of [p], runs again holding
    exactly [held]. *)
Record back (held : list lockid) (i : nat) (p : proc) (s s' : kst W) : Prop := {
  bk_ctx : kctx held s';
  bk_wf : ptable_wf s';
  bk_cur : k_cur s' = Some i;
  bk_init : k_initproc s' = k_initproc s;
  bk_locks l : is_Some (k_locks s !! l) → is_Some (k_locks s' !! l);
  bk_self : ∃ p', k_procs s' !! i = Some p' ∧ p_state p' = RUNNING ∧ private p' = private p;
}.

Lemma upd_proc_lookup i f p s :
  k_procs s !! i = Some p → k_procs (upd_proc i f s) !! i = Some (f p).
Proof. intros Hp. cbn. by rewrite list_lookup_alter_eq, Hp. Qed.

Lemma upd_proc_lookup_ne i j f s : i ≠ j → k_procs (upd_proc i f s) !! j = k_procs s !! j.
Proof. intros. cbn. by rewrite list_lookup_alter_ne. Qed.

(** A process that is alive stays well formed when it only changes state or channel. *)
Lemma proc_ok_live p st ch :
  proc_ok p → p_state p = RUNNING → proc_ok (set_p_state st (set_p_chan ch p)).
Proof.
  intros [A B C D E F G H] Hr. rewrite Hr in A, B. split; cbn; auto.
Qed.

Lemma proc_ok_state p st : proc_ok p → p_state p = RUNNING → proc_ok (set_p_state st p).
Proof. intros [A B C D E F G H] Hr. rewrite Hr in A, B. split; cbn; auto. Qed.

Lemma proc_ok_chan p ch : proc_ok p → proc_ok (set_p_chan ch p).
Proof. intros [A B C D E F G H]. split; cbn; auto. Qed.

(** Process [i] as it goes to sleep on [ch]. *)
Definition fallen (i : nat) (ch : chan) (s : kst W) : kst W :=
  upd_proc i (λ p, set_p_state SLEEPING (set_p_chan ch p)) s.

(** Process [i] gives up the CPU, SLEEPING on [ch], with exactly [ptable.lock] held. *)
Definition asleep (i : nat) (ch : chan) (s : kst W) : Prop :=
  switch_ok i s ∧ ∃ p, k_procs s !! i = Some p ∧ p_state p = SLEEPING ∧ p_chan p = ch.

Lemma back_refl held i p s :
  kctx held s → ptable_wf s → k_cur s = Some i → k_procs s !! i = Some p → p_state p = RUNNING →
  back held i p s s.
Proof. intros. split; try done. by exists p. Qed.

Lemma sleep_core_eq i p ch s0 s :
  back [L_ptable] i p s0 s →
  ∃ k, sleep_core ch s = Switch (fallen i ch s) k ∧ asleep i ch (fallen i ch s) ∧
    kdata (fallen i ch s) = kdata s ∧
    ∀ s', resumed i (fallen i ch s) s' →
      ∃ s2, k s' = Done tt s2 ∧ back [L_ptable] i (set_p_chan C_null p) s0 s2 ∧ kdata s2 = kdata s'.
Proof.
  intros [Hc Hwf Hcur Hini Hlk (q & Hq & Hr & Hpr)]. unfold sleep_core. cbn.
  rewrite (set_cur_eq i) by done. cbn. rewrite (set_cur_eq i) by done. cbn.
  rewrite upd_proc_upd. change (upd_proc i _ s) with (fallen i ch s).
  set (q' := set_p_state SLEEPING (set_p_chan ch q)).
  assert (Hq' : k_procs (fallen i ch s) !! i = Some q') by (unfold fallen; by rewrite (upd_proc_lookup i _ q)).
  assert (Hc' : kctx [L_ptable] (fallen i ch s)) by (by apply kctx_procs).
  rewrite (sched_eq i q' (fallen i ch s)) by done. cbn. eexists. split; [done|]. split; [|split].
  - split; [split|]; [done| |done|exists q'; by auto|by exists q'].
    eapply wf_upd; [done..| |done|done]. apply proc_ok_live; [by eapply wf_ok|done].
  - eapply kdata_upd; [done|]. unfold pview. cbn. by rewrite Hr.
  - intros s' [A B C D E G]. rewrite (set_cur_eq i) by done. eexists. split; [done|].
    destruct (G q' Hq') as (_ & p' & Hp' & Hr' & Hpriv).
    split; [|by etransitivity; [eapply (kdata_upd i _ p')|]].
    split.
    + by apply kctx_procs, kctx_intena.
    + eapply wf_upd; [by apply (wf_frame s')|done| |done|done]. apply proc_ok_chan. by eapply wf_ok.
    + done.
    + cbn. by rewrite D.
    + intros l Hl. apply (E l), Hlk, Hl.
    + exists (set_p_chan C_null p'). split; [by apply upd_proc_lookup|].
      split; [done|]. unfold private, q' in *. cbn in *. congruence.
Qed.

Lemma wf_lock l lk c s : ptable_wf s → ptable_wf (set_k_cpu c (upd_lock l lk s)).
Proof. by apply wf_frame. Qed.

Lemma back_acquire held i p s0 l s :
  back held i p s0 s → l ∉ held → is_Some (k_locks s0 !! l) →
  acquire l s = Done tt (acquired l s) ∧ back (l :: held) i p s0 (acquired l s).
Proof.
  intros [A B C D E F] Hl Hi. destruct (acquire_kctx held l s) as [-> Hc]; [done|done|by apply E|].
  split; [done|]. split; try done; [by apply wf_lock|].
  intros l' Hl'. cbn. rewrite lookup_insert_is_Some'. auto.
Qed.

Lemma back_release held i p s0 l s :
  back (l :: held) i p s0 s →
  release l s = Done tt (released l s) ∧ back held i p s0 (released l s).
Proof.
  intros [A B C D E F]. destruct (release_kctx held l s A) as [-> Hc].
  split; [done|]. split; try done; [by apply wf_lock|].
  intros l' Hl'. cbn. rewrite lookup_insert_is_Some'. auto.
Qed.

Lemma back_swap l1 l2 held i p s0 s : back (l1 :: l2 :: held) i p s0 s → back (l2 :: l1 :: held) i p s0 s.
Proof. intros [A B C D E F]. split; try done. eapply kctx_perm; [apply Permutation_swap|done]. Qed.

Lemma sleep_eq i p ch l s :
  kctx [l] s → ptable_wf s → is_Some (k_locks s !! L_ptable) → k_cur s = Some i →
  k_procs s !! i = Some p → p_state p = RUNNING →
  ∃ s1 k, sleep ch (Some l) s = Switch s1 k ∧ asleep i ch s1 ∧ kdata s1 = kdata s ∧
    (∀ j, j ≠ i → k_procs s1 !! j = k_procs s !! j) ∧
    ∀ s', resumed i s1 s' → ∃ s2, k s' = Done tt s2 ∧ back [l] i (set_p_chan C_null p) s s2 ∧ kdata s2 = kdata s'.
Proof.
  intros Hc Hwf Hi Hcur Hp Hr. unfold sleep, sleep_by. cbn. rewrite Hcur.
  assert (Hin : is_Some (k_locks s !! l)) by (apply (kc_init _ _ Hc); set_solver).
  pose proof (back_refl [l] i p s Hc Hwf Hcur Hp Hr) as Hb.
  destruct (bool_decide_reflect (l = L_ptable)) as [->|Hne]; cbn.
  { destruct (sleep_core_eq i p ch s s Hb) as (k & -> & Ha & Hd & Hk). cbn.
    eexists _, _. split; [done|]. split; [done|]. split; [done|].
    split; [intros j Hj; by apply upd_proc_lookup_ne|]. intros s' Hs'.
    destruct (Hk s' Hs') as (s2 & -> & Hb2 & Hd2). by exists s2. }
  destruct (back_acquire [l] i p s L_ptable s Hb) as [-> Hb1]; [set_solver|done|]. cbn.
  destruct (back_release [L_ptable] i p s l (acquired L_ptable s)) as [-> Hb2]; [by apply back_swap|]. cbn.
  destruct (sleep_core_eq i p ch s _ Hb2) as (k & -> & Ha & Hd & Hk). cbn.
  eexists _, _. split; [done|]. split; [done|]. split; [done|].
  split; [intros j Hj; by etransitivity; [apply upd_proc_lookup_ne|]|]. intros s' Hs'.
  destruct (Hk s' Hs') as (s2 & -> & Hb3 & Hd2). cbn.
  destruct (back_release [] i _ s L_ptable s2 Hb3) as [-> Hb4]. cbn.
  destruct (back_acquire [] i _ s l _ Hb4) as [-> Hb5]; [set_solver|done|]. by eexists.
Qed.

Lemma sleep_wp i p ch l J F s :
  data_only J → J s →
  kctx [l] s → ptable_wf s → is_Some (k_locks s !! L_ptable) → k_cur s = Some i →
  k_procs s !! i = Some p → p_state p = RUNNING →
  wp (kenv i J F) (sleep ch (Some l) s)
    (λ _ s', back [l] i (set_p_chan C_null p) s s' ∧ J s').
Proof.
  intros HJd HJ Hc Hwf Hi Hcur Hp Hr.
  destruct (sleep_eq i p ch l s) as (s1 & k & -> & [Ha _] & Hd & _ & Hk); [done..|]. cbn.
  split; [split; [done|by eapply HJd]|]. intros s' [Hs' HJ'].
  destruct (Hk s' Hs') as (s2 & -> & Hb & Hd2). cbn. split; [done|by eapply HJd].
Qed.

(** ** Sleeping while other CPUs run

    The other CPUs are given a chance to run before every lock operation.  What they
    do then are whole critical sections, which respect the locks this CPU holds: the
    process table under [ptable.lock], and under [l] the condition [C] that the caller
    is about to wait for the end of. *)
Definition at_point (op : lockid → M (kst W) unit) (l : lockid) : M (kst W) unit := swtch ;;; op l.

Record others (i : nat) (l : lockid) (C : kst W → Prop) (s s' : kst W) : Prop := {
  ot_ctx held : kctx held s → kctx held s';
  ot_wf : ptable_wf s → ptable_wf s';
  ot_cur : k_cur s' = k_cur s;
  ot_init : k_initproc s' = k_initproc s;
  ot_locks x : is_Some (k_locks s !! x) → is_Some (k_locks s' !! x);
  ot_self p : k_procs s !! i = Some p →
    ∃ p', k_procs s' !! i = Some p' ∧ p_state p' = p_state p ∧ private p' = private p;
  ot_table : lock_held L_ptable s → k_procs s' = k_procs s;
  ot_cond : lock_held l s → C s → C s';
}.

Definition running (i : nat) (s : kst W) : Prop := ∃ p, k_procs s !! i = Some p ∧ p_state p = RUNNING.

(** A RUNNING process is at a lock operation; one that is not has called [swtch]. *)
Definition mpenv (i : nat) (l : lockid) (ch : chan) (C : kst W → Prop) : env (kst W) :=
  Env (λ s, running i s ∨ asleep i ch s ∧ C s)
      (λ s s', running i s ∧ others i l C s s' ∨ ¬ running i s ∧ resumed i s s') False.

Lemma back_others held i p s0 l C s s' : back held i p s0 s → others i l C s s' → back held i p s0 s'.
Proof.
  intros [A B D E F (q & Hq & Hr & Hpr)] [a b d e f g _ _]. split; try by auto; try congruence.
  destruct (g q Hq) as (q' & Hq' & Hr' & Hpr'). exists q'. split; [done|]. split; congruence.
Qed.

Lemma at_point_wp i l ch C held p s0 op x s Q :
  back held i p s0 s →
  (∀ s', back held i p s0 s' → (l ∈ held → C s → C s') → wp (mpenv i l ch C) (op x s') Q) →
  wp (mpenv i l ch C) (at_point op x s) Q.
Proof.
  intros Hb HQ. pose proof Hb as [A _ _ _ _ (q & Hq & Hr & _)]. assert (Hrun : running i s) by (by exists q).
  cbn. split; [by left|]. intros s' [[_ Ho]|[Hn _]]; [|done]. apply HQ; [by eapply back_others|].
  intros Hl. apply (ot_cond _ _ _ _ _ Ho). by eapply kctx_held.
Qed.

Lemma sleep_core_mp i p l ch C s0 s Q :
  data_only C → C s → back [L_ptable] i p s0 s →
  (∀ s', back [L_ptable] i (set_p_chan C_null p) s0 s' → Q tt s') →
  wp (mpenv i l ch C) (sleep_core ch s) Q.
Proof.
  intros HCd HC Hb HQ. destruct (sleep_core_eq i p ch s0 s Hb) as (k & -> & Ha & Hd & Hk). cbn.
  split; [right; split; [done|by eapply HCd]|].
  intros s' [[(q & Hq & Hr) _]|[_ Hs']].
  { destruct Ha as [_ (q' & Hq' & Hr' & _)]. rewrite Hq in Hq'. injection Hq' as <-. congruence. }
  destruct (Hk s' Hs') as (s2 & -> & Hb2 & _). cbn. by apply HQ.
Qed.

Lemma sleep_mp i p ch l C s :
  data_only C → C s → kctx [l] s → ptable_wf s → is_Some (k_locks s !! L_ptable) → k_cur s = Some i →
  k_procs s !! i = Some p → p_state p = RUNNING →
  wp (mpenv i l ch C) (sleep_by (at_point acquire) (at_point release) ch (Some l) s)
    (λ _ s', back [l] i (set_p_chan C_null p) s s').
Proof.
  intros HCd HC Hc Hwf Hi Hcur Hp Hr. unfold sleep_by. cbn [bind rbind gets]. rewrite Hcur.
  assert (Hin : is_Some (k_locks s !! l)) by (apply (kc_init _ _ Hc); set_solver).
  pose proof (back_refl [l] i p s Hc Hwf Hcur Hp Hr) as Hb.
  destruct (bool_decide_reflect (l = L_ptable)) as [->|Hne]; cbn [negb when].
  { mstep. apply wp_bind. by apply (sleep_core_mp i p _ _ _ s). }
  mstep. apply wp_bind, wp_bind. apply (at_point_wp i l ch C [l] p s); [done|]. intros s1 Hb1 HC1.
  specialize (HC1 ltac:(set_solver) HC).
  destruct (back_acquire [l] i p s L_ptable s1 Hb1) as [-> Hb2]; [set_solver|done|]. cbn [wp].
  apply (at_point_wp i l ch C [L_ptable; l] p s); [done|]. intros s2 Hb3 HC2.
  specialize (HC2 ltac:(set_solver) ltac:(by eapply (HCd s1))).
  destruct (back_release [L_ptable] i p s l s2) as [-> Hb4]; [by apply back_swap|]. cbn [wp].
  apply wp_bind. apply (sleep_core_mp i p _ _ _ s); [done|by eapply (HCd s2)|done|]. intros s3 Hb5.
  apply wp_bind. apply (at_point_wp i l ch C [L_ptable] (set_p_chan C_null p) s); [done|]. intros s4 Hb6 _.
  destruct (back_release [] i _ s L_ptable s4 Hb6) as [-> Hb7]. cbn [wp].
  apply (at_point_wp i l ch C [] (set_p_chan C_null p) s); [done|]. intros s5 Hb8 _.
  by destruct (back_acquire [] i _ s l s5 Hb8) as [-> Hb9]; [set_solver|done|].
Qed.

Lemma yield_wp i p J F s :
  data_only J → J s →
  kctx [] s → ptable_wf s → is_Some (k_locks s !! L_ptable) → k_cur s = Some i →
  k_procs s !! i = Some p → p_state p = RUNNING →
  wp (kenv i J F) (yield s) (λ _ s', back [] i p s s' ∧ J s').
Proof.
  intros HJd HJ Hc Hwf Hi Hcur Hp Hr. unfold yield. cbn.
  destruct (acquire_kctx [] L_ptable s) as [-> Hc1]; [done|set_solver|done|]. cbn.
  rewrite (set_cur_eq i) by done. cbn. apply wp_bind.
  eapply wp_mono; [|apply (sched_wp i (set_p_state RUNNABLE p))].
  - intros [] s' [[A B C D E G] HJ'].
    destruct (release_kctx [] L_ptable s' A) as [-> Hc3]. cbn.
    split; [|by eapply (HJd s')].
    destruct (G (set_p_state RUNNABLE p)) as (_ & p' & Hp' & Hr' & Hpriv).
    { by erewrite upd_proc_lookup. }
    split; try done.
    + by apply wf_lock.
    + intros l Hl. cbn. rewrite !lookup_insert_is_Some'. right. apply E. cbn.
      rewrite !lookup_insert_is_Some'. auto.
    + exists p'. split; [done|]. split; [done|]. unfold private in *. cbn in *. congruence.
  - done.
  - eapply (HJd s); [|done]. eapply (kdata_upd i _ p (acquired L_ptable s)); [done|].
    unfold pview. cbn. by rewrite Hr.
  - by apply kctx_procs.
  - eapply wf_upd; [by apply wf_lock|done| |done|done]. apply proc_ok_state; [by eapply wf_ok|done].
  - done.
  - by erewrite upd_proc_lookup.
  - auto.
Qed.
End Blocking.

(** * Kernel code of a running process

    [krun held ls i p s]: the code runs for process [i], whose private fields are
    those of [p], holding exactly the spinlocks [held]; [ptable.lock] and the
    locks [ls] are initialised.  The lemmas say that the primitives keep this. *)
Section Running.
Context {W : Type}.
Implicit Types s : kst W.

Record krun (held ls : list lockid) (i : nat) (p : proc) (s : kst W) : Prop := {
  kr_ctx : kctx held s;
  kr_wf : ptable_wf s;
  kr_cur : k_cur s = Some i;
  kr_locks l : l ∈ L_ptable :: ls → is_Some (k_locks s !! l);
  kr_chan : p_chan p = C_null;
  kr_self : ∃ p', k_procs s !! i = Some p' ∧ p_state p' = RUNNING ∧ private p' = private p;
}.

Lemma krun_frame held ls i p s s' :
  k_cpuid s' = k_cpuid s → k_cpu s' = k_cpu s → k_locks s' = k_locks s → k_procs s' = k_procs s →
  k_nextpid s' = k_nextpid s → k_cur s' = k_cur s → k_initproc s' = k_initproc s →
  krun held ls i p s → krun held ls i p s'.
Proof.
  intros H1 H2 H3 H4 H5 H6 H7 [A B C D E F]. split; rewrite ?H3, ?H4, ?H6; try done.
  - by apply (kctx_frame _ s).
  - by apply (wf_frame s).
Qed.

Lemma krun_acquire held ls i p l s :
  krun held ls i p s → l ∈ L_ptable :: ls → l ∉ held →
  acquire l s = Done tt (acquired l s) ∧ krun (l :: held) ls i p (acquired l s).
Proof.
  intros [A B C D E F] Hl Hn.
  destruct (acquire_kctx held l s) as [Ha Hc]; [done|done|by apply D|].
  split; [done|]. split; try done.
  - by apply wf_lock.
  - intros l' Hl'. cbn. rewrite lookup_insert_is_Some'. auto.
Qed.

Lemma krun_release held ls i p l s :
  krun (l :: held) ls i p s →
  release l s = Done tt (released l s) ∧ krun held ls i p (released l s).
Proof.
  intros [A B C D E F]. destruct (release_kctx held l s A) as [Hr Hc].
  split; [done|]. split; try done.
  - by apply wf_lock.
  - intros l' Hl'. cbn. rewrite lookup_insert_is_Some'. auto.
Qed.

Lemma wake_running ch p : p_state p = RUNNING → wake ch p = p.
Proof. intros Hr. unfold wake. by rewrite bool_decide_eq_false_2 by (by rewrite Hr). Qed.

Lemma wake_pview ch p : pview (wake ch p) = pview p.
Proof.
  unfold wake. destruct (bool_decide_reflect (p_state p = SLEEPING)) as [Hs|]; cbn; [|done].
  destruct (bool_decide (p_chan p = ch)); [|done]. unfold pview. cbn. by rewrite Hs.
Qed.

Lemma kdata_wake ch s : kdata (set_k_procs (wake ch <$> k_procs s) s) = kdata s.
Proof.
  unfold kdata. cbn. do 2 f_equal. rewrite <- list_fmap_compose. apply list_fmap_ext.
  intros i p _. apply wake_pview.
Qed.

Lemma krun_wakeup held ls i p ch s :
  krun held ls i p s → L_ptable ∉ held →
  ∃ s', wakeup ch s = Done tt s' ∧ krun held ls i p s' ∧ kdata s' = kdata s.
Proof.
  intros [A B C D E (p' & F & G & I)] Hn. eexists.
  split; [by eapply wakeup_eq; [..|apply D; set_solver|apply wf_len]|].
  split; [|by rewrite <- (kdata_wake ch s)]. split; try done.
  - by apply (kctx_norm _ (set_k_procs _ s)), kctx_procs.
  - by apply (wf_frame (set_k_procs (wake ch <$> k_procs s) s)), wake_wf.
  - exists p'. cbn. rewrite list_lookup_fmap, F. cbn. by rewrite wake_running.
Qed.

Lemma krun_sleep held ls i p l ch J F s :
  held = [l] → data_only J → J s → krun held ls i p s →
  wp (kenv i J F) (sleep ch (Some l) s) (λ _ s', krun held ls i p s' ∧ J s').
Proof.
  intros -> HJd HJ [A B C D E (p' & G & H & I)].
  eapply wp_mono; [|apply (sleep_wp i p'); try done; apply D; set_solver].
  intros [] s' [[A' B' C' D' E' (p2 & G' & H' & I')] HJ']. split; [|done]. split; try done.
  - intros l' Hl'. by apply E', D.
  - exists p2. split; [done|]. split; [done|]. unfold private in *. cbn in *.
    rewrite E in *. congruence.
Qed.

End Running.

(** * kill *)
Section Kill.
Context {W : Type}.
Implicit Types s : kst W.

(** What [kill] does to the process it finds. *)
Definition killed_proc (p : proc) : proc :=
  if decide (p_state p = SLEEPING) then set_p_state RUNNABLE (set_p_killed 1 p)
  else set_p_killed 1 p.

Lemma kill_found held pid i p s :
  kctx held s → L_ptable ∉ held → is_Some (k_locks s !! L_ptable) → length (k_procs s) = NPROC →
  list_find (λ p, p_pid p = pid) (k_procs s) = Some (i, p) →
  kill pid s = Done 0 (set_k_cpu (cpu_norm (k_cpu s)) (upd_proc i killed_proc s)).
Proof.
  intros Hc Hn Hi Hl Hf. unfold kill. cbn.
  destruct (acquire_kctx held L_ptable s) as [-> Hc1]; [done..|]. cbn.
  pose proof Hf as (Hp & Hpid & _)%list_find_Some.
  rewrite (for_break_slots_some (λ p, p_pid p = pid) _ i p 0 _
    (released L_ptable (upd_proc i killed_proc (acquired L_ptable s)))); [|done|done|..].
  - cbn. unfold upd_proc. by rewrite (critical_procs held).
  - intros j q Hq Hne. cbn. rewrite (proc_at_eq j q) by done. cbn.
    by destruct (Z.eqb_spec (p_pid q) pid).
  - cbn. rewrite (proc_at_eq i p) by done. cbn. rewrite Hpid, Z.eqb_refl.
    assert (Hk : killed_proc p = if decide (p_state p = SLEEPING)
      then set_p_state RUNNABLE (set_p_killed 1 p) else set_p_killed 1 p) by done.
    destruct (release_kctx held L_ptable (upd_proc i killed_proc (acquired L_ptable s)))
      as [Hrel _]; [by apply kctx_procs|].
    unfold set_proc. cbn. destruct (decide (p_state p = SLEEPING)) as [Hs|Hs].
    + rewrite bool_decide_eq_true_2 by done. cbn. rewrite upd_proc_upd.
      rewrite (upd_proc_ext i _ killed_proc p) by done. by rewrite Hrel.
    + rewrite bool_decide_eq_false_2 by done. cbn.
      rewrite (upd_proc_ext i _ killed_proc p) by done. by rewrite Hrel.
Qed.

Lemma kill_missing held pid s :
  kctx held s → L_ptable ∉ held → is_Some (k_locks s !! L_ptable) → length (k_procs s) = NPROC →
  list_find (λ p, p_pid p = pid) (k_procs s) = None →
  kill pid s = Done (-1) (set_k_cpu (cpu_norm (k_cpu s)) s).
Proof.
  intros Hc Hn Hi Hl Hf. unfold kill. cbn.
  destruct (acquire_kctx held L_ptable s) as [-> Hc1]; [done..|]. cbn.
  rewrite (for_break_slots_none (λ p, p_pid p = pid)); [|done|done|].
  - cbn. destruct (release_kctx held L_ptable (acquired L_ptable s)) as [-> _]; [done|]. cbn.
    rewrite released_acquired; [done| |by eapply kctx_cpu_wf]. by eapply kctx_free.
  - intros j q Hq Hne. cbn. rewrite (proc_at_eq j q) by done. cbn.
    by destruct (Z.eqb_spec (p_pid q) pid).
Qed.
End Kill.

(** * The scheduler *)
Section Scheduler.
Context {W : Type}.
Implicit Types s : kst W.

(** No process is RUNNING. *)
Definition idle (s : kst W) : Prop := ∀ i p, k_procs s !! i = Some p → p_state p ≠ RUNNING.

(** The state in which [scheduler] switches to a process: [ptable.lock] is held,
    the process it chose is RUNNING and current, and the CPU is set up with its
    page table and kernel stack. *)
Record dispatch_ok (s : kst W) : Prop := {
  dp_ctx : kctx [L_ptable] s;
  dp_wf : ptable_wf s;
  dp_proc : ∃ i p, k_cur s = Some i ∧ k_procs s !! i = Some p ∧ p_state p = RUNNING ∧
    c_cr3 (k_cpu s) = V2P (p_pgdir p) ∧ c_esp0 (k_cpu s) = u32 (p_kstack p + KSTACKSIZE);
}.

(** What the scheduler finds when a process switches back to it. *)
Record returned (s s' : kst W) : Prop := {
  rt_ctx : kctx [L_ptable] s';
  rt_wf : ptable_wf s';
  rt_idle : idle s';
  rt_locks l : is_Some (k_locks s !! l) → is_Some (k_locks s' !! l);
}.

(** What a process guarantees at [swtch] is what the scheduler relies on. *)
Lemma switch_ok_idle i s : switch_ok i s → idle s.
Proof.
  intros [A B C (p & Hp & Hst)] j q Hq Hr.
  pose proof (wf_run _ B _ _ Hq Hr) as Hj. rewrite C in Hj. injection Hj as <-.
  rewrite Hp in Hq. injection Hq as <-. rewrite Hr in Hst. naive_solver.
Qed.

(** [switchuvm] loads the page table and kernel stack of a process that has both. *)
Lemma switchuvm_eq held i p s :
  kctx held s → k_procs s !! i = Some p → p_kstack p ≠ 0 → p_pgdir p ≠ 0 → held ≠ [] →
  switchuvm i s = Done tt (set_k_cpu (set_c_cr3 (V2P (p_pgdir p))
    (set_c_esp0 (u32 (p_kstack p + KSTACKSIZE)) (k_cpu s))) s).
Proof.
  intros Hc Hp Hk Hd Hne. unfold switchuvm. cbn. rewrite (proc_at_eq i p) by done. cbn.
  destruct (Z.eqb_spec (p_kstack p) 0); [done|]. cbn.
  destruct (Z.eqb_spec (p_pgdir p) 0); [done|]. cbn.
  rewrite pushcli_eq. cbn. unfold upd_cpu. cbn.
  pose proof (kc_ncli _ _ Hc) as Hn. pose proof (kc_if _ _ Hc Hne) as Hif.
  assert (0 < c_ncli (k_cpu s)) by (rewrite Hn; destruct held; [done|simpl; lia]).
  rewrite popcli_eq; [|done|cbn; lia]. cbn. unfold pop_cpu. cbn. kunf.
  do 2 f_equal. unfold set_c_cr3, set_c_esp0. cbn.
  destruct (Z.eqb_spec (c_ncli (k_cpu s)) 0); [lia|].
  replace (c_ncli (k_cpu s) + 1 - 1) with (c_ncli (k_cpu s)) by lia.
  destruct (Z.eqb_spec (c_ncli (k_cpu s)) 0); [lia|]. by rewrite Hif.
Qed.

Definition sched_inv (s : kst W) : Prop :=
  kctx [L_ptable] s ∧ ptable_wf s ∧ idle s ∧ k_cur s = None.

Lemma kctx_cpu held c s :
  c_ncli c = c_ncli (k_cpu s) → c_if c = c_if (k_cpu s) → kctx held s → kctx held (set_k_cpu c s).
Proof. intros H1 H2 [A B C D E]. split; cbn; rewrite ?H1, ?H2; auto. Qed.

Lemma wf_cur_none s : ptable_wf s → idle s → ptable_wf (set_k_cur None s).
Proof.
  intros [A B C D E F G] Hi. split; cbn; try done. intros i p Hp Hr. by destruct (Hi i p Hp).
Qed.

Lemma wf_cur_some i s : ptable_wf s → idle s → (i < NPROC)%nat → ptable_wf (set_k_cur (Some i) s).
Proof.
  intros [A B C D E F G] Hi Hlt. split; cbn; try done.
  - intros j p Hp Hr. by destruct (Hi j p Hp).
  - by intros j [= <-].
Qed.

(** The state in which slot [i], holding [p], is dispatched; and the one in which the
    scheduler goes on when a process has switched back to it in [s']. *)
Definition dispatched (i : nat) (p : proc) (s : kst W) : kst W :=
  upd_proc i (set_p_state RUNNING) (set_k_cpu (set_c_cr3 (V2P (p_pgdir p))
    (set_c_esp0 (u32 (p_kstack p + KSTACKSIZE)) (k_cpu s))) (set_k_cur (Some i) s)).
Definition parked (s' : kst W) : kst W :=
  set_k_cur None (set_k_cpu (set_c_cr3 (V2P (k_kpgdir s')) (k_cpu s')) s').

(** [round_ok js s r]: [r] is what remains of a round that has the slots [js] still to
    visit.  The next slot is dispatched if its process is RUNNABLE at that moment, and
    left alone if not; after the last slot [ptable.lock] is released. *)
Fixpoint round_ok (js : list nat) (s : kst W) (r : res (kst W) unit) : Prop :=
  match js with
  | [] => r = Done tt (released L_ptable s) ∧ kctx [] (released L_ptable s) ∧
      ptable_wf (released L_ptable s) ∧ idle (released L_ptable s) ∧ k_cur s = None
  | i :: js' =>
    ∃ p, k_procs s !! i = Some p ∧
      if decide (p_state p = RUNNABLE) then
        dispatch_ok (dispatched i p s) ∧ ∃ k, r = Switch (dispatched i p s) k ∧
          ∀ s', returned (dispatched i p s) s' → round_ok js' (parked s') (k s')
      else round_ok js' s r
  end.

(** What a slot whose process is RUNNABLE makes of the state. *)
Lemma dispatched_ok i p s :
  (i < NPROC)%nat → sched_inv s → k_procs s !! i = Some p → p_state p = RUNNABLE →
  scheduler_body i s = Switch (dispatched i p s) (λ s', Done tt (parked s')) ∧ dispatch_ok (dispatched i p s).
Proof.
  intros Hi (Hc & Hwf & Hidle & Hcur) Hp Hr. unfold scheduler_body. cbn.
  rewrite (proc_at_eq i p) by done. cbn. rewrite decide_True by done. cbn.
  pose proof (wf_ok _ Hwf _ _ Hp) as Hok. destruct (po_vm _ Hok) as [Hks Hpd]; [by rewrite Hr..|].
  rewrite (switchuvm_eq [L_ptable] i p); [|by apply (kctx_frame _ s)|done..]. cbn. split; [done|].
  split.
  - apply kctx_procs, kctx_cpu; [done..|]. by apply (kctx_frame _ s).
  - eapply (wf_upd i p); [|done| |done|done].
    + by eapply (wf_frame (set_k_cur (Some i) s)), wf_cur_some.
    + destruct Hok as [P1 P2 P3 P4 P5 P6 P7 P8]. rewrite Hr in P1, P2. split; cbn; auto.
  - exists i, (set_p_state RUNNING p). cbn. rewrite list_lookup_alter_eq, Hp. done.
Qed.

Lemma parked_inv s s' : returned s s' → sched_inv (parked s').
Proof.
  intros [A B C D]. split; [|split; [|split]].
  - by apply (kctx_frame _ (set_k_cpu (set_c_cr3 (V2P (k_kpgdir s')) (k_cpu s')) s')), kctx_cpu.
  - by apply (wf_frame (set_k_cur None s')), wf_cur_none.
  - done.
  - done.
Qed.

Lemma round_loop js s :
  Forall (λ i, i < NPROC)%nat js → sched_inv s →
  round_ok js s (rbind (for_each js scheduler_body s) (λ _, release L_ptable)).
Proof.
  intros His. revert s. induction His as [|i js Hi His IH]; intros s Hinv; cbn [for_each round_ok].
  - destruct Hinv as (Hc & Hwf & Hid & Hcur). destruct (release_kctx [] L_ptable s Hc) as [E Hc2].
    cbn. rewrite E. split; [done|]. split; [done|]. split; [by apply wf_lock|done].
  - destruct (lookup_lt_is_Some_2 (k_procs s) i) as [p Hp]; [by rewrite (wf_len _ (proj1 (proj2 Hinv)))|].
    exists p. split; [done|]. destruct (decide (p_state p = RUNNABLE)) as [Hr|Hr].
    + destruct (dispatched_ok i p s Hi Hinv Hp Hr) as [E Hd]. split; [done|]. mstep. rewrite E. cbn.
      eexists. split; [done|]. intros s' Hs'. apply IH. by eapply parked_inv.
    + mstep. unfold scheduler_body at 1. cbn. rewrite (proc_at_eq i p) by done. cbn.
      rewrite decide_False by done. cbn. by apply IH.
Qed.

Lemma scheduler_round_ok s :
  kctx [] s → ptable_wf s → idle s → k_cur s = None → is_Some (k_locks s !! L_ptable) →
  round_ok slots (acquired L_ptable (set_k_cpu (set_c_if true (k_cpu s)) s)) (scheduler_round s).
Proof.
  intros Hc Hwf Hid Hcur Hi. unfold scheduler_round, sti, upd_cpu. cbn.
  destruct (acquire_kctx [] L_ptable (set_k_cpu (set_c_if true (k_cpu s)) s)) as [-> Hc1];
    [|set_solver|done|].
  { destruct Hc as [A B C D E]. by split. }
  cbn. apply round_loop.
  - apply Forall_forall. intros i Hi'. unfold slots in Hi'. apply elem_of_seq in Hi'. lia.
  - split; [done|]. split; [by apply wf_lock, (wf_frame s)|done].
Qed.
End Scheduler.

(** * Properties *)

(** A table whose first slots are the processes [ps], the others never used. *)
Lemma wf_prefix {W} (ps : list proc) (s : kst W) :
  k_procs s = ps ++ replicate (NPROC - length ps) proc0 → (length ps ≤ NPROC)%nat →
  Forall (λ p, proc_ok p ∧ 0 < p_pid p < k_nextpid s) ps → NoDup (p_pid <$> ps) →
  (∀ i p, ps !! i = Some p → p_state p = RUNNING → k_cur s = Some i) →
  (∀ i, k_cur s = Some i → (i < NPROC)%nat) → (∀ i, k_initproc s = Some i → (i < NPROC)%nat) →
  0 < k_nextpid s → ptable_wf s.
Proof.
  intros Hps Hlen Hok Hnd Hrun Hcur Hinit Hnp. rewrite Forall_lookup in Hok.
  assert (L : ∀ i p, k_procs s !! i = Some p →
    ps !! i = Some p ∨ (p = proc0 ∧ ps !! i = None)).
  { rewrite Hps. intros i p. rewrite lookup_app. destruct (ps !! i) eqn:E; [naive_solver|].
    intros [-> _]%lookup_replicate. auto. }
  assert (proc_ok proc0) by (split; cbn; try done; lia).
  split; try done.
  - rewrite Hps, length_app, length_replicate. lia.
  - intros i p [Hp|[-> _]]%L; [by eapply Hok|done].
  - intros i p [Hp|[-> _]]%L; [|cbn; lia]. destruct (Hok _ _ Hp). lia.
  - intros i j p q [Hp|[-> _]]%L [Hq|[-> _]]%L He Hne; try done.
    apply (NoDup_lookup (p_pid <$> ps) i j (p_pid p)); [done|..]; rewrite list_lookup_fmap.
    + by rewrite Hp.
    + rewrite Hq. cbn. congruence.
  - intros i p [Hp|[-> _]]%L Hr; [by eapply Hrun|done].
Qed.

(** Locks that are all initialised and free, interrupts on. *)
Lemma kctx_none {W} (s : kst W) :
  map_Forall (λ _ lk, lk = mkLock 0 (l_name lk) None) (k_locks s) → c_ncli (k_cpu s) = 0 →
  kctx [] s.
Proof.
  intros HL Hn. split; [|set_solver|done|done|constructor].
  intros l lk Hl. rewrite decide_False by set_solver. by eapply (HL l).
Qed.


(** One user process, RUNNING in slot 0; [ptable.lock] initialised and free. *)
Module Demo.
Definition p1 : proc :=
  mkProc 4096 2148532224 2148536320 RUNNING 1 None tf0 (mkContext 0 0 0 0 0) C_null 0
    (replicate NOFILE None) None (replicate 16 0) 0 (replicate NUMSIG 0) 0 0 0.
Definition mk {W} (locks : gmap lockid spinlock) (pipes : gmap Z pipe) (w : W) : kst W :=
  mkKst 0%nat (mkCpu 0 false true 0 0) locks (p1 :: replicate 63 proc0) 2 (Some 0%nat)
    (Some 0%nat) 0 true 0 (replicate NFILE file0) pipes ∅ w fs0 [].
Definition st : kst unit := mk {[ L_ptable := mkLock 0 "ptable" None ]} ∅ tt.

Lemma p1_ok : proc_ok p1.
Proof. split; cbn; try done; lia. Qed.
Lemma mk_wf {W} locks pipes (w : W) : ptable_wf (mk locks pipes w).
Proof.
  apply (wf_prefix [p1]); try done.
  - unfold NPROC. cbn. lia.
  - constructor; [|done]. split; [apply p1_ok|cbn; lia].
  - cbn. repeat constructor. set_solver.
  - intros [|i] p; cbn; [done|by destruct i].
  - intros i [= <-]. unfold NPROC. lia.
  - intros i [= <-]. unfold NPROC. lia.
Qed.
Lemma mk_krun {W} ls locks pipes (w : W) :
  map_Forall (λ _ lk, lk = mkLock 0 (l_name lk) None) locks →
  (∀ l, l ∈ L_ptable :: ls → is_Some (locks !! l)) → krun [] ls 0 p1 (mk locks pipes w).
Proof.
  intros Hf Hl. split; try done; [by apply kctx_none|apply mk_wf|by exists p1].
Qed.
Lemma st_ctx : kctx [] st.
Proof. apply kctx_none; [|done]. by apply map_Forall_singleton. Qed.
Lemma st_wf : ptable_wf st.
Proof. apply mk_wf. Qed.
Lemma st_lock : is_Some (k_locks st !! L_ptable).
Proof. by eexists. Qed.
(** The same, with [tickslock]. *)
Definition st2 : kst unit :=
  mk {[ L_ptable := mkLock 0 "ptable" None; L_tickslock := mkLock 0 "time" None ]} ∅ tt.
Lemma st2_ctx : kctx [] st2.
Proof. apply kctx_none; [|done]. apply map_Forall_insert_2; [done|]. by apply map_Forall_singleton. Qed.
End Demo.

(** [yield], called by the RUNNING process [i] with no lock held, gives up the
    CPU holding [ptable.lock] alone, RUNNABLE and with the table well formed; and
    whatever state the scheduler resumes it in, it returns with no lock held,
    RUNNING, and with its own fields as it left them.  It never panics. *)
Theorem yield_spec {W} (J : kst W → Prop) i p s :
  data_only J → J s → kctx [] s → ptable_wf s → is_Some (k_locks s !! L_ptable) →
  k_cur s = Some i → k_procs s !! i = Some p → p_state p = RUNNING →
  wp (kenv i J False) (yield s) (λ _ s', back [] i p s s' ∧ J s').
Proof. by apply yield_wp. Qed.

Lemma yield_spec_witness :
  wp (kenv 0 (λ _, True) False) (yield Demo.st) (λ _ s', back [] 0 Demo.p1 Demo.st s' ∧ True).
Proof.
  apply yield_spec; [done|done|exact Demo.st_ctx|exact Demo.st_wf|exact Demo.st_lock|done..].
Defined.

(** C10: [sleep] on a channel with the spinlock [l] held (which may be [ptable.lock]
    itself), while a condition [C] on the data [l] protects holds.  It never panics.
    It gives up the CPU SLEEPING on that channel with exactly [ptable.lock] held, all
    other processes and the data as they were; and whatever state it is resumed in,
    it returns holding exactly [l] again, RUNNING, off the channel and with its own
    fields intact.  With other CPUs running before each of its lock operations, [C]
    still holds when it gives up the CPU: there is no moment between the caller's
    test and SLEEPING at which neither [l] nor [ptable.lock] is held, so whoever ends
    [C] under [l] and then calls [wakeup] finds the process asleep. *)
Theorem sleep_spec {W} (C : kst W → Prop) i p ch l s :
  data_only C → C s → kctx [l] s → ptable_wf s → is_Some (k_locks s !! L_ptable) →
  k_cur s = Some i → k_procs s !! i = Some p → p_state p = RUNNING →
  (∃ s1 k, sleep ch (Some l) s = Switch s1 k ∧ asleep i ch s1 ∧ kdata s1 = kdata s ∧
     (∀ j, j ≠ i → k_procs s1 !! j = k_procs s !! j) ∧
     ∀ s', resumed i s1 s' → ∃ s2, k s' = Done tt s2 ∧ back [l] i (set_p_chan C_null p) s s2 ∧ kdata s2 = kdata s') ∧
  wp (mpenv i l ch C) (sleep_by (at_point acquire) (at_point release) ch (Some l) s)
    (λ _ s', back [l] i (set_p_chan C_null p) s s').
Proof. intros. split; [by apply sleep_eq|by apply sleep_mp]. Qed.

Lemma sleep_spec_witness :
  let s := acquired L_tickslock Demo.st2 in
  (∃ s1 k, sleep C_ticks (Some L_tickslock) s = Switch s1 k ∧ asleep 0 C_ticks s1) ∧
  wp (mpenv 0 L_tickslock C_ticks (λ s, k_ticks s = 0))
    (sleep_by (at_point acquire) (at_point release) C_ticks (Some L_tickslock) s)
    (λ _ s', back [L_tickslock] 0 (set_p_chan C_null Demo.p1) s s').
Proof.
  destruct (sleep_spec (λ s : kst unit, k_ticks s = 0) 0 Demo.p1 C_ticks L_tickslock (acquired L_tickslock Demo.st2))
    as [(s1 & k & H1 & H2 & _) H3].
  - intros s s' E. unfold kdata in E. congruence.
  - reflexivity.
  - apply (acquire_kctx [] L_tickslock Demo.st2); [exact Demo.st2_ctx|set_solver|by eexists].
  - apply wf_lock, Demo.mk_wf.
  - by eexists.
  - reflexivity.
  - reflexivity.
  - reflexivity.
  - split; [exists s1, k; split; [exact H1|exact H2]|exact H3].
Defined.

(** [wakeup] makes RUNNABLE exactly the processes SLEEPING on the channel,
    and changes nothing else; locks and interrupt state come back as they were. *)
Theorem wakeup_spec {W} held ch (s : kst W) :
  kctx held s → L_ptable ∉ held → is_Some (k_locks s !! L_ptable) → ptable_wf s →
  ∃ s', wakeup ch s = Done tt s' ∧ kctx held s' ∧ ptable_wf s' ∧
    ∀ i p, k_procs s !! i = Some p → k_procs s' !! i =
      Some (if bool_decide (p_state p = SLEEPING ∧ p_chan p = ch)
            then set_p_state RUNNABLE p else p).
Proof.
  intros Hc Hn Hi Hwf. eexists. split; [by eapply wakeup_eq; [..|apply wf_len]|].
  split; [|split].
  - by apply (kctx_norm _ (set_k_procs _ s)), kctx_procs.
  - by apply (wf_frame (set_k_procs (wake ch <$> k_procs s) s)), wake_wf.
  - intros i p Hp. cbn. rewrite list_lookup_fmap, Hp. cbn. f_equal. unfold wake.
    by rewrite bool_decide_and.
Qed.

Lemma wakeup_spec_witness : ∃ s', wakeup C_ticks Demo.st = Done tt s' ∧ kctx [] s'.
Proof.
  destruct (wakeup_spec [] C_ticks Demo.st Demo.st_ctx ltac:(set_solver) Demo.st_lock Demo.st_wf)
    as (s' & H1 & H2 & _).
  exists s'. split; [exact H1|exact H2].
Defined.

(** [kill] marks the first process with that pid killed, and makes it
    RUNNABLE if it was SLEEPING; it returns 0.  With no such pid it returns -1 and
    changes no process.  Either way the locks are as before. *)
Theorem kill_spec {W} held pid (s : kst W) :
  kctx held s → L_ptable ∉ held → is_Some (k_locks s !! L_ptable) → ptable_wf s →
  ∃ s', kill pid s = Done (if list_find (λ p, p_pid p = pid) (k_procs s) is Some _ then 0 else -1) s' ∧
    kctx held s' ∧
    k_procs s' = match list_find (λ p, p_pid p = pid) (k_procs s) with
                 | Some (i, _) => alter killed_proc i (k_procs s)
                 | None => k_procs s
                 end.
Proof.
  intros Hc Hn Hi Hwf. destruct (list_find _ _) as [[i p]|] eqn:Hf.
  - eexists. split; [eapply kill_found; eauto using wf_len|].
    split; [|done]. by apply (kctx_norm _ (upd_proc _ _ s)), kctx_procs.
  - eexists. split; [eapply kill_missing; eauto using wf_len|].
    split; [by apply kctx_norm|done].
Qed.

Lemma kill_spec_witness : ∃ s', kill 1 Demo.st = Done 0 s' ∧
  k_procs s' = set_p_killed 1 Demo.p1 :: replicate 63 proc0.
Proof.
  destruct (kill_spec [] 1 Demo.st Demo.st_ctx ltac:(set_solver) Demo.st_lock Demo.st_wf)
    as (s' & H1 & _ & H2).
  exists s'. split; [exact H1|exact H2].
Defined.

(** C27: A scheduling round, entered with no lock held and no process RUNNING, visits
    the 64 slots in order.  It switches to the process in a slot if and only if that
    process is RUNNABLE when the slot is visited, each time holding exactly
    [ptable.lock], with that process current and RUNNING and the CPU loaded with its
    page table and kernel stack; whatever the process leaves behind, the round goes
    on with the next slot, and ends with no lock held and no process RUNNING. *)
Theorem scheduler_round_spec {W} (s : kst W) :
  kctx [] s → ptable_wf s → idle s → k_cur s = None → is_Some (k_locks s !! L_ptable) →
  round_ok (seq 0 NPROC) (acquired L_ptable (set_k_cpu (set_c_if true (k_cpu s)) s)) (scheduler_round s).
Proof. apply scheduler_round_ok. Qed.

Lemma scheduler_round_spec_witness :
  let s := set_k_cur None (upd_proc 0 (set_p_state RUNNABLE) Demo.st) in
  round_ok (seq 0 NPROC) (acquired L_ptable (set_k_cpu (set_c_if true (k_cpu s)) s)) (scheduler_round s).
Proof.
  apply scheduler_round_spec; try done.
  - apply (kctx_frame _ Demo.st); [done..|exact Demo.st_ctx].
  - apply wf_cur_none.
    + eapply wf_upd; [exact Demo.st_wf|done| |done|done]. split; cbn; try done; lia.
    + intros [|i] p; [by intros [= <-]|]. by intros [-> _]%(lookup_replicate 63 proc0 p i).
  - intros [|i] p; [by intros [= <-]|]. by intros [-> _]%(lookup_replicate 63 proc0 p i).
Defined.

Arguments set_proc : simpl never.

(** * Straight-line code on one slot *)
Section Slot.
Context {W : Type}.
Implicit Types s : kst W.

(** The table [ps] with [q] in slot [i]. *)
Definition with_proc (i : nat) (q : proc) (s : kst W) : kst W :=
  set_k_procs (<[i := q]> (k_procs s)) s.

Lemma set_proc_with i f q s :
  (i < length (k_procs s))%nat → set_proc i f (with_proc i q s) = Done tt (with_proc i (f q) s).
Proof.
  intros Hi.
  transitivity (Done tt (set_k_procs (alter f i (<[i := q]> (k_procs s))) s)); [done|].
  unfold with_proc. do 2 f_equal. apply list_eq. intros j.
  destruct (decide (j = i)) as [->|].
  - rewrite list_lookup_alter_eq, !list_lookup_insert_eq by done. done.
  - by rewrite list_lookup_alter_ne, !list_lookup_insert_ne.
Qed.

Lemma with_proc_id i q s : k_procs s !! i = Some q → with_proc i q s = s.
Proof. intros H. unfold with_proc. rewrite list_insert_id by done. by destruct s. Qed.

Lemma with_proc_twice i q q' s : with_proc i q (with_proc i q' s) = with_proc i q s.
Proof. unfold with_proc. kunf. by rewrite list_insert_insert_eq. Qed.

Lemma set_proc_eq i f q s :
  k_procs s !! i = Some q → set_proc i f s = Done tt (with_proc i (f q) s).
Proof.
  intros Hq. rewrite <- (with_proc_id i q s) at 1 by done. apply set_proc_with.
  by eapply lookup_lt_Some.
Qed.

Lemma with_proc_lookup i q s :
  (i < length (k_procs s))%nat → k_procs (with_proc i q s) !! i = Some q.
Proof. intros. cbn. by rewrite list_lookup_insert_eq. Qed.

Lemma with_proc_ne i j q s : i ≠ j → k_procs (with_proc i q s) !! j = k_procs s !! j.
Proof. intros. cbn. by rewrite list_lookup_insert_ne. Qed.

Lemma with_proc_kctx held i q s : kctx held s → kctx held (with_proc i q s).
Proof. apply kctx_procs. Qed.

Lemma with_proc_wf i p q s :
  ptable_wf s → k_procs s !! i = Some p → proc_ok q → p_pid q = p_pid p →
  (p_state q = RUNNING → k_cur s = Some i) → ptable_wf (with_proc i q s).
Proof.
  intros Hwf Hp Hok Hpid Hr. pose proof (wf_upd i p (λ _, q) s Hwf Hp Hok Hpid Hr) as H.
  replace (with_proc i q s) with (upd_proc i (λ _, q) s); [done|].
  unfold with_proc, upd_proc. f_equal. apply list_eq. intros j. destruct (decide (j = i)) as [->|].
  - rewrite list_lookup_alter_eq, Hp, list_lookup_insert_eq; [done|by eapply lookup_lt_Some].
  - by rewrite list_lookup_alter_ne, list_lookup_insert_ne.
Qed.

End Slot.
Arguments with_proc : simpl never.

(** Run a chain of assignments to the fields of one slot. *)
Ltac slot_steps := repeat (rewrite set_proc_with by (cbn; first [done|lia|assumption]); cbn).
