(* ===== verification/Sleeplock.v ===== *)
(** sleeplock.c: locks that make their waiters sleep.  A sleep lock hands the
    state it protects from the process that releases it to the one that takes
    it, whatever runs in between. *)
From S2P Require Import Prelude Mem KState Spinlock Sched.

Section Sleeplock.
Context {W : Type}.

Definition slock (k : nat) (s : kst W) : sleeplock :=
  match k_slocks s !! k with Some l => l | None => mkSleep 0 "unset" 0 end.
Definition set_slock (k : nat) (f : sleeplock → sleeplock) : M (kst W) unit :=
  modify (λ s, set_k_slocks (<[k := f (slock k s)]> (k_slocks s)) s).
Definition set_sl_locked (v : Z) (l : sleeplock) : sleeplock := mkSleep v (sl_name l) (sl_pid l).
Definition set_sl_pid (v : Z) (l : sleeplock) : sleeplock := mkSleep (sl_locked l) (sl_name l) v.
Definition set_sl_name (v : string) (l : sleeplock) : sleeplock := mkSleep (sl_locked l) v (sl_pid l).

Definition initsleeplock (k : nat) (name : string) : M (kst W) unit :=
  initlock (L_sleeplock k) "sleep lock" ;;;
  set_slock k (set_sl_name name) ;;;
  set_slock k (set_sl_locked 0) ;;;
  set_slock k (set_sl_pid 0).

(** [while (lk->locked) sleep(lk, &lk->lk);] *)
Definition acquiresleep_wait (fuel k : nat) : M (kst W) unit :=
  loop fuel (
    l <- gets (slock k) ;;
    if negb (sl_locked l =? 0) then
      sleep (C_sleeplock k) (Some (L_sleeplock k)) ;;; ret None
    else ret (Some tt)).

Definition acquiresleep (fuel k : nat) : M (kst W) unit :=
  acquire (L_sleeplock k) ;;;
  acquiresleep_wait fuel k ;;;
  set_slock k (set_sl_locked 1) ;;;
  p <- cur ;;
  set_slock k (set_sl_pid (p_pid p)) ;;;
  release (L_sleeplock k).

Definition releasesleep (k : nat) : M (kst W) unit :=
  acquire (L_sleeplock k) ;;;
  set_slock k (set_sl_locked 0) ;;;
  set_slock k (set_sl_pid 0) ;;;
  wakeup (C_sleeplock k) ;;;
  release (L_sleeplock k).

Definition holdingsleep (k : nat) : M (kst W) Z :=
  acquire (L_sleeplock k) ;;;
  r <- gets (λ s, sl_locked (slock k s)) ;;
  release (L_sleeplock k) ;;;
  ret r.

End Sleeplock.

Arguments acquiresleep : simpl never.
Arguments releasesleep : simpl never.
Arguments holdingsleep : simpl never.
Arguments acquiresleep_wait : simpl never.
Arguments set_slock : simpl never.

(** * Running alone

    What the operations do to the kernel state when nobody else holds the lock:
    [core] is everything else that kernel code looks at. *)
Section Alone.
Context {W : Type}.
Implicit Types s : kst W.

Definition core (s : kst W) := (k_pipes s, k_files s, k_mem s, k_ticks s, pview <$> k_procs s).

Lemma core_kdata s s' :
  kdata s' = kdata s → core s' = core s ∧ k_slocks s' = k_slocks s ∧ k_fs s' = k_fs s.
Proof. unfold kdata, core. intros [= -> -> -> -> -> -> ->]. done. Qed.

Lemma krun_pid held ls i p s :
  krun held ls i p s → ∃ p', cur s = Done p' s ∧ p_pid p' = p_pid p.
Proof.
  intros [A B C D E (p' & F & G & I)]. exists p'. split; [by apply (cur_eq i)|].
  unfold private in I. congruence.
Qed.

Lemma slock_eq k l s : k_slocks s !! k = Some l → slock k s = l.
Proof. unfold slock. by intros ->. Qed.

Lemma slock_frame k s s' : k_slocks s' = k_slocks s → slock k s' = slock k s.
Proof. unfold slock. by intros ->. Qed.

Lemma slock_insert k j l s :
  slock j (set_k_slocks (<[k := l]> (k_slocks s)) s) = if decide (j = k) then l else slock j s.
Proof.
  unfold slock. cbn. destruct (decide (j = k)) as [->|].
  - by rewrite lookup_insert_eq.
  - by rewrite lookup_insert_ne.
Qed.

Lemma acquiresleep_wait_free fuel k s :
  sl_locked (slock k s) = 0 → (0 < fuel)%nat → acquiresleep_wait fuel k s = Done tt s.
Proof. intros H0 Hf. destruct fuel as [|fuel]; [lia|]. unfold acquiresleep_wait. cbn. by rewrite H0. Qed.

(** The lock is free: it is taken at once. *)
Lemma acquiresleep_free fuel k ls i p s :
  krun [] ls i p s → L_sleeplock k ∈ ls → sl_locked (slock k s) = 0 → (0 < fuel)%nat →
  wp alone (acquiresleep fuel k s) (λ _ s', krun [] ls i p s' ∧
    core s' = core s ∧ k_fs s' = k_fs s ∧ sl_locked (slock k s') = 1 ∧ sl_pid (slock k s') = p_pid p ∧
    ∀ j, j ≠ k → slock j s' = slock j s).
Proof.
  intros Hk Hl H0 Hf. unfold acquiresleep. mstep.
  destruct (krun_acquire [] ls i p (L_sleeplock k) s) as [-> Hk1]; [done|set_solver..|]. mstep.
  rewrite acquiresleep_wait_free by done. mstep. unfold set_slock at 1. mstep.
  set (s1 := set_k_slocks _ (acquired _ s)).
  assert (krun [L_sleeplock k] ls i p s1) as Hk2 by (by apply (krun_frame _ _ _ _ (acquired (L_sleeplock k) s))).
  destruct (krun_pid _ _ _ _ _ Hk2) as (p' & -> & Hpid). mstep. unfold set_slock. mstep.
  set (s2 := set_k_slocks _ s1).
  assert (krun [L_sleeplock k] ls i p s2) as Hk3 by (by apply (krun_frame _ _ _ _ s1)).
  destruct (krun_release [] _ _ _ _ s2 Hk3) as [-> Hk4]. cbn.
  split; [done|]. split; [done|]. split; [done|].
  assert (∀ j, slock j (released (L_sleeplock k) s2) = slock j s2) as Hj by (intros; by apply slock_frame).
  rewrite Hj. unfold s2. rewrite slock_insert, decide_True by done.
  unfold s1 at 1. rewrite slock_insert, decide_True by done. split; [done|]. split; [done|].
  intros j Hne. rewrite Hj. unfold s2. rewrite slock_insert, decide_False by done.
  unfold s1. by rewrite slock_insert, decide_False.
Qed.

Lemma releasesleep_eq k ls i p s :
  krun [] ls i p s → L_sleeplock k ∈ ls →
  wp alone (releasesleep k s) (λ _ s', krun [] ls i p s' ∧
    core s' = core s ∧ k_fs s' = k_fs s ∧ sl_locked (slock k s') = 0 ∧
    ∀ j, j ≠ k → slock j s' = slock j s).
Proof.
  intros Hk Hl. unfold releasesleep. mstep.
  destruct (krun_acquire [] ls i p (L_sleeplock k) s) as [-> Hk1]; [done|set_solver..|]. mstep.
  unfold set_slock. mstep.
  set (s1 := set_k_slocks _ (acquired _ s)). set (s2 := set_k_slocks _ s1).
  assert (krun [L_sleeplock k] ls i p s2) as Hk2 by (by apply (krun_frame _ _ _ _ (acquired (L_sleeplock k) s))).
  destruct (krun_wakeup _ _ _ _ (C_sleeplock k) s2 Hk2) as (s3 & -> & Hk3 & Hd); [set_solver|]. mstep.
  destruct (core_kdata _ _ Hd) as (Hc & Hsl & Hfs).
  destruct (krun_release [] _ _ _ _ s3 Hk3) as [-> Hk4]. cbn.
  split; [done|]. split; [exact Hc|]. split; [exact Hfs|].
  assert (∀ j, slock j (released (L_sleeplock k) s3) = slock j s2) as Hj by (intros; apply slock_frame, Hsl).
  rewrite Hj. unfold s2. rewrite slock_insert, decide_True by done.
  unfold s1 at 1. rewrite slock_insert, decide_True by done. split; [done|].
  intros j Hne. rewrite Hj. unfold s2. rewrite slock_insert, decide_False by done.
  unfold s1. by rewrite slock_insert, decide_False.
Qed.

Lemma holdingsleep_eq k ls i p s :
  krun [] ls i p s → L_sleeplock k ∈ ls →
  wp alone (holdingsleep k s) (λ r s', r = sl_locked (slock k s) ∧ krun [] ls i p s' ∧
    core s' = core s ∧ k_fs s' = k_fs s ∧ k_slocks s' = k_slocks s).
Proof.
  intros Hk Hl. unfold holdingsleep. mstep.
  destruct (krun_acquire [] ls i p (L_sleeplock k) s) as [-> Hk1]; [done|set_solver..|]. mstep.
  by destruct (krun_release [] _ _ _ _ _ Hk1) as [-> Hk4].
Qed.

End Alone.

(** * Handing over what the lock protects *)
Section Handoff.
Context {W : Type}.
Implicit Types s : kst W.

(** What the lock [k] protects is in order whenever nobody holds it. *)
Definition guarded (k : nat) (R : kst W → Prop) (s : kst W) : Prop :=
  sl_locked (slock k s) = 0 → R s.

Context (R : kst W → Prop) (HR : data_only R) (HRs : ∀ m s, R s → R (set_k_slocks m s)).

Lemma guarded_data k : data_only (guarded k R).
Proof.
  intros s s' Hd Hg H0. apply (HR s); [done|]. apply Hg. rewrite <- H0. symmetry.
  f_equal. apply slock_frame. by destruct (core_kdata _ _ Hd) as (_ & ? & _).
Qed.

Lemma acquiresleep_wait_wp fuel k ls i p s :
  krun [L_sleeplock k] ls i p s → guarded k R s →
  wp (kenv i (guarded k R) True) (acquiresleep_wait fuel k s) (λ _ s',
    krun [L_sleeplock k] ls i p s' ∧ R s').
Proof.
  unfold acquiresleep_wait. revert s. induction fuel as [|fuel IH]; intros s Hk HJ; [done|].
  cbn [loop]. mstep. destruct (Z.eqb_spec (sl_locked (slock k s)) 0) as [H0|H0]; cbn [negb]; mstep.
  - split; [done|]. by apply HJ.
  - apply wp_bind, wp_bind. eapply wp_mono; [|by eapply krun_sleep; [|apply guarded_data|..]].
    intros [] s' [Hk' HJ']. by apply IH.
Qed.

Lemma acquiresleep_wp fuel k ls i p s :
  krun [] ls i p s → L_sleeplock k ∈ ls → guarded k R s →
  wp (kenv i (guarded k R) True) (acquiresleep fuel k s) (λ _ s',
    krun [] ls i p s' ∧ R s' ∧ sl_locked (slock k s') = 1 ∧ sl_pid (slock k s') = p_pid p).
Proof.
  intros Hk Hl HJ. unfold acquiresleep. mstep.
  destruct (krun_acquire [] ls i p (L_sleeplock k) s) as [-> Hk1]; [done|set_solver..|]. mstep.
  eapply wp_then; [apply (acquiresleep_wait_wp _ _ ls i p); [done|by eapply (guarded_data k s)]|].
  intros [] s1 [Hk2 HR1]. unfold set_slock at 1. mstep. set (s2 := set_k_slocks _ s1).
  assert (krun [L_sleeplock k] ls i p s2) as Hk3 by (by apply (krun_frame _ _ _ _ s1)).
  destruct (krun_pid _ _ _ _ _ Hk3) as (p' & -> & Hpid). mstep. unfold set_slock. mstep.
  set (s3 := set_k_slocks _ s2).
  assert (krun [L_sleeplock k] ls i p s3) as Hk4 by (by apply (krun_frame _ _ _ _ s2)).
  destruct (krun_release [] _ _ _ _ s3 Hk4) as [-> Hk5]. cbn. split; [done|].
  split; [by apply (HR s3); [done|]; apply HRs, HRs|].
  rewrite (slock_frame k s3) by done. unfold s3. rewrite slock_insert, decide_True by done.
  unfold s2 at 1. by rewrite slock_insert, decide_True.
Qed.

Lemma releasesleep_hand k ls i p s :
  krun [] ls i p s → L_sleeplock k ∈ ls → R s →
  wp alone (releasesleep k s) (λ _ s',
    krun [] ls i p s' ∧ guarded k R s' ∧ R s' ∧ sl_locked (slock k s') = 0).
Proof.
  intros Hk Hl Hs. unfold releasesleep. mstep.
  destruct (krun_acquire [] ls i p (L_sleeplock k) s) as [-> Hk1]; [done|set_solver..|]. mstep.
  unfold set_slock. mstep.
  set (s1 := set_k_slocks _ (acquired _ s)). set (s2 := set_k_slocks _ s1).
  assert (krun [L_sleeplock k] ls i p s2) as Hk2 by (by apply (krun_frame _ _ _ _ (acquired (L_sleeplock k) s))).
  destruct (krun_wakeup _ _ _ _ (C_sleeplock k) s2 Hk2) as (s3 & -> & Hk3 & Hd); [set_solver|]. mstep.
  destruct (krun_release [] _ _ _ _ s3 Hk3) as [-> Hk4]. cbn.
  assert (R (released (L_sleeplock k) s3)) as HR3.
  { apply (HR s3); [done|]. apply (HR s2); [done|]. apply HRs, HRs. by eapply (HR s). }
  split; [done|]. split; [by intros _|]. split; [done|].
  destruct (core_kdata _ _ Hd) as (_ & Hsl & _).
  rewrite (slock_frame k s2) by exact Hsl. unfold s2. rewrite slock_insert, decide_True by done.
  unfold s1. by rewrite slock_insert, decide_True.
Qed.

End Handoff.

(** C35: A sleep lock hands over what it protects.  However the other processes
    run, and however often the caller has to wait, [acquiresleep] never panics,
    returns with the protected state in order, with the lock recorded as taken
    by the caller and with no spinlock held; it takes a free lock without
    giving up the CPU.  [releasesleep] makes the protected state available to
    the next holder and does not block. *)
Theorem sleeplock_handoff {W} (R : kst W → Prop) fuel k i p (s : kst W) :
  data_only R → (∀ m s, R s → R (set_k_slocks m s)) →
  krun [] [L_sleeplock k] i p s →
  (guarded k R s →
     wp (kenv i (guarded k R) True) (acquiresleep fuel k s) (λ _ s',
       krun [] [L_sleeplock k] i p s' ∧ R s' ∧
       sl_locked (slock k s') = 1 ∧ sl_pid (slock k s') = p_pid p)) ∧
  (sl_locked (slock k s) = 0 → (0 < fuel)%nat →
     ∃ s', acquiresleep fuel k s = Done tt s' ∧ krun [] [L_sleeplock k] i p s' ∧
       sl_locked (slock k s') = 1) ∧
  (R s → ∃ s', releasesleep k s = Done tt s' ∧ krun [] [L_sleeplock k] i p s' ∧
       guarded k R s' ∧ R s' ∧ sl_locked (slock k s') = 0).
Proof.
  intros HR HRs Hk. split; [|split].
  - intros HJ. apply acquiresleep_wp; [done..|set_solver|done].
  - intros H0 Hf. pose proof (acquiresleep_free fuel k [L_sleeplock k] i p s) as Ha.
    apply wp_alone in Ha as ([] & s' & He & Hk' & _ & _ & Hl & _); [|done|set_solver|done..].
    by exists s'.
  - intros Hs. pose proof (releasesleep_hand R HR HRs k [L_sleeplock k] i p s) as Ha.
    apply wp_alone in Ha as ([] & s' & He & Hk' & Hg & HR' & Hl); [|done|set_solver|done].
    by exists s'.
Qed.

(** A process that takes a free lock and gives it back. *)
Definition demo_locks : gmap lockid spinlock :=
  {[ L_ptable := mkLock 0 "ptable" None; L_sleeplock 3 := mkLock 0 "sleep lock" None ]}.

Lemma sleeplock_handoff_witness :
  ∃ s', acquiresleep 1 3 (Demo.mk demo_locks ∅ tt) = Done tt s' ∧ sl_locked (slock 3 s') = 1.
Proof.
  destruct (sleeplock_handoff (λ s : kst unit, k_mem s = tt) 1 3 0 Demo.p1
    (Demo.mk demo_locks ∅ tt)) as (_ & H & _).
  - by intros s s' _ _; destruct (k_mem s').
  - done.
  - apply Demo.mk_krun.
    + apply map_Forall_insert_2; [done|]. by apply map_Forall_singleton.
    + intros l [->|[->|Hl%not_elem_of_nil]%elem_of_cons]%elem_of_cons; [..|done]; by eexists.
  - destruct H as (s' & H1 & _ & H2); [done|lia|]. by exists s'.
Defined.
