(* ===== verification/Layout.v ===== *)
(** fs.h: the on-disk format.  A block is a list of bytes; the fields of the
    structures laid over it are read and assigned by offset. *)
From S2P Require Import Prelude Mem KState.

(** param.h *)
Definition MAXOPBLOCKS : Z := 10.
Definition LOGSIZE : Z := MAXOPBLOCKS * 3.
Definition NDEV : Z := 10.
Definition FSSIZE : Z := 1000.

(** stat.h *)
Definition T_DIR : Z := 1.
Definition T_FILE : Z := 2.
Definition T_DEV : Z := 3.

Definition ROOTINO : Z := 1.
Definition ROOTDEV : Z := 1.
Definition NINDIRECT : Z := BSIZE / 4.
Definition MAXFILE : Z := Z.of_nat NDIRECT + NINDIRECT.
Definition DIRSIZ : nat := 14.

(** [n] bytes at an offset, and an assignment to the bytes at an offset. *)
Definition get (off n : nat) (d : list Z) : list Z := take n (drop off d).
Definition put (off : nat) (bs : list Z) (d : list Z) : list Z := list_inserts off bs d.

(** 32-bit and 16-bit fields. *)
Definition word (off : nat) (d : list Z) : Z := of_le (get off 4 d).
Definition put_word (off : nat) (v : Z) (d : list Z) : list Z := put off (le32 v) d.
Definition half (off : nat) (d : list Z) : Z := of_le (get off 2 d).
Definition le16 (v : Z) : list Z := [u8 v; u8 (v / 2^8)].
Definition put_half (off : nat) (v : Z) (d : list Z) : list Z := put off (le16 v) d.

(** [memmove(sb, bp->data, sizeof( *sb))] *)
Definition sb_of_bytes (d : list Z) : superblock :=
  mkSb (word 0 d) (word 4 d) (word 8 d) (word 12 d) (word 16 d) (word 20 d) (word 24 d).

(** struct dinode is 64 bytes: four shorts, the size and [NDIRECT+1] addresses. *)
Definition DINODE : Z := 64.
Definition IPB : Z := BSIZE / DINODE.
Definition BPB : Z := BSIZE * 8.
Definition IBLOCK (i : Z) (sb : superblock) : Z := u32 (i / IPB + sb_inodestart sb).
Definition BBLOCK (b : Z) (sb : superblock) : Z := u32 (b / BPB + sb_bmapstart sb).

(** struct dirent: a [ushort] and [DIRSIZ] characters. *)
Definition dirent_size : Z := 16.
Definition de_inum (d : list Z) : Z := half 0 d.
Definition de_name (d : list Z) : list Z := get 2 DIRSIZ d.

(** * Reading back what was stored *)
Lemma length_put off bs d : length (put off bs d) = length d.
Proof. apply length_inserts. Qed.
Lemma length_put_word off v d : length (put_word off v d) = length d.
Proof. apply length_put. Qed.

Lemma length_get off n d : (off + n ≤ length d)%nat → length (get off n d) = n.
Proof. intros. unfold get. rewrite length_take, length_drop. lia. Qed.

Lemma get_lookup off n d k : (k < n)%nat → get off n d !! k = d !! (off + k)%nat.
Proof. intros. unfold get. by rewrite lookup_take_lt, lookup_drop. Qed.

Lemma get_eq off n d d' :
  (off + n ≤ length d)%nat → length d' = length d →
  (∀ k, (off ≤ k < off + n)%nat → d !! k = d' !! k) → get off n d = get off n d'.
Proof.
  intros Hl Hl' Hk. apply list_eq_same_length with n; [apply length_get; lia..|].
  intros k x y Hlt. rewrite !get_lookup by done. rewrite (Hk (off + k)%nat) by lia. congruence.
Qed.

Lemma get_put_same off bs d : (off + length bs ≤ length d)%nat → get off (length bs) (put off bs d) = bs.
Proof.
  intros Hl. apply list_eq_same_length with (length bs); [done|apply length_get; by rewrite length_put|].
  intros k x y Hlt. rewrite get_lookup by done. unfold put.
  rewrite list_lookup_inserts by lia. replace (off + k - off)%nat with k by lia. congruence.
Qed.

Lemma get_put_ne off off' n bs d :
  (off' + n ≤ length d)%nat → (off' + n ≤ off ∨ off + length bs ≤ off')%nat →
  get off' n (put off bs d) = get off' n d.
Proof.
  intros Hl Hd. apply get_eq; [by rewrite length_put|by rewrite length_put|].
  intros k Hk. unfold put. destruct Hd; [by rewrite list_lookup_inserts_lt by lia|].
  by rewrite list_lookup_inserts_ge by lia.
Qed.

Lemma word_put_word off v d : (off + 4 ≤ length d)%nat → word off (put_word off v d) = u32 v.
Proof.
  intros Hl. unfold word, put_word. rewrite (get_put_same off (le32 v)) by done. apply of_le_le32.
Qed.
Lemma word_put_ne off off' v d :
  (off' + 4 ≤ length d)%nat → (off' + 4 ≤ off ∨ off + 4 ≤ off')%nat →
  word off' (put_word off v d) = word off' d.
Proof. intros Hl Hd. unfold word, put_word. by rewrite get_put_ne. Qed.

Lemma put_all d bs : length bs = length d → put 0 bs d = bs.
Proof.
  intros Hl. apply list_eq_same_length with (length d); [done|apply length_put|].
  intros k x y Hk. unfold put. rewrite list_lookup_inserts by lia. rewrite Nat.sub_0_r. congruence.
Qed.

(** Part of what was stored. *)
Lemma get_put_sub off a n bs d :
  (off + length bs ≤ length d)%nat → (a + n ≤ length bs)%nat → get (off + a) n (put off bs d) = get a n bs.
Proof.
  intros Hl Ha. apply list_eq_same_length with n; [apply length_get; lia|apply length_get; rewrite length_put; lia|].
  intros k x y Hk. rewrite !get_lookup by done. unfold put. rewrite list_lookup_inserts by lia.
  replace (off + a + k - off)%nat with (a + k)%nat by lia. congruence.
Qed.

(** Bytes outside of what was stored. *)
Lemma put_out off bs d k : (k < off ∨ off + length bs ≤ k)%nat → put off bs d !! k = d !! k.
Proof. intros [Hk|Hk]; unfold put; [by apply list_lookup_inserts_lt|by apply list_lookup_inserts_ge]. Qed.

Lemma length_words (l : list Z) : length (concat (le32 <$> l)) = (4 * length l)%nat.
Proof. induction l as [|x l IH]; [done|]. rewrite fmap_cons. cbn [concat]. rewrite length_app, IH. cbn. lia. Qed.

Lemma get_words (l : list Z) k v : l !! k = Some v → get (4 * k) 4 (concat (le32 <$> l)) = le32 v.
Proof.
  revert k. induction l as [|x l IH]; intros k; [done|]. rewrite fmap_cons. cbn [concat]. destruct k as [|k].
  - intros [= ->]. done.
  - intros Hk. replace (4 * S k)%nat with (4 + 4 * k)%nat by lia. rewrite <- (IH k Hk). done.
Qed.

Lemma half_put_half off v d : (off + 2 ≤ length d)%nat → half off (put_half off v d) = u16 v.
Proof.
  intros Hl. unfold half, put_half. rewrite (get_put_same off (le16 v)) by done.
  unfold le16, of_le, u8, u16. simpl. Z.div_mod_to_equations. lia.
Qed.

Lemma s16_u16 v : -2^15 ≤ v < 2^15 → s16 (u16 v) = v.
Proof.
  intros Hv. unfold s16, u16. rewrite Zplus_mod_idemp_l, Z.mod_small by lia. lia.
Qed.
