(* ===== verification/Path.v ===== *)
(** The names of fs.c: [namecmp] and [skipelem].  A path or a file name is the
    list of its characters, without the NUL that ends it. *)
From S2P Require Import Prelude Layout.

(** [strncmp(s, t, n)] on strings. *)
Fixpoint strncmp_list (n : nat) (s t : list Z) : Z :=
  match n with
  | O => 0
  | S n' =>
    let a := match s with c :: _ => c | [] => 0 end in
    let b := match t with c :: _ => c | [] => 0 end in
    if negb (a =? 0) && (a =? b) then strncmp_list n' (tail s) (tail t) else u8 a - u8 b
  end.

Definition namecmp (s t : list Z) : Z := strncmp_list DIRSIZ s t.

Definition slash : Z := 47.

(** [while( *path == '/') path++;] *)
Fixpoint skip_slashes (path : list Z) : list Z :=
  match path with
  | c :: path' => if c =? slash then skip_slashes path' else path
  | [] => []
  end.

(** [while( *path != '/' && *path != 0) path++;]: what was passed over, and the rest. *)
Fixpoint to_slash (path : list Z) : list Z * list Z :=
  match path with
  | c :: path' => if c =? slash then ([], path) else let r := to_slash path' in (c :: r.1, r.2)
  | [] => ([], [])
  end.

(** The rest of the path and the element, of which [name] has room for
    [DIRSIZ] characters. *)
Definition skipelem (path : list Z) : option (list Z * list Z) :=
  let path := skip_slashes path in
  match path with
  | [] => None
  | _ => let r := to_slash path in Some (skip_slashes r.2, take DIRSIZ r.1)
  end.

(** * The elements of a path *)

(** Split at every slash, and drop the empty pieces. *)
Fixpoint split_slash (path : list Z) : list (list Z) :=
  match path with
  | [] => [[]]
  | c :: path' =>
    if c =? slash then [] :: split_slash path'
    else match split_slash path' with w :: ws => (c :: w) :: ws | [] => [[c]] end
  end.
Definition components (path : list Z) : list (list Z) := filter (λ w, w ≠ []) (split_slash path).

(** What repeated calls of [skipelem] find. *)
Fixpoint elems (fuel : nat) (path : list Z) : list (list Z) :=
  match fuel with
  | O => []
  | S fuel' =>
    match skipelem path with
    | Some (rest, name) => name :: elems fuel' rest
    | None => []
    end
  end.

Lemma components_skip path : components (skip_slashes path) = components path.
Proof.
  induction path as [|c path IH]; [done|]. cbn [skip_slashes].
  destruct (c =? slash) eqn:E; [|done]. rewrite IH. unfold components. cbn [split_slash]. rewrite E.
  by rewrite filter_cons_False by auto.
Qed.

Lemma skip_slashes_head path c path' : skip_slashes path = c :: path' → c ≠ slash.
Proof.
  induction path as [|d path IH]; cbn; [done|]. destruct (Z.eqb_spec d slash); [done|]. by intros [= -> ->].
Qed.

Lemma skip_slashes_length path : (length (skip_slashes path) ≤ length path)%nat.
Proof. induction path as [|c path IH]; cbn; [done|]. destruct (c =? slash); cbn; lia. Qed.

Lemma split_to_slash path :
  split_slash path = (to_slash path).1 :: match (to_slash path).2 with [] => [] | _ :: r => split_slash r end.
Proof.
  induction path as [|c path IH]; [done|]. cbn [split_slash to_slash].
  destruct (c =? slash); [done|]. rewrite IH. done.
Qed.

Lemma to_slash_rest path : (to_slash path).2 = [] ∨ ∃ r, (to_slash path).2 = slash :: r.
Proof.
  induction path as [|c path IH]; cbn; [by left|]. destruct (Z.eqb_spec c slash) as [->|]; [by right; eexists|done].
Qed.

Lemma to_slash_length path : (length (to_slash path).1 + length (to_slash path).2 = length path)%nat.
Proof. induction path as [|c path IH]; cbn; [done|]. destruct (c =? slash); cbn; lia. Qed.

(** One element is the first component, and the rest has the others. *)
Lemma skipelem_spec path :
  match skipelem path with
  | None => components path = []
  | Some (rest, name) => ∃ e, components path = e :: components rest ∧ name = take DIRSIZ e ∧
      (length rest < length path)%nat ∧ (∀ c r, rest = c :: r → c ≠ slash)
  end.
Proof.
  unfold skipelem. pose proof (skip_slashes_length path) as Hlen. rewrite <- (components_skip path).
  destruct (skip_slashes path) as [|c path'] eqn:E; [done|]. pose proof (skip_slashes_head _ _ _ E) as Hc.
  exists (to_slash (c :: path')).1.
  assert ((to_slash (c :: path')).1 ≠ []) as Hne by (cbn; by destruct (Z.eqb_spec c slash)).
  pose proof (to_slash_length (c :: path')) as Hl. pose proof (skip_slashes_length (to_slash (c :: path')).2).
  split; [|split; [done|split]].
  - rewrite components_skip. unfold components at 1. rewrite split_to_slash, filter_cons_True by done. f_equal.
    destruct (to_slash_rest (c :: path')) as [->|[r ->]]; [done|].
    unfold components. cbn [split_slash]. rewrite Z.eqb_refl. by rewrite filter_cons_False by auto.
  - destruct (to_slash (c :: path')).1; [done|]. cbn in *. lia.
  - intros d r. apply skip_slashes_head.
Qed.

(** [skipelem] takes a path apart as its slashes do.  Calling it until it
    returns 0 gives the non-empty pieces between the slashes, in order, each cut
    to [DIRSIZ] characters; the path it returns never starts with a slash and is
    empty exactly when the element was the last one, which is the test
    [nameiparent] relies on. *)
Theorem path_elements path fuel :
  (length path < fuel)%nat →
  elems fuel path = take DIRSIZ <$> components path ∧
  (∀ rest name, skipelem path = Some (rest, name) →
     head rest ≠ Some slash ∧ (rest = [] ↔ length (components path) = 1%nat)).
Proof.
  intros Hf. split.
  - revert path Hf. induction fuel as [|fuel IH]; intros path Hf; [lia|]. cbn [elems].
    pose proof (skipelem_spec path) as Hs. destruct (skipelem path) as [[rest name]|]; [|by rewrite Hs].
    destruct Hs as (e & -> & -> & Hl & _). rewrite fmap_cons. f_equal. apply IH. lia.
  - intros rest name E. pose proof (skipelem_spec path) as Hs. rewrite E in Hs.
    destruct Hs as (e & -> & _ & _ & Hh). split; [destruct rest; [done|]; intros [= ->]; by apply (Hh slash rest)|].
    split; [by intros ->|]. intros Hl. destruct rest as [|c rest]; [done|]. exfalso.
    pose proof (Hh c rest eq_refl) as Hc. cbn [length] in Hl. injection Hl as Hl. apply length_zero_iff_nil in Hl.
    unfold components in Hl. rewrite split_to_slash, filter_cons_True in Hl; [done|].
    cbn. by destruct (Z.eqb_spec c slash).
Qed.

(** "///a//bb" *)
Lemma path_elements_witness :
  elems 9 [47; 47; 47; 97; 47; 47; 98; 98] = [[97]; [98; 98]] ∧
  elems 9 [47; 47; 47; 97; 47; 47; 98; 98] = take DIRSIZ <$> components [47; 47; 47; 97; 47; 47; 98; 98].
Proof. split; [reflexivity|]. apply (path_elements [47; 47; 47; 97; 47; 47; 98; 98] 9). cbn. lia. Defined.
