(* ===== verification/Bio.v ===== *)
(** bio.c and memide.c: the buffer cache, its doubly linked list of buffers with
    the pointers as the code keeps them, and the disk in memory it is a cache
    of.  A cached block reads as what was last written to it, on disk or not. *)
From S2P Require Import Prelude Mem KState Spinlock Sched Sleeplock.

Definition B_VALID : Z := 2.
Definition B_DIRTY : Z := 4.

(** [&bcache.head] is the entry after the [NBUF] buffers. *)
Definition bhead : nat := NBUF.
Arguments NBUF : simpl never.
Arguments bhead : simpl never.

(** The sleep locks: one for each buffer, then one for each inode. *)
Definition inode_lock (ip : nat) : nat := (S NBUF + ip)%nat.

(** The driver below the cache: [iderw] of ide.c or of memide.c. *)
Class DiskOps (W : Type) := { dk_iderw : nat → M (kst W) unit }.

Section Buffers.
Context {W : Type}.

Definition upd_fs (f : fsst → fsst) : M (kst W) unit := modify (λ s, set_k_fs (f (k_fs s)) s).
Definition get_buf (b : nat) : M (kst W) buf :=
  o <- gets (λ s, fs_bufs (k_fs s) !! b) ;; match o with Some x => ret x | None => panic "trap" end.
Definition set_buf (b : nat) (f : buf → buf) : M (kst W) unit :=
  upd_fs (λ fs, set_fs_bufs (alter f b (fs_bufs fs)) fs).

(** Put [b] between the head and the first buffer of the list. *)
Definition binit_body (b : nat) : M (kst W) unit :=
  h <- get_buf bhead ;; set_buf b (set_b_next (b_next h)) ;;;
  set_buf b (set_b_prev bhead) ;;;
  initsleeplock b "buffer" ;;;
  h <- get_buf bhead ;; set_buf (b_next h) (set_b_prev b) ;;;
  set_buf bhead (set_b_next b).

Definition binit : M (kst W) unit :=
  initlock L_bcache "bcache" ;;;
  set_buf bhead (set_b_prev bhead) ;;;
  set_buf bhead (set_b_next bhead) ;;;
  for_each (seq 0 NBUF) binit_body.

(** [for(; b != &bcache.head; b = step(b)) if(test(b)) ...]: the first buffer
    that passes the test. *)
Fixpoint bscan (n : nat) (step : buf → nat) (test : buf → bool) (b : nat) : M (kst W) (option nat) :=
  match n with
  | O => λ _, Fuel
  | S n' =>
    if decide (b = bhead) then ret None
    else x <- get_buf b ;; if test x then ret (Some b) else bscan n' step test (step x)
  end.

Definition is_block (dev blockno : Z) (x : buf) : bool := (b_dev x =? dev) && (b_blockno x =? blockno).
Definition is_clean (x : buf) : bool := (b_refcnt x =? 0) && (Z.land (b_flags x) B_DIRTY =? 0).

Definition bget (fuel : nat) (dev blockno : Z) : M (kst W) nat :=
  acquire L_bcache ;;;
  h <- get_buf bhead ;;
  r <- bscan (S NBUF) b_next (is_block dev blockno) (b_next h) ;;
  match r with
  | Some b =>
    set_buf b (λ x, set_b_refcnt (u32 (b_refcnt x + 1)) x) ;;;
    release L_bcache ;;;
    acquiresleep fuel b ;;;
    ret b
  | None =>
    h <- get_buf bhead ;;
    r <- bscan (S NBUF) b_prev is_clean (b_prev h) ;;
    match r with
    | Some b =>
      set_buf b (set_b_dev dev) ;;;
      set_buf b (set_b_blockno blockno) ;;;
      set_buf b (set_b_flags 0) ;;;
      set_buf b (set_b_refcnt 1) ;;;
      release L_bcache ;;;
      acquiresleep fuel b ;;;
      ret b
    | None => panic "bget: no buffers"
    end
  end.

(** Move to the head of the MRU list. *)
Definition move_front (b : nat) : M (kst W) unit :=
  x <- get_buf b ;; set_buf (b_next x) (set_b_prev (b_prev x)) ;;;
  x <- get_buf b ;; set_buf (b_prev x) (set_b_next (b_next x)) ;;;
  h <- get_buf bhead ;; set_buf b (set_b_next (b_next h)) ;;;
  set_buf b (set_b_prev bhead) ;;;
  h <- get_buf bhead ;; set_buf (b_next h) (set_b_prev b) ;;;
  set_buf bhead (set_b_next b).

Definition brelse (b : nat) : M (kst W) unit :=
  h <- holdingsleep b ;;
  (if h =? 0 then panic "brelse" else ret tt) ;;;
  releasesleep b ;;;
  acquire L_bcache ;;;
  set_buf b (λ x, set_b_refcnt (u32 (b_refcnt x - 1)) x) ;;;
  x <- get_buf b ;;
  when (b_refcnt x =? 0) (move_front b) ;;;
  release L_bcache.

Context {DK : DiskOps W}.

Definition bread (fuel : nat) (dev blockno : Z) : M (kst W) nat :=
  b <- bget fuel dev blockno ;;
  x <- get_buf b ;;
  when (Z.land (b_flags x) B_VALID =? 0) (dk_iderw b) ;;;
  ret b.

Definition bwrite (b : nat) : M (kst W) unit :=
  h <- holdingsleep b ;;
  (if h =? 0 then panic "bwrite" else ret tt) ;;;
  set_buf b (λ x, set_b_flags (Z.lor (b_flags x) B_DIRTY) x) ;;;
  dk_iderw b.

End Buffers.

(** * memide.c: the disk is an image in memory *)
Module Memide.
Section Memide.
Context {W : Type}.

(** The block at [p = memdisk + blockno*BSIZE]. *)
Definition disk_block (fs : fsst) (n : Z) : list Z :=
  match fs_disk fs !! n with Some d => d | None => replicate (Z.to_nat BSIZE) 0 end.

(** The image cut into blocks. *)
Fixpoint blocks_of (n : nat) (img : list Z) : list (list Z) :=
  match n with
  | O => []
  | S n' => take (Z.to_nat BSIZE) img :: blocks_of n' (drop (Z.to_nat BSIZE) img)
  end.

Definition ideinit (img : list Z) : M (kst W) unit :=
  let size := Z.of_nat (length img) / BSIZE in
  upd_fs (set_fs_disk (map_seqZ 0 (blocks_of (Z.to_nat size) img))) ;;;
  upd_fs (set_fs_disksize size).

Definition ideintr : M (kst W) unit := ret tt.

Definition iderw (b : nat) : M (kst W) unit :=
  h <- holdingsleep b ;;
  (if h =? 0 then panic "iderw: buf not locked" else ret tt) ;;;
  x <- get_buf b ;;
  (if Z.land (b_flags x) (Z.lor B_VALID B_DIRTY) =? B_VALID then panic "iderw: nothing to do" else ret tt) ;;;
  (if negb (b_dev x =? 1) then panic "iderw: request not for disk 1" else ret tt) ;;;
  d <- gets (λ s, fs_disksize (k_fs s)) ;;
  (if u32 d <=? b_blockno x then panic "iderw: block out of range" else ret tt) ;;;
  (if negb (Z.land (b_flags x) B_DIRTY =? 0) then
     set_buf b (λ x, set_b_flags (Z.land (b_flags x) (Z.lnot B_DIRTY)) x) ;;;
     upd_fs (λ fs, set_fs_writes ((b_blockno x, b_data x) :: fs_writes fs)
                     (set_fs_disk (<[b_blockno x := b_data x]> (fs_disk fs)) fs))
   else
     d <- gets (λ s, disk_block (k_fs s) (b_blockno x)) ;;
     set_buf b (set_b_data d)) ;;;
  set_buf b (λ x, set_b_flags (Z.lor (b_flags x) B_VALID) x).

#[global] Instance ops : DiskOps W := {| dk_iderw := iderw |}.

End Memide.
End Memide.

Arguments upd_fs : simpl never.
Arguments get_buf : simpl never.
Arguments set_buf : simpl never.
Arguments bget : simpl never.
Arguments bread : simpl never.
Arguments bwrite : simpl never.
Arguments brelse : simpl never.
Arguments Memide.iderw : simpl never.

(** * The list of buffers

    [linked nx pv x l y]: following [nx] from [x] visits [l] and then reaches [y];
    following [pv] from [y] goes the same way back. *)
Section Linked.
Implicit Types (nx pv : nat → nat) (l : list nat).

Fixpoint linked nx pv (x : nat) l (y : nat) : Prop :=
  match l with
  | [] => nx x = y ∧ pv y = x
  | z :: l' => nx x = z ∧ pv z = x ∧ linked nx pv z l' y
  end.

Definition fupd (k v : nat) (f : nat → nat) : nat → nat := λ z, if decide (z = k) then v else f z.

Arguments fupd : simpl never.

Lemma fupd_eq k v f : fupd k v f k = v.
Proof. unfold fupd. by rewrite decide_True. Qed.
Lemma fupd_ne k v f z : z ≠ k → fupd k v f z = f z.
Proof. intros. unfold fupd. by rewrite decide_False. Qed.

Lemma fupd_ext k v f g z : (∀ y, f y = g y) → fupd k v f z = fupd k v g z.
Proof. intros E. unfold fupd. by destruct (decide _). Qed.

Lemma linked_ext nx pv nx' pv' x l y :
  linked nx pv x l y → (∀ z, z ∈ x :: l → nx' z = nx z) → (∀ z, z ∈ l ++ [y] → pv' z = pv z) →
  linked nx' pv' x l y.
Proof.
  revert x. induction l as [|z l IH]; intros x; cbn.
  - intros [H1 H2] Hn Hp. rewrite Hn, Hp by set_solver. done.
  - intros (H1 & H2 & Hl) Hn Hp. rewrite Hn, Hp by set_solver. split; [done|]. split; [done|].
    apply IH; [done|intros; apply Hn; set_solver|intros; apply Hp; set_solver].
Qed.

Lemma linked_app nx pv x l1 z l2 y :
  linked nx pv x (l1 ++ z :: l2) y ↔ linked nx pv x l1 z ∧ linked nx pv z l2 y.
Proof. revert x. induction l1 as [|w l1 IH]; intros x; cbn; [tauto|]. rewrite IH. tauto. Qed.

Lemma linked_rev nx pv x l y : linked nx pv x l y → linked pv nx y (reverse l) x.
Proof.
  revert x. induction l as [|z l IH]; intros x; [cbn; tauto|]. cbn [linked].
  intros (H1 & H2 & Hl%IH). rewrite reverse_cons. apply linked_app. cbn [linked]. tauto.
Qed.

Lemma linked_first nx pv x l y : linked nx pv x l y → ∃ z, nx x = z ∧ z ∈ l ++ [y] ∧ pv z = x.
Proof. destruct l; cbn; [intros [? ?]|intros (? & ? & _)]; eexists; (split; [done|]); set_solver. Qed.

(** Where the neighbours of a member are. *)
Lemma linked_around nx pv x l1 b l2 y :
  linked nx pv x (l1 ++ b :: l2) y → pv b ∈ x :: l1 ∧ nx b ∈ l2 ++ [y].
Proof.
  rewrite linked_app. intros [H1 H2]. split.
  - apply linked_rev, linked_first in H1 as (z & -> & Hz & _). revert Hz.
    rewrite elem_of_app, elem_of_reverse. set_solver.
  - apply linked_first in H2 as (z & -> & Hz & _). done.
Qed.

(** [b->next->prev = b->prev; b->prev->next = b->next]: [b] leaves the list. *)
Lemma linked_cut nx pv x l1 b l2 y :
  linked nx pv x (l1 ++ b :: l2) y → NoDup (l1 ++ b :: l2) →
  x ∉ l1 ++ b :: l2 → y ∉ l1 ++ b :: l2 →
  linked (fupd (pv b) (nx b) nx) (fupd (nx b) (pv b) pv) x (l1 ++ l2) y.
Proof.
  revert x. induction l1 as [|w l1 IH]; intros x Hl Hd Hx Hy.
  - cbn in *. destruct Hl as (H1 & -> & Hl). apply NoDup_cons in Hd as [Hb Hd]. destruct l2 as [|z l2]; cbn in *.
    + destruct Hl as [-> _]. by rewrite !fupd_eq.
    + destruct Hl as (-> & H3 & Hl). apply NoDup_cons in Hd as [Hz Hd].
      rewrite !fupd_eq. split; [done|]. split; [done|].
      apply (linked_ext nx pv); [done|intros v Hv; apply fupd_ne; clear -Hv Hx; set_solver|].
      intros v Hv. apply fupd_ne. clear -Hv Hz Hy. set_solver.
  - pose proof (linked_around nx pv x (w :: l1) b l2 y Hl) as [_ Hn].
    cbn in Hl, Hd. destruct Hl as (H1 & H2 & Hl). apply NoDup_cons in Hd as [Hw Hd].
    pose proof (linked_around nx pv w l1 b l2 y Hl) as [Hp _]. cbn.
    assert (x ≠ pv b) by (intros E; rewrite <- E in Hp; clear -Hp Hx; set_solver).
    assert (w ≠ nx b) by (intros E; rewrite <- E in Hn; clear -Hn Hw Hy; set_solver).
    rewrite !fupd_ne by done. split; [done|]. split; [done|].
    apply IH; [done..|clear -Hy; set_solver].
Qed.

(** [b->next = h->next; b->prev = h; h->next->prev = b; h->next = b]: [b] becomes
    the first of the list. *)
Lemma linked_push nx pv b h l :
  linked nx pv h l h → b ≠ h → b ∉ l → h ∉ l → NoDup l →
  linked (fupd h b (fupd b (nx h) nx)) (fupd (nx h) b (fupd b h pv)) h (b :: l) h.
Proof.
  intros Hl Hb Hbl Hh Hd. assert (nx h ≠ b) as Hn.
  { destruct (linked_first _ _ _ _ _ Hl) as (z & -> & Hz & _). set_solver. }
  cbn. rewrite fupd_eq, (fupd_ne (nx h)), fupd_eq by done. split; [done|]. split; [done|].
  destruct l as [|z l]; cbn in *.
  - destruct Hl as [-> Hp]. rewrite (fupd_ne h), fupd_eq by done. split; [done|]. by rewrite fupd_eq.
  - destruct Hl as (-> & H2 & Hl). apply NoDup_cons in Hd as [Hz Hd].
    rewrite (fupd_ne h), !fupd_eq by done. split; [done|]. split; [done|].
    apply (linked_ext nx pv); [done|intros v Hv|intros v Hv].
    + assert (v ≠ h ∧ v ≠ b) as [??] by (clear -Hv Hh Hbl; set_solver). by rewrite !fupd_ne.
    + assert (v ≠ z ∧ v ≠ b) as [??] by (clear -Hv Hz Hbl Hb Hh; set_solver). by rewrite !fupd_ne.
Qed.

End Linked.

Definition nx (bs : list buf) (b : nat) : nat := match bs !! b with Some x => b_next x | None => bhead end.
Definition pv (bs : list buf) (b : nat) : nat := match bs !! b with Some x => b_prev x | None => bhead end.

(** The cache holds each buffer exactly once in its list, most recently used first. *)
Record ring (l : list nat) (bs : list buf) : Prop := {
  ring_len : length bs = S NBUF;
  ring_perm : l ≡ₚ seq 0 NBUF;
  ring_linked : linked (nx bs) (pv bs) bhead l bhead;
}.
