(* ===== verification/BioLaw.v ===== *)
(** The buffer cache as a view of the disk: what [bread], [bwrite] and [brelse]
    do, for code that runs alone over the disk in memory, to the contents of
    blocks, the set of blocks pinned in the cache and the buffers in use. *)
From S2P Require Import Prelude Mem KState Spinlock Sched Sleeplock Bio.

(** Contents of a disk, block by block. *)
Abbreviation disk := (Z → list Z).
Definition dupd (n : Z) (v : list Z) (D : disk) : disk := λ m, if decide (m = n) then v else D m.

(** A disk after a history of writes, latest first. *)
Definition play (D : disk) (h : list (Z * list Z)) : disk := foldr (λ w D, dupd w.1 w.2 D) D h.

Lemma dupd_eq n v D : dupd n v D n = v.
Proof. unfold dupd. by rewrite decide_True. Qed.
Lemma dupd_ne n v D m : m ≠ n → dupd n v D m = D m.
Proof. intros. unfold dupd. by rewrite decide_False. Qed.
Lemma play_app D h1 h2 : play D (h1 ++ h2) = play (play D h2) h1.
Proof. apply foldr_app. Qed.

Arguments dupd : simpl never.

(** * The invariant of the cache

    [D] is the disk, [C] the current contents of every block, [P] the blocks
    whose buffer is dirty (pinned until the log writes them), [H] the blocks in
    use with their buffers; [bs] are the buffers and [lk] their sleep locks. *)
Record buf_ok (C : disk) (P : gset Z) (H : gmap Z nat) (b : nat) (x : buf) (lk : Z) : Prop := {
  bo_block : b_dev x = 1 → b_data x = C (b_blockno x) ∧
    b_flags x = (if decide (b_blockno x ∈ P) then Z.lor B_VALID B_DIRTY else B_VALID);
  bo_other : b_dev x ≠ 1 → b_flags x = 0;
  bo_use : (b_refcnt x, lk) =
    if decide (b_dev x = 1 ∧ H !! b_blockno x = Some b) then (1, 1) else (0, 0);
}.

Record cache (D C : disk) (P : gset Z) (H : gmap Z nat) (bs : list buf) (lk : nat → Z) : Prop := {
  ca_ring : ∃ l, ring l bs;
  ca_buf b x : (b < NBUF)%nat → bs !! b = Some x → buf_ok C P H b x (lk b);
  ca_uniq b c x y : (b < NBUF)%nat → (c < NBUF)%nat → bs !! b = Some x → bs !! c = Some y →
    b_dev x = 1 → b_dev y = 1 → b_blockno x = b_blockno y → b = c;
  ca_pinned n : n ∈ P → ∃ b x, (b < NBUF)%nat ∧ bs !! b = Some x ∧ b_dev x = 1 ∧ b_blockno x = n;
  ca_held n b : H !! n = Some b →
    (b < NBUF)%nat ∧ ∃ x, bs !! b = Some x ∧ b_dev x = 1 ∧ b_blockno x = n;
  ca_clean n : n ∉ P → H !! n = None → C n = D n;
}.

(** ** Changes to one buffer *)
Section Cache.
Implicit Types (D C : disk) (P : gset Z) (H : gmap Z nat) (bs : list buf) (lk : nat → Z).

#[local] Instance buf_inhabited : Inhabited buf := populate buf0.

Definition zupd (k : nat) (v : Z) (f : nat → Z) : nat → Z := λ z, if decide (z = k) then v else f z.

(** Everything of a buffer but its place in the list. *)
Definition strip (x : buf) : buf := set_b_prev 0 (set_b_next 0 x).

Lemma strip_inv x y : strip x = strip y →
  b_flags x = b_flags y ∧ b_dev x = b_dev y ∧ b_blockno x = b_blockno y ∧ b_refcnt x = b_refcnt y ∧
  b_data x = b_data y.
Proof.
  intros E. pose proof (f_equal b_flags E). pose proof (f_equal b_dev E).
  pose proof (f_equal b_blockno E). pose proof (f_equal b_refcnt E). by pose proof (f_equal b_data E).
Qed.

Lemma linked_same nx1 pv1 nx2 pv2 x l y :
  (∀ z, nx2 z = nx1 z) → (∀ z, pv2 z = pv1 z) → linked nx1 pv1 x l y → linked nx2 pv2 x l y.
Proof. intros H1 H2 H. by apply (linked_ext nx1 pv1). Qed.

Lemma ring_insert l bs b x y :
  ring l bs → bs !! b = Some x → b_next y = b_next x → b_prev y = b_prev x → ring l (<[b := y]> bs).
Proof.
  intros [A B C] Hb Hn Hp. split; [by rewrite length_insert|done|].
  eapply linked_same; [..|exact C]; intros z; unfold nx, pv;
    (destruct (decide (z = b)) as [->|]; [rewrite list_lookup_insert_eq, Hb by (by eapply lookup_lt_Some); done|
     by rewrite list_lookup_insert_ne]).
Qed.

(** One buffer changes, and the ghost state with it. *)
Lemma cache_insert D C P H D' C' P' H' bs lk lk' b x y :
  cache D C P H bs lk → (b < NBUF)%nat → bs !! b = Some x → b_next y = b_next x → b_prev y = b_prev x →
  buf_ok C' P' H' b y (lk' b) →
  (∀ c z, c ≠ b → (c < NBUF)%nat → bs !! c = Some z → buf_ok C P H c z (lk c) →
     (b_dev y = 1 → b_dev z = 1 → b_blockno z ≠ b_blockno y) ∧ buf_ok C' P' H' c z (lk' c)) →
  (∀ n, n ∈ P' → (b_dev y = 1 ∧ b_blockno y = n) ∨
     (n ∈ P ∧ ¬ (b_dev x = 1 ∧ b_blockno x = n))) →
  (∀ n c, H' !! n = Some c → (c = b ∧ b_dev y = 1 ∧ b_blockno y = n) ∨ (c ≠ b ∧ H !! n = Some c)) →
  (∀ n, n ∉ P' → H' !! n = None → C' n = D' n) →
  cache D' C' P' H' (<[b := y]> bs) lk'.
Proof.
  intros [(l & Hr) B U Pi He Cl] Hlt Hb Hnx Hpv Hok Hothers HP HH HC.
  pose proof (lookup_lt_Some _ _ _ Hb) as Hlen. split.
  - exists l. by eapply ring_insert.
  - intros c z Hc. destruct (decide (c = b)) as [->|Hne].
    + rewrite list_lookup_insert_eq by done. by intros [= <-].
    + rewrite list_lookup_insert_ne by done. intros Hz. by apply (Hothers c z); auto.
  - intros c d z w Hc Hd. destruct (decide (c = b)) as [->|Hcb], (decide (d = b)) as [->|Hdb]; [done|..].
    + rewrite list_lookup_insert_eq, list_lookup_insert_ne by done. intros [= <-] Hw H1 H2 E.
      destruct (Hothers d w) as [Ho _]; auto. by destruct (Ho H1 H2).
    + rewrite list_lookup_insert_eq, list_lookup_insert_ne by done. intros Hz [= <-] H1 H2 E.
      destruct (Hothers c z) as [Ho _]; auto. by destruct (Ho H2 H1).
    + rewrite !list_lookup_insert_ne by done. by apply U.
  - intros n Hn. destruct (HP n Hn) as [[E1 E2]|[Hn' Hx]].
    + exists b, y. by rewrite list_lookup_insert_eq.
    + destruct (Pi n Hn') as (c & z & Hc & Hz & E1 & E2). exists c, z.
      rewrite list_lookup_insert_ne; [done|]. intros <-. naive_solver.
  - intros n c Hn. destruct (HH n c Hn) as [(-> & E1 & E2)|[Hc Hn']].
    + split; [done|]. exists y. by rewrite list_lookup_insert_eq.
    + destruct (He n c Hn') as (Hl & z & Hz & E). split; [done|]. exists z.
      by rewrite list_lookup_insert_ne.
  - done.
Qed.

Lemma zupd_eq k v f : zupd k v f k = v.
Proof. unfold zupd. by rewrite decide_True. Qed.
Lemma zupd_ne k v f z : z ≠ k → zupd k v f z = f z.
Proof. intros. unfold zupd. by rewrite decide_False. Qed.

(** The buffer of a block that is cached. *)
Lemma cache_find D C P H bs lk b x n :
  cache D C P H bs lk → (b < NBUF)%nat → bs !! b = Some x → b_dev x = 1 → b_blockno x = n →
  b_data x = C n ∧ b_flags x = (if decide (n ∈ P) then Z.lor B_VALID B_DIRTY else B_VALID) ∧
  (H !! n = None → b_refcnt x = 0 ∧ lk b = 0) ∧ (H !! n = Some b → b_refcnt x = 1 ∧ lk b = 1).
Proof.
  intros Hca Hlt Hb Hd <-. destruct (ca_buf _ _ _ _ _ _ Hca b x Hlt Hb) as [A B U].
  destruct (A Hd) as [A1 A2]. split; [done|]. split; [done|]. split; intros Hn.
  - rewrite decide_False in U by naive_solver. by injection U.
  - rewrite decide_True in U by done. by injection U.
Qed.

(** A block already in the cache is taken. *)
Lemma cache_hit D C P H bs lk b x n :
  cache D C P H bs lk → (b < NBUF)%nat → bs !! b = Some x → b_dev x = 1 → b_blockno x = n →
  H !! n = None → cache D C P (<[n := b]> H) (<[b := set_b_refcnt 1 x]> bs) (zupd b 1 lk).
Proof.
  intros Hca Hlt Hb Hd Hn Hh. subst n.
  destruct (cache_find _ _ _ _ _ _ _ _ _ Hca Hlt Hb Hd eq_refl) as (F1 & F2 & _ & _).
  eapply cache_insert; [done..| | | | |].
  - split; cbn; [done|done|]. rewrite decide_True by (by rewrite lookup_insert_eq). by rewrite zupd_eq.
  - intros c z Hne Hc Hz [A B U]. cbn.
    assert (b_dev z = 1 → b_blockno z ≠ b_blockno x) as Hu.
    { intros H1 E. apply Hne. by eapply (ca_uniq _ _ _ _ _ _ Hca c b z x). }
    split; [auto|]. split; [done..|]. rewrite zupd_ne, U by done.
    destruct (decide (b_dev z = 1)) as [H1|H1].
    + by rewrite lookup_insert_ne by (intros E; by apply (Hu H1)).
    + rewrite !decide_False by naive_solver. done.
  - cbn. intros n Hn. destruct (decide (b_blockno x = n)); [by left|right; naive_solver].
  - cbn. intros n c. destruct (decide (n = b_blockno x)) as [->|].
    + rewrite lookup_insert_eq. intros [= <-]. by left.
    + rewrite lookup_insert_ne by done. intros Hc. right. split; [|done]. intros ->.
      destruct (ca_held _ _ _ _ _ _ Hca _ _ Hc) as (_ & x' & Hx' & _ & E). simplify_eq.
  - intros n Hn HnH. apply (ca_clean _ _ _ _ _ _ Hca); [done|].
    by destruct (decide (n = b_blockno x)) as [->|]; simplify_map_eq.
Qed.

(** A clean buffer nobody uses holds no pinned block and no block in use. *)
Lemma cache_clean_buf D C P H bs lk b x :
  cache D C P H bs lk → (b < NBUF)%nat → bs !! b = Some x → is_clean x = true →
  lk b = 0 ∧ (b_dev x = 1 → b_blockno x ∉ P) ∧ (∀ n, H !! n ≠ Some b).
Proof.
  intros Hca Hlt Hb Hcl. apply andb_true_iff in Hcl as [Hr%Z.eqb_eq Hf%Z.eqb_eq].
  destruct (ca_buf _ _ _ _ _ _ Hca b x Hlt Hb) as [A B U].
  destruct (decide (b_dev x = 1 ∧ H !! b_blockno x = Some b)) as [Hy|Hno]; [injection U; lia|].
  injection U as _ Hlk. split; [done|]. split.
  - intros Hd Hin. destruct (A Hd) as [_ Hfl]. rewrite decide_True in Hfl by done.
    rewrite Hfl in Hf. done.
  - intros n Hn. destruct (ca_held _ _ _ _ _ _ Hca _ _ Hn) as (_ & x' & Hx' & E1 & E2). naive_solver.
Qed.

Lemma cache_absent D C P H bs lk n :
  cache D C P H bs lk →
  (∀ c z, (c < NBUF)%nat → bs !! c = Some z → b_dev z = 1 → b_blockno z ≠ n) →
  (n ∉ P) ∧ H !! n = None ∧ C n = D n.
Proof.
  intros Hca Hno.
  assert (n ∉ P) as HP.
  { intros Hn. destruct (ca_pinned _ _ _ _ _ _ Hca n Hn) as (b & x & Hb & Hx & E1 & E2). by eapply Hno. }
  assert (H !! n = None) as HH.
  { destruct (H !! n) as [b|] eqn:E; [|done].
    destruct (ca_held _ _ _ _ _ _ Hca n b E) as (Hb & x & Hx & E1 & E2). by destruct (Hno b x). }
  split; [done|]. split; [done|]. by apply (ca_clean _ _ _ _ _ _ Hca).
Qed.

(** A block that is not cached is read into a clean buffer. *)
Lemma cache_fill D C P H bs lk b x n :
  cache D C P H bs lk → (b < NBUF)%nat → bs !! b = Some x → is_clean x = true →
  (∀ c z, (c < NBUF)%nat → bs !! c = Some z → b_dev z = 1 → b_blockno z ≠ n) →
  cache D C P (<[n := b]> H)
    (<[b := mkBuf B_VALID 1 n 1 (b_prev x) (b_next x) (b_qnext x) (D n)]> bs) (zupd b 1 lk).
Proof.
  intros Hca Hlt Hb Hcl Hno. destruct (cache_clean_buf _ _ _ _ _ _ _ _ Hca Hlt Hb Hcl) as (Hlk & HbP & HbH).
  destruct (cache_absent _ _ _ _ _ _ _ Hca Hno) as (HnP & HnH & HC).
  eapply cache_insert; [done..| | | | |]; cbn.
  - split; cbn; [|done|].
    + intros _. by rewrite decide_False.
    + rewrite decide_True by (by rewrite lookup_insert_eq). by rewrite zupd_eq.
  - intros c z Hne Hc Hz [A B U]. split; [by intros _ ?; eapply Hno|]. split; [done..|].
    rewrite zupd_ne, U by done. destruct (decide (b_dev z = 1)) as [H1|H1].
    + by rewrite lookup_insert_ne by (intros E; by apply (Hno c z)).
    + rewrite !decide_False by naive_solver. done.
  - intros m Hm. right. split; [done|]. intros [H1 <-]. by apply HbP.
  - intros m c. destruct (decide (m = n)) as [->|].
    + rewrite lookup_insert_eq. intros [= <-]. by left.
    + rewrite lookup_insert_ne by done. intros Hc. right. split; [|done]. intros ->. by apply (HbH m).
  - intros m Hm HmH. apply (ca_clean _ _ _ _ _ _ Hca); [done|].
    by destruct (decide (m = n)) as [->|]; simplify_map_eq.
Qed.

(** What the holder of a block may do to its buffer: store into the data, write
    it to the disk, or pin it. *)
Lemma cache_update D C P H bs lk D' C' P' b x y n :
  cache D C P H bs lk → H !! n = Some b → bs !! b = Some x →
  b_dev y = b_dev x → b_blockno y = b_blockno x → b_refcnt y = b_refcnt x →
  b_next y = b_next x → b_prev y = b_prev x →
  b_data y = C' n → b_flags y = (if decide (n ∈ P') then Z.lor B_VALID B_DIRTY else B_VALID) →
  (∀ m, m ≠ n → C' m = C m ∧ D' m = D m ∧ (m ∈ P' ↔ m ∈ P)) →
  cache D' C' P' H (<[b := y]> bs) lk.
Proof.
  intros Hca Hn Hb Hdev Hbn Hrc Hnx Hpv Hd Hf Ho.
  destruct (ca_held _ _ _ _ _ _ Hca n b Hn) as (Hlt & x' & Hx' & E1 & E2). simplify_eq.
  destruct (cache_find _ _ _ _ _ _ _ _ _ Hca Hlt Hb E1 eq_refl) as (_ & _ & _ & F). destruct (F Hn) as [Fr Fl].
  assert (Hu : ∀ c z, c ≠ b → (c < NBUF)%nat → bs !! c = Some z → b_dev z = 1 → b_blockno z ≠ b_blockno x).
  { intros c z Hne Hc Hz H1 E. apply Hne. by eapply (ca_uniq _ _ _ _ _ _ Hca c b z x). }
  eapply cache_insert; [done..| | | | |].
  - split; rewrite ?Hdev, ?Hbn, ?Hrc; [done|done|]. by rewrite decide_True, Fr, Fl.
  - rewrite Hdev, Hbn. intros c z Hne Hc Hz [A B U]. split; [by intros _ H1; eapply Hu|].
    split; [|done|done]. intros H1. destruct (A H1) as [A1 A2].
    destruct (Ho (b_blockno z)) as (-> & _ & HP); [by eapply Hu|]. split; [done|]. rewrite A2.
    destruct (decide (b_blockno z ∈ P)), (decide (b_blockno z ∈ P')); naive_solver.
  - rewrite Hdev, Hbn. intros m Hm. destruct (decide (m = b_blockno x)) as [->|Hne]; [by left|].
    right. split; [by apply Ho|]. naive_solver.
  - rewrite Hdev, Hbn. intros m c Hm. destruct (decide (c = b)) as [->|]; [left|by right].
    destruct (ca_held _ _ _ _ _ _ Hca m b Hm) as (_ & x' & Hx' & E3 & E4). by simplify_eq.
  - intros m Hm HmH. destruct (Ho m) as (-> & -> & HP); [naive_solver|].
    apply (ca_clean _ _ _ _ _ _ Hca); naive_solver.
Qed.

(** A block is given back: what it holds is on the disk, or it is pinned. *)
Lemma cache_put D C P H bs lk b x n :
  cache D C P H bs lk → H !! n = Some b → bs !! b = Some x → n ∈ P ∨ C n = D n →
  cache D C P (delete n H) (<[b := set_b_refcnt 0 x]> bs) (zupd b 0 lk).
Proof.
  intros Hca Hn Hb HC.
  destruct (ca_held _ _ _ _ _ _ Hca n b Hn) as (Hlt & x' & Hx' & E1 & E2). simplify_eq.
  destruct (ca_buf _ _ _ _ _ _ Hca b x Hlt Hb) as [A0 B0 U0].
  eapply cache_insert; [done..| | | | |]; cbn.
  - split; cbn; [done|done|]. rewrite decide_False by (by rewrite lookup_delete_eq; intros []).
    by rewrite zupd_eq.
  - intros c z Hne Hc Hz [A B U].
    assert (b_dev z = 1 → b_blockno z ≠ b_blockno x) as Hu.
    { intros H1 E. apply Hne. by eapply (ca_uniq _ _ _ _ _ _ Hca c b z x). }
    split; [auto|]. split; [done..|]. rewrite zupd_ne, U by done.
    destruct (decide (b_dev z = 1)) as [H1|H1].
    + by rewrite lookup_delete_ne by (intros E; by apply (Hu H1)).
    + rewrite !decide_False by naive_solver. done.
  - intros m Hm. destruct (decide (b_blockno x = m)); [by left|right; naive_solver].
  - intros m c Hm. apply lookup_delete_Some in Hm as [Hm1 Hm2]. right. split; [|done]. intros ->.
    destruct (ca_held _ _ _ _ _ _ Hca _ _ Hm2) as (_ & x' & Hx' & _ & E). simplify_eq.
  - intros m Hm HmH. apply lookup_delete_None in HmH as [<-|HmH]; [naive_solver|].
    by apply (ca_clean _ _ _ _ _ _ Hca).
Qed.

(** While fewer blocks than buffers are pinned or in use, some buffer is free. *)
Lemma cache_free D C P H bs lk :
  cache D C P H bs lk → (size (P ∪ dom H) < NBUF)%nat →
  ∃ b x, (b < NBUF)%nat ∧ bs !! b = Some x ∧ is_clean x = true.
Proof.
  intros Hca Hsz. destruct (ca_ring _ _ _ _ _ _ Hca) as [l [Hlen _ _]].
  destruct (decide (Exists (λ b, is_clean (bs !!! b) = true) (seq 0 NBUF))) as [He|Hne].
  { apply Exists_exists in He as (b & [_ Hb]%elem_of_seq & Hc).
    destruct (lookup_lt_is_Some_2 bs b) as [x Hx]; [lia|].
    exists b, x. by rewrite (list_lookup_total_correct _ _ _ Hx) in Hc. }
  exfalso. apply not_Exists_Forall in Hne; [|intros; apply _].
  assert (Hall : ∀ b x, (b < NBUF)%nat → bs !! b = Some x → b_dev x = 1 ∧ b_blockno x ∈ P ∪ dom H).
  { intros b x Hb Hx. pose proof (proj1 (Forall_forall _ _) Hne b) as Hc. unfold compose in Hc.
    rewrite (list_lookup_total_correct _ _ _ Hx) in Hc. specialize (Hc ltac:(apply elem_of_seq; lia)).
    destruct (ca_buf _ _ _ _ _ _ Hca b x Hb Hx) as [A B U].
    destruct (decide (b_dev x = 1 ∧ H !! b_blockno x = Some b)) as [[E1 E2]|E].
    { split; [done|]. apply elem_of_union_r. by apply elem_of_dom. }
    injection U as Hr _. unfold is_clean in Hc. rewrite Hr in Hc. cbn in Hc.
    destruct (decide (b_dev x = 1)) as [E1|E1]; [|by rewrite (B E1) in Hc].
    split; [done|]. destruct (A E1) as [_ Hf]. rewrite Hf in Hc.
    destruct (decide (b_blockno x ∈ P)); [by apply elem_of_union_l|done]. }
  assert (NoDup ((λ b, b_blockno (bs !!! b)) <$> seq 0 NBUF)) as Hnd.
  { apply NoDup_fmap_2_strong; [|apply NoDup_seq]. intros b c [_ Hb]%elem_of_seq [_ Hc]%elem_of_seq E.
    destruct (lookup_lt_is_Some_2 bs b) as [x Hx]; [lia|]. destruct (lookup_lt_is_Some_2 bs c) as [y Hy]; [lia|].
    rewrite (list_lookup_total_correct _ _ _ Hx), (list_lookup_total_correct _ _ _ Hy) in E.
    destruct (Hall b x) as [E1 _]; [lia|done|]. destruct (Hall c y) as [E2 _]; [lia|done|].
    by eapply (ca_uniq _ _ _ _ _ _ Hca b c x y); eauto; lia. }
  assert (list_to_set ((λ b, b_blockno (bs !!! b)) <$> seq 0 NBUF) ⊆ P ∪ dom H) as Hsub.
  { intros n Hn. apply elem_of_list_to_set, list_elem_of_fmap in Hn as (b & -> & [_ Hb]%elem_of_seq).
    destruct (lookup_lt_is_Some_2 bs b) as [x Hx]; [lia|]. rewrite (list_lookup_total_correct _ _ _ Hx).
    by eapply Hall. }
  apply subseteq_size in Hsub. rewrite size_list_to_set in Hsub by done.
  rewrite length_fmap, length_seq in Hsub. lia.
Qed.

(** The invariant does not depend on the order of the list. *)
Lemma cache_links D C P H bs bs' lk lk' :
  cache D C P H bs lk → (∃ l, ring l bs') → (∀ b, strip <$> bs' !! b = strip <$> bs !! b) →
  (∀ b, (b < NBUF)%nat → lk' b = lk b) → cache D C P H bs' lk'.
Proof.
  intros [R B U Pi He Cl] Hr Hs Hl.
  assert (Hb : ∀ b x, bs' !! b = Some x → ∃ y, bs !! b = Some y ∧ strip x = strip y).
  { intros b x Hx. specialize (Hs b). rewrite Hx in Hs. destruct (bs !! b) as [y|]; [|done].
    exists y. split; [done|]. by apply (inj Some) in Hs. }
  assert (Hb' : ∀ b x, bs !! b = Some x → ∃ y, bs' !! b = Some y ∧ strip y = strip x).
  { intros b x Hx. specialize (Hs b). rewrite Hx in Hs. destruct (bs' !! b) as [y|]; [|done].
    exists y. split; [done|]. by apply (inj Some) in Hs. }
  split; [done|..|done].
  - intros b x Hlt Hx. destruct (Hb b x Hx) as (y & Hy & (E1 & E2 & E3 & E4 & E5)%strip_inv).
    destruct (B b y Hlt Hy) as [A1 A2 A3].
    split; rewrite ?E1, ?E2, ?E3, ?E4, ?E5, ?Hl by done; done.
  - intros b c x y Hlb Hlc Hx Hy. destruct (Hb b x Hx) as (x' & Hx' & (E1 & E2 & E3 & E4 & E5)%strip_inv).
    destruct (Hb c y Hy) as (y' & Hy' & (F1 & F2 & F3 & F4 & F5)%strip_inv). rewrite E2, E3, F2, F3. by apply U.
  - intros n Hn. destruct (Pi n Hn) as (b & x & Hlt & Hx & E1 & E2).
    destruct (Hb' b x Hx) as (y & Hy & (F1 & F2 & F3 & F4 & F5)%strip_inv). exists b, y. by rewrite F2, F3.
  - intros n b Hn. destruct (He n b Hn) as (Hlt & x & Hx & E1 & E2). split; [done|].
    destruct (Hb' b x Hx) as (y & Hy & (F1 & F2 & F3 & F4 & F5)%strip_inv). exists y. by rewrite F2, F3.
Qed.
End Cache.

(** ** Moving buffers in the list *)

Lemma nx_alter_next v b bs z : (b < length bs)%nat → nx (alter (set_b_next v) b bs) z = fupd b v (nx bs) z.
Proof.
  intros Hb. unfold nx, fupd. destruct (decide (z = b)) as [->|].
  - rewrite list_lookup_alter_eq. by destruct (lookup_lt_is_Some_2 bs b Hb) as [x ->].
  - by rewrite list_lookup_alter_ne.
Qed.
Lemma pv_alter_prev v b bs z : (b < length bs)%nat → pv (alter (set_b_prev v) b bs) z = fupd b v (pv bs) z.
Proof.
  intros Hb. unfold pv, fupd. destruct (decide (z = b)) as [->|].
  - rewrite list_lookup_alter_eq. by destruct (lookup_lt_is_Some_2 bs b Hb) as [x ->].
  - by rewrite list_lookup_alter_ne.
Qed.
Lemma nx_alter_prev v b bs z : nx (alter (set_b_prev v) b bs) z = nx bs z.
Proof.
  unfold nx. destruct (decide (z = b)) as [->|]; [|by rewrite list_lookup_alter_ne].
  rewrite list_lookup_alter_eq. by destruct (bs !! b).
Qed.
Lemma pv_alter_next v b bs z : pv (alter (set_b_next v) b bs) z = pv bs z.
Proof.
  unfold pv. destruct (decide (z = b)) as [->|]; [|by rewrite list_lookup_alter_ne].
  rewrite list_lookup_alter_eq. by destruct (bs !! b).
Qed.
Lemma strip_alter f (b : nat) (bs : list buf) (z : nat) : (∀ x, strip (f x) = strip x) → strip <$> alter f b bs !! z = strip <$> bs !! z.
Proof.
  intros Hf. destruct (decide (z = b)) as [->|]; [|by rewrite list_lookup_alter_ne].
  rewrite list_lookup_alter_eq. destruct (bs !! b); [|done]. cbn. by rewrite Hf.
Qed.

(** The assignments that take a buffer out of the list, and those that put one
    at its front. *)
Definition unlink (b : nat) (bs : list buf) : list buf :=
  let bs1 := alter (set_b_prev (pv bs b)) (nx bs b) bs in
  alter (set_b_next (nx bs1 b)) (pv bs1 b) bs1.
Definition push (b : nat) (bs : list buf) : list buf :=
  let bs2 := alter (set_b_prev bhead) b (alter (set_b_next (nx bs bhead)) b bs) in
  alter (set_b_next b) bhead (alter (set_b_prev b) (nx bs2 bhead) bs2).

Lemma length_unlink b bs : length (unlink b bs) = length bs.
Proof. unfold unlink. by rewrite !length_alter. Qed.
Lemma length_push b bs : length (push b bs) = length bs.
Proof. unfold push. by rewrite !length_alter. Qed.
Lemma strip_unlink b bs z : strip <$> unlink b bs !! z = strip <$> bs !! z.
Proof. unfold unlink. by rewrite !strip_alter. Qed.
Lemma strip_push b bs z : strip <$> push b bs !! z = strip <$> bs !! z.
Proof. unfold push. by rewrite !strip_alter. Qed.

Lemma unlink_linked l1 b l2 bs :
  length bs = S NBUF → linked (nx bs) (pv bs) bhead (l1 ++ b :: l2) bhead →
  NoDup (l1 ++ b :: l2) → Forall (λ c, c < NBUF)%nat (l1 ++ b :: l2) →
  linked (nx (unlink b bs)) (pv (unlink b bs)) bhead (l1 ++ l2) bhead.
Proof.
  intros Hlen Hl Hnd Hlt. assert (bhead ∉ l1 ++ b :: l2) as Hh.
  { intros Hin. rewrite Forall_forall in Hlt. specialize (Hlt _ Hin). unfold bhead in Hlt. lia. }
  pose proof (linked_around _ _ _ _ _ _ _ Hl) as [Hp Hn].
  assert (Hin : ∀ c, c ∈ bhead :: l1 ++ b :: l2 → (c < length bs)%nat).
  { intros c Hc. rewrite Hlen. apply elem_of_cons in Hc as [->|Hc]; [unfold bhead; lia|].
    rewrite Forall_forall in Hlt. specialize (Hlt _ Hc). lia. }
  assert (nx bs b < length bs)%nat as Hn' by (apply Hin; set_solver).
  assert (pv bs b < length bs)%nat as Hp' by (apply Hin; set_solver).
  assert (b ≠ nx bs b) as Hne.
  { intros E. rewrite <- E in Hn. apply NoDup_app in Hnd as (_ & _ & [Hb _]%NoDup_cons).
    apply elem_of_app in Hn as [Hn| ->%list_elem_of_singleton]; [done|]. set_solver. }
  unfold unlink. rewrite nx_alter_prev.
  rewrite (pv_alter_prev (pv bs b) (nx bs b) bs b), (fupd_ne (nx bs b)) by done.
  eapply linked_same; [..|by apply linked_cut; [exact Hl|..]].
  - intros z. rewrite nx_alter_next by (by rewrite length_alter). apply fupd_ext, nx_alter_prev.
  - intros z. rewrite pv_alter_next. by apply pv_alter_prev.
Qed.

Lemma push_linked b l bs :
  length bs = S NBUF → linked (nx bs) (pv bs) bhead l bhead → (b < NBUF)%nat → b ∉ l → NoDup l →
  Forall (λ c, c < NBUF)%nat l → linked (nx (push b bs)) (pv (push b bs)) bhead (b :: l) bhead.
Proof.
  intros Hlen Hl Hb Hbl Hnd Hlt. assert (bhead ∉ l) as Hh.
  { intros Hin. rewrite Forall_forall in Hlt. specialize (Hlt _ Hin). unfold bhead in Hlt. lia. }
  assert (nx bs bhead < length bs)%nat as Hn'.
  { destruct (linked_first _ _ _ _ _ Hl) as (z & -> & Hz & _). rewrite Hlen.
    apply elem_of_app in Hz as [Hz| ->%list_elem_of_singleton]; [|unfold bhead; lia].
    rewrite Forall_forall in Hlt. specialize (Hlt _ Hz). lia. }
  assert (b < length bs)%nat by lia. assert (b ≠ bhead) by (unfold bhead; lia).
  unfold push. rewrite nx_alter_prev, (nx_alter_next _ b bs bhead), (fupd_ne b) by done.
  eapply linked_same; [..|by apply (linked_push (nx bs) (pv bs) b bhead l)].
  - intros z. rewrite nx_alter_next by (rewrite !length_alter, Hlen; unfold bhead; lia).
    apply fupd_ext. intros y. rewrite !nx_alter_prev. by apply nx_alter_next.
  - intros z. rewrite pv_alter_next, pv_alter_prev by (by rewrite !length_alter).
    apply fupd_ext. intros y. rewrite pv_alter_prev by (by rewrite length_alter).
    apply fupd_ext, pv_alter_next.
Qed.

(** A buffer given back becomes the most recently used. *)
Lemma to_front_ring l bs b :
  ring l bs → (b < NBUF)%nat → ∃ l1 l2, l = l1 ++ b :: l2 ∧ ring (b :: l1 ++ l2) (push b (unlink b bs)).
Proof.
  intros Hr Hb. pose proof Hr as [Hlen Hp Hl].
  destruct (list_elem_of_split l b) as (l1 & l2 & ->); [rewrite Hp; apply elem_of_seq; lia|].
  exists l1, l2. split; [done|].
  assert (NoDup (l1 ++ b :: l2)) as Hnd by (rewrite Hp; apply NoDup_seq).
  assert (Forall (λ c, c < NBUF)%nat (l1 ++ b :: l2)) as Hlt by (rewrite Hp; apply Forall_seq; lia).
  assert (NoDup (b :: l1 ++ l2)) as [Hb' Hnd']%NoDup_cons by (by rewrite Permutation_middle).
  assert (Forall (λ c, c < NBUF)%nat (b :: l1 ++ l2)) as [_ Hlt']%Forall_cons by (by rewrite Permutation_middle).
  split; [by rewrite length_push, length_unlink|by rewrite Permutation_middle|].
  apply push_linked; [by rewrite length_unlink| |done..]. by apply unlink_linked.
Qed.

(** What [binit] makes of the buffers. *)
Definition binit_bufs (n : nat) (bs : list buf) : list buf :=
  foldl (λ bs b, push b bs) (alter (set_b_next bhead) bhead (alter (set_b_prev bhead) bhead bs)) (seq 0 n).

Lemma binit_bufs_S n bs : binit_bufs (S n) bs = push n (binit_bufs n bs).
Proof. unfold binit_bufs. by rewrite seq_S, foldl_app. Qed.

Lemma binit_bufs_ok n bs :
  length bs = S NBUF → (n ≤ NBUF)%nat →
  length (binit_bufs n bs) = S NBUF ∧ (∀ z, strip <$> binit_bufs n bs !! z = strip <$> bs !! z) ∧
  linked (nx (binit_bufs n bs)) (pv (binit_bufs n bs)) bhead (reverse (seq 0 n)) bhead.
Proof.
  intros Hlen. induction n as [|n IH]; intros Hn.
  - cbn. rewrite !length_alter. split; [done|]. split; [intros z; by rewrite !strip_alter|].
    rewrite nx_alter_next by (rewrite length_alter, Hlen; unfold bhead; lia).
    rewrite pv_alter_next, pv_alter_prev by (rewrite Hlen; unfold bhead; lia). by rewrite !fupd_eq.
  - destruct IH as (H1 & H2 & H3); [lia|]. rewrite binit_bufs_S, length_push.
    split; [done|]. split; [intros z; by rewrite strip_push|].
    rewrite seq_S, reverse_app. apply push_linked; [done|done|lia| | |].
    + rewrite elem_of_reverse, elem_of_seq. lia.
    + rewrite reverse_Permutation. apply NoDup_seq.
    + apply Forall_reverse, Forall_seq. lia.
Qed.

Lemma binit_ring bs : length bs = S NBUF → ring (reverse (seq 0 NBUF)) (binit_bufs NBUF bs).
Proof.
  intros Hlen. destruct (binit_bufs_ok NBUF bs Hlen) as (H1 & _ & H3); [lia|].
  split; [done|by rewrite reverse_Permutation|done].
Qed.

(** An empty cache shows the disk. *)
Lemma cache_empty D bs lk l :
  ring l bs → (∀ b x, (b < NBUF)%nat → bs !! b = Some x → b_dev x ≠ 1 ∧ b_flags x = 0 ∧ b_refcnt x = 0) →
  (∀ b, (b < NBUF)%nat → lk b = 0) → cache D D ∅ ∅ bs lk.
Proof.
  intros Hr Hb Hl. split; [by exists l|..]; try set_solver.
  - intros b x Hlt Hx. destruct (Hb b x Hlt Hx) as (E1 & E2 & E3). split; [done|done|].
    rewrite decide_False by naive_solver. by rewrite E3, Hl.
Qed.

(** * The operations *)

(** The locks of the file system. *)
Definition fslocks : list lockid :=
  [L_bcache; L_log; L_icache] ++ (L_sleeplock <$> seq 0 (S NBUF + NINODE)).

Arguments fslocks : simpl never.
Arguments Memide.disk_block : simpl never.

Lemma fslocks_sleep k : (k < S NBUF + NINODE)%nat → L_sleeplock k ∈ fslocks.
Proof.
  intros Hk. unfold fslocks. apply elem_of_app. right. apply list_elem_of_fmap_2. by apply elem_of_seq; lia.
Qed.
Lemma fslocks_bcache : L_bcache ∈ L_ptable :: fslocks.
Proof. set_solver. Qed.

Section Laws.
Context {W : Type}.
Implicit Types (s : kst W) (C : disk) (P : gset Z) (H : gmap Z nat).

Definition bufs (s : kst W) : list buf := fs_bufs (k_fs s).
Definition with_bufs (bs : list buf) (s : kst W) : kst W := set_k_fs (set_fs_bufs bs (k_fs s)) s.

(** What the cache never touches. *)
Definition rest (s : kst W) := (core s, fs_log (k_fs s), fs_sb (k_fs s), fs_inodes (k_fs s)).
Definition keeps (s s' : kst W) : Prop :=
  rest s' = rest s ∧ ∀ k, (NBUF < k)%nat → slock k s' = slock k s.

#[export] Instance keeps_refl : Reflexive keeps.
Proof. by split. Qed.
#[export] Instance keeps_trans : Transitive keeps.
Proof. intros s1 s2 s3 [A B] [A' B']. split; [congruence|]. intros k Hk. rewrite B', B; done. Qed.

Lemma get_buf_eq b x s : bufs s !! b = Some x → get_buf b s = Done x s.
Proof. intros Hb. unfold get_buf. mstep. unfold bufs in Hb. by rewrite Hb. Qed.

Lemma list_alter_at {A} (f : A → A) (l : list A) k x : l !! k = Some x → alter f k l = <[k := f x]> l.
Proof.
  intros Hk. apply list_eq. intros j. destruct (decide (j = k)) as [->|].
  - rewrite list_lookup_alter_eq, list_lookup_insert_eq by (by eapply lookup_lt_Some). by rewrite Hk.
  - by rewrite list_lookup_alter_ne, list_lookup_insert_ne.
Qed.

Lemma set_buf_eq b f x s :
  bufs s !! b = Some x → set_buf b f s = Done tt (with_bufs (<[b := f x]> (bufs s)) s).
Proof. intros Hb. unfold set_buf, upd_fs. mstep. by erewrite list_alter_at. Qed.

Lemma with_bufs_twice bs bs' s : with_bufs bs (with_bufs bs' s) = with_bufs bs s.
Proof. done. Qed.
Lemma bufs_with bs s : bufs (with_bufs bs s) = bs.
Proof. done. Qed.

(** The walk over the list finds the first buffer that passes the test. *)
Definition passes (test : buf → bool) (bs : list buf) (b : nat) : Prop :=
  match bs !! b with Some x => test x = true | None => False end.
#[export] Instance passes_dec test bs b : Decision (passes test bs b).
Proof. unfold passes. destruct (bs !! b); apply _. Defined.

Lemma passes_at test bs b y : bs !! b = Some y → passes test bs b ↔ test y = true.
Proof. intros Hy. unfold passes. by rewrite Hy. Qed.

Lemma bscan_eq n (step : buf → nat) (f g : nat → nat) test x l s :
  (∀ b y, bufs s !! b = Some y → step y = f b) → linked f g x l bhead →
  Forall (λ b, b < NBUF)%nat l → length (bufs s) = S NBUF → (length l < n)%nat →
  bscan n step test (f x) s = Done (head (filter (passes test (bufs s)) l)) s.
Proof.
  intros Hf Hl Hlt Hlen. revert n x Hl. induction l as [|z l IH]; intros n x Hl Hn.
  - cbn in Hl. destruct Hl as [-> _]. destruct n; [cbn in Hn; lia|]. cbn [bscan]. by rewrite decide_True.
  - cbn [linked] in Hl. destruct Hl as (-> & _ & Hl). apply Forall_cons in Hlt as [Hz Hlt].
    destruct n as [|n]; [cbn in Hn; lia|]. cbn [bscan]. rewrite decide_False by (unfold bhead; lia).
    destruct (lookup_lt_is_Some_2 (bufs s) z) as [y Hy]; [lia|]. mstep. rewrite (get_buf_eq z y) by done. mstep.
    pose proof (passes_at test (bufs s) z y Hy) as Hpa. rewrite filter_cons.
    destruct (test y); [by rewrite decide_True by (by apply Hpa)|].
    rewrite decide_False by (by rewrite Hpa). rewrite (Hf z y Hy). apply IH; [done|done|]. cbn in Hn. lia.
Qed.

Lemma head_filter_Some (Q : nat → Prop) `{!∀ b, Decision (Q b)} l b :
  head (filter Q l) = Some b → b ∈ l ∧ Q b.
Proof.
  destruct (filter Q l) as [|c l'] eqn:E; [done|]. intros [= <-].
  assert (c ∈ filter Q l) as Hc by (rewrite E; set_solver). by apply list_elem_of_filter in Hc as [].
Qed.
Lemma head_filter_None (Q : nat → Prop) `{!∀ b, Decision (Q b)} l b :
  head (filter Q l) = None → b ∈ l → ¬ Q b.
Proof.
  destruct (filter Q l) as [|c l'] eqn:E; [|done]. intros _ Hb HQ.
  assert (b ∈ filter Q l) as Hc by (by apply list_elem_of_filter). rewrite E in Hc. set_solver.
Qed.

Lemma ring_lt l bs : ring l bs → Forall (λ b, b < NBUF)%nat l.
Proof. intros [_ Hp _]. rewrite Hp. apply Forall_seq. lia. Qed.
Lemma ring_length l bs : ring l bs → length l = NBUF.
Proof. intros [_ Hp _]. by rewrite Hp, length_seq. Qed.
Lemma ring_in l bs b : ring l bs → b ∈ l ↔ (b < NBUF)%nat.
Proof. intros [_ Hp _]. rewrite Hp, elem_of_seq. lia. Qed.

Lemma nx_step bs b y : bs !! b = Some y → b_next y = nx bs b.
Proof. intros Hy. unfold nx. by rewrite Hy. Qed.
Lemma pv_step bs b y : bs !! b = Some y → b_prev y = pv bs b.
Proof. intros Hy. unfold pv. by rewrite Hy. Qed.

(** Forwards the walk meets the most recently used buffer first, backwards the
    least recently used. *)
Lemma bscan_next test l h s :
  ring l (bufs s) → bufs s !! bhead = Some h →
  bscan (S NBUF) b_next test (b_next h) s = Done (head (filter (passes test (bufs s)) l)) s.
Proof.
  intros Hr Hh. rewrite (nx_step _ _ _ Hh).
  apply (bscan_eq _ _ _ (pv (bufs s))); [apply nx_step|apply Hr|by eapply ring_lt|apply Hr|].
  rewrite (ring_length _ _ Hr). lia.
Qed.
Lemma bscan_prev test l h s :
  ring l (bufs s) → bufs s !! bhead = Some h →
  bscan (S NBUF) b_prev test (b_prev h) s = Done (head (filter (passes test (bufs s)) (reverse l))) s.
Proof.
  intros Hr Hh. rewrite (pv_step _ _ _ Hh).
  apply (bscan_eq _ _ _ (nx (bufs s))); [apply pv_step|apply linked_rev, Hr| |apply Hr|].
  - apply Forall_reverse. by eapply ring_lt.
  - rewrite length_reverse, (ring_length _ _ Hr). lia.
Qed.

(** ** Kernel code of one process that has the disk to itself

    The code runs for process [i] on a disk of [size] blocks that held [D0] at
    the start; [h] are the blocks written since, latest first. *)
Context (i : nat) (p : proc).
Context (D0 : disk) (size : Z) (Hsize : 0 ≤ size < 2^31).

Definition lkof (s : kst W) (b : nat) : Z := sl_locked (slock b s).

Record bio (h : list (Z * list Z)) C P H (s : kst W) : Prop := {
  bio_run : krun [] fslocks i p s;
  bio_cache : cache (play D0 h) C P H (bufs s) (lkof s);
  bio_disk n : Memide.disk_block (k_fs s) n = play D0 h n;
  bio_writes : fs_writes (k_fs s) = h;
  bio_size : fs_disksize (k_fs s) = size;
  bio_len n : length (C n) = Z.to_nat BSIZE;
}.

Lemma bufs_head h C P H s : bio h C P H s → ∃ x, bufs s !! bhead = Some x.
Proof.
  intros Hb. destruct (ca_ring _ _ _ _ _ _ (bio_cache _ _ _ _ _ Hb)) as [l [Hl _ _]].
  apply lookup_lt_is_Some_2. rewrite Hl. unfold bhead. lia.
Qed.

(** A cache invariant survives changes that leave the buffers' locks alone. *)
Lemma cache_lk D C P H bs lk lk' :
  cache D C P H bs lk → (∀ b, (b < NBUF)%nat → lk' b = lk b) → cache D C P H bs lk'.
Proof. intros Hca Hl. eapply cache_links; [done|apply Hca|done|done]. Qed.

Lemma lkof_zupd s s' b v :
  lkof s' b = v → (∀ j, j ≠ b → slock j s' = slock j s) → ∀ c, lkof s' c = zupd b v (lkof s) c.
Proof.
  intros Hb Ho c. destruct (decide (c = b)) as [->|]; [by rewrite zupd_eq|].
  rewrite zupd_ne by done. unfold lkof. by rewrite Ho.
Qed.

Lemma bufs_fs s s' : k_fs s' = k_fs s → bufs s' = bufs s.
Proof. unfold bufs. by intros ->. Qed.

(** [iderw] reads a buffer that holds nothing yet. *)
Lemma iderw_read b x s :
  krun [] fslocks i p s → (b < NBUF)%nat → bufs s !! b = Some x → lkof s b = 1 →
  b_flags x = 0 → b_dev x = 1 → 0 ≤ b_blockno x < size → fs_disksize (k_fs s) = size →
  wp alone (Memide.iderw b s) (λ _ s', krun [] fslocks i p s' ∧ core s' = core s ∧
    k_slocks s' = k_slocks s ∧ k_fs s' = set_fs_bufs
      (<[b := set_b_flags B_VALID (set_b_data (Memide.disk_block (k_fs s) (b_blockno x)) x)]> (bufs s)) (k_fs s)).
Proof.
  intros Hk Hlt Hb Hl Hf Hd Hn Hsz. unfold Memide.iderw. mstep.
  eapply wp_then; [apply (holdingsleep_eq b fslocks i p); [done|apply fslocks_sleep; lia]|].
  intros r s1 (-> & Hk1 & Hc & Hfs & Hs). unfold lkof in Hl. rewrite Hl. cbn [Z.eqb]. mstep.
  assert (bufs s1 !! b = Some x) as Hb1 by (by rewrite (bufs_fs s)).
  rewrite (get_buf_eq b x) by done. mstep. rewrite Hf, Hd.
  change (Z.land 0 (Z.lor B_VALID B_DIRTY) =? B_VALID) with false.
  change (Z.land 0 B_DIRTY =? 0) with true. change (negb (1 =? 1)) with false.
  mstep. cbn [negb]. rewrite Hfs, Hsz.
  rewrite u32_id by lia. destruct (Z.leb_spec size (b_blockno x)); [lia|]. mstep.
  rewrite (set_buf_eq b _ x) by done. mstep. set (s2 := with_bufs _ _).
  assert (bufs s2 !! b = Some (set_b_data (Memide.disk_block (k_fs s1) (b_blockno x)) x)) as Hb2.
  { unfold s2. rewrite bufs_with. apply list_lookup_insert_eq. by eapply lookup_lt_Some. }
  erewrite set_buf_eq by exact Hb2. unfold s2 at 1. rewrite bufs_with, list_insert_insert_eq. cbn.
  split; [by apply (krun_frame _ _ _ _ s1)|]. rewrite Hf, Hfs, (bufs_fs s) by done. done.
Qed.

(** [iderw] writes a dirty buffer. *)
Lemma iderw_write b x s :
  krun [] fslocks i p s → (b < NBUF)%nat → bufs s !! b = Some x → lkof s b = 1 →
  b_flags x = Z.lor B_VALID B_DIRTY → b_dev x = 1 → 0 ≤ b_blockno x < size → fs_disksize (k_fs s) = size →
  wp alone (Memide.iderw b s) (λ _ s', krun [] fslocks i p s' ∧ core s' = core s ∧
    k_slocks s' = k_slocks s ∧ k_fs s' = set_fs_bufs (<[b := set_b_flags B_VALID x]> (bufs s))
      (set_fs_writes ((b_blockno x, b_data x) :: fs_writes (k_fs s))
        (set_fs_disk (<[b_blockno x := b_data x]> (fs_disk (k_fs s))) (k_fs s)))).
Proof.
  intros Hk Hlt Hb Hl Hf Hd Hn Hsz. unfold Memide.iderw. mstep.
  eapply wp_then; [apply (holdingsleep_eq b fslocks i p); [done|apply fslocks_sleep; lia]|].
  intros r s1 (-> & Hk1 & Hc & Hfs & Hs). unfold lkof in Hl. rewrite Hl. cbn [Z.eqb]. mstep.
  assert (bufs s1 !! b = Some x) as Hb1 by (by rewrite (bufs_fs s)).
  rewrite (get_buf_eq b x) by done. mstep. rewrite Hf, Hd.
  change (Z.land (Z.lor B_VALID B_DIRTY) (Z.lor B_VALID B_DIRTY) =? B_VALID) with false.
  change (Z.land (Z.lor B_VALID B_DIRTY) B_DIRTY =? 0) with false. change (negb (1 =? 1)) with false.
  mstep. cbn [negb]. rewrite Hfs, Hsz.
  rewrite u32_id by lia. destruct (Z.leb_spec size (b_blockno x)); [lia|]. mstep.
  rewrite (set_buf_eq b _ x) by done. mstep. unfold upd_fs. mstep. set (s2 := set_k_fs _ _).
  assert (bufs s2 = <[b := set_b_flags (Z.land (b_flags x) (Z.lnot B_DIRTY)) x]> (bufs s1)) as Hb2 by done.
  erewrite set_buf_eq by (rewrite Hb2; apply list_lookup_insert_eq; by eapply lookup_lt_Some).
  rewrite Hb2, list_insert_insert_eq. cbn.
  split; [by apply (krun_frame _ _ _ _ s1)|]. rewrite Hf, Hfs, (bufs_fs s) by done. done.
Qed.

Lemma disk_block_write fs n v m :
  Memide.disk_block (set_fs_writes ((n, v) :: fs_writes fs) (set_fs_disk (<[n := v]> (fs_disk fs)) fs)) m =
  dupd n v (Memide.disk_block fs) m.
Proof.
  unfold Memide.disk_block, dupd. cbn. destruct (decide (m = n)) as [->|].
  - by rewrite lookup_insert_eq.
  - by rewrite lookup_insert_ne.
Qed.

(** The buffer of a block in use. *)
Definition holds (n : Z) (b : nat) C P (s : kst W) : Prop :=
  ∃ x, bufs s !! b = Some x ∧ b_dev x = 1 ∧ b_blockno x = n ∧ b_data x = C n ∧
    b_flags x = (if decide (n ∈ P) then Z.lor B_VALID B_DIRTY else B_VALID).

Lemma bio_holds h C P H s n b : bio h C P H s → H !! n = Some b → holds n b C P s.
Proof.
  intros Hb Hn. pose proof (bio_cache _ _ _ _ _ Hb) as Hca.
  destruct (ca_held _ _ _ _ _ _ Hca n b Hn) as (Hlt & x & Hx & E1 & E2).
  destruct (cache_find _ _ _ _ _ _ _ _ _ Hca Hlt Hx E1 E2) as (F1 & F2 & _ & _). by exists x.
Qed.

Lemma cached_dec h C P H s n : bio h C P H s →
  (∃ b x, (b < NBUF)%nat ∧ bufs s !! b = Some x ∧ b_dev x = 1 ∧ b_blockno x = n) ∨
  (∀ c z, (c < NBUF)%nat → bufs s !! c = Some z → b_dev z = 1 → b_blockno z ≠ n).
Proof.
  intros _. destruct (decide (Exists (λ b, passes (is_block 1 n) (bufs s) b) (seq 0 NBUF))) as [He|Hne].
  - left. apply Exists_exists in He as (b & [_ Hb]%elem_of_seq & Hp). unfold passes in Hp.
    destruct (bufs s !! b) as [x|] eqn:Hx; [|done].
    apply andb_true_iff in Hp as [H1%Z.eqb_eq H2%Z.eqb_eq]. by exists b, x.
  - right. intros c z Hc Hz H1 H2. apply Hne, Exists_exists. exists c.
    split; [apply elem_of_seq; lia|]. unfold passes. rewrite Hz. unfold is_block. by rewrite H1, H2, !Z.eqb_refl.
Qed.

Lemma bio_held_lt h C P H s n b : bio h C P H s → H !! n = Some b → (b < NBUF)%nat ∧ lkof s b = 1.
Proof.
  intros Hb Hn. pose proof (bio_cache _ _ _ _ _ Hb) as Hca.
  destruct (ca_held _ _ _ _ _ _ Hca n b Hn) as (Hlt & x & Hx & E1 & E2).
  destruct (cache_find _ _ _ _ _ _ _ _ _ Hca Hlt Hx E1 E2) as (_ & _ & _ & F). by destruct (F Hn).
Qed.

(** The holder of a block stores into its buffer. *)
Lemma store_ok h C P H s n b f :
  bio h C P H s → H !! n = Some b → length (f (C n)) = Z.to_nat BSIZE →
  wp alone (set_buf b (λ x, set_b_data (f (b_data x)) x) s) (λ _ s',
    bio h (dupd n (f (C n)) C) P H s' ∧ keeps s s').
Proof.
  intros Hbio Hn Hf. destruct (bio_holds _ _ _ _ _ _ _ Hbio Hn) as (x & Hx & E1 & E2 & E3 & E4).
  destruct Hbio as [Hrun Hca Hdk Hw Hsz Hlen]. rewrite (set_buf_eq b _ x) by done. cbn.
  split; [|done]. split; try done.
  - by apply (krun_frame _ _ _ _ s).
  - rewrite bufs_with. eapply (cache_update _ _ _ _ _ _ _ _ _ b x _ n Hca); try done; cbn.
    + by rewrite dupd_eq, E3.
    + intros m Hm. by rewrite dupd_ne.
  - intros m. unfold dupd. destruct (decide (m = n)); [done|apply Hlen].
Qed.

(** The holder of a block marks its buffer dirty: it stays in the cache. *)
Lemma pin_ok h C P H s n b :
  bio h C P H s → H !! n = Some b →
  wp alone (set_buf b (λ x, set_b_flags (Z.lor (b_flags x) B_DIRTY) x) s) (λ _ s',
    bio h C ({[ n ]} ∪ P) H s' ∧ keeps s s').
Proof.
  intros Hbio Hn. destruct (bio_holds _ _ _ _ _ _ _ Hbio Hn) as (x & Hx & E1 & E2 & E3 & E4).
  destruct Hbio as [Hrun Hca Hdk Hw Hsz Hlen]. rewrite (set_buf_eq b _ x) by done. cbn.
  split; [|done]. split; try done.
  - by apply (krun_frame _ _ _ _ s).
  - rewrite bufs_with. eapply (cache_update _ _ _ _ _ _ _ _ _ b x _ n Hca); try done; cbn.
    + rewrite decide_True by set_solver. rewrite E4. by destruct (decide _).
    + intros m Hm. split; [done|]. split; [done|]. set_solver.
Qed.

(** [bwrite] puts the block on the disk and unpins it. *)
Lemma bwrite_ok h C P H s n b :
  bio h C P H s → H !! n = Some b → 0 ≤ n < size →
  wp alone (bwrite b s) (λ _ s', bio ((n, C n) :: h) C (P ∖ {[ n ]}) H s' ∧ keeps s s').
Proof.
  intros Hbio Hn Hr. destruct (bio_held_lt _ _ _ _ _ _ _ Hbio Hn) as [Hlt Hlk]. unfold bwrite. mstep.
  eapply wp_then; [apply (holdingsleep_eq b fslocks i p); [apply Hbio|apply fslocks_sleep; lia]|].
  intros r s1 (-> & Hk1 & Hc1 & Hf1 & Hs1). unfold lkof in Hlk. rewrite Hlk. cbn [Z.eqb]. mstep.
  assert (bio h C P H s1) as Hbio1.
  { destruct Hbio as [Hrun Hca Hdk Hw Hsz Hlen]. split; rewrite ?(bufs_fs s), ?Hf1 by done; try done.
    eapply cache_lk; [done|]. intros c _. unfold lkof. by rewrite (slock_frame _ s). }
  destruct (bio_holds _ _ _ _ _ _ _ Hbio1 Hn) as (x & Hx & E1 & E2 & E3 & E4).
  rewrite (set_buf_eq b _ x) by done. mstep. set (y := set_b_flags _ x). set (s2 := with_bufs _ s1).
  assert (bufs s2 !! b = Some y) as Hy by (apply list_lookup_insert_eq; by eapply lookup_lt_Some).
  assert (b_flags y = Z.lor B_VALID B_DIRTY) as Hyf by (cbn; rewrite E4; by destruct (decide _)).
  destruct Hbio1 as [Hrun Hca Hdk Hw Hsz Hlen].
  eapply wp_mono; [|apply (iderw_write b y s2); try done; [by apply (krun_frame _ _ _ _ s1)|..]].
  3: { cbn. by rewrite E2. }
  2: { unfold lkof, s2. by rewrite (slock_frame _ s1), (slock_frame _ s). }
  intros [] s3 (Hk3 & Hc3 & Hs3 & Hf3).
  assert (bufs s3 = <[b := set_b_flags B_VALID x]> (bufs s1)) as Hb3.
  { unfold bufs at 1. rewrite Hf3. change (<[b := set_b_flags B_VALID y]> (bufs s2) = <[b := set_b_flags B_VALID x]> (bufs s1)).
    unfold s2. by rewrite bufs_with, list_insert_insert_eq. }
  assert (b_blockno y = n ∧ b_data y = C n) as [Ey1 Ey2] by done.
  split; [split; try done|].
  - rewrite Hb3. eapply cache_lk; [eapply (cache_update _ _ _ _ _ _ _ _ _ b x _ n Hca); try done; cbn|].
    + rewrite decide_False by set_solver. done.
    + intros m Hm. split; [done|]. split; [by rewrite dupd_ne|]. set_solver.
    + intros c _. unfold lkof. by rewrite (slock_frame _ s2).
  - intros m. rewrite Hf3, Ey1, Ey2. etrans; [apply (disk_block_write (k_fs s1))|].
    cbn. unfold dupd. destruct (decide (m = n)); [done|apply Hdk].
  - rewrite Hf3, Ey1, Ey2. cbn. by rewrite Hw.
  - by rewrite Hf3.
  - split.
    + unfold rest. rewrite Hc3, Hf3. cbn. unfold s2. cbn. change (core (with_bufs (<[b:=y]> (bufs s1)) s1)) with (core s1).
      by rewrite Hc1, Hf1.
    + intros k Hk. rewrite (slock_frame _ s2) by done. unfold s2. by rewrite (slock_frame _ s1), (slock_frame _ s).
Qed.

Lemma get_buf_at c s : (c < length (bufs s))%nat →
  ∃ x, get_buf c s = Done x s ∧ b_next x = nx (bufs s) c ∧ b_prev x = pv (bufs s) c.
Proof.
  intros Hc. destruct (lookup_lt_is_Some_2 _ _ Hc) as [x Hx]. exists x.
  split; [by apply get_buf_eq|]. split; [by apply nx_step|by apply pv_step].
Qed.

Lemma set_buf_alter c f s : set_buf c f s = Done tt (with_bufs (alter f c (bufs s)) s).
Proof. done. Qed.

Ltac buf_read c s' := 
  let x := fresh "x" in let Hn := fresh "Hn" in let Hp := fresh "Hp" in
  destruct (get_buf_at c s') as (x & -> & Hn & Hp); [rewrite ?bufs_with, ?length_alter; done|].

Lemma move_front_eq b s : (b < length (bufs s))%nat → (bhead < length (bufs s))%nat →
  move_front b s = Done tt (with_bufs (push b (unlink b (bufs s))) s).
Proof.
  intros Hb Hh. unfold move_front. mstep. buf_read b s. mstep. rewrite set_buf_alter, Hn, Hp. mstep.
  buf_read b (with_bufs (alter (set_b_prev (pv (bufs s) b)) (nx (bufs s) b) (bufs s)) s). mstep.
  rewrite set_buf_alter, Hn0, Hp0, !bufs_with, with_bufs_twice. mstep. fold (unlink b (bufs s)).
  assert (length (unlink b (bufs s)) = length (bufs s)) as Hlu by apply length_unlink.
  set (s1 := with_bufs (unlink b (bufs s)) s).
  destruct (get_buf_at bhead s1) as (h1 & -> & Hn1 & _); [unfold s1; by rewrite bufs_with, Hlu|]. mstep.
  rewrite set_buf_alter, Hn1. mstep. rewrite set_buf_alter, with_bufs_twice, bufs_with. mstep.
  set (s2 := with_bufs _ s1).
  destruct (get_buf_at bhead s2) as (h2 & -> & Hn2 & _); [unfold s2, s1; by rewrite !bufs_with, !length_alter, Hlu|].
  mstep. rewrite set_buf_alter, Hn2. mstep. by rewrite set_buf_alter, with_bufs_twice, bufs_with.
Qed.

(** [brelse] gives a block back: it stays cached, its buffer is the most
    recently used. *)
Lemma brelse_ok h C P H s n b :
  bio h C P H s → H !! n = Some b → n ∈ P ∨ C n = play D0 h n →
  wp alone (brelse b s) (λ _ s', bio h C P (delete n H) s' ∧ keeps s s').
Proof.
  intros Hbio Hn HC. destruct (bio_held_lt _ _ _ _ _ _ _ Hbio Hn) as [Hlt Hlk]. unfold brelse. mstep.
  pose proof Hbio as [Hrun Hca Hdk Hw Hsz Hlen].
  assert (L_sleeplock b ∈ fslocks) as Hin by (apply fslocks_sleep; lia).
  eapply wp_then; [by apply (holdingsleep_eq b fslocks i p)|].
  intros r s1 (-> & Hk1 & Hc1 & Hf1 & Hs1). unfold lkof in Hlk. rewrite Hlk. cbn [Z.eqb]. mstep.
  eapply wp_then; [by apply (releasesleep_eq b fslocks i p)|].
  intros [] s2 (Hk2 & Hc2 & Hf2 & Hl2 & Ho2). mstep.
  destruct (krun_acquire [] _ _ _ L_bcache s2 Hk2) as [-> Hk3]; [apply fslocks_bcache|set_solver|]. mstep.
  destruct (bio_holds _ _ _ _ _ _ _ Hbio Hn) as (x & Hx & E1 & E2 & E3 & E4).
  destruct (cache_find _ _ _ _ _ _ _ _ _ Hca Hlt Hx E1 E2) as (_ & _ & _ & F). destruct (F Hn) as [Fr _].
  assert (bufs (acquired L_bcache s2) = bufs s) as Hbs.
  { change (bufs s2 = bufs s). rewrite (bufs_fs s1) by done. by rewrite (bufs_fs s). }
  pose proof (lookup_lt_Some _ _ _ Hx) as Hbl.
  rewrite (set_buf_eq b _ x) by (by rewrite Hbs). cbv beta. rewrite Fr, Hbs. change (u32 (1 - 1)) with 0. mstep.
  set (s3 := with_bufs _ _).
  rewrite (get_buf_eq b (set_b_refcnt 0 x) s3) by (by apply list_lookup_insert_eq). mstep. cbn [set_b_refcnt b_refcnt Z.eqb when].
  assert (length (bufs s3) = S NBUF) as Hl3.
  { unfold s3. rewrite bufs_with, length_insert. by destruct (ca_ring _ _ _ _ _ _ Hca) as [l []]. }
  rewrite move_front_eq by (rewrite Hl3; unfold bhead; lia). mstep. set (s4 := with_bufs _ s3).
  assert (krun [L_bcache] fslocks i p s4) as Hk4 by (by apply (krun_frame _ _ _ _ (acquired L_bcache s2))).
  destruct (krun_release [] _ _ _ _ s4 Hk4) as [-> Hk5].
  assert (cache (play D0 h) C P (delete n H) (bufs s3) (zupd b 0 (lkof s))) as Hca3 by (by apply cache_put).
  destruct (ca_ring _ _ _ _ _ _ Hca3) as [l Hr3].
  destruct (to_front_ring l (bufs s3) b Hr3 Hlt) as (l1 & l2 & _ & Hr4).
  assert (∀ k, k ≠ b → slock k s4 = slock k s) as Ho4.
  { intros k Hk. unfold s4, s3. rewrite (slock_frame _ s2) by done. rewrite Ho2 by done. by apply slock_frame. }
  cbn. split; [split; try done; unfold bufs; cbn|].
  - eapply cache_links; [done|by eexists|intros c; rewrite strip_push, strip_unlink; done|].
    intros c _. destruct (decide (c = b)) as [->|Hne].
    + rewrite zupd_eq. unfold lkof. by rewrite (slock_frame _ s2).
    + rewrite zupd_ne by done. unfold lkof. rewrite (slock_frame _ s4) by done. by rewrite Ho4.
  - intros m. rewrite <- Hdk. unfold Memide.disk_block. cbn. by rewrite Hf2, Hf1.
  - by rewrite Hf2, Hf1.
  - by rewrite Hf2, Hf1.
  - split.
    + unfold rest. cbn. rewrite Hf2, Hf1. change (core (released L_bcache s4)) with (core s2). by rewrite Hc2, Hc1.
    + intros k Hk. rewrite (slock_frame _ s4) by done. apply Ho4. lia.
Qed.

(** Waiting for a lock that is free takes one test. *)
Context (fuel : nat) (Hfuel : (0 < fuel)%nat).

Lemma bget_tail b s :
  krun [L_bcache] fslocks i p s → (b < NBUF)%nat → lkof s b = 0 →
  wp alone ((release L_bcache ;;; acquiresleep fuel b ;;; ret b) s) (λ r s', r = b ∧
    krun [] fslocks i p s' ∧ core s' = core s ∧ k_fs s' = k_fs s ∧ lkof s' b = 1 ∧
    ∀ j, j ≠ b → slock j s' = slock j s).
Proof.
  intros Hk Hb Hl. mstep. destruct (krun_release [] _ _ _ _ _ Hk) as [-> Hk']. mstep.
  eapply wp_then; [apply (acquiresleep_free fuel b fslocks i p); [done|apply fslocks_sleep; lia|done|done]|].
  intros [] s' (Hk2 & Hc & Hf & Hl1 & _ & Ho). cbn. done.
Qed.

(** [bget] on a cached block. *)
Lemma bget_cached h C P H s b x n :
  bio h C P H s → (b < NBUF)%nat → bufs s !! b = Some x → b_dev x = 1 → b_blockno x = n →
  H !! n = None →
  wp alone (bget fuel 1 n s) (λ r s', r = b ∧ bio h C P (<[n := b]> H) s' ∧ keeps s s').
Proof.
  intros Hbio Hlt Hb Hd Hn Hh. pose proof Hbio as [Hrun Hca Hdk Hw Hsz Hlen].
  destruct (bufs_head _ _ _ _ _ Hbio) as [hd Hhd]. destruct (ca_ring _ _ _ _ _ _ Hca) as [l Hr].
  unfold bget. mstep. destruct (krun_acquire [] _ _ _ L_bcache s Hrun) as [-> Hk1]; [apply fslocks_bcache|set_solver|].
  mstep. rewrite (get_buf_eq _ hd) by done. mstep. rewrite (bscan_next _ l) by done. mstep.
  assert (head (filter (passes (is_block 1 n) (bufs (acquired L_bcache s))) l) = Some b) as ->.
  { destruct (head _) as [c|] eqn:E.
    - apply head_filter_Some in E as [Hc Hp]. apply (ring_in _ _ _ Hr) in Hc. f_equal.
      unfold passes in Hp. change (bufs (acquired L_bcache s)) with (bufs s) in Hp.
      destruct (bufs s !! c) as [y|] eqn:Hy; [|done].
      apply andb_true_iff in Hp as [H1%Z.eqb_eq H2%Z.eqb_eq].
      eapply (ca_uniq _ _ _ _ _ _ Hca c b y x); try done. congruence.
    - exfalso. apply (head_filter_None _ _ b E); [by apply (ring_in _ _ _ Hr)|].
      eapply (proj2 (passes_at _ _ _ x Hb)). unfold is_block. rewrite Hd, Hn, !Z.eqb_refl. done. }
  destruct (cache_find _ _ _ _ _ _ _ _ _ Hca Hlt Hb Hd Hn) as (_ & _ & F & _). destruct (F Hh) as [Fr Fl].
  mstep. rewrite (set_buf_eq b _ x) by done. cbv beta. rewrite Fr. mstep. set (s1 := with_bufs _ _).
  assert (krun [L_bcache] fslocks i p s1) as Hk2 by (by apply (krun_frame _ _ _ _ (acquired L_bcache s))).
  eapply wp_mono; [|by apply (bget_tail b s1)].
  intros r s' (-> & Hk3 & Hc & Hf & Hl1 & Ho). split; [done|]. split.
  - split; unfold bufs; rewrite ?Hf; try done.
    eapply cache_lk; [by apply (cache_hit _ _ _ _ _ (lkof s) b x n)|].
    intros c _. by apply (lkof_zupd s).
  - split; [unfold rest; rewrite Hc, Hf; done|]. intros k Hk. by rewrite Ho by lia.
Qed.

(** [bget] on a block that is not cached recycles a clean buffer. *)
Lemma bget_fresh h C P H s n :
  bio h C P H s → (∀ c z, (c < NBUF)%nat → bufs s !! c = Some z → b_dev z = 1 → b_blockno z ≠ n) →
  (base.size (P ∪ dom H) < NBUF)%nat →
  wp alone (bget fuel 1 n s) (λ b s', ∃ x, (b < NBUF)%nat ∧ bufs s !! b = Some x ∧ is_clean x = true ∧
    krun [] fslocks i p s' ∧ core s' = core s ∧ lkof s' b = 1 ∧ (∀ j, j ≠ b → slock j s' = slock j s) ∧
    k_fs s' = set_fs_bufs
      (<[b := mkBuf 0 1 n 1 (b_prev x) (b_next x) (b_qnext x) (b_data x)]> (bufs s)) (k_fs s)).
Proof.
  intros Hbio Hno Hroom. pose proof Hbio as [Hrun Hca Hdk Hw Hsz Hlen].
  destruct (bufs_head _ _ _ _ _ Hbio) as [hd Hhd]. destruct (ca_ring _ _ _ _ _ _ Hca) as [l Hr].
  unfold bget. mstep. destruct (krun_acquire [] _ _ _ L_bcache s Hrun) as [-> Hk1]; [apply fslocks_bcache|set_solver|].
  mstep. rewrite (get_buf_eq _ hd) by done. mstep. rewrite (bscan_next _ l) by done. mstep.
  destruct (head _) as [c|] eqn:E.
  { exfalso. apply head_filter_Some in E as [Hc Hp]. apply (ring_in _ _ _ Hr) in Hc.
    unfold passes in Hp. change (bufs (acquired L_bcache s)) with (bufs s) in Hp.
    destruct (bufs s !! c) as [y|] eqn:Hy; [|done].
    apply andb_true_iff in Hp as [H1%Z.eqb_eq H2%Z.eqb_eq]. by apply (Hno c y). }
  clear E. mstep. rewrite (get_buf_eq _ hd) by done. mstep. rewrite (bscan_prev _ l) by done. mstep.
  change (bufs (acquired L_bcache s)) with (bufs s).
  destruct (head _) as [b|] eqn:E.
  2: { exfalso. destruct (cache_free _ _ _ _ _ _ Hca Hroom) as (b & x & Hlt & Hb & Hcl).
       apply (head_filter_None _ _ b E); [by rewrite elem_of_reverse; apply (ring_in _ _ _ Hr)|].
       by eapply (proj2 (passes_at _ _ _ x Hb)). }
  apply head_filter_Some in E as [Hlt Hp]. rewrite elem_of_reverse, (ring_in _ _ _ Hr) in Hlt.
  unfold passes in Hp. destruct (bufs s !! b) as [x|] eqn:Hb; [|done].
  pose proof (lookup_lt_Some _ _ _ Hb) as Hbl.
  destruct (cache_clean_buf _ _ _ _ _ _ _ _ Hca Hlt Hb Hp) as (Hl0 & _ & _). mstep.
  do 4 (erewrite set_buf_eq by (rewrite ?bufs_with; first [done|by apply list_lookup_insert_eq]); mstep;
        rewrite ?with_bufs_twice, ?bufs_with, ?list_insert_insert_eq).
  set (s1 := with_bufs _ _).
  assert (krun [L_bcache] fslocks i p s1) as Hk2 by (by apply (krun_frame _ _ _ _ (acquired L_bcache s))).
  eapply wp_mono; [|by apply (bget_tail b s1)].
  intros r s' (-> & Hk3 & Hc & Hf & Hl1 & Ho). exists x. done.
Qed.

(** [bread] returns the current contents of a block, read from the disk or not. *)
Lemma bread_ok h C P H s n :
  bio h C P H s → H !! n = None → 0 ≤ n < size → n ∈ P ∨ (base.size (P ∪ dom H) < NBUF)%nat →
  wp alone (bread fuel 1 n s) (λ b s', bio h C P (<[n := b]> H) s' ∧ keeps s s').
Proof.
  intros Hbio Hh Hn Hroom. unfold bread. mstep. destruct (cached_dec _ _ _ _ _ n Hbio) as [(b & x & Hlt & Hb & E1 & E2)|Hno].
  - eapply wp_then; [by eapply (bget_cached h C P H)|].
    intros r s' (-> & Hb' & Hkeep). mstep.
    destruct (bio_holds _ _ _ _ _ n b Hb') as (y & Hy & _ & _ & _ & Hf); [by rewrite lookup_insert_eq|].
    rewrite (get_buf_eq b y) by done. mstep. rewrite Hf. by destruct (decide (n ∈ P)).
  - pose proof Hbio as [Hrun Hca Hdk Hw Hsz Hlen].
    destruct (cache_absent _ _ _ _ _ _ _ Hca Hno) as (HnP & _ & HC).
    eapply wp_then; [eapply (bget_fresh h C P H); [done|done|naive_solver]|].
    intros b s1 (x & Hlt & Hb & Hcl & Hk1 & Hc1 & Hl1 & Ho1 & Hf1). mstep.
    set (y := mkBuf 0 1 n 1 _ _ _ _) in Hf1.
    assert (bufs s1 = <[b := y]> (bufs s)) as Hbs by (unfold bufs; by rewrite Hf1).
    assert (bufs s1 !! b = Some y) as Hb1 by (rewrite Hbs; apply list_lookup_insert_eq; by eapply lookup_lt_Some).
    rewrite (get_buf_eq b y) by done. mstep. cbn [b_flags y Z.land Z.eqb when].
    eapply wp_then; [apply (iderw_read b y); try done; by rewrite Hf1|].
    intros [] s2 (Hk2 & Hc2 & Hs2 & Hf2). cbn.
    assert (bufs s2 = <[b := mkBuf B_VALID 1 n 1 (b_prev x) (b_next x) (b_qnext x) (play D0 h n)]> (bufs s)) as Hbs2.
    { unfold bufs at 1. rewrite Hf2, Hbs, list_insert_insert_eq, Hf1. cbn. by rewrite <- Hdk. }
    split; [split; rewrite ?Hf2, ?Hf1; try done|].
    + rewrite Hbs2. eapply cache_lk; [by apply (cache_fill _ _ _ _ _ (lkof s))|].
      intros c _. unfold lkof at 1. rewrite (slock_frame _ s1) by done. by apply (lkof_zupd s).
    + split; [unfold rest; rewrite Hc2, Hc1, Hf2, Hf1; done|].
      intros k Hk. rewrite (slock_frame _ s1) by done. by rewrite Ho1 by lia.
Qed.

End Laws.

(** * Start-up *)
Section Init.
Context {W : Type}.
Implicit Types s : kst W.

Definition init_sleep (b : nat) (s : kst W) : kst W :=
  set_k_slocks (<[b := mkSleep 0 "buffer" 0]> (k_slocks s))
    (upd_lock (L_sleeplock b) (mkLock 0 "sleep lock" None) s).

Lemma initsleeplock_eq b s : initsleeplock b "buffer" s = Done tt (init_sleep b s).
Proof.
  unfold initsleeplock, initlock, set_slock. mstep. f_equal. unfold init_sleep.
  set (s1 := upd_lock _ _ s). rewrite !slock_insert, !decide_True by done. cbn.
  unfold set_k_slocks. cbn. by rewrite !insert_insert_eq.
Qed.

Lemma binit_body_eq b s : (b < length (bufs s))%nat → (bhead < length (bufs s))%nat →
  binit_body b s = Done tt (with_bufs (push b (bufs s)) (init_sleep b s)).
Proof.
  intros Hb Hh. unfold binit_body. mstep.
  destruct (get_buf_at bhead s Hh) as (h1 & -> & Hn1 & _). mstep. rewrite set_buf_alter, Hn1. mstep.
  rewrite set_buf_alter, with_bufs_twice, bufs_with. mstep. set (s1 := with_bufs _ s).
  rewrite initsleeplock_eq. mstep.
  destruct (get_buf_at bhead (init_sleep b s1)) as (h2 & -> & Hn2 & _).
  { change (bhead < length (bufs s1))%nat. unfold s1. by rewrite bufs_with, !length_alter. }
  mstep. rewrite set_buf_alter, Hn2. mstep. rewrite set_buf_alter. done.
Qed.

Lemma binit_loop n s :
  length (bufs s) = S NBUF → (n ≤ NBUF)%nat →
  for_each (seq 0 n) binit_body (with_bufs (binit_bufs 0 (bufs s)) s) =
  Done tt (with_bufs (binit_bufs n (bufs s)) (foldl (λ s b, init_sleep b s) s (seq 0 n))).
Proof.
  intros Hlen. induction n as [|n IH]; intros Hn; [done|]. specialize (IH ltac:(lia)).
  rewrite seq_S, (for_each_app _ _ _ _ _ IH), foldl_app. cbn [for_each foldl]. mstep.
  destruct (binit_bufs_ok n (bufs s)) as (Hl & _ & _); [done|lia|].
  rewrite binit_body_eq by (rewrite bufs_with, Hl; unfold bhead; lia). mstep.
  by rewrite bufs_with, binit_bufs_S.
Qed.

(** [binit] initialises the locks and leaves a well-formed list. *)
Lemma binit_eq s :
  length (bufs s) = S NBUF →
  binit s = Done tt (with_bufs (binit_bufs NBUF (bufs s))
    (foldl (λ s b, init_sleep b s) (upd_lock L_bcache (mkLock 0 "bcache" None) s) (seq 0 NBUF))).
Proof.
  intros Hlen. unfold binit, initlock. mstep. rewrite !set_buf_alter. mstep.
  rewrite set_buf_alter, with_bufs_twice, bufs_with. mstep.
  apply (binit_loop NBUF (upd_lock L_bcache (mkLock 0 "bcache" None) s)); [done|lia].
Qed.

End Init.

(** * A disk and an empty cache for concrete runs *)
Module Demo.

#[local] Opaque binit_bufs.

Definition locks : gmap lockid spinlock :=
  list_to_map ((λ l, (l, mkLock 0 "lock" None)) <$> (L_ptable :: fslocks)).

Definition block_of (d : gmap Z (list Z)) (n : Z) : list Z :=
  match d !! n with Some v => v | None => replicate (Z.to_nat BSIZE) 0 end.

(** Process 1 runs; the disk has [size] blocks that hold [d]. *)
Definition fs (d : gmap Z (list Z)) (size : Z) : fsst :=
  set_fs_bufs (binit_bufs NBUF (fs_bufs fs0)) (set_fs_disksize size (set_fs_disk d fs0)).
Definition st_of {W} (w : W) (d : gmap Z (list Z)) (size : Z) : kst W :=
  set_k_fs (fs d size) (Sched.Demo.mk locks ∅ w).
Definition st : gmap Z (list Z) → Z → kst unit := st_of tt.

Lemma bio_locks_free : map_Forall (λ _ lk, lk = mkLock 0 (l_name lk) None) locks.
Proof.
  intros l lk Hl. apply elem_of_list_to_map_2, list_elem_of_fmap in Hl as (l' & [= -> ->] & _). done.
Qed.
Lemma locks_all l : l ∈ L_ptable :: fslocks → is_Some (locks !! l).
Proof.
  intros Hl. destruct (locks !! l) eqn:E; [by eexists|]. apply not_elem_of_list_to_map_2 in E.
  destruct E. rewrite <- list_fmap_compose. apply list_elem_of_fmap. by exists l.
Qed.

Lemma st_bufs {W} (w : W) d size : bufs (st_of w d size) = binit_bufs NBUF (replicate (S NBUF) buf0).
Proof. reflexivity. Qed.

Lemma bio_st_of {W} (w : W) d size :
  map_Forall (λ _ v, length v = Z.to_nat BSIZE) d →
  bio 0 Sched.Demo.p1 (block_of d) size [] (block_of d) ∅ ∅ (st_of w d size).
Proof.
  intros Hd. assert (length (replicate (S NBUF) buf0) = S NBUF) as Hlen by apply length_replicate.
  split; [| |intros n; reflexivity|reflexivity|reflexivity|].
  - apply (krun_frame _ _ _ _ (Sched.Demo.mk locks ∅ w)); [reflexivity..|].
    apply Sched.Demo.mk_krun; [apply bio_locks_free|apply locks_all].
  - rewrite st_bufs. eapply cache_empty; [by apply binit_ring| |reflexivity]. intros b x _ Hx.
    destruct (binit_bufs_ok NBUF (replicate (S NBUF) buf0)) as (_ & Hs & _); [done|lia|].
    specialize (Hs b). rewrite Hx in Hs. destruct (replicate (S NBUF) buf0 !! b) as [y|] eqn:E; [|done].
    apply (inj Some), strip_inv in Hs as (-> & -> & _ & -> & _). apply lookup_replicate in E as [-> _].
    split; [discriminate|]. split; reflexivity.
  - intros n. unfold block_of. destruct (d !! n) as [v|] eqn:E; [by apply (Hd n)|by rewrite length_replicate].
Qed.

Lemma bio_st d size :
  map_Forall (λ _ v, length v = Z.to_nat BSIZE) d →
  bio 0 Sched.Demo.p1 (block_of d) size [] (block_of d) ∅ ∅ (st d size).
Proof. apply bio_st_of. Qed.

End Demo.

(** C8: The buffer cache shows one disk.  Every block has current contents [C],
    whether they are in a buffer or on the disk [play D0 h], and at most one
    buffer.  [bread] returns a locked buffer with the current contents of the
    block and changes none, and finds a buffer whenever fewer than [NBUF] blocks
    are pinned or in use; [bwrite] puts exactly that block on the disk; [brelse]
    gives the buffer back and keeps the block cached.  None of them panics or
    touches anything but the cache and the disk. *)
Theorem buffer_cache_refines {W} fuel i p D0 size h C P H n (s : kst W) :
  (0 < fuel)%nat → 0 ≤ size < 2^31 → bio i p D0 size h C P H s → 0 ≤ n < size →
  (H !! n = None → n ∈ P ∨ (base.size (P ∪ dom H) < NBUF)%nat →
     ∃ b s', bread fuel 1 n s = Done b s' ∧ bio i p D0 size h C P (<[n := b]> H) s' ∧
       holds n b C P s' ∧ keeps s s') ∧
  (∀ b, H !! n = Some b →
     ∃ s', bwrite b s = Done tt s' ∧ bio i p D0 size ((n, C n) :: h) C (P ∖ {[ n ]}) H s' ∧ keeps s s') ∧
  (∀ b, H !! n = Some b → n ∈ P ∨ C n = play D0 h n →
     ∃ s', brelse b s = Done tt s' ∧ bio i p D0 size h C P (delete n H) s' ∧ keeps s s').
Proof.
  intros Hf Hs Hb Hn. split; [|split].
  - intros Hh Hroom. pose proof (bread_ok i p D0 size Hs fuel Hf h C P H s n Hb Hh Hn Hroom) as Hr.
    apply wp_alone in Hr as (b & s' & He & Hb' & Hk). exists b, s'. split; [done|]. split; [done|].
    split; [|done]. eapply bio_holds; [done|]. apply lookup_insert_eq.
  - intros b Hh. pose proof (bwrite_ok i p D0 size Hs h C P H s n b Hb Hh Hn) as Hr.
    apply wp_alone in Hr as ([] & s' & He & Hb' & Hk). by exists s'.
  - intros b Hh HC. pose proof (brelse_ok i p D0 size Hs h C P H s n b Hb Hh HC) as Hr.
    apply wp_alone in Hr as ([] & s' & He & Hb' & Hk). by exists s'.
Qed.

Definition demo_disk : gmap Z (list Z) := {[ 7 := replicate 512 42 ]}.
Lemma demo_blocks : map_Forall (λ _ v, length v = Z.to_nat BSIZE) demo_disk.
Proof. by apply map_Forall_singleton. Qed.
Lemma demo_room : (base.size (∅ ∪ dom (∅ : gmap Z nat) : gset Z) < NBUF)%nat.
Proof. vm_compute. lia. Qed.

Lemma buffer_cache_refines_witness :
  ∃ b s', bread 1 1 7 (Demo.st demo_disk 100) = Done b s' ∧ holds 7 b (Demo.block_of demo_disk) ∅ s'.
Proof.
  destruct (buffer_cache_refines 1 0 Sched.Demo.p1 (Demo.block_of demo_disk) 100 []
    (Demo.block_of demo_disk) ∅ ∅ 7 (Demo.st demo_disk 100)) as (H & _ & _).
  - lia.
  - lia.
  - apply Demo.bio_st, demo_blocks.
  - lia.
  - destruct H as (b & s' & H1 & _ & H2 & _); [reflexivity|right; apply demo_room|].
    exists b, s'. split; [exact H1|exact H2].
Defined.
