(* ===== verification/Log.v ===== *)
(** log.c: the redo log, and [readsb] of fs.c which it needs to find the log.
    Loops over [log.lh] take their bound from [log.lh.n] when they start: no
    other code assigns it while they run, because [begin_op] lets nobody in. *)
From S2P Require Import Prelude Mem KState Spinlock Sched Sleeplock Layout Bio.

Section Log.
Context {W : Type} {DK : DiskOps W}.
Context (fuel : nat).

(** [memmove(sb, bp->data, sizeof( *sb))] into a superblock of the caller. *)
Definition readsb (dev : Z) : M (kst W) superblock :=
  bp <- bread fuel (u32 dev) 1 ;;
  x <- get_buf bp ;;
  brelse bp ;;;
  ret (sb_of_bytes (b_data x)).

Definition get_log : M (kst W) log := gets (λ s, fs_log (k_fs s)).
Definition set_log (f : log → log) : M (kst W) unit := upd_fs (λ fs, set_fs_log (f (fs_log fs)) fs).

(** [log.lh.block[i]]; outside of the array the behaviour is undefined. *)
Definition lh_block (i : Z) : M (kst W) Z :=
  l <- get_log ;;
  match lg_block l !! Z.to_nat i with Some v => ret v | None => panic "trap" end.
Definition set_lh_block (i v : Z) : M (kst W) unit :=
  l <- get_log ;;
  if i <? Z.of_nat (length (lg_block l)) then
    set_log (λ l, set_lg_block (<[Z.to_nat i := v]> (lg_block l)) l)
  else panic "trap".

(** Copy one block from the log to its home location. *)
Definition install_body (tail : Z) : M (kst W) unit :=
  l <- get_log ;;
  lbuf <- bread fuel (u32 (lg_dev l)) (u32 (lg_start l + tail + 1)) ;;
  l <- get_log ;; n <- lh_block tail ;;
  dbuf <- bread fuel (u32 (lg_dev l)) (u32 n) ;;
  x <- get_buf lbuf ;;
  set_buf dbuf (set_b_data (b_data x)) ;;;
  bwrite dbuf ;;;
  brelse lbuf ;;;
  brelse dbuf.

Definition install_trans : M (kst W) unit :=
  l <- get_log ;; for_each (seqZ 0 (lg_n l)) install_body.

Definition read_head : M (kst W) unit :=
  l <- get_log ;;
  b <- bread fuel (u32 (lg_dev l)) (u32 (lg_start l)) ;;
  x <- get_buf b ;;
  set_log (set_lg_n (s32 (word 0 (b_data x)))) ;;;
  for_each (seqZ 0 (s32 (word 0 (b_data x))))
    (λ i, set_lh_block i (s32 (word (Z.to_nat (4 + 4 * i)) (b_data x)))) ;;;
  brelse b.

Definition write_head : M (kst W) unit :=
  l <- get_log ;;
  b <- bread fuel (u32 (lg_dev l)) (u32 (lg_start l)) ;;
  l <- get_log ;;
  set_buf b (λ x, set_b_data (put_word 0 (lg_n l) (b_data x)) x) ;;;
  for_each (seqZ 0 (lg_n l)) (λ i,
    v <- lh_block i ;;
    set_buf b (λ x, set_b_data (put_word (Z.to_nat (4 + 4 * i)) v (b_data x)) x)) ;;;
  bwrite b ;;;
  brelse b.

Definition recover_from_log : M (kst W) unit :=
  read_head ;;;
  install_trans ;;;
  set_log (set_lg_n 0) ;;;
  write_head.

(** [sizeof(struct logheader)] *)
Abbreviation sizeof_logheader := (4 + 4 * LOGSIZE) (only parsing).

Definition initlog (dev : Z) : M (kst W) unit :=
  (if BSIZE <=? sizeof_logheader then panic "initlog: too big logheader" else ret tt) ;;;
  initlock L_log "log" ;;;
  sb <- readsb dev ;;
  set_log (set_lg_start (s32 (sb_logstart sb))) ;;;
  set_log (set_lg_size (s32 (sb_nlog sb))) ;;;
  set_log (set_lg_dev dev) ;;;
  recover_from_log.

Definition begin_op_body : M (kst W) (option unit) :=
  l <- get_log ;;
  if negb (lg_committing l =? 0) then sleep C_log (Some L_log) ;;; ret None
  else if LOGSIZE <? s32 (lg_n l + (lg_outstanding l + 1) * MAXOPBLOCKS) then
    sleep C_log (Some L_log) ;;; ret None
  else
    set_log (λ l, set_lg_outstanding (s32 (lg_outstanding l + 1)) l) ;;;
    release L_log ;;;
    ret (Some tt).

Definition begin_op : M (kst W) unit :=
  acquire L_log ;;; loop fuel begin_op_body.

(** Copy one modified block from the cache to the log. *)
Definition write_log_body (tail : Z) : M (kst W) unit :=
  l <- get_log ;;
  to <- bread fuel (u32 (lg_dev l)) (u32 (lg_start l + tail + 1)) ;;
  l <- get_log ;; n <- lh_block tail ;;
  from <- bread fuel (u32 (lg_dev l)) (u32 n) ;;
  x <- get_buf from ;;
  set_buf to (set_b_data (b_data x)) ;;;
  bwrite to ;;;
  brelse from ;;;
  brelse to.

Definition write_log : M (kst W) unit :=
  l <- get_log ;; for_each (seqZ 0 (lg_n l)) write_log_body.

Definition commit : M (kst W) unit :=
  l <- get_log ;;
  when (0 <? lg_n l) (
    write_log ;;;
    write_head ;;;
    install_trans ;;;
    set_log (set_lg_n 0) ;;;
    write_head).

Definition end_op : M (kst W) unit :=
  acquire L_log ;;;
  set_log (λ l, set_lg_outstanding (s32 (lg_outstanding l - 1)) l) ;;;
  l <- get_log ;;
  (if negb (lg_committing l =? 0) then panic "log.committing" else ret tt) ;;;
  do_commit <- (if lg_outstanding l =? 0 then set_log (set_lg_committing 1) ;;; ret true
                else wakeup C_log ;;; ret false) ;;
  release L_log ;;;
  when do_commit (
    commit ;;;
    acquire L_log ;;;
    set_log (set_lg_committing 0) ;;;
    wakeup C_log ;;;
    release L_log).

(** Index of the block in the log, or [log.lh.n] if it is not there yet. *)
Definition log_find (blockno : Z) : M (kst W) Z :=
  l <- get_log ;;
  r <- for_break (seqZ 0 (lg_n l)) (λ i,
    v <- lh_block i ;; ret (if u32 v =? blockno then Some i else None)) ;;
  ret (match r with Some i => i | None => Z.max 0 (lg_n l) end).

Definition log_write (b : nat) : M (kst W) unit :=
  l <- get_log ;;
  (if (LOGSIZE <=? lg_n l) || (lg_size l - 1 <=? lg_n l) then panic "too big a transaction" else ret tt) ;;;
  (if lg_outstanding l <? 1 then panic "log_write outside of trans" else ret tt) ;;;
  acquire L_log ;;;
  x <- get_buf b ;;
  i <- log_find (b_blockno x) ;;
  set_lh_block i (s32 (b_blockno x)) ;;;
  l <- get_log ;;
  when (i =? lg_n l) (set_log (λ l, set_lg_n (lg_n l + 1) l)) ;;;
  set_buf b (λ x, set_b_flags (Z.lor (b_flags x) B_DIRTY) x) ;;;
  release L_log.

End Log.

Arguments readsb : simpl never.
Arguments get_log : simpl never.
Arguments set_log : simpl never.
Arguments lh_block : simpl never.
Arguments set_lh_block : simpl never.
Arguments install_trans : simpl never.
Arguments write_log : simpl never.
Arguments read_head : simpl never.
Arguments write_head : simpl never.
Arguments log_write : simpl never.
Arguments log_find : simpl never.
