(* ===== verification/LogLaw.v ===== *)
(** The log makes a transaction atomic: for code that runs alone over the disk
    in memory, what [commit], [initlog] and recovery write to the disk, and what
    is on it when the machine stops between any two of those writes. *)
From S2P Require Import Prelude Mem KState Spinlock Sched Sleeplock Layout Bio BioLaw Log.

Section LogLaws.
Context {W : Type} (i : nat) (p : proc) (D0 : disk) (size : Z) (Hsize : 0 ≤ size < 2^31).
Context (fuel : nat) (Hfuel : (0 < fuel)%nat).
Implicit Types (s : kst W) (C : disk) (P : gset Z) (H : gmap Z nat) (bl : list Z).

Abbreviation bio := (bio i p D0 size).

Definition log_of (s : kst W) : log := fs_log (k_fs s).
Definition with_log (l : log) (s : kst W) : kst W := set_k_fs (set_fs_log l (k_fs s)) s.

Lemma keeps_log s s' : keeps s s' → log_of s' = log_of s.
Proof. intros [[=] _]. done. Qed.

Lemma bio_with_log h C P H l s : bio h C P H s → bio h C P H (with_log l s).
Proof. intros [A B D E F G]. split; try done. by apply (krun_frame _ _ _ _ s). Qed.

Lemma bio_ext h C C' P H s : (∀ n, C' n = C n) → bio h C P H s → bio h C' P H s.
Proof.
  intros HC [A [R B U Pi He Cl] D E F G]. split; try done; [|intros n; by rewrite HC].
  split; [done| |done|done|done|intros n; rewrite HC; apply Cl].
  intros b x Hlt Hx. destruct (B b x Hlt Hx) as [B1 B2 B3]. split; [|done|done].
  intros H1. rewrite HC. by apply B1.
Qed.

Lemma lh_block_eq k v s : lg_block (log_of s) !! k = Some v → lh_block (Z.of_nat k) s = Done v s.
Proof. intros Hk. unfold lh_block, get_log. mstep. rewrite Nat2Z.id. unfold log_of in Hk. by rewrite Hk. Qed.

(** ** Where the log is

    [start] is the header block; the log blocks follow it.  The blocks [bl] of a
    transaction lie outside of the log. *)
Context (start lsize : Z) (Hlog : 0 ≤ start ∧ start + lsize ≤ size ∧ 0 < lsize).

Definition in_log (n : Z) : Prop := start ≤ n < start + lsize.
Definition slot (k : nat) : Z := start + Z.of_nat k + 1.

Record trans_ok (bl : list Z) : Prop := {
  to_nodup : NoDup bl;
  to_home b : b ∈ bl → 0 ≤ b < size ∧ ¬ in_log b;
  to_fits : Z.of_nat (length bl) < lsize;
  to_room : (length bl < NBUF)%nat;
}.

(** The in-memory log describes the transaction [bl]. *)
Record lh_ok (bl : list Z) (l : log) : Prop := {
  lo_start : lg_start l = start;
  lo_dev : lg_dev l = 1;
  lo_n : lg_n l = Z.of_nat (length bl);
  lo_block : take (length bl) (lg_block l) = bl;
  lo_len : length (lg_block l) = Z.to_nat LOGSIZE;
}.

Lemma slot_range bl k : trans_ok bl → (k < length bl)%nat → 0 ≤ slot k < size ∧ in_log (slot k).
Proof. intros [A B Cc D] Hk. unfold slot, in_log. lia. Qed.

Lemma lh_block_bl bl k s : lh_ok bl (log_of s) → (k < length bl)%nat →
  lh_block (Z.of_nat k) s = Done (bl !!! k) s.
Proof.
  intros [A B Cc D E] Hk. apply lh_block_eq. rewrite <- (lookup_take_lt _ (length bl)) by done.
  rewrite D. by apply list_lookup_lookup_total_lt.
Qed.

(** Blocks are small enough to be the same as [int] and as [uint]. *)
Lemma u32_block n : 0 ≤ n < size → u32 n = n.
Proof. intros. apply u32_id. lia. Qed.
Lemma s32_block n : 0 ≤ n < size → s32 n = n.
Proof. intros. apply s32_id. lia. Qed.

(** ** Copying blocks *)
Fixpoint log_writes (C : disk) (bl : list Z) (k : nat) : list (Z * list Z) :=
  match k with O => [] | S k' => (slot k', C (bl !!! k')) :: log_writes C bl k' end.
Definition logged (C : disk) (bl : list Z) (k : nat) : disk := play C (log_writes C bl k).

Fixpoint inst_writes (C : disk) (bl : list Z) (k : nat) : list (Z * list Z) :=
  match k with O => [] | S k' => (bl !!! k', C (slot k')) :: inst_writes C bl k' end.
Definition installed (C : disk) (bl : list Z) (k : nat) : disk := play C (inst_writes C bl k).

(** Writes of log blocks over any disk, and of home blocks over any disk. *)
Lemma play_log_out D C bl k m : (∀ j, (j < k)%nat → m ≠ slot j) → play D (log_writes C bl k) m = D m.
Proof.
  induction k as [|k IH]; intros Hm; [done|]. cbn [log_writes play foldr fst snd].
  rewrite dupd_ne by (apply Hm; lia). apply IH. intros j Hj. apply Hm. lia.
Qed.
Lemma play_log_slot D C bl k j : (j < k)%nat → play D (log_writes C bl k) (slot j) = C (bl !!! j).
Proof.
  induction k as [|k IH]; intros Hj; [lia|]. cbn [log_writes play foldr fst snd].
  destruct (decide (j = k)) as [->|]; [by rewrite dupd_eq|].
  rewrite dupd_ne by (unfold slot; lia). apply IH. lia.
Qed.
Lemma play_inst_out D C bl k m : (∀ j, (j < k)%nat → m ≠ bl !!! j) → play D (inst_writes C bl k) m = D m.
Proof.
  induction k as [|k IH]; intros Hm; [done|]. cbn [inst_writes play foldr fst snd].
  rewrite dupd_ne by (apply Hm; lia). apply IH. intros j Hj. apply Hm. lia.
Qed.
Lemma play_inst_home D C bl k j :
  NoDup bl → (j < k)%nat → (k ≤ length bl)%nat → play D (inst_writes C bl k) (bl !!! j) = C (slot j).
Proof.
  intros Hnd. induction k as [|k IH]; intros Hj Hk; [lia|]. cbn [inst_writes play foldr fst snd].
  destruct (decide (j = k)) as [->|]; [by rewrite dupd_eq|].
  rewrite dupd_ne; [apply IH; lia|]. intros E.
  pose proof (list_lookup_lookup_total_lt bl j ltac:(lia)) as Hx.
  pose proof (list_lookup_lookup_total_lt bl k ltac:(lia)) as Hy. rewrite E in Hx.
  pose proof (NoDup_lookup _ _ _ _ Hnd Hx Hy). lia.
Qed.

Lemma logged_out C bl k m : (∀ j, (j < k)%nat → m ≠ slot j) → logged C bl k m = C m.
Proof. apply play_log_out. Qed.
Lemma logged_slot C bl k j : (j < k)%nat → logged C bl k (slot j) = C (bl !!! j).
Proof. apply play_log_slot. Qed.
Lemma installed_out C bl k m : (∀ j, (j < k)%nat → m ≠ bl !!! j) → installed C bl k m = C m.
Proof. apply play_inst_out. Qed.
Lemma installed_home C bl k j :
  NoDup bl → (j < k)%nat → (k ≤ length bl)%nat → installed C bl k (bl !!! j) = C (slot j).
Proof. apply play_inst_home. Qed.

Lemma get_log_eq s : get_log s = Done (log_of s) s.
Proof. done. Qed.

Lemma in_bl bl k : (k < length bl)%nat → bl !!! k ∈ bl.
Proof. intros Hk. apply list_elem_of_lookup_2 with k. by apply list_lookup_lookup_total_lt. Qed.

(** Step over an operation of the cache. *)
Ltac keeps_chain := repeat (first [eassumption|etrans; [eassumption|]]).
Tactic Notation "bio_then" uconstr(lem) := eapply wp_then; [eapply lem|].

Lemma write_log_body_ok h C P bl k s :
  bio h C P ∅ s → trans_ok bl → lh_ok bl (log_of s) → (k < length bl)%nat →
  (∀ b, b ∈ bl → b ∈ P) → (base.size P < NBUF)%nat → (∀ n, in_log n → n ∉ P) →
  wp alone (write_log_body fuel (Z.of_nat k) s) (λ _ s',
    bio ((slot k, C (bl !!! k)) :: h) (dupd (slot k) (C (bl !!! k)) C) P ∅ s' ∧ keeps s s').
Proof.
  intros Hb Ht Hl Hk HP Hroom HlogP. destruct (slot_range bl k Ht Hk) as [Hs1 Hs2].
  destruct (to_home bl Ht _ (in_bl bl k Hk)) as [Hb1 Hb2].
  assert (slot k ≠ bl !!! k) as Hne by (intros E; by rewrite <- E in Hb2).
  unfold write_log_body. mstep. rewrite get_log_eq. mstep. rewrite (lo_dev _ _ Hl), (lo_start _ _ Hl).
  fold (slot k). rewrite (u32_block (slot k)) by done. change (u32 1) with 1.
  bio_then bread_ok; [done|done|done|by apply lookup_empty|done|right; by rewrite dom_empty_L, union_empty_r_L|].
  intros to s1 [Hb3 Hk1]. mstep. rewrite get_log_eq. mstep.
  assert (lh_ok bl (log_of s1)) as Hl1 by (by rewrite (keeps_log s)).
  rewrite (lh_block_bl bl k) by done. mstep. rewrite (lo_dev _ _ Hl1), (u32_block (bl !!! k)) by done. change (u32 1) with 1.
  bio_then bread_ok; [done|done|done|by rewrite lookup_insert_ne, lookup_empty|done|left; by apply HP, in_bl|].
  intros from s2 [Hb4 Hk2]. mstep.
  destruct (bio_holds _ _ _ _ _ _ _ _ _ (bl !!! k) from Hb4) as (x & Hx & _ & _ & Hd & _); [by rewrite lookup_insert_eq|].
  rewrite (get_buf_eq from x) by done. mstep. rewrite Hd.
  eapply wp_then; [eapply (store_ok i p D0 size h C P _ s2 (slot k) to (λ _, C (bl !!! k))); [done| |apply Hb]|].
  { by rewrite lookup_insert_ne, lookup_insert_eq. }
  intros [] s3 [Hb5 Hk3]. mstep.
  bio_then bwrite_ok; [done|exact Hb5|by rewrite lookup_insert_ne, lookup_insert_eq|done|].
  intros [] s4 [Hb6 Hk4]. mstep. rewrite dupd_eq in Hb6.
  assert (P ∖ {[slot k]} = P) as EP by (apply difference_disjoint_L; specialize (HlogP _ Hs2); set_solver).
  rewrite EP in Hb6.
  bio_then brelse_ok; [done|exact Hb6|by rewrite lookup_insert_eq|left; by apply HP, in_bl|].
  intros [] s5 [Hb7 Hk5]. rewrite delete_insert_id in Hb7 by (by rewrite lookup_insert_ne, lookup_empty).
  eapply wp_mono; [|eapply brelse_ok; [done|exact Hb7|by rewrite lookup_insert_eq|right; cbn; by rewrite !dupd_eq]].
  intros [] s6 [Hb8 Hk6]. rewrite delete_insert_id in Hb8 by apply lookup_empty. split; [done|]. keeps_chain.
Qed.

Lemma write_log_ok h C P bl s :
  bio h C P ∅ s → trans_ok bl → lh_ok bl (log_of s) →
  (∀ b, b ∈ bl → b ∈ P) → (base.size P < NBUF)%nat → (∀ n, in_log n → n ∉ P) →
  wp alone (write_log fuel s) (λ _ s',
    bio (log_writes C bl (length bl) ++ h) (logged C bl (length bl)) P ∅ s' ∧ keeps s s').
Proof.
  intros Hb Ht Hl HP Hroom HlogP. unfold write_log. mstep. rewrite get_log_eq. mstep. rewrite (lo_n _ _ Hl).
  apply (for_each_count alone (λ k s', bio (log_writes C bl k ++ h) (logged C bl k) P ∅ s' ∧ keeps s s')); [done|].
  intros k s1 Hk [Hb1 Hk1]. eapply wp_mono; [|eapply (write_log_body_ok _ _ _ bl); try done; by rewrite (keeps_log s)].
  intros [] s2 [Hb2 Hk2]. rewrite logged_out in Hb2; [split; [done|by etrans]|].
  intros j Hj E. destruct (to_home bl Ht _ (in_bl bl k Hk)) as [_ Hh]. rewrite E in Hh. apply Hh.
  eapply slot_range; [done|]. lia.
Qed.

(** ** Installing *)
Lemma install_body_ok h C P bl k s :
  bio h C P ∅ s → trans_ok bl → lh_ok bl (log_of s) → (k < length bl)%nat →
  bl !!! k ∈ P ∨ (base.size P + 1 < NBUF)%nat → (base.size P < NBUF)%nat → slot k ∉ P →
  wp alone (install_body fuel (Z.of_nat k) s) (λ _ s',
    bio ((bl !!! k, C (slot k)) :: h) (dupd (bl !!! k) (C (slot k)) C) (P ∖ {[ bl !!! k ]}) ∅ s' ∧ keeps s s').
Proof.
  intros Hb Ht Hl Hk HP Hroom Hsl. destruct (slot_range bl k Ht Hk) as [Hs1 Hs2].
  destruct (to_home bl Ht _ (in_bl bl k Hk)) as [Hb1 Hb2].
  assert (slot k ≠ bl !!! k) as Hne by (intros E; by rewrite <- E in Hb2).
  assert (C (slot k) = play D0 h (slot k)) as HC by (by eapply ca_clean; [apply Hb|..]).
  unfold install_body. mstep. rewrite get_log_eq. mstep. rewrite (lo_dev _ _ Hl), (lo_start _ _ Hl).
  fold (slot k). rewrite (u32_block (slot k)) by done. change (u32 1) with 1.
  bio_then bread_ok; [done|done|done|by apply lookup_empty|done|right; by rewrite dom_empty_L, union_empty_r_L|].
  intros to s1 [Hb3 Hk1]. mstep. rewrite get_log_eq. mstep.
  assert (lh_ok bl (log_of s1)) as Hl1 by (by rewrite (keeps_log s)).
  rewrite (lh_block_bl bl k) by done. mstep. rewrite (lo_dev _ _ Hl1), (u32_block (bl !!! k)) by done. change (u32 1) with 1.
  bio_then bread_ok; [done|done|done|by rewrite lookup_insert_ne, lookup_empty|done| |].
  { destruct HP as [HP|HP]; [by left|right]. rewrite insert_empty, dom_singleton_L.
    rewrite size_union by set_solver. rewrite size_singleton. lia. }
  intros from s2 [Hb4 Hk2]. mstep.
  destruct (bio_holds _ _ _ _ _ _ _ _ _ (slot k) to Hb4) as (x & Hx & _ & _ & Hd & _);
    [by rewrite lookup_insert_ne, lookup_insert_eq|].
  rewrite (get_buf_eq to x) by done. mstep. rewrite Hd.
  eapply wp_then; [eapply (store_ok i p D0 size h C P _ s2 (bl !!! k) from (λ _, C (slot k))); [done| |apply Hb]|].
  { by rewrite lookup_insert_eq. }
  intros [] s3 [Hb5 Hk3]. mstep.
  bio_then bwrite_ok; [done|exact Hb5|by rewrite lookup_insert_eq|done|].
  intros [] s4 [Hb6 Hk4]. mstep. rewrite dupd_eq in Hb6.
  bio_then brelse_ok; [done|exact Hb6|by rewrite lookup_insert_ne, lookup_insert_eq| |].
  { right. cbn. by rewrite !dupd_ne. }
  intros [] s5 [Hb7 Hk5]. rewrite delete_insert_ne, delete_insert_id in Hb7 by (done || apply lookup_empty).
  eapply wp_mono; [|eapply brelse_ok; [done|exact Hb7|by rewrite lookup_insert_eq|right; cbn; by rewrite !dupd_eq]].
  intros [] s6 [Hb8 Hk6]. rewrite delete_insert_id in Hb8 by apply lookup_empty. split; [done|]. keeps_chain.
Qed.

Lemma take_S_in bl k (P : gset Z) :
  (k < length bl)%nat → P ∖ list_to_set (take (S k) bl) = P ∖ list_to_set (take k bl) ∖ {[ bl !!! k ]}.
Proof.
  intros Hk. rewrite (take_S_r _ _ (bl !!! k)) by (by apply list_lookup_lookup_total_lt).
  rewrite list_to_set_app_L. cbn. rewrite union_empty_r_L. set_solver.
Qed.

Lemma not_in_take bl k : NoDup bl → (k < length bl)%nat → bl !!! k ∉ take k bl.
Proof.
  intros Hnd Hk Hin. apply list_elem_of_lookup_1 in Hin as [j Hj]. pose proof (lookup_lt_Some _ _ _ Hj) as Hjl.
  rewrite length_take in Hjl. rewrite lookup_take_lt in Hj by lia.
  pose proof (NoDup_lookup _ _ _ _ Hnd Hj (list_lookup_lookup_total_lt _ _ Hk)). lia.
Qed.

Lemma install_trans_ok h C P bl s :
  bio h C P ∅ s → trans_ok bl → lh_ok bl (log_of s) →
  (∀ b, b ∈ bl → b ∈ P) ∨ P = ∅ → (base.size P < NBUF)%nat → (∀ n, in_log n → n ∉ P) →
  wp alone (install_trans fuel s) (λ _ s',
    bio (inst_writes C bl (length bl) ++ h) (installed C bl (length bl)) (P ∖ list_to_set bl) ∅ s' ∧ keeps s s').
Proof.
  intros Hb Ht Hl HP Hroom HlogP. unfold install_trans. mstep. rewrite get_log_eq. mstep. rewrite (lo_n _ _ Hl).
  set (I k s' := bio (inst_writes C bl k ++ h) (installed C bl k) (P ∖ list_to_set (take k bl)) ∅ s' ∧ keeps s s').
  assert (I (length bl) = λ s', bio (inst_writes C bl (length bl) ++ h) (installed C bl (length bl))
    (P ∖ list_to_set bl) ∅ s' ∧ keeps s s') as <- by (unfold I; by rewrite firstn_all).
  apply (for_each_count alone I).
  { split; [|done]. assert (P ∖ list_to_set (take 0 bl) = P) as -> by set_solver. exact Hb. }
  intros k s1 Hk [Hb1 Hk1]. destruct (slot_range bl k Ht Hk) as [_ Hin].
  assert (base.size (P ∖ list_to_set (take k bl)) ≤ base.size P)%nat as Hle by (apply subseteq_size; set_solver).
  eapply wp_mono; [|eapply (install_body_ok _ _ _ bl); [done|done|by rewrite (keeps_log s)|done| |lia|]].
  - intros [] s2 [Hb2 Hk2]. unfold I. rewrite take_S_in by done. split; [|by etrans].
    rewrite installed_out in Hb2; [done|]. intros j Hj E.
    destruct (to_home bl Ht (bl !!! j)) as [_ Hh]; [apply in_bl; lia|]. by rewrite <- E in Hh.
  - destruct HP as [HP| ->].
    + left. apply elem_of_difference. split; [by apply HP, in_bl|]. rewrite elem_of_list_to_set.
      apply not_in_take; [apply Ht|done].
    + right. rewrite size_empty in Hle. unfold NBUF. lia.
  - specialize (HlogP _ Hin). set_solver.
Qed.

(** ** The header block *)
Fixpoint put_blocks (bl : list Z) (k : nat) (d : list Z) : list Z :=
  match k with O => d | S k' => put_word (4 + 4 * k') (bl !!! k') (put_blocks bl k' d) end.
Definition header (bl : list Z) (d : list Z) : list Z :=
  put_blocks bl (length bl) (put_word 0 (Z.of_nat (length bl)) d).

(** What a header block says. *)
Definition hdr_n (d : list Z) : Z := s32 (word 0 d).
Definition hdr_block (d : list Z) (k : nat) : Z := s32 (word (4 + 4 * k) d).

Lemma length_put_blocks bl k d : length (put_blocks bl k d) = length d.
Proof. induction k as [|k IH]; [done|]. cbn [put_blocks]. by rewrite length_put_word. Qed.

Lemma put_blocks_word bl k d off :
  (off + 4 ≤ length d)%nat → (∀ j, (j < k)%nat → (off + 4 ≤ 4 + 4 * j ∨ 4 + 4 * j + 4 ≤ off)%nat) →
  word off (put_blocks bl k d) = word off d.
Proof.
  intros Hl. induction k as [|k IH]; intros Ho; [done|]. cbn [put_blocks].
  rewrite word_put_ne; [apply IH; intros; apply Ho; lia|by rewrite length_put_blocks|apply Ho; lia].
Qed.

Lemma header_n bl d : length d = Z.to_nat BSIZE → (length bl < NBUF)%nat → hdr_n (header bl d) = Z.of_nat (length bl).
Proof.
  intros Hd Hl. unfold BSIZE, NBUF in *. unfold hdr_n, header. rewrite put_blocks_word.
  - rewrite word_put_word by lia. rewrite s32_u32, s32_id; lia.
  - rewrite length_put_word. lia.
  - intros. lia.
Qed.

Lemma header_block bl d k :
  length d = Z.to_nat BSIZE → (length bl < NBUF)%nat → (k < length bl)%nat →
  0 ≤ bl !!! k < 2^31 → hdr_block (header bl d) k = bl !!! k.
Proof.
  intros Hd Hl Hk Hb. unfold BSIZE, NBUF in *. unfold hdr_block, header.
  assert (∀ m d', (k < m ≤ length bl)%nat → length d' = 512%nat →
    word (4 + 4 * k) (put_blocks bl m d') = u32 (bl !!! k)) as Hw.
  { induction m as [|m IH]; intros d' Hm Hd'; [lia|]. cbn [put_blocks].
    destruct (decide (k = m)) as [->|].
    - rewrite word_put_word; [done|]. rewrite length_put_blocks. lia.
    - rewrite word_put_ne; [apply IH; [lia|done]|rewrite length_put_blocks; lia|lia]. }
  rewrite Hw; [rewrite s32_u32, s32_id; lia|lia|]. rewrite length_put_word. lia.
Qed.

Lemma dupd_dupd n v w C m : dupd n v (dupd n w C) m = dupd n v C m.
Proof. unfold dupd. by destruct (decide (m = n)). Qed.

Lemma dupd_same n C m : dupd n (C n) C m = C m.
Proof. unfold dupd. by destruct (decide (m = n)) as [->|]. Qed.

Lemma start_range : 0 ≤ start < size ∧ in_log start.
Proof. unfold in_log. lia. Qed.

Lemma write_head_ok h C P bl s :
  bio h C P ∅ s → (length bl < NBUF)%nat → lh_ok bl (log_of s) → (base.size P < NBUF)%nat → start ∉ P →
  wp alone (write_head fuel s) (λ _ s',
    bio ((start, header bl (C start)) :: h) (dupd start (header bl (C start)) C) P ∅ s' ∧ keeps s s').
Proof.
  intros Hb Hnb Hl Hroom Hst. destruct start_range as [Hs1 Hs2]. pose proof (bio_len _ _ _ _ _ _ _ _ _ Hb) as HlenC.
  unfold write_head. mstep. rewrite get_log_eq. mstep. rewrite (lo_dev _ _ Hl), (lo_start _ _ Hl).
  rewrite (u32_block start) by done. change (u32 1) with 1.
  bio_then bread_ok; [done|done|done|by apply lookup_empty|done|right; by rewrite dom_empty_L, union_empty_r_L|].
  intros b s1 [Hb1 Hk1]. mstep. rewrite get_log_eq. mstep. rewrite (keeps_log s s1) by done.
  bio_then (store_ok i p D0 size h C P _ s1 start b (put_word 0 (lg_n (log_of s))));
    [done|by rewrite lookup_insert_eq|by rewrite length_put_word|].
  intros [] s2 [Hb2 Hk2]. mstep. rewrite (lo_n _ _ Hl) in *.
  set (d0 := put_word 0 (Z.of_nat (length bl)) (C start)) in *.
  bio_then (for_each_count alone (λ k s', bio h (dupd start (put_blocks bl k d0) C) P (<[start := b]> ∅) s' ∧ keeps s s')).
  { split; [done|by etrans]. }
  { intros k s3 Hk [Hb3 Hk3]. mstep. rewrite (lh_block_bl bl k) by (done || by rewrite (keeps_log s)). mstep.
    replace (Z.to_nat (4 + 4 * Z.of_nat k)) with (4 + 4 * k)%nat by lia.
    eapply wp_mono; [|eapply (store_ok i p D0 size h _ P _ s3 start b (put_word (4 + 4 * k) (bl !!! k)));
      [exact Hb3|by rewrite lookup_insert_eq|]].
    - intros [] s4 [Hb4 Hk4]. split; [|by etrans]. eapply bio_ext; [|exact Hb4]. intros m.
      rewrite dupd_dupd, dupd_eq. done.
    - rewrite length_put_word, dupd_eq, length_put_blocks. unfold d0. by rewrite length_put_word. }
  intros [] s3 [Hb3 Hk3]. mstep. fold (header bl (C start)) in Hb3.
  bio_then bwrite_ok; [done|exact Hb3|by rewrite lookup_insert_eq|done|].
  intros [] s4 [Hb4 Hk4]. rewrite dupd_eq, difference_disjoint_L in Hb4 by set_solver.
  eapply wp_mono; [|eapply brelse_ok; [done|exact Hb4|by rewrite lookup_insert_eq|right; cbn; by rewrite !dupd_eq]].
  intros [] s5 [Hb5 Hk5]. rewrite delete_insert_id in Hb5 by apply lookup_empty. split; [done|].
  etrans; [exact Hk3|]. by etrans.
Qed.

(** ** Recovery *)

(** What the log never touches. *)
Definition lkeeps (s s' : kst W) : Prop :=
  (core s', fs_sb (k_fs s'), fs_inodes (k_fs s')) = (core s, fs_sb (k_fs s), fs_inodes (k_fs s)) ∧
  ∀ k, (NBUF < k)%nat → slock k s' = slock k s.

#[export] Instance lkeeps_refl : Reflexive lkeeps.
Proof. by split. Qed.
#[export] Instance lkeeps_trans : Transitive lkeeps.
Proof. intros s1 s2 s3 [A B] [A' B']. split; [congruence|]. intros k Hk. rewrite B', B; done. Qed.
Lemma keeps_lkeeps s s' : keeps s s' → lkeeps s s'.
Proof. intros [E B]. split; [|done]. exact (f_equal (λ r, (r.1.1.1, r.1.2, r.2)) E). Qed.
Lemma with_log_lkeeps l s : lkeeps s (with_log l s).
Proof. done. Qed.

Lemma set_log_eq f s : set_log f s = Done tt (with_log (f (log_of s)) s).
Proof. done. Qed.
Lemma log_of_with l s : log_of (with_log l s) = l.
Proof. done. Qed.

Lemma set_lh_block_eq k v s : (k < length (lg_block (log_of s)))%nat →
  set_lh_block (Z.of_nat k) v s = Done tt (with_log (set_lg_block (<[k := v]> (lg_block (log_of s))) (log_of s)) s).
Proof.
  intros Hk. unfold set_lh_block. mstep. rewrite get_log_eq. mstep.
  destruct (Z.ltb_spec (Z.of_nat k) (Z.of_nat (length (lg_block (log_of s))))); [|lia].
  by rewrite set_log_eq, Nat2Z.id.
Qed.

Definition hdr_list (d : list Z) : list Z := hdr_block d <$> seq 0 (Z.to_nat (hdr_n d)).

Lemma length_hdr_list d : length (hdr_list d) = Z.to_nat (hdr_n d).
Proof. unfold hdr_list. by rewrite length_fmap, length_seq. Qed.
Lemma hdr_list_lookup d k : (k < Z.to_nat (hdr_n d))%nat → hdr_list d !! k = Some (hdr_block d k).
Proof. intros Hk. unfold hdr_list. by rewrite list_lookup_fmap, lookup_seq_lt. Qed.

Lemma hdr_list_header bl d :
  length d = Z.to_nat BSIZE → trans_ok bl → hdr_list (header bl d) = bl.
Proof.
  intros Hd Ht. pose proof (to_room _ Ht) as Hr.
  apply list_eq_same_length with (length bl); [done|rewrite length_hdr_list, header_n by done; lia|].
  intros k x y Hk. rewrite hdr_list_lookup by (rewrite header_n by done; lia).
  rewrite header_block; [|done|done|done|destruct (to_home _ Ht _ (in_bl bl k Hk)); lia].
  rewrite list_lookup_lookup_total_lt by done. congruence.
Qed.

(** The fields of the log that [initlog] sets up. *)
Definition log_at (l : log) : Prop :=
  lg_start l = start ∧ lg_dev l = 1 ∧ length (lg_block l) = Z.to_nat LOGSIZE.

Lemma take_insert_S (l : list Z) k v : (k < length l)%nat → take (S k) (<[k := v]> l) = take k l ++ [v].
Proof.
  intros Hk. rewrite (take_S_r _ _ v) by (by apply list_lookup_insert_eq). by rewrite take_insert_ge.
Qed.

Lemma read_head_ok h C P s :
  bio h C P ∅ s → log_at (log_of s) → 0 ≤ hdr_n (C start) < Z.of_nat NBUF →
  (base.size P < NBUF)%nat → start ∉ P →
  wp alone (read_head fuel s) (λ _ s',
    bio h C P ∅ s' ∧ lh_ok (hdr_list (C start)) (log_of s') ∧ lkeeps s s' ∧
    ∃ bk, log_of s' = set_lg_block bk (set_lg_n (hdr_n (C start)) (log_of s))).
Proof.
  intros Hb (Hl1 & Hl2 & Hl3) Hn Hroom Hst. destruct start_range as [Hs1 Hs2].
  assert (C start = play D0 h start) as HC by (by eapply ca_clean; [apply Hb|..]).
  unfold read_head. mstep. rewrite get_log_eq. mstep. rewrite Hl1, Hl2.
  rewrite (u32_block start) by done. change (u32 1) with 1.
  bio_then bread_ok; [done|done|done|by apply lookup_empty|done|right; by rewrite dom_empty_L, union_empty_r_L|].
  intros b s1 [Hb1 Hk1]. mstep.
  destruct (bio_holds _ _ _ _ _ _ _ _ _ start b Hb1) as (x & Hx & _ & _ & Hd & _); [by rewrite lookup_insert_eq|].
  rewrite (get_buf_eq b x) by done. mstep. rewrite Hd, set_log_eq. mstep. set (s2 := with_log _ s1).
  fold (hdr_n (C start)). set (n := hdr_n (C start)) in *. rewrite <- (Z2Nat.id n) at 1 by lia.
  pose proof (keeps_log _ _ Hk1) as El.
  bio_then (for_each_count alone (λ k s', bio h C P (<[start := b]> ∅) s' ∧ lkeeps s1 s' ∧
    ∃ bk, log_of s' = set_lg_block bk (set_lg_n n (log_of s)) ∧ length bk = Z.to_nat LOGSIZE ∧
      take k bk = take k (hdr_list (C start)))).
  { split; [by apply bio_with_log|]. split; [done|]. exists (lg_block (log_of s)). split; [|done].
    unfold s2. rewrite log_of_with, El. by destruct (log_of s). }
  { intros k s3 Hk (Hb3 & Hk3 & bk & E1 & E2 & E3). rewrite set_lh_block_eq.
    2: { rewrite E1. cbn. rewrite E2. unfold LOGSIZE, MAXOPBLOCKS, NBUF in *. lia. }
    cbn. split; [by apply bio_with_log|]. split; [by etrans|]. rewrite E1. cbn.
    replace (Z.to_nat (4 + 4 * Z.of_nat k)) with (4 + 4 * k)%nat by lia. fold (hdr_block (C start) k).
    eexists. split; [done|]. split; [by rewrite length_insert|].
    rewrite take_insert_S by (unfold LOGSIZE, MAXOPBLOCKS, NBUF in *; lia).
    rewrite (take_S_r (hdr_list _) _ (hdr_block (C start) k)) by (by apply hdr_list_lookup). by rewrite E3. }
  intros [] s3 (Hb3 & Hk3 & bk & E1 & E2 & E3).
  eapply wp_mono; [|eapply brelse_ok; [done|exact Hb3|by rewrite lookup_insert_eq|by right]].
  intros [] s4 [Hb4 Hk4]. rewrite delete_insert_id in Hb4 by apply lookup_empty. split; [done|].
  pose proof (keeps_log _ _ Hk4) as El4. rewrite El4. split; [|split].
  - rewrite E1. split; cbn; [done|done|rewrite length_hdr_list; fold n; lia| |done].
    rewrite length_hdr_list. fold n. rewrite E3. apply firstn_all2. rewrite length_hdr_list. done.
  - etrans; [by apply keeps_lkeeps|]. etrans; [done|]. by apply keeps_lkeeps.
  - by eexists.
Qed.

(** What recovery writes to a disk with contents [C], and what it leaves there. *)
Definition clear_hdr (C : disk) : list Z := header [] (C start).
Definition rec_writes (C : disk) : list (Z * list Z) :=
  (start, clear_hdr C) :: inst_writes C (hdr_list (C start)) (length (hdr_list (C start))).
Definition recovered (C : disk) : disk := play C (rec_writes C).

Lemma lh_ok_nil bl l : lh_ok bl l → lh_ok [] (set_lg_n 0 l).
Proof. intros [A B Cc D E]. by split. Qed.

Lemma installed_start C bl : trans_ok bl → installed C bl (length bl) start = C start.
Proof.
  intros Ht. apply installed_out. intros j Hj E.
  destruct (to_home bl Ht _ (in_bl bl j Hj)) as [_ Hh]. rewrite <- E in Hh. by apply Hh, start_range.
Qed.

Lemma recover_from_log_ok h C s :
  bio h C ∅ ∅ s → log_at (log_of s) → 0 ≤ hdr_n (C start) → trans_ok (hdr_list (C start)) →
  wp alone (recover_from_log fuel s) (λ _ s',
    bio (rec_writes C ++ h) (recovered C) ∅ ∅ s' ∧ lh_ok [] (log_of s') ∧ lkeeps s s').
Proof.
  intros Hb Hl Hn Ht. assert ((base.size (∅ : gset Z) < NBUF)%nat) as Hz by (rewrite size_empty; unfold NBUF; lia).
  pose proof (to_room _ Ht) as Hr. rewrite length_hdr_list in Hr. set (bl := hdr_list (C start)) in *.
  unfold recover_from_log. mstep. bio_then read_head_ok; [done|done|lia|done|set_solver|].
  intros [] s1 (Hb1 & Hl1 & Hk1 & _). fold bl in Hl1. mstep.
  bio_then install_trans_ok; [done|done|done|by right|done|set_solver|].
  intros [] s2 [Hb2 Hk2]. mstep. rewrite set_log_eq. mstep.
  assert (lh_ok [] (log_of (with_log (set_lg_n 0 (log_of s2)) s2))) as Hl2.
  { rewrite log_of_with. eapply lh_ok_nil. by rewrite (keeps_log s1). }
  assert (∅ ∖ list_to_set bl = (∅ : gset Z)) as E0 by set_solver. rewrite E0 in Hb2.
  eapply wp_mono; [|eapply (write_head_ok _ _ _ []); [by apply bio_with_log|cbn; unfold NBUF; lia|done|done|set_solver]].
  intros [] s3 [Hb3 Hk3]. rewrite (keeps_log _ _ Hk3). split; [|split; [done|]].
  - rewrite installed_start in Hb3 by done. exact Hb3.
  - etrans; [done|]. etrans; [by apply keeps_lkeeps|]. etrans; [apply with_log_lkeeps|]. by apply keeps_lkeeps.
Qed.

(** ** Start-up *)
Lemma krun_initlock ls l name s : krun [] ls i p s → krun [] ls i p (upd_lock l (mkLock 0 name None) s).
Proof.
  intros [[A B Cc D E] Wf Cu Lk Ch Se]. split; try done.
  - split; cbn; [|set_solver|done|done|done]. intros l' lk. destruct (decide (l' = l)) as [->|].
    + rewrite lookup_insert_eq. by intros [= <-].
    + rewrite lookup_insert_ne by done. apply A.
  - by apply (wf_frame s).
  - intros l' Hl'. cbn. rewrite lookup_insert_is_Some'. auto.
Qed.

Lemma bio_initlock h C P H l name s : bio h C P H s → bio h C P H (upd_lock l (mkLock 0 name None) s).
Proof. intros [A B D E F G]. split; try done. by apply krun_initlock. Qed.

Lemma readsb_ok h C P s :
  bio h C P ∅ s → 1 < size → (base.size P < NBUF)%nat →
  wp alone (readsb fuel 1 s) (λ r s', r = sb_of_bytes (C 1) ∧ bio h C P ∅ s' ∧ keeps s s').
Proof.
  intros Hb Hs Hroom. unfold readsb. mstep. change (u32 1) with 1.
  bio_then bread_ok; [done|done|done|by apply lookup_empty|lia|right; by rewrite dom_empty_L, union_empty_r_L|].
  intros b s1 [Hb1 Hk1]. mstep.
  destruct (bio_holds _ _ _ _ _ _ _ _ _ 1 b Hb1) as (x & Hx & _ & _ & Hd & _); [by rewrite lookup_insert_eq|].
  rewrite (get_buf_eq b x) by done. mstep.
  bio_then brelse_ok; [done|exact Hb1|by rewrite lookup_insert_eq| |].
  { destruct (decide (1 ∈ P)); [by left|right]. by eapply ca_clean; [apply Hb|..]. }
  intros [] s2 [Hb2 Hk2]. rewrite delete_insert_id in Hb2 by apply lookup_empty. cbn. rewrite Hd.
  split; [done|]. split; [done|]. by etrans.
Qed.

(** The superblock says where the log is. *)
Definition sb_ok (C : disk) : Prop :=
  sb_logstart (sb_of_bytes (C 1)) = start ∧ sb_nlog (sb_of_bytes (C 1)) = lsize.

Lemma initlog_ok h C s :
  bio h C ∅ ∅ s → sb_ok C → 1 < size → length (lg_block (log_of s)) = Z.to_nat LOGSIZE →
  0 ≤ hdr_n (C start) → trans_ok (hdr_list (C start)) →
  wp alone (initlog fuel 1 s) (λ _ s',
    bio (rec_writes C ++ h) (recovered C) ∅ ∅ s' ∧ lh_ok [] (log_of s') ∧ lkeeps s s').
Proof.
  intros Hb [Hsb1 Hsb2] Hs Hll Hn Ht. unfold initlog, initlock.
  change (BSIZE <=? 4 + 4 * LOGSIZE) with false. mstep.
  bio_then (readsb_ok h C ∅); [by apply bio_initlock|done|rewrite size_empty; unfold NBUF; lia|].
  intros sb s1 (-> & Hb1 & Hk1). mstep. rewrite !set_log_eq. mstep. rewrite !set_log_eq. mstep.
  rewrite !set_log_eq. mstep. rewrite Hsb1, Hsb2. destruct start_range as [Hr _]. rewrite (s32_block start) by done.
  pose proof (keeps_log _ _ Hk1) as El.
  eapply wp_mono; [|eapply recover_from_log_ok; [by apply bio_with_log, bio_with_log, bio_with_log| |done|done]].
  - intros [] s2 (Hb2 & Hl2 & Hk2). split; [done|]. split; [done|]. etrans; [|exact Hk2].
    exact (keeps_lkeeps _ _ Hk1).
  - split; [done|]. split; [done|]. cbn. rewrite El. done.
Qed.

(** ** Commit *)
Definition com_writes (C : disk) (bl : list Z) : list (Z * list Z) :=
  let C1 := logged C bl (length bl) in
  let C2 := dupd start (header bl (C start)) C1 in
  (start, header [] (header bl (C start))) :: inst_writes C2 bl (length bl) ++
  (start, header bl (C start)) :: log_writes C bl (length bl).

Lemma logged_start C bl k : logged C bl k start = C start.
Proof. apply logged_out. intros j _. unfold slot. lia. Qed.

Lemma commit_ok h C P bl s :
  bio h C P ∅ s → trans_ok bl → lh_ok bl (log_of s) → bl ≠ [] → P = list_to_set bl →
  wp alone (commit fuel s) (λ _ s', ∃ C',
    bio (com_writes C bl ++ h) C' ∅ ∅ s' ∧ lh_ok [] (log_of s') ∧ lkeeps s s' ∧
    (∀ m, ¬ in_log m → C' m = C m) ∧ log_of s' = set_lg_n 0 (log_of s)).
Proof.
  intros Hb Ht Hl Hne ->. set (P := list_to_set bl : gset Z).
  assert (base.size P < NBUF)%nat as Hroom.
  { unfold P. rewrite size_list_to_set by apply Ht. apply Ht. }
  assert (∀ n, in_log n → n ∉ P) as HP.
  { intros n Hn. unfold P. rewrite elem_of_list_to_set. intros Hin. by apply (to_home _ Ht n Hin). }
  assert (∀ b, b ∈ bl → b ∈ P) as HP' by (intros b; unfold P; by rewrite elem_of_list_to_set).
  destruct start_range as [_ Hst]. unfold commit. mstep. rewrite get_log_eq. mstep. rewrite (lo_n _ _ Hl).
  destruct (Z.ltb_spec 0 (Z.of_nat (length bl))); [|destruct bl; [done|cbn in *; lia]]. cbn [when]. mstep.
  bio_then write_log_ok; [done..|]. intros [] s1 [Hb1 Hk1]. mstep.
  bio_then (write_head_ok _ _ _ bl); [done|apply Ht|by rewrite (keeps_log s)|done|by apply HP|].
  intros [] s2 [Hb2 Hk2]. rewrite !logged_start in Hb2. mstep.
  set (C2 := dupd start _ _) in Hb2.
  bio_then (install_trans_ok _ C2 P bl); [done|done|by rewrite (keeps_log s1), (keeps_log s)|by left|done|done|].
  intros [] s3 [Hb3 Hk3]. mstep. rewrite set_log_eq. mstep.
  assert (P ∖ list_to_set bl = ∅) as E0 by set_solver. rewrite E0 in Hb3.
  assert (lh_ok [] (log_of (with_log (set_lg_n 0 (log_of s3)) s3))) as Hl3.
  { rewrite log_of_with. eapply lh_ok_nil. by rewrite (keeps_log s2), (keeps_log s1), (keeps_log s). }
  eapply wp_mono; [|eapply (write_head_ok _ _ _ []); [by apply bio_with_log|cbn; unfold NBUF; lia|done
    |rewrite size_empty; unfold NBUF; lia|set_solver]].
  intros [] s4 [Hb4 Hk4]. rewrite installed_start in Hb4 by done.
  assert (C2 start = header bl (C start)) as E2 by apply dupd_eq. rewrite E2 in Hb4.
  eexists. split; [|split; [by rewrite (keeps_log _ _ Hk4)|split; [|split]]].
  - unfold com_writes. cbv zeta. fold C2. cbn [app] in *. rewrite <- !app_assoc. exact Hb4.
  - etrans; [by apply keeps_lkeeps|]. etrans; [by apply keeps_lkeeps|]. etrans; [by apply keeps_lkeeps|].
    etrans; [apply with_log_lkeeps|]. by apply keeps_lkeeps.
  - intros m Hm. assert (m ≠ start) by (intros ->; by apply Hm). rewrite dupd_ne by done.
    destruct (decide (m ∈ bl)) as [Hin|Hout].
    + apply list_elem_of_lookup_1 in Hin as [k Hk]. pose proof (lookup_lt_Some _ _ _ Hk) as Hlt.
      rewrite <- (list_lookup_total_correct _ _ _ Hk). rewrite installed_home by (apply Ht || lia).
      unfold C2. rewrite dupd_ne by (unfold slot; lia). by apply logged_slot.
    + rewrite installed_out. 2: { intros j Hj ->. by apply Hout, in_bl. }
      unfold C2. rewrite dupd_ne by done. apply logged_out. intros j Hj ->. apply Hm. by eapply slot_range.
  - by rewrite (keeps_log _ _ Hk4), log_of_with, (keeps_log _ _ Hk3), (keeps_log _ _ Hk2), (keeps_log _ _ Hk1).
Qed.

(** ** Operations of a transaction *)
Lemma bio_same h C P H s s' :
  bio h C P H s → krun [] fslocks i p s' → k_slocks s' = k_slocks s → bufs s' = bufs s →
  fs_disk (k_fs s') = fs_disk (k_fs s) → fs_writes (k_fs s') = fs_writes (k_fs s) →
  fs_disksize (k_fs s') = fs_disksize (k_fs s) → bio h C P H s'.
Proof.
  intros [A B D E F G] Hk Hs Hb H1 H2 H3. split; rewrite ?H2, ?H3; try done.
  - rewrite Hb. eapply cache_lk; [done|]. intros b _. unfold lkof. by rewrite (slock_frame _ s).
  - intros n. rewrite <- D. unfold Memide.disk_block. by rewrite H1.
Qed.

(** A block is logged once. *)
Definition absorb (n : Z) (bl : list Z) : list Z := if decide (n ∈ bl) then bl else bl ++ [n].

Lemma absorb_set n bl : list_to_set (absorb n bl) = ({[ n ]} ∪ list_to_set bl : gset Z).
Proof.
  unfold absorb. destruct (decide (n ∈ bl)) as [Hin|Hout]; [|by rewrite list_to_set_app_L; set_solver].
  assert (n ∈@{gset Z} list_to_set bl) by (by apply elem_of_list_to_set). set_solver.
Qed.

Lemma log_find_eq bl n s :
  lh_ok bl (log_of s) → (∀ x, x ∈ bl → 0 ≤ x < size) → 0 ≤ n < size →
  ∃ k, log_find n s = Done (Z.of_nat k) s ∧ (k ≤ length bl)%nat ∧
    (if decide (n ∈ bl) then bl !! k = Some n else k = length bl).
Proof.
  intros Hl Hbl Hn. unfold log_find. mstep. rewrite get_log_eq. mstep. rewrite (lo_n _ _ Hl).
  rewrite (for_break_findZ (λ x, u32 x = n) _ bl 0).
  2: { intros j x Hx. rewrite Z.add_0_l. mstep. pose proof (lookup_lt_Some _ _ _ Hx) as Hlt.
       rewrite (lh_block_bl bl j) by done. mstep. rewrite (list_lookup_total_correct _ _ _ Hx).
       by destruct (Z.eqb_spec (u32 x) n), (decide (u32 x = n)). }
  mstep. assert (∀ x, x ∈ bl → u32 x = x) as Hu by (intros; by apply u32_block, Hbl).
  destruct (list_find _ bl) as [[k x]|] eqn:E; cbn [fmap option_fmap option_map fst].
  - apply list_find_Some in E as (Hk & Hx & _). pose proof (lookup_lt_Some _ _ _ Hk).
    rewrite Hu in Hx by (by eapply list_elem_of_lookup_2). subst x. exists k.
    rewrite Z.add_0_l, decide_True by (by eapply list_elem_of_lookup_2). split; [done|]. split; [lia|done].
  - apply list_find_None in E. exists (length bl). rewrite Z.max_r by lia. split; [done|]. split; [done|].
    rewrite decide_False; [done|]. intros Hin. rewrite Forall_forall in E. apply (E n Hin). by apply Hu.
Qed.

Lemma lh_ok_absorb bl n k l :
  lh_ok bl l → (length bl < Z.to_nat LOGSIZE)%nat → (k ≤ length bl)%nat →
  (if decide (n ∈ bl) then bl !! k = Some n else k = length bl) →
  lh_ok (absorb n bl) (set_lg_n (Z.of_nat (length (absorb n bl))) (set_lg_block (<[k := n]> (lg_block l)) l)).
Proof.
  intros [A B Cc E F] Hlt Hk Hn. unfold absorb. destruct (decide (n ∈ bl)).
  - split; cbn; try done; [|by rewrite length_insert].
    assert (k < length bl)%nat by (by eapply lookup_lt_Some).
    rewrite list_insert_id; [done|]. rewrite <- (lookup_take_lt _ (length bl)) by done. by rewrite E.
  - subst k. split; cbn; try done; [|by rewrite length_insert].
    rewrite length_app, Nat.add_1_r, take_insert_S by lia. by rewrite E.
Qed.

Lemma set_lg_n_same l z bk : lg_n l = z → set_lg_block bk l = set_lg_n z (set_lg_block bk l).
Proof. by destruct l; intros <-. Qed.

(** [log_write] pins the block and records it in the log, once. *)
Lemma log_write_ok h C H bl s n b :
  bio h C (list_to_set bl) H s → H !! n = Some b → 0 ≤ n < size →
  lh_ok bl (log_of s) → (∀ x, x ∈ bl → 0 ≤ x < size) →
  Z.of_nat (length bl) < LOGSIZE → Z.of_nat (length bl) < lg_size (log_of s) - 1 →
  1 ≤ lg_outstanding (log_of s) →
  wp alone (log_write b s) (λ _ s',
    bio h C (list_to_set (absorb n bl)) H s' ∧ lh_ok (absorb n bl) (log_of s') ∧ lkeeps s s' ∧
    ∃ bk, log_of s' = set_lg_n (Z.of_nat (length (absorb n bl))) (set_lg_block bk (log_of s))).
Proof.
  intros Hb Hn Hr Hl Hbl Hls Hsz Hout. unfold log_write. mstep. rewrite get_log_eq. mstep. rewrite (lo_n _ _ Hl).
  destruct (Z.leb_spec LOGSIZE (Z.of_nat (length bl))); [lia|].
  destruct (Z.leb_spec (lg_size (log_of s) - 1) (Z.of_nat (length bl))); [lia|]. cbn [orb]. mstep.
  destruct (Z.ltb_spec (lg_outstanding (log_of s)) 1); [lia|]. mstep.
  destruct (krun_acquire [] _ _ _ L_log s (bio_run _ _ _ _ _ _ _ _ _ Hb)) as [-> Hk1]; [set_solver|set_solver|]. mstep.
  set (s1 := acquired L_log s).
  destruct (bio_holds _ _ _ _ _ _ _ _ _ _ _ Hb Hn) as (x & Hx & _ & Ebn & _).
  rewrite (get_buf_eq b x s1) by done. mstep. rewrite Ebn.
  destruct (log_find_eq bl n s1) as (k & -> & Hk & Hkn); [done..|]. mstep. rewrite s32_block by done.
  rewrite set_lh_block_eq.
  2: { change (k < length (lg_block (log_of s)))%nat. rewrite (lo_len _ _ Hl). lia. }
  mstep. rewrite get_log_eq. mstep. set (s2 := with_log _ s1).
  set (l2 := set_lg_n (Z.of_nat (length (absorb n bl))) (set_lg_block (<[k := n]> (lg_block (log_of s))) (log_of s))).
  assert (when (Z.of_nat k =? lg_n (log_of s2)) (set_log (λ l, set_lg_n (lg_n l + 1) l)) s2 = Done tt (with_log l2 s1)) as ->.
  { change (lg_n (log_of s2)) with (lg_n (log_of s)). rewrite (lo_n _ _ Hl). unfold l2, absorb.
    destruct (decide (n ∈ bl)).
    - pose proof (lookup_lt_Some _ _ _ Hkn). destruct (Z.eqb_spec (Z.of_nat k) (Z.of_nat (length bl))); [lia|].
      rewrite <- (set_lg_n_same (log_of s)) by apply Hl. done.
    - subst k. rewrite Z.eqb_refl. cbn [when]. rewrite set_log_eq. f_equal.
      change (lg_n (log_of s2)) with (lg_n (log_of s)). rewrite (lo_n _ _ Hl), length_app. cbn [length].
      replace (Z.of_nat (length bl + 1)) with (Z.of_nat (length bl) + 1) by lia. done. }
  mstep. rewrite set_buf_alter. mstep. set (s3 := with_bufs _ (with_log l2 s1)).
  assert (krun [L_log] fslocks i p s3) as Hk3 by (by apply (krun_frame _ _ _ _ s1)).
  destruct (krun_release [] _ _ _ _ s3 Hk3) as [-> Hk4]. cbn.
  pose proof (pin_ok i p D0 size Hsize h C _ H s n b Hb Hn) as Hp. rewrite set_buf_alter in Hp. cbn in Hp.
  destruct Hp as [Hp _]. rewrite absorb_set. split; [|split; [|split]].
  - by eapply (bio_same _ _ _ _ _ _ Hp).
  - change (log_of (released L_log s3)) with l2. apply lh_ok_absorb; try done. lia.
  - done.
  - by eexists.
Qed.

(** [begin_op] that need not wait. *)
Lemma begin_op_ok h C P H s :
  bio h C P H s → lg_committing (log_of s) = 0 → 0 ≤ lg_n (log_of s) → 0 ≤ lg_outstanding (log_of s) →
  lg_n (log_of s) + (lg_outstanding (log_of s) + 1) * MAXOPBLOCKS ≤ LOGSIZE →
  wp alone (begin_op fuel s) (λ _ s', bio h C P H s' ∧ lkeeps s s' ∧
    log_of s' = set_lg_outstanding (lg_outstanding (log_of s) + 1) (log_of s)).
Proof.
  intros Hb Hc Hn Ho Hroom. unfold begin_op. mstep.
  destruct (krun_acquire [] _ _ _ L_log s (bio_run _ _ _ _ _ _ _ _ _ Hb)) as [-> Hk1]; [set_solver|set_solver|]. mstep.
  set (s1 := acquired L_log s). destruct fuel as [|f]; [lia|]. cbn [loop]. unfold begin_op_body. mstep.
  rewrite get_log_eq. mstep. change (log_of s1) with (log_of s). rewrite Hc. cbn [Z.eqb negb].
  unfold LOGSIZE, MAXOPBLOCKS in *. rewrite s32_id by lia.
  destruct (Z.ltb_spec (10 * 3) (lg_n (log_of s) + (lg_outstanding (log_of s) + 1) * 10)); [lia|]. mstep.
  rewrite set_log_eq. mstep. change (log_of s1) with (log_of s). rewrite s32_id by lia.
  set (s2 := with_log _ s1).
  assert (krun [L_log] fslocks i p s2) as Hk2 by (by apply (krun_frame _ _ _ _ s1)).
  destruct (krun_release [] _ _ _ _ s2 Hk2) as [-> Hk3]. cbn.
  split; [|done]. by eapply (bio_same _ _ _ _ s).
Qed.

(** Giving up [log.lock] after waking the processes that wait for the log. *)
Lemma log_wake_release h C P H l s :
  bio h C P H s →
  wp alone ((set_log (set_lg_committing 0) ;;; wakeup C_log ;;; release L_log) (acquired L_log (with_log l s)))
    (λ _ s', bio h C P H s' ∧ lkeeps s s' ∧ log_of s' = set_lg_committing 0 l).
Proof.
  intros Hb. mstep. rewrite set_log_eq. mstep. set (s2 := with_log _ (acquired _ _)).
  assert (krun [L_log] fslocks i p s2) as Hk2.
  { apply (krun_frame _ _ _ _ (acquired L_log s)); try done.
    apply krun_acquire; [apply (bio_run _ _ _ _ _ _ _ _ _ Hb)|set_solver|set_solver]. }
  destruct (krun_wakeup _ _ _ _ C_log s2 Hk2) as (s3 & -> & Hk3 & Hd); [set_solver|]. mstep.
  destruct (core_kdata _ _ Hd) as (Hcore & Hsl & Hfs).
  destruct (krun_release [] _ _ _ _ s3 Hk3) as [-> Hk4]. cbn. split; [|split].
  - eapply (bio_same _ _ _ _ s); [done|done|exact Hsl|..]; unfold bufs; cbn; by rewrite Hfs.
  - split; [|intros k _; by rewrite (slock_frame _ s2)].
    change (core (released L_log s3)) with (core s3). cbn. by rewrite Hcore, Hfs.
  - unfold log_of. cbn. by rewrite Hfs.
Qed.

Lemma lh_ok_frame bl l l' :
  lh_ok bl l → lg_start l' = lg_start l → lg_dev l' = lg_dev l → lg_n l' = lg_n l → lg_block l' = lg_block l →
  lh_ok bl l'.
Proof. intros [A B Cc E F] H1 H2 H3 H4. split; rewrite ?H1, ?H2, ?H3, ?H4; done. Qed.

(** The last [end_op] commits: every block of the transaction is on the disk. *)
Lemma end_op_ok h C bl s :
  bio h C (list_to_set bl) ∅ s → trans_ok bl → lh_ok bl (log_of s) →
  lg_committing (log_of s) = 0 → lg_outstanding (log_of s) = 1 →
  wp alone (end_op fuel s) (λ _ s', ∃ h' C',
    bio (h' ++ h) C' ∅ ∅ s' ∧ lh_ok [] (log_of s') ∧ lkeeps s s' ∧
    lg_committing (log_of s') = 0 ∧ lg_outstanding (log_of s') = 0 ∧ ∀ m, ¬ in_log m → C' m = C m).
Proof.
  intros Hb Ht Hl Hc Ho. unfold end_op. mstep.
  destruct (krun_acquire [] _ _ _ L_log s (bio_run _ _ _ _ _ _ _ _ _ Hb)) as [-> Hk1]; [set_solver|set_solver|]. mstep.
  rewrite set_log_eq. mstep. rewrite get_log_eq. mstep. rewrite !log_of_with.
  change (log_of (acquired L_log s)) with (log_of s). cbn [lg_committing set_lg_outstanding lg_outstanding].
  rewrite Hc, Ho. change (s32 (1 - 1)) with 0. cbn [Z.eqb negb]. mstep. rewrite set_log_eq. mstep.
  set (l1 := set_lg_committing 1 _). set (s1 := with_log l1 _).
  assert (krun [L_log] fslocks i p s1) as Hk2 by (by apply (krun_frame _ _ _ _ (acquired L_log s))).
  destruct (krun_release [] _ _ _ _ s1 Hk2) as [-> Hk3]. cbn [when]. mstep. set (s2 := released L_log s1).
  assert (bio h C (list_to_set bl) ∅ s2) as Hb2 by (by eapply (bio_same _ _ _ _ s)).
  assert (lh_ok bl (log_of s2)) as Hl2 by (by eapply (lh_ok_frame bl (log_of s))).
  eapply (wp_then _ _ _ (λ _ s', ∃ h' C', bio (h' ++ h) C' ∅ ∅ s' ∧ lh_ok [] (log_of s') ∧ lkeeps s s' ∧
    lg_outstanding (log_of s') = 0 ∧ ∀ m, ¬ in_log m → C' m = C m)).
  { destruct (decide (bl = [])) as [->|Hne].
    - unfold commit. mstep. rewrite get_log_eq. mstep. rewrite (lo_n _ _ Hl2). cbn. exists [], C. done.
    - eapply wp_mono; [|by apply (commit_ok h C (list_to_set bl) bl)].
      intros [] s3 (C' & H1 & H2 & H3 & H4 & H5). exists (com_writes C bl), C'. split; [done|]. split; [done|].
      split; [by etrans|]. split; [|done]. by rewrite H5. }
  intros [] s3 (h' & C' & Hb3 & Hl3 & Hk3' & Ho3 & HC'). mstep.
  destruct (krun_acquire [] _ _ _ L_log s3 (bio_run _ _ _ _ _ _ _ _ _ Hb3)) as [-> Hk4]; [set_solver|set_solver|]. mstep.
  pose proof (log_wake_release _ _ _ _ (log_of s3) _ Hb3) as Hw.
  assert (with_log (log_of s3) s3 = s3) as Es by (by destruct s3 as [? ? ? ? ? ? ? ? ? ? ? ? ? ? []]).
  rewrite Es in Hw. eapply wp_mono; [|exact Hw].
  intros [] s4 (Hb4 & Hk5 & El). exists h', C'. rewrite El. split; [done|].
  split; [by eapply (lh_ok_frame [] (log_of s3))|]. split; [by etrans|]. done.
Qed.

(** ** The disk between two writes

    [D] is the disk before the transaction [bl], [C] the contents it is to have.
    Whenever the machine stops, the log on the disk is empty and the rest of the
    disk is all old or all new; or the log holds the whole transaction and no
    other block has changed. *)
Definition pending (C : disk) (bl : list Z) (E : disk) : Prop :=
  hdr_n (E start) = Z.of_nat (length bl) ∧ hdr_list (E start) = bl ∧
  (∀ k, (k < length bl)%nat → E (slot k) = C (bl !!! k)) ∧
  (∀ m, ¬ in_log m → m ∉ bl → E m = C m).

Definition home (C E : disk) : Prop := ∀ m, ¬ in_log m → E m = C m.

Record consistent (D C : disk) (bl : list Z) (E : disk) : Prop := {
  co_len m : length (E m) = Z.to_nat BSIZE;
  co_state : hdr_n (E start) = 0 ∧ (home D E ∨ home C E) ∨ pending C bl E;
}.

Lemma play_length D h m :
  (∀ m, length (D m) = Z.to_nat BSIZE) → Forall (λ w, length w.2 = Z.to_nat BSIZE) h →
  length (play D h m) = Z.to_nat BSIZE.
Proof.
  intros HD. induction h as [|[n v] h IH]; [done|]. intros [Hv Hh]%Forall_cons. cbn. unfold dupd.
  destruct (decide (m = n)); [done|by apply IH].
Qed.

Lemma inst_writes_suffix C bl n late early :
  inst_writes C bl n = late ++ early → ∃ k, (k ≤ n)%nat ∧ early = inst_writes C bl k.
Proof.
  revert late. induction n as [|n IH]; intros late.
  - cbn. intros E. symmetry in E. apply app_eq_nil in E as [_ ->]. by exists O.
  - destruct late as [|w late]; cbn [app]; intros E.
    + exists (S n). by split.
    + cbn [inst_writes] in E. injection E as _ E. destruct (IH late E) as (k & Hk & ->). exists k. by split; [lia|].
Qed.
Lemma log_writes_suffix C bl n late early :
  log_writes C bl n = late ++ early → ∃ k, (k ≤ n)%nat ∧ early = log_writes C bl k.
Proof.
  revert late. induction n as [|n IH]; intros late.
  - cbn. intros E. symmetry in E. apply app_eq_nil in E as [_ ->]. by exists O.
  - destruct late as [|w late]; cbn [app]; intros E.
    + exists (S n). by split.
    + cbn [log_writes] in E. injection E as _ E. destruct (IH late E) as (k & Hk & ->). exists k. by split; [lia|].
Qed.

Definition full (D : disk) : Prop := ∀ m, length (D m) = Z.to_nat BSIZE.
Abbreviation blocks h := (Forall (λ w : Z * list Z, length w.2 = Z.to_nat BSIZE) h).

Lemma log_writes_len C bl k : full C → blocks (log_writes C bl k).
Proof. intros HC. induction k; constructor; [apply HC|done]. Qed.
Lemma inst_writes_len C bl k : full C → blocks (inst_writes C bl k).
Proof. intros HC. induction k; constructor; [apply HC|done]. Qed.
Lemma length_header bl d : length (header bl d) = length d.
Proof. unfold header. by rewrite length_put_blocks, length_put_word. Qed.
Lemma full_dupd n v C : full C → length v = Z.to_nat BSIZE → full (dupd n v C).
Proof. intros HC Hv m. unfold dupd. destruct (decide (m = n)); [done|apply HC]. Qed.
Lemma full_play D h : full D → blocks h → full (play D h).
Proof. intros HD Hh m. by apply play_length. Qed.

Lemma rec_writes_len C : full C → blocks (rec_writes C).
Proof.
  intros HC. constructor; [|by apply inst_writes_len]. etrans; [apply length_header|apply HC].
Qed.
Lemma com_writes_len C bl : full C → blocks (com_writes C bl).
Proof.
  intros HC. unfold com_writes. constructor.
  { etrans; [apply length_header|]. etrans; [apply length_header|apply HC]. }
  apply Forall_app. split.
  - apply inst_writes_len, full_dupd; [|by rewrite length_header]. by apply full_play, log_writes_len.
  - constructor; [etrans; [apply length_header|apply HC]|by apply log_writes_len].
Qed.

Lemma hdr_n_clear d : length d = Z.to_nat BSIZE → hdr_n (header [] d) = 0.
Proof. intros Hd. rewrite header_n; [done|done|cbn; unfold NBUF; lia]. Qed.

Section Points.
Context (D C : disk) (bl : list Z).
Context (Ht : trans_ok bl) (Hne : bl ≠ []) (HfD : full D) (HfC : full C).
Context (Hempty : hdr_n (D start) = 0) (Hother : ∀ m, ¬ in_log m → m ∉ bl → D m = C m).

Lemma home_not_slot m j : ¬ in_log m → (j < length bl)%nat → m ≠ slot j.
Proof. intros Hm Hj ->. apply Hm. by eapply slot_range. Qed.
Lemma log_not_home m j : in_log m → (j < length bl)%nat → m ≠ bl !!! j.
Proof. intros Hm Hj ->. by apply (to_home bl Ht (bl !!! j)); [apply in_bl|]. Qed.
Lemma home_not_start m : ¬ in_log m → m ≠ start.
Proof. intros Hm ->. by apply Hm, start_range. Qed.
Lemma hdr_pos : 0 < Z.of_nat (length bl).
Proof. destruct bl; [done|cbn; lia]. Qed.

(** A logged transaction stays pending while its blocks are installed. *)
Lemma pending_install E k :
  pending C bl E → (k ≤ length bl)%nat → pending C bl (play E (inst_writes E bl k)).
Proof.
  intros (P1 & P2 & P3 & P4) Hk.
  assert (∀ m, in_log m → play E (inst_writes E bl k) m = E m) as Hl.
  { intros m Hm. apply play_inst_out. intros j Hj. apply log_not_home; [done|lia]. }
  destruct start_range as [_ Hst]. split; [by rewrite Hl|]. split; [by rewrite Hl|]. split.
  - intros j Hj. rewrite Hl by (by eapply slot_range). by apply P3.
  - intros m Hm Hin. rewrite play_inst_out; [by apply P4|]. intros j Hj ->. apply Hin, in_bl. lia.
Qed.

Lemma pending_done E m :
  pending C bl E → ¬ in_log m → play E (inst_writes E bl (length bl)) m = C m.
Proof.
  intros (P1 & P2 & P3 & P4) Hm. destruct (decide (m ∈ bl)) as [Hin|Hout].
  - apply list_elem_of_lookup_1 in Hin as [k Hk]. pose proof (lookup_lt_Some _ _ _ Hk) as Hlt.
    rewrite <- (list_lookup_total_correct _ _ _ Hk). rewrite play_inst_home by (apply Ht || lia). by apply P3.
  - rewrite play_inst_out; [by apply P4|]. intros j Hj ->. by apply Hout, in_bl.
Qed.

(** Writing the log does not touch anything else. *)
Lemma logging k : (k ≤ length bl)%nat → consistent D C bl (play D (log_writes C bl k)).
Proof.
  intros Hk. split; [by apply full_play, log_writes_len|]. left. split.
  - rewrite play_log_out; [done|]. intros j _. unfold slot. lia.
  - left. intros m Hm. apply play_log_out. intros j Hj. apply home_not_slot; [done|lia].
Qed.

Lemma logged_pending E :
  (∀ m, E m = dupd start (header bl (C start)) (play D (log_writes C bl (length bl))) m) → pending C bl E.
Proof.
  intros HE. assert (E start = header bl (C start)) as Es by (by rewrite HE, dupd_eq).
  split; [rewrite Es; apply header_n; [apply HfC|apply Ht]|].
  split; [rewrite Es; apply hdr_list_header; [apply HfC|apply Ht]|]. split.
  - intros k Hk. rewrite HE, dupd_ne by (unfold slot; lia). by apply play_log_slot.
  - intros m Hm Hin. rewrite HE, dupd_ne by (by apply home_not_start).
    rewrite play_log_out; [by apply Hother|]. intros j Hj. by apply home_not_slot.
Qed.

Lemma inst_writes_ext E E' k :
  (∀ j, (j < k)%nat → E (slot j) = E' (slot j)) → inst_writes E bl k = inst_writes E' bl k.
Proof.
  induction k as [|k IH]; intros HE; [done|]. cbn [inst_writes]. rewrite HE by lia. f_equal. apply IH. auto.
Qed.

Lemma consistent_pending E : full E → pending C bl E → consistent D C bl E.
Proof. intros HE HP. split; [done|by right]. Qed.

(** The header block is cleared: the transaction is over. *)
Lemma cleared E d : full E → length d = Z.to_nat BSIZE → home C E → consistent D C bl (dupd start (header [] d) E).
Proof.
  intros HE Hd Hh. split; [apply full_dupd; [done|by rewrite length_header]|]. left.
  rewrite dupd_eq. split; [by apply hdr_n_clear|]. right. intros m Hm. rewrite dupd_ne by (by apply home_not_start).
  by apply Hh.
Qed.

Lemma commit_points late early : com_writes C bl = late ++ early → consistent D C bl (play D early).
Proof.
  set (E := dupd start (header bl (C start)) (play D (log_writes C bl (length bl)))).
  assert (pending C bl E) as HP by (by apply logged_pending).
  assert (full E) as HfE.
  { apply full_dupd; [by apply full_play, log_writes_len|by rewrite length_header]. }
  assert (∀ k, (k ≤ length bl)%nat → inst_writes (dupd start (header bl (C start)) (logged C bl (length bl))) bl k =
    inst_writes E bl k) as Hext.
  { intros k Hk. apply inst_writes_ext. intros j Hj. unfold E. rewrite !dupd_ne by (unfold slot; lia).
    by rewrite logged_slot, play_log_slot by lia. }
  unfold com_writes. rewrite Hext by lia. destruct late as [|w late]; cbn [app]; intros Hl.
  - subst early. change (consistent D C bl (dupd start (header [] (header bl (C start))) (play D
      (inst_writes E bl (length bl) ++ (start, header bl (C start)) :: log_writes C bl (length bl))))).
    rewrite play_app. apply cleared; [by apply full_play, inst_writes_len|by rewrite length_header|].
    intros m Hm. by apply pending_done.
  - injection Hl as _ Hl. apply app_eq_inv in Hl as [(k & H1 & ->)|(k & -> & H2)].
    + apply inst_writes_suffix in H1 as (j & Hj & ->). rewrite play_app.
      apply consistent_pending; [by apply full_play, inst_writes_len|by apply pending_install].
    + destruct k as [|w' k]; cbn [app] in H2.
      * subst early. by apply consistent_pending.
      * injection H2 as _ H2. apply log_writes_suffix in H2 as (j & Hj & ->). by apply logging.
Qed.

Lemma recovery_points E late early :
  consistent D C bl E → rec_writes E = late ++ early → consistent D C bl (play E early).
Proof.
  intros [HfE [[H0 Hh]|HP]] Hl.
  - assert (rec_writes E = [(start, clear_hdr E)]) as E1.
    { unfold rec_writes, hdr_list. by rewrite H0. }
    rewrite E1 in Hl. destruct late as [|w late]; cbn [app] in Hl.
    + subst early. change (consistent D C bl (dupd start (clear_hdr E) E)).
      split; [apply full_dupd; [done|etrans; [apply length_header|apply HfE]]|].
      left. rewrite dupd_eq. split; [apply hdr_n_clear, HfE|].
      destruct Hh as [Hh|Hh]; [left|right]; intros m Hm; rewrite dupd_ne by (by apply home_not_start); by apply Hh.
    + injection Hl as _ Hl. symmetry in Hl. apply app_eq_nil in Hl as [_ ->]. split; [done|by left].
  - unfold rec_writes in Hl. rewrite (proj1 (proj2 HP)) in Hl. destruct late as [|w late]; cbn [app] in Hl.
    + subst early. change (consistent D C bl (dupd start (clear_hdr E) (play E (inst_writes E bl (length bl))))).
      apply cleared; [by apply full_play, inst_writes_len|apply HfE|]. intros m Hm. by apply pending_done.
    + injection Hl as _ Hl. apply inst_writes_suffix in Hl as (j & Hj & ->).
      apply consistent_pending; [by apply full_play, inst_writes_len|by apply pending_install].
Qed.

Lemma recovered_home E : consistent D C bl E → home D (recovered E) ∨ home C (recovered E).
Proof.
  intros HE. pose proof (recovery_points E [] (rec_writes E) HE eq_refl) as [_ [[_ Hh]|(H1 & _)]]; [done|].
  exfalso. change (play E (rec_writes E) start) with (dupd start (clear_hdr E) (play E (tail (rec_writes E))) start) in H1.
  rewrite dupd_eq in H1. unfold clear_hdr in H1. rewrite hdr_n_clear in H1 by apply HE. pose proof hdr_pos. lia.
Qed.

(** A consistent disk has a log that recovery can read. *)
Lemma consistent_hdr E : consistent D C bl E → 0 ≤ hdr_n (E start) ∧ trans_ok (hdr_list (E start)).
Proof.
  intros [_ [[H0 _]|(H1 & H2 & _)]].
  - rewrite H0. split; [done|].
    assert (hdr_list (E start) = []) as -> by (unfold hdr_list; by rewrite H0).
    split; cbn; [constructor|set_solver|lia|unfold NBUF; lia].
  - rewrite H1, H2. split; [lia|done].
Qed.

End Points.

End LogLaws.

(** * Atomic transactions *)
Section Atomic.
Context {W : Type}.
Implicit Types (s r : kst W) (D C E : disk).

Definition disk_of (s : kst W) : disk := Memide.disk_block (k_fs s).

(** A machine restarted on the disk [E], its caches empty. *)
Record reboot (i : nat) (p : proc) (size : Z) (E : disk) (r : kst W) : Prop := {
  rb_bio : bio i p E size [] E ∅ ∅ r;
  rb_log : length (lg_block (log_of r)) = Z.to_nat LOGSIZE;
}.

(** The machine is restarted on [E] and stops during recovery, leaving [E']. *)
Definition recovery_crash (fuel i : nat) (p : proc) (size : Z) (E E' : disk) : Prop :=
  ∃ r r' late early, reboot i p size E r ∧ initlog fuel 1 r = Done tt r' ∧
    fs_writes (k_fs r') = late ++ early ∧ E' = play E early.

(** A transaction ready to commit: the blocks [bl] are pinned in the cache with
    their new contents [C], the disk is [play D0 h] and its log is empty. *)
Record transaction (i : nat) (p : proc) (D0 : disk) (size start lsize : Z)
    (h : list (Z * list Z)) (C : disk) (bl : list Z) (s : kst W) : Prop := {
  tx_size : 1 < size < 2^31;
  tx_area : 0 ≤ start ∧ start + lsize ≤ size ∧ 0 < lsize;
  tx_bio : bio i p D0 size h C (list_to_set bl) ∅ s;
  tx_trans : trans_ok size start lsize bl;
  tx_lh : lh_ok start bl (log_of s);
  tx_some : bl ≠ [];
  tx_full : full (play D0 h);
  tx_empty : hdr_n (play D0 h start) = 0;
  tx_sb : sb_ok start lsize (play D0 h);
  tx_sb_safe : ¬ in_log start lsize 1 ∧ 1 ∉ bl;
}.

Section Run.
Context (fuel : nat) (Hfuel : (0 < fuel)%nat) (i : nat) (p : proc) (D0 : disk) (size start lsize : Z).
Context (h : list (Z * list Z)) (C : disk) (bl : list Z) (s : kst W).
Context (Htx : transaction i p D0 size start lsize h C bl s).

Abbreviation D := (play D0 h).
Abbreviation ok := (consistent start lsize D C bl).

Lemma tx_size' : 0 ≤ size < 2^31.
Proof. destruct (tx_size _ _ _ _ _ _ _ _ _ _ Htx). lia. Qed.

Lemma tx_other m : ¬ in_log start lsize m → m ∉ bl → D m = C m.
Proof.
  intros _ Hm. symmetry. eapply ca_clean; [apply (tx_bio _ _ _ _ _ _ _ _ _ _ Htx)| |done].
  by rewrite elem_of_list_to_set.
Qed.

Lemma tx_fullC : full C.
Proof. intros m. apply (bio_len _ _ _ _ _ _ _ _ _ (tx_bio _ _ _ _ _ _ _ _ _ _ Htx)). Qed.

Lemma ok_sb E : ok E → sb_ok start lsize E.
Proof.
  destruct (tx_sb_safe _ _ _ _ _ _ _ _ _ _ Htx) as [H1 H2]. intros [_ HE]. assert (E 1 = D 1) as E1.
  { destruct HE as [[_ [Hh|Hh]]|(_ & _ & _ & Hh)].
    - by apply Hh.
    - rewrite tx_other by done. by apply Hh.
    - rewrite tx_other by done. by apply Hh. }
  unfold sb_ok. rewrite E1. apply (tx_sb _ _ _ _ _ _ _ _ _ _ Htx).
Qed.

(** Recovery on a disk that a stopped commit can leave. *)
Lemma recover_ok E r :
  ok E → reboot i p size E r →
  ∃ r', initlog fuel 1 r = Done tt r' ∧ fs_writes (k_fs r') = rec_writes start E ∧
    ∀ m, disk_of r' m = recovered start E m.
Proof.
  intros HE [Hb Hlb]. pose proof Htx as [T1 T2 T3 T4 T5 T6 T7 T8 T9 T10]. pose proof tx_size' as Hs.
  pose proof tx_fullC as HfC. pose proof tx_other as Ho.
  assert (0 ≤ hdr_n (E start) ∧ trans_ok size start lsize (hdr_list (E start))) as [Hh1 Hh2]
    by (eapply consistent_hdr with (D := play D0 h) (C := C); eassumption).
  pose proof (initlog_ok i p E size Hs fuel Hfuel start lsize T2 [] E r Hb (ok_sb E HE)
    ltac:(lia) Hlb Hh1 Hh2) as Hi.
  apply wp_alone in Hi as ([] & r' & Hr' & Hb' & _ & _). exists r'. split; [done|].
  rewrite app_nil_r in Hb'. split; [apply Hb'|]. intros m. unfold disk_of. by rewrite (bio_disk _ _ _ _ _ _ _ _ _ Hb').
Qed.

Lemma recovery_crash_ok E E' : ok E → recovery_crash fuel i p size E E' → ok E'.
Proof.
  intros HE (r & r' & late & early & Hr & Hi & Hw & ->). pose proof Htx as [T1 T2 T3 T4 T5 T6 T7 T8 T9 T10].
  destruct (recover_ok E r HE Hr) as (r2 & Hi2 & Hw2 & _). rewrite Hi in Hi2. injection Hi2 as <-.
  pose proof tx_size'. pose proof tx_fullC. pose proof tx_other. rewrite Hw2 in Hw.
  eapply recovery_points with (D := play D0 h) (C := C); eassumption.
Qed.

Lemma commit_crash_ok late early :
  com_writes start C bl = late ++ early → ok (play D early).
Proof.
  intros Hw. pose proof Htx as [T1 T2 T3 T4 T5 T6 T7 T8 T9 T10]. pose proof tx_size'.
  pose proof tx_fullC. pose proof tx_other. eapply commit_points with (D := play D0 h) (C := C); eassumption.
Qed.

Lemma recover_home E r :
  ok E → reboot i p size E r →
  ∃ r', initlog fuel 1 r = Done tt r' ∧ (home start lsize D (disk_of r') ∨ home start lsize C (disk_of r')).
Proof.
  intros HE Hr. destruct (recover_ok E r HE Hr) as (r' & Hi & _ & Hd). exists r'. split; [done|].
  pose proof Htx as [T1 T2 T3 T4 T5 T6 T7 T8 T9 T10]. pose proof tx_size'.
  pose proof tx_fullC. pose proof tx_other.
  assert (home start lsize D (recovered start E) ∨ home start lsize C (recovered start E)) as Hh.
  { eapply recovered_home with (D := play D0 h) (C := C); eassumption. }
  destruct Hh as [Hh|Hh]; [left|right]; intros m Hm; rewrite Hd; by apply Hh.
Qed.

(** [commit] finishes, with the file system as the cache has it. *)
Lemma commit_home :
  ∃ s', commit fuel s = Done tt s' ∧ home start lsize C (disk_of s').
Proof.
  pose proof Htx as [T1 T2 T3 T4 T5 T6 T7 T8 T9 T10]. assert (0 ≤ size < 2^31) as Hs by lia.
  pose proof (commit_ok i p D0 size Hs fuel Hfuel start lsize T2 h C _ bl s T3 T4 T5 T6 eq_refl) as Hc.
  apply wp_alone in Hc as ([] & s' & Hc & C' & Hb & _ & _ & HC' & _). exists s'. split; [done|].
  intros m Hm. unfold disk_of. rewrite (bio_disk _ _ _ _ _ _ _ _ _ Hb), <- HC' by done. symmetry.
  by eapply ca_clean; [apply Hb|set_solver|].
Qed.

(** Recovery after a crash during it, or during recovery, finds one of the two. *)
Lemma commit_recovers s' late early E r :
  commit fuel s = Done tt s' → fs_writes (k_fs s') = late ++ early ++ h →
  rtc (recovery_crash fuel i p size) (play (play D0 h) early) E → reboot i p size E r →
  ∃ r', initlog fuel 1 r = Done tt r' ∧
    (home start lsize (play D0 h) (disk_of r') ∨ home start lsize C (disk_of r')).
Proof.
  intros Hc Hw HE Hr. pose proof Htx as [T1 T2 T3 T4 T5 T6 T7 T8 T9 T10]. assert (0 ≤ size < 2^31) as Hs by lia.
  pose proof (commit_ok i p D0 size Hs fuel Hfuel start lsize T2 h C _ bl s T3 T4 T5 T6 eq_refl) as Hc'.
  apply wp_alone in Hc' as ([] & s1 & Hc' & C' & Hb & _). rewrite Hc' in Hc. injection Hc as ->.
  rewrite (bio_writes _ _ _ _ _ _ _ _ _ Hb), app_assoc in Hw. apply app_inv_tail in Hw. eapply recover_home; [|done].
  eapply (rtc_inv _ (consistent start lsize (play D0 h) C bl)); [|intros; by eapply recovery_crash_ok|done].
  by eapply commit_crash_ok.
Qed.

End Run.
End Atomic.

(** C2: A transaction is atomic.  [commit] finishes with every block of the file
    system as the cache has it.  If the machine stops between any two of its disk
    writes, is restarted, stops again between any two writes of its recovery, any
    number of times, and is finally restarted for good, then [initlog] finishes
    and the file system (every block outside of the log) is either entirely as it
    was before the transaction or entirely as after it. *)
Theorem log_atomic {W} fuel i p D0 size start lsize h C bl (s : kst W) :
  (0 < fuel)%nat → transaction i p D0 size start lsize h C bl s →
  ∃ s', commit fuel s = Done tt s' ∧ home start lsize C (disk_of s') ∧
    ∀ late early E (r : kst W),
      fs_writes (k_fs s') = late ++ early ++ h →
      rtc (recovery_crash (W := W) fuel i p size) (play (play D0 h) early) E → reboot i p size E r →
      ∃ r', initlog fuel 1 r = Done tt r' ∧
        (home start lsize (play D0 h) (disk_of r') ∨ home start lsize C (disk_of r')).
Proof.
  intros Hf Htx. destruct (commit_home fuel Hf i p D0 size start lsize h C bl s Htx) as (s' & Hc & Hh). exists s'. split; [done|].
  split; [done|]. intros late early E r Hw HE Hr. by eapply (commit_recovers fuel Hf i p D0 size start lsize h C bl s Htx s').
Qed.

(** A disk of 100 blocks whose log is in the blocks 2 to 31, and a transaction
    that fills block 40. *)
Module LogDemo.

Definition zeros : list Z := replicate (Z.to_nat BSIZE) 0.
Definition super : list Z := put_word 16 2 (put_word 12 30 zeros).
Definition d : gmap Z (list Z) := {[ 1 := super ]}.
Definition D : disk := BioLaw.Demo.block_of d.
Definition fresh : list Z := replicate (Z.to_nat BSIZE) 7.

Lemma d_blocks : map_Forall (λ _ v, length v = Z.to_nat BSIZE) d.
Proof. apply map_Forall_singleton. vm_compute. reflexivity. Qed.

Lemma D_full : full D.
Proof. intros m. apply (bio_len _ _ _ _ _ _ _ _ _ (BioLaw.Demo.bio_st d 100 d_blocks)). Qed.

Lemma transaction_from (s0 : kst unit) :
  bio 0 Sched.Demo.p1 D 100 [] D ∅ ∅ s0 →
  ∃ s : kst unit, transaction 0 Sched.Demo.p1 D 100 2 30 [] (dupd 40 fresh D) [40] s.
Proof.
  intros H0. assert (0 ≤ 100 < 2^31) as Hs by lia.
  pose proof (bread_ok 0 Sched.Demo.p1 D 100 Hs 1 ltac:(lia) [] D ∅ ∅ _ 40 H0 eq_refl ltac:(lia) (or_intror demo_room)) as H1.
  apply wp_alone in H1 as (b & s1 & _ & H1 & _).
  pose proof (store_ok 0 Sched.Demo.p1 D 100 [] D ∅ _ s1 40 b (λ _, fresh) H1 (lookup_insert_eq _ _ _) eq_refl) as H2.
  apply wp_alone in H2 as ([] & s2 & _ & H2 & _).
  pose proof (pin_ok 0 Sched.Demo.p1 D 100 Hs [] _ ∅ _ s2 40 b H2 (lookup_insert_eq _ _ _)) as H3.
  apply wp_alone in H3 as ([] & s3 & _ & H3 & _).
  pose proof (brelse_ok 0 Sched.Demo.p1 D 100 Hs [] _ _ _ s3 40 b H3 (lookup_insert_eq _ _ _)) as H4.
  rewrite delete_insert_id in H4 by apply lookup_empty.
  specialize (H4 ltac:(left; set_solver)). apply wp_alone in H4 as ([] & s4 & _ & H4 & _).
  exists (with_log (mkLog 2 30 0 1 1 1 (40 :: replicate 29 0)) s4). split.
  - lia.
  - lia.
  - apply bio_with_log. replace (list_to_set [40] : gset Z) with ({[40]} ∪ ∅ : gset Z) by set_solver. exact H4.
  - split; [apply NoDup_singleton| |cbn; lia|cbn; unfold NBUF; lia].
    intros b' ->%list_elem_of_singleton. unfold in_log. lia.
  - by split.
  - done.
  - apply D_full.
  - vm_compute. reflexivity.
  - split; vm_compute; reflexivity.
  - split; [unfold in_log; lia|]. by intros ?%list_elem_of_singleton.
Qed.

Lemma transaction_ex :
  ∃ s : kst unit, transaction 0 Sched.Demo.p1 D 100 2 30 [] (dupd 40 fresh D) [40] s.
Proof. exact (transaction_from _ (BioLaw.Demo.bio_st d 100 d_blocks)). Qed.

End LogDemo.

Lemma log_atomic_witness :
  ∃ s s' : kst unit, commit 1 s = Done tt s' ∧ disk_of s' 40 = LogDemo.fresh.
Proof.
  destruct LogDemo.transaction_ex as [s Hs].
  destruct (log_atomic 1 0 Sched.Demo.p1 LogDemo.D 100 2 30 [] (dupd 40 LogDemo.fresh LogDemo.D) [40] s)
    as (s' & H1 & H2 & _); [lia|exact Hs|].
  exists s, s'. split; [exact H1|]. rewrite (H2 40) by (unfold in_log; lia). apply dupd_eq.
Defined.
