(* ===== verification/Ide.v ===== *)
(** ide.c: the disk driver.  Requests wait in a queue threaded through the
    buffers; the interrupt handler completes the first and starts the next.  The
    queue is FIFO, and the disk, an ATA drive behind the I/O ports, is at work exactly
    for its first request: blocks are read and written as the buffers ask. *)
From S2P Require Import Prelude Mem KState Spinlock Sched Sleeplock Layout Bio BioLaw.

Abbreviation IDE_BSY := 128 (only parsing).
Abbreviation IDE_DRDY := 64 (only parsing).
Abbreviation IDE_DF := 32 (only parsing).
Abbreviation IDE_ERR := 1 (only parsing).
Abbreviation IDE_CMD_READ := 32 (only parsing).
Abbreviation IDE_CMD_WRITE := 48 (only parsing).
Abbreviation IDE_CMD_RDMUL := 196 (only parsing).
Abbreviation IDE_CMD_WRMUL := 197 (only parsing).
Abbreviation SECTOR_SIZE := 512 (only parsing).
Abbreviation IRQ_IDE := 14 (only parsing).

(** x86.h: the I/O instructions; and the interrupt controllers. *)
Class PortOps (W : Type) := {
  inb : Z → M (kst W) Z;
  outb : Z → Z → M (kst W) unit;
  insl : Z → Z → M (kst W) (list Z);   (* port, count of words: the bytes read *)
  outsl : Z → list Z → M (kst W) unit;
  picenable : Z → M (kst W) unit;
  ioapicenable : Z → Z → M (kst W) unit;
}.

Section Ide.
Context {W : Type} {PO : PortOps W}.
(** Bound on polling the disk and on waiting for it. *)
Context (fuel : nat).

(** [while(((r = inb(0x1f7)) & (IDE_BSY|IDE_DRDY)) != IDE_DRDY);] *)
Definition idewait (checkerr : bool) : M (kst W) Z :=
  r <- loop fuel (r <- inb 503 ;;
         ret (if Z.land r (Z.lor IDE_BSY IDE_DRDY) =? IDE_DRDY then Some r else None)) ;;
  if checkerr && negb (Z.land r (Z.lor IDE_DF IDE_ERR) =? 0) then ret (-1) else ret 0.

Definition ideinit (ncpu : Z) : M (kst W) unit :=
  initlock L_idelock "ide" ;;;
  picenable IRQ_IDE ;;;
  ioapicenable IRQ_IDE (ncpu - 1) ;;;
  _ <- idewait false ;;
  outb 502 (Z.lor 224 (Z.shiftl 1 4)) ;;;
  _ <- for_break (seqZ 0 1000) (λ _,
    r <- inb 503 ;;
    if negb (r =? 0) then upd_fs (set_fs_havedisk1 1) ;;; ret (Some tt) else ret None) ;;
  outb 502 (Z.lor 224 (Z.shiftl 0 4)).

Definition sector_per_block : Z := BSIZE / SECTOR_SIZE.
Definition read_cmd : Z := if sector_per_block =? 1 then IDE_CMD_READ else IDE_CMD_RDMUL.
Definition write_cmd : Z := if sector_per_block =? 1 then IDE_CMD_WRITE else IDE_CMD_WRMUL.

(** Start the request for [b]; the null pointer is [None]. *)
Definition idestart (o : option nat) : M (kst W) unit :=
  match o with
  | None => panic "idestart"
  | Some b =>
    x <- get_buf b ;;
    (if FSSIZE <=? b_blockno x then panic "incorrect blockno" else ret tt) ;;;
    let sector := s32 (b_blockno x * sector_per_block) in
    (if 7 <? sector_per_block then panic "idestart" else ret tt) ;;;
    _ <- idewait false ;;
    outb 1014 0 ;;;
    outb 498 sector_per_block ;;;
    outb 499 (Z.land sector 255) ;;;
    outb 500 (Z.land (Z.shiftr sector 8) 255) ;;;
    outb 501 (Z.land (Z.shiftr sector 16) 255) ;;;
    outb 502 (Z.lor (Z.lor 224 (Z.shiftl (Z.land (b_dev x) 1) 4)) (Z.land (Z.shiftr sector 24) 15)) ;;;
    if negb (Z.land (b_flags x) B_DIRTY =? 0) then
      outb 503 write_cmd ;;; outsl 496 (b_data x)
    else outb 503 read_cmd
  end.

Definition get_idequeue : M (kst W) (option nat) := gets (λ s, fs_idequeue (k_fs s)).

Definition ideintr : M (kst W) unit :=
  acquire L_idelock ;;;
  o <- get_idequeue ;;
  match o with
  | None => release L_idelock
  | Some b =>
    x <- get_buf b ;;
    upd_fs (set_fs_idequeue (b_qnext x)) ;;;
    (if Z.land (b_flags x) B_DIRTY =? 0 then
       r <- idewait true ;;
       when (0 <=? r) (d <- insl 496 (BSIZE / 4) ;; set_buf b (set_b_data d))
     else ret tt) ;;;
    set_buf b (λ x, set_b_flags (Z.lor (b_flags x) B_VALID) x) ;;;
    set_buf b (λ x, set_b_flags (Z.land (b_flags x) (Z.lnot B_DIRTY)) x) ;;;
    wakeup (C_buf b) ;;;
    q <- get_idequeue ;;
    when (bool_decide (q ≠ None)) (idestart q) ;;;
    release L_idelock
  end.

(** [for(pp=&idequeue; *pp; pp=&( *pp)->qnext);]: the last buffer of the queue,
    whose [qnext] the pointer ends at. *)
Fixpoint last_of (n b : nat) : M (kst W) nat :=
  match n with
  | O => λ _, Fuel
  | S n' => x <- get_buf b ;; match b_qnext x with None => ret b | Some b' => last_of n' b' end
  end.

(** Append [b] to the queue, and start the disk if it is the only request. *)
Definition ide_enqueue (b : nat) : M (kst W) unit :=
  set_buf b (set_b_qnext None) ;;;
  o <- get_idequeue ;;
  match o with
  | None => upd_fs (set_fs_idequeue (Some b))
  | Some b0 => l <- last_of (S NBUF) b0 ;; set_buf l (set_b_qnext (Some b))
  end ;;;
  q <- get_idequeue ;;
  when (bool_decide (q = Some b)) (idestart (Some b)).

Definition iderw (b : nat) : M (kst W) unit :=
  h <- holdingsleep b ;;
  (if h =? 0 then panic "iderw: buf not locked" else ret tt) ;;;
  x <- get_buf b ;;
  (if Z.land (b_flags x) (Z.lor B_VALID B_DIRTY) =? B_VALID then panic "iderw: nothing to do" else ret tt) ;;;
  hd <- gets (λ s, fs_havedisk1 (k_fs s)) ;;
  (if negb (b_dev x =? 0) && (hd =? 0) then panic "iderw: ide disk 1 not present" else ret tt) ;;;
  acquire L_idelock ;;;
  ide_enqueue b ;;;
  loop fuel (
    x <- get_buf b ;;
    if negb (Z.land (b_flags x) (Z.lor B_VALID B_DIRTY) =? B_VALID) then
      sleep (C_buf b) (Some L_idelock) ;;; ret None
    else ret (Some tt)) ;;;
  release L_idelock.

(** The driver below the buffer cache. *)
Definition ide_ops : DiskOps W := {| dk_iderw := iderw |}.

End Ide.

Arguments idestart : simpl never.
Arguments idewait : simpl never.
Arguments last_of : simpl nomatch.

(** * The queue *)

(** The requests from [o] on, through the [qnext] fields. *)
Fixpoint queue (bs : list buf) (o : option nat) (q : list nat) : Prop :=
  match q with
  | [] => o = None
  | b :: q' => o = Some b ∧ ∃ x, bs !! b = Some x ∧ queue bs (b_qnext x) q'
  end.

(** Everything of a buffer but its link in the queue. *)
Definition unq (x : buf) : buf := set_b_qnext None x.

Lemma queue_ext bs bs' o q :
  queue bs o q → (∀ b x, b ∈ q → bs !! b = Some x → ∃ y, bs' !! b = Some y ∧ b_qnext y = b_qnext x) → queue bs' o q.
Proof.
  revert o. induction q as [|b q IH]; intros o; cbn; [done|]. intros (-> & x & Hx & Hq) He. split; [done|].
  destruct (He b x) as (y & Hy & Ey); [set_solver|done|]. exists y. split; [done|]. rewrite Ey.
  apply IH; [done|]. intros c z Hc. apply He. set_solver.
Qed.

Lemma queue_last bs o q b : queue bs o (q ++ [b]) → ∃ x, bs !! b = Some x ∧ b_qnext x = None.
Proof.
  revert o. induction q as [|c q IH]; intros o; cbn.
  - intros (_ & x & Hx & Hn). by exists x.
  - intros (_ & x & _ & Hq). by eapply IH.
Qed.

(** A request at the end of the queue. *)
Lemma queue_snoc bs bs' o q l x b y :
  queue bs o (q ++ [l]) → NoDup (q ++ [l]) → bs !! l = Some x → bs' = <[l := set_b_qnext (Some b) x]> bs →
  bs !! b = Some y → b_qnext y = None → b ∉ q ++ [l] → queue bs' o ((q ++ [l]) ++ [b]).
Proof.
  intros Hq Hnd Hx -> Hy Hyn Hb. assert (b ≠ l) by set_solver.
  revert o Hq. induction q as [|c q IH]; intros o; cbn [app queue].
  - intros (-> & x' & Hx' & _). simplify_eq. split; [done|]. exists (set_b_qnext (Some b) x).
    split; [by apply list_lookup_insert_eq; eapply lookup_lt_Some|]. split; [done|].
    exists y. by rewrite list_lookup_insert_ne.
  - intros (-> & z & Hz & Hq). cbn [app] in Hnd. apply NoDup_cons in Hnd as [Hc Hnd]. split; [done|]. exists z.
    rewrite list_lookup_insert_ne by set_solver. split; [done|]. apply IH; [done|set_solver|done].
Qed.

(** * The disk

    What the driver relies on is the behaviour of an ATA drive in programmed I/O mode:
    sector count, sector number and drive are written to registers, the command to
    port 0x1f7; the data of a read command is then taken from port 0x1f0, and the data
    of a write command is put there. *)
Record ata := mkAta {
  at_cnt : Z; at_lba0 : Z; at_lba1 : Z; at_lba2 : Z; at_drv : Z;
  at_disk : Z → Z → list Z;                (* drive, sector: its 512 bytes *)
  at_cmd : option (bool * Z * Z * Z);      (* write?, drive, first sector, count *)
}.

Definition ata_lba (a : ata) : Z :=
  at_lba0 a + Z.shiftl (at_lba1 a) 8 + Z.shiftl (at_lba2 a) 16 + Z.shiftl (Z.land (at_drv a) 15) 24.
Definition ata_drive (a : ata) : Z := Z.land (Z.shiftr (at_drv a) 4) 1.
Definition ata_start (w : bool) (a : ata) : ata :=
  mkAta (at_cnt a) (at_lba0 a) (at_lba1 a) (at_lba2 a) (at_drv a) (at_disk a)
    (Some (w, ata_drive a, ata_lba a, at_cnt a)).

Definition ata_out (port v : Z) (a : ata) : ata :=
  match a with
  | mkAta c l0 l1 l2 d D o =>
    if port =? 498 then mkAta v l0 l1 l2 d D o
    else if port =? 499 then mkAta c v l1 l2 d D o
    else if port =? 500 then mkAta c l0 v l2 d D o
    else if port =? 501 then mkAta c l0 l1 v d D o
    else if port =? 502 then mkAta c l0 l1 l2 v D o
    else if port =? 503 then
      if (v =? IDE_CMD_READ) || (v =? IDE_CMD_RDMUL) then ata_start false a
      else if (v =? IDE_CMD_WRITE) || (v =? IDE_CMD_WRMUL) then ata_start true a
      else a
    else a
  end.

(** The data of the read command in progress, and its end. *)
Definition ata_data (a : ata) : list Z :=
  match at_cmd a with
  | Some (false, d, l, n) => concat (at_disk a d <$> seqZ l n)
  | _ => []
  end.
Definition ata_idle (a : ata) : ata :=
  mkAta (at_cnt a) (at_lba0 a) (at_lba1 a) (at_lba2 a) (at_drv a) (at_disk a) None.

(** The sectors from [l] on of drive [d] take the bytes [bs]. *)
Definition disk_put (d l n : Z) (bs : list Z) (D : Z → Z → list Z) : Z → Z → list Z :=
  λ d' l', if (d' =? d) && (l <=? l') && (l' <? l + n)
           then take 512 (drop (Z.to_nat (512 * (l' - l))) bs) else D d' l'.
Definition ata_outsl (bs : list Z) (a : ata) : ata :=
  match at_cmd a with
  | Some (true, d, l, n) =>
    mkAta (at_cnt a) (at_lba0 a) (at_lba1 a) (at_lba2 a) (at_drv a) (disk_put d l n bs (at_disk a)) None
  | _ => a
  end.

(** The ports lead to such a drive, which is ready and without error when polled. *)
Class PortLaws (W : Type) {PO : PortOps W} := {
  ata_of : W → ata;
  inb_ready (s : kst W) : ∃ r, inb 503 s = Done r s ∧
    Z.land r (Z.lor IDE_BSY IDE_DRDY) = IDE_DRDY ∧ Z.land r (Z.lor IDE_DF IDE_ERR) = 0;
  outb_ok port v (s : kst W) : ∃ w, outb port v s = Done tt (set_k_mem w s) ∧
    ata_of w = ata_out port v (ata_of (k_mem s));
  insl_ok n (s : kst W) : length (ata_data (ata_of (k_mem s))) = Z.to_nat (4 * n) →
    ∃ w, insl 496 n s = Done (ata_data (ata_of (k_mem s))) (set_k_mem w s) ∧
      ata_of w = ata_idle (ata_of (k_mem s));
  outsl_ok d (s : kst W) : ∃ w, outsl 496 d s = Done tt (set_k_mem w s) ∧
    ata_of w = ata_outsl d (ata_of (k_mem s));
}.

Section Fifo.
Context {W : Type} {PO : PortOps W} {PL : PortLaws W} (fuel : nat) (Hfuel : (0 < fuel)%nat).
Implicit Types s : kst W.

Definition head_of (s : kst W) : option nat := fs_idequeue (k_fs s).
Definition with_queue (o : option nat) (s : kst W) : kst W := set_k_fs (set_fs_idequeue o (k_fs s)) s.
Definition dev (s : kst W) : ata := ata_of (k_mem s).

Definition dirty (x : buf) : bool := negb (Z.land (b_flags x) B_DIRTY =? 0).
Definition drive_of (x : buf) : Z := Z.land (b_dev x) 1.

(** Requests the disk can serve: a block of the file system, and a block of data. *)
Definition request_ok (x : buf) : Prop :=
  0 ≤ b_blockno x < FSSIZE ∧ length (b_data x) = Z.to_nat BSIZE.
Definition servable (s : kst W) (b : nat) : Prop := ∃ x, bufs s !! b = Some x ∧ request_ok x.

(** The contents of the disk once the request for [x] has been given to it: a block
    to write is on it. *)
Definition disk_after (x : buf) (D : Z → Z → list Z) : Z → Z → list Z :=
  if dirty x then λ d l, if (d =? drive_of x) && (l =? b_blockno x) then b_data x else D d l else D.

(** The disk is at work for [x]: the block to read has been asked for, the block to
    write has been handed over. *)
Definition active (x : buf) (a : ata) : Prop :=
  if dirty x then at_cmd a = None ∧ at_disk a (drive_of x) (b_blockno x) = b_data x
  else at_cmd a = Some (false, drive_of x, b_blockno x, 1).

Lemma idewait_ok c s : idewait fuel c s = Done 0 s.
Proof.
  unfold idewait. destruct fuel as [|f]; [lia|]. cbn [loop]. mstep.
  destruct (inb_ready s) as (r & -> & H1 & H2). mstep. rewrite H1, Z.eqb_refl. mstep. rewrite H2.
  by destruct c.
Qed.

Lemma set_k_mem_twice w w' s : set_k_mem w (set_k_mem w' s) = set_k_mem w s.
Proof. done. Qed.

(** The registers spell out drive and sector number. *)
Lemma lba_bytes n : 0 ≤ n < 2^28 →
  Z.land n 255 + Z.shiftl (Z.land (Z.shiftr n 8) 255) 8 + Z.shiftl (Z.land (Z.shiftr n 16) 255) 16 +
    Z.shiftl (Z.land (Z.shiftr n 24) 15) 24 = n.
Proof.
  intros Hn. change 255 with (Z.ones 8). change 15 with (Z.ones 4).
  rewrite !Z.land_ones, !Z.shiftr_div_pow2, !Z.shiftl_mul_pow2 by lia. Z.div_mod_to_equations. lia.
Qed.
Lemma drive_bits d h : 0 ≤ h < 16 →
  let v := Z.lor (Z.lor 224 (Z.shiftl (Z.land d 1) 4)) h in
  Z.land v 15 = h ∧ Z.land (Z.shiftr v 4) 1 = Z.land d 1.
Proof.
  intros Hh v. assert (Z.land d 1 = 0 ∨ Z.land d 1 = 1) as Hd.
  { pose proof (Z.land_ones d 1 ltac:(lia)) as E. change (Z.ones 1) with 1 in E. rewrite E.
    pose proof (Z.mod_pos_bound d (2^1)). lia. }
  assert (∃ k, h = Z.of_nat k ∧ (k < 16)%nat) as (k & -> & Hk) by (exists (Z.to_nat h); lia).
  unfold v. clear v Hh. destruct Hd as [-> | ->]; do 16 (destruct k as [|k]; [by vm_compute|]); lia.
Qed.

Lemma disk_put_one d n bs D d' l' :
  length bs = 512%nat → disk_put d n 1 bs D d' l' = if (d' =? d) && (l' =? n) then bs else D d' l'.
Proof.
  intros Hl. unfold disk_put. destruct (Z.eqb_spec d' d); cbn [andb]; [|done]. destruct (Z.eqb_spec l' n) as [->|].
  - rewrite Z.sub_diag. destruct (Z.leb_spec n n), (Z.ltb_spec n (n + 1)); try lia. cbn [andb].
    change (Z.to_nat (512 * 0)) with 0%nat. rewrite drop_0. apply take_ge. lia.
  - destruct (Z.leb_spec n l'), (Z.ltb_spec l' (n + 1)); try lia; done.
Qed.

(** One register written. *)
Ltac out_step :=
  match goal with |- context [outb ?p ?v ?st] =>
    let w := fresh "w" in let E := fresh "E" in
    destruct (outb_ok p v st) as (w & -> & E); mstep; rewrite ?set_k_mem_twice; cbn [k_mem set_k_mem] in E
  end.

Lemma idestart_ok b x s :
  bufs s !! b = Some x → request_ok x →
  ∃ w, idestart fuel (Some b) s = Done tt (set_k_mem w s) ∧ active x (ata_of w) ∧
    ∀ d l, at_disk (ata_of w) d l = disk_after x (at_disk (dev s)) d l.
Proof.
  intros Hx [Hb Hl]. change FSSIZE with 1000 in Hb. unfold idestart. mstep. rewrite (get_buf_eq b x) by done. mstep.
  destruct (Z.leb_spec FSSIZE (b_blockno x)); [change FSSIZE with 1000 in *; lia|]. mstep.
  change (7 <? sector_per_block) with false. mstep. rewrite idewait_ok. mstep.
  change sector_per_block with 1. rewrite Z.mul_1_r, (s32_id (b_blockno x)) by lia.
  set (n := b_blockno x) in *. set (dh := Z.lor _ (Z.land (Z.shiftr n 24) 15)).
  destruct (drive_bits (b_dev x) (Z.land (Z.shiftr n 24) 15)) as [Hdh Hdv].
  { change 15 with (Z.ones 4). rewrite Z.land_ones by lia. change (2^4) with 16. apply Z.mod_pos_bound. lia. }
  fold dh in Hdh, Hdv.
  assert (Hlba : Z.land n 255 + Z.shiftl (Z.land (Z.shiftr n 8) 255) 8 + Z.shiftl (Z.land (Z.shiftr n 16) 255) 16 +
    Z.shiftl (Z.land dh 15) 24 = n) by (rewrite Hdh; apply lba_bytes; lia).
  clearbody dh. do 6 out_step.
  destruct (ata_of (k_mem s)) as [c l0 l1 l2 d D o] eqn:Ea.
  rewrite E in E0. rewrite E0 in E1. rewrite E1 in E2. rewrite E2 in E3. rewrite E3 in E4. cbn in E4.
  unfold dev. rewrite Ea. cbn [at_disk]. clear E E0 E1 E2 E3.
  change write_cmd with IDE_CMD_WRITE. change read_cmd with IDE_CMD_READ.
  unfold active, disk_after, dirty. destruct (negb (Z.land (b_flags x) B_DIRTY =? 0)); mstep; out_step; rewrite E4 in E; cbn in E.
  - destruct (outsl_ok (b_data x) (set_k_mem w5 s)) as (w6 & -> & E6). cbn [k_mem set_k_mem] in E6.
    rewrite E in E6. unfold ata_outsl, ata_start, ata_drive, ata_lba in E6. cbn in E6. rewrite Hlba, Hdv in E6.
    exists w6. rewrite E6. cbn. split; [done|]. fold (drive_of x). split.
    + split; [done|]. rewrite disk_put_one by done. fold n. by rewrite !Z.eqb_refl.
    + intros d' l'. by rewrite disk_put_one by done.
  - exists w5. split; [done|]. rewrite E. unfold ata_start, ata_drive, ata_lba. cbn.
    rewrite Hlba, Hdv. done.
Qed.

Lemma last_of_eq n b q l s :
  queue (bufs s) (Some b) (q ++ [l]) → (length q < n)%nat → last_of n b s = Done l s.
Proof.
  revert b q. induction n as [|n IH]; intros b q Hq Hn; [lia|]. cbn [last_of]. mstep.
  destruct q as [|c q]; cbn [app queue] in Hq.
  - destruct Hq as ([= <-] & x & Hx & Hnx). rewrite (get_buf_eq b x) by done. mstep. by rewrite Hnx.
  - destruct Hq as ([= <-] & x & Hx & Hq). rewrite (get_buf_eq b x) by done. mstep.
    destruct (b_qnext x) as [b'|] eqn:E.
    + apply (IH b' q); [done|]. cbn in Hn. lia.
    + by destruct q; destruct Hq.
Qed.

Lemma queue_short q : NoDup q → Forall (λ b, b < NBUF)%nat q → (length q ≤ NBUF)%nat.
Proof.
  intros Hnd Hlt. rewrite <- (length_seq NBUF 0). apply submseteq_length, NoDup_submseteq; [done|].
  intros b Hb. rewrite Forall_forall in Hlt. apply elem_of_seq. specialize (Hlt b Hb). lia.
Qed.

(** The driver and the disk together: the queue, without repetitions, of requests that
    can be served, and the disk at work for its first one, or idle. *)
Definition sectors_ok (a : ata) : Prop := ∀ d l, length (at_disk a d l) = Z.to_nat BSIZE.
Definition busy (q : list nat) (s : kst W) : Prop :=
  match q with
  | [] => at_cmd (dev s) = None
  | b :: _ => ∃ x, bufs s !! b = Some x ∧ active x (dev s)
  end.
Record ide_ok (q : list nat) (s : kst W) : Prop := {
  io_queue : queue (bufs s) (head_of s) q;
  io_nodup : NoDup q;
  io_serve b : b ∈ q → servable s b;
  io_busy : busy q s;
  io_sectors : sectors_ok (dev s);
}.

(** The contents of the disk when the request at the head of [q] has been started. *)
Definition disk_next (q : list nat) (s : kst W) : Z → Z → list Z :=
  match q with
  | b :: _ => match bufs s !! b with Some x => disk_after x (at_disk (dev s)) | None => at_disk (dev s) end
  | [] => at_disk (dev s)
  end.

Lemma disk_after_ok x D d l :
  request_ok x → (∀ d l, length (D d l) = Z.to_nat BSIZE) → length (disk_after x D d l) = Z.to_nat BSIZE.
Proof. intros [_ Hl] HD. unfold disk_after. destruct (dirty x); [|done]. by destruct (_ && _). Qed.

Lemma servable_unq s s' c : unq <$> bufs s' !! c = unq <$> bufs s !! c → servable s c → servable s' c.
Proof.
  intros E (x & Hx & Hok). rewrite Hx in E. destruct (bufs s' !! c) as [y|] eqn:Hy; [|done]. apply (inj Some) in E.
  exists y. split; [done|]. pose proof (f_equal b_blockno E) as Hn. pose proof (f_equal b_data E) as Hd. cbn in Hn, Hd.
  unfold request_ok. by rewrite Hn, Hd.
Qed.

Lemma active_unq x y a : unq x = unq y → active x a → active y a.
Proof.
  intros E. pose proof (f_equal b_blockno E) as Hn. pose proof (f_equal b_data E) as Hd.
  pose proof (f_equal b_flags E) as Hf. pose proof (f_equal b_dev E) as Hv. cbn in Hn, Hd, Hf, Hv.
  unfold active, dirty, drive_of. by rewrite Hn, Hd, Hf, Hv.
Qed.

(** A new request goes to the end, and is started if the disk is idle. *)
Lemma ide_enqueue_ok q b s :
  ide_ok q s → b ∉ q → Forall (λ b, b < NBUF)%nat (q ++ [b]) → servable s b →
  ∃ s', ide_enqueue fuel b s = Done tt s' ∧ ide_ok (q ++ [b]) s' ∧
    (∀ c, unq <$> bufs s' !! c = unq <$> bufs s !! c) ∧
    (∀ d l, at_disk (dev s') d l = if q is [] then disk_next [b] s d l else at_disk (dev s) d l) ∧
    s' = set_k_mem (k_mem s') (set_k_fs (k_fs s') s).
Proof.
  intros [Hq Hnd Hsv Hbusy Hsec] Hbq Hlt (x & Hx & Hxb).
  assert (NoDup (q ++ [b])) as Hnd' by (apply NoDup_app; split; [done|]; split; [set_solver|apply NoDup_singleton]).
  pose proof (lookup_lt_Some _ _ _ Hx) as Hbl.
  unfold ide_enqueue. mstep. rewrite (set_buf_eq b _ x) by done. mstep. set (s1 := with_bufs _ s).
  assert (bufs s1 !! b = Some (unq x)) as Hb1 by (by apply list_lookup_insert_eq).
  assert (Hne : ∀ c, c ≠ b → bufs s1 !! c = bufs s !! c) by (intros c Hc; by apply list_lookup_insert_ne).
  assert (∀ c, unq <$> bufs s1 !! c = unq <$> bufs s !! c) as Hu1.
  { intros c. destruct (decide (c = b)) as [->|Hc]; [by rewrite Hb1, Hx|by rewrite Hne]. }
  assert (queue (bufs s1) (head_of s) q) as Hq1.
  { eapply queue_ext; [exact Hq|]. intros c z Hc Hz. exists z. rewrite Hne; [done|]. by intros ->. }
  assert (∀ s', (∀ c, unq <$> bufs s' !! c = unq <$> bufs s !! c) → ∀ c, c ∈ q ++ [b] → servable s' c) as Hsv'.
  { intros s' Hu c Hc. eapply servable_unq; [apply Hu|]. apply elem_of_app in Hc as [Hc|Hc]; [by apply Hsv|].
    apply list_elem_of_singleton in Hc as ->. by exists x. }
  unfold get_idequeue. mstep. change (fs_idequeue (k_fs s1)) with (head_of s).
  destruct q as [|l q' _] using rev_ind.
  - cbn [queue] in Hq1. rewrite Hq1. unfold upd_fs. mstep. cbn [k_fs set_k_fs set_fs_idequeue fs_idequeue].
    rewrite bool_decide_eq_true_2 by done. cbn [when]. set (s2 := set_k_fs _ s1).
    destruct (idestart_ok b (unq x) s2) as (w & -> & Ha & Hd); [done|done|].
    exists (set_k_mem w s2). split; [done|]. split; [split|].
    + cbn. split; [done|]. by exists (unq x).
    + done.
    + by apply Hsv'.
    + cbn. exists (unq x). by split.
    + intros d l. unfold dev. cbn. rewrite Hd. by apply disk_after_ok.
    + split; [done|]. split; [|done]. intros d l. unfold dev at 1, disk_next. cbn. rewrite Hd, Hx. done.
  - assert (∃ b0, head_of s = Some b0 ∧ ∃ r, q' ++ [l] = b0 :: r) as (b0 & E0 & r & Er).
    { destruct q'; cbn in Hq1; destruct Hq1 as [-> _]; cbn; eauto. }
    rewrite E0 in Hq1 |- *. mstep. rewrite (last_of_eq _ b0 q' l); [|done|].
    2: { apply Forall_app in Hlt as [Hlt _]. pose proof (queue_short _ Hnd Hlt) as Hs. rewrite length_app in Hs. cbn in Hs. lia. }
    destruct (queue_last _ _ _ _ Hq1) as (y & Hy & Hyn). mstep. rewrite (set_buf_eq l _ y) by done. mstep.
    change (fs_idequeue (k_fs (with_bufs _ s1))) with (head_of s). rewrite E0.
    assert (b0 ≠ b) as Hb0.
    { intros ->. apply Hbq. rewrite Er. set_solver. }
    rewrite bool_decide_eq_false_2 by congruence. cbn [when].
    set (s2 := with_bufs _ s1).
    assert (∀ c, unq <$> bufs s2 !! c = unq <$> bufs s !! c) as Hu2.
    { intros c. unfold s2. rewrite bufs_with, <- Hu1. destruct (decide (c = l)) as [->|Hc].
      * rewrite list_lookup_insert_eq by (by eapply lookup_lt_Some). by rewrite Hy.
      * by rewrite list_lookup_insert_ne. }
    exists s2. split; [done|]. split; [split|].
    + change (head_of s2) with (head_of s). rewrite E0. unfold s2. rewrite bufs_with.
      eapply queue_snoc; [done|done|exact Hy|done|exact Hb1|done|done].
    + done.
    + by apply Hsv'.
    + rewrite Er in Hbusy |- *. cbn [app busy] in *. destruct Hbusy as (z & Hz & Ha).
      specialize (Hu2 b0). rewrite Hz in Hu2. destruct (bufs s2 !! b0) as [z'|]; [|done]. apply (inj Some) in Hu2.
      exists z'. split; [done|]. by eapply active_unq.
    + done.
    + split; [done|]. split; [|done]. intros d e. rewrite Er. done.
Qed.

(** What a completed request leaves in its buffer: a read has the disk's data. *)
Definition arrived (d : list Z) (x : buf) : buf :=
  if Z.land (b_flags x) B_DIRTY =? 0 then set_b_data d x else x.
Definition served (d : list Z) (x : buf) : buf :=
  set_b_flags (Z.land (Z.lor (b_flags x) B_VALID) (Z.lnot B_DIRTY)) (arrived d x).

(** It is up to date: the test [iderw] waits for holds. *)
Lemma served_flags d x : Z.land (b_flags (served d x)) (Z.lor B_VALID B_DIRTY) = B_VALID.
Proof.
  clear Hfuel. cbn. apply Z.bits_inj_iff'. intros n Hn. change (Z.lor B_VALID B_DIRTY) with 6. change B_VALID with 2. change (Z.lnot B_DIRTY) with (-5).
  rewrite !Z.land_spec, Z.lor_spec.
  destruct (decide (n < 3)) as [H|H].
  - assert (n = 0 ∨ n = 1 ∨ n = 2) as [->|[->| ->]] by lia; cbn; rewrite ?orb_true_r, ?orb_false_r, ?andb_false_r; done.
  - rewrite (Z.bits_above_log2 6), (Z.bits_above_log2 2); [|lia|cbn; lia|lia|cbn; lia]. by rewrite andb_false_r.
Qed.

Lemma with_bufs_id s : with_bufs (bufs s) s = s.
Proof. destruct s as [? ? ? ? ? ? ? ? ? ? ? ? ? ? f ?]. by destruct f. Qed.

(** The data of a read is what the disk has in that block. *)
Lemma fetch_ok b x s :
  bufs s !! b = Some x → active x (dev s) → sectors_ok (dev s) →
  ∃ w, (if Z.land (b_flags x) B_DIRTY =? 0 then
       r <- idewait fuel true ;; when (0 <=? r) (d <- insl 496 (BSIZE / 4) ;; set_buf b (set_b_data d))
     else ret tt) s =
    Done tt (with_bufs (<[b := arrived (at_disk (dev s) (drive_of x) (b_blockno x)) x]> (bufs s)) (set_k_mem w s)) ∧
    at_cmd (ata_of w) = None ∧ at_disk (ata_of w) = at_disk (dev s).
Proof.
  intros Hx Ha Hsec. unfold active, dirty in Ha. unfold arrived.
  destruct (Z.eqb_spec (Z.land (b_flags x) B_DIRTY) 0); cbn [negb] in Ha.
  - assert (ata_data (dev s) = at_disk (dev s) (drive_of x) (b_blockno x)) as Hdata.
    { unfold ata_data. rewrite Ha. change (seqZ (b_blockno x) 1) with [0 + b_blockno x]. cbn. by rewrite app_nil_r. }
    destruct (insl_ok (BSIZE / 4) s) as (w & Hr & Hw).
    { change (ata_of (k_mem s)) with (dev s). rewrite Hdata, Hsec. done. }
    change (ata_of (k_mem s)) with (dev s) in Hr, Hw. rewrite Hdata in Hr.
    exists w. rewrite Hw. split; [|done].
    mstep. rewrite idewait_ok. mstep. cbn [when Z.leb Z.compare]. mstep. rewrite Hr. mstep.
    by rewrite (set_buf_eq b _ x).
  - rewrite list_insert_id by done. exists (k_mem s). mstep. split; [|split; [apply Ha|done]].
    f_equal. symmetry. etransitivity; [|apply with_bufs_id]. by destruct s.
Qed.

(** With the first request [b] done, the disk is set to work for the next one. *)
Lemma start_next b q s s4 :
  queue (bufs s4) (head_of s4) q → (∀ c, c ≠ b → bufs s4 !! c = bufs s !! c) → b ∉ q → (∀ c, c ∈ q → servable s c) →
  at_cmd (dev s4) = None → at_disk (dev s4) = at_disk (dev s) →
  ∃ w', when (bool_decide (head_of s4 ≠ None)) (idestart fuel (head_of s4)) s4 = Done tt (set_k_mem w' s4) ∧
    (∀ d l, at_disk (ata_of w') d l = disk_next q s d l) ∧
    match q with [] => at_cmd (ata_of w') = None
            | c :: _ => ∃ u, bufs s !! c = Some u ∧ active u (ata_of w') end.
Proof.
  intros Hq Hoth Hb Hsv Hcmd Hdk. destruct q as [|c q]; cbn [queue] in Hq.
  - rewrite Hq. exists (k_mem s4). split; [by destruct s4|]. split; [|done]. intros d l. cbn. by rewrite <- Hdk.
  - destruct Hq as (-> & u & Hu & _). rewrite bool_decide_eq_true_2 by done. cbn [when].
    assert (c ≠ b) as Hcb by set_solver. rewrite Hoth in Hu by done.
    destruct (Hsv c) as (u' & Hu' & Hok); [set_solver|]. assert (u' = u) as -> by congruence.
    destruct (idestart_ok c u s4) as (w' & -> & Ha' & Hd'); [by rewrite Hoth|done|].
    exists w'. split; [done|]. split; [|by exists u]. intros d l. rewrite Hd'. cbn. by rewrite Hu, Hdk.
Qed.

(** An interrupt completes the first request, and only it, and starts the second. *)
Lemma ideintr_ok b q x s :
  kctx [] s → is_Some (k_locks s !! L_idelock) → is_Some (k_locks s !! L_ptable) → length (k_procs s) = NPROC →
  ide_ok (b :: q) s → bufs s !! b = Some x →
  ∃ s', ideintr fuel s = Done tt s' ∧ ide_ok q s' ∧
    bufs s' = <[b := served (at_disk (dev s) (drive_of x) (b_blockno x)) x]> (bufs s) ∧
    (∀ d l, at_disk (dev s') d l = disk_next q s d l) ∧
    k_procs s' = wake (C_buf b) <$> k_procs s ∧ kctx [] s' ∧ dom (k_locks s') = dom (k_locks s).
Proof.
  intros Hc Hi Hp Hlen [[Hh (z & Hz & Hq)] Hnd Hsv (z' & Hz' & Hact) Hsec] Hx.
  apply NoDup_cons in Hnd as [Hb Hnd].
  assert (z = x) as -> by congruence. assert (z' = x) as -> by congruence. clear Hz Hz'.
  destruct (acquire_kctx [] L_idelock s) as [Ea Ka]; [done|set_solver|done|].
  unfold ideintr. mstep. rewrite Ea. unfold get_idequeue. mstep. set (s1 := acquired L_idelock s) in *.
  change (fs_idequeue (k_fs s1)) with (head_of s). rewrite Hh. mstep. rewrite (get_buf_eq b x) by done.
  unfold upd_fs. mstep. change (set_k_fs _ s1) with (with_queue (b_qnext x) s1). set (s2 := with_queue _ s1) in *.
  destruct (fetch_ok b x s2 Hx Hact Hsec) as (w & -> & Hcmd & Hdk). mstep. change (dev s2) with (dev s).
  change (dev s2) with (dev s) in Hdk. change (bufs s2) with (bufs s).
  set (d := at_disk (dev s) (drive_of x) (b_blockno x)).
  pose proof (lookup_lt_Some _ _ _ Hx) as Hbl.
  rewrite (set_buf_eq b _ (arrived d x)) by (by apply list_lookup_insert_eq). mstep. rewrite with_bufs_twice.
  rewrite bufs_with, list_insert_insert_eq. set (y := set_b_flags _ _).
  rewrite (set_buf_eq b _ y) by (by apply list_lookup_insert_eq). mstep.
  rewrite with_bufs_twice, bufs_with, list_insert_insert_eq.
  assert (set_b_flags (Z.land (b_flags y) (Z.lnot B_DIRTY)) y = served d x) as Ey.
  { unfold y, served, arrived. by destruct (_ =? 0). }
  rewrite Ey. set (s3 := with_bufs _ _).
  assert (kctx [L_idelock] s3) as K3 by (revert Ka; by apply kctx_frame).
  rewrite (wakeup_eq [L_idelock]); [|done|set_solver| |done].
  2: { change (is_Some (k_locks s1 !! L_ptable)). cbn. by rewrite lookup_insert_ne. }
  mstep. set (s4 := set_k_cpu _ _).
  assert (kctx [L_idelock] s4) as K4 by (apply (kctx_norm _ (set_k_procs (wake (C_buf b) <$> k_procs s3) s3)); by apply kctx_procs).
  assert (∀ c, c ≠ b → bufs s4 !! c = bufs s !! c) as Hoth.
  { intros c Hcb. change (bufs s4) with (<[b := served d x]> (bufs s)). by rewrite list_lookup_insert_ne. }
  assert (queue (bufs s4) (head_of s4) q) as Hq4.
  { apply (queue_ext (bufs s)); [done|]. intros c u Hcq Hu. exists u. rewrite Hoth by (by intros ->). done. }
  change (fs_idequeue (k_fs s4)) with (head_of s4).
  destruct (start_next b q s s4) as (w' & -> & Hd' & Hb'); [done|done|done|intros c Hcq; apply Hsv; set_solver|done|exact Hdk|].
  mstep. set (s5 := set_k_mem w' s4). assert (kctx [L_idelock] s5) as K5 by (revert K4; by apply kctx_frame).
  destruct (release_kctx [] L_idelock s5 K5) as [-> K6].
  exists (released L_idelock s5). split; [done|]. split; [|split; [done|split; [exact Hd'|split; [done|split; [done|]]]]].
  - split.
    + exact Hq4.
    + done.
    + intros c Hcq. destruct (Hsv c) as (u & Hu & Hok); [set_solver|]. exists u. split; [|done].
      etransitivity; [apply Hoth; by intros ->|done].
    + destruct q as [|c q]; [exact Hb'|]. destruct Hb' as (u & Hu & Ha'). exists u. split; [|exact Ha'].
      etransitivity; [apply Hoth; set_solver|done].
    + intros d' l. change (length (at_disk (ata_of w') d' l) = Z.to_nat BSIZE). rewrite Hd'. unfold disk_next.
      destruct q as [|c q]; [apply Hsec|]. destruct (Hsv c) as (u & Hu & Hok); [set_solver|]. rewrite Hu.
      by apply disk_after_ok.
  - cbn. apply elem_of_dom in Hi. rewrite !dom_insert_L. set_solver.
Qed.

(** A spurious interrupt changes nothing but the interrupt state. *)
Lemma ideintr_spurious s :
  kctx [] s → is_Some (k_locks s !! L_idelock) → head_of s = None →
  ∃ s', ideintr fuel s = Done tt s' ∧ k_fs s' = k_fs s ∧ k_mem s' = k_mem s ∧ k_procs s' = k_procs s ∧ kctx [] s'.
Proof.
  intros Hc Hi Hh. destruct (acquire_kctx [] L_idelock s) as [Ea Ka]; [done|set_solver|done|].
  unfold ideintr. mstep. rewrite Ea. unfold get_idequeue. mstep.
  change (fs_idequeue (k_fs (acquired L_idelock s))) with (head_of s). rewrite Hh.
  destruct (release_kctx [] L_idelock _ Ka) as [-> K5]. by eexists.
Qed.

End Fifo.

(** C36: the disk driver, on a disk that becomes ready and reports no error.  A request
    that [iderw] makes goes to the end of the queue; if the queue was empty the disk is
    set to work for it, which for a block to be written puts its data on the disk, and
    otherwise the disk is left alone.  Each interrupt completes the first request and
    no other: its buffer gets the block the disk has (or keeps its data if it was
    written), valid and not dirty, which is what its waiter tests; exactly the
    processes sleeping on that buffer are woken; and the disk is set to work for the
    next request, or left idle.  No other buffer and no other block changes; an
    interrupt without a request changes nothing. *)
Theorem ide_fifo {W} {PO : PortOps W} {PL : PortLaws W} fuel q b (s : kst W) :
  (0 < fuel)%nat → ide_ok q s →
  (b ∉ q → Forall (λ b, b < NBUF)%nat (q ++ [b]) → servable s b →
   ∃ s1, ide_enqueue fuel b s = Done tt s1 ∧ ide_ok (q ++ [b]) s1 ∧
     (∀ c, unq <$> bufs s1 !! c = unq <$> bufs s !! c) ∧
     (∀ d l, at_disk (dev s1) d l = if q is [] then disk_next [b] s d l else at_disk (dev s) d l) ∧
     s1 = set_k_mem (k_mem s1) (set_k_fs (k_fs s1) s)) ∧
  (kctx [] s → is_Some (k_locks s !! L_idelock) → is_Some (k_locks s !! L_ptable) → length (k_procs s) = NPROC →
   match q with
   | [] => ∃ s2, ideintr fuel s = Done tt s2 ∧ k_fs s2 = k_fs s ∧ k_mem s2 = k_mem s ∧ k_procs s2 = k_procs s ∧ kctx [] s2
   | c :: q' => ∃ x s2, bufs s !! c = Some x ∧ ideintr fuel s = Done tt s2 ∧ ide_ok q' s2 ∧
       bufs s2 = <[c := served (at_disk (dev s) (drive_of x) (b_blockno x)) x]> (bufs s) ∧
       Z.land (b_flags (served (at_disk (dev s) (drive_of x) (b_blockno x)) x)) (Z.lor B_VALID B_DIRTY) = B_VALID ∧
       (∀ d l, at_disk (dev s2) d l = disk_next q' s d l) ∧
       k_procs s2 = wake (C_buf c) <$> k_procs s ∧ kctx [] s2
   end).
Proof.
  intros Hf Hs. split; [by apply ide_enqueue_ok|]. intros Hc Hi Hp Hlen. destruct q as [|c q'].
  - destruct Hs as [Hq _ _ _ _]. destruct (ideintr_spurious fuel Hf s Hc Hi Hq) as (s2 & H1 & H2 & H3 & H4 & H5).
    by exists s2.
  - destruct (io_serve _ _ Hs c) as (x & Hx & _); [set_solver|].
    destruct (ideintr_ok fuel Hf c q' x s Hc Hi Hp Hlen Hs Hx) as (s2 & H1 & H2 & H3 & H4 & H5 & H6 & _).
    exists x, s2. do 4 (split; [done|]). split; [apply served_flags|]. done.
Qed.

(** A drive that is always ready.  Buffer 1, a block to read, is being served, buffer 2,
    a block to write, is next, and a third request is made. *)
Module IdeDemo.
#[global] Instance ports : PortOps ata := {|
  inb _ := ret IDE_DRDY;
  outb port v := modify (λ s, set_k_mem (ata_out port v (k_mem s)) s);
  insl _ _ := d <- gets (λ s, ata_data (k_mem s)) ;; modify (λ s, set_k_mem (ata_idle (k_mem s)) s) ;;; ret d;
  outsl _ d := modify (λ s, set_k_mem (ata_outsl d (k_mem s)) s);
  picenable _ := ret tt; ioapicenable _ _ := ret tt |}.
#[global] Instance ports_ok : PortLaws ata.
Proof.
  refine {| ata_of a := a |}.
  - intros s. by exists IDE_DRDY.
  - intros port v s. by eexists.
  - intros n s _. by eexists.
  - intros d s. by eexists.
Defined.
Definition block (v : Z) : list Z := replicate (Z.to_nat BSIZE) v.
Definition buf_at (n : Z) (fl v : Z) (q : option nat) : buf :=
  set_b_data (block v) (set_b_qnext q (set_b_flags fl (set_b_blockno n buf0))).
Definition drv : ata := mkAta 1 7 0 0 224 (λ _ l, block l) (Some (false, 0, 7, 1)).
Definition st : kst ata :=
  set_k_procs (replicate NPROC proc0)
  (set_k_fs (set_fs_idequeue (Some 1%nat)
     (set_fs_bufs [buf0; buf_at 7 0 0 (Some 2%nat); buf_at 9 B_DIRTY 5 None; buf_at 8 0 0 None] fs0))
    (Sched.Demo.mk {[ L_idelock := mkLock 0 "ide" None; L_ptable := mkLock 0 "ptable" None ]} ∅ drv)).
End IdeDemo.

Lemma ide_demo_ok : ide_ok [1%nat; 2%nat] IdeDemo.st ∧ servable IdeDemo.st 3 ∧ kctx [] IdeDemo.st.
Proof.
  assert (∀ n fl v q, 0 ≤ n < FSSIZE → request_ok (IdeDemo.buf_at n fl v q)) as Hok.
  { intros n fl v q Hn. split; [exact Hn|]. apply length_replicate. }
  split; [split|split].
  - split; [reflexivity|]. eexists. split; [reflexivity|]. split; [reflexivity|]. eexists. split; reflexivity.
  - apply (bool_decide_unpack _). vm_compute. exact I.
  - intros c Hc. assert (c = 1%nat ∨ c = 2%nat) as [-> | ->] by set_solver;
      eexists; (split; [reflexivity|apply Hok; vm_compute; split; congruence]).
  - eexists. split; [reflexivity|]. vm_compute. reflexivity.
  - intros d l. apply length_replicate.
  - eexists. split; [reflexivity|apply Hok; vm_compute; split; congruence].
  - apply kctx_none; [|reflexivity]. apply map_Forall_insert_2; [reflexivity|]. apply map_Forall_singleton. reflexivity.
Qed.

Lemma ide_fifo_witness : ∃ s1 x s2, ide_enqueue 1 3 IdeDemo.st = Done tt s1 ∧
  bufs IdeDemo.st !! 1%nat = Some x ∧ ideintr 1 IdeDemo.st = Done tt s2 ∧ ide_ok [2%nat] s2 ∧
  (∀ d l, at_disk (dev s2) d l = disk_next [2%nat] IdeDemo.st d l).
Proof.
  destruct ide_demo_ok as (Hs & Hb & Hc).
  destruct (ide_fifo 1 [1%nat; 2%nat] 3%nat IdeDemo.st) as [He Hi]; [lia|exact Hs|].
  destruct He as (s1 & H1 & _); [set_solver|repeat constructor|exact Hb|].
  destruct Hi as (x & s2 & Hx & H2 & H3 & _ & _ & H4 & _); [exact Hc|by eexists|by eexists|apply length_replicate|].
  exists s1, x, s2. split; [exact H1|]. split; [exact Hx|]. split; [exact H2|]. split; [exact H3|exact H4].
Defined.
