(* ===== verification/Services.v ===== *)
(** What kernel code promises to kernel code: the operations of kalloc.c and
    vm.c ([VmOps]) with the contract process and pipe code relies on ([VmLaws]),
    and the operations of log.c and fs.c ([FsOps]) used by file and process code
    with theirs ([FsLaws]).  Clients are verified against the contracts. *)
From S2P Require Import Prelude Mem KState Spinlock Sched.

(** * Memory services *)

(** A memory operation either finishes or stops the machine with a message. *)
Definition memop (W A : Type) : Type := W → string + A * W.

Class VmOps (W : Type) := {
  vm_kalloc : memop W Z;
  vm_kfree : Z → memop W unit;
  vm_setupkvm : memop W Z;
  vm_inituvm : Z → list Z → memop W unit;
  vm_allocuvm : Z → Z → Z → memop W Z;
  vm_deallocuvm : Z → Z → Z → memop W Z;
  vm_freevm : Z → memop W unit;
  vm_copyuvm : Z → Z → memop W Z;
  (* a load or store of one byte through a page table; [None] is a page fault *)
  vm_uread : W → Z → Z → option Z;
  vm_uwrite : W → Z → Z → Z → option W;
  vm_clearpteu : Z → Z → memop W unit;
  vm_copyout : Z → Z → list Z → memop W Z;
  (* is there a page table entry for the address; store into the page behind it *)
  vm_mapped : W → Z → Z → bool;
  (* may user code access the page of the address *)
  vm_user : W → Z → Z → bool;
  vm_poke : Z → Z → list Z → memop W unit;
}.

(** What a client may own: a page from [kalloc], or an address space with its
    size and the bytes of user memory below that size. *)
Inductive vobj :=
| OPage
| OSpace (sz : Z) (um : mem).

Definition PGROUNDUP (a : Z) : Z := Z.land (u32 (a + PGSIZE - 1)) (Z.lnot (PGSIZE - 1)).

Lemma PGROUNDUP_down a : PGROUNDUP a = 4096 * (u32 (a + 4095) / 4096).
Proof.
  unfold PGROUNDUP. change (PGSIZE - 1) with (Z.ones 12). rewrite land_lnot_ones by done.
  by replace (a + PGSIZE - 1) with (a + 4095) by (unfold PGSIZE; lia).
Qed.

Lemma PGROUNDUP_idem a : PGROUNDUP (PGROUNDUP a) = PGROUNDUP a.
Proof.
  rewrite (PGROUNDUP_down (PGROUNDUP a)), (PGROUNDUP_down a). pose proof (u32_range (a + 4095)) as Hr.
  set (b := u32 (a + 4095)) in *. clearbody b. rewrite u32_id; Z.div_mod_to_equations; lia.
Qed.

(** [um'] is [um] grown from [sz] to [newsz]: what was below [sz] is kept and the
    new pages are zero. *)
Definition grown (sz newsz : Z) (um um' : mem) : Prop :=
  (∀ va, 0 ≤ va < sz → um' va = um va) ∧ (∀ va, sz ≤ va → PGROUNDUP sz ≤ va < newsz → um' va = 0).

(** [vm_inv g w]: in world [w] the objects of [g], by address, are live and
    disjoint.  Every operation says what becomes of them. *)
Class VmLaws (W : Type) `{VmOps W} := {
  vm_inv : gmap Z vobj → W → Prop;
  vm_kalloc_ok g w : vm_inv g w → ∃ a w', vm_kalloc w = inr (a, w') ∧
    ((a = 0 ∧ vm_inv g w') ∨ (0 < a < 2^32 ∧ g !! a = None ∧ vm_inv (<[a := OPage]> g) w'));
  vm_kfree_ok g w a : vm_inv g w → g !! a = Some OPage →
    ∃ w', vm_kfree a w = inr (tt, w') ∧ vm_inv (delete a g) w';
  vm_copyuvm_ok g w pd sz um : vm_inv g w → g !! pd = Some (OSpace sz um) →
    ∃ d w', vm_copyuvm pd sz w = inr (d, w') ∧
      ((d = 0 ∧ vm_inv g w') ∨
       (0 < d < 2^32 ∧ g !! d = None ∧ vm_inv (<[d := OSpace sz um]> g) w'));
  (* the caller gives the size, or that size rounded up to whole pages *)
  vm_allocuvm_ok g w pd sz um oldsz newsz : vm_inv g w → g !! pd = Some (OSpace sz um) →
    oldsz = sz ∨ oldsz = PGROUNDUP sz → sz ≤ oldsz ≤ newsz → newsz < 2^32 →
    ∃ r w', vm_allocuvm pd oldsz newsz w = inr (r, w') ∧
      ((r = 0 ∧ vm_inv g w') ∨
       (r = newsz ∧ newsz < KERNBASE ∧ (∀ va, 0 ≤ va → PGROUNDUP sz ≤ va < newsz → vm_user w' pd va = true) ∧
        ∃ um', grown sz newsz um um' ∧ vm_inv (<[pd := OSpace newsz um']> g) w'));
  vm_deallocuvm_ok g w pd sz um newsz : vm_inv g w → g !! pd = Some (OSpace sz um) →
    0 ≤ newsz ≤ sz → ∃ w', vm_deallocuvm pd sz newsz w = inr (newsz, w') ∧
      vm_inv (<[pd := OSpace newsz um]> g) w';
  vm_freevm_ok g w pd sz um : vm_inv g w → g !! pd = Some (OSpace sz um) →
    ∃ w', vm_freevm pd w = inr (tt, w') ∧ vm_inv (delete pd g) w';
  vm_bytes_ok g w pd sz um : vm_inv g w → g !! pd = Some (OSpace sz um) → mem_ok um;
  vm_uread_ok g w pd sz um va : vm_inv g w → g !! pd = Some (OSpace sz um) →
    0 ≤ va < sz → vm_uread w pd va = Some (um va);
  vm_uwrite_ok g w pd sz um va v : vm_inv g w → g !! pd = Some (OSpace sz um) →
    0 ≤ va < sz → ∃ w', vm_uwrite w pd va v = Some w' ∧
      vm_inv (<[pd := OSpace sz (upd um va v)]> g) w';
  vm_clearpteu_ok g w pd sz um va : vm_inv g w → g !! pd = Some (OSpace sz um) →
    0 ≤ va < sz → ∃ w', vm_clearpteu pd va w = inr (tt, w') ∧ vm_inv g w' ∧
      ∀ va', 0 ≤ va' < sz → va' / PGSIZE ≠ va / PGSIZE → vm_user w' pd va' = vm_user w pd va';
  (* a page that user code may not access is the only reason to fail *)
  vm_copyout_ok g w pd sz um va bs : vm_inv g w → g !! pd = Some (OSpace sz um) →
    0 ≤ va → va + Z.of_nat (length bs) ≤ sz → ∃ r w' um', vm_copyout pd va bs w = inr (r, w') ∧
      vm_inv (<[pd := OSpace sz um']> g) w' ∧
      (∀ va', 0 ≤ va' < sz → vm_user w' pd va' = vm_user w pd va') ∧
      (r = 0 ∧ um' = writes um va bs ∨
       r = -1 ∧ ∃ va', va ≤ va' < va + Z.of_nat (length bs) ∧ vm_user w pd va' = false);
}.

(** * File system services

    The operations of log.c and fs.c that file.c, pipe.c, proc.c and exec.c call.
    They run in the kernel monad: they take locks and may give up the CPU.
    Inodes are slots of [icache]; data is moved to and from user memory. *)
Class FsOps (W : Type) := {
  fs_iinit : Z → M (kst W) unit;
  fs_initlog : Z → M (kst W) unit;
  fs_begin_op : M (kst W) unit;
  fs_end_op : M (kst W) unit;
  fs_idup : nat → M (kst W) nat;
  fs_iput : nat → M (kst W) unit;
  fs_ilock : nat → M (kst W) unit;
  fs_iunlock : nat → M (kst W) unit;
  fs_namei : list Z → M (kst W) (option nat);
  fs_stati : nat → Z → M (kst W) unit;
  fs_readi : nat → Z → Z → Z → M (kst W) Z;
  fs_writei : nat → Z → Z → Z → M (kst W) Z;
  (* the same two functions on a kernel buffer *)
  fs_readk : nat → Z → Z → M (kst W) (Z * list Z);
  fs_writek : nat → list Z → Z → M (kst W) Z;
  fs_nameiparent : list Z → M (kst W) (option (nat * list Z));
  fs_dirlookup : nat → list Z → M (kst W) (option (nat * Z));
  fs_dirlink : nat → list Z → Z → M (kst W) Z;
  fs_ialloc : Z → Z → M (kst W) (option nat);
  fs_iupdate : nat → M (kst W) unit;
  (* the fields of an inode, read and assigned under its lock *)
  fs_geti : nat → M (kst W) inode;
  fs_seti : nat → (inode → inode) → M (kst W) unit;
}.

Section Lift.
Context {W : Type} {VO : VmOps W}.

Definition lift {A} (op : memop W A) : M (kst W) A := λ s,
  match op (k_mem s) with
  | inl msg => Panic msg
  | inr (a, w) => Done a (set_k_mem w s)
  end.

Definition kalloc : M (kst W) Z := lift vm_kalloc.
Definition kfree (a : Z) : M (kst W) unit := lift (vm_kfree a).
Definition setupkvm : M (kst W) Z := lift vm_setupkvm.
Definition inituvm (pgdir : Z) (init : list Z) : M (kst W) unit := lift (vm_inituvm pgdir init).
Definition allocuvm (pgdir oldsz newsz : Z) : M (kst W) Z := lift (vm_allocuvm pgdir oldsz newsz).
Definition deallocuvm (pgdir oldsz newsz : Z) : M (kst W) Z := lift (vm_deallocuvm pgdir oldsz newsz).
Definition freevm (pgdir : Z) : M (kst W) unit := lift (vm_freevm pgdir).
Definition copyuvm (pgdir sz : Z) : M (kst W) Z := lift (vm_copyuvm pgdir sz).
Definition clearpteu (pgdir uva : Z) : M (kst W) unit := lift (vm_clearpteu pgdir uva).
Definition copyout (pgdir va : Z) (bs : list Z) : M (kst W) Z := lift (vm_copyout pgdir va bs).

(** One page table for the scheduler. *)
Definition kvmalloc : M (kst W) unit := d <- setupkvm ;; modify (set_k_kpgdir d) ;;; switchkvm.

(** Kernel code that follows a user pointer: the access goes through the page
    table of the current process, and a fault in kernel mode is [panic("trap")]. *)
Definition uload8 (va : Z) : M (kst W) Z :=
  p <- cur ;;
  o <- gets (λ s, vm_uread (k_mem s) (p_pgdir p) va) ;;
  match o with Some v => ret v | None => panic "trap" end.

Definition ustore8 (va v : Z) : M (kst W) unit :=
  p <- cur ;;
  o <- gets (λ s, vm_uwrite (k_mem s) (p_pgdir p) va v) ;;
  match o with Some w => modify (set_k_mem w) | None => panic "trap" end.

(** Runs of bytes, at ascending addresses. *)
Fixpoint uloads (va : Z) (n : nat) : M (kst W) (list Z) :=
  match n with
  | O => ret []
  | S n' => b <- uload8 va ;; bs <- uloads (va + 1) n' ;; ret (b :: bs)
  end.
Fixpoint ustores (va : Z) (bs : list Z) : M (kst W) unit :=
  match bs with
  | [] => ret tt
  | b :: bs' => ustore8 va b ;;; ustores (va + 1) bs'
  end.

Definition uload32 (va : Z) : M (kst W) Z := bs <- uloads va 4 ;; ret (of_le bs).
Definition ustore32 (va v : Z) : M (kst W) unit := ustores va (le32 v).

End Lift.

Arguments kalloc : simpl never.
Arguments kfree : simpl never.
Arguments copyuvm : simpl never.
Arguments freevm : simpl never.
Arguments uload8 : simpl never.
Arguments ustore8 : simpl never.

(** ** User memory through the contract *)
Section User.
Context {W : Type} {VO : VmOps W} {VL : VmLaws W}.
Implicit Types s : kst W.

Lemma lift_eq {A} (op : memop W A) a w s :
  op (k_mem s) = inr (a, w) → lift op s = Done a (set_k_mem w s).
Proof. intros Hop. unfold lift. by rewrite Hop. Qed.

(** The current process, slot [i], has user memory [um] of size [p_sz p]. *)
Definition user_mem (g : gmap Z vobj) (i : nat) (p : proc) (um : mem) (s : kst W) : Prop :=
  vm_inv g (k_mem s) ∧ k_cur s = Some i ∧ k_procs s !! i = Some p ∧
  g !! p_pgdir p = Some (OSpace (p_sz p) um).

Lemma uload8_eq g i p um va s :
  user_mem g i p um s → 0 ≤ va < p_sz p → uload8 va s = Done (um va) s.
Proof.
  intros (Hinv & Hcur & Hp & Hg) Hva. unfold uload8. cbn. rewrite (cur_eq i p) by done. cbn.
  by rewrite (vm_uread_ok g _ _ (p_sz p) um).
Qed.

Lemma ustore8_eq g i p um va v s :
  user_mem g i p um s → 0 ≤ va < p_sz p →
  ∃ w, ustore8 va v s = Done tt (set_k_mem w s) ∧
    user_mem (<[p_pgdir p := OSpace (p_sz p) (upd um va v)]> g) i p (upd um va v) (set_k_mem w s).
Proof.
  intros (Hinv & Hcur & Hp & Hg) Hva. unfold ustore8. cbn. rewrite (cur_eq i p) by done. cbn.
  destruct (vm_uwrite_ok g (k_mem s) (p_pgdir p) (p_sz p) um va v) as (w & -> & Hw); [done..|].
  exists w. split; [done|]. repeat split; try done. cbn. by rewrite lookup_insert_eq.
Qed.

Lemma uloads_eq g i p um va n s :
  user_mem g i p um s → 0 ≤ va → va + Z.of_nat n ≤ p_sz p →
  uloads va n s = Done (bytes um va n) s.
Proof.
  intros Hu. revert va. induction n as [|n IH]; intros va H0 Hn; [done|].
  cbn [uloads]. rewrite bytes_S. cbn. rewrite (uload8_eq g i p um) by (done || lia). cbn.
  rewrite IH by lia. done.
Qed.

Lemma ustores_eq g i p um va bs s :
  user_mem g i p um s → 0 ≤ va → va + Z.of_nat (length bs) ≤ p_sz p →
  ∃ w, ustores va bs s = Done tt (set_k_mem w s) ∧
    user_mem (<[p_pgdir p := OSpace (p_sz p) (writes um va bs)]> g) i p (writes um va bs)
      (set_k_mem w s).
Proof.
  revert va um s g. induction bs as [|b bs IH]; intros va um s g Hu H0 Hn; cbn [ustores writes].
  - exists (k_mem s). split; [by destruct s|]. destruct Hu as (A & B & C & D).
    replace (set_k_mem (k_mem s) s) with s by (by destruct s).
    rewrite (insert_id g) by done. repeat split; done.
  - simpl length in Hn. cbn.
    destruct (ustore8_eq g i p um va b s) as (w & -> & Hw); [done|lia|]. cbn.
    destruct (IH (va + 1) (upd um va b) (set_k_mem w s) _ Hw) as (w' & -> & Hw'); [lia..|].
    exists w'. rewrite insert_insert_eq in Hw'. split; [done|]. done.
Qed.

End User.

(** * What process code relies on from the file system

    [idup] counts one more reference to an inode under [icache.lock]; it leaves
    everything but the inode cache alone, and always succeeds. *)
Class FsLaws (W : Type) {VO : VmOps W} {VL : VmLaws W} {FO : FsOps W} := {
  fs_idup_ok held ip (s : kst W) :
    kctx held s → L_icache ∉ held → is_Some (k_locks s !! L_icache) →
    ∃ w f, fs_idup ip s = Done ip (set_k_cpu (cpu_norm (k_cpu s)) (set_k_fs f (set_k_mem w s))) ∧
      ∀ g, vm_inv g (k_mem s) → vm_inv g w;
}.

(** * A reference implementation of the memory contract

    The contract can be met: a world that is a table of live objects, handing out
    addresses from a fixed pool of 64 pages.  Concrete runs use it. *)
Module Flat.

Abbreviation world := (gmap Z vobj).

Definition pool : list Z := (λ k, KERNBASE + 4096 * Z.of_nat k) <$> seq 1 64.

Definition fresh_page (w : world) : option Z :=
  snd <$> list_find (λ a, w !! a = None) pool.

Definition alloc (o : vobj) (w : world) : string + Z * world :=
  match fresh_page w with
  | Some a => inr (a, <[a := o]> w)
  | None => inr (0, w)
  end.

Definition zeros : mem := λ _, 0.

Definition grow (pd oldsz newsz : Z) (w : world) : string + Z * world :=
  match w !! pd with
  | Some (OSpace _ um) =>
    if KERNBASE <=? newsz then inr (0, w)
    else inr (newsz, <[pd := OSpace newsz
      (λ va, if (PGROUNDUP oldsz <=? va) && (oldsz <=? va) then 0 else um va)]> w)
  | _ => inl "allocuvm"
  end.

Definition shrink (pd newsz : Z) (w : world) : string + Z * world :=
  match w !! pd with
  | Some (OSpace _ um) => inr (newsz, <[pd := OSpace newsz um]> w)
  | _ => inl "deallocuvm"
  end.

#[global] Instance ops : VmOps world := {|
  vm_kalloc := alloc OPage;
  vm_kfree a w := if w !! a is Some OPage then inr (tt, delete a w) else inl "kfree";
  vm_setupkvm := alloc (OSpace 0 zeros);
  vm_inituvm pd init w := inr (tt, <[pd := OSpace PGSIZE (writes zeros 0 init)]> w);
  vm_allocuvm := grow;
  vm_deallocuvm pd _ newsz := shrink pd newsz;
  vm_freevm pd w := if w !! pd is Some (OSpace _ _) then inr (tt, delete pd w) else inl "freevm";
  vm_copyuvm pd sz w := if w !! pd is Some (OSpace _ um) then alloc (OSpace sz um) w else inl "copyuvm";
  vm_uread w pd va := if w !! pd is Some (OSpace sz um) then
    if (0 <=? va) && (va <? sz) then Some (um va) else None else None;
  vm_uwrite w pd va v := if w !! pd is Some (OSpace sz um) then
    if (0 <=? va) && (va <? sz) then Some (<[pd := OSpace sz (upd um va v)]> w) else None else None;
  vm_clearpteu pd va w := if w !! pd is Some (OSpace sz _) then
    if va <? sz then inr (tt, w) else inl "clearpteu" else inl "clearpteu";
  vm_copyout pd va bs w := if w !! pd is Some (OSpace sz um) then
    if (0 <=? va) && (va + Z.of_nat (length bs) <=? sz) then inr (0, <[pd := OSpace sz (writes um va bs)]> w)
    else inr (-1, w) else inr (-1, w);
  vm_mapped w pd va := if w !! pd is Some (OSpace sz _) then (0 <=? va) && (va <? sz) else false;
  vm_user w pd va := if w !! pd is Some (OSpace sz _) then (0 <=? va) && (va <? sz) else false;
  vm_poke pd va bs w := if w !! pd is Some (OSpace sz um) then
    inr (tt, <[pd := OSpace sz (writes um va bs)]> w) else inr (tt, w);
|}.

Definition objs_ok (w : world) : Prop := ∀ pd sz um, w !! pd = Some (OSpace sz um) → mem_ok um.
Definition inv (g : gmap Z vobj) (w : world) : Prop := g = w ∧ objs_ok w.

Lemma objs_ok_insert a o w :
  objs_ok w → (∀ sz um, o = OSpace sz um → mem_ok um) → objs_ok (<[a := o]> w).
Proof.
  intros Hw Ho pd sz um. destruct (decide (pd = a)) as [->|].
  - rewrite lookup_insert_eq. intros [= ->]. by eapply Ho.
  - rewrite lookup_insert_ne by done. apply Hw.
Qed.

Lemma objs_ok_delete a w : objs_ok w → objs_ok (delete a w).
Proof. intros Hw pd sz um. rewrite lookup_delete_Some. naive_solver. Qed.

Lemma fresh_page_spec w a : fresh_page w = Some a → 0 < a < 2^32 ∧ w !! a = None.
Proof.
  unfold fresh_page. destruct (list_find _ pool) as [[k b]|] eqn:E; [|done].
  intros [= ->]. apply list_find_Some in E as (Hk & Hn & _).
  split; [|done]. apply list_elem_of_lookup_2 in Hk. unfold pool in Hk.
  apply list_elem_of_fmap in Hk as (j & -> & Hj%elem_of_seq). unfold KERNBASE. lia.
Qed.

Lemma alloc_ok o g w :
  inv g w → (∀ sz um, o = OSpace sz um → mem_ok um) → ∃ a w', alloc o w = inr (a, w') ∧
    ((a = 0 ∧ inv g w') ∨ (0 < a < 2^32 ∧ g !! a = None ∧ inv (<[a := o]> g) w')).
Proof.
  intros [-> Hw] Ho. unfold alloc. destruct (fresh_page w) as [a|] eqn:E.
  - apply fresh_page_spec in E as [E1 E2]. eexists a, _. split; [done|]. right.
    split; [done|]. split; [done|]. split; [done|]. by apply objs_ok_insert.
  - eexists 0, w. split; [done|]. left. done.
Qed.

#[global] Instance laws : VmLaws world.
Proof.
  refine {| vm_inv := inv |}; cbn.
  - intros g w Hw. by apply alloc_ok.
  - intros g w a [-> Hw] Ha. rewrite Ha. eexists. split; [done|]. split; [done|].
    by apply objs_ok_delete.
  - intros g w pd sz um Hi Ha. pose proof Hi as [-> Hw]. rewrite Ha. apply alloc_ok; [done|].
    intros ? ? [= <- <-]. by eapply Hw.
  - intros g w pd sz um oldsz newsz [-> Hw] Ha Hold Hn Hmax. unfold grow. rewrite Ha.
    destruct (Z.leb_spec KERNBASE newsz); eexists _, _; (split; [done|]).
    { by left. }
    right. split; [done|]. split; [done|]. split; [|eexists; split; [|split; [done|]]].
    + intros va H0 Hva. rewrite lookup_insert_eq. destruct (Z.leb_spec 0 va), (Z.ltb_spec va newsz); done || lia.
    + assert (PGROUNDUP oldsz = PGROUNDUP sz) as -> by (destruct Hold as [->| ->]; [done|apply PGROUNDUP_idem]).
      split; [intros va Hva|intros va Hsz Hva]; cbn.
      * destruct (Z.leb_spec oldsz va); [lia|]. by rewrite andb_false_r.
      * destruct (Z.leb_spec (PGROUNDUP sz) va), (Z.leb_spec oldsz va); done || lia.
    + apply objs_ok_insert; [done|]. intros ? ? [= <- <-] va.
      destruct ((PGROUNDUP oldsz <=? va) && (oldsz <=? va)); [lia|]. by eapply Hw.
  - intros g w pd sz um newsz [-> Hw] Ha Hn. unfold shrink. rewrite Ha. eexists.
    split; [done|]. split; [done|]. apply objs_ok_insert; [done|]. intros ? ? [= <- <-]. by eapply Hw.
  - intros g w pd sz um [-> Hw] Ha. rewrite Ha. eexists. split; [done|]. split; [done|].
    by apply objs_ok_delete.
  - intros g w pd sz um [-> Hw]. apply Hw.
  - intros g w pd sz um va [-> Hw] Ha Hva. rewrite Ha.
    destruct (Z.leb_spec 0 va), (Z.ltb_spec va sz); done || lia.
  - intros g w pd sz um va v [-> Hw] Ha Hva. rewrite Ha.
    destruct (Z.leb_spec 0 va), (Z.ltb_spec va sz); try lia. cbn. eexists. split; [done|].
    split; [done|]. apply objs_ok_insert; [done|]. intros ? ? [= <- <-]. apply upd_ok. by eapply Hw.
  - intros g w pd sz um va [-> Hw] Ha Hva. rewrite Ha. destruct (Z.ltb_spec va sz); [|lia].
    exists w. split; [done|]. split; [by split|]. intros. by rewrite Ha.
  - intros g w pd sz um va bs [-> Hw] Ha H0 Hn. rewrite Ha.
    destruct (Z.leb_spec 0 va), (Z.leb_spec (va + Z.of_nat (length bs)) sz); try lia. cbn.
    eexists _, _, _. split; [done|]. split; [|split; [intros; by rewrite lookup_insert_eq|by left]]. split; [done|].
    apply objs_ok_insert; [done|]. intros ? ? [= <- <-]. apply writes_ok. by eapply Hw.
Defined.

(** A file system that does nothing: inode reference counts are not observable
    through this world. *)
#[global] Instance fs_ops : FsOps world := {|
  fs_iinit _ := ret tt; fs_initlog _ := ret tt; fs_begin_op := ret tt; fs_end_op := ret tt;
  fs_idup ip := pushcli ;;; popcli ;;; ret ip;
  fs_iput _ := ret tt; fs_ilock _ := ret tt; fs_iunlock _ := ret tt;
  fs_namei _ := ret (Some 0%nat); fs_stati _ _ := ret tt;
  fs_readi _ _ _ _ := ret 0; fs_writei _ _ _ n := ret n;
  fs_readk _ _ n := ret (n, replicate (Z.to_nat n) 0); fs_writek _ bs _ := ret (Z.of_nat (length bs));
  fs_nameiparent _ := ret None; fs_dirlookup _ _ := ret None; fs_dirlink _ _ _ := ret 0;
  fs_ialloc _ _ := ret None; fs_iupdate _ := ret tt;
  fs_geti _ := ret (mkInode 1 1 1 2 2 0 0 1 0 []); fs_seti _ _ := ret tt;
|}.

#[global] Instance fs_laws : FsLaws world.
Proof.
  split. intros held ip s Hc _ _. exists (k_mem s), (k_fs s). split; [|done]. cbn.
  rewrite pushcli_eq. cbn. pose proof (kctx_cpu_wf _ _ Hc) as Hwf.
  pose proof (push_cpu_wf _ Hwf) as [H1 H2].
  rewrite popcli_eq; [|done|cbn; destruct Hwf; lia]. cbn. rewrite pop_push by done.
  by destruct s.
Qed.

End Flat.
