(* ===== verification/Fs.v ===== *)
(** fs.c: disk blocks, inodes, their contents, directories and path names, on
    top of the log and the buffer cache; an implementation of the interface
    through which the rest of the kernel uses the file system. *)
From S2P Require Import Prelude Mem KState Spinlock Sched Sleeplock Layout Path Bio Log Services.

Definition I_VALID : Z := 2.

(** Where [readi] puts bytes and [writei] takes them from: user memory of the
    current process, or a buffer of the kernel. *)
Inductive dst := ToUser (va : Z) | ToKernel.
Inductive src := FromUser (va : Z) | FromKernel (bs : list Z).

(** [devsw[]]: the read and write functions of devices, by major number. *)
Class DevSw (W : Type) := {
  devsw_read : Z → option (nat → dst → Z → M (kst W) (Z * list Z));
  devsw_write : Z → option (nat → src → Z → M (kst W) Z);
}.

Section Fs.
Context {W : Type} {VO : VmOps W} {DK : DiskOps W} {DV : DevSw W}.
(** Bound on the number of times a process waits for a lock. *)
Context (fuel : nat).

Definition get_sb : M (kst W) superblock := gets (λ s, fs_sb (k_fs s)).
Definition set_sb (sb : superblock) : M (kst W) unit := upd_fs (set_fs_sb sb).
Definition get_inode (ip : nat) : M (kst W) inode :=
  o <- gets (λ s, fs_inodes (k_fs s) !! ip) ;; match o with Some x => ret x | None => panic "trap" end.
Definition set_inode (ip : nat) (f : inode → inode) : M (kst W) unit :=
  upd_fs (λ fs, set_fs_inodes (alter f ip (fs_inodes fs)) fs).
Definition set_data (b : nat) (f : list Z → list Z) : M (kst W) unit :=
  set_buf b (λ x, set_b_data (f (b_data x)) x).

(** ** Blocks *)

(** Zero a block. *)
Definition bzero (dev bno : Z) : M (kst W) unit :=
  bp <- bread fuel (u32 dev) (u32 bno) ;;
  set_data bp (λ d, put 0 (replicate (Z.to_nat BSIZE) 0) d) ;;;
  log_write bp ;;;
  brelse bp.

(** The bit of block [bi] in a block of the free map. *)
Definition bit_mask (bi : Z) : Z := Z.shiftl 1 (bi mod 8).
Definition bit_byte (bi : Z) (d : list Z) : Z := d !!! Z.to_nat (bi / 8).
Definition set_byte (bi v : Z) (d : list Z) : list Z := <[Z.to_nat (bi / 8) := u8 v]> d.

(** The inner loop of [balloc]: a free block whose bit is in the buffer [bp]. *)
Definition balloc_bit (dev : Z) (bp : nat) (b bi : Z) : M (kst W) (option Z) :=
  x <- get_buf bp ;;
  let m := bit_mask bi in
  if Z.land (bit_byte bi (b_data x)) m =? 0 then
    set_data bp (λ d, set_byte bi (Z.lor (bit_byte bi d) m) d) ;;;
    log_write bp ;;;
    brelse bp ;;;
    bzero dev (b + bi) ;;;
    ret (Some (b + bi))
  else ret None.

Definition balloc_block (dev b : Z) : M (kst W) (option Z) :=
  sb <- get_sb ;;
  bp <- bread fuel dev (BBLOCK b sb) ;;
  sb <- get_sb ;;
  r <- for_break (seqZ 0 (Z.min BPB (sb_size sb - b))) (balloc_bit dev bp b) ;;
  match r with
  | Some v => ret (Some v)
  | None => brelse bp ;;; ret None
  end.

(** [for(b = 0; b < sb.size; b += BPB)] *)
Definition map_blocks (size : Z) : list Z := (λ k, k * BPB) <$> seqZ 0 ((size + BPB - 1) / BPB).

Definition balloc (dev : Z) : M (kst W) Z :=
  sb <- get_sb ;;
  r <- for_break (map_blocks (sb_size sb)) (balloc_block dev) ;;
  match r with Some v => ret v | None => panic "balloc: out of blocks" end.

Definition bfree (dev b : Z) : M (kst W) unit :=
  sb <- readsb fuel dev ;;
  set_sb sb ;;;
  bp <- bread fuel (u32 dev) (BBLOCK b sb) ;;
  let bi := b mod BPB in
  let m := bit_mask bi in
  x <- get_buf bp ;;
  (if Z.land (bit_byte bi (b_data x)) m =? 0 then panic "freeing free block" else ret tt) ;;;
  set_data bp (λ d, set_byte bi (Z.land (bit_byte bi d) (Z.lnot m)) d) ;;;
  log_write bp ;;;
  brelse bp.

(** ** Inodes *)

Definition iinit (dev : Z) : M (kst W) unit :=
  initlock L_icache "icache" ;;;
  for_each (seq 0 NINODE) (λ i, initsleeplock (inode_lock i) "inode") ;;;
  sb <- readsb fuel dev ;;
  set_sb sb ;;;
  cprintf "sb: size %d nblocks %d ninodes %d nlog %d logstart %d inodestart %d bmap start %d\n"
    [sb_size sb; sb_nblocks sb; sb_ninodes sb; sb_nlog sb; sb_logstart sb; sb_inodestart sb; sb_bmapstart sb].

(** The offset of [(struct dinode* )bp->data + inum%IPB], and its fields. *)
Definition dip_off (inum : Z) : nat := Z.to_nat ((inum mod IPB) * DINODE).
Definition dip_type (off : nat) (d : list Z) : Z := s16 (half off d).
Definition dip_addrs (off : nat) (d : list Z) : list Z := (λ k, word (off + 12 + 4 * k) d) <$> seq 0 (S NDIRECT).
Definition put_dinode (off : nat) (x : inode) (d : list Z) : list Z :=
  put (off + 12) (concat (le32 <$> i_addrs x))
    (put_word (off + 8) (i_size x) (put_half (off + 6) (i_nlink x)
      (put_half (off + 4) (i_minor x) (put_half (off + 2) (i_major x) (put_half off (i_type x) d))))).

(** The scan of [iget]: the entry of the inode, or the first free entry. *)
Fixpoint iget_scan (l : list nat) (dev inum : Z) (empty : option nat) : M (kst W) (option nat + nat) :=
  match l with
  | [] => ret (inl empty)
  | ip :: l' =>
    x <- get_inode ip ;;
    if (0 <? i_ref x) && (i_dev x =? dev) && (i_inum x =? inum) then ret (inr ip)
    else iget_scan l' dev inum
      (match empty with Some e => Some e | None => if i_ref x =? 0 then Some ip else None end)
  end.

Definition iget (dev inum : Z) : M (kst W) nat :=
  acquire L_icache ;;;
  r <- iget_scan (seq 0 NINODE) dev inum None ;;
  match r with
  | inr ip =>
    set_inode ip (λ x, set_i_ref (s32 (i_ref x + 1)) x) ;;;
    release L_icache ;;;
    ret ip
  | inl None => panic "iget: no inodes"
  | inl (Some ip) =>
    set_inode ip (set_i_dev dev) ;;;
    set_inode ip (set_i_inum inum) ;;;
    set_inode ip (set_i_ref 1) ;;;
    set_inode ip (set_i_flags 0) ;;;
    release L_icache ;;;
    ret ip
  end.

Definition ialloc_body (dev type inum : Z) : M (kst W) (option nat) :=
  sb <- get_sb ;;
  bp <- bread fuel dev (IBLOCK inum sb) ;;
  x <- get_buf bp ;;
  let off := dip_off inum in
  if dip_type off (b_data x) =? 0 then
    set_data bp (put off (replicate (Z.to_nat DINODE) 0)) ;;;
    set_data bp (put_half off type) ;;;
    log_write bp ;;;
    brelse bp ;;;
    ip <- iget dev inum ;;
    ret (Some ip)
  else brelse bp ;;; ret None.

Definition ialloc (dev type : Z) : M (kst W) nat :=
  sb <- get_sb ;;
  r <- for_break (seqZ 1 (sb_ninodes sb - 1)) (ialloc_body dev type) ;;
  match r with Some ip => ret ip | None => panic "ialloc: no inodes" end.

Definition iupdate (ip : nat) : M (kst W) unit :=
  x <- get_inode ip ;;
  sb <- get_sb ;;
  bp <- bread fuel (i_dev x) (IBLOCK (i_inum x) sb) ;;
  x <- get_inode ip ;;
  set_data bp (put_dinode (dip_off (i_inum x)) x) ;;;
  log_write bp ;;;
  brelse bp.

Definition idup (ip : nat) : M (kst W) nat :=
  acquire L_icache ;;;
  set_inode ip (λ x, set_i_ref (s32 (i_ref x + 1)) x) ;;;
  release L_icache ;;;
  ret ip.

(** The fields of the disk inode at [off]. *)
Definition load_dinode (off : nat) (d : list Z) (x : inode) : inode :=
  mkInode (i_dev x) (i_inum x) (i_ref x) (i_flags x)
    (dip_type off d) (s16 (half (off + 2) d)) (s16 (half (off + 4) d)) (s16 (half (off + 6) d))
    (word (off + 8) d) (dip_addrs off d).

Definition ilock (ip : nat) : M (kst W) unit :=
  x <- get_inode ip ;;
  (if i_ref x <? 1 then panic "ilock" else ret tt) ;;;
  acquiresleep fuel (inode_lock ip) ;;;
  x <- get_inode ip ;;
  when (Z.land (i_flags x) I_VALID =? 0) (
    sb <- get_sb ;;
    bp <- bread fuel (i_dev x) (IBLOCK (i_inum x) sb) ;;
    y <- get_buf bp ;;
    set_inode ip (load_dinode (dip_off (i_inum x)) (b_data y)) ;;;
    brelse bp ;;;
    set_inode ip (λ x, set_i_flags (Z.lor (i_flags x) I_VALID) x) ;;;
    x <- get_inode ip ;;
    if i_type x =? 0 then panic "ilock: no type" else ret tt).

Definition iunlock (ip : nat) : M (kst W) unit :=
  h <- holdingsleep (inode_lock ip) ;;
  x <- get_inode ip ;;
  (if (h =? 0) || (i_ref x <? 1) then panic "iunlock" else ret tt) ;;;
  releasesleep (inode_lock ip).

(** ** Contents *)

(** [ip->addrs[k]], allocated if there is none. *)
Definition addr_slot (ip k : nat) : M (kst W) Z :=
  x <- get_inode ip ;;
  let addr := i_addrs x !!! k in
  if addr =? 0 then
    addr <- balloc (i_dev x) ;;
    set_inode ip (λ x, set_i_addrs (<[k := addr]> (i_addrs x)) x) ;;;
    ret addr
  else ret addr.

Definition bmap (ip : nat) (bn : Z) : M (kst W) Z :=
  if bn <? Z.of_nat NDIRECT then addr_slot ip (Z.to_nat bn)
  else
    let bn := bn - Z.of_nat NDIRECT in
    if bn <? NINDIRECT then
      addr <- addr_slot ip NDIRECT ;;
      x <- get_inode ip ;;
      bp <- bread fuel (i_dev x) addr ;;
      y <- get_buf bp ;;
      let addr := word (Z.to_nat (4 * bn)) (b_data y) in
      addr <- (if addr =? 0 then
                 addr <- balloc (i_dev x) ;;
                 set_data bp (put_word (Z.to_nat (4 * bn)) addr) ;;;
                 log_write bp ;;;
                 ret addr
               else ret addr) ;;
      brelse bp ;;;
      ret addr
    else panic "bmap: out of range".

Definition itrunc_direct (ip k : nat) : M (kst W) unit :=
  x <- get_inode ip ;;
  let a := i_addrs x !!! k in
  when (negb (a =? 0)) (
    bfree (i_dev x) a ;;;
    set_inode ip (λ x, set_i_addrs (<[k := 0]> (i_addrs x)) x)).

Definition itrunc (ip : nat) : M (kst W) unit :=
  for_each (seq 0 NDIRECT) (itrunc_direct ip) ;;;
  x <- get_inode ip ;;
  when (negb (i_addrs x !!! NDIRECT =? 0)) (
    bp <- bread fuel (i_dev x) (i_addrs x !!! NDIRECT) ;;
    for_each (seqZ 0 NINDIRECT) (λ j,
      y <- get_buf bp ;;
      let a := word (Z.to_nat (4 * j)) (b_data y) in
      when (negb (a =? 0)) (bfree (i_dev x) a)) ;;;
    brelse bp ;;;
    bfree (i_dev x) (i_addrs x !!! NDIRECT) ;;;
    set_inode ip (λ x, set_i_addrs (<[NDIRECT := 0]> (i_addrs x)) x)) ;;;
  set_inode ip (set_i_size 0) ;;;
  iupdate ip.

Definition iput (ip : nat) : M (kst W) unit :=
  acquire L_icache ;;;
  x <- get_inode ip ;;
  when ((i_ref x =? 1) && negb (Z.land (i_flags x) I_VALID =? 0) && (i_nlink x =? 0)) (
    release L_icache ;;;
    itrunc ip ;;;
    set_inode ip (set_i_type 0) ;;;
    iupdate ip ;;;
    acquire L_icache ;;;
    set_inode ip (set_i_flags 0)) ;;;
  set_inode ip (λ x, set_i_ref (s32 (i_ref x - 1)) x) ;;;
  release L_icache.

Definition iunlockput (ip : nat) : M (kst W) unit := iunlock ip ;;; iput ip.

(** struct stat of stat.h at the user address [st]. *)
Definition stati (ip : nat) (st : Z) : M (kst W) unit :=
  x <- get_inode ip ;;
  ustores (st + 4) (le32 (i_dev x)) ;;;
  ustores (st + 8) (le32 (i_inum x)) ;;;
  ustores st (le16 (i_type x)) ;;;
  ustores (st + 12) (le16 (i_nlink x)) ;;;
  ustores (st + 16) (le32 (i_size x)).

(** [memmove(dst + tot, ...)] and [memmove(..., src + tot, m)] *)
Definition copy_to (d : dst) (tot : Z) (bs : list Z) : M (kst W) unit :=
  match d with ToUser va => ustores (va + tot) bs | ToKernel => ret tt end.
Definition copy_from (a : src) (tot m : Z) : M (kst W) (list Z) :=
  match a with
  | FromUser va => uloads (va + tot) (Z.to_nat m)
  | FromKernel bs => ret (take (Z.to_nat m) (drop (Z.to_nat tot) bs))
  end.

(** How many bytes of the block at [off] the loops take: at most the rest of the
    block, at most what is left. *)
Definition chunk (off left : Z) : Z := Z.min left (BSIZE - off mod BSIZE).

(** The loop of [readi]; the bytes that went into a kernel buffer are returned.
    [k] bounds the number of blocks. *)
Fixpoint readi_loop (k : nat) (ip : nat) (d : dst) (tot off n : Z) (acc : list Z) : M (kst W) (list Z) :=
  match k with
  | O => λ _, Fuel
  | S k' =>
    if tot <? n then
      x <- get_inode ip ;;
      bno <- bmap ip (off / BSIZE) ;;
      bp <- bread fuel (i_dev x) bno ;;
      let m := chunk off (n - tot) in
      y <- get_buf bp ;;
      let bs := get (Z.to_nat (off mod BSIZE)) (Z.to_nat m) (b_data y) in
      copy_to d tot bs ;;;
      brelse bp ;;;
      readi_loop k' ip d (tot + m) (off + m) n (acc ++ bs)
    else ret acc
  end.

(** Enough iterations for [n] bytes: two partial blocks and the full ones. *)
Definition blocks_for (n : Z) : nat := Z.to_nat (n / BSIZE + 3).

Definition readi (ip : nat) (d : dst) (off n : Z) : M (kst W) (Z * list Z) :=
  x <- get_inode ip ;;
  if i_type x =? T_DEV then
    if (i_major x <? 0) || (NDEV <=? i_major x) then ret (-1, [])
    else match devsw_read (i_major x) with
         | None => ret (-1, [])
         | Some f => f ip d (s32 n)
         end
  else if (i_size x <? off) || (u32 (off + n) <? off) then ret (-1, [])
  else
    let n := if i_size x <? u32 (off + n) then i_size x - off else n in
    bs <- readi_loop (blocks_for n) ip d 0 off n [] ;;
    ret (s32 n, bs).

(** The loop of [writei]; the offset it ends at. *)
Fixpoint writei_loop (k : nat) (ip : nat) (a : src) (tot off n : Z) : M (kst W) Z :=
  match k with
  | O => λ _, Fuel
  | S k' =>
    if tot <? n then
      x <- get_inode ip ;;
      bno <- bmap ip (off / BSIZE) ;;
      bp <- bread fuel (i_dev x) bno ;;
      let m := chunk off (n - tot) in
      bs <- copy_from a tot m ;;
      set_data bp (put (Z.to_nat (off mod BSIZE)) bs) ;;;
      log_write bp ;;;
      brelse bp ;;;
      writei_loop k' ip a (tot + m) (off + m) n
    else ret off
  end.

Definition writei (ip : nat) (a : src) (off n : Z) : M (kst W) Z :=
  x <- get_inode ip ;;
  if i_type x =? T_DEV then
    if (i_major x <? 0) || (NDEV <=? i_major x) then ret (-1)
    else match devsw_write (i_major x) with
         | None => ret (-1)
         | Some f => f ip a (s32 n)
         end
  else if (i_size x <? off) || (u32 (off + n) <? off) then ret (-1)
  else if MAXFILE * BSIZE <? u32 (off + n) then ret (-1)
  else
    off' <- writei_loop (blocks_for n) ip a 0 off n ;;
    x <- get_inode ip ;;
    when ((0 <? n) && (i_size x <? off')) (set_inode ip (set_i_size off') ;;; iupdate ip) ;;;
    ret (s32 n).

(** ** Directories *)

(** Read the entry at [off] of a directory. *)
Definition read_dirent (dp : nat) (off : Z) : M (kst W) (list Z) :=
  r <- readi dp ToKernel off dirent_size ;;
  if r.1 =? dirent_size then ret r.2 else panic "dirlink read".

(** [k] bounds the number of entries. *)
Fixpoint dirlookup_loop (k dp : nat) (name : list Z) (off : Z) : M (kst W) (option (nat * Z)) :=
  match k with
  | O => λ _, Fuel
  | S k' =>
    d <- get_inode dp ;;
    if off <? i_size d then
      de <- read_dirent dp off ;;
      if de_inum de =? 0 then dirlookup_loop k' dp name (off + dirent_size)
      else if namecmp name (de_name de) =? 0 then
        ip <- iget (i_dev d) (de_inum de) ;; ret (Some (ip, off))
      else dirlookup_loop k' dp name (off + dirent_size)
    else ret None
  end.

Definition dir_entries (d : inode) : nat := Z.to_nat (i_size d / dirent_size + 2).

Definition dirlookup (dp : nat) (name : list Z) : M (kst W) (option (nat * Z)) :=
  d <- get_inode dp ;;
  (if i_type d =? T_DIR then ret tt else panic "dirlookup not DIR") ;;;
  dirlookup_loop (dir_entries d) dp name 0.

(** The offset of an empty entry, or of the end of the directory. *)
Fixpoint dirlink_loop (k dp : nat) (off : Z) : M (kst W) Z :=
  match k with
  | O => λ _, Fuel
  | S k' =>
    d <- get_inode dp ;;
    if off <? i_size d then
      de <- read_dirent dp off ;;
      if de_inum de =? 0 then ret off else dirlink_loop k' dp (off + dirent_size)
    else ret off
  end.

(** [strncpy(de.name, name, DIRSIZ); de.inum = inum;] *)
Definition dirent_of (name : list Z) (inum : Z) : list Z :=
  le16 inum ++ take DIRSIZ (take DIRSIZ name ++ replicate DIRSIZ 0).

Definition dirlink (dp : nat) (name : list Z) (inum : Z) : M (kst W) Z :=
  o <- dirlookup dp name ;;
  match o with
  | Some (ip, _) => iput ip ;;; ret (-1)
  | None =>
    d <- get_inode dp ;;
    off <- dirlink_loop (dir_entries d) dp 0 ;;
    r <- writei dp (FromKernel (dirent_of name inum)) off dirent_size ;;
    if r =? dirent_size then ret 0 else panic "dirlink"
  end.

(** ** Paths *)

(** The loop of [namex]; [k] bounds the number of elements. *)
Fixpoint namex_loop (k : nat) (parent : bool) (ip : nat) (path name : list Z) : M (kst W) (option (nat * list Z)) :=
  match k with
  | O => λ _, Fuel
  | S k' =>
    match skipelem path with
    | None =>
      if parent then iput ip ;;; ret None else ret (Some (ip, name))
    | Some (path, name) =>
      ilock ip ;;;
      x <- get_inode ip ;;
      if negb (i_type x =? T_DIR) then iunlockput ip ;;; ret None
      else if parent && (match path with [] => true | _ => false end) then
        iunlock ip ;;; ret (Some (ip, name))
      else
        o <- dirlookup ip name ;;
        match o with
        | None => iunlockput ip ;;; ret None
        | Some (next, _) => iunlockput ip ;;; namex_loop k' parent next path name
        end
    end
  end.

Definition namex (path : list Z) (parent : bool) : M (kst W) (option (nat * list Z)) :=
  ip <- (if bool_decide (head path = Some slash) then iget ROOTDEV ROOTINO
         else p <- cur ;; match p_cwd p with Some ip => idup ip | None => panic "trap" end) ;;
  namex_loop (S (length path)) parent ip path [].

Definition namei (path : list Z) : M (kst W) (option nat) :=
  r <- namex path false ;; ret (fst <$> r).
Definition nameiparent (path : list Z) : M (kst W) (option (nat * list Z)) := namex path true.

End Fs.

(** fs.c and log.c as the file system the rest of the kernel uses. *)
Definition fs_ops {W} {VO : VmOps W} {DK : DiskOps W} {DV : DevSw W} (fuel : nat) : FsOps W := {|
  fs_iinit := iinit fuel;
  fs_initlog := initlog fuel;
  fs_begin_op := begin_op fuel;
  fs_end_op := end_op fuel;
  fs_idup := idup;
  fs_iput := iput fuel;
  fs_ilock := ilock fuel;
  fs_iunlock := iunlock;
  fs_namei := namei fuel;
  fs_stati := stati;
  fs_readi ip va off n := r <- readi fuel ip (ToUser va) off (u32 n) ;; ret r.1;
  fs_writei ip va off n := writei fuel ip (FromUser va) off (u32 n);
  fs_readk ip off n := readi fuel ip ToKernel off n;
  fs_writek ip bs off := writei fuel ip (FromKernel bs) off (Z.of_nat (length bs));
  fs_nameiparent := nameiparent fuel;
  fs_dirlookup := dirlookup fuel;
  fs_dirlink := dirlink fuel;
  fs_ialloc dev type := ip <- ialloc fuel dev type ;; ret (Some ip);
  fs_iupdate := iupdate fuel;
  fs_geti := get_inode;
  fs_seti := set_inode;
|}.

(** It keeps the contract process code relies on. *)
Lemma fs_keeps_laws {W} {VO : VmOps W} {VL : VmLaws W} {DK : DiskOps W} {DV : DevSw W} (fuel : nat) :
  @FsLaws W VO VL (fs_ops fuel).
Proof.
  split. intros held ip s Hc Hh Hi. cbn. unfold idup. mstep.
  destruct (acquire_kctx held L_icache s Hc Hh Hi) as [-> Hc1]. mstep. unfold set_inode, upd_fs. mstep.
  set (f := set_fs_inodes _ _). exists (k_mem s), f.
  destruct (release_kctx held L_icache (set_k_fs f (acquired L_icache s))) as [-> _].
  { by apply (kctx_frame _ (acquired L_icache s)). }
  mstep. split; [|done]. change (released L_icache (set_k_fs f (acquired L_icache s))) with
    (set_k_fs f (released L_icache (acquired L_icache s))).
  rewrite released_acquired; [by destruct s|by eapply kctx_free|by eapply kctx_cpu_wf].
Qed.
