(* ===== verification/Icache.v ===== *)
(** The inode cache of fs.c: entries shared by reference.  [iget], [idup] and [iput]
    keep at most one entry for an inode, and count its references. *)
From S2P Require Import Prelude Mem KState Spinlock Sched Sleeplock Layout Bio BioLaw Log Services Fs.

Section Icache.
Context {W : Type} {VO : VmOps W} {DV : DevSw W} (i : nat) (p : proc) (fuel : nat).
Implicit Types s : kst W.

Definition inodes (s : kst W) : list inode := fs_inodes (k_fs s).
Definition with_inodes (I : list inode) (s : kst W) : kst W := set_k_fs (set_fs_inodes I (k_fs s)) s.

Lemma get_inode_eq ip x s : inodes s !! ip = Some x → get_inode ip s = Done x s.
Proof. intros Hx. unfold get_inode. mstep. unfold inodes in Hx. by rewrite Hx. Qed.
Lemma set_inode_eq ip f x s : inodes s !! ip = Some x → set_inode ip f s = Done tt (with_inodes (<[ip := f x]> (inodes s)) s).
Proof.
  intros Hx. unfold set_inode, upd_fs. mstep. unfold with_inodes. do 3 f_equal. by apply list_alter_at.
Qed.
Lemma set_inode_alter ip f s : set_inode ip f s = Done tt (with_inodes (alter f ip (inodes s)) s).
Proof. done. Qed.
Lemma inodes_with I s : inodes (with_inodes I s) = I.
Proof. done. Qed.
Lemma with_inodes_twice I I' s : with_inodes I (with_inodes I' s) = with_inodes I s.
Proof. done. Qed.
Definition is_ref (dev inum : Z) (x : inode) : Prop := 0 < i_ref x ∧ i_dev x = dev ∧ i_inum x = inum.
#[local] Instance is_ref_dec dev inum x : Decision (is_ref dev inum x).
Proof. unfold is_ref. apply _. Defined.
Definition is_free (x : inode) : Prop := i_ref x = 0.
#[local] Instance is_free_dec x : Decision (is_free x).
Proof. unfold is_free. apply _. Defined.

(** An inode has at most one entry, and counts are counts. *)
Record icache_ok (I : list inode) : Prop := {
  ic_len : length I = NINODE;
  ic_ref k x : I !! k = Some x → 0 ≤ i_ref x < 2^31 - 1;
  ic_one j k x y : I !! j = Some x → I !! k = Some y → is_ref (i_dev y) (i_inum y) x → 0 < i_ref y → j = k;
}.
(** How many references there are to an inode. *)
Definition refs (I : list inode) (dev inum : Z) : Z :=
  match list_find (is_ref dev inum) I with Some (_, x) => i_ref x | None => 0 end.

Lemma iget_scan_eq dev inum l k e s :
  (∀ j x, l !! j = Some x → inodes s !! (k + j)%nat = Some x) →
  iget_scan (seq k (length l)) dev inum e s =
  Done (match list_find (is_ref dev inum) l with
        | Some (j, _) => inr (k + j)%nat
        | None => inl (match e with Some e => Some e | None => (λ q, (k + q.1)%nat) <$> list_find is_free l end)
        end) s.
Proof.
  revert k e. induction l as [|x l IH]; intros k e Hl; [by destruct e|]. cbn [length seq iget_scan list_find]. mstep.
  pose proof (Hl O x eq_refl) as H0. rewrite Nat.add_0_r in H0. rewrite (get_inode_eq k x) by done. mstep.
  assert ((0 <? i_ref x) && (i_dev x =? dev) && (i_inum x =? inum) = bool_decide (is_ref dev inum x)) as ->.
  { apply eq_true_iff_eq. rewrite !andb_true_iff, Z.ltb_lt, !Z.eqb_eq, bool_decide_eq_true. unfold is_ref. tauto. }
  case_bool_decide as Hr.
  - rewrite decide_True by done. by rewrite Nat.add_0_r.
  - rewrite decide_False by done. rewrite IH.
    2: { intros j y Hj. specialize (Hl (S j) y Hj). by replace (S k + j)%nat with (k + S j)%nat by lia. }
    f_equal. destruct (list_find (is_ref dev inum) l) as [[j y]|]; cbn; [f_equal; lia|]. f_equal. destruct e as [e|]; [done|].
    destruct (Z.eqb_spec (i_ref x) 0) as [Hz|Hz].
    + rewrite decide_True by done. cbn. f_equal. lia.
    + rewrite decide_False by done. destruct (list_find is_free l) as [[j y]|]; cbn; [f_equal; lia|done].
Qed.

Lemma refs_at I dev inum k x : icache_ok I → I !! k = Some x → is_ref dev inum x → refs I dev inum = i_ref x.
Proof.
  intros [A B C] Hk Hr. unfold refs. destruct (list_find _ I) as [[j y]|] eqn:E.
  - apply list_find_Some in E as (Hj & Hy & _). destruct Hr as (H1 & H2 & H3), Hy as (G1 & G2 & G3).
    assert (j = k) as -> by (eapply C; [done|done| |done]; split; [done|]; by subst). congruence.
  - apply list_find_None in E. rewrite Forall_lookup in E. by destruct (E k x Hk).
Qed.

Lemma refs_none I dev inum : (∀ k x, I !! k = Some x → ¬ is_ref dev inum x) → refs I dev inum = 0.
Proof.
  intros Hn. unfold refs. destruct (list_find _ I) as [[j y]|] eqn:E; [|done].
  apply list_find_Some in E as (Hj & Hy & _). by destruct (Hn j y).
Qed.

(** A table in which one entry changed, for the only entry of its inode. *)
Lemma icache_insert I k x y :
  icache_ok I → I !! k = Some x → 0 ≤ i_ref y < 2^31 - 1 →
  (∀ j z, j ≠ k → I !! j = Some z → ¬ is_ref (i_dev y) (i_inum y) z) →
  (0 < i_ref x → (i_dev x, i_inum x) = (i_dev y, i_inum y)) →
  icache_ok (<[k := y]> I) ∧ refs (<[k := y]> I) (i_dev y) (i_inum y) = i_ref y ∧
  ∀ dev inum, (dev, inum) ≠ (i_dev y, i_inum y) → refs (<[k := y]> I) dev inum = refs I dev inum.
Proof.
  intros Hok Hk Hr Hno Hsame. pose proof Hok as [A B C]. pose proof (lookup_lt_Some _ _ _ Hk) as Hlt.
  assert (∀ j z, <[k := y]> I !! j = Some z → j = k ∧ z = y ∨ j ≠ k ∧ I !! j = Some z) as Hc.
  { intros j z. rewrite list_lookup_insert_Some. naive_solver. }
  assert (icache_ok (<[k := y]> I)) as Hok'.
  { split; [by rewrite length_insert| |].
    - intros j z [[-> ->]|[_ Hz]]%Hc; [done|by eapply B].
    - intros j j' z z' [[-> ->]|[Hne Hz]]%Hc [[-> ->]|[Hne' Hz']]%Hc; [done|..]; intros (G1 & G2 & G3) G4.
      + destruct (Hno j' z' Hne' Hz'). split; [done|]. by split.
      + destruct (Hno j z Hne Hz). split; [done|]. by split.
      + eapply (C j j' z z'); [done|done|by split|done]. }
  split; [done|]. split.
  - destruct (decide (i_ref y = 0)) as [H0|].
    + rewrite H0. apply refs_none. intros j z [[-> ->]|[Hne Hz]]%Hc; [intros [? _]; lia|by eapply Hno].
    + eapply (refs_at _ _ _ k y); [done|by apply list_lookup_insert_eq|]. split; [lia|done].
  - intros dev inum Hne. unfold refs at 2. destruct (list_find (is_ref dev inum) I) as [[j z]|] eqn:E.
    + apply list_find_Some in E as (Hj & Hz & _). eapply (refs_at _ _ _ j z); [done| |done].
      rewrite list_lookup_insert_ne; [done|]. intros ->. destruct Hz as (G1 & G2 & G3). apply Hne. simplify_eq. by apply Hsame.
    + apply list_find_None in E. rewrite Forall_lookup in E. apply refs_none.
      intros j z [[-> ->]|[_ Hz]]%Hc; [|by eapply E]. intros (_ & G2 & G3). apply Hne. congruence.
Qed.

Lemma icache_set_ref I k x r :
  icache_ok I → I !! k = Some x → 0 < i_ref x → 0 ≤ r < 2^31 - 1 →
  icache_ok (<[k := set_i_ref r x]> I) ∧ refs (<[k := set_i_ref r x]> I) (i_dev x) (i_inum x) = r ∧
  ∀ dev inum, (dev, inum) ≠ (i_dev x, i_inum x) → refs (<[k := set_i_ref r x]> I) dev inum = refs I dev inum.
Proof.
  intros Hok Hk Hx Hr. apply (icache_insert I k x (set_i_ref r x)); try done.
  intros j z Hne Hz Href. apply Hne. by eapply (ic_one _ Hok j k z x).
Qed.

(** A free entry is given to an inode that has none. *)
Definition fresh_inode (dev inum : Z) (x : inode) : inode := set_i_flags 0 (set_i_ref 1 (set_i_inum inum (set_i_dev dev x))).
Lemma icache_fresh I k x dev inum :
  icache_ok I → I !! k = Some x → i_ref x = 0 → (∀ j y, I !! j = Some y → ¬ is_ref dev inum y) →
  icache_ok (<[k := fresh_inode dev inum x]> I) ∧ refs (<[k := fresh_inode dev inum x]> I) dev inum = 1 ∧
  ∀ dev' inum', (dev', inum') ≠ (dev, inum) → refs (<[k := fresh_inode dev inum x]> I) dev' inum' = refs I dev' inum'.
Proof.
  intros Hok Hk Hx Hno. apply (icache_insert I k x (fresh_inode dev inum x)); try done.
  - intros j z _. apply Hno.
  - lia.
Qed.

(** The section of code under [icache.lock]. *)
Definition set_table (I : list inode) (s : kst W) : kst W := released L_icache (with_inodes I (acquired L_icache s)).

Lemma set_table_ok I s :
  krun [] fslocks i p s →
  acquire L_icache s = Done tt (acquired L_icache s) ∧
  release L_icache (with_inodes I (acquired L_icache s)) = Done tt (set_table I s) ∧ krun [] fslocks i p (set_table I s).
Proof.
  intros Hk. destruct (krun_acquire [] _ _ _ L_icache s Hk) as [Ha Hk1]; [set_solver|set_solver|]. split; [done|].
  assert (krun [L_icache] fslocks i p (with_inodes I (acquired L_icache s))) as Hk2 by (by apply (krun_frame _ _ _ _ (acquired L_icache s))).
  by destruct (krun_release [] _ _ _ _ _ Hk2) as [-> Hk3].
Qed.

(** The entry of the table after [iget]: one more reference, or a free entry given to
    the inode. *)
Definition got_entry (I : list inode) (dev inum : Z) (z x : inode) : Prop :=
  is_ref dev inum z ∧ x = set_i_ref (i_ref z + 1) z ∨
  i_ref z = 0 ∧ (∀ j y, I !! j = Some y → ¬ is_ref dev inum y) ∧ x = fresh_inode dev inum z.

Lemma iget_exact dev inum s :
  krun [] fslocks i p s → icache_ok (inodes s) → refs (inodes s) dev inum < 2^31 - 2 →
  (∃ ip z x, inodes s !! ip = Some z ∧ got_entry (inodes s) dev inum z x ∧ iget dev inum s = Done ip (set_table (<[ip := x]> (inodes s)) s)) ∨
  (iget dev inum s = Panic "iget: no inodes" ∧ refs (inodes s) dev inum = 0 ∧ Forall (λ x, i_ref x ≠ 0) (inodes s)).
Proof.
  intros Hk Hok Hlt. unfold iget. mstep. destruct (set_table_ok (inodes s) s Hk) as [-> _]. mstep.
  set (s1 := acquired L_icache s). pose proof (ic_len _ Hok) as Hlen.
  rewrite <- Hlen. rewrite (iget_scan_eq dev inum (inodes s) 0 None s1) by (intros; done).
  destruct (list_find (is_ref dev inum) (inodes s)) as [[j x]|] eqn:E; mstep.
  - apply list_find_Some in E as (Hj & Hr & _). left. cbn [Nat.add]. pose proof (ic_ref _ Hok j x Hj) as Hb.
    rewrite (refs_at _ dev inum j x) in Hlt by done. exists j, x, (set_i_ref (i_ref x + 1) x). split; [done|]. split; [by left|].
    rewrite (set_inode_eq j _ x) by done. mstep. rewrite s32_id by lia.
    destruct (set_table_ok (<[j := set_i_ref (i_ref x + 1) x]> (inodes s)) s Hk) as (_ & Hrel & _).
    change (inodes s1) with (inodes s). unfold s1. by rewrite Hrel.
  - apply list_find_None in E. rewrite Forall_lookup in E.
    assert (refs (inodes s) dev inum = 0) as H0 by (apply refs_none, E).
    destruct (list_find is_free (inodes s)) as [[e y]|] eqn:F; cbn [fmap option_fmap option_map fst Nat.add].
    + apply list_find_Some in F as (He & Hy & _). left. exists e, y, (fresh_inode dev inum y). split; [done|]. split; [by right|].
      mstep. do 4 (rewrite set_inode_alter; mstep). rewrite !inodes_with, !with_inodes_twice, !list_alter_alter_eq.
      erewrite (list_alter_at _ (inodes s1)) by exact He.
      destruct (set_table_ok (<[e := fresh_inode dev inum y]> (inodes s)) s Hk) as (_ & Hrel & _).
      change (set_i_flags 0 ∘ _ ∘ _ ∘ _) with (fresh_inode dev inum). unfold s1. cbv beta. change (inodes (acquired _ s)) with (inodes s).
      by rewrite Hrel.
    + right. apply list_find_None in F. done.
Qed.

Lemma got_entry_ok I ip dev inum z x :
  icache_ok I → I !! ip = Some z → got_entry I dev inum z x → refs I dev inum < 2^31 - 2 →
  icache_ok (<[ip := x]> I) ∧ is_ref dev inum x ∧ (i_ref x ≠ 1 ∨ Z.land (i_flags x) I_VALID = 0) ∧
  refs (<[ip := x]> I) dev inum = refs I dev inum + 1 ∧ ∀ d n, (d, n) ≠ (dev, inum) → refs (<[ip := x]> I) d n = refs I d n.
Proof.
  intros Hok Hz [[Hr ->]|(H0 & Hno & ->)] Hlt.
  - rewrite (refs_at I dev inum ip z) in Hlt |- * by done. pose proof Hr as (Hp & Ed & En).
    destruct (icache_set_ref I ip z (i_ref z + 1) Hok Hz) as (Hok' & Hr1 & Hr2); [done|lia|]. rewrite Ed, En in *.
    split; [done|]. split; [split; [cbn; lia|done]|]. split; [left; cbn; lia|done].
  - destruct (icache_fresh I ip z dev inum Hok Hz H0 Hno) as (Hok' & Hr1 & Hr2). rewrite (refs_none I dev inum Hno), Hr1.
    split; [done|]. split; [done|]. split; [by right|done].
Qed.

(** [iget] adds a reference: to the entry the inode has, or to a free one; it
    panics only when the inode has no entry and none is free. *)
Lemma iget_ok dev inum s :
  krun [] fslocks i p s → icache_ok (inodes s) → refs (inodes s) dev inum < 2^31 - 2 →
  (∃ ip I', iget dev inum s = Done ip (set_table I' s) ∧ icache_ok I' ∧
     (∃ x, I' !! ip = Some x ∧ is_ref dev inum x ∧ (i_ref x ≠ 1 ∨ Z.land (i_flags x) I_VALID = 0)) ∧
     refs I' dev inum = refs (inodes s) dev inum + 1 ∧ ∀ d n, (d, n) ≠ (dev, inum) → refs I' d n = refs (inodes s) d n) ∨
  (iget dev inum s = Panic "iget: no inodes" ∧ refs (inodes s) dev inum = 0 ∧ Forall (λ x, i_ref x ≠ 0) (inodes s)).
Proof.
  intros Hk Hok Hlt. destruct (iget_exact dev inum s Hk Hok Hlt) as [(ip & z & x & Hz & Hg & E)|]; [left|by right].
  destruct (got_entry_ok _ _ _ _ _ _ Hok Hz Hg Hlt) as (H1 & H2 & H3 & H4 & H5). exists ip, (<[ip := x]> (inodes s)). split; [done|]. split; [done|].
  split; [|done]. exists x. split; [apply list_lookup_insert_eq; by eapply lookup_lt_Some|done].
Qed.

(** [idup] and [iput] count one up and one down. *)
Lemma idup_exact ip x s :
  krun [] fslocks i p s → inodes s !! ip = Some x → 0 < i_ref x < 2^31 - 2 →
  idup ip s = Done ip (set_table (<[ip := set_i_ref (i_ref x + 1) x]> (inodes s)) s).
Proof.
  intros Hk Hx Hr. unfold idup. mstep. destruct (set_table_ok (<[ip := set_i_ref (i_ref x + 1) x]> (inodes s)) s Hk) as (-> & Hrel & _).
  mstep. rewrite (set_inode_eq ip _ x) by done. mstep. rewrite s32_id by lia.
  change (inodes (acquired _ s)) with (inodes s). by rewrite Hrel.
Qed.

Lemma idup_ok ip x s :
  krun [] fslocks i p s → icache_ok (inodes s) → inodes s !! ip = Some x → 0 < i_ref x < 2^31 - 2 →
  ∃ I', idup ip s = Done ip (set_table I' s) ∧ icache_ok I' ∧ refs I' (i_dev x) (i_inum x) = refs (inodes s) (i_dev x) (i_inum x) + 1 ∧
    ∀ d n, (d, n) ≠ (i_dev x, i_inum x) → refs I' d n = refs (inodes s) d n.
Proof.
  intros Hk Hok Hx Hr. rewrite (idup_exact ip x s) by done.
  destruct (icache_set_ref (inodes s) ip x (i_ref x + 1) Hok Hx) as (Hok' & H1 & H2); [lia|lia|].
  eexists. split; [done|]. split; [done|]. rewrite H1. split; [|done]. by rewrite (refs_at _ _ _ ip x) by (done || by split; [lia|]).
Qed.

Lemma iput_exact ip x s :
  krun [] fslocks i p s → icache_ok (inodes s) → inodes s !! ip = Some x → 0 < i_ref x →
  i_ref x ≠ 1 ∨ Z.land (i_flags x) I_VALID = 0 ∨ i_nlink x ≠ 0 →
  iput fuel ip s = Done tt (set_table (<[ip := set_i_ref (i_ref x - 1) x]> (inodes s)) s).
Proof.
  intros Hk Hok Hx Hr Hc. unfold iput. mstep. destruct (set_table_ok (<[ip := set_i_ref (i_ref x - 1) x]> (inodes s)) s Hk) as (-> & Hrel & _).
  mstep. rewrite (get_inode_eq ip x) by done. mstep.
  assert ((i_ref x =? 1) && negb (Z.land (i_flags x) I_VALID =? 0) && (i_nlink x =? 0) = false) as ->.
  { destruct Hc as [Hc|[Hc|Hc]]; [by rewrite (proj2 (Z.eqb_neq _ _) Hc)|rewrite Hc; by rewrite andb_false_r|].
    rewrite (proj2 (Z.eqb_neq _ _) Hc). by rewrite andb_false_r. }
  cbn [when]. mstep. rewrite (set_inode_eq ip _ x) by done. mstep. pose proof (ic_ref _ Hok ip x Hx). rewrite s32_id by lia.
  change (inodes (acquired _ s)) with (inodes s). by rewrite Hrel.
Qed.

Lemma iput_ok ip x s :
  krun [] fslocks i p s → icache_ok (inodes s) → inodes s !! ip = Some x → 0 < i_ref x →
  i_ref x ≠ 1 ∨ Z.land (i_flags x) I_VALID = 0 ∨ i_nlink x ≠ 0 →
  ∃ I', iput fuel ip s = Done tt (set_table I' s) ∧ icache_ok I' ∧ refs I' (i_dev x) (i_inum x) = refs (inodes s) (i_dev x) (i_inum x) - 1 ∧
    ∀ d n, (d, n) ≠ (i_dev x, i_inum x) → refs I' d n = refs (inodes s) d n.
Proof.
  intros Hk Hok Hx Hr Hc. rewrite (iput_exact ip x s) by done. pose proof (ic_ref _ Hok ip x Hx).
  destruct (icache_set_ref (inodes s) ip x (i_ref x - 1) Hok Hx) as (Hok' & H1 & H2); [lia|lia|].
  eexists. split; [done|]. split; [done|]. rewrite H1. split; [|done]. by rewrite (refs_at _ _ _ ip x) by (done || by split; [lia|]).
Qed.

End Icache.
