(* ===== verification/FsLaw.v ===== *)
(** What the operations of fs.c do to the disk blocks and the inode table inside
    a transaction: allocation of blocks, inodes on disk and in memory, and the
    contents of files. *)
From S2P Require Import Prelude Mem KState Spinlock Sched Sleeplock Layout Path Bio BioLaw Log LogLaw Services Fs Icache.

(** ** The free map *)

Lemma land_bit x k : 0 ≤ k → (Z.land x (Z.shiftl 1 k) =? 0) = negb (Z.testbit x k).
Proof.
  intros Hk. destruct (Z.eqb_spec (Z.land x (Z.shiftl 1 k)) 0) as [H0|H0].
  - apply (f_equal (λ z, Z.testbit z k)) in H0. rewrite Z.land_spec, Z.shiftl_spec, Z.sub_diag, Z.testbit_0_l, andb_true_r in H0 by done.
    by rewrite H0.
  - destruct (Z.testbit x k) eqn:E; [done|]. destruct H0. apply Z.bits_inj'. intros j Hj.
    rewrite Z.land_spec, Z.shiftl_spec, Z.testbit_0_l by done. destruct (decide (j = k)) as [->|Hne]; [by rewrite E|].
    destruct (decide (j < k)); [rewrite (Z.testbit_neg_r _ (j - k)) by lia; by rewrite andb_false_r|].
    rewrite (Z.bits_above_log2 1 (j - k)); [by rewrite andb_false_r|lia|cbn; lia].
Qed.

Lemma u8_testbit x k : 0 ≤ k < 8 → Z.testbit (u8 x) k = Z.testbit x k.
Proof. intros Hk. unfold u8. by rewrite Z.mod_pow2_bits_low by lia. Qed.

(** The bit of [bi] in a block of the map. *)
Definition map_bit (bi : Z) (d : list Z) : bool := Z.testbit (bit_byte bi d) (bi mod 8).

Lemma map_bit_test bi d : (Z.land (bit_byte bi d) (bit_mask bi) =? 0) = negb (map_bit bi d).
Proof. apply land_bit. apply Z.mod_pos_bound. lia. Qed.

Lemma set_byte_at bi bi' v d :
  0 ≤ bi → 0 ≤ bi' → bi / 8 < Z.of_nat (length d) →
  bit_byte bi' (set_byte bi v d) = if decide (bi' / 8 = bi / 8) then u8 v else bit_byte bi' d.
Proof.
  intros H1 H2 Hl. assert (0 ≤ bi / 8) by (by apply Z.div_pos). assert (0 ≤ bi' / 8) by (by apply Z.div_pos).
  unfold bit_byte, set_byte. destruct (decide (bi' / 8 = bi / 8)) as [->|Hne].
  - rewrite list_lookup_total_insert_eq by lia. done.
  - rewrite list_lookup_total_insert_ne; [done|]. lia.
Qed.

Lemma mask_bit bi bi' : bi' / 8 = bi / 8 → Z.testbit (bit_mask bi) (bi' mod 8) = bool_decide (bi' = bi).
Proof.
  intros E. pose proof (Z.mod_pos_bound bi' 8). pose proof (Z.mod_pos_bound bi 8).
  unfold bit_mask. rewrite Z.shiftl_spec by lia. destruct (bool_decide_reflect (bi' = bi)) as [->|Hne].
  - by rewrite Z.sub_diag.
  - assert (bi' mod 8 ≠ bi mod 8) by (pose proof (Z.div_mod bi 8); pose proof (Z.div_mod bi' 8); lia).
    destruct (decide (bi' mod 8 < bi mod 8)); [by rewrite Z.testbit_neg_r by lia|].
    apply Z.bits_above_log2; cbn; lia.
Qed.

(** Setting and clearing a bit. *)
Lemma map_bit_set bi bi' d :
  0 ≤ bi → 0 ≤ bi' → bi / 8 < Z.of_nat (length d) →
  map_bit bi' (set_byte bi (Z.lor (bit_byte bi d) (bit_mask bi)) d) = bool_decide (bi' = bi) || map_bit bi' d.
Proof.
  intros H1 H2 Hl. unfold map_bit. rewrite set_byte_at by done. pose proof (Z.mod_pos_bound bi' 8).
  destruct (decide (bi' / 8 = bi / 8)) as [E|E]; [|rewrite bool_decide_eq_false_2; [done|by intros ->]].
  rewrite u8_testbit, Z.lor_spec, mask_bit by (done || lia). unfold bit_byte. by rewrite E, orb_comm.
Qed.

Lemma map_bit_clear bi bi' d :
  0 ≤ bi → 0 ≤ bi' → bi / 8 < Z.of_nat (length d) →
  map_bit bi' (set_byte bi (Z.land (bit_byte bi d) (Z.lnot (bit_mask bi))) d) = negb (bool_decide (bi' = bi)) && map_bit bi' d.
Proof.
  intros H1 H2 Hl. unfold map_bit. rewrite set_byte_at by done. pose proof (Z.mod_pos_bound bi' 8).
  destruct (decide (bi' / 8 = bi / 8)) as [E|E]; [|rewrite bool_decide_eq_false_2; [done|by intros ->]].
  rewrite u8_testbit, Z.land_spec, Z.lnot_spec, mask_bit by (done || lia). unfold bit_byte. by rewrite E, andb_comm.
Qed.

(** ** Inodes on disk *)

(** An inode whose fields fit their C types. *)
Record inode_wf (x : inode) : Prop := {
  iw_type : -2^15 ≤ i_type x < 2^15;
  iw_major : -2^15 ≤ i_major x < 2^15;
  iw_minor : -2^15 ≤ i_minor x < 2^15;
  iw_nlink : -2^15 ≤ i_nlink x < 2^15;
  iw_size : 0 ≤ i_size x < 2^32;
  iw_addrs : length (i_addrs x) = S NDIRECT;
  iw_addr k a : i_addrs x !! k = Some a → 0 ≤ a < 2^32;
}.

Lemma length_put_dinode off x d : length (put_dinode off x d) = length d.
Proof. unfold put_dinode, put_half, put_word. by rewrite !length_put. Qed.

(** The 64 bytes of the inode, and no others, are written. *)
Lemma put_dinode_out off x d k :
  length (i_addrs x) = S NDIRECT → (k < off ∨ off + 64 ≤ k)%nat → put_dinode off x d !! k = d !! k.
Proof.
  intros Ha Hk. unfold put_dinode, put_half, put_word.
  rewrite !put_out; [done|..]; rewrite ?length_words, ?Ha; cbn; lia.
Qed.

Ltac get_past := rewrite get_put_ne by (rewrite ?length_put; cbn [length le16 le32]; lia).

(** What [iupdate] wrote is what [ilock] reads. *)
Lemma load_put_dinode off x y d :
  inode_wf x → (off + 64 ≤ length d)%nat →
  load_dinode off (put_dinode off x d) y =
  mkInode (i_dev y) (i_inum y) (i_ref y) (i_flags y) (i_type x) (i_major x) (i_minor x) (i_nlink x) (i_size x) (i_addrs x).
Proof.
  intros [I1 I2 I3 I4 I5 I6 I7] Hl. unfold load_dinode, dip_type, put_dinode.
  set (bs := concat (le32 <$> i_addrs x)). assert (length bs = 52%nat) as Hbs by (unfold bs; by rewrite length_words, I6).
  f_equal.
  - etrans; [|by apply (s16_u16 (i_type x))]. f_equal. etrans; [|apply (half_put_half off (i_type x) d); lia]. unfold half, put_half, put_word.
    f_equal. get_past. get_past. get_past. get_past. by get_past.
  - etrans; [|by apply (s16_u16 (i_major x))]. f_equal. set (d1 := put_half off _ d). assert (length d1 = length d) by apply length_put.
    etrans; [|apply (half_put_half (off + 2) (i_major x) d1); lia]. unfold half, put_half, put_word. f_equal. get_past. get_past. get_past. by get_past.
  - etrans; [|by apply (s16_u16 (i_minor x))]. f_equal. set (d1 := put_half (off + 2) _ _).
    assert (length d1 = length d) by (unfold d1, put_half; by rewrite !length_put).
    etrans; [|apply (half_put_half (off + 4) (i_minor x) d1); lia]. unfold half, put_half, put_word. f_equal. get_past. get_past. by get_past.
  - etrans; [|by apply (s16_u16 (i_nlink x))]. f_equal. set (d1 := put_half (off + 4) _ _).
    assert (length d1 = length d) by (unfold d1, put_half; by rewrite !length_put).
    etrans; [|apply (half_put_half (off + 6) (i_nlink x) d1); lia]. unfold half, put_half, put_word. f_equal. get_past. by get_past.
  - etrans; [|by apply (u32_id (i_size x))]. set (d1 := put_half (off + 6) _ _).
    assert (length d1 = length d) by (unfold d1, put_half; by rewrite !length_put).
    etrans; [|apply (word_put_word (off + 8) (i_size x) d1); lia]. unfold word, put_word. f_equal. by get_past.
  - set (d1 := put_word (off + 8) _ _). assert (length d1 = length d) by (unfold d1, put_half, put_word; by rewrite !length_put).
    apply list_eq_same_length with (S NDIRECT); [done|unfold dip_addrs; by rewrite length_fmap, length_seq|].
    intros k a b Hk. unfold dip_addrs. rewrite list_lookup_fmap, lookup_seq_lt by done. cbn [fmap option_fmap option_map]. intros [= <-] Hb.
    unfold word. rewrite get_put_sub by (rewrite ?Hbs; unfold NDIRECT in Hk; lia).
    change (k + (k + (k + (k + 0))))%nat with (4 * k)%nat. unfold bs. rewrite (get_words _ _ b), of_le_le32 by done. apply u32_id. by eapply I7.
Qed.

(** The other inodes of the block keep their fields. *)
Lemma load_dinode_ext off d d' y :
  (off + 64 ≤ length d)%nat → length d' = length d → (∀ k, (off ≤ k < off + 64)%nat → d' !! k = d !! k) →
  load_dinode off d' y = load_dinode off d y.
Proof.
  intros Hl Hl' He. unfold load_dinode, dip_type, dip_addrs, half, word.
  assert (∀ a n, (off ≤ a)%nat → (a + n ≤ off + 64)%nat → get a n d' = get a n d) as Hg.
  { intros a n H1 H2. apply get_eq; [lia|done|]. intros k Hk. apply He. lia. }
  rewrite !Hg by lia. f_equal. apply list_fmap_ext. intros j k Hk. apply lookup_seq in Hk as [-> Hk].
  unfold NDIRECT in Hk. by rewrite Hg by lia.
Qed.

Section FsLaw.
Context {W : Type} {VO : VmOps W} {DV : DevSw W}.
Context (i : nat) (p : proc) (D0 : disk) (size : Z) (Hsize : 0 ≤ size < 2^31).
Context (fuel : nat) (Hfuel : (0 < fuel)%nat).
Context (start lsize : Z) (Hlog : 0 ≤ start ∧ start + lsize ≤ size ∧ 0 < lsize).
Abbreviation bio := (@bio W i p D0 size).
Abbreviation lh_ok := (lh_ok start).
Implicit Types (s : kst W) (C : disk) (H : gmap Z nat) (bl : list Z).

(** Blocks a transaction never writes: the log's, and the superblock. *)
Definition reserved (n : Z) : Prop := in_log start lsize n ∨ n = 1.

(** Inside a transaction: [C] the contents of the disk as the cache shows them,
    [bl] the blocks written so far, [H] the buffers in use. *)
Record tx h C bl H s : Prop := {
  tx_bio : bio h C (list_to_set bl) H s;
  tx_lh : lh_ok bl (log_of s);
  tx_home x : x ∈ bl → 0 ≤ x < size ∧ ¬ reserved x;
  tx_nodup : NoDup bl;
  tx_out : 1 ≤ lg_outstanding (log_of s);
  tx_size : lg_size (log_of s) = lsize;
}.

(** Room in the log and the buffer cache for [k] more blocks. *)
Definition room (k : nat) bl H : Prop :=
  (length bl + base.size H + k < NBUF)%nat ∧ Z.of_nat (length bl + k) < lsize.

Lemma room_mono k k' bl H : room k bl H → (k' ≤ k)%nat → room k' bl H.
Proof. clear Hsize Hfuel Hlog. unfold room. lia. Qed.

Lemma room_absorb k n bl H : room (S k) bl H → room k (absorb n bl) H.
Proof. unfold room, absorb. destruct (decide (n ∈ bl)); rewrite ?length_app; cbn; lia. Qed.

Lemma room_bufs k bl H : room k bl H → (base.size (list_to_set bl ∪ dom H : gset Z) < NBUF)%nat.
Proof.
  intros [Hr _]. rewrite size_union_alt.
  pose proof (subseteq_size (dom H ∖ list_to_set bl : gset Z) (dom H) ltac:(set_solver)) as H1.
  rewrite size_dom in H1. assert (base.size (list_to_set bl : gset Z) ≤ length bl)%nat; [|lia].
  clear. induction bl as [|x bl IH]; cbn; [by rewrite size_empty|].
  rewrite size_union_alt, size_singleton.
  pose proof (subseteq_size (list_to_set bl ∖ {[x]} : gset Z) (list_to_set bl) ltac:(set_solver)). lia.
Qed.

(** What a block needs to be given back: it is in the log, or unchanged. *)
Definition clean h C bl n : Prop := n ∈ bl ∨ C n = play D0 h n.

Lemma tx_read h C bl H s n :
  tx h C bl H s → H !! n = None → 0 ≤ n < size → room 0 bl H →
  wp alone (bread fuel 1 n s) (λ b s', tx h C bl (<[n := b]> H) s' ∧ clean h C bl n ∧ keeps s s').
Proof.
  intros [T1 T2 T3 T4 T5 T6] Hn Hr Hroom.
  assert (clean h C bl n) as Hcl.
  { unfold clean. destruct (decide (n ∈ bl)) as [Hin|Hin]; [by left|right].
    eapply ca_clean; [apply T1|by rewrite elem_of_list_to_set|done]. }
  eapply wp_mono; [|apply (bread_ok i p D0 size Hsize fuel Hfuel); try done].
  - intros b s' [Hb Hk]. split; [|done]. rewrite <- (keeps_log _ _ Hk) in T2, T5, T6. by split.
  - right. by eapply room_bufs.
Qed.

Lemma tx_get h C bl H s n b :
  tx h C bl H s → H !! n = Some b → ∃ x, get_buf b s = Done x s ∧ b_data x = C n.
Proof.
  intros [T1 _ _ _ _ _] Hn. destruct (bio_holds _ _ _ _ _ _ _ _ _ _ _ T1 Hn) as (x & Hx & _ & _ & Hd & _).
  exists x. split; [by apply get_buf_eq|done].
Qed.

(** A block that was only read is given back. *)
Lemma tx_release h C bl H s n b :
  tx h C bl H s → H !! n = Some b → clean h C bl n →
  wp alone (brelse b s) (λ _ s', tx h C bl (delete n H) s' ∧ keeps s s').
Proof.
  intros [T1 T2 T3 T4 T5 T6] Hn Hc. eapply wp_mono; [|apply (brelse_ok i p D0 size Hsize); try done].
  - intros b' s' [Hb Hk]. split; [|done]. rewrite <- (keeps_log _ _ Hk) in T2, T5, T6. by split.
  - by rewrite elem_of_list_to_set.
Qed.

(** The holder of a block stores into it and logs it. *)
Lemma tx_store h C bl H s n b f :
  tx h C bl H s → H !! n = Some b → length (f (C n)) = Z.to_nat BSIZE →
  wp alone (set_data b f s) (λ _ s', tx h (dupd n (f (C n)) C) bl H s' ∧ keeps s s').
Proof.
  intros [T1 T2 T3 T4 T5 T6] Hn Hf. unfold set_data.
  eapply wp_mono; [|apply (store_ok i p D0 size h C (list_to_set bl) H s n b f); done].
  intros b' s' [Hb Hk]. split; [|done]. rewrite <- (keeps_log _ _ Hk) in T2, T5, T6. by split.
Qed.

Lemma tx_log h C bl H s n b :
  tx h C bl H s → H !! n = Some b → 0 ≤ n < size → ¬ reserved n → room 1 bl H →
  wp alone (log_write b s) (λ _ s', tx h C (absorb n bl) H s' ∧ lkeeps s s').
Proof.
  intros [T1 T2 T3 T4 T5 T6] Hn Hr Hl [R1 R2].
  eapply wp_mono; [|eapply log_write_ok; try done].
  - intros [] s' (Hb & Hlh & Hk & bk & El). split; [|done]. split; try done.
    + intros x Hx. unfold absorb in Hx. destruct (decide (n ∈ bl)); [by apply T3|].
      apply elem_of_app in Hx as [Hx| ->%list_elem_of_singleton]; [by apply T3|done].
    + unfold absorb. destruct (decide (n ∈ bl)); [done|]. apply NoDup_app. split; [done|].
      split; [set_solver|apply NoDup_singleton].
    + by rewrite El.
    + by rewrite El.
  - intros x Hx. by apply T3.
  - change LOGSIZE with (Z.of_nat NBUF). lia.
  - lia.
Qed.

Lemma absorb_some n bl : absorb n bl ≠ [].
Proof. unfold absorb. destruct (decide (n ∈ bl)) as [Hin|]; [by intros ->; set_solver|]. by destruct bl. Qed.

Lemma clean_absorb h C bl n : clean h C (absorb n bl) n.
Proof. left. unfold absorb. destruct (decide (n ∈ bl)); set_solver. Qed.

(** Modify, log, give back. *)
Lemma tx_put h C bl H s n b f :
  tx h C bl (<[n := b]> H) s → H !! n = None → 0 ≤ n < size → ¬ reserved n → room 2 bl H → length (f (C n)) = Z.to_nat BSIZE →
  wp alone ((set_data b f ;;; log_write b ;;; brelse b) s)
    (λ _ s', tx h (dupd n (f (C n)) C) (absorb n bl) H s' ∧ lkeeps s s').
Proof.
  intros Ht Hn Hr Hl Hroom Hf. mstep. assert (<[n := b]> H !! n = Some b) as Hget by apply lookup_insert_eq.
  eapply wp_then; [by apply (tx_store _ _ _ _ _ n b f Ht Hget)|]. intros [] s2 [T2 K2]. mstep.
  eapply wp_then; [eapply (tx_log _ _ _ _ _ n); [done|exact Hget|done|done|]|].
  { unfold room in *. rewrite map_size_insert_None by done. lia. }
  intros [] s3 [T3 K3]. mstep.
  eapply wp_mono; [|eapply (tx_release _ _ _ _ _ n); [done|exact Hget|apply clean_absorb]].
  intros [] s4 [T4 K4]. rewrite delete_insert_eq, delete_id in T4 by done. split; [done|].
  apply keeps_lkeeps in K2, K4. etrans; [exact K2|]. by etrans.
Qed.

(** The same, followed by more. *)
Lemma tx_put_then {B} h C bl H s n b f (k : M (kst W) B) Q :
  tx h C bl (<[n := b]> H) s → H !! n = None → 0 ≤ n < size → ¬ reserved n → room 2 bl H → length (f (C n)) = Z.to_nat BSIZE →
  (∀ s', tx h (dupd n (f (C n)) C) (absorb n bl) H s' → lkeeps s s' → wp alone (k s') Q) →
  wp alone ((set_data b f ;;; log_write b ;;; brelse b ;;; k) s) Q.
Proof.
  intros Ht Hn Hr Hl Hroom Hf Hk. pose proof (tx_put h C bl H s n b f Ht Hn Hr Hl Hroom Hf) as Hw.
  apply wp_alone in Hw as ([] & s' & He & T & K). unfold bind in *.
  destruct (set_data b f s) as [[] s1|?| | |? ?]; cbn in He |- *; try done.
  destruct (log_write b s1) as [[] s2|?| | |? ?]; cbn in He |- *; try done. rewrite He. cbn. by apply Hk.
Qed.

(** Read, modify, log, give back. *)
Lemma tx_update h C bl H s n f :
  tx h C bl H s → H !! n = None → 0 ≤ n < size → ¬ reserved n → room 2 bl H → length (f (C n)) = Z.to_nat BSIZE →
  wp alone ((b <- bread fuel 1 n ;; set_data b f ;;; log_write b ;;; brelse b) s)
    (λ _ s', tx h (dupd n (f (C n)) C) (absorb n bl) H s' ∧ lkeeps s s').
Proof.
  intros Ht Hn Hr Hl Hroom Hf. unfold bind at 1.
  eapply wp_then; [eapply tx_read; [done|done|done|by eapply room_mono; [|lia]]|]. intros b s1 (T1 & _ & K1).
  eapply wp_mono; [|by eapply tx_put]. intros [] s2 [T2 K2]. split; [done|]. apply keeps_lkeeps in K1. by etrans.
Qed.

(** Read, look, give back. *)
Lemma tx_readsb h C bl H s :
  tx h C bl H s → H !! 1 = None → 1 < size → room 0 bl H →
  wp alone (readsb fuel 1 s) (λ r s', r = sb_of_bytes (C 1) ∧ tx h C bl H s' ∧ keeps s s').
Proof.
  intros Ht Hn Hr Hroom. unfold readsb. mstep. change (u32 1) with 1.
  eapply wp_then; [eapply (tx_read h C bl H s 1); [done|done|lia|done]|]. intros b s1 (T1 & Hcl & K1). mstep.
  assert (<[1 := b]> H !! 1 = Some b) as Hget by apply lookup_insert_eq.
  destruct (tx_get _ _ _ _ _ _ _ T1 Hget) as (x & Hx & Hd). rewrite Hx. mstep. rewrite Hd.
  eapply wp_then; [by eapply (tx_release _ _ _ _ _ 1)|]. intros [] s2 [T2 K2]. cbn.
  rewrite delete_insert_eq, delete_id in T2 by done. split; [done|]. split; [done|by etrans].
Qed.

(** ** Blocks *)

Definition zeros : list Z := replicate (Z.to_nat BSIZE) 0.

Lemma bzero_ok h C bl H s n :
  tx h C bl H s → H !! n = None → 0 ≤ n < size → ¬ reserved n → room 2 bl H →
  wp alone (bzero fuel 1 n s) (λ _ s', tx h (dupd n zeros C) (absorb n bl) H s' ∧ lkeeps s s').
Proof.
  intros Ht Hn Hr Hl Hroom. unfold bzero. rewrite (u32_id n) by lia. change (u32 1) with 1.
  assert (put 0 (replicate (Z.to_nat BSIZE) 0) (C n) = zeros) as Hz.
  { apply put_all. unfold zeros. rewrite length_replicate. symmetry. apply Ht. }
  eapply wp_mono; [|apply (tx_update h C bl H s n (λ d, put 0 (replicate (Z.to_nat BSIZE) 0) d)); try done].
  - intros [] s'. by rewrite Hz.
  - rewrite Hz. apply length_replicate.
Qed.

(** *** The layout of the disk, as mkfs makes it: log, inodes, free map, data. *)
Context (sb : superblock).
Record layout : Prop := {
  ly_size : sb_size sb = size;
  ly_boot : 2 ≤ start;
  ly_inodes : start + lsize ≤ sb_inodestart sb;
  ly_map : 1 ≤ sb_ninodes sb ∧ sb_inodestart sb + (sb_ninodes sb - 1) / IPB < sb_bmapstart sb;
  ly_data : sb_bmapstart sb + (size - 1) / BPB < size;
}.
Context (Hly : layout).

(** The block of the free map for block [m], and the bit of [m]. *)
Definition map_block (m : Z) : Z := sb_bmapstart sb + m / BPB.
Definition in_use C (m : Z) : bool := map_bit (m mod BPB) (C (map_block m)).
Definition is_data (m : Z) : Prop := sb_bmapstart sb + (size - 1) / BPB < m < size.
(** mkfs marks everything but free data blocks. *)
Definition map_ok C : Prop := ∀ m, 0 ≤ m < size → in_use C m = false → is_data m.

Lemma map_block_range m : 0 ≤ m < size → 0 ≤ map_block m < size ∧ ¬ reserved (map_block m) ∧ ¬ is_data (map_block m).
Proof.
  destruct Hly as [L1 L0 L2 L3 L4]. intros Hm. unfold map_block, reserved, in_log, is_data, BPB, IPB, BSIZE, DINODE in *.
  change (512 * 8) with 4096 in *. change (512 / 64) with 8 in *.
  pose proof (Z.div_le_mono m (size - 1) 4096 ltac:(lia) ltac:(lia)). pose proof (Z.div_pos m 4096 ltac:(lia) ltac:(lia)).
  pose proof (Z.div_pos (sb_ninodes sb - 1) 8 ltac:(lia) ltac:(lia)). lia.
Qed.

Lemma BBLOCK_eq m : 0 ≤ m < size → BBLOCK m sb = map_block m.
Proof.
  intros Hm. destruct (map_block_range m Hm) as [Hr _]. unfold BBLOCK. rewrite Z.add_comm. apply u32_id.
  lia.
Qed.

Lemma is_data_home m : is_data m → 0 ≤ m < size ∧ ¬ reserved m.
Proof.
  destruct Hly as [L1 L0 L2 L3 L4]. intros Hd. unfold is_data, reserved, in_log, BPB, IPB, BSIZE, DINODE in *.
  change (512 * 8) with 4096 in *. change (512 / 64) with 8 in *.
  pose proof (Z.div_pos (size - 1) 4096 ltac:(lia) ltac:(lia)). pose proof (Z.div_pos (sb_ninodes sb - 1) 8 ltac:(lia) ltac:(lia)). lia.
Qed.

(** The disk after [m] was allocated and zeroed. *)
Definition mark C (m : Z) : disk :=
  dupd (map_block m) (set_byte (m mod BPB) (Z.lor (bit_byte (m mod BPB) (C (map_block m))) (bit_mask (m mod BPB))) (C (map_block m))) C.
Definition unmark C (m : Z) : disk :=
  dupd (map_block m) (set_byte (m mod BPB) (Z.land (bit_byte (m mod BPB) (C (map_block m))) (Z.lnot (bit_mask (m mod BPB)))) (C (map_block m))) C.

Lemma same_bit m m' : 0 ≤ m → 0 ≤ m' → map_block m' = map_block m → bool_decide (m' mod BPB = m mod BPB) = bool_decide (m' = m).
Proof.
  intros H1 H2 E. unfold map_block in E. apply bool_decide_ext.
  pose proof (Z.div_mod m BPB ltac:(done)). pose proof (Z.div_mod m' BPB ltac:(done)). split; intros E'; [|by subst].
  assert (m' / BPB = m / BPB) as E2 by lia. rewrite E2, E' in *. lia.
Qed.

Lemma bit_in_block m C : length (C (map_block m)) = Z.to_nat BSIZE → m mod BPB / 8 < Z.of_nat (length (C (map_block m))).
Proof.
  intros ->. pose proof (Z.mod_pos_bound m BPB ltac:(done)). apply Z.div_lt_upper_bound; [lia|]. unfold BPB, BSIZE in *. lia.
Qed.

Lemma in_use_mark C m m' :
  0 ≤ m → 0 ≤ m' → length (C (map_block m)) = Z.to_nat BSIZE → in_use (mark C m) m' = bool_decide (m' = m) || in_use C m'.
Proof.
  intros H1 H2 Hl. unfold in_use, mark, dupd. destruct (decide (map_block m' = map_block m)) as [E|E].
  - rewrite map_bit_set; [|apply Z.mod_pos_bound; done..|by apply bit_in_block]. by rewrite E, same_bit.
  - rewrite bool_decide_eq_false_2; [done|]. by intros ->.
Qed.

Lemma in_use_unmark C m m' :
  0 ≤ m → 0 ≤ m' → length (C (map_block m)) = Z.to_nat BSIZE → in_use (unmark C m) m' = negb (bool_decide (m' = m)) && in_use C m'.
Proof.
  intros H1 H2 Hl. unfold in_use, unmark, dupd. destruct (decide (map_block m' = map_block m)) as [E|E].
  - rewrite map_bit_clear; [|apply Z.mod_pos_bound; done..|by apply bit_in_block]. by rewrite E, same_bit.
  - rewrite bool_decide_eq_false_2; [done|]. by intros ->.
Qed.

Lemma length_mark C m m' : length (mark C m m') = length (C m').
Proof. unfold mark, dupd. destruct (decide _) as [->|]; [|done]. apply length_insert. Qed.
Lemma length_unmark C m m' : length (unmark C m m') = length (C m').
Proof. unfold unmark, dupd. destruct (decide _) as [->|]; [|done]. apply length_insert. Qed.

Lemma balloc_bit_used h C bl H s bp b0 bi :
  tx h C bl H s → 0 ≤ b0 → b0 mod BPB = 0 → 0 ≤ bi < BPB → H !! map_block (b0 + bi) = Some bp →
  in_use C (b0 + bi) = true → balloc_bit fuel 1 bp b0 bi s = Done None s.
Proof.
  intros Ht Hb Hm Hi Hh Hu. destruct (tx_get _ _ _ _ _ _ _ Ht Hh) as (x & Hx & Hd). unfold balloc_bit. mstep.
  rewrite Hx. mstep. rewrite Hd, map_bit_test.
  unfold in_use in Hu. rewrite Z.add_mod, Hm, Z.add_0_l, Z.mod_mod, Z.mod_small in Hu by done. by rewrite Hu.
Qed.

Lemma balloc_bit_free h C bl H s bp b0 bi m :
  tx h C bl (<[map_block m := bp]> H) s → m = b0 + bi → 0 ≤ b0 → b0 mod BPB = 0 → 0 ≤ bi < BPB → is_data m →
  in_use C m = false → H !! map_block m = None → H !! m = None → room 3 bl H →
  wp alone (balloc_bit fuel 1 bp b0 bi s) (λ r s', r = Some m ∧
    tx h (dupd m zeros (mark C m)) (absorb m (absorb (map_block m) bl)) H s' ∧ lkeeps s s').
Proof.
  intros Ht Hm Hb0 Hmod Hbi Hd Hfree Hh1 Hh2 Hroom. destruct (is_data_home _ Hd) as [Hr Hl].
  destruct (map_block_range m Hr) as (Mr & Ml & Md). set (mb := map_block m) in *.
  assert (m mod BPB = bi) as Ebi by (rewrite Hm, Z.add_mod, Hmod, Z.add_0_l, Z.mod_mod, Z.mod_small by done; done).
  assert (<[mb := bp]> H !! mb = Some bp) as Hget by apply lookup_insert_eq.
  destruct (tx_get _ _ _ _ _ _ _ Ht Hget) as (x & Hx & Hxd). unfold balloc_bit. mstep.
  rewrite Hx. mstep. rewrite Hxd, map_bit_test. unfold in_use in Hfree. fold mb in Hfree. rewrite Ebi in Hfree. rewrite Hfree. cbn [negb]. mstep.
  apply (tx_put_then h C bl H s mb bp (λ d, set_byte bi (Z.lor (bit_byte bi d) (bit_mask bi)) d)); try done.
  { eapply room_mono; [exact Hroom|lia]. }
  { unfold set_byte. rewrite length_insert. apply Ht. }
  intros s3 T3 K3. mstep. rewrite <- Hm.
  eapply wp_then; [eapply (bzero_ok _ _ _ _ _ m); [exact T3|done|done|done|by apply room_absorb]|].
  intros [] s4 [T4 K4]. mstep. split; [done|]. split; [|by etrans].
  unfold mark. fold mb. by rewrite Ebi.
Qed.

(** The lowest free block. *)
Definition lowest C (m : Z) : Prop := 0 ≤ m < size ∧ in_use C m = false ∧ ∀ m', 0 ≤ m' < m → in_use C m' = true.

Definition sb_is (s : kst W) : Prop := fs_sb (k_fs s) = sb.
Lemma get_sb_eq s : sb_is s → get_sb s = Done sb s.
Proof. unfold sb_is, get_sb. mstep. by intros ->. Qed.
Lemma lkeeps_sb s s' : lkeeps s s' → sb_is s → sb_is s'.
Proof. intros [[= _ _ _ _ _ E _] _]. unfold sb_is. congruence. Qed.

(** No buffer in use is one that allocation needs. *)
Definition free_bufs H : Prop := ∀ m, 0 ≤ m < size → H !! map_block m = None.

Lemma balloc_block_ok h C bl H s b0 :
  tx h C bl H s → sb_is s → map_ok C → free_bufs H → (∀ m, is_data m → in_use C m = false → H !! m = None) → room 3 bl H →
  0 ≤ b0 < size → b0 mod BPB = 0 → (∀ m', 0 ≤ m' < b0 → in_use C m' = true) →
  wp alone (balloc_block fuel 1 b0 s) (λ r s', match r with
    | Some m => lowest C m ∧ tx h (dupd m zeros (mark C m)) (absorb m (absorb (map_block m) bl)) H s' ∧ lkeeps s s'
    | None => tx h C bl H s' ∧ lkeeps s s' ∧ ∀ m', 0 ≤ m' < Z.min (b0 + BPB) size → in_use C m' = true
    end).
Proof.
  intros Ht Hsb Hmap Hfb Hfd Hroom Hb0 Hmod Hlow. unfold balloc_block. mstep. rewrite get_sb_eq by done. mstep.
  rewrite BBLOCK_eq by done. destruct (map_block_range b0 Hb0) as (Mr & _).
  eapply wp_then; [eapply tx_read; [done|by apply Hfb|done|by eapply room_mono; [|lia]]|].
  intros bp s1 (T1 & Hcl & K1). apply keeps_lkeeps in K1. mstep. rewrite get_sb_eq by (by eapply lkeeps_sb). mstep.
  rewrite (ly_size Hly).
  assert (∀ bi, 0 ≤ bi < BPB → map_block (b0 + bi) = map_block b0) as Hblk.
  { intros bi Hbi. unfold map_block. f_equal. rewrite (Z.div_mod b0 BPB) at 1 by done. rewrite Hmod, Z.add_0_r, Z.mul_comm.
    rewrite Z.div_add_l, (Z.div_small bi) by done. lia. }
  destruct (for_break_scan (λ bi, in_use C (b0 + bi) = false) (balloc_bit fuel 1 bp b0) 0 (Z.min BPB (size - b0)) s1)
    as [(bi & l & Hbi & Hfr & Hlt & ->)|[Hno ->]].
  { intros bi Hbi Hu. eapply balloc_bit_used; [exact T1|lia|done|lia| |by apply not_false_is_true].
    rewrite Hblk by lia. apply lookup_insert_eq. }
  - cbn [for_break]. mstep. rewrite <- (Hblk bi) in T1, Hcl by lia.
    assert (is_data (b0 + bi)) as Hd by (apply Hmap; [lia|done]).
    apply wp_bind. eapply wp_then.
    { eapply (balloc_bit_free _ _ _ H s1 bp b0 bi (b0 + bi)); [exact T1|done|lia|done|lia|done|done| | |done].
      - rewrite Hblk by lia. by apply Hfb.
      - by apply Hfd. }
    intros r s2 (-> & T2 & K2). cbn. split; [|split; [done|by etrans]].
    split; [lia|]. split; [done|]. intros m' Hm'. destruct (decide (m' < b0)); [apply Hlow; lia|].
    specialize (Hlt (m' - b0)). replace (b0 + (m' - b0)) with m' in Hlt by lia. apply not_false_is_true, Hlt. lia.
  - mstep. eapply wp_then; [eapply (tx_release _ _ _ _ _ (map_block b0)); [exact T1|apply lookup_insert_eq|done]|].
    intros [] s2 [T2 K2]. rewrite delete_insert_eq, delete_id in T2 by (by apply Hfb). mstep. apply keeps_lkeeps in K2.
    split; [done|]. split; [by etrans|]. intros m' Hm'. destruct (decide (m' < b0)); [apply Hlow; lia|].
    specialize (Hno (m' - b0)). replace (b0 + (m' - b0)) with m' in Hno by lia. apply not_false_is_true, Hno. lia.
Qed.

(** The search for a free block through the whole map. *)
Lemma balloc_search h C bl H s :
  tx h C bl H s → sb_is s → map_ok C → free_bufs H → (∀ m, is_data m → in_use C m = false → H !! m = None) → room 3 bl H →
  wp alone (for_break (map_blocks size) (balloc_block fuel 1) s) (λ r s', match r with
    | Some v => lowest C v ∧ tx h (dupd v zeros (mark C v)) (absorb v (absorb (map_block v) bl)) H s' ∧ lkeeps s s'
    | None => ∀ m', 0 ≤ m' < size → in_use C m' = true
    end).
Proof.
  intros Ht Hsb Hmap Hfb Hfd Hroom. unfold map_blocks. set (n := (size + BPB - 1) / BPB).
  assert (0 ≤ n) as Hn by (apply Z.div_pos; [unfold BPB, BSIZE; lia|done]).
  rewrite <- (Z2Nat.id n) by done.
  eapply wp_mono; [|apply (for_break_count alone
    (λ k s', tx h C bl H s' ∧ lkeeps s s' ∧ ∀ m', 0 ≤ m' < Z.min (Z.of_nat k * BPB) size → in_use C m' = true)
    (λ v s', lowest C v ∧ tx h (dupd v zeros (mark C v)) (absorb v (absorb (map_block v) bl)) H s' ∧ lkeeps s s'))].
  - intros [v|] s2; [done|]. intros (_ & _ & Hu) m' Hm'. apply Hu. rewrite Z2Nat.id by done. split; [lia|].
    apply Z.min_glb_lt; [|lia]. unfold n. pose proof (Z.mul_succ_div_gt (size + BPB - 1) BPB ltac:(done)). lia.
  - split; [done|]. split; [done|]. lia.
  - intros k s1 Hk (T1 & K1 & Hu).
    assert (Z.of_nat k * BPB < size) as Hk'.
    { assert (Z.of_nat k ≤ n - 1) as Hk1 by lia. unfold n in Hk1.
      pose proof (Z.mul_div_le (size + BPB - 1) BPB ltac:(done)). unfold BPB, BSIZE in *. lia. }
    eapply wp_mono; [|apply (balloc_block_ok h C bl H s1 (Z.of_nat k * BPB)); try done].
    + intros [v|] s2; [intros (Hv & T2 & K2); split; [done|]; split; [done|by etrans]|].
      intros (T2 & K2 & Hu2). split; [done|]. split; [by etrans|]. intros m' Hm'. apply Hu2. lia.
    + by eapply lkeeps_sb.
    + unfold BPB, BSIZE in *; lia.
    + by rewrite Z.mod_mul.
    + intros m' Hm'. apply Hu. lia.
Qed.

(** [balloc] takes the lowest free block, marks it and zeroes it; it panics when
    there is none. *)
Lemma balloc_ok h C bl H s m :
  tx h C bl H s → sb_is s → map_ok C → free_bufs H → (∀ m, is_data m → in_use C m = false → H !! m = None) → room 3 bl H →
  lowest C m →
  wp alone (balloc fuel 1 s) (λ r s', r = m ∧
    tx h (dupd m zeros (mark C m)) (absorb m (absorb (map_block m) bl)) H s' ∧ lkeeps s s').
Proof.
  intros Ht Hsb Hmap Hfb Hfd Hroom (Hm & Hfree & Hlow). unfold balloc. mstep. rewrite get_sb_eq by done. mstep.
  rewrite (ly_size Hly). eapply wp_then; [by apply (balloc_search h C bl H)|]. intros [v|] s2.
  - intros ((Hv & Hvf & Hvl) & T2 & K2). cbn. assert (v = m) as ->; [|done].
    destruct (Z.lt_trichotomy v m) as [Hlt|[->|Hlt]]; [|done|].
    + rewrite Hlow in Hvf by lia. done.
    + rewrite Hvl in Hfree by lia. done.
  - intros Hu. by rewrite Hu in Hfree.
Qed.

Lemma balloc_full h C bl H s :
  tx h C bl H s → sb_is s → map_ok C → free_bufs H → room 3 bl H →
  (∀ m, 0 ≤ m < size → in_use C m = true) → balloc fuel 1 s = Panic "balloc: out of blocks".
Proof.
  intros Ht Hsb Hmap Hfb Hroom Hu. unfold balloc. mstep. rewrite get_sb_eq by done. mstep. rewrite (ly_size Hly).
  pose proof (balloc_search h C bl H s Ht Hsb Hmap Hfb) as Hs.
  apply wp_alone in Hs as ([v|] & s' & -> & Hr); [|done| |done].
  - destruct Hr as ((Hv & Hvf & _) & _). by rewrite Hu in Hvf.
  - intros m Hd Hf. rewrite Hu in Hf; [done|]. by apply is_data_home.
Qed.

(** [bfree] clears the bit of the block. *)
Definition sb_on C : Prop := 1 < size ∧ sb_of_bytes (C 1) = sb.

Lemma set_sb_eq s : sb_is s → set_sb sb s = Done tt s.
Proof.
  intros Hs. unfold set_sb, upd_fs. mstep. rewrite <- Hs. destruct s as [? ? ? ? ? ? ? ? ? ? ? ? ? ? f ?]. by destruct f.
Qed.

Lemma bfree_ok h C bl H s m :
  tx h C bl H s → sb_is s → sb_on C → free_bufs H → H !! 1 = None → room 2 bl H →
  is_data m → in_use C m = true →
  wp alone (bfree fuel 1 m s) (λ _ s', tx h (unmark C m) (absorb (map_block m) bl) H s' ∧ lkeeps s s').
Proof.
  intros Ht Hsb [H1 Hon] Hfb Hh1 Hroom Hd Hu. destruct (is_data_home _ Hd) as [Hr _].
  destruct (map_block_range m Hr) as (Mr & Ml & _). unfold bfree. mstep.
  eapply wp_then; [apply (tx_readsb h C bl H s); [done|done|done|by eapply room_mono; [|lia]]|].
  intros r s1 (-> & T1 & K1). apply keeps_lkeeps in K1. rewrite Hon. mstep. rewrite set_sb_eq by (by eapply lkeeps_sb). mstep.
  change (u32 1) with 1. rewrite BBLOCK_eq by done.
  eapply wp_then; [eapply (tx_read h C bl H s1); [done|by apply Hfb|done|by eapply room_mono; [|lia]]|].
  intros b s2 (T2 & _ & K2). apply keeps_lkeeps in K2. mstep.
  assert (<[map_block m := b]> H !! map_block m = Some b) as Hget by apply lookup_insert_eq.
  destruct (tx_get _ _ _ _ _ _ _ T2 Hget) as (x & Hx & Hxd). rewrite Hx. mstep. rewrite Hxd, map_bit_test.
  unfold in_use in Hu. rewrite Hu. cbn [negb]. mstep.
  eapply wp_mono; [|eapply (tx_put h C bl H s2 (map_block m) b
    (λ d, set_byte (m mod BPB) (Z.land (bit_byte (m mod BPB) d) (Z.lnot (bit_mask (m mod BPB)))) d)); try done].
  - intros [] s3 [T3 K3]. split; [done|]. etrans; [exact K1|]. by etrans.
  - by apply Hfb.
  - unfold set_byte. rewrite length_insert. apply Ht.
Qed.

(** ** The inode table *)

Lemma lkeeps_inodes s s' : lkeeps s s' → inodes s' = inodes s.
Proof. intros [[= _ _ _ _ _ _ E] _]. done. Qed.

(** The parts of the file system state a transaction depends on. *)
Definition disk_part (s : kst W) :=
  (fs_bufs (k_fs s), fs_disk (k_fs s), fs_writes (k_fs s), fs_disksize (k_fs s), fs_log (k_fs s)).

Lemma tx_frame h C bl H s s' :
  tx h C bl H s → krun [] fslocks i p s' → disk_part s' = disk_part s → (∀ k, (k < NBUF)%nat → slock k s' = slock k s) →
  tx h C bl H s'.
Proof.
  intros [[A B D E F G] T2 T3 T4 T5 T6] Hk Hd Hs.
  assert (bufs s' = bufs s) as E1 by exact (f_equal (λ r, r.1.1.1.1) Hd).
  assert (fs_disk (k_fs s') = fs_disk (k_fs s)) as E2 by exact (f_equal (λ r, r.1.1.1.2) Hd).
  assert (fs_writes (k_fs s') = fs_writes (k_fs s)) as E3 by exact (f_equal (λ r, r.1.1.2) Hd).
  assert (fs_disksize (k_fs s') = fs_disksize (k_fs s)) as E4 by exact (f_equal (λ r, r.1.2) Hd).
  assert (log_of s' = log_of s) as E5 by exact (f_equal snd Hd).
  split; rewrite ?E5; try done. split; rewrite ?E3, ?E4; try done.
  - rewrite E1. eapply cache_lk; [done|]. intros b Hb. unfold lkof. by rewrite Hs.
  - intros n. rewrite <- D. unfold Memide.disk_block. by rewrite E2.
Qed.

Lemma tx_with_inodes h C bl H I s : tx h C bl H s → tx h C bl H (with_inodes I s).
Proof.
  intros Ht. eapply tx_frame; [done| |done|done]. apply (krun_frame _ _ _ _ s); [done..|apply Ht].
Qed.

(** *** Inodes in memory and on disk *)

Definition inode_block (inum : Z) : Z := sb_inodestart sb + inum / IPB.
(** The inode on disk. *)
Definition disk_inode C (inum : Z) : inode := load_dinode (dip_off inum) (C (inode_block inum)) inode0.

Lemma inode_block_range inum : 0 ≤ inum < sb_ninodes sb →
  0 ≤ inode_block inum < size ∧ ¬ reserved (inode_block inum) ∧ (∀ m, 0 ≤ m < size → inode_block inum ≠ map_block m) ∧ ¬ is_data (inode_block inum).
Proof.
  destruct Hly as [L1 L0 L2 L3 L4]. intros Hm. unfold inode_block, map_block, reserved, in_log, is_data, BPB, IPB, BSIZE, DINODE in *.
  change (512 * 8) with 4096 in *. change (512 / 64) with 8 in *.
  pose proof (Z.div_le_mono inum (sb_ninodes sb - 1) 8 ltac:(lia) ltac:(lia)). pose proof (Z.div_pos inum 8 ltac:(lia) ltac:(lia)).
  pose proof (Z.div_pos (size - 1) 4096 ltac:(lia) ltac:(lia)). split; [lia|]. split; [lia|]. split; [|lia].
  intros m Hm'. pose proof (Z.div_pos m 4096 ltac:(lia) ltac:(lia)). lia.
Qed.

Lemma IBLOCK_eq inum : 0 ≤ inum < sb_ninodes sb → IBLOCK inum sb = inode_block inum.
Proof.
  intros Hm. destruct (inode_block_range inum Hm) as [Hr _]. unfold IBLOCK. rewrite Z.add_comm. apply u32_id. lia.
Qed.

Lemma dip_off_fits inum (d : list Z) : length d = Z.to_nat BSIZE → (dip_off inum + 64 ≤ length d)%nat.
Proof.
  intros ->. unfold dip_off, IPB, DINODE, BSIZE. change (512 / 64) with 8. pose proof (Z.mod_pos_bound inum 8 ltac:(lia)). lia.
Qed.

Lemma dip_off_apart j k : inode_block j = inode_block k → j ≠ k →
  (dip_off j + 64 ≤ dip_off k ∨ dip_off k + 64 ≤ dip_off j)%nat.
Proof.
  unfold inode_block, dip_off, IPB, DINODE, BSIZE. change (512 / 64) with 8. intros E Hne.
  pose proof (Z.div_mod j 8 ltac:(lia)). pose proof (Z.div_mod k 8 ltac:(lia)).
  pose proof (Z.mod_pos_bound j 8 ltac:(lia)). pose proof (Z.mod_pos_bound k 8 ltac:(lia)). lia.
Qed.

(** The disk after [iupdate] of [x]. *)
Definition put_inode C (x : inode) : disk :=
  dupd (inode_block (i_inum x)) (put_dinode (dip_off (i_inum x)) x (C (inode_block (i_inum x)))) C.

Lemma disk_put_inode C x inum :
  inode_wf x → (∀ n, length (C n) = Z.to_nat BSIZE) →
  disk_inode (put_inode C x) inum =
    if decide (inum = i_inum x) then
      mkInode 0 0 0 0 (i_type x) (i_major x) (i_minor x) (i_nlink x) (i_size x) (i_addrs x)
    else disk_inode C inum.
Proof.
  intros Hw HC. unfold disk_inode, put_inode, dupd. destruct (decide (inum = i_inum x)) as [->|Hne].
  - rewrite decide_True by done. by rewrite load_put_dinode by (done || by apply dip_off_fits).
  - destruct (decide (inode_block inum = inode_block (i_inum x))) as [E|E]; [|done]. rewrite E.
    apply load_dinode_ext; [by apply dip_off_fits|apply length_put_dinode|].
    intros k Hk. apply put_dinode_out; [apply Hw|]. destruct (dip_off_apart _ _ E Hne); lia.
Qed.

Lemma iupdate_ok h C bl H s ip x :
  tx h C bl H s → sb_is s → inodes s !! ip = Some x → i_dev x = 1 → 0 ≤ i_inum x < sb_ninodes sb →
  H !! inode_block (i_inum x) = None → room 2 bl H →
  wp alone (iupdate fuel ip s) (λ _ s', tx h (put_inode C x) (absorb (inode_block (i_inum x)) bl) H s' ∧ lkeeps s s').
Proof.
  intros Ht Hsb Hx Hd Hi Hh Hroom. destruct (inode_block_range _ Hi) as (Ir & Il & _). unfold iupdate. mstep.
  rewrite (get_inode_eq ip x) by done. mstep. rewrite get_sb_eq by done. mstep. rewrite Hd, IBLOCK_eq by done.
  eapply wp_then; [eapply (tx_read h C bl H s); [done|done|done|eapply room_mono; [exact Hroom|lia]]|].
  intros b s1 (T1 & _ & K1). apply keeps_lkeeps in K1. mstep. rewrite (get_inode_eq ip x) by (by rewrite (lkeeps_inodes _ _ K1)). mstep.
  eapply wp_mono; [|eapply (tx_put h C bl H s1 _ b (put_dinode (dip_off (i_inum x)) x)); try done].
  - intros [] s2 [T2 K2]. split; [done|by etrans].
  - rewrite length_put_dinode. apply Ht.
Qed.

(** The entry after [ilock]: what it was if it was valid, else the inode on disk. *)
Definition loaded C (x : inode) : inode :=
  if Z.land (i_flags x) I_VALID =? 0 then
    set_i_flags (Z.lor (i_flags x) I_VALID) (load_dinode (dip_off (i_inum x)) (C (inode_block (i_inum x))) x)
  else x.

Lemma inode_lock_in ip : (ip < NINODE)%nat → L_sleeplock (inode_lock ip) ∈ fslocks.
Proof. intros Hip. apply fslocks_sleep. unfold inode_lock. lia. Qed.

Lemma ilock_ok h C bl H s ip x :
  tx h C bl H s → sb_is s → (ip < NINODE)%nat → inodes s !! ip = Some x → 1 ≤ i_ref x → i_dev x = 1 → 0 ≤ i_inum x < sb_ninodes sb →
  H !! inode_block (i_inum x) = None → room 0 bl H → sl_locked (slock (inode_lock ip) s) = 0 → i_type (loaded C x) ≠ 0 →
  wp alone (ilock fuel ip s) (λ _ s', tx h C bl H s' ∧ sb_is s' ∧ core s' = core s ∧
    inodes s' = <[ip := loaded C x]> (inodes s) ∧ sl_locked (slock (inode_lock ip) s') = 1 ∧
    ∀ k, (NBUF < k)%nat → k ≠ inode_lock ip → slock k s' = slock k s).
Proof.
  intros Ht Hsb Hip Hx Hr Hd Hi Hh Hroom Hfree Hty. unfold ilock. mstep. rewrite (get_inode_eq ip x) by done. mstep.
  destruct (Z.ltb_spec (i_ref x) 1); [lia|]. mstep.
  eapply wp_then; [apply (acquiresleep_free fuel (inode_lock ip) fslocks i p s); [apply Ht|by apply inode_lock_in|done|done]|].
  intros [] s1 (Hk1 & Hc1 & Hf1 & Hl1 & _ & Ho1). mstep.
  assert (tx h C bl H s1) as T1.
  { eapply tx_frame; [exact Ht|done|unfold disk_part; by rewrite Hf1|]. intros k Hk. apply Ho1. unfold inode_lock. lia. }
  assert (inodes s1 = inodes s) as Ei by (unfold inodes; by rewrite Hf1). assert (sb_is s1) as Hsb1 by (unfold sb_is; by rewrite Hf1).
  rewrite (get_inode_eq ip x) by (by rewrite Ei). mstep. unfold loaded in *.
  destruct (Z.land (i_flags x) I_VALID =? 0); cbn [when]; [|mstep; rewrite list_insert_id by done; do 5 (split; [done|]); intros k _ Hk; by apply Ho1].
  mstep. rewrite get_sb_eq by done. mstep. rewrite Hd, IBLOCK_eq by done. destruct (inode_block_range _ Hi) as (Ir & _).
  eapply wp_then; [by apply (tx_read h C bl H s1 (inode_block (i_inum x)))|]. intros b s2 (T2 & Hcl & K2). mstep.
  assert (<[inode_block (i_inum x) := b]> H !! inode_block (i_inum x) = Some b) as Hget by apply lookup_insert_eq.
  destruct (tx_get _ _ _ _ _ _ _ T2 Hget) as (y & Hy & Hyd). rewrite Hy. mstep. rewrite Hyd.
  assert (inodes s2 = inodes s) as Ei2 by (rewrite <- Ei; by apply lkeeps_inodes, keeps_lkeeps).
  rewrite (set_inode_eq ip _ x) by (by rewrite Ei2). mstep. rewrite Ei2.
  eapply wp_then; [eapply (tx_release _ _ _ _ _ (inode_block (i_inum x))); [by apply tx_with_inodes|exact Hget|done]|].
  intros [] s3 [T3 K3]. rewrite delete_insert_eq, delete_id in T3 by done. mstep.
  pose proof (lkeeps_inodes _ _ (keeps_lkeeps _ _ K3)) as Ei3. rewrite inodes_with in Ei3.
  pose proof (lookup_lt_Some _ _ _ Hx) as Hlt.
  erewrite set_inode_eq by (rewrite Ei3; by apply list_lookup_insert_eq). mstep. rewrite Ei3, list_insert_insert_eq.
  erewrite get_inode_eq by (rewrite inodes_with; by apply list_lookup_insert_eq). mstep.
  change (i_flags (load_dinode (dip_off (i_inum x)) (C (inode_block (i_inum x))) x)) with (i_flags x).
  rewrite (proj2 (Z.eqb_neq _ 0) Hty). mstep.
  split; [by apply tx_with_inodes|]. destruct K2 as [E2 S2], K3 as [E3 S3].
  split; [|split; [|split; [done|split]]].
  - assert (fs_sb (k_fs s3) = fs_sb (k_fs s2)) as F3 by exact (f_equal (λ r, r.1.2) E3).
    assert (fs_sb (k_fs s2) = fs_sb (k_fs s1)) as F2 by exact (f_equal (λ r, r.1.2) E2). unfold sb_is in *. cbn. congruence.
  - assert (core s3 = core s2) as F3 by exact (f_equal (λ r, r.1.1.1) E3).
    assert (core s2 = core s1) as F2 by exact (f_equal (λ r, r.1.1.1) E2). change (core s3 = core s). congruence.
  - change (sl_locked (slock (inode_lock ip) s3) = 1). rewrite S3 by (unfold inode_lock; lia).
    change (sl_locked (slock (inode_lock ip) s2) = 1). by rewrite S2 by (unfold inode_lock; lia).
  - intros k Hk Hne. change (slock k s3 = slock k s). rewrite S3 by done. change (slock k s2 = slock k s). rewrite S2 by done. by apply Ho1.
Qed.

(** ** The blocks of a file *)

(** At least [k] blocks are free. *)
Definition avail C (k : nat) : Prop :=
  ∃ X : gset Z, (k ≤ base.size X)%nat ∧ ∀ m, m ∈ X → 0 ≤ m < size ∧ in_use C m = false.

Lemma avail_lowest C k : avail C (S k) → ∃ m, lowest C m.
Proof.
  intros (X & Hk & HX). destruct (size_pos_elem_of X) as [m0 Hm0]; [lia|]. destruct (HX m0 Hm0) as [Hr Hf].
  clear X Hk HX Hm0. assert (∃ n, m0 = Z.of_nat n) as [n ->] by (exists (Z.to_nat m0); lia).
  induction n as [n IH] using lt_wf_ind.
  destruct (decide (Exists (λ j : nat, in_use C (Z.of_nat j) = false) (seq 0 n))) as [He|Hne].
  - apply Exists_exists in He as (j & [_ Hj]%elem_of_seq & Hf'). apply (IH j); [lia|done|lia].
  - exists (Z.of_nat n). split; [done|]. split; [done|]. intros m' Hm'. destruct (in_use C m') eqn:E; [done|].
    destruct Hne. apply Exists_exists. exists (Z.to_nat m'). split; [apply elem_of_seq; lia|]. by rewrite Z2Nat.id by lia.
Qed.

(** The disk after [balloc] returned [m]. *)
Definition taken C (m : Z) : disk := dupd m zeros (mark C m).

Lemma in_use_data C m v n : is_data m → 0 ≤ n < size → in_use (dupd m v C) n = in_use C n.
Proof.
  intros Hd Hn. unfold in_use. rewrite dupd_ne; [done|]. intros E. destruct (map_block_range n Hn) as (_ & _ & Hnd). by rewrite E in Hnd.
Qed.

Lemma taken_in_use C m n :
  is_data m → 0 ≤ n < size → (∀ n, length (C n) = Z.to_nat BSIZE) → in_use (taken C m) n = bool_decide (n = m) || in_use C n.
Proof.
  intros Hd Hn Hl. destruct (is_data_home m Hd) as [Hm _]. unfold taken. rewrite in_use_data by done. apply in_use_mark; [lia|lia|done].
Qed.

Lemma taken_at C m : taken C m m = zeros.
Proof. apply dupd_eq. Qed.
Lemma taken_ne C m n : n ≠ m → n ≠ map_block m → taken C m n = C n.
Proof. intros H1 H2. unfold taken, mark. by rewrite !dupd_ne. Qed.

Lemma taken_data C m n : is_data m → is_data n → n ≠ m → taken C m n = C n.
Proof.
  intros Hd Hn Hne. apply taken_ne; [done|]. intros ->. destruct (is_data_home m Hd) as [Hm _]. by destruct (map_block_range m Hm) as (_ & _ & ?).
Qed.

Lemma taken_map_ok C m : is_data m → (∀ n, length (C n) = Z.to_nat BSIZE) → map_ok C → map_ok (taken C m).
Proof. intros Hd Hl Hm n Hn. rewrite taken_in_use by done. intros [_ Hu]%orb_false_iff. by apply Hm. Qed.

Lemma taken_avail C m k :
  is_data m → (∀ n, length (C n) = Z.to_nat BSIZE) → avail C (S k) → avail (taken C m) k.
Proof.
  intros Hd Hl (X & Hk & HX). exists (X ∖ {[ m ]}). split.
  - rewrite size_difference_alt. pose proof (subseteq_size (X ∩ {[ m ]}) {[ m ]} ltac:(set_solver)) as Hs. rewrite size_singleton in Hs. lia.
  - intros n Hn. destruct (HX n) as [Hr Hf]; [set_solver|]. split; [done|]. rewrite taken_in_use by done.
    rewrite bool_decide_eq_false_2 by set_solver. done.
Qed.

(** The addresses of an inode: [-1] is its indirect block, [0 ...] its data blocks. *)
Definition indirect (x : inode) : Z := i_addrs x !!! NDIRECT.
Definition slot_of C (x : inode) (b : Z) : Z :=
  if b <? 0 then indirect x
  else if b <? Z.of_nat NDIRECT then i_addrs x !!! Z.to_nat b
  else if indirect x =? 0 then 0 else word (Z.to_nat (4 * (b - Z.of_nat NDIRECT))) (C (indirect x)).

(** The blocks of an inode are its own: in use, data, and each in one place. *)
Record owns C (x : inode) : Prop := {
  ow_len : length (i_addrs x) = S NDIRECT;
  ow_data b : -1 ≤ b < MAXFILE → slot_of C x b ≠ 0 → is_data (slot_of C x b) ∧ in_use C (slot_of C x b) = true;
  ow_inj b b' : -1 ≤ b < MAXFILE → -1 ≤ b' < MAXFILE → slot_of C x b ≠ 0 → slot_of C x b = slot_of C x b' → b = b';
}.

Lemma data_pos m : is_data m → 0 < m < 2^31.
Proof.
  intros Hd. destruct (is_data_home m Hd) as [Hr _]. destruct Hly as [L1 L0 L2 L3 L4]. unfold is_data, BPB, IPB, BSIZE, DINODE in *.
  change (512 * 8) with 4096 in *. change (512 / 64) with 8 in *.
  pose proof (Z.div_pos (size - 1) 4096 ltac:(lia) ltac:(lia)). pose proof (Z.div_pos (sb_ninodes sb - 1) 8 ltac:(lia) ltac:(lia)). lia.
Qed.

Lemma word_zeros off : word off zeros = 0.
Proof.
  unfold word, zeros, get. rewrite drop_replicate, take_replicate. generalize (4 `min` (Z.to_nat BSIZE - off))%nat. intros n.
  induction n as [|n IH]; [done|]. change (0 + 256 * of_le (replicate n 0) = 0). by rewrite IH.
Qed.

(** A file that got block [m] at place [b]. *)
Record extended C x C' x' (b m : Z) : Prop := {
  ex_slot b' : -1 ≤ b' < MAXFILE → slot_of C' x' b' = if decide (b' = b) then m else slot_of C x b';
  ex_use n : 0 ≤ n < size → in_use C' n = bool_decide (n = m) || in_use C n;
  ex_rest n : is_data n → n ≠ m → n ≠ indirect x' → C' n = C n;
  ex_meta n : ¬ is_data n → n ≠ map_block m → C' n = C n;
  ex_len : length (i_addrs x') = S NDIRECT;
  ex_fields : x' = set_i_addrs (i_addrs x') x;
}.

Lemma extended_owns C x C' x' b m :
  extended C x C' x' b m → owns C x → is_data m → in_use C m = false → -1 ≤ b < MAXFILE → slot_of C x b = 0 → owns C' x'.
Proof.
  intros [E1 E2 E3 _ E4 _] [O1 O2 O3] Hd Hf Hb H0. pose proof (is_data_home m Hd) as [Hm _].
  assert (∀ c, -1 ≤ c < MAXFILE → slot_of C x c ≠ m) as Hnew.
  { intros c Hc Hcm. pose proof (data_pos m Hd). destruct (O2 c Hc) as [_ Hu]; [lia|]. rewrite Hcm in Hu. congruence. }
  split; [done| |].
  - intros c Hc. rewrite E1 by done. destruct (decide (c = b)) as [->|Hne].
    + intros _. split; [done|]. rewrite E2 by done. by rewrite bool_decide_eq_true_2.
    + intros Hn. destruct (O2 c Hc Hn) as [Hcd Hcu]. split; [done|]. rewrite E2, Hcu by (by apply is_data_home). by rewrite orb_true_r.
  - intros c c' Hc Hc'. rewrite !E1 by done. destruct (decide (c = b)) as [->|Hne], (decide (c' = b)) as [->|Hne']; [done|..].
    + intros _ E. symmetry in E. by destruct (Hnew c' Hc').
    + intros _ E. by destruct (Hnew c Hc).
    + by apply O3.
Qed.

Section Extend.
Context (C : disk) (x : inode) (m : Z).
Context (Hown : owns C x) (Hd : is_data m) (Hfree : in_use C m = false) (HC : ∀ n, length (C n) = Z.to_nat BSIZE).

Lemma ind_kept : indirect x ≠ 0 → is_data (indirect x) ∧ indirect x ≠ m ∧ taken C m (indirect x) = C (indirect x).
Proof.
  intros Hi. destruct (ow_data _ _ Hown (-1)) as [Hid Hiu]; [done|done|]. change (slot_of C x (-1)) with (indirect x) in *.
  assert (indirect x ≠ m) by congruence. split; [done|]. split; [done|]. by apply taken_data.
Qed.

Lemma extend_direct k :
  (k < NDIRECT)%nat → extended C x (taken C m) (set_i_addrs (<[k := m]> (i_addrs x)) x) (Z.of_nat k) m.
Proof.
  intros Hk. pose proof (ow_len _ _ Hown) as Hlen. set (x' := set_i_addrs _ x).
  assert (indirect x' = indirect x) as Ei by (unfold indirect; cbn; by rewrite list_lookup_total_insert_ne by lia).
  split.
  - intros b Hb. unfold slot_of. rewrite Ei. destruct (Z.ltb_spec b 0); [by rewrite decide_False by lia|].
    destruct (Z.ltb_spec b (Z.of_nat NDIRECT)).
    + cbn. destruct (decide (b = Z.of_nat k)) as [->|Hne].
      * rewrite Nat2Z.id. by rewrite list_lookup_total_insert_eq by lia.
      * by rewrite list_lookup_total_insert_ne by lia.
    + rewrite decide_False by lia. destruct (Z.eqb_spec (indirect x) 0) as [|Hi]; [done|].
      by destruct (ind_kept Hi) as (_ & _ & ->).
  - intros n Hn. by apply taken_in_use.
  - intros n Hn Hne _. by apply taken_data.
  - intros n Hn Hne. apply taken_ne; [by intros ->|done].
  - cbn. by rewrite length_insert.
  - done.
Qed.

Lemma extend_indirect :
  indirect x = 0 → extended C x (taken C m) (set_i_addrs (<[NDIRECT := m]> (i_addrs x)) x) (-1) m.
Proof.
  intros Hi. pose proof (ow_len _ _ Hown) as Hlen. set (x' := set_i_addrs _ x).
  assert (indirect x' = m) as Ei by (unfold indirect; cbn; by rewrite list_lookup_total_insert_eq by lia).
  split.
  - intros b Hb. unfold slot_of. rewrite Ei. destruct (Z.ltb_spec b 0).
    { rewrite decide_True by lia. done. }
    rewrite decide_False by lia. destruct (Z.ltb_spec b (Z.of_nat NDIRECT)).
    + cbn. by rewrite list_lookup_total_insert_ne by lia.
    + rewrite Hi. pose proof (data_pos m Hd). destruct (Z.eqb_spec m 0); [lia|]. by rewrite taken_at, word_zeros.
  - intros n Hn. by apply taken_in_use.
  - intros n Hn Hne _. by apply taken_data.
  - intros n Hn Hne. apply taken_ne; [by intros ->|done].
  - cbn. by rewrite length_insert.
  - done.
Qed.

(** An entry of the indirect block. *)
Definition set_entry (D : disk) (b : Z) : disk :=
  dupd (indirect x) (put_word (Z.to_nat (4 * (b - Z.of_nat NDIRECT))) m (D (indirect x))) D.

Lemma extend_entry b :
  indirect x ≠ 0 → Z.of_nat NDIRECT ≤ b < MAXFILE → extended C x (set_entry (taken C m) b) x b m.
Proof.
  intros Hi Hb. destruct (ind_kept Hi) as (Hid & Hne & Hk). split; [| | | |apply Hown|by destruct x].
  - intros b' Hb'. unfold slot_of. destruct (Z.ltb_spec b' 0); [by rewrite decide_False by lia|].
    destruct (Z.ltb_spec b' (Z.of_nat NDIRECT)); [by rewrite decide_False by lia|].
    destruct (Z.eqb_spec (indirect x) 0); [done|]. unfold set_entry. rewrite dupd_eq, Hk.
    pose proof (HC (indirect x)) as Hl. unfold MAXFILE, NINDIRECT, BSIZE in *. change (512 / 4) with 128 in *.
    destruct (decide (b' = b)) as [->|Hn].
    + rewrite word_put_word by lia. apply u32_id. pose proof (data_pos m Hd). lia.
    + apply word_put_ne; lia.
  - intros n Hn. unfold set_entry. rewrite in_use_data by done. by apply taken_in_use.
  - intros n Hn Hnm Hni. unfold set_entry. rewrite dupd_ne by done. by apply taken_data.
  - intros n Hn Hnm. unfold set_entry. rewrite dupd_ne by (by intros ->). apply taken_ne; [by intros ->|done].
Qed.

End Extend.

(** What a growing file keeps. *)
Record grown C x C' x' : Prop := {
  gr_slot b : -1 ≤ b < MAXFILE → slot_of C x b ≠ 0 → slot_of C' x' b = slot_of C x b;
  gr_new b : -1 ≤ b < MAXFILE → slot_of C x b = 0 → slot_of C' x' b = 0 ∨ 0 ≤ slot_of C' x' b < size ∧ in_use C (slot_of C' x' b) = false;
  gr_use n : 0 ≤ n < size → in_use C n = true → in_use C' n = true;
  gr_other n : is_data n → in_use C n = true → n ≠ indirect x → C' n = C n;
  gr_meta n : ¬ is_data n → (∀ m, 0 ≤ m < size → n ≠ map_block m) → C' n = C n;
  gr_fields : x' = set_i_addrs (i_addrs x') x;
}.

Lemma grown_refl C x : grown C x C x.
Proof. split; try done; [by left|by destruct x]. Qed.

Lemma grown_trans C1 x1 C2 x2 C3 x3 : grown C1 x1 C2 x2 → grown C2 x2 C3 x3 → grown C1 x1 C3 x3.
Proof.
  intros [A1 A2 A3 A4 A5 A6] [B1 B2 B3 B4 B5 B6].
  assert (∀ n, is_data n → in_use C1 n = true → n ≠ indirect x1 → n ≠ indirect x2) as Hi.
  { intros n Hd Hn Hne ->. destruct (decide (indirect x1 = 0)) as [H0|H0].
    - pose proof (data_pos _ Hd). destruct (A2 (-1)) as [E|[_ E]]; [done|done| |]; change (slot_of C2 x2 (-1)) with (indirect x2) in E; [lia|congruence].
    - pose proof (A1 (-1) ltac:(done) H0) as E. by change (indirect x2 = indirect x1) in E. }
  split.
  - intros b Hb Hn. rewrite B1, A1; try done. by rewrite A1.
  - intros b Hb H0. destruct (decide (slot_of C2 x2 b = 0)) as [E|E].
    + destruct (B2 b Hb E) as [F|[Fr F]]; [by left|right]. split; [done|].
      destruct (in_use C1 (slot_of C3 x3 b)) eqn:G; [|done]. by rewrite A3 in F.
    + rewrite B1 by done. by apply A2.
  - intros n Hn Hu. by apply B3, A3.
  - intros n Hd Hu Hn. rewrite B4, A4; try done; [apply A3; [by apply is_data_home|done]|by apply Hi].
  - intros n Hd Hm. by rewrite B5, A5.
  - rewrite B6, A6. by destruct x1.
Qed.

Lemma extended_grown C x C' x' b m :
  extended C x C' x' b m → owns C x → is_data m → in_use C m = false → -1 ≤ b < MAXFILE → slot_of C x b = 0 → grown C x C' x'.
Proof.
  intros [E1 E2 E3 E4 E5 E6] [O1 O2 O3] Hd Hf Hb H0. pose proof (is_data_home m Hd) as [Hm _]. split.
  - intros c Hc Hn. rewrite E1 by done. destruct (decide (c = b)) as [->|]; done.
  - intros c Hc Hn. rewrite E1 by done. destruct (decide (c = b)) as [->|]; [by right|by left].
  - intros n Hn Hu. rewrite E2, Hu by done. by rewrite orb_true_r.
  - intros n Hn Hu Hi. apply E3; [done|by intros ->; congruence|]. intros ->. pose proof (E1 (-1) ltac:(done)) as Ei.
    change (slot_of C' x' (-1)) with (indirect x') in Ei. destruct (decide (-1 = b)); [congruence|]. by apply Hi.
  - intros n Hn Hm'. by apply E4, Hm'.
  - done.
Qed.

Lemma extended_avail C x C' x' b m k : extended C x C' x' b m → avail C (S k) → avail C' k.
Proof.
  intros [_ E2 _ _ _ _] (X & Hk & HX). exists (X ∖ {[ m ]}). split.
  - rewrite size_difference_alt. pose proof (subseteq_size (X ∩ {[ m ]}) {[ m ]} ltac:(set_solver)) as Hs. rewrite size_singleton in Hs. lia.
  - intros n Hn. destruct (HX n) as [Hr Hf]; [set_solver|]. split; [done|]. rewrite E2, Hf by done.
    by rewrite bool_decide_eq_false_2 by set_solver.
Qed.

Lemma extended_map_ok C x C' x' b m : extended C x C' x' b m → map_ok C → map_ok C'.
Proof. intros [_ E2 _ _ _ _] Hm n Hn. rewrite E2 by done. intros [_ Hu]%orb_false_iff. by apply Hm. Qed.

(** Only the entry [ip] of the inode table changed. *)
Definition fkeeps (ip : nat) (s s' : kst W) : Prop :=
  core s' = core s ∧ (∀ k, (NBUF < k)%nat → slock k s' = slock k s) ∧
  length (inodes s') = length (inodes s) ∧ ∀ j, j ≠ ip → inodes s' !! j = inodes s !! j.
#[export] Instance fkeeps_refl ip : Reflexive (fkeeps ip).
Proof. by split. Qed.
#[export] Instance fkeeps_trans ip : Transitive (fkeeps ip).
Proof.
  intros s1 s2 s3 (A1 & A2 & A3 & A4) (B1 & B2 & B3 & B4). split; [congruence|]. split; [|split; [congruence|]].
  - intros k Hk. by rewrite B2, A2.
  - intros j Hj. by rewrite B4, A4.
Qed.
Lemma lkeeps_fkeeps ip s s' : lkeeps s s' → fkeeps ip s s'.
Proof.
  intros Hk. pose proof (lkeeps_inodes _ _ Hk) as Ei. destruct Hk as [E Hs]. split; [exact (f_equal (λ r, r.1.1) E)|].
  split; [done|]. by rewrite Ei.
Qed.

(** A file in a transaction. *)
Record fx h C bl H ip x s : Prop := {
  fx_tx : tx h C bl H s;
  fx_sb : sb_is s;
  fx_inode : inodes s !! ip = Some x;
  fx_dev : i_dev x = 1;
  fx_own : owns C x;
  fx_map : map_ok C;
}.

Lemma fx_lkeeps h C bl H ip x s h' C' bl' H' s' :
  fx h C bl H ip x s → tx h' C' bl' H' s' → lkeeps s s' → owns C' x → map_ok C' → fx h' C' bl' H' ip x s'.
Proof.
  intros [F1 F2 F3 F4 F5 F6] Ht Hk Ho Hm. split; try done; [by eapply lkeeps_sb|by rewrite (lkeeps_inodes _ _ Hk)].
Qed.

(** The file has block [r] at place [b]; getting there took at most [rc] logged
    blocks and [ac] free ones. *)
Definition mapped h C bl ip x s (b : Z) (rc ac : nat) (r : Z) (s' : kst W) : Prop :=
  ∃ C' bl' x', fx h C' bl' ∅ ip x' s' ∧ fkeeps ip s s' ∧ grown C x C' x' ∧ r = slot_of C' x' b ∧ r ≠ 0 ∧
    (slot_of C x b = 0 → C' r = zeros) ∧ (slot_of C x b ≠ 0 → C' = C ∧ bl' = bl ∧ x' = x) ∧ (∀ k, room (k + rc) bl ∅ → room k bl' ∅) ∧ (∀ k, avail C (k + ac) → avail C' k).

Definition place (k : nat) : Z := if decide (k = NDIRECT) then -1 else Z.of_nat k.

Lemma slot_place C x k : (k ≤ NDIRECT)%nat → slot_of C x (place k) = i_addrs x !!! k.
Proof.
  intros Hk. unfold place, slot_of. destruct (decide (k = NDIRECT)) as [->|]; [done|].
  destruct (Z.ltb_spec (Z.of_nat k) 0); [lia|]. destruct (Z.ltb_spec (Z.of_nat k) (Z.of_nat NDIRECT)); [|lia]. by rewrite Nat2Z.id.
Qed.

Lemma extend_place C x m k :
  owns C x → is_data m → in_use C m = false → (∀ n, length (C n) = Z.to_nat BSIZE) → (k ≤ NDIRECT)%nat → i_addrs x !!! k = 0 →
  extended C x (taken C m) (set_i_addrs (<[k := m]> (i_addrs x)) x) (place k) m.
Proof.
  intros Ho Hd Hf HC Hk H0. unfold place. destruct (decide (k = NDIRECT)) as [->|]; [by apply extend_indirect|].
  apply extend_direct; try done. lia.
Qed.

Lemma room_absorb2 k n m bl H : room (k + 2) bl H → room k (absorb n (absorb m bl)) H.
Proof. intros Hr. apply room_absorb, room_absorb. eapply room_mono; [exact Hr|lia]. Qed.

Lemma addr_slot_ok h C bl ip x s k :
  fx h C bl ∅ ip x s → (i_addrs x !!! k = 0 → room 3 bl ∅ ∧ avail C 1) → (k ≤ NDIRECT)%nat →
  wp alone (addr_slot fuel ip k s) (mapped h C bl ip x s (place k) 2 1).
Proof.
  intros Hfx Hneed Hk. pose proof Hfx as [F1 F2 F3 F4 F5 F6]. unfold addr_slot. mstep. rewrite (get_inode_eq ip x) by done. mstep.
  destruct (Z.eqb_spec (i_addrs x !!! k) 0) as [H0|H0].
  2: { exists C, bl, x. split; [done|]. split; [done|]. split; [apply grown_refl|]. rewrite slot_place by done.
       split; [done|]. split; [done|]. split; [done|]. split; [done|]. split; intros j; [intros Hr; eapply room_mono; [exact Hr|lia]|].
       intros (X & HX & HX'). exists X. split; [lia|done]. }
  destruct (Hneed H0) as [Hroom Hav]. destruct (avail_lowest C 0 Hav) as [m Hlow]. pose proof Hlow as (Hm & Hf & _). pose proof (F6 m Hm Hf) as Hd.
  pose proof (bio_len _ _ _ _ _ _ _ _ _ (tx_bio _ _ _ _ _ F1)) as HC.
  rewrite F4. eapply wp_then; [eapply (balloc_ok h C bl ∅ s m); try done|].
  intros r s1 (-> & T1 & K1). mstep. rewrite (set_inode_eq ip _ x) by (by rewrite (lkeeps_inodes _ _ K1)). mstep.
  set (x' := set_i_addrs (<[k := m]> (i_addrs x)) x).
  pose proof (extend_place C x m k F5 Hd Hf HC Hk H0) as Hex. fold x' in Hex.
  assert (-1 ≤ place k < MAXFILE) as Hpl by (change MAXFILE with 140; unfold place, NDIRECT in *; destruct (decide _); lia).
  assert (slot_of C x (place k) = 0) as Hs0 by (by rewrite slot_place).
  exists (taken C m), (absorb m (absorb (map_block m) bl)), x'. split; [|split; [|split; [|split; [|split; [|split; [|split]]]]]].
  - split; [by apply tx_with_inodes|by apply (lkeeps_sb s s1)| |done|by eapply extended_owns|by eapply extended_map_ok].
    rewrite inodes_with, (lkeeps_inodes _ _ K1). apply list_lookup_insert_eq. by eapply lookup_lt_Some.
  - pose proof (lkeeps_fkeeps ip _ _ K1) as (A1 & A2 & A3 & A4). split; [done|]. split; [done|]. rewrite inodes_with, length_insert.
    split; [done|]. intros j Hj. rewrite list_lookup_insert_ne by done. by apply A4.
  - by eapply extended_grown.
  - rewrite (ex_slot _ _ _ _ _ _ Hex) by done. by rewrite decide_True.
  - pose proof (data_pos m Hd). lia.
  - intros _. apply taken_at.
  - done.
  - split; [intros j; apply room_absorb2|]. intros j Ha. rewrite Nat.add_1_r in Ha. by eapply extended_avail.
Qed.

Lemma mapped_mono h C bl ip x s b rc ac rc' ac' r s' :
  mapped h C bl ip x s b rc ac r s' → (rc ≤ rc')%nat → (ac ≤ ac')%nat → mapped h C bl ip x s b rc' ac' r s'.
Proof.
  intros (C' & bl' & x' & M1 & M2 & M3 & M4 & M5 & M6 & M6' & M7 & M8) H1 H2. exists C', bl', x'. do 7 (split; [done|]). split.
  - intros k Hr. apply M7. eapply room_mono; [exact Hr|lia].
  - intros k (X & HX & HX'). apply M8. exists X. split; [lia|done].
Qed.

Lemma mapped_trans h C bl ip x s C1 bl1 x1 s1 b rc1 ac1 rc2 ac2 r s' :
  fx h C1 bl1 ∅ ip x1 s1 → fkeeps ip s s1 → grown C x C1 x1 → slot_of C1 x1 b = slot_of C x b →
  (slot_of C x b ≠ 0 → C1 = C ∧ bl1 = bl ∧ x1 = x) → (∀ k, room (k + rc1) bl ∅ → room k bl1 ∅) → (∀ k, avail C (k + ac1) → avail C1 k) →
  mapped h C1 bl1 ip x1 s1 b rc2 ac2 r s' → mapped h C bl ip x s b (rc1 + rc2) (ac1 + ac2) r s'.
Proof.
  intros F1 K1 G1 Hs Hsame R1 A1 (C' & bl' & x' & M1 & M2 & M3 & M4 & M5 & M6 & M6' & M7 & M8). exists C', bl', x'.
  split; [done|]. split; [by etrans|]. split; [by eapply grown_trans|]. split; [done|]. split; [done|].
  split; [by rewrite <- Hs|]. split; [|split].
  - intros Hn. destruct (Hsame Hn) as (E1 & E2 & E3). rewrite <- Hs in Hn. destruct (M6' Hn) as (-> & -> & ->). done.
  - intros k Hr. apply M7, R1. eapply room_mono; [exact Hr|lia].
  - intros k (X & HX & HX'). apply M8, A1. exists X. split; [lia|done].
Qed.

(** The entry of a data block in the indirect block, allocated if there is none. *)
Definition ind_entry (ip : nat) (bn addr : Z) : M (kst W) Z :=
  x <- get_inode ip ;;
  bp <- bread fuel (i_dev x) addr ;;
  y <- get_buf bp ;;
  let addr := word (Z.to_nat (4 * bn)) (b_data y) in
  addr <- (if addr =? 0 then
             addr <- balloc fuel (i_dev x) ;;
             set_data bp (put_word (Z.to_nat (4 * bn)) addr) ;;;
             log_write bp ;;;
             ret addr
           else ret addr) ;;
  brelse bp ;;;
  ret addr.

Lemma ind_entry_ok h C bl ip x s b :
  fx h C bl ∅ ip x s → room 0 bl ∅ → (slot_of C x b = 0 → room 4 bl ∅ ∧ avail C 1) → indirect x ≠ 0 → Z.of_nat NDIRECT ≤ b < MAXFILE →
  wp alone (ind_entry ip (b - Z.of_nat NDIRECT) (indirect x) s) (mapped h C bl ip x s b 3 1).
Proof.
  intros Hfx Hroom0 Hneed Hi Hb. pose proof Hfx as [F1 F2 F3 F4 F5 F6]. unfold ind_entry. mstep. rewrite (get_inode_eq ip x) by done. mstep.
  destruct (ow_data _ _ F5 (-1)) as [Hid Hiu]; [done|done|]. change (slot_of C x (-1)) with (indirect x) in *.
  destruct (is_data_home _ Hid) as [Hir Hil]. set (n := indirect x) in *. rewrite F4.
  assert (slot_of C x b = word (Z.to_nat (4 * (b - Z.of_nat NDIRECT))) (C n)) as Hslot.
  { unfold slot_of. change (indirect x) with n. destruct (Z.ltb_spec b 0); [lia|]. destruct (Z.ltb_spec b (Z.of_nat NDIRECT)); [lia|]. by destruct (Z.eqb_spec n 0). }
  eapply wp_then; [eapply (tx_read h C bl ∅ s n); [done|done|done|done]|].
  intros bp s1 (T1 & Hcl & K1). apply keeps_lkeeps in K1. mstep. set (H := {[n := bp]} : gmap Z nat). change (<[n:=bp]> ∅) with H in T1.
  assert (H !! n = Some bp) as Hget by apply lookup_singleton_eq.
  destruct (tx_get _ _ _ _ _ _ _ T1 Hget) as (y & Hy & Hyd). rewrite Hy. mstep. rewrite Hyd, <- Hslot.
  destruct (Z.eqb_spec (slot_of C x b) 0) as [H0|H0].
  2: { mstep. eapply wp_then; [by eapply (tx_release _ _ _ _ _ n)|]. intros [] s2 [T2 K2]. apply keeps_lkeeps in K2.
       unfold H in T2. rewrite delete_singleton_eq in T2. mstep. exists C, bl, x. assert (lkeeps s s2) as K by (by etrans).
       split; [by eapply fx_lkeeps|]. split; [by apply lkeeps_fkeeps|]. split; [apply grown_refl|]. do 4 (split; [done|]).
       split; intros j; [intros Hr; eapply room_mono; [exact Hr|lia]|]. intros (X & HX & HX'). exists X. split; [lia|done]. }
  destruct (Hneed H0) as [Hroom Hav]. destruct (avail_lowest C 0 Hav) as [m Hlow]. pose proof Hlow as (Hm & Hf & _). pose proof (F6 m Hm Hf) as Hd.
  pose proof (bio_len _ _ _ _ _ _ _ _ _ (tx_bio _ _ _ _ _ F1)) as HC.
  assert (base.size H = 1%nat) as HH by (unfold H; apply map_size_singleton).
  assert (room 3 bl H) as Hroom' by (unfold room in *; rewrite map_size_empty in Hroom; lia).
  mstep. apply wp_bind. eapply wp_then; [eapply (balloc_ok h C bl H s1 m); try done|].
  { by eapply lkeeps_sb. }
  { intros m' Hm'. apply lookup_singleton_ne. intros E. destruct (map_block_range m' Hm') as (_ & _ & Hnd). by rewrite <- E in Hnd. }
  { intros m' Hm' Hfm. apply lookup_singleton_ne. intros ->. congruence. }
  intros r s2 (-> & T2 & K2). mstep. change (dupd m zeros (mark C m)) with (taken C m) in T2.
  assert (n ≠ m) as Hnm by congruence. assert (taken C m n = C n) as Etn by (by apply taken_data).
  eapply wp_then; [eapply (tx_store _ _ _ _ _ n bp (put_word (Z.to_nat (4 * (b - Z.of_nat NDIRECT))) m)); [exact T2|done|]|].
  { rewrite length_put_word, Etn. apply HC. }
  intros [] s3 [T3 K3]. mstep. apply keeps_lkeeps in K3.
  eapply wp_then; [eapply (tx_log _ _ _ _ _ n); [exact T3|exact Hget|done|done|by apply room_absorb2]|].
  intros [] s4 [T4 K4]. mstep.
  eapply wp_then; [eapply (tx_release _ _ _ _ _ n); [exact T4|exact Hget|apply clean_absorb]|].
  intros [] s5 [T5 K5]. apply keeps_lkeeps in K5. unfold H in T5. rewrite delete_singleton_eq in T5. mstep.
  pose proof (extend_entry C x m F5 Hd Hf HC b Hi Hb) as Hex. change (dupd n _ _) with (set_entry x m (taken C m) b) in T5.
  assert (lkeeps s s5) as K by (etrans; [exact K1|]; etrans; [exact K2|]; etrans; [exact K3|]; by etrans).
  assert (-1 ≤ b < MAXFILE) as Hbr by lia. exists (set_entry x m (taken C m) b), (absorb n (absorb m (absorb (map_block m) bl))), x.
  split; [eapply fx_lkeeps; [exact Hfx|done|done|by eapply extended_owns|by eapply extended_map_ok]|].
  split; [by apply lkeeps_fkeeps|]. split; [by eapply extended_grown|]. split; [rewrite (ex_slot _ _ _ _ _ _ Hex), decide_True; done|].
  split; [pose proof (data_pos m Hd); lia|]. split; [|split; [|split]].
  - intros _. unfold set_entry. fold n. rewrite dupd_ne by done. apply taken_at.
  - done.
  - intros k Hr. apply room_absorb, room_absorb2. eapply room_mono; [exact Hr|lia].
  - intros k Ha. rewrite Nat.add_1_r in Ha. by eapply extended_avail.
Qed.

(** [bmap] finds or makes block [bn] of the file. *)
Lemma bmap_ok h C bl ip x s bn :
  fx h C bl ∅ ip x s → room 0 bl ∅ → (slot_of C x bn = 0 → room 6 bl ∅ ∧ avail C 2) → 0 ≤ bn < MAXFILE →
  wp alone (bmap fuel ip bn s) (mapped h C bl ip x s bn 5 2).
Proof.
  intros Hfx Hroom Hneed Hbn. unfold bmap. destruct (Z.ltb_spec bn (Z.of_nat NDIRECT)).
  - assert (place (Z.to_nat bn) = bn) as Hpl by (unfold place; destruct (decide _); lia).
    eapply wp_mono; [|eapply (addr_slot_ok h C bl ip x s (Z.to_nat bn)); [done| |lia]].
    + intros r s' Hm. rewrite Hpl in Hm. eapply mapped_mono; [exact Hm|lia|lia].
    + rewrite <- (slot_place C) by lia. rewrite Hpl. intros H0. destruct (Hneed H0) as [Hr (X & HX & HX')].
      split; [eapply room_mono; [exact Hr|lia]|]. exists X. split; [lia|done].
  - destruct (Z.ltb_spec (bn - Z.of_nat NDIRECT) NINDIRECT); [|unfold MAXFILE in Hbn; lia]. mstep.
    assert (∀ D y, (indirect y = 0 ∨ D (indirect y) = zeros) → slot_of D y bn = 0) as Hz.
    { intros D y Hy. unfold slot_of. destruct (Z.ltb_spec bn 0); [lia|]. destruct (Z.ltb_spec bn (Z.of_nat NDIRECT)); [lia|].
      destruct (Z.eqb_spec (indirect y) 0); [done|]. destruct Hy as [?| ->]; [done|]. apply word_zeros. }
    eapply wp_then; [eapply (addr_slot_ok h C bl ip x s NDIRECT); [done| |lia]|].
    { intros Hi. destruct (Hneed (Hz C x (or_introl Hi))) as [Hr (X & HX & HX')].
      split; [eapply room_mono; [exact Hr|lia]|]. exists X. split; [lia|done]. }
    intros r s1 (C1 & bl1 & x1 & M1 & M2 & M3 & M4 & M5 & M6 & M6' & M7 & M8). change (place NDIRECT) with (-1) in *.
    change (slot_of C1 x1 (-1)) with (indirect x1) in M4. change (slot_of C x (-1)) with (indirect x) in M6, M6'. subst r.
    assert (slot_of C1 x1 bn = slot_of C x bn) as Hs.
    { destruct (decide (indirect x = 0)) as [Ei|Ei]; [|by destruct (M6' Ei) as (-> & _ & ->)].
      rewrite (Hz C x) by (by left). apply Hz. right. by apply M6. }
    eapply wp_mono; [|apply (ind_entry_ok h C1 bl1 ip x1 s1 bn); [done| | |done|lia]].
    + intros r s2 Hm. eapply (mapped_trans h C bl ip x s C1 bl1 x1 s1 bn 2 1 3 1); try done.
      intros Hn. apply M6'. intros Ei. destruct Hn. apply Hz. by left.
    + destruct (decide (indirect x = 0)) as [Ei|Ei]; [|by destruct (M6' Ei) as (_ & -> & _)].
      apply M7. destruct (Hneed (Hz C x (or_introl Ei))) as [Hr _]. eapply room_mono; [exact Hr|lia].
    + rewrite Hs. intros Hzz. destruct (Hneed Hzz) as [Hr Ha]. split; [apply M7; eapply room_mono; [exact Hr|lia]|by apply M8].
Qed.

(** ** Reading a file *)

Definition byte C (x : inode) (k : Z) : Z := C (slot_of C x (k / BSIZE)) !!! Z.to_nat (k mod BSIZE).
Definition file_bytes C (x : inode) (off n : Z) : list Z := byte C x <$> seqZ off n.
(** The file has a block for every byte below [sz]. *)
Definition no_holes C (x : inode) (sz : Z) : Prop := ∀ b, 0 ≤ b → b * BSIZE < sz → slot_of C x b ≠ 0.

Lemma length_file_bytes C x off n : length (file_bytes C x off n) = Z.to_nat n.
Proof. unfold file_bytes. by rewrite length_fmap, length_seqZ. Qed.

Lemma file_bytes_app C x off m n : 0 ≤ m → 0 ≤ n → file_bytes C x off (m + n) = file_bytes C x off m ++ file_bytes C x (off + m) n.
Proof. intros Hm Hn. unfold file_bytes. by rewrite seqZ_app, fmap_app by done. Qed.

(** Inside one block. *)
Lemma block_split off m k : 0 ≤ off → off mod BSIZE + m ≤ BSIZE → 0 ≤ k < m →
  (off + k) / BSIZE = off / BSIZE ∧ (off + k) mod BSIZE = off mod BSIZE + k.
Proof.
  unfold BSIZE. intros H0 Hm Hk. pose proof (Z.div_mod off 512 ltac:(lia)). pose proof (Z.mod_pos_bound off 512 ltac:(lia)).
  split; [symmetry; apply (Z.div_unique_pos _ _ _ (off mod 512 + k))|symmetry; apply (Z.mod_unique_pos _ _ (off / 512))]; lia.
Qed.

Lemma get_bytes C x off m :
  0 ≤ off → 0 ≤ m → off mod BSIZE + m ≤ BSIZE → length (C (slot_of C x (off / BSIZE))) = Z.to_nat BSIZE →
  get (Z.to_nat (off mod BSIZE)) (Z.to_nat m) (C (slot_of C x (off / BSIZE))) = file_bytes C x off m.
Proof.
  intros H0 H1 Hm Hl. pose proof (Z.mod_pos_bound off BSIZE ltac:(done)).
  apply list_eq_same_length with (Z.to_nat m); [apply length_file_bytes|apply length_get; rewrite Hl; unfold BSIZE in *; lia|].
  intros k a b Hk. rewrite get_lookup by done. unfold file_bytes. rewrite list_lookup_fmap, lookup_seqZ_lt by lia.
  cbn [fmap option_fmap option_map]. intros Ha [= <-]. unfold byte.
  destruct (block_split off m (Z.of_nat k)) as [-> ->]; [done|done|lia|].
  rewrite Z2Nat.inj_add, Nat2Z.id by lia. symmetry. by apply list_lookup_total_correct.
Qed.

(** Enough iterations for the blocks that [left] bytes from [off] on touch. *)
Definition enough (k : nat) (off left : Z) : Prop :=
  (0 < k)%nat ∧ (0 < left → (left + off mod BSIZE + BSIZE - 1) / BSIZE < Z.of_nat k).

Lemma chunk_range off left : 0 ≤ off → 0 < left → 0 < chunk off left ≤ left ∧ off mod BSIZE + chunk off left ≤ BSIZE.
Proof. intros H0 Hl. unfold chunk, BSIZE. pose proof (Z.mod_pos_bound off 512 ltac:(lia)). lia. Qed.

Lemma enough_step k off left :
  0 ≤ off → 0 < left → enough (S k) off left → enough k (off + chunk off left) (left - chunk off left).
Proof.
  intros H0 Hl [_ Hk]. specialize (Hk Hl). pose proof (chunk_range off left H0 Hl) as [Hc1 Hc2].
  unfold enough, chunk, BSIZE in *. pose proof (Z.mod_pos_bound off 512 ltac:(lia)). split.
  - assert (1 ≤ (left + off mod 512 + 512 - 1) / 512) by (apply Z.div_le_lower_bound; lia). lia.
  - intros Hl'. rewrite Z.min_r in Hl' |- * by lia.
    assert ((off + (512 - off mod 512)) mod 512 = 0) as ->.
    { apply Z.mod_divide; [lia|]. exists (off / 512 + 1). pose proof (Z.div_mod off 512 ltac:(lia)). lia. }
    replace (left + off mod 512 + 512 - 1) with (left - (512 - off mod 512) + 0 + 512 - 1 + 1 * 512) in Hk by lia.
    rewrite Z.div_add in Hk by lia. lia.
Qed.

Lemma enough_blocks n off : 0 ≤ n → enough (blocks_for n) off n.
Proof.
  intros Hn. unfold enough, blocks_for, BSIZE. pose proof (Z.div_pos n 512 ltac:(lia) ltac:(lia)). split; [lia|].
  intros _. rewrite Z2Nat.id by lia. pose proof (Z.mod_pos_bound off 512 ltac:(lia)).
  assert ((n + off mod 512 + 512 - 1) / 512 ≤ (n + 2 * 512) / 512) by (apply Z.div_le_mono; lia). rewrite Z.div_add in * by lia. lia.
Qed.

Lemma readi_loop_ok h C bl ip x k s tot off n acc :
  fx h C bl ∅ ip x s → room 0 bl ∅ → 0 ≤ off → tot ≤ n → off + (n - tot) ≤ MAXFILE * BSIZE →
  no_holes C x (off + (n - tot)) → enough k off (n - tot) →
  wp alone (readi_loop fuel k ip ToKernel tot off n acc s) (λ r s',
    r = acc ++ file_bytes C x off (n - tot) ∧ fx h C bl ∅ ip x s' ∧ fkeeps ip s s').
Proof.
  revert s tot off acc. induction k as [|k IH]; intros s tot off acc Hfx Hroom Hoff Htot Hmax Hno Hk; [by destruct Hk; lia|].
  cbn [readi_loop]. destruct (Z.ltb_spec tot n) as [Hlt|Hge].
  2: { replace (n - tot) with 0 by lia. cbn. by rewrite app_nil_r. }
  pose proof Hfx as [F1 F2 F3 F4 F5 F6]. mstep. rewrite (get_inode_eq ip x) by done. mstep.
  pose proof (chunk_range off (n - tot) Hoff ltac:(lia)) as [Hc1 Hc2]. pose proof (enough_step k off (n - tot) Hoff ltac:(lia) Hk) as Hk'.
  set (m := chunk off (n - tot)) in *.
  assert (0 ≤ off / BSIZE < MAXFILE) as Hb.
  { split; [by apply Z.div_pos|]. apply Z.div_lt_upper_bound; [done|]. lia. }
  assert (slot_of C x (off / BSIZE) ≠ 0) as Hs.
  { apply Hno; [lia|]. pose proof (Z.mul_div_le off BSIZE ltac:(done)). lia. }
  eapply wp_then; [eapply (bmap_ok h C bl ip x s (off / BSIZE)); [done|done|done|done]|].
  intros bno s1 (C1 & bl1 & x1 & M1 & M2 & _ & -> & _ & _ & M6 & _). destruct (M6 Hs) as (-> & -> & ->). mstep. clear M6.
  destruct (ow_data _ _ F5 (off / BSIZE)) as [Hd _]; [lia|done|]. destruct (is_data_home _ Hd) as [Hr _]. rewrite F4.
  set (bno := slot_of C x (off / BSIZE)) in *.
  eapply wp_then; [eapply (tx_read h C bl ∅ s1 bno); [apply M1|done|done|done]|].
  intros bp s2 (T2 & Hcl & K2). apply keeps_lkeeps in K2. mstep.
  assert (<[bno := bp]> (∅ : gmap Z nat) !! bno = Some bp) as Hget by apply lookup_insert_eq.
  destruct (tx_get _ _ _ _ _ _ _ T2 Hget) as (y & Hy & Hyd). rewrite Hy. mstep. rewrite Hyd. cbn [copy_to]. mstep.
  eapply wp_then; [eapply (tx_release _ _ _ _ _ bno); [exact T2|exact Hget|done]|].
  intros [] s3 [T3 K3]. apply keeps_lkeeps in K3. rewrite delete_insert_eq, delete_id in T3 by done. mstep.
  pose proof (bio_len _ _ _ _ _ _ _ _ _ (tx_bio _ _ _ _ _ F1)) as HC.
  unfold bno. rewrite get_bytes by (done || lia). assert (lkeeps s1 s3) as K13 by (by etrans).
  assert (fx h C bl ∅ ip x s3) as F3' by (by eapply fx_lkeeps).
  eapply wp_mono; [|eapply (IH s3 (tot + m) (off + m)); [done|done|lia|lia|lia| |]].
  - intros r s4 (-> & F4' & K4). rewrite <- app_assoc, <- file_bytes_app by lia. replace (m + (n - (tot + m))) with (n - tot) by lia.
    split; [done|]. split; [done|]. etrans; [exact M2|]. etrans; [by apply lkeeps_fkeeps|done].
  - by replace (off + m + (n - (tot + m))) with (off + (n - tot)) by lia.
  - by replace (n - (tot + m)) with (n - tot - m) by lia.
Qed.

(** [readi] returns the bytes of the file from [off] on, as many as there are, and
    changes nothing. *)
Lemma readi_ok h C bl ip x s off n :
  fx h C bl ∅ ip x s → room 0 bl ∅ → i_type x ≠ T_DEV → no_holes C x (i_size x) → i_size x ≤ MAXFILE * BSIZE →
  0 ≤ off ≤ i_size x → 0 ≤ n < 2^31 →
  wp alone (readi fuel ip ToKernel off n s) (λ r s',
    r = (Z.min n (i_size x - off), file_bytes C x off (Z.min n (i_size x - off))) ∧ fx h C bl ∅ ip x s' ∧ fkeeps ip s s').
Proof.
  intros Hfx Hroom Hty Hno Hmax Hoff Hn. unfold readi. mstep. rewrite (get_inode_eq ip x) by apply Hfx. mstep.
  destruct (Z.eqb_spec (i_type x) T_DEV); [done|]. change (MAXFILE * BSIZE) with 71680 in *.
  destruct (Z.ltb_spec (i_size x) off); [lia|]. rewrite (u32_id (off + n)) by lia.
  destruct (Z.ltb_spec (off + n) off); [lia|]. cbn [orb]. mstep.
  assert ((if i_size x <? off + n then i_size x - off else n) = Z.min n (i_size x - off)) as ->.
  { destruct (Z.ltb_spec (i_size x) (off + n)); lia. }
  set (n' := Z.min n (i_size x - off)).
  eapply wp_then; [eapply (readi_loop_ok h C bl ip x _ s 0 off n' []); [done|done|lia|lia| | |]|].
  - change (MAXFILE * BSIZE) with 71680. lia.
  - intros b Hb1 Hb2. apply Hno; [done|]. lia.
  - rewrite Z.sub_0_r. apply enough_blocks. lia.
  - intros r s' (-> & F & K). cbn. rewrite Z.sub_0_r, s32_id by lia. done.
Qed.

(** ** Writing a file *)

(** [bs] was written at [off]: the file has these bytes there, the other bytes of
    its blocks, and everything that is not the file's, are as before. *)
Record wrote C x C' x' (off : Z) (bs : list Z) : Prop := {
  wr_slot b : -1 ≤ b < MAXFILE → slot_of C x b ≠ 0 → slot_of C' x' b = slot_of C x b;
  wr_new b : -1 ≤ b < MAXFILE → slot_of C x b = 0 → slot_of C' x' b = 0 ∨ 0 ≤ slot_of C' x' b < size ∧ in_use C (slot_of C' x' b) = false;
  wr_use n : 0 ≤ n < size → in_use C n = true → in_use C' n = true;
  wr_other n : is_data n → in_use C n = true → (∀ b, -1 ≤ b < MAXFILE → n ≠ slot_of C x b) → C' n = C n;
  wr_meta n : ¬ is_data n → (∀ m, 0 ≤ m < size → n ≠ map_block m) → C' n = C n;
  wr_fields : x' = set_i_addrs (i_addrs x') x;
  wr_mapped k : off ≤ k < off + Z.of_nat (length bs) → slot_of C' x' (k / BSIZE) ≠ 0;
  wr_byte k : 0 ≤ k < MAXFILE * BSIZE → slot_of C x (k / BSIZE) ≠ 0 ∨ off ≤ k < off + Z.of_nat (length bs) →
    byte C' x' k = if decide (off ≤ k < off + Z.of_nat (length bs)) then bs !!! Z.to_nat (k - off) else byte C x k;
}.

Lemma block_of k : 0 ≤ k < MAXFILE * BSIZE → 0 ≤ k / BSIZE < MAXFILE.
Proof. intros Hk. split; [apply Z.div_pos; [lia|done]|]. apply Z.div_lt_upper_bound; [done|]. lia. Qed.

Lemma wrote_nil C x off : wrote C x C x off [].
Proof.
  split; try done; [by left|by destruct x|cbn; lia|]. intros k _ _. by rewrite decide_False by (cbn; lia).
Qed.

Lemma wrote_app C x C1 x1 C2 x2 off bs1 bs2 :
  0 ≤ off → wrote C x C1 x1 off bs1 → wrote C1 x1 C2 x2 (off + Z.of_nat (length bs1)) bs2 →
  off + Z.of_nat (length (bs1 ++ bs2)) ≤ MAXFILE * BSIZE → wrote C x C2 x2 off (bs1 ++ bs2).
Proof.
  intros Hoff [A1 A2 A3 A4 A5 A6 A7 A8] [B1 B2 B3 B4 B5 B6 B7 B8] Hmax. rewrite length_app in Hmax. split.
  - intros b Hb Hn. rewrite B1, A1; try done. by rewrite A1.
  - intros b Hb H0. destruct (decide (slot_of C1 x1 b = 0)) as [E|E].
    + destruct (B2 b Hb E) as [F|[Fr F]]; [by left|right]. split; [done|].
      destruct (in_use C (slot_of C2 x2 b)) eqn:G; [|done]. by rewrite A3 in F.
    + rewrite B1 by done. by apply A2.
  - intros n Hn Hu. by apply B3, A3.
  - intros n Hd Hu Hn. pose proof (is_data_home n Hd) as [Hr _]. rewrite B4, A4; try done; [by apply A3|].
    intros b Hb ->. destruct (decide (slot_of C x b = 0)) as [E|E]; [|by apply (Hn b Hb); rewrite A1].
    destruct (A2 b Hb E) as [F|[_ F]]; [|congruence]. pose proof (data_pos _ Hd). lia.
  - intros n Hd Hm. by rewrite B5, A5.
  - rewrite B6, A6. by destruct x.
  - intros k Hk. rewrite length_app in Hk. destruct (decide (k < off + Z.of_nat (length bs1))) as [Hlt|Hge]; [|apply B7; lia].
    pose proof (block_of k ltac:(lia)). rewrite B1; [apply A7; lia|lia|apply A7; lia].
  - intros k Hk Hor. rewrite length_app in *. destruct (decide (off + Z.of_nat (length bs1) ≤ k < off + Z.of_nat (length bs1) + Z.of_nat (length bs2))) as [Hin|Hout].
    + rewrite B8 by (done || by right). rewrite !decide_True by lia. rewrite lookup_total_app_r by lia. f_equal. lia.
    + pose proof (block_of k Hk). rewrite B8; [|done|].
      2: { left. destruct Hor as [Hor|Hor]; [rewrite A1 by (done || lia); done|apply A7; lia]. }
      rewrite decide_False by lia. rewrite A8; [|done|destruct Hor; [by left|right; lia]].
      destruct (decide (off ≤ k < off + Z.of_nat (length bs1))).
      * rewrite decide_True by lia. by rewrite lookup_total_app_l by lia.
      * by rewrite decide_False by lia.
Qed.

(** A store into one block of the file. *)
Definition store C (r : Z) (o : nat) (bs : list Z) : disk := dupd r (put o bs (C r)) C.

Section Store.
Context (C : disk) (x : inode) (b : Z) (Hown : owns C x) (Hb : 0 ≤ b < MAXFILE) (Hs : slot_of C x b ≠ 0).
Context (HC : ∀ n, length (C n) = Z.to_nat BSIZE).

Lemma store_slot o bs c : -1 ≤ c < MAXFILE → slot_of (store C (slot_of C x b) o bs) x c = slot_of C x c.
Proof.
  intros Hc. assert (indirect x ≠ 0 → indirect x ≠ slot_of C x b) as Hne.
  { intros Hi E. assert (-1 = b); [|lia]. by eapply (ow_inj _ _ Hown (-1) b); [done|lia|done|]. }
  unfold slot_of at 1 3. destruct (c <? 0); [done|]. destruct (c <? Z.of_nat NDIRECT); [done|].
  destruct (Z.eqb_spec (indirect x) 0); [done|]. unfold store. by rewrite dupd_ne by auto.
Qed.

Lemma store_owns o bs : owns (store C (slot_of C x b) o bs) x.
Proof.
  destruct (ow_data _ _ Hown b) as [Hd _]; [lia|done|]. destruct Hown as [O1 O2 O3]. split; [done| |].
  - intros c Hc. rewrite store_slot by done. intros Hn. destruct (O2 c Hc Hn) as [H1 H2]. split; [done|].
    unfold store. rewrite in_use_data; [done|done|]. by apply is_data_home.
  - intros c c' Hc Hc'. rewrite !store_slot by done. by apply O3.
Qed.

Lemma store_wrote off bs :
  b = off / BSIZE → 0 ≤ off → off mod BSIZE + Z.of_nat (length bs) ≤ BSIZE →
  wrote C x (store C (slot_of C x b) (Z.to_nat (off mod BSIZE)) bs) x off bs.
Proof.
  intros Eb Hoff Hl. destruct (ow_data _ _ Hown b) as [Hd _]; [lia|done|]. pose proof (Z.mod_pos_bound off BSIZE ltac:(done)) as Hmod.
  set (o := Z.to_nat (off mod BSIZE)). split.
  - intros c Hc _. by apply store_slot.
  - intros c Hc H0. left. by rewrite store_slot.
  - intros n Hn Hu. unfold store. by rewrite in_use_data.
  - intros n Hn Hu Hne. unfold store. apply dupd_ne, Hne. lia.
  - intros n Hn Hm. unfold store. apply dupd_ne. by intros ->.
  - by destruct x.
  - intros k Hk. destruct (block_split off (Z.of_nat (length bs)) (k - off)) as [E1 _]; [done|done|lia|].
    replace (off + (k - off)) with k in E1 by lia. rewrite E1, <- Eb, store_slot by lia. done.
  - intros k Hk Hor. pose proof (block_of k Hk) as Hkb. unfold byte. rewrite store_slot by lia.
    pose proof (Z.mod_pos_bound k BSIZE ltac:(done)) as Hkm.
    destruct (decide (off ≤ k < off + Z.of_nat (length bs))) as [Hin|Hout].
    + destruct (block_split off (Z.of_nat (length bs)) (k - off)) as [E1 E2]; [done|done|lia|].
      replace (off + (k - off)) with k in E1, E2 by lia. rewrite E1, E2, <- Eb. unfold store. rewrite dupd_eq.
      rewrite !list_lookup_total_alt. unfold put. rewrite list_lookup_inserts; [do 2 f_equal; lia|lia|rewrite HC; lia].
    + destruct Hor as [Hor|]; [|done]. destruct (decide (k / BSIZE = b)) as [E|E].
      * rewrite E. unfold store. rewrite dupd_eq, !list_lookup_total_alt. f_equal. apply put_out.
        pose proof (Z.div_mod k BSIZE ltac:(done)). pose proof (Z.div_mod off BSIZE ltac:(done)). rewrite <- Eb, <- E in *. unfold o. lia.
      * unfold store. rewrite dupd_ne; [done|]. intros E'. apply E. apply (ow_inj _ _ Hown); [lia|lia|done|done].
Qed.

End Store.

Lemma grown_wrote C x C' x' off : owns C x → grown C x C' x' → wrote C x C' x' off [].
Proof.
  intros Ho [A1 A2 A3 A4 A5 A6]. split; try done.
  - intros n Hd Hu Hn. apply A4; [done|done|]. apply (Hn (-1)). done.
  - cbn. lia.
  - intros k Hk [Hs|Hs]; [|cbn in Hs; lia]. rewrite decide_False by (cbn; lia). pose proof (block_of k Hk). unfold byte.
    rewrite A1 by (done || lia). destruct (ow_data _ _ Ho (k / BSIZE)) as [Hd Hu]; [lia|done|]. rewrite A4; [done|done|done|].
    intros E. assert (k / BSIZE = -1); [|lia]. by apply (ow_inj _ _ Ho); [lia|done| |].
Qed.

(** Where the bytes come from: [data], as long as nothing but the file system changes. *)
Definition source (a : src) (data : list Z) (s : kst W) : Prop :=
  ∀ s' tot m, core s' = core s → 0 ≤ tot → 0 ≤ m → tot + m ≤ Z.of_nat (length data) →
    copy_from a tot m s' = Done (take (Z.to_nat m) (drop (Z.to_nat tot) data)) s'.

Lemma source_kernel data s : source (FromKernel data) data s.
Proof. done. Qed.
Lemma source_core a data s s' : core s' = core s → source a data s → source a data s'.
Proof. intros E Hs s2 tot m E2. apply Hs. congruence. Qed.

(** At most [c] blocks are touched. *)
Lemma writei_loop_ok h ip a data n k : n = Z.of_nat (length data) → ∀ c C bl x s tot off,
  fx h C bl ∅ ip x s → source a data s → 0 ≤ tot ≤ n → 0 ≤ off → off + (n - tot) ≤ MAXFILE * BSIZE →
  enough k off (n - tot) → enough (S c) off (n - tot) → room (6 * c + 1) bl ∅ → avail C (2 * c) →
  wp alone (writei_loop fuel k ip a tot off n s) (λ r s', ∃ C' bl' x', r = off + (n - tot) ∧
    fx h C' bl' ∅ ip x' s' ∧ fkeeps ip s s' ∧ wrote C x C' x' off (drop (Z.to_nat tot) data) ∧
    (∀ j, room (j + 6 * c) bl ∅ → room j bl' ∅) ∧ (bl ≠ [] ∨ tot < n → bl' ≠ [])).
Proof.
  intros Hn. induction k as [|k IH]; intros c C bl x s tot off Hfx Hsrc Htot Hoff Hmax Hk Hc Hroom Hav; [by destruct Hk; lia|].
  cbn [writei_loop]. destruct (Z.ltb_spec tot n) as [Hlt|Hge].
  2: { exists C, bl, x. rewrite drop_ge by lia. split; [lia|]. split; [done|]. split; [done|]. split; [apply wrote_nil|].
       split; [intros j Hr; eapply room_mono; [exact Hr|lia]|]. intros [?|?]; [done|lia]. }
  pose proof Hfx as [F1 F2 F3 F4 F5 F6]. mstep. rewrite (get_inode_eq ip x) by done. mstep.
  pose proof (chunk_range off (n - tot) Hoff ltac:(lia)) as [Hc1 Hc2]. pose proof (enough_step k off (n - tot) Hoff ltac:(lia) Hk) as Hk'.
  pose proof (enough_step c off (n - tot) Hoff ltac:(lia) Hc) as Hc'. destruct c as [|c]; [by destruct Hc'; lia|].
  set (m := chunk off (n - tot)) in *.
  assert (0 ≤ off / BSIZE < MAXFILE) as Hb by (apply block_of; lia).
  eapply wp_then; [eapply (bmap_ok h C bl ip x s (off / BSIZE)); [done|eapply room_mono; [exact Hroom|lia]| |done]|].
  { intros _. split; [eapply room_mono; [exact Hroom|lia]|]. destruct Hav as (X & HX & HX'). exists X. split; [lia|done]. }
  intros bno s1 (C1 & bl1 & x1 & M1 & M2 & M3 & -> & M5 & _ & _ & M7 & M8). mstep. rewrite F4.
  pose proof M1 as [G1 G2 G3 G4 G5 G6]. set (bno := slot_of C1 x1 (off / BSIZE)) in *.
  destruct (ow_data _ _ G5 (off / BSIZE)) as [Hd _]; [lia|done|]. destruct (is_data_home _ Hd) as [Hr Hnl].
  pose proof (bio_len _ _ _ _ _ _ _ _ _ (tx_bio _ _ _ _ _ G1)) as HC1.
  eapply wp_then; [eapply (tx_read h C1 bl1 ∅ s1 bno); [done|done|done|]|].
  { apply M7. eapply room_mono; [exact Hroom|lia]. }
  intros bp s2 (T2 & _ & K2). apply keeps_lkeeps in K2. mstep.
  set (bs := take (Z.to_nat m) (drop (Z.to_nat tot) data)).
  assert (length bs = Z.to_nat m) as Hlbs by (unfold bs; rewrite length_take, length_drop; lia).
  rewrite (Hsrc s2 tot m); [|pose proof (proj1 (lkeeps_fkeeps ip _ _ K2)); pose proof (proj1 M2); congruence|lia|lia|lia]. fold bs. mstep.
  eapply (tx_put_then h C1 bl1 ∅ s2 bno bp (put (Z.to_nat (off mod BSIZE)) bs)); try done.
  { apply M7. eapply room_mono; [exact Hroom|lia]. }
  { rewrite length_put. apply HC1. }
  intros s3 T3 K3. change (dupd bno _ C1) with (store C1 bno (Z.to_nat (off mod BSIZE)) bs) in T3.
  assert (lkeeps s1 s3) as K13 by (by etrans).
  pose proof (store_wrote C1 x1 (off / BSIZE) G5 Hb M5 HC1 off bs eq_refl Hoff ltac:(lia)) as Hw1.
  pose proof (store_owns C1 x1 (off / BSIZE) G5 Hb M5 (Z.to_nat (off mod BSIZE)) bs) as Ho1. fold bno in Hw1, Ho1.
  set (C2 := store C1 bno _ bs) in *.
  assert (map_ok C2) as Hm2 by (intros q Hq; unfold C2, store; rewrite in_use_data by done; by apply G6).
  assert (fx h C2 (absorb bno bl1) ∅ ip x1 s3) as F3' by (by eapply fx_lkeeps).
  assert (wrote C x C2 x1 off bs) as Hw.
  { apply (wrote_app C x C1 x1 C2 x1 off [] bs); [done|by apply grown_wrote|by rewrite Z.add_0_r|]. cbn [app length]. lia. }
  assert (∀ j, room (j + 6) bl ∅ → room j (absorb bno bl1) ∅) as Hroom2.
  { intros j Hj. apply room_absorb, M7. eapply room_mono; [exact Hj|lia]. }
  assert (fkeeps ip s s3) as K03 by (etrans; [exact M2|by apply lkeeps_fkeeps]).
  eapply wp_mono; [|eapply (IH c C2 (absorb bno bl1) x1 s3 (tot + m) (off + m)); try done; try lia].
  - intros r s4 (C' & bl' & x' & -> & Q1 & Q2 & Q3 & Q4 & Q5). exists C', bl', x'. split; [lia|]. split; [done|]. split; [by etrans|]. split.
    + replace (drop (Z.to_nat tot) data) with (bs ++ drop (Z.to_nat (tot + m)) data).
      * eapply wrote_app; [done|exact Hw|by rewrite Hlbs, Z2Nat.id by lia|]. rewrite length_app, length_drop, Hlbs. lia.
      * unfold bs. rewrite Z2Nat.inj_add by lia. by rewrite <- drop_drop, take_drop.
    + split; [intros j Hj; apply Q4, Hroom2; eapply room_mono; [exact Hj|lia]|]. intros _. apply Q5. left. apply absorb_some.
  - eapply source_core; [|exact Hsrc]. apply K03.
  - by replace (n - (tot + m)) with (n - tot - m) by lia.
  - by replace (n - (tot + m)) with (n - tot - m) by lia.
  - apply Hroom2. eapply room_mono; [exact Hroom|lia].
  - assert (avail C1 (2 * c)) as (X & HX & HX') by (apply M8; by replace (2 * c + 2)%nat with (2 * S c)%nat by lia).
    exists X. split; [done|]. intros q Hq. destruct (HX' q Hq) as [Hqr Hqf]. split; [done|]. unfold C2, store. by rewrite in_use_data.
Qed.

(** Writing the inode changes no block of any file and no mark. *)
Lemma put_inode_data C x n : 0 ≤ i_inum x < sb_ninodes sb → is_data n → put_inode C x n = C n.
Proof. intros Hi Hd. unfold put_inode. apply dupd_ne. intros ->. by destruct (inode_block_range _ Hi) as (_ & _ & _ & ?). Qed.
Lemma put_inode_use C x n : 0 ≤ i_inum x < sb_ninodes sb → 0 ≤ n < size → in_use (put_inode C x) n = in_use C n.
Proof.
  intros Hi Hn. unfold in_use, put_inode. rewrite dupd_ne; [done|]. intros E. destruct (inode_block_range _ Hi) as (_ & _ & Hne & _). by destruct (Hne n Hn).
Qed.
Lemma put_inode_slot C x y b : 0 ≤ i_inum x < sb_ninodes sb → owns C y → -1 ≤ b < MAXFILE → slot_of (put_inode C x) y b = slot_of C y b.
Proof.
  intros Hi Ho Hb. unfold slot_of. destruct (b <? 0); [done|]. destruct (b <? Z.of_nat NDIRECT); [done|].
  destruct (Z.eqb_spec (indirect y) 0) as [|Hn]; [done|]. rewrite put_inode_data; [done|done|].
  by destruct (ow_data _ _ Ho (-1)).
Qed.
Lemma put_inode_owns C x y : 0 ≤ i_inum x < sb_ninodes sb → owns C y → owns (put_inode C x) y.
Proof.
  intros Hi Ho. pose proof Ho as [O1 O2 O3]. split; [done| |].
  - intros b Hb. rewrite put_inode_slot by done. intros Hn. destruct (O2 b Hb Hn) as [Hd Hu]. split; [done|].
    rewrite put_inode_use; [done|done|by apply is_data_home].
  - intros b b' Hb Hb'. rewrite !put_inode_slot by done. by apply O3.
Qed.
Lemma put_inode_byte C x y k :
  0 ≤ i_inum x < sb_ninodes sb → owns C y → 0 ≤ k < MAXFILE * BSIZE → slot_of C y (k / BSIZE) ≠ 0 →
  byte (put_inode C x) y k = byte C y k.
Proof.
  intros Hi Ho Hk Hn. pose proof (block_of k Hk). unfold byte. rewrite put_inode_slot by (done || lia).
  rewrite put_inode_data; [done|done|]. by apply (ow_data _ _ Ho); [lia|].
Qed.

Lemma owns_size C x n : owns C x → owns C (set_i_size n x).
Proof. by intros [A B D]; split. Qed.

(** [writei] puts the bytes into the file, extending it if needed, and then the inode
    on disk has the new size and addresses; or it fails and changes nothing. *)
Lemma writei_ok h C bl ip x s a data off c :
  fx h C bl ∅ ip x s → source a data s → i_type x ≠ T_DEV → 0 ≤ i_inum x < sb_ninodes sb →
  0 ≤ off ≤ i_size x → off + Z.of_nat (length data) ≤ MAXFILE * BSIZE →
  enough (S c) off (Z.of_nat (length data)) → room (6 * c + 3) bl ∅ → avail C (2 * c) →
  wp alone (writei fuel ip a off (Z.of_nat (length data)) s) (λ r s', ∃ C1 C' bl' x1,
    r = Z.of_nat (length data) ∧ wrote C x C1 x1 off data ∧ owns C1 x1 ∧ fkeeps ip s s' ∧
    (∀ j, room (j + 6 * c + 1) bl ∅ → room j bl' ∅) ∧ (data ≠ [] → bl' ≠ []) ∧
    if decide (i_size x < off + Z.of_nat (length data)) then
      C' = put_inode C1 (set_i_size (off + Z.of_nat (length data)) x1) ∧
      fx h C' bl' ∅ ip (set_i_size (off + Z.of_nat (length data)) x1) s'
    else C' = C1 ∧ fx h C' bl' ∅ ip x1 s').
Proof.
  intros Hfx Hsrc Hty Hi Hoff Hmax Hc Hroom Hav. set (n := Z.of_nat (length data)) in *. unfold writei. mstep.
  rewrite (get_inode_eq ip x) by apply Hfx. mstep. destruct (Z.eqb_spec (i_type x) T_DEV); [done|].
  destruct (Z.ltb_spec (i_size x) off); [lia|]. change (MAXFILE * BSIZE) with 71680 in *.
  rewrite (u32_id (off + n)) by lia. destruct (Z.ltb_spec (off + n) off); [lia|]. cbn [orb].
  destruct (Z.ltb_spec 71680 (off + n)); [lia|]. mstep.
  eapply wp_then; [eapply (writei_loop_ok h ip a data n (blocks_for n) eq_refl c C bl x s 0 off); try done; try lia|].
  - change (MAXFILE * BSIZE) with 71680. lia.
  - rewrite Z.sub_0_r. apply enough_blocks. lia.
  - by rewrite Z.sub_0_r.
  - eapply room_mono; [exact Hroom|lia].
  - rewrite Z.sub_0_r, drop_0. intros r s1 (C1 & bl1 & x1 & -> & F1 & K1 & Hw & Hr1 & Hne1).
    pose proof F1 as [G1 G2 G3 G4 G5 G6]. mstep. rewrite (get_inode_eq ip x1) by done. mstep.
    assert (i_size x1 = i_size x ∧ i_inum x1 = i_inum x) as [Esz Ein] by (by rewrite (wr_fields _ _ _ _ _ _ Hw)). rewrite Esz.
    rewrite s32_id by lia. destruct (decide (i_size x < off + n)) as [Hlt|Hge].
    + assert ((0 <? n) && (i_size x <? off + n) = true) as ->.
      { apply andb_true_intro. split; [apply Z.ltb_lt; lia|by apply Z.ltb_lt]. }
      cbn [when]. mstep. rewrite (set_inode_eq ip _ x1) by done. mstep. set (x2 := set_i_size (off + n) x1). set (s2 := with_inodes _ s1).
      assert (inodes s2 !! ip = Some x2) as Hx2 by (apply list_lookup_insert_eq; by eapply lookup_lt_Some).
      destruct (inode_block_range (i_inum x2)) as (Ir & Il & _); [cbn; by rewrite Ein|].
      eapply wp_then; [eapply (iupdate_ok h C1 bl1 ∅ s2 ip x2); [by apply tx_with_inodes|done|done|done|cbn; by rewrite Ein|done|]|].
      { apply Hr1. eapply room_mono; [exact Hroom|lia]. }
      intros [] s3 [T3 K3]. mstep. exists C1, (put_inode C1 x2), (absorb (inode_block (i_inum x2)) bl1), x1.
      split; [done|]. split; [done|]. split; [done|]. split.
      * etrans; [exact K1|]. etrans; [|by apply lkeeps_fkeeps]. split; [done|]. split; [done|]. unfold s2. rewrite inodes_with, length_insert.
        split; [done|]. intros j Hj. by rewrite list_lookup_insert_ne.
      * split; [intros j Hj; apply room_absorb, Hr1; eapply room_mono; [exact Hj|lia]|]. split; [intros _; apply absorb_some|].
        split; [done|]. assert (0 ≤ i_inum x2 < sb_ninodes sb) as Hi2 by (cbn; by rewrite Ein).
        split; [done|by eapply lkeeps_sb|by rewrite (lkeeps_inodes _ _ K3)|done|by apply put_inode_owns, owns_size|].
        intros q Hq. rewrite put_inode_use by done. by apply G6.
    + assert ((0 <? n) && (i_size x <? off + n) = false) as ->.
      { apply andb_false_intro2. apply Z.ltb_ge. lia. }
      cbn [when]. mstep. exists C1, C1, bl1, x1. do 4 (split; [done|]). split; [|split; [|done]].
      * intros j Hj. apply Hr1. eapply room_mono; [exact Hj|lia].
      * intros Hd. apply Hne1. right. unfold n. destruct data; [done|cbn; lia].
Qed.

(** A file without blocks in common with the one written is as before. *)
Definition apart C (x y : inode) : Prop :=
  ∀ b b', -1 ≤ b < MAXFILE → -1 ≤ b' < MAXFILE → slot_of C y b ≠ 0 → slot_of C y b ≠ slot_of C x b'.

Lemma wrote_apart C x C' x' off bs y :
  wrote C x C' x' off bs → owns C y → apart C x y →
  owns C' y ∧ ∀ k, 0 ≤ k < MAXFILE * BSIZE → slot_of C y (k / BSIZE) ≠ 0 →
    slot_of C' y (k / BSIZE) = slot_of C y (k / BSIZE) ∧ byte C' y k = byte C y k.
Proof.
  intros Hw Ho Hap. pose proof Ho as [O1 O2 O3].
  assert (∀ b, -1 ≤ b < MAXFILE → slot_of C y b ≠ 0 → C' (slot_of C y b) = C (slot_of C y b)) as Hsame.
  { intros b Hb Hn. destruct (O2 b Hb Hn). apply (wr_other _ _ _ _ _ _ Hw); [done|done|]. intros b' Hb'. by apply Hap. }
  assert (∀ b, -1 ≤ b < MAXFILE → slot_of C' y b = slot_of C y b) as Hslot.
  { intros b Hb. unfold slot_of. destruct (b <? 0); [done|]. destruct (b <? Z.of_nat NDIRECT); [done|].
    destruct (Z.eqb_spec (indirect y) 0) as [|Hn]; [done|]. pose proof (Hsame (-1) ltac:(done) Hn) as E.
    change (slot_of C y (-1)) with (indirect y) in E. by rewrite E. }
  split.
  - split; [done| |].
    + intros b Hb. rewrite Hslot by done. intros Hn. destruct (O2 b Hb Hn) as [Hd Hu]. split; [done|].
      apply (wr_use _ _ _ _ _ _ Hw); [by apply is_data_home|done].
    + intros b b' Hb Hb'. rewrite !Hslot by done. by apply O3.
  - intros k Hk Hn. pose proof (block_of k Hk). split; [apply Hslot; lia|]. unfold byte. rewrite Hslot by lia. by rewrite Hsame by (done || lia).
Qed.

End FsLaw.
