(* ===== verification/FsSpec.v ===== *)
(** What the file system promises: allocation of blocks, counted references to
    inodes, inodes that survive on disk, files that read as they were written, and
    writes that are atomic across crashes. *)
From S2P Require Import Prelude Mem KState Spinlock Sched Sleeplock Layout Path Bio BioLaw Log LogLaw Services Fs Icache FsLaw.

(** A disk laid out as mkfs does: the log, the inodes, the free map, the data. *)
Record geometry (size : Z) (fuel : nat) (start lsize : Z) (sb : superblock) : Prop := {
  ge_size : 0 ≤ size < 2^31;
  ge_fuel : (0 < fuel)%nat;
  ge_log : 0 ≤ start ∧ start + lsize ≤ size ∧ 0 < lsize;
  ge_layout : layout size start lsize sb;
}.

(** C15: Disk blocks are allocated exactly.  [balloc] returns the lowest block whose bit
    in the free map is clear, zeroed, sets that bit and changes no other bit and no
    other block; it panics only when every bit is set.  [bfree] clears the bit of
    the block and changes nothing else. *)
Theorem block_allocator {W} i p D0 size fuel start lsize sb h C bl (s : kst W) :
  geometry size fuel start lsize sb → tx i p D0 size start lsize h C bl ∅ s → sb_is sb s → sb_on size sb C →
  map_ok size sb C → room lsize 3 bl ∅ →
  (∀ m, lowest size sb C m → ∃ C' bl' s', balloc fuel 1 s = Done m s' ∧
     tx i p D0 size start lsize h C' bl' ∅ s' ∧ map_ok size sb C' ∧ C' m = zeros ∧
     (∀ n, 0 ≤ n < size → in_use sb C' n = bool_decide (n = m) || in_use sb C n) ∧
     (∀ n, n ≠ m → n ≠ map_block sb m → C' n = C n)) ∧
  ((∀ m, 0 ≤ m < size → in_use sb C m = true) → balloc fuel 1 s = Panic "balloc: out of blocks") ∧
  (∀ m, is_data size sb m → in_use sb C m = true → ∃ C' bl' s', bfree fuel 1 m s = Done tt s' ∧
     tx i p D0 size start lsize h C' bl' ∅ s' ∧
     (∀ n, 0 ≤ n < size → in_use sb C' n = negb (bool_decide (n = m)) && in_use sb C n) ∧
     (∀ n, n ≠ map_block sb m → C' n = C n)).
Proof.
  intros [G1 G2 G3 G4] Ht Hsb Hon Hmap Hroom. pose proof (bio_len _ _ _ _ _ _ _ _ _ (FsLaw.tx_bio _ _ _ _ _ _ _ _ _ _ _ Ht)) as HC.
  assert (free_bufs size sb ∅) as Hfb by done.
  split; [|split].
  - intros m Hlow. pose proof Hlow as (Hm & Hf & _). pose proof (Hmap m Hm Hf) as Hd.
    pose proof (balloc_ok i p D0 size G1 fuel G2 start lsize G3 sb G4 h C bl ∅ s m Ht Hsb Hmap Hfb) as Hb.
    apply wp_alone in Hb as (r & s' & He & -> & T & _); [|done..].
    exists (taken sb C m). eexists _, s'. split; [done|]. split; [done|]. split; [by eapply taken_map_ok|]. split; [apply taken_at|].
    split; [intros n Hn; by eapply taken_in_use|]. intros n H1 H2. by apply taken_ne.
  - intros Hall. by eapply (balloc_full i p D0 size G1 fuel G2 start lsize G3 sb G4 h C bl ∅).
  - intros m Hd Hu. pose proof (bfree_ok i p D0 size G1 fuel G2 start lsize G3 sb G4 h C bl ∅ s m Ht Hsb Hon Hfb) as Hb.
    apply wp_alone in Hb as ([] & s' & He & T & _); [|done|by eapply room_mono; [exact Hroom|lia]|done|done].
    assert (0 ≤ m < size) as Hm by (eapply is_data_home; eassumption).
    exists (unmark sb C m). eexists _, s'. split; [done|]. split; [done|].
    split; [intros n Hn; eapply in_use_unmark; try eassumption; [lia|lia|done]|]. intros n Hn. unfold unmark. by apply dupd_ne.
Qed.

(** C17: The inode cache counts references.  As long as every inode has at most one
    entry, [iget] adds one reference to the inode it is asked for, in the entry the
    inode has or in a free one, and panics only if there is neither; [idup] adds one,
    and [iput] of a reference that is not the last to an unlinked inode takes one
    away.  No other inode's references change, nothing but the table changes, and
    there is still at most one entry per inode. *)
Theorem inode_references {W} {VO : VmOps W} {DV : DevSw W} i p fuel (s : kst W) :
  krun [] fslocks i p s → icache_ok (inodes s) →
  (∀ dev inum, refs (inodes s) dev inum < 2^31 - 2 →
     (∃ ip I', iget dev inum s = Done ip (set_table I' s) ∧ icache_ok I' ∧
        (∃ x, I' !! ip = Some x ∧ is_ref dev inum x) ∧ refs I' dev inum = refs (inodes s) dev inum + 1 ∧
        ∀ d n, (d, n) ≠ (dev, inum) → refs I' d n = refs (inodes s) d n) ∨
     (iget dev inum s = Panic "iget: no inodes" ∧ refs (inodes s) dev inum = 0 ∧ Forall (λ x, i_ref x ≠ 0) (inodes s))) ∧
  (∀ ip x, inodes s !! ip = Some x → 0 < i_ref x →
     (i_ref x < 2^31 - 2 → ∃ I', idup ip s = Done ip (set_table I' s) ∧ icache_ok I' ∧
        refs I' (i_dev x) (i_inum x) = refs (inodes s) (i_dev x) (i_inum x) + 1 ∧
        ∀ d n, (d, n) ≠ (i_dev x, i_inum x) → refs I' d n = refs (inodes s) d n) ∧
     (i_ref x ≠ 1 ∨ Z.land (i_flags x) I_VALID = 0 ∨ i_nlink x ≠ 0 →
        ∃ I', iput fuel ip s = Done tt (set_table I' s) ∧ icache_ok I' ∧
        refs I' (i_dev x) (i_inum x) = refs (inodes s) (i_dev x) (i_inum x) - 1 ∧
        ∀ d n, (d, n) ≠ (i_dev x, i_inum x) → refs I' d n = refs (inodes s) d n)).
Proof.
  intros Hk Hok. split.
  - intros dev inum Hr. destruct (iget_ok i p dev inum s Hk Hok Hr) as [(ip & I' & E & Hok' & (x & Hx & Hi & _) & Hrest)|]; [left|by right].
    exists ip, I'. split; [done|]. split; [done|]. split; [by exists x|done].
  - intros ip x Hx Hr. split.
    + intros Hlt. by eapply idup_ok.
    + intros Hc. by eapply iput_ok.
Qed.

(** The fields of an inode that are on disk. *)
Definition same_fields (x y : inode) : Prop :=
  (i_type x, i_major x, i_minor x, i_nlink x, i_size x, i_addrs x) = (i_type y, i_major y, i_minor y, i_nlink y, i_size y, i_addrs y).

(** Entries with the same fields are the same file. *)
Lemma same_file size sb D x y : same_fields x y →
  (∀ b, slot_of D y b = slot_of D x b) ∧ (owns size sb D y → owns size sb D x) ∧ ∀ a n, file_bytes D y a n = file_bytes D x a n.
Proof.
  intros E. assert (i_addrs y = i_addrs x) as Ea by (unfold same_fields in E; congruence).
  assert (∀ b, slot_of D y b = slot_of D x b) as Es by (intros b; unfold slot_of, indirect; by rewrite Ea).
  split; [done|]. split.
  - intros [O1 O2 O3]. split; [by rewrite <- Ea|..].
    + intros b. rewrite <- Es. apply O2.
    + intros b b'. rewrite <- !Es. apply O3.
  - intros a n. unfold file_bytes. apply list_fmap_ext. intros j v _. unfold byte. by rewrite Es.
Qed.

(** C16: An inode survives on disk.  After [iupdate] of an inode, [ilock] of an entry for
    it that has not been read yet (another one, later) finds exactly its fields; the
    other inodes, also those in the same block, and all other blocks are unchanged. *)
Theorem inode_roundtrip {W} i p D0 size fuel start lsize sb h C bl ip x (s : kst W) :
  geometry size fuel start lsize sb → tx i p D0 size start lsize h C bl ∅ s → sb_is sb s → room lsize 2 bl ∅ →
  inodes s !! ip = Some x → inode_wf x → i_dev x = 1 → 0 ≤ i_inum x < sb_ninodes sb → i_type x ≠ 0 →
  ∃ C' bl' s', iupdate fuel ip s = Done tt s' ∧ tx i p D0 size start lsize h C' bl' ∅ s' ∧ lkeeps s s' ∧
    (∀ n, n ≠ inode_block sb (i_inum x) → C' n = C n) ∧
    (∀ j, j ≠ i_inum x → disk_inode sb C' j = disk_inode sb C j) ∧
    (∀ jp y (s2 : kst W) h2 bl2, tx i p D0 size start lsize h2 C' bl2 ∅ s2 → sb_is sb s2 → room lsize 0 bl2 ∅ →
       (jp < NINODE)%nat → inodes s2 !! jp = Some y → 1 ≤ i_ref y → i_dev y = 1 → i_inum y = i_inum x →
       Z.land (i_flags y) I_VALID = 0 → sl_locked (slock (inode_lock jp) s2) = 0 →
       ∃ z (s3 : kst W), ilock fuel jp s2 = Done tt s3 ∧ inodes s3 !! jp = Some z ∧ same_fields z x ∧
         sl_locked (slock (inode_lock jp) s3) = 1).
Proof.
  intros [G1 G2 G3 G4] Ht Hsb Hroom Hx Hw Hd Hi Hty.
  pose proof (bio_len _ _ _ _ _ _ _ _ _ (FsLaw.tx_bio _ _ _ _ _ _ _ _ _ _ _ Ht)) as HC.
  pose proof (iupdate_ok i p D0 size G1 fuel G2 start lsize G3 sb G4 h C bl ∅ s ip x Ht Hsb Hx Hd Hi) as Hu.
  apply wp_alone in Hu as ([] & s' & He & T & K); [|done|done]. exists (put_inode sb C x). eexists _, s'.
  split; [done|]. split; [done|]. split; [done|]. split; [|split].
  - intros n Hn. unfold put_inode. by apply dupd_ne.
  - intros j Hj. erewrite disk_put_inode by eassumption. by rewrite decide_False.
  - intros jp y s2 h2 bl2 T2 Hsb2 Hroom2 Hjp Hy Hr Hyd Hyi Hfl Hlk.
    assert (loaded sb (put_inode sb C x) y = set_i_flags (Z.lor (i_flags y) I_VALID)
      (mkInode (i_dev y) (i_inum y) (i_ref y) (i_flags y) (i_type x) (i_major x) (i_minor x) (i_nlink x) (i_size x) (i_addrs x))) as El.
    { unfold loaded. rewrite Hfl, Hyi. cbn [Z.eqb]. unfold put_inode. rewrite dupd_eq, load_put_dinode; [by rewrite Hyi|done|].
      by eapply dip_off_fits. }
    pose proof (ilock_ok i p D0 size G1 fuel G2 start lsize G3 sb G4 h2 (put_inode sb C x) bl2 ∅ s2 jp y T2 Hsb2 Hjp Hy Hr Hyd) as Hl.
    rewrite Hyi, El in Hl. apply wp_alone in Hl as ([] & s3 & He3 & _ & _ & _ & E3 & L3 & _); [|done..].
    eexists _, s3. split; [done|]. split; [rewrite E3; apply list_lookup_insert_eq; by eapply lookup_lt_Some|by split].
Qed.

Section Write.
Context {W : Type} {VO : VmOps W} {DV : DevSw W} (i : nat) (p : proc) (D0 : disk).
Context (size : Z) (fuel : nat) (start lsize : Z) (sb : superblock) (Hgeo : geometry size fuel start lsize sb).
Context (h : list (Z * list Z)) (C : disk) (bl : list Z) (ip : nat) (x : inode) (a : src) (data : list Z) (off : Z) (c : nat).

(** A write of [data] at [off] that fits: into an ordinary file without holes, within
    the largest file size, touching at most [c] blocks, with room for them in the
    log, and enough free blocks. *)
Record write_fits (s : kst W) : Prop := {
  wf_fx : fx i p D0 size start lsize sb h C bl ∅ ip x s;
  wf_src : source a data s;
  wf_type : i_type x ≠ T_DEV;
  wf_inum : 0 ≤ i_inum x < sb_ninodes sb;
  wf_holes : no_holes C x (i_size x);
  wf_off : 0 ≤ off ≤ i_size x ∧ i_size x ≤ MAXFILE * BSIZE;
  wf_max : off + Z.of_nat (length data) ≤ MAXFILE * BSIZE;
  wf_blocks : enough (S c) off (Z.of_nat (length data));
  wf_room : room lsize (6 * c + 3) bl ∅;
  wf_avail : avail size sb C (2 * c);
  wf_inode : inode_wf x;
}.

(** The file system after it. *)
Record written (C' : disk) (x' : inode) : Prop := {
  wn_size : i_size x' = Z.max (i_size x) (off + Z.of_nat (length data));
  wn_fields : (i_dev x', i_inum x', i_type x', i_nlink x') = (i_dev x, i_inum x, i_type x, i_nlink x);
  wn_holes : no_holes C' x' (i_size x');
  wn_byte k : 0 ≤ k < i_size x' →
    byte C' x' k = if decide (off ≤ k < off + Z.of_nat (length data)) then data !!! Z.to_nat (k - off) else byte C x k;
  wn_other y k : owns size sb C y → apart C x y → 0 ≤ k < MAXFILE * BSIZE → slot_of C y (k / BSIZE) ≠ 0 → byte C' y k = byte C y k;
  wn_disk : i_size x < i_size x' → same_fields (disk_inode sb C' (i_inum x)) x';
}.

Lemma mapped_holes C1 x1 :
  0 ≤ off ≤ i_size x → no_holes C x (i_size x) → i_size x ≤ MAXFILE * BSIZE → off + Z.of_nat (length data) ≤ MAXFILE * BSIZE →
  wrote size sb C x C1 x1 off data →
  no_holes C1 x1 (Z.max (i_size x) (off + Z.of_nat (length data))).
Proof.
  intros Hoff Hno Hmax1 Hmax2 Hw b Hb Hlt. destruct (decide (b * BSIZE < i_size x)) as [Hin|Hout].
  - pose proof (Hno b Hb Hin). rewrite (wr_slot _ _ _ _ _ _ _ _ Hw); [done| |done].
    unfold BSIZE in *. split; [lia|]. change MAXFILE with 140 in *. lia.
  - rewrite <- (Z.div_mul b BSIZE) by done. apply (wr_mapped _ _ _ _ _ _ _ _ Hw). lia.
Qed.

(** The blocks as written, up to the inode on disk. *)
Lemma written_intro C1 x1 C' x' :
  0 ≤ off ≤ i_size x → no_holes C x (i_size x) → i_size x ≤ MAXFILE * BSIZE → off + Z.of_nat (length data) ≤ MAXFILE * BSIZE →
  wrote size sb C x C1 x1 off data → i_addrs x' = i_addrs x1 →
  x' = set_i_size (Z.max (i_size x) (off + Z.of_nat (length data))) x1 →
  (∀ y b, owns size sb C1 y → -1 ≤ b < MAXFILE → slot_of C' y b = slot_of C1 y b) →
  (∀ y k, owns size sb C1 y → 0 ≤ k < MAXFILE * BSIZE → slot_of C1 y (k / BSIZE) ≠ 0 → byte C' y k = byte C1 y k) →
  owns size sb C1 x' → (i_size x < i_size x' → same_fields (disk_inode sb C' (i_inum x)) x') → written C' x'.
Proof.
  intros Hoff Hno Hm1 Hm2 Hw Ea -> Hslot Hbyte Ho Hdisk. pose proof (wr_fields _ _ _ _ _ _ _ _ Hw) as Ex1.
  pose proof (mapped_holes C1 x1 Hoff Hno Hm1 Hm2 Hw) as Hnh. set (m := Z.max _ _) in *. assert (m ≤ MAXFILE * BSIZE) as Hm by lia.
  assert (∀ b, 0 ≤ b → b * BSIZE < m → b < MAXFILE) as Hbb by (intros; unfold BSIZE, MAXFILE in *; lia).
  split; [done|by rewrite Ex1| | | |done].
  - intros b Hb Hlt. rewrite Hslot by (done || specialize (Hbb b Hb Hlt); lia). by apply Hnh.
  - intros k Hk. cbn [i_size set_i_size] in Hk. assert (slot_of C1 x1 (k / BSIZE) ≠ 0) as Hs.
    { apply Hnh; [by apply Z.div_pos; [lia|]|]. pose proof (Z.mul_div_le k BSIZE ltac:(done)). lia. }
    rewrite Hbyte by (done || lia). change (byte C1 (set_i_size m x1) k) with (byte C1 x1 k).
    apply (wr_byte _ _ _ _ _ _ _ _ Hw); [lia|]. destruct (decide (k < i_size x)) as [Hin|Hout]; [left|right; lia].
    apply Hno; [by apply Z.div_pos; [lia|]|]. pose proof (Z.mul_div_le k BSIZE ltac:(done)). lia.
  - intros y k Hoy Hap Hk Hs. destruct Hgeo as [G1 G2 G3 G4].
    assert (owns size sb C1 y ∧ ∀ k, 0 ≤ k < MAXFILE * BSIZE → slot_of C y (k / BSIZE) ≠ 0 →
      slot_of C1 y (k / BSIZE) = slot_of C y (k / BSIZE) ∧ byte C1 y k = byte C y k) as [Hoy1 Hy] by (eapply wrote_apart; eassumption).
    destruct (Hy k Hk Hs) as [E1 E2]. rewrite Hbyte; [done|done|done|by rewrite E1].
Qed.

Lemma owns_addr C1 x1 : owns size sb C1 x1 → ∀ k v, i_addrs x1 !! k = Some v → 0 ≤ v < 2^32.
Proof.
  intros Ho k v Hk. pose proof (ow_len _ _ _ _ Ho) as Hlen. pose proof (lookup_lt_Some _ _ _ Hk) as Hlt.
  assert (slot_of C1 x1 (place k) = v) as E.
  { destruct Hgeo as [G1 G2 G3 G4]. etrans; [eapply slot_place; try eassumption; lia|by apply list_lookup_total_correct]. }
  destruct (decide (v = 0)) as [->|Hv]; [lia|]. destruct (ow_data _ _ _ _ Ho (place k)) as [Hd _]; [|congruence|].
  { change MAXFILE with 140. unfold place, NDIRECT in *. destruct (decide _); lia. }
  rewrite E in Hd. destruct Hgeo as [G1 G2 G3 G4]. assert (0 < v < 2^31) by (eapply data_pos; eassumption). lia.
Qed.

Lemma writei_written s :
  write_fits s →
  ∃ C' bl' x' s1, writei fuel ip a off (Z.of_nat (length data)) s = Done (Z.of_nat (length data)) s1 ∧
    fx i p D0 size start lsize sb h C' bl' ∅ ip x' s1 ∧ fkeeps ip s s1 ∧ written C' x' ∧ room lsize 2 bl' ∅ ∧ (data ≠ [] → bl' ≠ []).
Proof.
  intros [F1 F2 F3 F4 F5 F6 F7 F8 F9 F10 F11]. pose proof Hgeo as [G1 G2 G3 G4]. destruct F6 as [F6 F6'].
  pose proof (writei_ok i p D0 size G1 fuel G2 start lsize G3 sb G4 h C bl ip x s a data off c F1 F2 F3 F4 F6 F7 F8 F9 F10) as Hw.
  apply wp_alone in Hw as (r & s1 & He & C1 & C' & bl' & x1 & -> & Hw & Ho & K & Hr & Hne & Hc).
  assert (room lsize 2 bl' ∅) as Hr2 by (apply Hr; eapply room_mono; [exact F9|lia]).
  pose proof (wr_fields _ _ _ _ _ _ _ _ Hw) as Ex1. destruct (decide (i_size x < off + Z.of_nat (length data))) as [Hlt|Hge].
  - destruct Hc as [EC Hfx]. set (x2 := set_i_size (off + Z.of_nat (length data)) x1) in *. exists C', bl', x2, s1. do 3 (split; [done|]). split; [|done].
    assert (i_inum x2 = i_inum x) as Ei by (unfold x2; by rewrite Ex1).
    assert (0 ≤ i_inum x2 < sb_ninodes sb) as Hi2 by (by rewrite Ei).
    assert (inode_wf x2) as Hwf.
    { destruct F11 as [I1 I2 I3 I4 I5 I6 I7]. unfold x2. rewrite Ex1. split; cbn; try done.
      - change (MAXFILE * BSIZE) with 71680 in *. lia.
      - apply Ho.
      - by apply (owns_addr C1). }
    apply (written_intro C1 x1); try done.
    + unfold x2. f_equal. lia.
    + intros y b Hy Hb. rewrite EC. by eapply put_inode_slot.
    + intros y k Hy Hk Hs. rewrite EC. by eapply put_inode_byte.
    + by apply owns_size.
    + intros _. rewrite EC. erewrite disk_put_inode; try eassumption; [by rewrite decide_True by (by rewrite Ei)|].
      intros n. pose proof (bio_len _ _ _ _ _ _ _ _ _ (FsLaw.tx_bio _ _ _ _ _ _ _ _ _ _ _ (fx_tx _ _ _ _ _ _ _ _ _ _ _ _ _ _ Hfx)) n) as Hl.
      rewrite EC in Hl. unfold put_inode, dupd in Hl. destruct (decide _) as [->|]; [|done]. by rewrite length_put_dinode in Hl.
  - destruct Hc as [-> Hfx]. exists C1, bl', x1, s1. do 3 (split; [done|]). split; [|done].
    apply (written_intro C1 x1); try done.
    + rewrite Ex1. rewrite Z.max_l by lia. by destruct x.
    + rewrite Ex1. cbn. lia.
Qed.

(** Reading back. *)
Lemma written_read C' x' bl' (s1 : kst W) :
  fx i p D0 size start lsize sb h C' bl' ∅ ip x' s1 → room lsize 0 bl' ∅ → written C' x' →
  i_type x ≠ T_DEV → 0 ≤ off ≤ i_size x → i_size x ≤ MAXFILE * BSIZE → off + Z.of_nat (length data) ≤ MAXFILE * BSIZE →
  ∃ s2, readi fuel ip ToKernel off (Z.of_nat (length data)) s1 = Done (Z.of_nat (length data), data) s2.
Proof.
  intros Hfx Hroom [N1 N2 N3 N4 N5 N6] Hty Hoff Hm1 Hm2. destruct Hgeo as [G1 G2 G3 G4].
  assert (i_type x' = i_type x) as Et by exact (f_equal (λ r, r.1.2) N2). change (MAXFILE * BSIZE) with 71680 in *.
  pose proof (readi_ok i p D0 size G1 fuel G2 start lsize G3 sb G4 h C' bl' ip x' s1 off (Z.of_nat (length data)) Hfx Hroom) as Hr.
  rewrite Et, Z.min_l in Hr by lia. apply wp_alone in Hr as (r & s2 & He & -> & _); [|done|done|change (MAXFILE * BSIZE) with 71680; lia|lia|lia].
  exists s2. rewrite He. do 2 f_equal. apply list_eq_same_length with (length data); [done|by rewrite length_file_bytes, Nat2Z.id|].
  intros k v w Hk. unfold file_bytes. rewrite list_lookup_fmap, lookup_seqZ_lt by lia. cbn [fmap option_fmap option_map]. intros [= <-] Hw.
  rewrite N4 by lia. rewrite decide_True by lia. replace (Z.to_nat (off + Z.of_nat k - off)) with k by lia. by apply list_lookup_total_correct.
Qed.

End Write.

(** C5: A file reads as it was written.  A [writei] that fits returns the number of
    bytes; the file then has these bytes from [off] on, its other bytes and those of
    every file that shares no block with it are unchanged, its size is the larger of
    the old one and the end of the write, and if it grew the inode on disk is the new
    one; [readi] of the same range returns the bytes written. *)
Theorem file_write_read {W} {VO : VmOps W} {DV : DevSw W} i p D0 size fuel start lsize sb h C bl ip x a data off c (s : kst W) :
  geometry size fuel start lsize sb → write_fits i p D0 size start lsize sb h C bl ip x a data off c s →
  ∃ C' bl' x' s1 s2, writei fuel ip a off (Z.of_nat (length data)) s = Done (Z.of_nat (length data)) s1 ∧
    fx i p D0 size start lsize sb h C' bl' ∅ ip x' s1 ∧ fkeeps ip s s1 ∧ written size sb C x data off C' x' ∧
    readi fuel ip ToKernel off (Z.of_nat (length data)) s1 = Done (Z.of_nat (length data), data) s2.
Proof.
  intros Hgeo Hfit. destruct (writei_written i p D0 size fuel start lsize sb Hgeo h C bl ip x a data off c s Hfit) as (C' & bl' & x' & s1 & He & Hfx & K & Hw & Hr & _).
  destruct Hfit as [F1 F2 F3 F4 F5 [F6 F6'] F7 F8 F9 F10 F11].
  destruct (written_read i p D0 size fuel start lsize sb Hgeo h C ip x data off C' x' bl' s1) as (s2 & He2); try done.
  { eapply room_mono; [exact Hr|lia]. }
  by exists C', bl', x', s1, s2.
Qed.

(** C1: A write is atomic across crashes.  The first write of a transaction, then
    [commit]: if the machine stops between any two disk writes, and again, any
    number of times, between any two writes of the recoveries, the recovery that
    finishes leaves the file system (every block outside of the log) either as it
    was before the write or as after it: data, free map and inode together. *)
Theorem file_write_atomic {W} {VO : VmOps W} {DV : DevSw W} i p D0 size fuel start lsize sb h C ip x a data off c (s : kst W) :
  geometry size fuel start lsize sb → write_fits i p D0 size start lsize sb h C [] ip x a data off c s →
  data ≠ [] → full (play D0 h) → hdr_n (play D0 h start) = 0 → sb_ok start lsize (play D0 h) →
  ∃ C' x' s1 s2, writei fuel ip a off (Z.of_nat (length data)) s = Done (Z.of_nat (length data)) s1 ∧
    commit fuel s1 = Done tt s2 ∧ written size sb C x data off C' x' ∧ home start lsize C' (disk_of s2) ∧
    ∀ late early E (r : kst W),
      fs_writes (k_fs s2) = late ++ early ++ h →
      rtc (recovery_crash (W := W) fuel i p size) (play (play D0 h) early) E → reboot i p size E r →
      ∃ r', initlog fuel 1 r = Done tt r' ∧
        (home start lsize (play D0 h) (disk_of r') ∨ home start lsize C' (disk_of r')).
Proof.
  intros Hgeo Hfit Hdata Hfull Hhdr Hsb.
  destruct (writei_written i p D0 size fuel start lsize sb Hgeo h C [] ip x a data off c s Hfit) as (C' & bl' & x' & s1 & He & Hfx & K & Hw & Hr & Hne).
  pose proof Hgeo as [G1 G2 G3 G4]. pose proof (fx_tx _ _ _ _ _ _ _ _ _ _ _ _ _ _ Hfx) as [T1 T2 T3 T4 T5 T6].
  assert (transaction i p D0 size start lsize h C' bl' s1) as Htx.
  { pose proof (ly_boot _ _ _ _ G4). split; try done; [lia| |by apply Hne|].
    - split; [done| |destruct Hr; lia|destruct Hr; lia]. intros b Hb. destruct (T3 b Hb) as [Hbr Hbl]. split; [done|]. intros ?. apply Hbl. by left.
    - split; [unfold in_log; lia|]. intros H1. destruct (T3 1 H1) as [_ Hbl]. apply Hbl. by right. }
  destruct (commit_home fuel G2 i p D0 size start lsize h C' bl' s1 Htx) as (s2 & Hc & Hh).
  exists C', x', s1, s2. do 4 (split; [done|]). intros late early E r Hwr HE Hrb.
  by eapply (commit_recovers fuel G2 i p D0 size start lsize h C' bl' s1 Htx s2).
Qed.

(** A disk of 100 blocks: the log in the blocks 2 to 31, 16 inodes, the free map in
    block 34, and inode 1, a file of 5 bytes in block 35. *)
Module FsDemo.

Definition sb : superblock := mkSb 100 65 16 30 2 32 34.
Definition super : list Z := put 0 (concat (le32 <$> [100; 65; 16; 30; 2; 32; 34])) zeros.
Definition map : list Z := put 0 [255; 255; 255; 255; 15] zeros.
Definition file : inode := mkInode 1 1 1 I_VALID T_FILE 0 0 1 5 (35 :: replicate 12 0).
Definition d : gmap Z (list Z) :=
  {[ 1 := super; 32 := put_dinode 64 file zeros; 34 := map; 35 := put 0 [104; 101; 108; 108; 111] zeros ]}.
Definition D : disk := BioLaw.Demo.block_of d.
Definition table : list inode := file :: replicate 49 inode0.
Definition the_log : log := mkLog 2 30 1 0 1 0 (replicate 30 0).

Lemma fs_blocks : map_Forall (λ _ v, length v = Z.to_nat BSIZE) d.
Proof. apply map_Forall_to_list. vm_compute. repeat constructor. Qed.

(** The state in which the disk is mounted, the file open and a transaction begun. *)
Definition dress {W} (s0 : kst W) : kst W :=
  set_k_fs (set_fs_inodes table (set_fs_sb sb (set_fs_log the_log (k_fs s0)))) s0.
#[global] Instance no_devices : DevSw (gmap Z vobj) := {| devsw_read _ := None; devsw_write _ := None |}.

Lemma geo : geometry 100 1 2 30 sb.
Proof.
  split; [lia|lia|lia|]. split; [reflexivity|lia|cbn; lia|split; [cbn; lia|vm_compute; reflexivity]|vm_compute; reflexivity].
Qed.

Lemma tx_dress {W} (s0 : kst W) :
  bio 0 Sched.Demo.p1 D 100 [] D ∅ ∅ s0 → tx 0 Sched.Demo.p1 D 100 2 30 [] D [] ∅ (dress s0).
Proof.
  intros Hb. split.
  - eapply bio_same; [exact Hb| |reflexivity..]. apply (krun_frame _ _ _ _ s0); [reflexivity..|apply Hb].
  - split; reflexivity.
  - intros x Hx. by apply not_elem_of_nil in Hx.
  - constructor.
  - cbn. lia.
  - reflexivity.
Qed.

Lemma marks : forallb (λ m, in_use sb D m || (35 <? m)) (seqZ 0 100) = true.
Proof. vm_compute. reflexivity. Qed.

Lemma demo_map : map_ok 100 sb D.
Proof.
  intros m Hm Hf. pose proof marks as Ha. rewrite forallb_forall in Ha.
  specialize (Ha m (proj1 (list_elem_of_In _ _) (proj2 (elem_of_seqZ 0 100 m) ltac:(lia)))).
  rewrite Hf in Ha. apply Z.ltb_lt in Ha. unfold is_data. change (sb_bmapstart sb + (100 - 1) / BPB) with 34. lia.
Qed.

Lemma demo_slot b : -1 ≤ b < MAXFILE → slot_of D file b = if decide (b = 0) then 35 else 0.
Proof.
  intros Hb. unfold slot_of. change (indirect file) with 0. destruct (Z.ltb_spec b 0); [by rewrite decide_False by lia|].
  destruct (Z.ltb_spec b (Z.of_nat NDIRECT)); [|by rewrite decide_False by (unfold NDIRECT in *; lia)].
  destruct (decide (b = 0)) as [->|Hne]; [reflexivity|]. replace (Z.to_nat b) with (S (Z.to_nat (b - 1))) by lia.
  change (replicate 12 0 !!! Z.to_nat (b - 1) = 0). apply lookup_total_replicate_2. unfold NDIRECT in *. lia.
Qed.

Lemma demo_owns : owns 100 sb D file.
Proof.
  split; [reflexivity| |].
  - intros b Hb. rewrite demo_slot by done. destruct (decide (b = 0)); [|done]. intros _. split; [|vm_compute; reflexivity].
    unfold is_data. change (sb_bmapstart sb + (100 - 1) / BPB) with 34. lia.
  - intros b b' Hb Hb'. rewrite !demo_slot by done. destruct (decide (b = 0)), (decide (b' = 0)); lia.
Qed.

Lemma demo_avail k : (k ≤ 2)%nat → avail 100 sb D k.
Proof.
  intros Hk. exists {[ 36; 37 ]}. split; [etrans; [exact Hk|]; by vm_compute|].
  intros m Hm. apply elem_of_union in Hm as [->%elem_of_singleton| ->%elem_of_singleton]; (split; [lia|vm_compute; reflexivity]).
Qed.

Lemma file_wf : inode_wf file.
Proof.
  split; [unfold file, T_FILE; cbn; lia..|reflexivity|]. intros k v Hk.
  change (i_addrs file) with (35 :: replicate 12 0) in Hk. destruct k as [|k]; [injection Hk as <-; lia|]. apply lookup_replicate in Hk as [-> _]. lia.
Qed.

Lemma demo_tx : ∃ s : kst (gmap Z vobj), tx 0 Sched.Demo.p1 D 100 2 30 [] D [] ∅ s ∧ sb_is sb s ∧ inodes s = table.
Proof. exists (dress (BioLaw.Demo.st_of ∅ d 100)). split; [apply tx_dress, BioLaw.Demo.bio_st_of, fs_blocks|]. split; reflexivity. Qed.

Lemma fs_room k : (k < 20)%nat → room 30 k [] ∅.
Proof. intros Hk. split; [rewrite map_size_empty; unfold NBUF|]; cbn [length]; lia. Qed.

Lemma demo_fits : ∃ s : kst (gmap Z vobj),
  write_fits 0 Sched.Demo.p1 D 100 2 30 sb [] D [] 0 file (FromKernel [33; 33]) [33; 33] 5 1 s.
Proof.
  destruct demo_tx as (s & Ht & Hsb & Hi). exists s. split.
  - split; [exact Ht|exact Hsb|rewrite Hi; reflexivity|reflexivity|exact demo_owns|exact demo_map].
  - apply source_kernel.
  - discriminate.
  - cbn. lia.
  - intros b Hb Hlt. cbn in Hlt. unfold BSIZE in Hlt. replace b with 0 by lia. discriminate.
  - change (MAXFILE * BSIZE) with 71680. cbn. lia.
  - change (MAXFILE * BSIZE) with 71680. cbn. lia.
  - split; [lia|]. intros _. by vm_compute.
  - apply fs_room; lia.
  - apply demo_avail. lia.
  - exact file_wf.
Qed.

End FsDemo.

Lemma block_allocator_witness : ∃ (s s' : kst (gmap Z vobj)), balloc 1 1 s = Done 36 s'.
Proof.
  destruct FsDemo.demo_tx as (s & Ht & Hsb & _).
  destruct (block_allocator 0 Sched.Demo.p1 FsDemo.D 100 1 2 30 FsDemo.sb [] FsDemo.D [] s) as [Hb _];
    [exact FsDemo.geo|exact Ht|exact Hsb|split; [lia|vm_compute; reflexivity]|exact FsDemo.demo_map|apply FsDemo.fs_room; lia|].
  destruct (Hb 36) as (C' & bl' & s' & He & _).
  - split; [lia|]. split; [vm_compute; reflexivity|]. intros m Hm.
    pose proof FsDemo.marks as Ha. rewrite forallb_forall in Ha.
    specialize (Ha m (proj1 (list_elem_of_In _ _) (proj2 (elem_of_seqZ 0 100 m) ltac:(lia)))).
    apply orb_prop in Ha as [Ha|Ha%Z.ltb_lt]; [exact Ha|lia].
  - exists s, s'. exact He.
Defined.

Lemma inode_references_witness : ∃ (s : kst (gmap Z vobj)) I', idup 0 s = Done 0%nat (set_table I' s) ∧ refs I' 1 1 = 2.
Proof.
  destruct FsDemo.demo_tx as (s & Ht & Hsb & Hi).
  assert (icache_ok FsDemo.table) as Hok.
  { split; [reflexivity| |].
    - intros [|k] x Hk; [injection Hk as <-; cbn; lia|]. apply lookup_replicate in Hk as [-> _]. cbn. lia.
    - intros [|j] [|k] x y Hj Hk Hr Hy; [reflexivity|..].
      + apply lookup_replicate in Hk as [-> _]. cbn in Hy. lia.
      + apply lookup_replicate in Hj as [-> _]. destruct Hr as [Hr _]. cbn in Hr. lia.
      + apply lookup_replicate in Hk as [-> _]. cbn in Hy. lia. }
  destruct (inode_references (W := gmap Z vobj) 0 Sched.Demo.p1 1 s) as [_ H2]; [apply Ht|rewrite Hi; exact Hok|].
  destruct (H2 0%nat FsDemo.file) as [H3 _]; [rewrite Hi; reflexivity|cbn; lia|].
  destruct (H3 ltac:(cbn; lia)) as (I' & He & _ & Hr & _). exists s, I'. split; [exact He|]. rewrite Hi in Hr. exact Hr.
Defined.

Lemma inode_roundtrip_witness : ∃ (s s' : kst (gmap Z vobj)), iupdate 1 0 s = Done tt s'.
Proof.
  destruct FsDemo.demo_tx as (s & Ht & Hsb & Hi).
  destruct (inode_roundtrip 0 Sched.Demo.p1 FsDemo.D 100 1 2 30 FsDemo.sb [] FsDemo.D [] 0 FsDemo.file s) as (C' & bl' & s' & He & _);
    [exact FsDemo.geo|exact Ht|exact Hsb|apply FsDemo.fs_room; lia|rewrite Hi; reflexivity|exact FsDemo.file_wf|reflexivity|cbn; lia|discriminate|].
  exists s, s'. exact He.
Defined.

Lemma file_write_read_witness :
  ∃ (s s1 s2 : kst (gmap Z vobj)), writei 1 0 (FromKernel [33; 33]) 5 2 s = Done 2 s1 ∧ readi 1 0 ToKernel 5 2 s1 = Done (2, [33; 33]) s2.
Proof.
  destruct FsDemo.demo_fits as (s & Hfit).
  destruct (file_write_read 0 Sched.Demo.p1 FsDemo.D 100 1 2 30 FsDemo.sb [] FsDemo.D [] 0 FsDemo.file (FromKernel [33; 33]) [33; 33] 5 1 s)
    as (C' & bl' & x' & s1 & s2 & H1 & _ & _ & _ & H2); [exact FsDemo.geo|exact Hfit|].
  exists s, s1, s2. split; [exact H1|exact H2].
Defined.

Lemma file_write_atomic_witness :
  ∃ (s s1 s2 : kst (gmap Z vobj)), writei 1 0 (FromKernel [33; 33]) 5 2 s = Done 2 s1 ∧ commit 1 s1 = Done tt s2.
Proof.
  destruct FsDemo.demo_fits as (s & Hfit).
  destruct (file_write_atomic 0 Sched.Demo.p1 FsDemo.D 100 1 2 30 FsDemo.sb [] FsDemo.D 0 FsDemo.file (FromKernel [33; 33]) [33; 33] 5 1 s)
    as (C' & x' & s1 & s2 & H1 & H2 & _); [exact FsDemo.geo|exact Hfit|discriminate| |vm_compute; reflexivity|split; vm_compute; reflexivity|].
  - intros m. apply (bio_len _ _ _ _ _ _ _ _ _ (BioLaw.Demo.bio_st FsDemo.d 100 FsDemo.fs_blocks)).
  - exists s, s1, s2. split; [exact H1|exact H2].
Defined.
