(* ===== verification/Dir.v ===== *)
(** Directories: what [dirlookup] and [dirlink] of fs.c do to the names in a
    directory, inside a transaction. *)
From S2P Require Import Prelude Mem KState Spinlock Sched Sleeplock Layout Path Bio BioLaw Log LogLaw Services Fs Icache FsLaw FsSpec.

(** * Names *)

(** A name as the kernel passes it: no NUL, and bytes. *)
Definition name_ok (name : list Z) : Prop := Forall (λ c, 0 < c < 256) name.

Lemma strncmp_list_take n s t : strncmp_list n (take n s) t = strncmp_list n s t.
Proof.
  revert s t. induction n as [|n IH]; intros s t; [done|]. destruct s as [|a s]; [done|]. cbn [take strncmp_list tail]. by rewrite IH.
Qed.

(** Against a name padded with NULs, as [strncpy] leaves it. *)
Lemma strncmp_list_pad n : ∀ s t pad, name_ok s → name_ok t → (n ≤ length t + pad)%nat →
  strncmp_list n s (t ++ replicate pad 0) = 0 ↔ take n s = take n t.
Proof.
  induction n as [|n IH]; intros s t pad Hs Ht Hl; [done|].
  assert (∀ a b, 0 < a < 256 → 0 < b < 256 → u8 a - u8 b = 0 → a = b) as Hu by (intros a b Ha Hb; unfold u8; rewrite !Z.mod_small by lia; lia).
  assert (∀ a, 0 < a < 256 → u8 a ≠ 0) as Hu0 by (intros a Ha; unfold u8; rewrite Z.mod_small; lia).
  destruct Hs as [|a s Ha Hs], Ht as [|b t Hb Ht].
  - cbn [app take strncmp_list]. destruct pad; [cbn in Hl; lia|]. done.
  - cbn [app take strncmp_list]. cbn [Z.eqb negb andb]. split; [|done]. intros E. change (u8 0) with 0 in E. destruct (Hu0 b Hb). lia.
  - cbn [app take strncmp_list]. destruct pad as [|pad]; [cbn in Hl; lia|]. cbn [replicate]. destruct (Z.eqb_spec a 0); [lia|].
    cbn [negb andb]. split; [|done]. intros E. change (u8 0) with 0 in E. destruct (Hu0 a Ha). lia.
  - cbn [app take strncmp_list tail]. destruct (Z.eqb_spec a 0); [lia|]. cbn [negb andb]. destruct (Z.eqb_spec a b) as [->|Hne].
    + rewrite IH by (done || cbn in Hl; lia). split; [by intros ->|by intros [= ->]].
    + split; [intros E; by destruct Hne; apply Hu|by intros [= ->]].
Qed.

Lemma dirent_fields name inum : 0 ≤ inum < 2^16 →
  de_inum (dirent_of name inum) = inum ∧ de_name (dirent_of name inum) = take DIRSIZ (take DIRSIZ name ++ replicate DIRSIZ 0).
Proof.
  intros Hi. split.
  - unfold de_inum, half, get, dirent_of. cbn [le16 app drop take]. rewrite take_0. unfold of_le. cbn [foldr]. unfold u8. change (2^8) with 256. change (2^16) with 65536 in Hi. Z.div_mod_to_equations. lia.
  - unfold de_name, get, dirent_of. cbn [le16 app drop]. apply take_idemp.
Qed.

Lemma namecmp_dirent name name' inum : name_ok name → name_ok name' → 0 ≤ inum < 2^16 →
  namecmp name (de_name (dirent_of name' inum)) = 0 ↔ take DIRSIZ name = take DIRSIZ name'.
Proof.
  intros Hn Hn' Hi. destruct (dirent_fields name' inum Hi) as [_ ->]. unfold namecmp.
  assert (take DIRSIZ (take DIRSIZ name' ++ replicate DIRSIZ 0) = take DIRSIZ name' ++ replicate (DIRSIZ - length (take DIRSIZ name')) 0) as ->.
  { rewrite take_app, take_idemp, take_replicate. f_equal. f_equal. lia. }
  rewrite strncmp_list_pad; [by rewrite take_idemp|done|by apply Forall_take|lia].
Qed.

(** * Entries *)

(** Entry [j] of the directory. *)
Definition entry (C : disk) (x : inode) (j : Z) : list Z := file_bytes C x (dirent_size * j) dirent_size.
Definition hit (name de : list Z) : bool := negb (de_inum de =? 0) && (namecmp name (de_name de) =? 0).

Lemma hit_dirent name name' inum : name_ok name → name_ok name' → 0 < inum < 2^16 →
  hit name' (dirent_of name inum) = bool_decide (take DIRSIZ name' = take DIRSIZ name).
Proof.
  intros Hn Hn' Hi. unfold hit. destruct (dirent_fields name inum ltac:(lia)) as [-> _]. destruct (Z.eqb_spec inum 0); [lia|]. cbn [negb andb].
  pose proof (namecmp_dirent name' name inum Hn' Hn ltac:(lia)).
  destruct (Z.eqb_spec (namecmp name' (de_name (dirent_of name inum))) 0), (bool_decide_reflect (take DIRSIZ name' = take DIRSIZ name)); tauto.
Qed.

(** The first entry from [j] on that is [P], among [k]. *)
Fixpoint scan (P : list Z → bool) (C : disk) (x : inode) (k : nat) (j : Z) : option Z :=
  match k with
  | O => None
  | S k' => if P (entry C x j) then Some j else scan P C x k' (j + 1)
  end.
Definition dir_size (x : inode) : Z := i_size x / dirent_size.
(** The entry of a name, and the place for a new one. *)
Definition dir_find (C : disk) (x : inode) (name : list Z) : option Z := scan (hit name) C x (Z.to_nat (dir_size x)) 0.
Definition dir_free (C : disk) (x : inode) : Z := default (dir_size x) (scan (λ de, de_inum de =? 0) C x (Z.to_nat (dir_size x)) 0).
(** The inode of a name. *)
Definition dir_map (C : disk) (x : inode) (name : list Z) : option Z := (λ j, de_inum (entry C x j)) <$> dir_find C x name.

Lemma scan_Some P C x k j r : scan P C x k j = Some r →
  j ≤ r < j + Z.of_nat k ∧ P (entry C x r) = true ∧ ∀ j', j ≤ j' < r → P (entry C x j') = false.
Proof.
  revert j. induction k as [|k IH]; intros j; cbn [scan]; [done|]. destruct (P (entry C x j)) eqn:E.
  - intros [= <-]. split; [lia|]. split; [done|]. intros j' Hj. lia.
  - intros H. apply IH in H as (H1 & H2 & H3). split; [lia|]. split; [done|]. intros j' Hj.
    destruct (decide (j' = j)) as [->|]; [done|]. apply H3. lia.
Qed.

Lemma scan_None P C x k j : scan P C x k j = None ↔ ∀ j', j ≤ j' < j + Z.of_nat k → P (entry C x j') = false.
Proof.
  revert j. induction k as [|k IH]; intros j; cbn [scan]; [split; [intros _ j' Hj; lia|done]|]. destruct (P (entry C x j)) eqn:E.
  - split; [done|]. intros H. rewrite H in E by lia. done.
  - rewrite IH. split; intros H j' Hj; [|apply H; lia]. destruct (decide (j' = j)) as [->|]; [done|]. apply H. lia.
Qed.

(** The first one is determined by its properties. *)
Lemma scan_first P C x k r : 0 ≤ r < Z.of_nat k → P (entry C x r) = true → (∀ j, 0 ≤ j < r → P (entry C x j) = false) → scan P C x k 0 = Some r.
Proof.
  intros Hr HP Hl. destruct (scan P C x k 0) as [r'|] eqn:E.
  - apply scan_Some in E as (H1 & H2 & H3). f_equal. destruct (Z.lt_trichotomy r r') as [?|[?|?]]; [|done|].
    + rewrite H3 in HP by lia. done.
    + rewrite Hl in H2 by lia. done.
  - rewrite scan_None in E. rewrite E in HP by lia. done.
Qed.

Lemma dir_more x j : i_size x mod dirent_size = 0 → (dirent_size * j <? i_size x) = (j <? dir_size x).
Proof.
  intros Hw. unfold dir_size, dirent_size in *. destruct (Z.ltb_spec (16 * j) (i_size x)), (Z.ltb_spec j (i_size x / 16)); try done; Z.div_mod_to_equations; lia.
Qed.

(** The place for a new entry is empty, or the end. *)
Lemma dir_free_range C x : 0 ≤ dir_size x → 0 ≤ dir_free C x ≤ dir_size x ∧ (dir_free C x < dir_size x → de_inum (entry C x (dir_free C x)) = 0).
Proof.
  intros H0. unfold dir_free. destruct (scan _ _ _ _ _) as [r|] eqn:E; cbn [default from_option id]; [|lia].
  apply scan_Some in E as (H1 & H2 & _). split; [lia|]. intros _. by apply Z.eqb_eq.
Qed.

(** ** A new entry *)
Section Written.
Context (size : Z) (sb : superblock) (C C' : disk) (x x' : inode) (j : Z) (de : list Z).
Context (Hde : Z.of_nat (length de) = dirent_size) (Hw : written size sb C x de (dirent_size * j) C' x').
Context (Hj : 0 ≤ j ≤ dir_size x) (Hmod : i_size x mod dirent_size = 0).

Lemma dir_size_written : dir_size x' = Z.max (dir_size x) (j + 1) ∧ i_size x' mod dirent_size = 0 ∧ i_size x' = Z.max (i_size x) (dirent_size * j + dirent_size).
Proof.
  pose proof (wn_size _ _ _ _ _ _ _ _ Hw) as E. rewrite Hde in E. unfold dir_size in *. rewrite E. unfold dirent_size in *.
  split; [|split; [|done]]; destruct (Z.max_spec (i_size x) (16 * j + 16)) as [[? ->]|[? ->]]; Z.div_mod_to_equations; lia.
Qed.

Lemma entry_written j' : 0 ≤ j' < dir_size x' → entry C' x' j' = if decide (j' = j) then de else entry C x j'.
Proof.
  intros Hj'. destruct dir_size_written as (Esz & _ & Es).
  assert (∀ k, 0 ≤ k < 16 → 0 ≤ dirent_size * j' + k < i_size x') as Hin.
  { intros k Hk. rewrite Es. rewrite Esz in Hj'. pose proof (Z.div_mod (i_size x) dirent_size ltac:(done)) as Hd. fold (dir_size x) in Hd.
    rewrite Hmod in Hd. unfold dirent_size in *. lia. }
  apply list_eq_same_length with 16%nat; [|unfold entry; by rewrite length_file_bytes|].
  { destruct (decide (j' = j)); [unfold dirent_size in Hde; lia|unfold entry; by rewrite length_file_bytes]. }
  intros k a b Hk. unfold entry at 1, file_bytes. rewrite list_lookup_fmap, lookup_seqZ_lt by (unfold dirent_size; lia).
  cbn [fmap option_fmap option_map]. intros [= <-] Hb. rewrite (wn_byte _ _ _ _ _ _ _ _ Hw) by (apply Hin; lia). rewrite Hde.
  unfold dirent_size in *. destruct (decide (j' = j)) as [->|Hne].
  - rewrite decide_True by lia. replace (Z.to_nat (16 * j + Z.of_nat k - 16 * j)) with k by lia. by apply list_lookup_total_correct.
  - rewrite decide_False by lia. unfold entry, file_bytes, dirent_size in Hb. rewrite list_lookup_fmap, lookup_seqZ_lt in Hb by lia.
    cbn [fmap option_fmap option_map] in Hb. by injection Hb.
Qed.

(** The names after the new entry. *)
Lemma dir_find_written name name' inum :
  de = dirent_of name inum → name_ok name → name_ok name' → 0 < inum < 2^16 → (j < dir_size x → de_inum (entry C x j) = 0) → dir_find C x name = None →
  dir_find C' x' name' = if decide (take DIRSIZ name' = take DIRSIZ name) then Some j else dir_find C x name'.
Proof.
  intros Ede Hn Hn' Hi Hfree Hnone. destruct dir_size_written as (Esz & _ & _).
  assert (∀ j', 0 ≤ j' < dir_size x' → j' ≠ j → entry C' x' j' = entry C x j') as Hold by (intros j' Hj' Hne; rewrite entry_written by done; by rewrite decide_False).
  assert (entry C' x' j = de) as Hnew by (rewrite entry_written by lia; by rewrite decide_True).
  assert (hit name' de = bool_decide (take DIRSIZ name' = take DIRSIZ name)) as Hhit by (rewrite Ede; by apply hit_dirent).
  unfold dir_find in *. destruct (decide (take DIRSIZ name' = take DIRSIZ name)) as [E|E].
  - apply scan_first; [lia|rewrite Hnew, Hhit; by apply bool_decide_eq_true_2|]. intros j' Hj'. rewrite Hold by lia. rewrite scan_None in Hnone.
    specialize (Hnone j' ltac:(lia)). unfold hit, namecmp in *. by rewrite <- (strncmp_list_take DIRSIZ name'), E, strncmp_list_take.
  - assert (∀ j', 0 ≤ j' < dir_size x' → hit name' (entry C' x' j') = if decide (j' < dir_size x) then hit name' (entry C x j') else false) as Hall.
    { intros j' Hj'. destruct (decide (j' = j)) as [->|Hne].
      - rewrite Hnew, Hhit, bool_decide_eq_false_2 by done. destruct (decide (j < dir_size x)); [|done]. unfold hit. by rewrite Hfree.
      - rewrite Hold by done. by rewrite decide_True by lia. }
    destruct (scan (hit name') C x _ 0) as [r|] eqn:Es.
    + apply scan_Some in Es as (H1 & H2 & H3). apply scan_first; [lia|rewrite Hall by lia; by rewrite decide_True by lia|].
      intros j' Hj'. rewrite Hall, decide_True by lia. apply H3. lia.
    + rewrite scan_None in Es |- *. intros j' Hj'. rewrite Hall by lia. destruct (decide _); [apply Es; lia|done].
Qed.
End Written.

(** The map after [dirlink]. *)
Lemma dir_map_written size sb C C' x x' de (j := dir_free C x) :
  Z.of_nat (length de) = dirent_size → written size sb C x de (dirent_size * j) C' x' → i_size x mod dirent_size = 0 → 0 ≤ i_size x →
  ∀ name name' inum, de = dirent_of name inum → name_ok name → name_ok name' → 0 < inum < 2^16 → dir_find C x name = None →
  dir_map C' x' name' = if decide (take DIRSIZ name' = take DIRSIZ name) then Some inum else dir_map C x name'.
Proof.
  intros Hde Hw Hmod Hs name name' inum Ede Hn Hn' Hi Hnone. assert (0 ≤ dir_size x) as H0 by (by apply Z.div_pos).
  destruct (dir_free_range C x H0) as [Hj Hfree]. fold j in Hj, Hfree. destruct (dir_size_written size sb C C' x x' j de Hde Hw Hmod) as (Esz & _ & _).
  pose proof (entry_written size sb C C' x x' j de Hde Hw Hmod) as Hent. unfold dir_map.
  rewrite (dir_find_written size sb C C' x x' j de Hde Hw Hj Hmod name name' inum) by done.
  destruct (decide (take DIRSIZ name' = take DIRSIZ name)) as [E|E].
  - cbn [fmap option_fmap option_map]. rewrite Hent, decide_True, Ede by (done || lia). f_equal. apply dirent_fields. lia.
  - destruct (dir_find C x name') as [r|] eqn:Er; [|done]. cbn [fmap option_fmap option_map]. apply scan_Some in Er as (R1 & R2 & _).
    rewrite Hent by lia. destruct (decide (r = j)) as [->|]; [|done]. unfold hit in R2. rewrite Hfree in R2 by lia. done.
Qed.

(** * The operations *)

Section Dir.
Context {W : Type} {VO : VmOps W} {DV : DevSw W} (i : nat) (p : proc) (D0 : disk).
Context (size : Z) (fuel : nat) (start lsize : Z) (sb : superblock) (Hgeo : geometry size fuel start lsize sb).
Context (h : list (Z * list Z)) (dp : nat).
Implicit Types s : kst W.

(** A directory in a transaction. *)
Record dir_ok (C : disk) (bl : list Z) (x : inode) s : Prop := {
  do_fx : fx i p D0 size start lsize sb h C bl ∅ dp x s;
  do_room : room lsize 0 bl ∅;
  do_type : i_type x = T_DIR;
  do_size : 0 ≤ i_size x ≤ MAXFILE * BSIZE;
  do_whole : i_size x mod dirent_size = 0;
  do_holes : no_holes C x (i_size x);
}.

Lemma dir_inode C bl x s : dir_ok C bl x s → get_inode dp s = Done x s.
Proof. intros Hd. apply get_inode_eq, Hd. Qed.

Lemma read_dirent_ok C bl x s j :
  dir_ok C bl x s → 0 ≤ j < dir_size x →
  ∃ s', read_dirent fuel dp (dirent_size * j) s = Done (entry C x j) s' ∧ dir_ok C bl x s' ∧ fkeeps dp s s'.
Proof.
  intros [F R T S1 S2 S3] Hj. destruct Hgeo as [G1 G2 G3 G4]. unfold dir_size, dirent_size in *. change (MAXFILE * BSIZE) with 71680 in *.
  pose proof (readi_ok i p D0 size G1 fuel G2 start lsize G3 sb G4 h C bl dp x s (16 * j) 16 F R) as Hr.
  rewrite T in Hr. apply wp_alone in Hr as (r & s' & E & -> & F' & K'); [|done|done|change (MAXFILE * BSIZE) with 71680; lia|Z.div_mod_to_equations; lia|lia].
  rewrite Z.min_l in E by (Z.div_mod_to_equations; lia). exists s'. split; [|split; [by split|done]].
  unfold read_dirent. mstep. unfold dirent_size. rewrite E. done.
Qed.

(** [dirlookup] finds the first entry with the name. *)
Lemma dirlookup_loop_ok C bl x name : ∀ k j s,
  dir_ok C bl x s → 0 ≤ j ≤ dir_size x → dir_size x - j < Z.of_nat k →
  ∃ s', dir_ok C bl x s' ∧ fkeeps dp s s' ∧
    dirlookup_loop fuel k dp name (dirent_size * j) s =
      match scan (hit name) C x (Z.to_nat (dir_size x - j)) j with
      | None => Done None s'
      | Some r => rbind (iget 1 (de_inum (entry C x r)) s') (λ ip, ret (Some (ip, dirent_size * r)))
      end.
Proof.
  induction k as [|k IH]; intros j s Hd Hj Hk; [lia|]. cbn [dirlookup_loop]. mstep. rewrite (dir_inode C bl x) by done. mstep.
  pose proof (do_whole _ _ _ _ Hd) as Hw. pose proof (do_size _ _ _ _ Hd) as Hs.
  rewrite (dir_more x j) by done.
  destruct (Z.ltb_spec j (dir_size x)) as [Hlt|Hge].
  - mstep. destruct (read_dirent_ok C bl x s j Hd ltac:(lia)) as (s1 & E1 & D1 & K1). rewrite E1. mstep.
    replace (Z.to_nat (dir_size x - j)) with (S (Z.to_nat (dir_size x - (j + 1)))) by lia. cbn [scan].
    destruct (IH (j + 1) s1 D1 ltac:(lia) ltac:(lia)) as (s2 & D2 & K2 & E2).
    replace (dirent_size * j + dirent_size) with (dirent_size * (j + 1)) by lia. unfold hit at 1.
    assert (∃ s', dir_ok C bl x s' ∧ fkeeps dp s s' ∧ dirlookup_loop fuel k dp name (dirent_size * (j + 1)) s1 =
      match scan (hit name) C x (Z.to_nat (dir_size x - (j + 1))) (j + 1) with
      | None => Done None s'
      | Some r => rbind (iget 1 (de_inum (entry C x r)) s') (λ ip, ret (Some (ip, dirent_size * r)))
      end) as Hnext by (exists s2; split; [done|]; split; [by etrans|done]).
    destruct (de_inum (entry C x j) =? 0); [exact Hnext|]. cbn [negb andb].
    destruct (namecmp name (de_name (entry C x j)) =? 0); [|exact Hnext]. exists s1. split; [done|]. split; [done|].
    by rewrite (fx_dev _ _ _ _ _ _ _ _ _ _ _ _ _ _ (do_fx _ _ _ _ D1)).
  - exists s. replace (Z.to_nat (dir_size x - j)) with 0%nat by lia. done.
Qed.

Lemma dirlookup_eq C bl x name s :
  dir_ok C bl x s →
  ∃ s', dir_ok C bl x s' ∧ fkeeps dp s s' ∧
    dirlookup fuel dp name s =
      match dir_find C x name with
      | None => Done None s'
      | Some r => rbind (iget 1 (de_inum (entry C x r)) s') (λ ip, ret (Some (ip, dirent_size * r)))
      end.
Proof.
  intros Hd. pose proof (do_size _ _ _ _ Hd) as Hs. assert (0 ≤ dir_size x) by (apply Z.div_pos; [lia|done]).
  destruct (dirlookup_loop_ok C bl x name (dir_entries x) 0 s Hd) as (s' & D' & K' & E'); [lia|unfold dir_entries, dir_size in *; lia|].
  rewrite Z.sub_0_r in E'. exists s'. split; [done|]. split; [done|]. unfold dirlookup. mstep. rewrite (dir_inode C bl x) by done. mstep.
  rewrite (do_type _ _ _ _ Hd). exact E'.
Qed.

Lemma dirlink_loop_ok C bl x : ∀ k j s,
  dir_ok C bl x s → 0 ≤ j ≤ dir_size x → dir_size x - j < Z.of_nat k →
  ∃ s', dir_ok C bl x s' ∧ fkeeps dp s s' ∧
    dirlink_loop fuel k dp (dirent_size * j) s =
      Done (dirent_size * default (dir_size x) (scan (λ de, de_inum de =? 0) C x (Z.to_nat (dir_size x - j)) j)) s'.
Proof.
  induction k as [|k IH]; intros j s Hd Hj Hk; [lia|]. cbn [dirlink_loop]. mstep. rewrite (dir_inode C bl x) by done. mstep.
  pose proof (do_whole _ _ _ _ Hd) as Hw. pose proof (do_size _ _ _ _ Hd) as Hs.
  rewrite (dir_more x j) by done.
  destruct (Z.ltb_spec j (dir_size x)) as [Hlt|Hge].
  - mstep. destruct (read_dirent_ok C bl x s j Hd ltac:(lia)) as (s1 & E1 & D1 & K1). rewrite E1. mstep.
    replace (Z.to_nat (dir_size x - j)) with (S (Z.to_nat (dir_size x - (j + 1)))) by lia. cbn [scan].
    destruct (de_inum (entry C x j) =? 0); [by exists s1|].
    destruct (IH (j + 1) s1 D1 ltac:(lia) ltac:(lia)) as (s2 & D2 & K2 & E2).
    replace (dirent_size * j + dirent_size) with (dirent_size * (j + 1)) by lia. exists s2. split; [done|]. split; [by etrans|done].
  - exists s. replace (Z.to_nat (dir_size x - j)) with 0%nat by lia. cbn [scan default from_option id]. replace (dir_size x) with j by lia. done.
Qed.

(** A new entry fits: into the log, into free blocks, and into the largest file. *)
Record link_fits (C : disk) (bl : list Z) (x : inode) : Prop := {
  lf_room : room lsize 9 bl ∅;
  lf_avail : avail size sb C 2;
  lf_inum : 0 ≤ i_inum x < sb_ninodes sb;
  lf_inode : inode_wf x;
  lf_max : dirent_size * dir_free C x + dirent_size ≤ MAXFILE * BSIZE;
}.

Lemma length_dirent_of name inum : Z.of_nat (length (dirent_of name inum)) = dirent_size.
Proof. unfold dirent_of, DIRSIZ, dirent_size. rewrite length_app, length_take, length_app, length_take, length_replicate. cbn [length le16]. lia. Qed.

Lemma dirlink_new C bl x name inum s :
  dir_ok C bl x s → link_fits C bl x → dir_find C x name = None →
  ∃ C' bl' x' s', dirlink fuel dp name inum s = Done 0 s' ∧ dir_ok C' bl' x' s' ∧ fkeeps dp s s' ∧
    written size sb C x (dirent_of name inum) (dirent_size * dir_free C x) C' x'.
Proof.
  intros Hd [L1 L2 L3 L4 L5] Hnone. pose proof (do_size _ _ _ _ Hd) as Hs. pose proof (do_whole _ _ _ _ Hd) as Hmod.
  assert (0 ≤ dir_size x) as H0 by (apply Z.div_pos; [lia|done]). destruct (dir_free_range C x H0) as [Hfr _].
  destruct (dirlookup_eq C bl x name s Hd) as (s1 & D1 & K1 & E1). rewrite Hnone in E1.
  destruct (dirlink_loop_ok C bl x (dir_entries x) 0 s1 D1) as (s2 & D2 & K2 & E2); [lia|unfold dir_entries, dir_size in *; lia|].
  rewrite Z.sub_0_r, Z.mul_0_r in E2. fold (dir_free C x) in E2. pose proof (length_dirent_of name inum) as Hl.
  assert (write_fits i p D0 size start lsize sb h C bl dp x (FromKernel (dirent_of name inum)) (dirent_of name inum) (dirent_size * dir_free C x) 1 s2) as Hfit.
  { split; [apply D2|done|by rewrite (do_type _ _ _ _ Hd)|done|apply (do_holes _ _ _ _ Hd)|..]; rewrite ?Hl; try done.
    - split; [|lia]. unfold dir_size, dirent_size in *. Z.div_mod_to_equations. lia.
    - split; [lia|]. intros _. unfold dirent_size, BSIZE. Z.div_mod_to_equations. lia. }
  destruct (writei_written i p D0 size fuel start lsize sb Hgeo h C bl dp x _ _ _ _ s2 Hfit) as (C' & bl' & x' & s3 & E3 & F3 & K3 & Hw & Hr & _).
  rewrite Hl in E3. exists C', bl', x', s3. split.
  - unfold dirlink. mstep. rewrite E1. mstep. rewrite (dir_inode C bl x) by done. mstep. rewrite E2. mstep. by rewrite E3.
  - split; [|split; [by etrans; [|etrans]|done]].
    destruct (dir_size_written size sb C C' x x' (dir_free C x) (dirent_of name inum) Hl Hw Hmod) as (_ & Hm' & Hs').
    split; [done|eapply room_mono; [exact Hr|lia]| |rewrite Hs'; unfold dirent_size in *; lia|done|apply Hw].
    rewrite <- (do_type _ _ _ _ Hd). exact (f_equal (λ r, r.1.2) (wn_fields _ _ _ _ _ _ _ _ Hw)).
Qed.

(** Taking [icache.lock] for a change of the table. *)
Lemma tx_set_table C bl I s : tx i p D0 size start lsize h C bl ∅ s → tx i p D0 size start lsize h C bl ∅ (set_table I s).
Proof.
  intros Ht. assert (krun [] fslocks i p s) as Hk by apply Ht. destruct (set_table_ok i p I s Hk) as (_ & _ & Hk').
  eapply tx_frame; [exact Ht|exact Hk'|done|]. intros k Hk0. unfold set_table, released, acquired, slock. done.
Qed.

(** What a change of references keeps. *)
Lemma fkeeps_table s s' C bl x : dir_ok C bl x s → dir_ok C bl x s' → fkeeps dp s s' → inodes s' = inodes s.
Proof.
  intros Hd Hd' (_ & _ & Hl & Hn). apply list_eq. intros j. destruct (decide (j = dp)) as [->|Hne]; [|by apply Hn].
  by rewrite (fx_inode _ _ _ _ _ _ _ _ _ _ _ _ _ _ (do_fx _ _ _ _ Hd)), (fx_inode _ _ _ _ _ _ _ _ _ _ _ _ _ _ (do_fx _ _ _ _ Hd')).
Qed.

Definition same_refs (I I' : list inode) : Prop := ∀ d n, refs I' d n = refs I d n.
(** One more reference to [inum], in entry [ip]. *)
Definition one_more (I I' : list inode) (ip : nat) (inum : Z) : Prop :=
  (∃ y, I' !! ip = Some y ∧ is_ref 1 inum y) ∧ refs I' 1 inum = refs I 1 inum + 1 ∧ ∀ d n, (d, n) ≠ (1, inum) → refs I' d n = refs I d n.

Lemma dirlookup_found C bl x name r s :
  dir_ok C bl x s → icache_ok (inodes s) → dir_find C x name = Some r →
  let inum := de_inum (entry C x r) in refs (inodes s) 1 inum < 2^31 - 2 →
  (∃ ip s', dirlookup fuel dp name s = Done (Some (ip, dirent_size * r)) s' ∧ tx i p D0 size start lsize h C bl ∅ s' ∧ icache_ok (inodes s') ∧
     one_more (inodes s) (inodes s') ip inum ∧ ∃ y, inodes s' !! ip = Some y ∧ is_ref 1 inum y ∧ (i_ref y ≠ 1 ∨ Z.land (i_flags y) I_VALID = 0)) ∨
  (dirlookup fuel dp name s = Panic "iget: no inodes" ∧ refs (inodes s) 1 inum = 0 ∧ Forall (λ y, i_ref y ≠ 0) (inodes s)).
Proof.
  intros Hd Hok Hf inum Hr. destruct (dirlookup_eq C bl x name s Hd) as (s1 & D1 & K1 & E1). rewrite Hf in E1. fold inum in E1.
  pose proof (fkeeps_table s s1 C bl x Hd D1 K1) as Ei. rewrite <- Ei in *. pose proof (fx_tx _ _ _ _ _ _ _ _ _ _ _ _ _ _ (do_fx _ _ _ _ D1)) as Ht.
  destruct (iget_ok i p 1 inum s1) as [(ip & I' & E & Hok' & (y & Hy & Hi & Hu) & Hr1 & Hr2)|(E & H0 & Hfull)]; [apply Ht|done|done|left|right].
  - exists ip, (set_table I' s1). rewrite E1, E. split; [done|]. split; [by apply tx_set_table|]. split; [done|]. split; [split; [by exists y|done]|by exists y].
  - by rewrite E1, E.
Qed.

(** The name is taken: [dirlink] fails, and gives its reference back. *)
Lemma dirlink_old C bl x name r inum' s :
  dir_ok C bl x s → icache_ok (inodes s) → dir_find C x name = Some r →
  let inum := de_inum (entry C x r) in refs (inodes s) 1 inum < 2^31 - 2 → (refs (inodes s) 1 inum ≠ 0 ∨ ∃ j y, inodes s !! j = Some y ∧ i_ref y = 0) →
  ∃ s', dirlink fuel dp name inum' s = Done (-1) s' ∧ tx i p D0 size start lsize h C bl ∅ s' ∧ icache_ok (inodes s') ∧ same_refs (inodes s) (inodes s').
Proof.
  intros Hd Hok Hf inum Hr Hroom.
  destruct (dirlookup_found C bl x name r s Hd Hok Hf Hr) as [(ip & s1 & E1 & T1 & Ok1 & (_ & R1 & R2) & y & Hy & Hi & Hu)|(_ & H0 & Hfull)].
  - destruct (iput_ok i p fuel ip y s1) as (I' & E2 & Ok2 & R3 & R4); [apply T1|done|done|apply Hi|tauto|].
    destruct Hi as (_ & Ed & En). rewrite Ed, En in *. exists (set_table I' s1). split; [unfold dirlink; mstep; rewrite E1; mstep; by rewrite E2|].
    split; [by apply tx_set_table|]. split; [done|]. intros d n. change (inodes (set_table I' s1)) with I'.
    destruct (decide ((d, n) = (1, inum))) as [[= -> ->]|Hne]; [unfold inum in *; lia|]. by rewrite R4, R2.
  - destruct Hroom as [?|(j & z & Hz & Hz0)]; [done|]. rewrite Forall_lookup in Hfull. by destruct (Hfull j z Hz).
Qed.
End Dir.

(** C18: A directory maps names to inodes.  [dirlookup] takes a reference to the inode
    that the directory has for the name, where its first entry for it is, and finds
    nothing else; a name counts with its first DIRSIZ characters.  [dirlink] of a name
    that is not there adds exactly this name: afterwards it is mapped to the inode, and
    every other name to what it was mapped to before.  [dirlink] of a name that is there
    fails, and leaves the disk and all references as they were. *)
Theorem directory_map {W} {VO : VmOps W} {DV : DevSw W} i p D0 size fuel start lsize sb h dp C bl x (s : kst W) :
  geometry size fuel start lsize sb → dir_ok i p D0 size start lsize sb h dp C bl x s → icache_ok (inodes s) →
  (∀ name, match dir_find C x name with
   | None => ∃ s', dirlookup fuel dp name s = Done None s' ∧ dir_ok i p D0 size start lsize sb h dp C bl x s' ∧ inodes s' = inodes s
   | Some j => let inum := de_inum (entry C x j) in refs (inodes s) 1 inum < 2^31 - 2 →
     (∃ ip s', dirlookup fuel dp name s = Done (Some (ip, dirent_size * j)) s' ∧ tx i p D0 size start lsize h C bl ∅ s' ∧
        icache_ok (inodes s') ∧ one_more (inodes s) (inodes s') ip inum) ∨
     (dirlookup fuel dp name s = Panic "iget: no inodes" ∧ refs (inodes s) 1 inum = 0 ∧ Forall (λ y, i_ref y ≠ 0) (inodes s))
   end) ∧
  (∀ name inum, name_ok name → 0 < inum < 2^16 → dir_map C x name = None → link_fits size lsize sb C bl x →
     ∃ C' bl' x' s', dirlink fuel dp name inum s = Done 0 s' ∧ dir_ok i p D0 size start lsize sb h dp C' bl' x' s' ∧ fkeeps dp s s' ∧
       (∀ y k, owns size sb C y → apart C x y → 0 ≤ k < MAXFILE * BSIZE → slot_of C y (k / BSIZE) ≠ 0 → byte C' y k = byte C y k) ∧
       ∀ name', name_ok name' → dir_map C' x' name' = if decide (take DIRSIZ name' = take DIRSIZ name) then Some inum else dir_map C x name') ∧
  (∀ name inum' j, dir_find C x name = Some j → let inum := de_inum (entry C x j) in refs (inodes s) 1 inum < 2^31 - 2 →
     (refs (inodes s) 1 inum ≠ 0 ∨ ∃ k y, inodes s !! k = Some y ∧ i_ref y = 0) →
     ∃ s', dirlink fuel dp name inum' s = Done (-1) s' ∧ tx i p D0 size start lsize h C bl ∅ s' ∧ icache_ok (inodes s') ∧ same_refs (inodes s) (inodes s')).
Proof.
  intros Hgeo Hd Hok. split; [|split].
  - intros name. destruct (dir_find C x name) as [j|] eqn:E.
    + intros inum Hr. destruct (dirlookup_found i p D0 size fuel start lsize sb Hgeo h dp C bl x name j s Hd Hok E Hr) as [(ip & s' & H1 & H2 & H3 & H4 & _)|]; [left|by right].
      by exists ip, s'.
    + destruct (dirlookup_eq i p D0 size fuel start lsize sb Hgeo h dp C bl x name s Hd) as (s' & D' & K' & E'). rewrite E in E'.
      exists s'. split; [done|]. split; [done|]. by eapply fkeeps_table.
  - intros name inum Hn Hi Hnone Hfit. assert (dir_find C x name = None) as Hf by (unfold dir_map in Hnone; by destruct (dir_find C x name)).
    destruct (dirlink_new i p D0 size fuel start lsize sb Hgeo h dp C bl x name inum s Hd Hfit Hf) as (C' & bl' & x' & s' & E & D' & K & Hw).
    exists C', bl', x', s'. split; [done|]. split; [done|]. split; [done|]. split; [apply Hw|]. intros name' Hn'.
    pose proof (do_size _ _ _ _ _ _ _ _ _ _ _ _ _ Hd) as Hs.
    by apply (dir_map_written size sb C C' x x' _ (length_dirent_of name inum) Hw (do_whole _ _ _ _ _ _ _ _ _ _ _ _ _ Hd) ltac:(lia) name name' inum).
  - intros name inum' j Hf inum Hr Hroom. by eapply dirlink_old.
Qed.

(** The disk of [FsDemo] with a directory in inode 1: the entries [.] and [..]. *)
Module DirDemo.
Definition dir : inode := set_i_size 32 (set_i_type T_DIR FsDemo.file).
Definition d : gmap Z (list Z) :=
  {[ 1 := FsDemo.super; 32 := put_dinode 64 dir zeros; 34 := FsDemo.map; 35 := put 0 (dirent_of [46] 1 ++ dirent_of [46; 46] 1) zeros ]}.
Definition D : disk := BioLaw.Demo.block_of d.
Definition table : list inode := dir :: replicate 49 inode0.

Lemma blocks : map_Forall (λ _ v, length v = Z.to_nat BSIZE) d.
Proof. apply map_Forall_to_list. vm_compute. repeat constructor. Qed.

Lemma dir_map_ok : map_ok 100 FsDemo.sb D.
Proof. intros m Hm Hf. apply FsDemo.demo_map; [done|]. rewrite <- Hf. unfold in_use, map_block. rewrite Z.div_small by (change BPB with 4096; lia). done. Qed.

Lemma dir_slot b : slot_of D dir b = slot_of FsDemo.D FsDemo.file b.
Proof. done. Qed.

Lemma dir_owns : owns 100 FsDemo.sb D dir.
Proof.
  split; [done| |].
  - intros b Hb. rewrite dir_slot, FsDemo.demo_slot by done. destruct (decide (b = 0)); [|done]. intros _. split; [|vm_compute; reflexivity].
    unfold is_data. change (sb_bmapstart FsDemo.sb + (100 - 1) / BPB) with 34. lia.
  - intros b b' Hb Hb'. rewrite !dir_slot, !FsDemo.demo_slot by done. destruct (decide (b = 0)), (decide (b' = 0)); lia.
Qed.

Lemma demo_dir : ∃ s : kst (gmap Z vobj), dir_ok 0 Sched.Demo.p1 D 100 2 30 FsDemo.sb [] 0 D [] dir s ∧ inodes s = table.
Proof.
  pose proof (BioLaw.Demo.bio_st_of (∅ : gmap Z vobj) d 100 blocks) as Hb. revert Hb. generalize (BioLaw.Demo.st_of (∅ : gmap Z vobj) d 100).
  change (BioLaw.Demo.block_of d) with D. intros s0 Hb.
  exists (with_inodes table (FsDemo.dress s0)). split; [|reflexivity]. split; [|apply FsDemo.fs_room; lia|reflexivity|cbn; change (MAXFILE * BSIZE) with 71680; lia|reflexivity|].
  - split; [|reflexivity..|apply dir_owns|apply dir_map_ok].
    apply tx_with_inodes. split; [|by split|intros x Hx; by apply not_elem_of_nil in Hx|constructor|cbn; lia|reflexivity].
    eapply bio_same; [exact Hb| |reflexivity..]. apply (krun_frame _ _ _ _ s0); [reflexivity..|apply Hb].
  - intros b H0 Hlt. cbn in Hlt. unfold BSIZE in Hlt. replace b with 0 by lia. discriminate.
Qed.

Lemma dir_avail : avail 100 FsDemo.sb D 2.
Proof.
  exists {[ 36; 37 ]}. split; [by vm_compute|].
  intros m Hm. apply elem_of_union in Hm as [->%elem_of_singleton| ->%elem_of_singleton]; (split; [lia|vm_compute; reflexivity]).
Qed.

Lemma demo_cache : icache_ok table.
Proof.
  split; [done| |].
  - intros [|k] x Hk; [injection Hk as <-; cbn; lia|]. apply lookup_replicate in Hk as [-> _]. cbn. lia.
  - intros [|j] [|k] x y Hj Hk Hr Hy; [done|..].
    + apply lookup_replicate in Hk as [-> _]. cbn in Hy. lia.
    + apply lookup_replicate in Hj as [-> _]. destruct Hr as [Hr _]. cbn in Hr. lia.
    + apply lookup_replicate in Hk as [-> _]. cbn in Hy. lia.
Qed.

Lemma dir_wf : inode_wf dir.
Proof. destruct FsDemo.file_wf as [I1 I2 I3 I4 I5 I6 I7]. split; try done; cbn; unfold T_DIR; lia. Qed.
End DirDemo.

Lemma directory_map_witness : ∃ s s' : kst (gmap Z vobj), dirlink 1 0 [97] 5 s = Done 0 s'.
Proof.
  destruct DirDemo.demo_dir as (s & Hd & Hi).
  destruct (directory_map 0 Sched.Demo.p1 DirDemo.D 100 1 2 30 FsDemo.sb [] 0 DirDemo.D [] DirDemo.dir s) as (_ & Hl & _);
    [exact FsDemo.geo|exact Hd|rewrite Hi; exact DirDemo.demo_cache|].
  destruct (Hl [97] 5) as (C' & bl' & x' & s' & E & _); [repeat constructor|lia|vm_compute; reflexivity| |exists s, s'; exact E].
  split; [apply FsDemo.fs_room; lia|exact DirDemo.dir_avail|cbn; lia|exact DirDemo.dir_wf|]. change (MAXFILE * BSIZE) with 71680.
  change (dir_free DirDemo.D DirDemo.dir) with (default 2 (scan (λ de, de_inum de =? 0) DirDemo.D DirDemo.dir 2 0)). vm_compute. discriminate.
Defined.
