(* ===== verification/Namei.v ===== *)
(** Path names: [namex] of fs.c follows a path through the directories on the disk,
    with the inode cache in between. *)
From S2P Require Import Prelude Mem KState Spinlock Sched Sleeplock Layout Path Bio BioLaw Log LogLaw Services Fs Icache FsLaw FsSpec Dir.

(** * What a path means *)

Section Walk.
Context (size : Z) (sb : superblock) (C : disk).

(** An inode in use, and a disk on which the directories name only such inodes. *)
Definition live (inum : Z) : Prop := 0 < inum < sb_ninodes sb ∧ i_type (disk_inode sb C inum) ≠ 0.
Record tree_ok : Prop := {
  to_map : map_ok size sb C;
  to_link inum : live inum → i_nlink (disk_inode sb C inum) ≠ 0;
  to_owns inum : live inum → owns size sb C (disk_inode sb C inum);
  to_dir inum : live inum → i_type (disk_inode sb C inum) = T_DIR → let x := disk_inode sb C inum in
    0 ≤ i_size x ≤ MAXFILE * BSIZE ∧ i_size x mod dirent_size = 0 ∧ no_holes C x (i_size x) ∧
    ∀ name n, dir_map C x name = Some n → live n;
}.

(** Follow the elements of a path from inode [inum]; [name] is the element before.
    With [parent] stop one element early. *)
Fixpoint resolve (parent : bool) (inum : Z) (name : list Z) (es : list (list Z)) : option (Z * list Z) :=
  match es with
  | [] => if parent then None else Some (inum, name)
  | e :: es' =>
    if i_type (disk_inode sb C inum) =? T_DIR then
      if parent && (match es' with [] => true | _ => false end) then Some (inum, e)
      else match dir_map C (disk_inode sb C inum) e with
           | None => None
           | Some n => resolve parent n e es'
           end
    else None
  end.
End Walk.

Lemma rest_nil rest : (∀ c r, rest = c :: r → c ≠ slash) → components rest = [] → rest = [].
Proof.
  intros Hh Hl. destruct rest as [|c rest]; [done|]. exfalso. pose proof (Hh c rest eq_refl) as Hc.
  unfold components in Hl. rewrite split_to_slash, filter_cons_True in Hl; [done|]. cbn. by destruct (Z.eqb_spec c slash).
Qed.

(** Two inodes with the same fields are the same directory. *)
Lemma dir_map_same C x y name : same_fields x y → dir_map C x name = dir_map C y name.
Proof.
  intros E. assert (i_addrs x = i_addrs y ∧ i_size x = i_size y) as [Ea Es] by (unfold same_fields in E; split; congruence).
  assert (∀ j, entry C x j = entry C y j) as He.
  { intros j. unfold entry, file_bytes. apply list_fmap_ext. intros k v _. unfold byte, slot_of, indirect. by rewrite Ea. }
  assert (∀ P k j, scan P C x k j = scan P C y k j) as Hs.
  { intros P k. induction k as [|k IH]; intros j; [done|]. cbn [scan]. by rewrite He, IH. }
  unfold dir_map, dir_find, dir_size. rewrite Es, Hs. destruct (scan _ _ _ _ _) as [r|]; [|done]. cbn. by rewrite He.
Qed.

(** ** Free entries of the inode cache *)
Definition nfree (I : list inode) : nat := length (filter (λ y, i_ref y = 0) I).
Definition in_use_of (I : list inode) : list (Z * Z) := (λ y, (i_dev y, i_inum y)) <$> filter (λ y, i_ref y ≠ 0) I.

Lemma in_use_count I : (length (in_use_of I) + nfree I = length I)%nat.
Proof.
  unfold in_use_of, nfree. rewrite length_fmap. induction I as [|y I IH]; [done|]. rewrite !filter_cons.
  destruct (decide (i_ref y = 0)), (decide (i_ref y ≠ 0)); (done || cbn [length]; lia).
Qed.

Lemma in_use_refs I d n : icache_ok I → (d, n) ∈ in_use_of I ↔ 0 < refs I d n.
Proof.
  intros Hok. unfold in_use_of. rewrite list_elem_of_fmap. split.
  - intros (y & [= -> ->] & [Hy Hin]%list_elem_of_filter). apply list_elem_of_lookup_1 in Hin as [k Hk]. pose proof (ic_ref _ Hok k y Hk).
    rewrite (refs_at I _ _ k y) by first [done|split; [lia|done]]. lia.
  - unfold refs. destruct (list_find _ I) as [[k y]|] eqn:E; [|lia]. apply list_find_Some in E as (Hk & (H1 & <- & <-) & _). intros _.
    exists y. split; [done|]. apply list_elem_of_filter. split; [lia|by eapply list_elem_of_lookup_2].
Qed.

Lemma in_use_NoDup I : icache_ok I → NoDup (in_use_of I).
Proof.
  intros [_ Hr Ho]. unfold in_use_of. induction I as [|y I IH]; [constructor|].
  assert (NoDup ((λ y, (i_dev y, i_inum y)) <$> filter (λ y, i_ref y ≠ 0) I)) as Hnd.
  { apply IH; [intros k x Hk; by apply (Hr (S k))|]. intros j k x z Hj Hk H1 H2. pose proof (Ho (S j) (S k) x z Hj Hk H1 H2). lia. }
  rewrite filter_cons. destruct (decide (i_ref y ≠ 0)) as [Hy|]; [|done]. cbn [fmap list_fmap]. constructor; [|done].
  rewrite list_elem_of_fmap. intros (z & [= Ed En] & [Hz Hin]%list_elem_of_filter). apply list_elem_of_lookup_1 in Hin as [k Hk].
  pose proof (Hr 0%nat y eq_refl). pose proof (Hr (S k) z Hk).
  pose proof (Ho 0%nat (S k) y z eq_refl Hk) as Hd. discriminate Hd; [split; [lia|by rewrite Ed, En]|lia].
Qed.

(** Each new inode referred to takes at most one entry. *)
Lemma nfree_refs I I' l :
  icache_ok I → icache_ok I' → (∀ d n, 0 < refs I' d n → 0 < refs I d n ∨ (d, n) ∈ l) → (nfree I ≤ nfree I' + length l)%nat.
Proof.
  intros Hok Hok' Hs. pose proof (in_use_count I) as H1. pose proof (in_use_count I') as H2. rewrite (ic_len _ Hok) in H1. rewrite (ic_len _ Hok') in H2.
  assert (length (in_use_of I') ≤ length (in_use_of I ++ l))%nat as Hle; [|rewrite length_app in Hle; lia].
  apply submseteq_length, NoDup_submseteq; [by apply in_use_NoDup|]. intros [d n] Hin. apply in_use_refs in Hin; [|done]. rewrite elem_of_app.
  destruct (Hs d n Hin) as [H|H]; [left; by apply in_use_refs|by right].
Qed.

Lemma nfree_pos I : (0 < nfree I)%nat → ∃ k y, I !! k = Some y ∧ i_ref y = 0.
Proof.
  unfold nfree. destruct (filter _ I) as [|y l] eqn:E; cbn [length]; [lia|]. intros _. assert (y ∈ filter (λ y, i_ref y = 0) I) as Hy by (rewrite E; left).
  apply list_elem_of_filter in Hy as [H0 Hy]. apply list_elem_of_lookup_1 in Hy as [k Hk]. by exists k, y.
Qed.

(** Only the references and the names of the entries count. *)
Lemma refs_same I ip y x :
  icache_ok I → I !! ip = Some y → (i_ref x, i_dev x, i_inum x) = (i_ref y, i_dev y, i_inum y) →
  icache_ok (<[ip := x]> I) ∧ ∀ d n, refs (<[ip := x]> I) d n = refs I d n.
Proof.
  intros [A1 A2 A3] Hy [= E1 E2 E3]. assert (∀ k z, <[ip := x]> I !! k = Some z → ∃ w, I !! k = Some w ∧ (i_ref z, i_dev z, i_inum z) = (i_ref w, i_dev w, i_inum w)) as Hk.
  { intros k z [(-> & -> & _)|[_ Hz]]%list_lookup_insert_Some; [exists y; by rewrite E1, E2, E3|by exists z]. }
  split; [split; [by rewrite length_insert|..]|].
  - intros k z (w & Hw & [= -> _ _])%Hk. by eapply A2.
  - intros j k z z' (w & Hw & [= F1 F2 F3])%Hk (w' & Hw' & [= G1 G2 G3])%Hk. unfold is_ref. rewrite F1, F2, F3, G1, G2, G3. by apply A3.
  - intros d n. clear A1 A2 A3 Hk. unfold refs. revert ip Hy. induction I as [|z I IH]; intros [|ip] Hy; [done|done|..].
    + injection Hy as ->. cbn [insert list_insert list_find]. assert (is_ref d n x ↔ is_ref d n y) as Hxy by (unfold is_ref; by rewrite E1, E2, E3).
      destruct (decide (is_ref d n x)), (decide (is_ref d n y)); (done || tauto).
    + change (<[S ip := x]> (z :: I)) with (z :: <[ip := x]> I). cbn [list_find]. destruct (decide (is_ref d n z)); [done|]. specialize (IH ip Hy).
      destruct (list_find _ (<[ip := x]> I)) as [[? ?]|], (list_find _ I) as [[? ?]|]; done.
Qed.

(** * The cache and the disk *)

Section Namei.
Context {W : Type} {VO : VmOps W} {DV : DevSw W} (i : nat) (p : proc) (D0 : disk).
Context (size : Z) (fuel : nat) (start lsize : Z) (sb : superblock) (Hgeo : geometry size fuel start lsize sb).
Context (h : list (Z * list Z)) (C : disk) (bl : list Z) (Htree : tree_ok size sb C).
Implicit Types s : kst W.

(** An entry with references is for an inode in use, and has its fields once it has
    been read. *)
Definition coherent (y : inode) : Prop :=
  i_dev y = 1 ∧ live sb C (i_inum y) ∧ (i_flags y = 0 ∨ i_flags y = I_VALID ∧ same_fields y (disk_inode sb C (i_inum y))).

(** A transaction in which the inode cache agrees with the disk and only the inode
    [lk] is locked. *)
Record cached (lk : option nat) s : Prop := {
  ca_tx : tx i p D0 size start lsize h C bl ∅ s;
  ca_sb : sb_is sb s;
  ca_room : room lsize 0 bl ∅;
  ca_ok : icache_ok (inodes s);
  ca_ent ip y : inodes s !! ip = Some y → 0 < i_ref y → coherent y;
  ca_lock ip : (ip < NINODE)%nat → sl_locked (slock (inode_lock ip) s) = if decide (lk = Some ip) then 1 else 0;
}.
Definition holds s (ip : nat) (inum : Z) : Prop := ∃ y, inodes s !! ip = Some y ∧ is_ref 1 inum y.

Lemma cached_krun lk s : cached lk s → krun [] fslocks i p s.
Proof. intros Hc. apply (ca_tx _ _ Hc). Qed.

Lemma cached_live lk s ip inum : cached lk s → holds s ip inum → live sb C inum.
Proof. intros Hc (y & Hy & Hr & _ & <-). by apply (ca_ent _ _ Hc ip y). Qed.

Lemma holds_range lk s ip inum : cached lk s → holds s ip inum → (ip < NINODE)%nat.
Proof. intros Hc (y & Hy & _). rewrite <- (ic_len _ (ca_ok _ _ Hc)). by eapply lookup_lt_Some. Qed.

(** A change of one entry. *)
Lemma cached_table lk s ip x :
  cached lk s → icache_ok (<[ip := x]> (inodes s)) → (0 < i_ref x → coherent x) → cached lk (set_table (<[ip := x]> (inodes s)) s).
Proof.
  intros [A1 A2 A3 A4 A5 A6] Hok Hx. split; try done; [by eapply tx_set_table|]. intros j y Hj Hr. change (<[ip := x]> (inodes s) !! j = Some y) in Hj.
  apply list_lookup_insert_Some in Hj as [(-> & -> & _)|[_ Hj]]; [by apply Hx|by eapply A5].
Qed.

Lemma got_coherent lk s ip inum z x :
  cached lk s → inodes s !! ip = Some z → live sb C inum → got_entry (inodes s) 1 inum z x → coherent x.
Proof.
  intros Hc Hz Hl [[(Hr & Hd & Hn) ->]|(_ & _ & ->)].
  - destruct (ca_ent _ _ Hc ip z Hz Hr) as (E1 & E2 & E3). by split.
  - split; [done|]. split; [done|by left].
Qed.

(** References: those of [R] and one for each inode in [l]. *)
Definition held (R : Z → Z → Z) (l : list Z) (I : list inode) : Prop :=
  ∀ d n, refs I d n = R d n + (if decide (d = 1) then Z.of_nat (count_occ Z.eq_dec l n) else 0).

Lemma held_more R l I I' inum :
  held R l I → refs I' 1 inum = refs I 1 inum + 1 → (∀ d n, (d, n) ≠ (1, inum) → refs I' d n = refs I d n) → held R (inum :: l) I'.
Proof.
  intros Hh H1 H2 d n. destruct (decide ((d, n) = (1, inum))) as [[= -> ->]|Hne].
  - rewrite H1, Hh. rewrite !decide_True by done. rewrite count_occ_cons_eq by done. lia.
  - rewrite H2, Hh by done. destruct (decide (d = 1)) as [->|]; [|done]. rewrite count_occ_cons_neq; [done|]. intros ->. done.
Qed.

Lemma held_less R l l' I I' inum :
  held R l I → l ≡ₚ inum :: l' → refs I' 1 inum = refs I 1 inum - 1 → (∀ d n, (d, n) ≠ (1, inum) → refs I' d n = refs I d n) → held R l' I'.
Proof.
  intros Hh Hp H1 H2 d n. assert (∀ k, count_occ Z.eq_dec l k = count_occ Z.eq_dec (inum :: l') k) as Hc by (by apply Permutation_count_occ).
  destruct (decide ((d, n) = (1, inum))) as [[= -> ->]|Hne].
  - rewrite H1, Hh. rewrite !decide_True by done. rewrite Hc, count_occ_cons_eq by done. lia.
  - rewrite H2, Hh by done. destruct (decide (d = 1)) as [->|]; [|done]. rewrite Hc, count_occ_cons_neq; [done|]. intros ->. done.
Qed.

Lemma iget_cached lk s inum R l :
  cached lk s → live sb C inum → held R l (inodes s) → refs (inodes s) 1 inum < 2^31 - 2 → (0 < nfree (inodes s))%nat →
  ∃ ip x, iget 1 inum s = Done ip (set_table (<[ip := x]> (inodes s)) s) ∧ cached lk (set_table (<[ip := x]> (inodes s)) s) ∧
    (∀ j n, holds s j n → holds (set_table (<[ip := x]> (inodes s)) s) j n) ∧ holds (set_table (<[ip := x]> (inodes s)) s) ip inum ∧
    held R (inum :: l) (<[ip := x]> (inodes s)).
Proof.
  intros Hc Hl Hh Hr Hf. destruct (iget_exact i p 1 inum s (cached_krun _ _ Hc) (ca_ok _ _ Hc) Hr) as [(ip & z & x & Hz & Hg & E)|(_ & _ & Hfull)].
  - destruct (got_entry_ok _ _ _ _ _ _ (ca_ok _ _ Hc) Hz Hg Hr) as (H1 & H2 & _ & H4 & H5). exists ip, x. split; [done|]. split.
    + apply cached_table; [done|done|]. intros _. by eapply got_coherent.
    + split; [|split; [|by eapply held_more]].
      * intros j n (w & Hw & Hrw). destruct (decide (j = ip)) as [->|Hne]; [|exists w; split; [|done]; change (<[ip := x]> (inodes s) !! j = Some w); by rewrite list_lookup_insert_ne].
        exists x. split; [apply list_lookup_insert_eq; by eapply lookup_lt_Some|]. rewrite Hz in Hw. injection Hw as ->. destruct Hrw as (R1 & R2 & R3).
        destruct Hg as [[_ ->]|(H0 & _)]; [|lia]. split; [cbn; lia|done].
      * exists x. split; [apply list_lookup_insert_eq; by eapply lookup_lt_Some|done].
  - destruct (nfree_pos _ Hf) as (k & y & Hk & H0). rewrite Forall_lookup in Hfull. by destruct (Hfull k y Hk).
Qed.

Lemma coherent_loaded y : coherent y → same_fields (loaded sb C y) (disk_inode sb C (i_inum y)) ∧ i_flags (loaded sb C y) = I_VALID ∧
  (i_ref (loaded sb C y), i_dev (loaded sb C y), i_inum (loaded sb C y)) = (i_ref y, i_dev y, i_inum y).
Proof.
  intros (_ & _ & [E|[E Hs]]); unfold loaded; rewrite E.
  - done.
  - change (Z.land I_VALID I_VALID =? 0) with false. done.
Qed.

Lemma ilock_cached s ip inum :
  cached None s → holds s ip inum →
  ∃ x s', ilock fuel ip s = Done tt s' ∧ cached (Some ip) s' ∧ core s' = core s ∧ inodes s' = <[ip := x]> (inodes s) ∧ (∀ d n, refs (inodes s') d n = refs (inodes s) d n) ∧
    inodes s' !! ip = Some x ∧ is_ref 1 inum x ∧ i_flags x = I_VALID ∧ same_fields x (disk_inode sb C inum).
Proof.
  intros Hc Hh. pose proof (holds_range _ _ _ _ Hc Hh) as Hip. pose proof (cached_live _ _ _ _ Hc Hh) as Hl. destruct Hh as (y & Hy & Hr).
  pose proof Hr as (Hp & Hd & Hn). pose proof (ca_ent _ _ Hc ip y Hy Hp) as Hco. destruct (coherent_loaded y Hco) as (Hs & Hf & Hk).
  pose proof Hgeo as [G1 G2 G3 G4]. destruct Hl as [Hl1 Hl2].
  pose proof (ilock_ok i p D0 size G1 fuel G2 start lsize G3 sb G4 h C bl ∅ s ip y (ca_tx _ _ Hc) (ca_sb _ _ Hc) Hip Hy) as Hw.
  apply wp_alone in Hw as ([] & s' & E & T & Sb & Co & Ei & L1 & L2); [|lia|done|lia|done|apply Hc|rewrite (ca_lock _ _ Hc) by done; done|].
  2: { assert (i_type (loaded sb C y) = i_type (disk_inode sb C (i_inum y))) as -> by (unfold same_fields in Hs; congruence). by rewrite Hn. }
  destruct (refs_same (inodes s) ip y (loaded sb C y) (ca_ok _ _ Hc) Hy Hk) as [Hok Hrefs]. exists (loaded sb C y), s'.
  split; [done|]. split; [|split; [done|split; [done|split; [by rewrite Ei|]]]].
  - split; [done|done|apply Hc|by rewrite Ei| |].
    + intros j z Hj Hz. rewrite Ei in Hj. apply list_lookup_insert_Some in Hj as [(-> & <- & _)|[_ Hj]]; [|by eapply (ca_ent _ _ Hc)].
      injection Hk as K1 K2 K3. unfold coherent. rewrite K2, K3. split; [done|]. split; [by apply Hco|by right].
    + intros j Hj. destruct (decide (Some ip = Some j)) as [[= <-]|Hne]; [done|].
      rewrite L2 by (unfold inode_lock; first [lia|intros E'; apply Hne; f_equal; lia]). by rewrite (ca_lock _ _ Hc).
  - rewrite Ei, list_lookup_insert_eq by (by eapply lookup_lt_Some). split; [done|]. injection Hk as K1 K2 K3. rewrite <- Hn. split; [|done].
    unfold is_ref. by rewrite K1, K2, K3.
Qed.

Lemma iunlock_cached s ip inum :
  cached (Some ip) s → holds s ip inum → ∃ s', iunlock ip s = Done tt s' ∧ cached None s' ∧ core s' = core s ∧ inodes s' = inodes s.
Proof.
  intros Hc Hh. pose proof (holds_range _ _ _ _ Hc Hh) as Hip. destruct Hh as (y & Hy & Hp & _). pose proof (cached_krun _ _ Hc) as Hk.
  assert (L_sleeplock (inode_lock ip) ∈ fslocks) as Hin by (apply fslocks_sleep; unfold inode_lock; lia).
  pose proof (holdingsleep_eq (inode_lock ip) fslocks i p s Hk Hin) as H1. apply wp_alone in H1 as (r & s1 & E1 & -> & K1 & C1 & F1 & S1).
  pose proof (releasesleep_eq (inode_lock ip) fslocks i p s1 K1 Hin) as H2. apply wp_alone in H2 as ([] & s2 & E2 & K2 & C2 & F2 & L2 & O2).
  assert (k_fs s2 = k_fs s) as F by congruence. assert (inodes s2 = inodes s) as Ei by (unfold inodes; by rewrite F).
  assert (∀ j, j ≠ inode_lock ip → slock j s2 = slock j s) as Hj by (intros j Hj; rewrite O2 by done; by apply slock_frame).
  exists s2. split.
  - unfold iunlock. mstep. rewrite E1. mstep. rewrite (get_inode_eq ip y) by (unfold inodes; by rewrite F1). mstep.
    rewrite (ca_lock _ _ Hc), decide_True by done. destruct (Z.ltb_spec (i_ref y) 1); [lia|]. cbn [Z.eqb orb]. exact E2.
  - split; [|split; [congruence|done]]. destruct Hc as [A1 A2 A3 A4 A5 A6]. split; rewrite ?Ei; try done.
    + eapply tx_frame; [exact A1|done|unfold disk_part; by rewrite F|]. intros k Hk'. apply Hj. unfold inode_lock. lia.
    + unfold sb_is. by rewrite F.
    + intros j Hj'. destruct (decide (j = ip)) as [->|Hne]; [done|]. rewrite Hj by (unfold inode_lock; lia). rewrite A6 by done.
      rewrite decide_False by congruence. done.
Qed.

Lemma look_cached s ip inum x name R l :
  cached (Some ip) s → inodes s !! ip = Some x → is_ref 1 inum x → same_fields x (disk_inode sb C inum) → i_type (disk_inode sb C inum) = T_DIR →
  held R l (inodes s) → (∀ d n, refs (inodes s) d n < 2^31 - 2) → (0 < nfree (inodes s))%nat →
  match dir_map C (disk_inode sb C inum) name with
  | None => ∃ s', dirlookup fuel ip name s = Done None s' ∧ cached (Some ip) s' ∧ inodes s' = inodes s
  | Some n => live sb C n ∧ ∃ nx off s', dirlookup fuel ip name s = Done (Some (nx, off)) s' ∧ cached (Some ip) s' ∧ holds s' nx n ∧ holds s' ip inum ∧ held R (n :: l) (inodes s')
  end.
Proof.
  intros Hc Hx Hr Hs Ht Hh Hb Hf. pose proof (cached_live _ _ ip inum Hc ltac:(by exists x)) as Hl.
  destruct (to_dir _ _ _ Htree inum Hl Ht) as (S1 & S2 & S3 & S4). destruct (same_file size sb C x _ Hs) as (Es & Eo & _).
  assert (i_type x = T_DIR ∧ i_size x = i_size (disk_inode sb C inum)) as [Ety Esz] by (unfold same_fields in Hs; split; congruence).
  assert (dir_ok i p D0 size start lsize sb h ip C bl x s) as Hd.
  { split; [split|..]; rewrite ?Esz; try done; [apply Hc|apply Hc|apply Hr|apply Eo; by apply Htree|apply Htree|apply Hc|].
    intros b H0 Hlt. rewrite <- Es. by apply S3. }
  destruct (dirlookup_eq i p D0 size fuel start lsize sb Hgeo h ip C bl x name s Hd) as (s1 & D1 & K1 & E1).
  pose proof (fkeeps_table i p D0 size start lsize sb h ip s s1 C bl x Hd D1 K1) as Ei. destruct K1 as (K1 & K2 & _).
  assert (cached (Some ip) s1) as Hc1.
  { destruct Hc as [A1 A2 A3 A4 A5 A6]. destruct (do_fx _ _ _ _ _ _ _ _ _ _ _ _ _ D1) as [F1 F2 _ _ _ _]. split; rewrite ?Ei; try done.
    intros j Hj. rewrite K2 by (unfold inode_lock; lia). by apply A6. }
  rewrite <- (dir_map_same C x) by done. unfold dir_map. destruct (dir_find C x name) as [r|] eqn:Er; cbn [fmap option_fmap option_map]; [|by exists s1].
  assert (dir_map C (disk_inode sb C inum) name = Some (de_inum (entry C x r))) as Hm by (rewrite <- (dir_map_same C x) by done; unfold dir_map; by rewrite Er).
  pose proof (S4 _ _ Hm) as Hln. split; [done|]. set (n := de_inum (entry C x r)) in *.
  destruct (iget_cached (Some ip) s1 n R l) as (nx & x' & E2 & C2 & H2 & H3 & H4); rewrite ?Ei; try done.
  exists nx, (dirent_size * r), (set_table (<[nx := x']> (inodes s1)) s1). split; [rewrite E1, E2; done|]. split; [done|]. split; [done|]. split; [|done].
  apply H2. exists x. by rewrite Ei.
Qed.

Lemma iput_cached s ip inum R l l' :
  cached None s → holds s ip inum → held R l (inodes s) → l ≡ₚ inum :: l' →
  ∃ s', iput fuel ip s = Done tt s' ∧ cached None s' ∧ held R l' (inodes s') ∧ ∀ j m, holds s j m → 0 < refs (inodes s') 1 m → holds s' j m.
Proof.
  intros Hc Hh Hl Hp. pose proof (cached_live _ _ _ _ Hc Hh) as Hlive. destruct Hh as (x & Hx & Hr). pose proof Hr as (Hr1 & Hr2 & Hr3).
  pose proof (ca_ent _ _ Hc ip x Hx Hr1) as Hco. pose proof (ca_ok _ _ Hc) as Hok.
  assert (i_ref x ≠ 1 ∨ Z.land (i_flags x) I_VALID = 0 ∨ i_nlink x ≠ 0) as Hu.
  { destruct Hco as (_ & _ & [E|[_ E]]); right; [left; by rewrite E|right]. rewrite Hr3 in E. pose proof (to_link _ _ _ Htree inum Hlive). unfold same_fields in E. congruence. }
  pose proof (iput_exact i p fuel ip x s (cached_krun _ _ Hc) Hok Hx Hr1 Hu) as E.
  pose proof (ic_ref _ Hok ip x Hx). destruct (icache_set_ref (inodes s) ip x (i_ref x - 1) Hok Hx) as (Hok' & H1 & H2); [lia|lia|]. rewrite Hr2, Hr3 in *.
  eexists. split; [exact E|]. split; [by apply cached_table|]. change (inodes (set_table ?I s)) with I. split.
  - eapply held_less; [exact Hl|exact Hp| |done]. rewrite H1. by rewrite (refs_at _ 1 inum ip x).
  - intros j m (w & Hw & Hrw) H0. destruct (decide (j = ip)) as [->|Hne].
    + rewrite Hx in Hw. injection Hw as <-. exists (set_i_ref (i_ref x - 1) x). split; [apply list_lookup_insert_eq; by eapply lookup_lt_Some|].
      destruct Hrw as (_ & W2 & W3). assert (m = inum) as -> by congruence. rewrite H1 in H0. done.
    + exists w. split; [|done]. change (<[ip := set_i_ref (i_ref x - 1) x]> (inodes s) !! j = Some w). by rewrite list_lookup_insert_ne.
Qed.

Lemma held_eq R l I I' : held R l I → (∀ d n, refs I' d n = refs I d n) → held R l I'.
Proof. intros Hh E d n. by rewrite E. Qed.

Lemma refs_pos I d n : icache_ok I → 0 ≤ refs I d n.
Proof.
  intros Hok. unfold refs. destruct (list_find _ I) as [[k y]|] eqn:E; [|done]. apply list_find_Some in E as (Hk & _ & _). by apply (ic_ref _ Hok k y).
Qed.

Section Loop.
Context (I0 : list inode) (Hok0 : icache_ok I0) (Hfree : (2 ≤ nfree I0)%nat) (Hmax : ∀ d n, refs I0 d n < 2^31 - 4).
#[local] Abbreviation R := (refs I0).

(** With one inode held there is room for another. *)
Lemma held_room inum I : icache_ok I → held R [inum] I → (0 < nfree I)%nat ∧ ∀ d n, refs I d n < 2^31 - 2.
Proof.
  intros Hok Hh. split.
  - assert (nfree I0 ≤ nfree I + length [(1%Z, inum)])%nat; [|cbn in *; lia]. apply nfree_refs; [done|done|]. intros d n. rewrite Hh.
    destruct (decide (d = 1)) as [->|]; [|left; lia]. cbn. destruct (Z.eq_dec inum n) as [->|]; [right; left|left; lia].
  - intros d n. rewrite Hh. pose proof (Hmax d n). destruct (decide (d = 1)); [|lia]. cbn. destruct (Z.eq_dec inum n); lia.
Qed.

Lemma iunlockput_cached s ip inum l l' :
  cached (Some ip) s → holds s ip inum → held R l (inodes s) → l ≡ₚ inum :: l' →
  ∃ s', iunlockput fuel ip s = Done tt s' ∧ cached None s' ∧ held R l' (inodes s') ∧ ∀ j m, holds s j m → 0 < refs (inodes s') 1 m → holds s' j m.
Proof.
  intros Hc Hh Hl Hp. destruct (iunlock_cached s ip inum Hc Hh) as (s1 & E1 & C1 & _ & Ei).
  assert (∀ j m, holds s j m → holds s1 j m) as Hs by (intros j m (y & Hy & Hr); exists y; by rewrite Ei).
  destruct (iput_cached s1 ip inum R l l') as (s2 & E2 & C2 & H2 & H3); [done|by apply Hs|by rewrite Ei|done|].
  exists s2. split; [unfold iunlockput; mstep; by rewrite E1|]. split; [done|]. split; [done|]. intros j m Hj. by apply H3, Hs.
Qed.

Lemma namex_loop_ok parent : ∀ k path name s ip inum,
  (length path < k)%nat → cached None s → holds s ip inum → held R [inum] (inodes s) →
  match resolve sb C parent inum name (take DIRSIZ <$> components path) with
  | None => ∃ s', namex_loop fuel k parent ip path name s = Done None s' ∧ cached None s' ∧ held R [] (inodes s')
  | Some (n, nm) => ∃ ip' s', namex_loop fuel k parent ip path name s = Done (Some (ip', nm)) s' ∧ cached None s' ∧ holds s' ip' n ∧ held R [n] (inodes s')
  end.
Proof.
  induction k as [|k IH]; intros path name s ip inum Hk Hc Hh Hl; [lia|]. cbn [namex_loop].
  pose proof (skipelem_spec path) as Hsk. destruct (skipelem path) as [[rest nm]|] eqn:Esk.
  2: { rewrite Hsk. cbn [fmap list_fmap resolve]. destruct parent; [|by exists ip, s].
       destruct (iput_cached s ip inum R [inum] []) as (s1 & E1 & C1 & H1 & _); try done. exists s1. mstep. by rewrite E1. }
  destruct Hsk as (e & -> & -> & Hlen & Hhd). cbn [fmap list_fmap resolve]. set (nm := take DIRSIZ e).
  destruct (ilock_cached s ip inum Hc Hh) as (x & s1 & E1 & C1 & _ & _ & Rf & Hx & Hr & _ & Hs).
  assert (holds s1 ip inum) as Hh1 by (by exists x). assert (held R [inum] (inodes s1)) as Hl1 by (by eapply held_eq).
  mstep. rewrite E1. mstep. rewrite (get_inode_eq ip x) by done. mstep.
  assert (i_type x = i_type (disk_inode sb C inum)) as -> by (unfold same_fields in Hs; congruence).
  destruct (Z.eqb_spec (i_type (disk_inode sb C inum)) T_DIR) as [Ety|Ety]; cbn [negb].
  2: { mstep. destruct (iunlockput_cached s1 ip inum [inum] []) as (s2 & E2 & C2 & H2 & _); try done. exists s2. by rewrite E2. }
  assert ((match take DIRSIZ <$> components rest with [] => true | _ => false end) = match rest with [] => true | _ => false end) as ->.
  { destruct rest as [|c rest']; [done|]. destruct (components (c :: rest')) eqn:Ec; [|done]. by apply rest_nil in Ec. }
  destruct (parent && match rest with [] => true | _ => false end).
  { mstep. destruct (iunlock_cached s1 ip inum C1 Hh1) as (s2 & E2 & C2 & _ & Ei). exists ip, s2. rewrite E2. mstep.
    split; [done|]. split; [done|]. rewrite Ei. split; [|done]. exists x. by rewrite Ei. }
  destruct (held_room inum (inodes s1) (ca_ok _ _ C1) Hl1) as [Hf Hb].
  pose proof (look_cached s1 ip inum x nm R [inum] C1 Hx Hr Hs Ety Hl1 Hb Hf) as Hlook.
  destruct (dir_map C (disk_inode sb C inum) nm) as [n|] eqn:Em; mstep.
  - destruct Hlook as (_ & nx & off & s2 & E2 & C2 & Hn & Hi & Hl2). rewrite E2. mstep.
    destruct (iunlockput_cached s2 ip inum [n; inum] [n] C2 Hi Hl2) as (s3 & E3 & C3 & Hl3 & H3); [apply Permutation_swap|]. rewrite E3. mstep.
    apply IH; [lia|done| |done]. apply H3; [done|]. rewrite Hl3. pose proof (refs_pos I0 1 n Hok0). rewrite decide_True by done. cbn [count_occ]. destruct (Z.eq_dec n n); [lia|done].
  - destruct Hlook as (s2 & E2 & C2 & Ei). rewrite E2. mstep. destruct (iunlockput_cached s2 ip inum [inum] []) as (s3 & E3 & C3 & Hl3 & _); try done.
    + exists x. by rewrite Ei.
    + by rewrite Ei.
    + exists s3. by rewrite E3.
Qed.

(** Where a path starts: at the root, or at the current directory. *)
Definition starts_at s (path : list Z) (inum : Z) : Prop :=
  if bool_decide (head path = Some slash) then inum = ROOTINO ∧ live sb C ROOTINO else ∃ ip, p_cwd p = Some ip ∧ holds s ip inum.

Lemma namex_start s path inum :
  cached None s → inodes s = I0 → starts_at s path inum →
  ∃ ip s', (if bool_decide (head path = Some slash) then iget ROOTDEV ROOTINO
            else q <- cur ;; match p_cwd q with Some ip => idup ip | None => panic "trap" end) s = Done ip s' ∧
    cached None s' ∧ holds s' ip inum ∧ held R [inum] (inodes s').
Proof.
  intros Hc HI Hs. assert (held R [] (inodes s)) as Hl by (intros d n; rewrite HI; destruct (decide (d = 1)); cbn; lia).
  assert (refs (inodes s) 1 inum < 2^31 - 2) as Hb by (rewrite HI; pose proof (Hmax 1 inum); lia). unfold starts_at in Hs.
  destruct (bool_decide (head path = Some slash)).
  - destruct Hs as [-> Hlv]. destruct (iget_cached None s ROOTINO R [] Hc Hlv Hl Hb) as (ip & x & E & C1 & _ & H1 & H2); [rewrite HI; lia|].
    change ROOTDEV with 1. by eexists _, _.
  - destruct Hs as (ip & Hcwd & x & Hx & Hr). pose proof (cached_krun _ _ Hc) as Hk. destruct (kr_self _ _ _ _ _ Hk) as (q & Hq & _ & Hpr).
    mstep. rewrite (cur_eq i q) by (done || apply Hk). mstep. assert (p_cwd q = p_cwd p) as -> by (unfold private in Hpr; congruence). rewrite Hcwd.
    rewrite (refs_at _ 1 inum ip x) in Hb by first [apply Hc|done]. pose proof Hr as (Hr1 & Hr2 & Hr3).
    assert (got_entry (inodes s) 1 inum x (set_i_ref (i_ref x + 1) x)) as Hg by (by left).
    destruct (got_entry_ok _ _ _ _ _ _ (ca_ok _ _ Hc) Hx Hg) as (H1 & H2 & _ & H4 & H5); [by rewrite (refs_at _ 1 inum ip x) by first [apply Hc|done]|].
    exists ip. eexists. split; [by apply (idup_exact i p)|]. split.
    + apply cached_table; [done|done|]. intros _. eapply got_coherent; [done|done| |done]. by eapply cached_live; [|exists x].
    + split; [eexists; split; [apply list_lookup_insert_eq; by eapply lookup_lt_Some|done]|by eapply held_more].
Qed.
End Loop.
End Namei.

(** C7: Paths lead where the directories say.  In a state where the inode cache agrees
    with the disk and no inode is locked, [namex] goes from the root or the current
    directory through the directories on the disk, element by element, each cut to
    DIRSIZ characters.  It returns a new reference to the inode it gets to, or to the
    last directory together with the last element (nameiparent); or it returns 0 when
    an element is missing or is looked up in a file, and keeps no reference.  The cache
    still agrees with the disk, no lock is held, and no other reference has changed. *)
Theorem namei_resolves {W} {VO : VmOps W} {DV : DevSw W} i p D0 size fuel start lsize sb h C bl (s : kst W) path parent inum :
  geometry size fuel start lsize sb → tree_ok size sb C → cached i p D0 size start lsize sb h C bl None s → starts_at p sb C s path inum →
  (2 ≤ nfree (inodes s))%nat → (∀ d n, refs (inodes s) d n < 2^31 - 4) →
  match resolve sb C parent inum [] (take DIRSIZ <$> components path) with
  | None => ∃ s', namex fuel path parent s = Done None s' ∧ cached i p D0 size start lsize sb h C bl None s' ∧ same_refs (inodes s) (inodes s')
  | Some (n, name) => ∃ ip s', namex fuel path parent s = Done (Some (ip, name)) s' ∧
      cached i p D0 size start lsize sb h C bl None s' ∧ one_more (inodes s) (inodes s') ip n
  end.
Proof.
  intros Hgeo Htree Hc Hs Hfree Hmax. pose proof (ca_ok _ _ _ _ _ _ _ _ _ _ _ _ Hc) as Hok.
  destruct (namex_start i p D0 size start lsize sb h C bl (inodes s) Hfree Hmax s path inum Hc eq_refl Hs) as (ip & s1 & E1 & C1 & H1 & L1).
  pose proof (namex_loop_ok i p D0 size fuel start lsize sb Hgeo h C bl Htree (inodes s) Hok Hfree Hmax parent (S (length path)) path [] s1 ip inum ltac:(lia) C1 H1 L1) as Hloop.
  unfold namex. mstep. rewrite E1. mstep. destruct (resolve _ _ _ _ _ _) as [[n name]|].
  - destruct Hloop as (ip' & s2 & E2 & C2 & H2 & L2). exists ip', s2. split; [done|]. split; [done|]. split; [done|]. split.
    + rewrite L2. rewrite decide_True by done. cbn [count_occ]. destruct (Z.eq_dec n n); [lia|done].
    + intros d m Hne. rewrite L2. destruct (decide (d = 1)) as [->|]; [|lia]. cbn [count_occ]. destruct (Z.eq_dec n m) as [->|]; [done|cbn; lia].
  - destruct Hloop as (s2 & E2 & C2 & L2). exists s2. split; [done|]. split; [done|]. intros d m. rewrite L2. destruct (decide (d = 1)); cbn; lia.
Qed.

(** The disk of [DirDemo], with nothing locked. *)
Module NameiDemo.
Import DirDemo.
Definition root : inode := disk_inode FsDemo.sb D 1.

Lemma root_dir : same_fields dir root.
Proof. vm_compute. reflexivity. Qed.

Lemma live_root inum : live FsDemo.sb D inum → inum = 1.
Proof.
  intros [Hr Ht]. assert (forallb (λ n, (n =? 1) || (i_type (disk_inode FsDemo.sb D n) =? 0)) (seqZ 0 16) = true) as Ha by (vm_compute; reflexivity).
  rewrite forallb_forall in Ha. specialize (Ha inum (proj1 (list_elem_of_In _ _) (proj2 (elem_of_seqZ 0 16 inum) ltac:(cbn in Hr; lia)))).
  apply orb_prop in Ha as [Ha|Ha]; apply Z.eqb_eq in Ha; congruence.
Qed.

Lemma is_live : live FsDemo.sb D 1.
Proof. split; [cbn; lia|]. vm_compute. discriminate. Qed.

Lemma demo_entries j : 0 ≤ j < 2 → de_inum (entry D dir j) = 1.
Proof. intros Hj. assert (j = 0 ∨ j = 1) as [-> | ->] by lia; vm_compute; reflexivity. Qed.

Lemma demo_tree : tree_ok 100 FsDemo.sb D.
Proof.
  destruct (same_file 100 FsDemo.sb D root dir (eq_sym root_dir)) as (Es & Eo & _). split; [exact dir_map_ok|..].
  - intros inum ->%live_root. vm_compute. discriminate.
  - intros inum ->%live_root. apply Eo, dir_owns.
  - intros inum ->%live_root _. fold root. cbv zeta. assert (i_size root = 32) as -> by (vm_compute; reflexivity).
    split; [change (MAXFILE * BSIZE) with 71680; lia|]. split; [reflexivity|]. split.
    + intros b H0 Hlt. rewrite <- Es. unfold BSIZE in Hlt. replace b with 0 by lia. discriminate.
    + intros name n. rewrite <- (dir_map_same D dir root name root_dir). unfold dir_map. destruct (dir_find D dir name) as [j|] eqn:E; [|discriminate].
      intros [= <-]. apply scan_Some in E as (Hj & _). rewrite demo_entries by exact Hj. exact is_live.
Qed.

Lemma demo_cached : ∃ s : kst (gmap Z vobj), cached 0 Sched.Demo.p1 D 100 2 30 FsDemo.sb [] D [] None s ∧ inodes s = table.
Proof.
  pose proof (BioLaw.Demo.bio_st_of (∅ : gmap Z vobj) d 100 blocks) as Hb.
  assert (∀ k, sl_locked (slock k (BioLaw.Demo.st_of (∅ : gmap Z vobj) d 100)) = 0) as Hl by (intros k; reflexivity). revert Hb Hl.
  generalize (BioLaw.Demo.st_of (∅ : gmap Z vobj) d 100). change (BioLaw.Demo.block_of d) with D. intros s0 Hb Hl.
  exists (with_inodes table (FsDemo.dress s0)). split; [|reflexivity]. split; [|reflexivity|apply FsDemo.fs_room; lia|exact demo_cache| |].
  - apply tx_with_inodes. split; [|by split|intros x Hx; by apply not_elem_of_nil in Hx|constructor|cbn; lia|reflexivity].
    eapply bio_same; [exact Hb| |reflexivity..]. apply (krun_frame _ _ _ _ s0); [reflexivity..|apply Hb].
  - intros [|ip] y Hy Hr; [injection Hy as <-|apply lookup_replicate in Hy as [-> _]; cbn in Hr; lia].
    split; [reflexivity|]. split; [exact is_live|]. right. split; [reflexivity|exact root_dir].
  - intros ip _. apply Hl.
Qed.
End NameiDemo.

(** "/." *)
Lemma namei_resolves_witness : ∃ s s' : kst (gmap Z vobj), ∃ ip, namex 1 [47; 46] false s = Done (Some (ip, [46])) s'.
Proof.
  destruct NameiDemo.demo_cached as (s & Hc & Hi).
  pose proof (namei_resolves 0 Sched.Demo.p1 DirDemo.D 100 1 2 30 FsDemo.sb [] DirDemo.D [] s [47; 46] false 1 FsDemo.geo NameiDemo.demo_tree Hc) as H.
  assert (resolve FsDemo.sb DirDemo.D false 1 [] (take DIRSIZ <$> components [47; 46]) = Some (1, [46])) as E by (vm_compute; reflexivity).
  rewrite E in H. destruct H as (ip & s' & He & _); [split; [reflexivity|exact NameiDemo.is_live]|rewrite Hi; vm_compute; lia| |exists s, s', ip; exact He].
  intros d n. rewrite Hi. unfold refs. destruct (list_find _ _) as [[k y]|] eqn:Ef; [|lia]. apply list_find_Some in Ef as (Hk & _).
  destruct k as [|k]; [injection Hk as <-; cbn; lia|]. apply lookup_replicate in Hk as [-> _]. cbn. lia.
Defined.
