(* ===== verification/Mkfs.v ===== *)
(** mkfs.c: the program that builds the file system image.  The image is laid out
    as the kernel expects it, and the kernel reads back the files put into it. *)
From S2P Require Import Prelude Mem KState Spinlock Sched Sleeplock Layout Path Bio BioLaw Log LogLaw Services Fs Icache FsLaw FsSpec.

(** * The program *)

Abbreviation NINODES := 200 (only parsing).
Abbreviation nbitmap := (FSSIZE / (BSIZE * 8) + 1) (only parsing).
Abbreviation ninodeblocks := (NINODES / IPB + 1) (only parsing).
Definition nmeta : Z := 2 + LOGSIZE + ninodeblocks + nbitmap.

(** The superblock; [xint] and [xshort] write integers in the byte order of the
    target, as [le32] and [le16] do. *)
Definition mk_sb : superblock :=
  mkSb FSSIZE (FSSIZE - nmeta) NINODES LOGSIZE 2 (2 + LOGSIZE) (2 + LOGSIZE + ninodeblocks).
Definition sb_bytes (sb : superblock) : list Z :=
  concat (le32 <$> [sb_size sb; sb_nblocks sb; sb_ninodes sb; sb_nlog sb; sb_logstart sb; sb_inodestart sb; sb_bmapstart sb]).

(** The image file, its length in sectors, and the counters. *)
Record mst := mkMst {
  m_disk : disk;
  m_len : Z;
  m_inode : Z;  (* freeinode *)
  m_block : Z;  (* freeblock *)
}.
(** The image after [open] with O_TRUNC; a gap left by a write past the end reads as zeros. *)
Definition mst0 : mst := mkMst (λ _, zeros) 0 1 nmeta.

Definition wsect (sec : Z) (buf : list Z) : M mst unit :=
  modify (λ s, mkMst (dupd sec buf (m_disk s)) (Z.max (m_len s) (sec + 1)) (m_inode s) (m_block s)).
(** A read past the end of the image is short, and the program exits. *)
Definition rsect (sec : Z) : M mst (list Z) :=
  n <- gets m_len ;;
  if sec <? n then gets (λ s, m_disk s sec) else panic "read".

Definition winode (inum : Z) (x : inode) : M mst unit :=
  let bn := IBLOCK inum mk_sb in
  buf <- rsect bn ;;
  wsect bn (put_dinode (dip_off inum) x buf).
Definition rinode (inum : Z) : M mst inode :=
  buf <- rsect (IBLOCK inum mk_sb) ;;
  ret (load_dinode (dip_off inum) buf inode0).

Definition mkfs_ialloc (type : Z) : M mst Z :=
  inum <- gets m_inode ;;
  modify (λ s, mkMst (m_disk s) (m_len s) (u32 (inum + 1)) (m_block s)) ;;;
  winode inum (mkInode 0 0 0 0 type 0 0 1 0 (replicate (S NDIRECT) 0)) ;;;
  ret inum.

Definition set_bits (used : Z) : list Z :=
  foldl (λ buf i, set_byte i (Z.lor (bit_byte i buf) (bit_mask i)) buf) zeros (seqZ 0 used).
Definition mkfs_balloc (used : Z) : M mst unit :=
  if used <? BSIZE * 8 then wsect (sb_bmapstart mk_sb) (set_bits used) else panic "used < BSIZE*8".

(** [freeblock++] *)
Definition next_block : M mst Z :=
  b <- gets m_block ;;
  modify (λ s, mkMst (m_disk s) (m_len s) (m_inode s) (u32 (b + 1))) ;;;
  ret b.

(** The block of [fbn], given to the file if it has none. *)
Definition addr_block (k : nat) (din : inode) : M mst inode :=
  if i_addrs din !!! k =? 0 then
    b <- next_block ;; ret (set_i_addrs (<[k := b]> (i_addrs din)) din)
  else ret din.
Definition iappend_block (fbn : Z) (din : inode) : M mst (inode * Z) :=
  if fbn <? Z.of_nat NDIRECT then
    din' <- addr_block (Z.to_nat fbn) din ;;
    ret (din', i_addrs din' !!! Z.to_nat fbn)
  else
    din' <- addr_block NDIRECT din ;;
    let a := i_addrs din' !!! NDIRECT in
    let e := Z.to_nat (4 * (fbn - Z.of_nat NDIRECT)) in
    ind <- rsect a ;;
    if word e ind =? 0 then
      b <- next_block ;;
      wsect a (put_word e b ind) ;;;
      ret (din', u32 b)
    else ret (din', word e ind).

(** The loop of [iappend]; every iteration takes a byte at least. *)
Fixpoint iappend_loop (fuel : nat) (din : inode) (off : Z) (p : list Z) : M mst (inode * Z) :=
  match p, fuel with
  | [], _ => ret (din, off)
  | _, O => λ _, Fuel
  | _, S fuel' =>
    let fbn := off / BSIZE in
    if fbn <? MAXFILE then
      r <- iappend_block fbn din ;;
      let n1 := Z.to_nat (Z.min (Z.of_nat (length p)) ((fbn + 1) * BSIZE - off)) in
      buf <- rsect r.2 ;;
      wsect r.2 (put (Z.to_nat (off - fbn * BSIZE)) (take n1 p) buf) ;;;
      iappend_loop fuel' r.1 (u32 (off + Z.of_nat n1)) (drop n1 p)
    else panic "fbn < MAXFILE"
  end.
Definition iappend (inum : Z) (p : list Z) : M mst unit :=
  din <- rinode inum ;;
  r <- iappend_loop (length p) din (i_size din) p ;;
  winode inum (set_i_size r.2 r.1).

(** A file on the command line: its name, and what the reads of it return. *)
Abbreviation underscore := 95 (only parsing).
Definition skip_underscore (name : list Z) : list Z :=
  match name with c :: name' => if c =? underscore then name' else name | [] => [] end.
Definition add_file (f : list Z * list (list Z)) : M mst unit :=
  (if bool_decide (slash ∈ f.1) then panic "index(argv[i], '/') == 0" else ret tt) ;;;
  inum <- mkfs_ialloc T_FILE ;;
  iappend ROOTINO (dirent_of (skip_underscore f.1) inum) ;;;
  for_each f.2 (iappend inum).

Definition mkfs (files : list (list Z * list (list Z))) : M mst unit :=
  for_each (seqZ 0 FSSIZE) (λ i, wsect i zeros) ;;;
  wsect 1 (put 0 (sb_bytes mk_sb) zeros) ;;;
  rootino <- mkfs_ialloc T_DIR ;;
  (if rootino =? ROOTINO then ret tt else panic "rootino == ROOTINO") ;;;
  iappend rootino (dirent_of [46] rootino) ;;;
  iappend rootino (dirent_of [46; 46] rootino) ;;;
  for_each files add_file ;;;
  din <- rinode rootino ;;
  winode rootino (set_i_size (u32 ((i_size din / BSIZE + 1) * BSIZE)) din) ;;;
  b <- gets m_block ;;
  mkfs_balloc b.

(** * The blocks of a file under construction *)

#[local] Abbreviation sectors D := (∀ n : Z, length ((D : disk) n) = Z.to_nat BSIZE).

(** The blocks of the inode lie between the metadata and the counter, each in one
    place. *)
Record own (D : disk) (hi : Z) (x : inode) : Prop := {
  on_len : length (i_addrs x) = S NDIRECT;
  on_range b : -1 ≤ b < MAXFILE → slot_of D x b ≠ 0 → nmeta ≤ slot_of D x b < hi;
  on_inj b b' : -1 ≤ b < MAXFILE → -1 ≤ b' < MAXFILE → slot_of D x b ≠ 0 → slot_of D x b = slot_of D x b' → b = b';
}.

(** The file took block [m] for place [b]. *)
Record took (D : disk) (m : Z) (x : inode) (D' : disk) (x' : inode) (b : Z) : Prop := {
  tk_slot c : -1 ≤ c < MAXFILE → slot_of D' x' c = if decide (c = b) then m else slot_of D x c;
  tk_rest n : n ≠ indirect x ∨ indirect x = 0 → D' n = D n;
  tk_len : sectors D';
  tk_addrs : length (i_addrs x') = S NDIRECT;
  tk_fields : x' = set_i_addrs (i_addrs x') x;
}.

Lemma own_took D m x D' x' b :
  took D m x D' x' b → own D m x → nmeta ≤ m → -1 ≤ b < MAXFILE → own D' (m + 1) x'.
Proof.
  intros [T1 T2 T3 T4 T5] [O1 O2 O3] Hm Hb. split; [done| |].
  - intros c Hc. rewrite T1 by done. destruct (decide (c = b)); [lia|]. intros Hn. specialize (O2 c Hc Hn). lia.
  - intros c c' Hc Hc'. rewrite !T1 by done. destruct (decide (c = b)) as [->|], (decide (c' = b)) as [->|]; [done|..]; intros Hn E.
    + destruct (O2 c' Hc'); [congruence|lia].
    + destruct (O2 c Hc Hn). lia.
    + by apply O3.
Qed.

Section Took.
Context (D : disk) (x : inode) (m : Z).
Context (Ho : own D m x) (Hm : nmeta ≤ m < 2^31) (HD : sectors D) (H0 : D m = zeros).

Lemma took_direct k : (k < NDIRECT)%nat → took D m x D (set_i_addrs (<[k := m]> (i_addrs x)) x) (Z.of_nat k).
Proof.
  intros Hk. pose proof (on_len _ _ _ Ho) as Hl. split; try done; [|cbn; by rewrite length_insert].
  intros c Hc. unfold slot_of.
  replace (indirect (set_i_addrs _ x)) with (indirect x) by (unfold indirect; cbn; by rewrite list_lookup_total_insert_ne by lia).
  destruct (Z.ltb_spec c 0); [by rewrite decide_False by lia|].
  destruct (Z.ltb_spec c (Z.of_nat NDIRECT)); [|by rewrite decide_False by lia].
  cbn. destruct (decide (c = Z.of_nat k)) as [->|Hne].
  - rewrite Nat2Z.id. by rewrite list_lookup_total_insert_eq by lia.
  - by rewrite list_lookup_total_insert_ne by lia.
Qed.

Lemma took_indirect : indirect x = 0 → took D m x D (set_i_addrs (<[NDIRECT := m]> (i_addrs x)) x) (-1).
Proof.
  intros Hi. pose proof (on_len _ _ _ Ho) as Hl. split; try done; [|cbn; by rewrite length_insert].
  intros c Hc. unfold slot_of.
  replace (indirect (set_i_addrs _ x)) with m by (unfold indirect; cbn; by rewrite list_lookup_total_insert_eq by lia).
  destruct (Z.ltb_spec c 0); [by rewrite decide_True by lia|]. rewrite decide_False by lia.
  destruct (Z.ltb_spec c (Z.of_nat NDIRECT)); [cbn; by rewrite list_lookup_total_insert_ne by lia|].
  rewrite Hi, H0, word_zeros. by destruct (m =? 0).
Qed.

Lemma took_entry b : indirect x ≠ 0 → Z.of_nat NDIRECT ≤ b < MAXFILE →
  took D m x (dupd (indirect x) (put_word (Z.to_nat (4 * (b - Z.of_nat NDIRECT))) m (D (indirect x))) D) x b.
Proof.
  intros Hi Hb. pose proof (HD (indirect x)) as Hl. split; [| | |apply Ho|by destruct x].
  - intros c Hc. unfold slot_of. destruct (Z.ltb_spec c 0); [by rewrite decide_False by lia|].
    destruct (Z.ltb_spec c (Z.of_nat NDIRECT)); [by rewrite decide_False by lia|].
    destruct (Z.eqb_spec (indirect x) 0); [done|]. rewrite dupd_eq.
    unfold MAXFILE, NINDIRECT, BSIZE in *. change (512 / 4) with 128 in *. destruct (decide (c = b)) as [->|Hn].
    + rewrite word_put_word by lia. apply u32_id. change nmeta with 59 in *. lia.
    + apply word_put_ne; lia.
  - intros n [Hn|Hn]; [by rewrite dupd_ne|done].
  - intros n. unfold dupd. destruct (decide (n = indirect x)); [by rewrite length_put_word|done].
Qed.

End Took.

(** The block of place [b] is there, zeroed if it is new. *)
Record has_block (D : disk) (m : Z) (x : inode) (b : Z) (D' : disk) (m' : Z) (x' : inode) : Prop := {
  hb_own : own D' m' x';
  hb_block : slot_of D' x' b ≠ 0;
  hb_other c : 0 ≤ c < MAXFILE → c ≠ b → slot_of D' x' c = slot_of D x c;
  hb_old c : -1 ≤ c < MAXFILE → slot_of D x c ≠ 0 → slot_of D' x' c = slot_of D x c;
  hb_ind : indirect x' ≠ 0 ↔ indirect x ≠ 0 ∨ Z.of_nat NDIRECT ≤ b;
  hb_new c : -1 ≤ c < MAXFILE → slot_of D x c = 0 → slot_of D' x' c ≠ 0 → m ≤ slot_of D' x' c;
  hb_fresh : slot_of D x b = 0 → D' (slot_of D' x' b) = zeros;
  hb_rest n : n < m → n ≠ indirect x ∨ indirect x = 0 → D' n = D n;
  hb_zero n : m' ≤ n → D' n = zeros;
  hb_sectors : sectors D';
  hb_fields : x' = set_i_addrs (i_addrs x') x;
}.

(** The blocks it takes to get there. *)
Definition need (D : disk) (x : inode) (b : Z) : Z :=
  (if slot_of D x b =? 0 then 1 else 0) + (if (Z.of_nat NDIRECT <=? b) && (indirect x =? 0) then 1 else 0).

Lemma slot_indirect D x : slot_of D x (-1) = indirect x.
Proof. done. Qed.

Lemma slot_far D x b : Z.of_nat NDIRECT ≤ b → slot_of D x b ≠ 0 → indirect x ≠ 0.
Proof.
  intros Hb. unfold slot_of. destruct (Z.ltb_spec b 0); [lia|]. destruct (Z.ltb_spec b (Z.of_nat NDIRECT)); [lia|].
  by destruct (Z.eqb_spec (indirect x) 0).
Qed.

Lemma has_block_refl D m x b :
  own D m x → sectors D → (∀ n, m ≤ n → D n = zeros) → 0 ≤ b < MAXFILE → slot_of D x b ≠ 0 → has_block D m x b D m x.
Proof.
  intros Ho HD Hz Hb Hs. split; try done; [|by destruct x].
  split; [by left|]. intros [?|Hf]; [done|]. by eapply slot_far.
Qed.

Lemma has_block_took D m x b D' x' :
  took D m x D' x' b → own D m x → (∀ n, m ≤ n → D n = zeros) → nmeta ≤ m → 0 ≤ b < MAXFILE → slot_of D x b = 0 →
  (b < Z.of_nat NDIRECT ∨ indirect x ≠ 0) → has_block D m x b D' (m + 1) x'.
Proof.
  intros T Ho Hz Hm Hb H0 Hk. pose proof (own_took _ _ _ _ _ _ T Ho Hm ltac:(lia)) as Ho'. destruct T as [T1 T2 T3 T4 T5].
  assert (indirect x' = indirect x) as Ei.
  { rewrite <- (slot_indirect D' x'), T1 by done. by rewrite decide_False by lia. }
  assert (∀ n, m ≤ n → n ≠ indirect x ∨ indirect x = 0) as Hne.
  { intros n Hn. destruct (decide (indirect x = 0)) as [|Hi]; [by right|left]. intros ->.
    pose proof (on_range _ _ _ Ho (-1) ltac:(done) Hi) as Hr. rewrite slot_indirect in Hr. lia. }
  split; try done.
  - rewrite T1 by lia. rewrite decide_True by done. change nmeta with 59 in *. lia.
  - intros c Hc Hcb. rewrite T1 by lia. by rewrite decide_False.
  - intros c Hc Hn. rewrite T1 by lia. rewrite decide_False; [done|]. by intros ->.
  - rewrite Ei. destruct Hk; [|tauto]. split; [by left|]. intros [?|?]; [done|lia].
  - intros c Hc. rewrite T1 by lia. destruct (decide (c = b)); [done|]. done.
  - intros _. rewrite T1, decide_True by (done || lia). rewrite T2 by (by apply Hne). by apply Hz.
  - intros n Hn. by apply T2.
  - intros n Hn. rewrite T2 by (apply Hne; lia). apply Hz. lia.
Qed.

Lemma has_block_ind D m x b x1 D' m' x' :
  took D m x D x1 (-1) → indirect x = 0 → 0 ≤ b < MAXFILE → Z.of_nat NDIRECT ≤ b → nmeta ≤ m →
  has_block D (m + 1) x1 b D' m' x' → has_block D m x b D' m' x'.
Proof.
  intros [T1 T2 T3 T4 T5] Hi Hb Hf Hm [B1 B2 B3 B4 B5 B6 B7 B8 B9 B10 B11].
  assert (indirect x1 = m) as Ei by (rewrite <- (slot_indirect D x1), T1 by done; by rewrite decide_True).
  assert (∀ c, 0 ≤ c < MAXFILE → slot_of D x1 c = slot_of D x c) as Es.
  { intros c Hc. rewrite T1 by lia. by rewrite decide_False by lia. }
  split; try done.
  - intros c Hc Hne. by rewrite B3, Es.
  - intros c Hc Hn. assert (c ≠ -1) by (intros ->; by rewrite slot_indirect in Hn). rewrite B4 by (done || by rewrite Es by lia). apply Es. lia.
  - split; [by right|]. intros _. by eapply slot_far.
  - intros c Hc H0 Hn. destruct (decide (c = -1)) as [->|]; [|specialize (B6 c Hc); rewrite Es in B6 by lia; specialize (B6 H0 Hn); lia].
    change nmeta with 59 in *. rewrite (B4 (-1) Hc) by (rewrite slot_indirect; lia). rewrite slot_indirect. lia.
  - intros H0. apply B7. by rewrite Es.
  - intros n Hn _. apply B8; [lia|]. left. lia.
  - rewrite B11, T5. by destruct x.
Qed.

Lemma rsect_ok D l fi m n : n < l → rsect n (mkMst D l fi m) = Done (D n) (mkMst D l fi m).
Proof. intros Hn. unfold rsect. mstep. cbn [m_len]. by destruct (Z.ltb_spec n l); [|lia]. Qed.
Lemma wsect_ok D l fi m n d : n < l → wsect n d (mkMst D l fi m) = Done tt (mkMst (dupd n d D) l fi m).
Proof. intros Hn. unfold wsect. mstep. cbn [m_disk m_len m_inode m_block]. by rewrite Z.max_l by lia. Qed.

Lemma next_block_ok D l fi m : 0 ≤ m < 2^31 → next_block (mkMst D l fi m) = Done m (mkMst D l fi (m + 1)).
Proof. intros Hm. unfold next_block. mstep. cbn [m_disk m_len m_inode m_block]. by rewrite u32_id by lia. Qed.

Lemma addr_block_ok D l fi m k x : 0 ≤ m < 2^31 →
  addr_block k x (mkMst D l fi m) =
    if i_addrs x !!! k =? 0 then Done (set_i_addrs (<[k := m]> (i_addrs x)) x) (mkMst D l fi (m + 1)) else Done x (mkMst D l fi m).
Proof.
  intros Hm. unfold addr_block. destruct (i_addrs x !!! k =? 0); [|done]. mstep. rewrite next_block_ok by done. done.
Qed.

Section Block.
Context (D : disk) (l fi m : Z) (x : inode) (b : Z).
Context (Ho : own D m x) (HD : sectors D) (Hz : ∀ n, m ≤ n → D n = zeros) (Hm : nmeta ≤ m).
Context (Hb : 0 ≤ b < MAXFILE) (Hl : m + need D x b ≤ l < 2^31).

Lemma need_range : 0 ≤ need D x b.
Proof. unfold need. repeat case_match; lia. Qed.

Lemma iappend_block_near : b < Z.of_nat NDIRECT →
  ∃ D' x', iappend_block b x (mkMst D l fi m) = Done (x', slot_of D' x' b) (mkMst D' l fi (m + need D x b)) ∧
    has_block D m x b D' (m + need D x b) x'.
Proof.
  intros Hk. pose proof need_range. change nmeta with 59 in *. unfold iappend_block. destruct (Z.ltb_spec b (Z.of_nat NDIRECT)); [|lia]. mstep.
  rewrite addr_block_ok by lia. unfold need in *. destruct (Z.leb_spec (Z.of_nat NDIRECT) b); [lia|]. cbn [andb] in *. rewrite Z.add_0_r in *.
  assert (∀ y, slot_of D y b = i_addrs y !!! Z.to_nat b) as Es.
  { intros y. unfold slot_of. destruct (Z.ltb_spec b 0); [lia|]. by destruct (Z.ltb_spec b (Z.of_nat NDIRECT)); [|lia]. }
  rewrite <- Es. destruct (Z.eqb_spec (slot_of D x b) 0) as [E|E].
  - mstep. exists D, (set_i_addrs (<[Z.to_nat b := m]> (i_addrs x)) x). rewrite Es. split; [done|].
    apply has_block_took; try done; [|by left]. replace b with (Z.of_nat (Z.to_nat b)) at 2 by lia. apply took_direct; [done..|lia].
  - mstep. exists D, x. rewrite Es, Z.add_0_r. split; [done|]. by apply has_block_refl.
Qed.
End Block.

(** The entry of an indirect block that is there. *)
Lemma iappend_entry D l fi m x b :
  own D m x → sectors D → (∀ n, m ≤ n → D n = zeros) → nmeta ≤ m → Z.of_nat NDIRECT ≤ b < MAXFILE → indirect x ≠ 0 →
  m + (if slot_of D x b =? 0 then 1 else 0) ≤ l < 2^31 →
  let e := Z.to_nat (4 * (b - Z.of_nat NDIRECT)) in
  ∃ D', (ind <- rsect (indirect x) ;;
     if word e ind =? 0 then c <- next_block ;; wsect (indirect x) (put_word e c ind) ;;; ret (x, u32 c) else ret (x, word e ind)) (mkMst D l fi m) =
     Done (x, slot_of D' x b) (mkMst D' l fi (m + (if slot_of D x b =? 0 then 1 else 0))) ∧
    has_block D m x b D' (m + (if slot_of D x b =? 0 then 1 else 0)) x.
Proof.
  intros Ho HD Hz Hm Hb Hi Hl e. pose proof (on_range _ _ _ Ho (-1) ltac:(done) Hi) as Hr. rewrite slot_indirect in Hr.
  assert (slot_of D x b = word e (D (indirect x))) as Es.
  { unfold slot_of. destruct (Z.ltb_spec b 0); [lia|]. destruct (Z.ltb_spec b (Z.of_nat NDIRECT)); [lia|]. by destruct (Z.eqb_spec (indirect x) 0). }
  mstep. rewrite rsect_ok by (destruct (slot_of D x b =? 0); lia). mstep. rewrite <- Es. change nmeta with 59 in *.
  destruct (Z.eqb_spec (slot_of D x b) 0) as [E|E].
  - pose proof (took_entry D x m Ho ltac:(change nmeta with 59; lia) HD b Hi Hb) as T. mstep. rewrite next_block_ok by lia. mstep.
    rewrite wsect_ok by lia. mstep. eexists. split; [|apply has_block_took; try done; [lia|by right]].
    f_equal. f_equal. rewrite (tk_slot _ _ _ _ _ _ T) by lia. rewrite decide_True by done. apply u32_id. lia.
  - mstep. exists D. rewrite Z.add_0_r. split; [done|]. apply has_block_refl; try done. lia.
Qed.

(** [iappend] finds the block of place [b], or gives the file one. *)
Lemma iappend_block_ok D l fi m x b :
  own D m x → sectors D → (∀ n, m ≤ n → D n = zeros) → nmeta ≤ m → 0 ≤ b < MAXFILE → m + need D x b ≤ l < 2^31 →
  ∃ D' x', iappend_block b x (mkMst D l fi m) = Done (x', slot_of D' x' b) (mkMst D' l fi (m + need D x b)) ∧
    has_block D m x b D' (m + need D x b) x'.
Proof.
  intros Ho HD Hz Hm Hb Hl. destruct (decide (b < Z.of_nat NDIRECT)) as [Hn|Hf]; [by apply iappend_block_near|].
  pose proof (need_range D x b). unfold iappend_block. destruct (Z.ltb_spec b (Z.of_nat NDIRECT)); [lia|]. mstep.
  change nmeta with 59 in *. rewrite addr_block_ok by lia. unfold need in *. destruct (Z.leb_spec (Z.of_nat NDIRECT) b); [|lia]. cbn [andb] in *.
  change (i_addrs x !!! NDIRECT) with (indirect x). destruct (Z.eqb_spec (indirect x) 0) as [Hi|Hi]; mstep.
  - pose proof (took_indirect D x m Ho HD (Hz m ltac:(lia)) Hi) as T. set (x1 := set_i_addrs _ x) in *.
    assert (indirect x1 = m) as Ei by (rewrite <- (slot_indirect D x1), (tk_slot _ _ _ _ _ _ T) by done; by rewrite decide_True).
    assert (slot_of D x1 b = slot_of D x b) as Es by (rewrite (tk_slot _ _ _ _ _ _ T) by lia; by rewrite decide_False by lia).
    pose proof (own_took _ _ _ _ _ _ T Ho ltac:(change nmeta with 59; lia) ltac:(done)) as Ho1.
    destruct (iappend_entry D l fi (m + 1) x1 b) as (D' & E & B); try done; [intros n Hn; apply Hz; lia|change nmeta with 59; lia|lia|lia|rewrite Es; lia|].
    change (i_addrs x1 !!! NDIRECT) with (indirect x1). rewrite Es in *.
    replace (m + 1 + (if slot_of D x b =? 0 then 1 else 0)) with (m + ((if slot_of D x b =? 0 then 1 else 0) + 1)) in * by lia.
    exists D', x1. split; [exact E|]. by eapply has_block_ind.
  - rewrite Z.add_0_r in *. change (i_addrs x !!! NDIRECT) with (indirect x).
    destruct (iappend_entry D l fi m x b) as (D' & E & B); try done; [lia|]. by exists D', x.
Qed.

(** * Contents *)

#[local] Abbreviation len c := (Z.of_nat (length c)).

(** The inode [x] holds the contents [c], in as many blocks as they need; the rest of
    the last block is zero. *)
Record file_ok (D : disk) (hi : Z) (x : inode) (c : list Z) : Prop := {
  fk_own : own D hi x;
  fk_max : len c ≤ MAXFILE * BSIZE;
  fk_has b : 0 ≤ b < MAXFILE → slot_of D x b ≠ 0 ↔ b * BSIZE < len c;
  fk_ind : indirect x ≠ 0 ↔ Z.of_nat NDIRECT * BSIZE < len c;
  fk_byte k : 0 ≤ k < MAXFILE * BSIZE → slot_of D x (k / BSIZE) ≠ 0 → byte D x k = nth (Z.to_nat k) c 0;
}.

(** The blocks of a file of [n] bytes, its indirect block included. *)
Definition cost (n : Z) : Z := (n + BSIZE - 1) / BSIZE + (if Z.of_nat NDIRECT * BSIZE <? n then 1 else 0).

Lemma cost_mono a b : a ≤ b → cost a ≤ cost b.
Proof.
  intros Hab. unfold cost. assert ((a + BSIZE - 1) / BSIZE ≤ (b + BSIZE - 1) / BSIZE) by (apply Z.div_le_mono; [done|lia]).
  destruct (Z.ltb_spec (Z.of_nat NDIRECT * BSIZE) a), (Z.ltb_spec (Z.of_nat NDIRECT * BSIZE) b); lia.
Qed.

(** What appending to [x] leaves alone. *)
Record grows (D : disk) (m : Z) (x : inode) (D' : disk) (m' : Z) (x' : inode) : Prop := {
  gr_le : m ≤ m';
  gr_rest n : n < m → (∀ b, -1 ≤ b < MAXFILE → slot_of D x b ≠ 0 → slot_of D x b ≠ n) → D' n = D n;
  gr_old b : -1 ≤ b < MAXFILE → slot_of D x b ≠ 0 → slot_of D' x' b = slot_of D x b;
  gr_new b : -1 ≤ b < MAXFILE → slot_of D x b = 0 → slot_of D' x' b ≠ 0 → m ≤ slot_of D' x' b;
  gr_zero n : m' ≤ n → D' n = zeros;
  gr_sectors : sectors D';
  gr_fields : x' = set_i_addrs (i_addrs x') x;
}.

Lemma grows_refl D m x : sectors D → (∀ n, m ≤ n → D n = zeros) → grows D m x D m x.
Proof. intros HD Hz. split; try done. by destruct x. Qed.

Lemma grows_trans D m x D1 m1 x1 D2 m2 x2 : grows D m x D1 m1 x1 → grows D1 m1 x1 D2 m2 x2 → grows D m x D2 m2 x2.
Proof.
  intros [A1 A2 A3 A4 A5 A6 A7] [B1 B2 B3 B4 B5 B6 B7]. split; try done; [lia|..].
  - intros n Hn Hs. rewrite B2; [by apply A2|lia|]. intros b Hb Hnz. destruct (decide (slot_of D x b = 0)) as [E|E].
    + specialize (A4 b Hb E Hnz). lia.
    + rewrite A3 by done. by apply Hs.
  - intros b Hb Hn. rewrite B3, A3 by (done || by rewrite A3). done.
  - intros b Hb H0 Hn. destruct (decide (slot_of D1 x1 b = 0)) as [E|E]; [specialize (B4 b Hb E Hn); lia|].
    rewrite B3 by done. by apply A4.
  - rewrite B7, A7. by destruct x.
Qed.

Lemma byte_block k : 0 ≤ k < MAXFILE * BSIZE → 0 ≤ k / BSIZE < MAXFILE.
Proof. unfold BSIZE. change (MAXFILE * 512) with 71680. change MAXFILE with 140. intros Hk. Z.div_mod_to_equations. lia. Qed.

(** A disk that agrees on the blocks of a file has the file. *)
Lemma slots_keep D D' y :
  (indirect y ≠ 0 → D' (indirect y) = D (indirect y)) → ∀ b, slot_of D' y b = slot_of D y b.
Proof. intros Hk b. unfold slot_of. repeat case_match; try done. rewrite Hk; [done|]. by destruct (Z.eqb_spec (indirect y) 0). Qed.

Lemma file_ok_keep D D' hi hi' y c :
  file_ok D hi y c → hi ≤ hi' → (∀ b, -1 ≤ b < MAXFILE → slot_of D y b ≠ 0 → D' (slot_of D y b) = D (slot_of D y b)) →
  file_ok D' hi' y c.
Proof.
  intros [[O1 O2 O3] F2 F3 F4 F5] Hhi Hk. assert (∀ b, slot_of D' y b = slot_of D y b) as Es.
  { apply slots_keep. intros Hi. by apply (Hk (-1)). }
  split; try done; [split; [done|..]|..].
  - intros b Hb. rewrite Es. intros Hn. specialize (O2 b Hb Hn). lia.
  - intros b b' Hb Hb'. rewrite !Es. by apply O3.
  - intros b Hb. rewrite Es. by apply F3.
  - intros k Hk' Hn. rewrite Es in Hn. unfold byte. rewrite Es, Hk by (done || pose proof (byte_block k Hk'); lia). by apply F5.
Qed.

Lemma file_ok_addrs D hi x y c : file_ok D hi x c → i_addrs y = i_addrs x → file_ok D hi y c.
Proof.
  intros F E. assert (∀ D b, slot_of D y b = slot_of D x b) as Es by (intros; unfold slot_of, indirect; by rewrite E).
  destruct F as [[O1 O2 O3] F2 F3 F4 F5]. split; try done; [split; [by rewrite E|..]|..].
  - intros b. rewrite Es. apply O2.
  - intros b b'. rewrite !Es. apply O3.
  - intros b. rewrite Es. apply F3.
  - unfold indirect. by rewrite E.
  - intros k. unfold byte. rewrite Es. apply F5.
Qed.

(** Two files with no block in common. *)
Definition sep (D : disk) (x y : inode) : Prop :=
  ∀ b b', -1 ≤ b < MAXFILE → -1 ≤ b' < MAXFILE → slot_of D x b ≠ 0 → slot_of D x b ≠ slot_of D y b'.

Lemma sep_sym D x y : sep D x y → sep D y x.
Proof. intros Hs b b' Hb Hb' Hn E. apply (Hs b' b); congruence. Qed.

(** The other files do not notice. *)
Lemma grows_blocks D m x D' m' x' y c b :
  grows D m x D' m' x' → file_ok D m y c → sep D y x → -1 ≤ b < MAXFILE → slot_of D y b ≠ 0 → D' (slot_of D y b) = D (slot_of D y b).
Proof. intros G F Hs Hb Hn. apply G; [by apply F|]. intros b' Hb' Hn' E. by apply (Hs b b'). Qed.

Lemma grows_slots D m x D' m' x' y c b :
  grows D m x D' m' x' → file_ok D m y c → sep D y x → slot_of D' y b = slot_of D y b.
Proof. intros G F Hs. apply slots_keep. intros Hi. by apply (grows_blocks D m x D' m' x' y c (-1)). Qed.

Lemma grows_frame D m x D' m' x' y c :
  grows D m x D' m' x' → file_ok D m y c → sep D y x → file_ok D' m' y c ∧ sep D' y x'.
Proof.
  intros G F Hs. assert (∀ b, -1 ≤ b < MAXFILE → slot_of D y b ≠ 0 → D' (slot_of D y b) = D (slot_of D y b)) as Hk.
  { intros b Hb Hn. by eapply grows_blocks. }
  split; [eapply file_ok_keep; [done|apply G|done]|].
  intros b b' Hb Hb'. rewrite (grows_slots D m x D' m' x' y c) by done. intros Hn E.
  pose proof (on_range _ _ _ (fk_own _ _ _ _ F) b Hb Hn) as Hr. destruct (decide (slot_of D x b' = 0)) as [E0|E0].
  - pose proof (gr_new _ _ _ _ _ _ G b' Hb' E0 ltac:(congruence)). lia.
  - rewrite (gr_old _ _ _ _ _ _ G) in E by done. by apply (Hs b b').
Qed.

Lemma need_cost D m x c n : file_ok D m x c → 0 < n → len c mod BSIZE + n ≤ BSIZE → len c + n ≤ MAXFILE * BSIZE →
  need D x (len c / BSIZE) = cost (len c + n) - cost (len c).
Proof.
  intros [_ _ F3 F4 _] Hn Hb Hmax. unfold need, cost. specialize (F3 (len c / BSIZE)). change (MAXFILE * BSIZE) with 71680 in *.
  change MAXFILE with 140 in *. change (Z.of_nat NDIRECT * BSIZE) with 6144 in *. change (Z.of_nat NDIRECT) with 12. unfold BSIZE in *.
  destruct F3 as [F3a F3b]; [Z.div_mod_to_equations; lia|]. destruct F4 as [F4a F4b].
  destruct (Z.eqb_spec (slot_of D x (len c / 512)) 0) as [E|E]; destruct (Z.eqb_spec (indirect x) 0) as [E'|E'].
  all: destruct (Z.leb_spec 12 (len c / 512)), (Z.ltb_spec 6144 (len c + n)), (Z.ltb_spec 6144 (len c)); cbn [andb].
  all: clear - Hn Hb Hmax E E' F3a F3b F4a F4b H H0 H1; Z.div_mod_to_equations; lia.
Qed.

Lemma lookup_nth (l : list Z) k : (k < length l)%nat → l !!! k = nth k l 0.
Proof.
  intros Hk. destruct (lookup_lt_is_Some_2 l k Hk) as [v Hv]. rewrite (list_lookup_total_correct _ _ _ Hv). symmetry.
  by rewrite nth_lookup, Hv.
Qed.

Lemma put_nth o bs d k : (o + length bs ≤ length d)%nat → (k < length d)%nat →
  put o bs d !!! k = if decide (o ≤ k < o + length bs)%nat then nth (k - o) bs 0 else d !!! k.
Proof.
  intros Hl Hk. rewrite !list_lookup_total_alt. destruct (decide _) as [Hin|Hout].
  - unfold put. rewrite list_lookup_inserts by lia. rewrite <- list_lookup_total_alt. apply lookup_nth. lia.
  - f_equal. apply put_out. lia.
Qed.

Section Chunk.
Context (D : disk) (m : Z) (x : inode) (c bs : list Z) (D1 : disk) (m' : Z) (x' : inode).
Context (F : file_ok D m x c) (Hbs : 0 < len bs) (Hin : len c mod BSIZE + len bs ≤ BSIZE).
Context (Hmax : len c / BSIZE < MAXFILE) (HB : has_block D m x (len c / BSIZE) D1 m' x') (Hle : m ≤ m').
#[local] Abbreviation b := (len c / BSIZE).
#[local] Abbreviation r := (slot_of D1 x' b).
#[local] Abbreviation o := (Z.to_nat (len c mod BSIZE)).
Definition chunk_disk : disk := dupd r (put o bs (D1 r)) D1.

Lemma chunk_place : 0 ≤ b < MAXFILE.
Proof. split; [|done]. apply Z.div_pos; [lia|done]. Qed.

Lemma chunk_ne c' : -1 ≤ c' < MAXFILE → c' ≠ b → slot_of D1 x' c' ≠ 0 → slot_of D1 x' c' ≠ r.
Proof. intros Hc Hne Hn E. apply Hne. pose proof chunk_place. apply (on_inj _ _ _ (hb_own _ _ _ _ _ _ _ HB)); (done || lia). Qed.

Lemma chunk_slot c' : slot_of chunk_disk x' c' = slot_of D1 x' c'.
Proof.
  apply slots_keep. intros Hi. unfold chunk_disk. apply dupd_ne. apply (chunk_ne (-1)); [done|pose proof chunk_place; lia|done].
Qed.

Lemma chunk_own : own chunk_disk m' x'.
Proof.
  destruct (hb_own _ _ _ _ _ _ _ HB) as [O1 O2 O3]. split; [done|..].
  - intros c'. rewrite chunk_slot. apply O2.
  - intros c' c''. rewrite !chunk_slot. apply O3.
Qed.

(** A block the file had is as it was. *)
Lemma chunk_kept c' : 0 ≤ c' < MAXFILE → slot_of D x c' ≠ 0 → D1 (slot_of D1 x' c') = D (slot_of D x c').
Proof.
  intros Hc Hn. rewrite (hb_old _ _ _ _ _ _ _ HB) by (done || lia). pose proof (fk_own _ _ _ _ F) as Ho. apply HB; [apply Ho; [lia|done]|].
  destruct (decide (indirect x = 0)) as [|Hi]; [by right|left]. intros E.
  assert (c' = -1); [|lia]. by apply (on_inj _ _ _ Ho); [lia|..].
Qed.

Lemma chunk_byte k : 0 ≤ k < MAXFILE * BSIZE → slot_of chunk_disk x' (k / BSIZE) ≠ 0 → byte chunk_disk x' k = nth (Z.to_nat k) (c ++ bs) 0.
Proof.
  intros Hk. pose proof chunk_place as Hb. pose proof (byte_block k Hk) as Hkb. unfold byte. rewrite chunk_slot. intros Hn.
  pose proof (Z.mod_pos_bound k BSIZE ltac:(done)) as Hkm. pose proof (Z.div_mod k BSIZE ltac:(done)) as Hkd.
  pose proof (Z.mod_pos_bound (len c) BSIZE ltac:(done)) as Hcm. pose proof (Z.div_mod (len c) BSIZE ltac:(done)) as Hcd.
  pose proof (fk_has _ _ _ _ F (k / BSIZE) Hkb) as Hhas. pose proof (fk_byte _ _ _ _ F k Hk) as Hold. unfold byte in Hold.
  unfold chunk_disk. destruct (decide (k / BSIZE = b)) as [E|E].
  - rewrite E in *. rewrite dupd_eq, put_nth by (rewrite (hb_sectors _ _ _ _ _ _ _ HB); unfold BSIZE in *; lia).
    destruct (decide _) as [Hi|Ho].
    + rewrite app_nth2 by lia. f_equal. lia.
    + destruct (decide (slot_of D x b = 0)) as [E0|E0].
      * rewrite (hb_fresh _ _ _ _ _ _ _ HB E0). unfold zeros. rewrite lookup_total_replicate_2 by (unfold BSIZE in *; lia).
        symmetry. apply nth_overflow. rewrite length_app. assert (¬ b * BSIZE < len c) by tauto. lia.
      * rewrite chunk_kept, Hold by done. destruct (decide (k < len c)); [rewrite app_nth1 by lia; done|].
        rewrite !nth_overflow by (rewrite ?length_app; lia). done.
  - rewrite dupd_ne by (apply chunk_ne; [lia|done|done]).
    assert (slot_of D x (k / BSIZE) ≠ 0) as Hn' by (by rewrite <- (hb_other _ _ _ _ _ _ _ HB) by (done || lia)).
    rewrite chunk_kept, Hold by done. apply Hhas in Hn'. destruct (decide (k < len c)); [by rewrite app_nth1 by lia|].
    exfalso. apply E. unfold BSIZE in *. lia.
Qed.

Lemma chunk_file : file_ok chunk_disk m' x' (c ++ bs).
Proof.
  pose proof chunk_place as Hb. pose proof (hb_ind _ _ _ _ _ _ _ HB) as Hi. pose proof (fk_ind _ _ _ _ F) as Fi.
  split; [apply chunk_own|..|apply chunk_byte]; rewrite length_app, Nat2Z.inj_add.
  - change (MAXFILE * BSIZE) with 71680. change MAXFILE with 140 in *. unfold BSIZE in *. Z.div_mod_to_equations. lia.
  - intros c' Hc. rewrite chunk_slot. destruct (decide (c' = b)) as [->|Hne].
    + split; [intros _|intros _; apply HB]. unfold BSIZE in *. Z.div_mod_to_equations. lia.
    + rewrite (hb_other _ _ _ _ _ _ _ HB), (fk_has _ _ _ _ F) by done. unfold BSIZE in *. Z.div_mod_to_equations. lia.
  - rewrite Hi, Fi. change (Z.of_nat NDIRECT * BSIZE) with 6144. change (Z.of_nat NDIRECT) with 12. unfold BSIZE in *. Z.div_mod_to_equations. lia.
Qed.

Lemma chunk_grows : grows D m x chunk_disk m' x'.
Proof.
  pose proof chunk_place as Hb. pose proof (on_range _ _ _ (hb_own _ _ _ _ _ _ _ HB) b ltac:(lia) (hb_block _ _ _ _ _ _ _ HB)) as Hr.
  split; [done|..|apply HB].
  - intros n Hn Hs. unfold chunk_disk. rewrite dupd_ne.
    + apply HB; [done|]. destruct (decide (indirect x = 0)) as [|Hi]; [by right|left]. intros ->. by apply (Hs (-1)).
    + intros ->. destruct (decide (slot_of D x b = 0)) as [E|E].
      * pose proof (hb_new _ _ _ _ _ _ _ HB b ltac:(lia) E (hb_block _ _ _ _ _ _ _ HB)). lia.
      * apply (Hs b); [lia|done|]. symmetry. exact (hb_old _ _ _ _ _ _ _ HB b ltac:(lia) E).
  - intros c' Hc Hn. rewrite chunk_slot. by apply (hb_old _ _ _ _ _ _ _ HB).
  - intros c' Hc. rewrite chunk_slot. by apply (hb_new _ _ _ _ _ _ _ HB).
  - intros n Hn. unfold chunk_disk. rewrite dupd_ne by lia. by apply (hb_zero _ _ _ _ _ _ _ HB).
  - intros n. unfold chunk_disk, dupd. destruct (decide (n = r)); [rewrite length_put|]; apply (hb_sectors _ _ _ _ _ _ _ HB).
Qed.
End Chunk.

(** The loop of [iappend] adds the bytes to the file, and takes just the blocks they
    need. *)
Lemma iappend_loop_ok l fi : l < 2^31 → ∀ fuel p D m x c,
  file_ok D m x c → sectors D → (∀ n, m ≤ n → D n = zeros) → nmeta ≤ m → (length p ≤ fuel)%nat → len c + len p ≤ MAXFILE * BSIZE →
  m + (cost (len c + len p) - cost (len c)) ≤ l →
  ∃ D' x', iappend_loop fuel x (len c) p (mkMst D l fi m) =
      Done (x', len c + len p) (mkMst D' l fi (m + (cost (len c + len p) - cost (len c)))) ∧
    file_ok D' (m + (cost (len c + len p) - cost (len c))) x' (c ++ p) ∧
    grows D m x D' (m + (cost (len c + len p) - cost (len c))) x'.
Proof.
  intros Hl fuel. induction fuel as [|fuel IH]; intros p D m x c F HD Hz Hm Hfuel Hmax Hroom.
  - destruct p; [|cbn in Hfuel; lia]. exists D, x. rewrite app_nil_r. cbn [length Z.of_nat]. rewrite Z.add_0_r, Z.sub_diag, Z.add_0_r.
    split; [done|]. split; [done|]. by apply grows_refl.
  - destruct (decide (p = [])) as [->|Hp].
    { exists D, x. rewrite app_nil_r. cbn [length Z.of_nat]. rewrite Z.add_0_r, Z.sub_diag, Z.add_0_r.
      split; [done|]. split; [done|]. by apply grows_refl. }
    set (n1 := Z.to_nat (Z.min (len p) ((len c / BSIZE + 1) * BSIZE - len c))).
    assert (0 < len p) as Hlp by (destruct p; [done|cbn; lia]).
    assert (0 < Z.of_nat n1 ≤ len p ∧ len c mod BSIZE + Z.of_nat n1 ≤ BSIZE) as [Hn1 Hn2].
    { unfold n1, BSIZE. Z.div_mod_to_equations. lia. }
    assert (len (take n1 p) = Z.of_nat n1) as Ht by (rewrite length_take; lia).
    assert (len (drop n1 p) = len p - Z.of_nat n1) as Hd by (rewrite length_drop; lia).
    assert (0 ≤ len c / BSIZE < MAXFILE) as Hb by (apply byte_block; lia).
    pose proof (need_cost D m x c (Z.of_nat n1) F ltac:(lia) Hn2 ltac:(lia)) as Hneed.
    pose proof (cost_mono (len c + Z.of_nat n1) (len c + len p) ltac:(lia)). pose proof (need_range D x (len c / BSIZE)).
    destruct (iappend_block_ok D l fi m x (len c / BSIZE)) as (D1 & x1 & E1 & B); [apply F|done|done|done|done|lia|].
    rewrite Hneed in *. set (m1 := m + (cost (len c + Z.of_nat n1) - cost (len c))) in *.
    assert (slot_of D1 x1 (len c / BSIZE) < l) as Hrl by (destruct (on_range _ _ _ (hb_own _ _ _ _ _ _ _ B) (len c / BSIZE) ltac:(lia) (hb_block _ _ _ _ _ _ _ B)); lia).
    pose proof (chunk_file D m x c (take n1 p) D1 m1 x1 F ltac:(lia) ltac:(lia) ltac:(lia) B) as F1.
    pose proof (chunk_grows D m x c (take n1 p) D1 m1 x1 ltac:(lia) B ltac:(lia)) as G1.
    set (D2 := chunk_disk c (take n1 p) D1 x1) in *.
    assert (len (c ++ take n1 p) = len c + Z.of_nat n1) as El by (rewrite length_app; lia).
    destruct (IH (drop n1 p) D2 m1 x1 (c ++ take n1 p)) as (D' & x' & E' & F' & G'); [done|apply G1|apply G1|lia|lia|lia|rewrite El, Hd; replace (len c + Z.of_nat n1 + (len p - Z.of_nat n1)) with (len c + len p) by lia; lia|].
    rewrite <- app_assoc, take_drop, El, Hd in *.
    replace (len c + Z.of_nat n1 + (len p - Z.of_nat n1)) with (len c + len p) in * by lia.
    replace (m1 + (cost (len c + len p) - cost (len c + Z.of_nat n1))) with (m + (cost (len c + len p) - cost (len c))) in * by lia.
    exists D', x'. split; [|split; [done|by eapply grows_trans]].
    rewrite <- E'. destruct p as [|v p']; [done|]. cbn [iappend_loop]. destruct (Z.ltb_spec (len c / BSIZE) MAXFILE); [|lia].
    mstep. rewrite E1. mstep. cbn [fst snd]. fold n1. rewrite rsect_ok by done. mstep. rewrite wsect_ok by done. mstep.
    unfold D2, chunk_disk. rewrite u32_id by (change (MAXFILE * BSIZE) with 71680 in *; lia).
    repeat f_equal. rewrite Z.mod_eq by done. lia.
Qed.

(** * The image *)

(** The files: type and contents, inode 1 first. *)
Abbreviation files := (list (Z * list Z)).
Definition total (fs : files) : Z := foldr (λ f z, cost (len f.2) + z) 0 fs.
Definition node (D : disk) (k : nat) : inode := disk_inode mk_sb D (Z.of_nat k + 1).
Definition super : list Z := put 0 (sb_bytes mk_sb) zeros.

Record image (D : disk) (m : Z) (fs : files) : Prop := {
  im_sectors : sectors D;
  im_zero n : m ≤ n → D n = zeros;
  im_blocks : m = nmeta + total fs;
  im_count : Z.of_nat (length fs) < NINODES;
  im_node k f : fs !! k = Some f →
    node D k = mkInode 0 0 0 0 f.1 0 0 1 (len f.2) (i_addrs (node D k)) ∧ (f.1 = T_DIR ∨ f.1 = T_FILE);
  im_file k f : fs !! k = Some f → file_ok D m (node D k) f.2;
  im_sep k k' : (k < length fs)%nat → (k' < length fs)%nat → k ≠ k' → sep D (node D k) (node D k');
  im_boot n : n < 2 + LOGSIZE → D n = if decide (n = 1) then super else zeros;
  im_unused k : (length fs ≤ k)%nat → Z.of_nat k + 1 < NINODES → i_type (node D k) = 0;
}.

Lemma total_insert fs k f g : fs !! k = Some f → total (<[k := g]> fs) = total fs + (cost (len g.2) - cost (len f.2)).
Proof.
  revert k. induction fs as [|h fs IH]; intros [|k] Hk; cbn in *; simplify_eq; [lia|]. unfold total in *. cbn. rewrite IH by done. lia.
Qed.
Lemma total_cat fs gs : total (fs ++ gs) = total fs + total gs.
Proof. induction fs as [|h fs IH]; [done|]. unfold total in *. cbn. rewrite IH. lia. Qed.
Lemma cost_pos n : 0 ≤ n → 0 ≤ cost n.
Proof. intros Hn. unfold cost. assert (0 ≤ (n + BSIZE - 1) / BSIZE) by (apply Z.div_pos; unfold BSIZE; lia). destruct (_ <? n); lia. Qed.
Lemma total_pos fs : 0 ≤ total fs.
Proof. induction fs as [|h fs IH]; [done|]. unfold total in *. cbn. pose proof (cost_pos (len h.2)). lia. Qed.

(** ** Inodes *)

Lemma ino_block inum : 0 ≤ inum < NINODES → IBLOCK inum mk_sb = inode_block mk_sb inum ∧ 2 + LOGSIZE ≤ inode_block mk_sb inum < nmeta - 1.
Proof.
  intros Hi. unfold IBLOCK, inode_block. change (sb_inodestart mk_sb) with 32. change (2 + LOGSIZE) with 32. change (nmeta - 1) with 58. change IPB with 8.
  rewrite u32_id by (Z.div_mod_to_equations; lia). split; Z.div_mod_to_equations; lia.
Qed.

Lemma rinode_ok D l fi m k : nmeta ≤ l → Z.of_nat k + 1 < NINODES → rinode (Z.of_nat k + 1) (mkMst D l fi m) = Done (node D k) (mkMst D l fi m).
Proof.
  intros Hl Hk. destruct (ino_block (Z.of_nat k + 1)) as [E Hr]; [lia|]. unfold rinode. mstep. rewrite E, rsect_ok by lia. done.
Qed.

Lemma winode_ok D l fi m inum x : nmeta ≤ l → 0 ≤ inum < NINODES →
  winode inum x (mkMst D l fi m) = Done tt (mkMst (put_inode mk_sb D (set_i_inum inum x)) l fi m).
Proof.
  intros Hl Hk. destruct (ino_block inum) as [E Hr]; [lia|]. unfold winode. mstep. rewrite E, rsect_ok by lia. mstep. rewrite wsect_ok by lia. done.
Qed.

Lemma put_inode_keep D x n : 0 ≤ i_inum x < NINODES → n < 2 + LOGSIZE ∨ nmeta - 1 ≤ n → put_inode mk_sb D x n = D n.
Proof. intros Hi Hn. destruct (ino_block _ Hi) as [_ Hr]. apply dupd_ne. lia. Qed.

Lemma put_inode_sectors D x : sectors D → sectors (put_inode mk_sb D x).
Proof. intros HD n. unfold put_inode, dupd. destruct (decide _); [rewrite length_put_dinode|]; apply HD. Qed.

Lemma own_addr D hi x k a : own D hi x → hi < 2^31 → i_addrs x !! k = Some a → 0 ≤ a < 2^32.
Proof.
  intros [O1 O2 _] Hhi Hk. pose proof (lookup_lt_Some _ _ _ Hk) as Hlt. rewrite O1 in Hlt.
  pose proof (slot_place 1 ltac:(lia) D x k ltac:(lia)) as Es. rewrite (list_lookup_total_correct _ _ _ Hk) in Es.
  destruct (decide (a = 0)) as [->|Ha]; [lia|]. destruct (O2 (place k)) as [H1 H2].
  - unfold place. change MAXFILE with 140. unfold NDIRECT in *. case_decide; lia.
  - congruence.
  - rewrite Es in *. change nmeta with 59 in *. lia.
Qed.

(** Blocks of files are not metadata. *)
Lemma file_ok_data D D' m y c : file_ok D m y c → (∀ n, nmeta ≤ n → D' n = D n) → file_ok D' m y c ∧ ∀ b, slot_of D' y b = slot_of D y b.
Proof.
  intros F Hd. assert (∀ b, -1 ≤ b < MAXFILE → slot_of D y b ≠ 0 → D' (slot_of D y b) = D (slot_of D y b)) as Hk.
  { intros b Hb Hn. apply Hd. by apply F. }
  split; [by eapply file_ok_keep|]. apply slots_keep. intros Hi. by apply (Hk (-1)).
Qed.

Lemma put_node D x k k' : sectors D → inode_wf x →
  node (put_inode mk_sb D (set_i_inum (Z.of_nat k + 1) x)) k' =
    if decide (k' = k) then mkInode 0 0 0 0 (i_type x) (i_major x) (i_minor x) (i_nlink x) (i_size x) (i_addrs x) else node D k'.
Proof.
  intros HD [I1 I2 I3 I4 I5 I6 I7]. unfold node. rewrite (disk_put_inode 1 ltac:(lia)) by done. cbn [i_inum set_i_inum].
  destruct (decide (k' = k)) as [->|]; [by rewrite decide_True|by rewrite decide_False by lia].
Qed.

Lemma sep_data D D' m x y c c' : file_ok D m x c → file_ok D m y c' → (∀ n, nmeta ≤ n → D' n = D n) → sep D x y → sep D' x y.
Proof.
  intros Fx Fy Hd Hs b b' Hb Hb'. destruct (file_ok_data D D' m x c Fx Hd) as [_ ->], (file_ok_data D D' m y c' Fy Hd) as [_ ->]. by apply Hs.
Qed.

(** Writing the inode of file [k] when its blocks are in place. *)
Lemma image_put D m (fs : files) k x t c :
  sectors D → (∀ n, m ≤ n → D n = zeros) → (∀ n, n < 2 + LOGSIZE → D n = if decide (n = 1) then super else zeros) →
  m = nmeta + total fs → m < 2^31 → Z.of_nat (length fs) < NINODES → fs !! k = Some (t, c) → t = T_DIR ∨ t = T_FILE →
  x = mkInode (i_dev x) (i_inum x) (i_ref x) (i_flags x) t 0 0 1 (len c) (i_addrs x) → file_ok D m x c →
  (∀ k' f, k' ≠ k → fs !! k' = Some f →
     (node D k' = mkInode 0 0 0 0 f.1 0 0 1 (len f.2) (i_addrs (node D k')) ∧ (f.1 = T_DIR ∨ f.1 = T_FILE)) ∧
     file_ok D m (node D k') f.2 ∧ sep D (node D k') x) →
  (∀ k' k'', k' ≠ k → k'' ≠ k → (k' < length fs)%nat → (k'' < length fs)%nat → k' ≠ k'' → sep D (node D k') (node D k'')) →
  (∀ k', (length fs ≤ k')%nat → Z.of_nat k' + 1 < NINODES → i_type (node D k') = 0) →
  image (put_inode mk_sb D (set_i_inum (Z.of_nat k + 1) x)) m fs.
Proof.
  intros HD Hz Hboot Hm Hlt Hcnt Hk Ht Hx F Hoth Hsep Hun. pose proof (lookup_lt_Some _ _ _ Hk) as Hkl.
  assert (inode_wf x) as Hw.
  { rewrite Hx. pose proof (fk_max _ _ _ _ F) as Hmx. change (MAXFILE * BSIZE) with 71680 in Hmx.
    split; cbn; try lia; [destruct Ht as [-> | ->]; unfold T_DIR, T_FILE; lia|apply F|].
    intros j a. eapply own_addr; [apply F|done]. }
  set (D' := put_inode _ _ _). pose proof (put_node D x k) as Hn. fold D' in Hn.
  assert (∀ n, n < 2 + LOGSIZE ∨ nmeta - 1 ≤ n → D' n = D n) as Hkeep by (intros n Hn'; apply put_inode_keep; [cbn; lia|done]).
  assert (∀ n, nmeta ≤ n → D' n = D n) as Hdat by (intros n Hn'; apply Hkeep; lia).
  assert (∀ k' f, k' ≠ k → fs !! k' = Some f → file_ok D m (node D k') f.2) as HF by (intros k' f Hne Hk'; by apply (Hoth k' f)).
  pose proof (total_pos fs). change nmeta with 59 in *. split; try done.
  - by apply put_inode_sectors.
  - intros n Hn'. rewrite Hdat by lia. by apply Hz.
  - intros k' f Hk'. rewrite Hn by done. destruct (decide (k' = k)) as [->|Hne].
    + rewrite Hk in Hk'. injection Hk' as <-. rewrite Hx. done.
    + by apply Hoth.
  - intros k' f Hk'. rewrite Hn by done. destruct (decide (k' = k)) as [->|Hne].
    + rewrite Hk in Hk'. injection Hk' as <-. eapply file_ok_addrs; [eapply file_ok_data; [exact F|exact Hdat]|done].
    + eapply file_ok_data; [by apply HF|exact Hdat].
  - intros k1 k2 H1 H2 Hne. rewrite !Hn by done.
    destruct (lookup_lt_is_Some_2 fs k1 H1) as [f1 E1], (lookup_lt_is_Some_2 fs k2 H2) as [f2 E2].
    assert (∀ k' f, k' ≠ k → fs !! k' = Some f → sep D' (node D k') x) as Hs.
    { intros k' f Hne' Hk'. destruct (Hoth k' f Hne' Hk') as (_ & F' & S'). by eapply sep_data. }
    destruct (decide (k1 = k)) as [->|Hne1], (decide (k2 = k)) as [->|Hne2]; [done|..].
    + intros b b' Hb Hb'. exact (sep_sym _ _ _ (Hs k2 f2 Hne2 E2) b b' Hb Hb').
    + exact (Hs k1 f1 Hne1 E1).
    + eapply sep_data; [by eapply HF|by eapply HF|done|by apply Hsep].
  - intros n Hn'. rewrite Hkeep by lia. by apply Hboot.
  - intros k' Hk' Hk2. rewrite Hn by done. rewrite decide_False by lia. by apply Hun.
Qed.

Definition empty_inode (t : Z) : inode := mkInode 0 0 0 0 t 0 0 1 0 (replicate (S NDIRECT) 0).

Lemma empty_slot D t b : slot_of D (empty_inode t) b = 0.
Proof.
  unfold slot_of. destruct (b <? 0) eqn:E1; [done|]. destruct (Z.ltb_spec b (Z.of_nat NDIRECT)); [|done].
  cbn [i_addrs empty_inode]. apply lookup_total_replicate_2. lia.
Qed.

Lemma empty_file D m t : file_ok D m (empty_inode t) [].
Proof.
  split; [split; [done|..]|done|..].
  - intros b Hb. by rewrite empty_slot.
  - intros b b' Hb Hb'. by rewrite empty_slot.
  - intros b Hb. rewrite empty_slot. unfold BSIZE. cbn. lia.
  - done.
  - intros k Hk. by rewrite empty_slot.
Qed.

Lemma ialloc_ok D m (fs : files) t :
  image D m fs → Z.of_nat (length fs) + 1 < NINODES → m ≤ FSSIZE → t = T_DIR ∨ t = T_FILE →
  ∃ D', mkfs_ialloc t (mkMst D FSSIZE (Z.of_nat (length fs) + 1) m) =
      Done (Z.of_nat (length fs) + 1) (mkMst D' FSSIZE (Z.of_nat (length (fs ++ [(t, [])])) + 1) m) ∧
    image D' m (fs ++ [(t, [])]).
Proof.
  intros [I1 I2 I3 I4 I5 I6 I7 I8 I9] Hc Hm Ht. unfold mkfs_ialloc. mstep. cbn [m_inode m_disk m_len m_block]. mstep.
  rewrite winode_ok by (change nmeta with 59; unfold FSSIZE; lia). mstep. rewrite u32_id by lia. eexists. split.
  { f_equal. f_equal. rewrite length_app. cbn [length]. lia. }
  unfold FSSIZE in *. apply (image_put D m _ (length fs) (empty_inode t) t []); try done.
  - rewrite total_cat. change (total [(t, [])]) with 0. lia.
  - lia.
  - rewrite length_app. cbn [length]. lia.
  - by rewrite lookup_app_r, Nat.sub_diag by lia.
  - apply empty_file.
  - intros k' f Hne Hk'. assert (fs !! k' = Some f) as Hk.
    { apply lookup_app_Some in Hk' as [|[Hge Hk']]; [done|]. apply list_lookup_singleton_Some in Hk' as [? _]. lia. }
    split; [by apply I5|]. split; [by apply I6|]. intros b b' Hb Hb' Hn. by rewrite empty_slot.
  - intros k' k'' H1 H2 Hl1 Hl2 Hne. rewrite length_app in *. cbn [length] in *. apply I7; lia.
  - intros k' Hk'. rewrite length_app in Hk'. apply I9. lia.
Qed.

Lemma node_keep D D' k : Z.of_nat k + 1 < NINODES → (∀ n, 2 + LOGSIZE ≤ n < nmeta - 1 → D' n = D n) → node D' k = node D k.
Proof. intros Hk Hd. destruct (ino_block (Z.of_nat k + 1)) as [_ Hr]; [lia|]. unfold node, disk_inode. by rewrite Hd. Qed.

Lemma iappend_ok D m (fs : files) k t c p fi :
  image D m fs → fs !! k = Some (t, c) → len c + len p ≤ MAXFILE * BSIZE → nmeta + total (<[k := (t, c ++ p)]> fs) ≤ FSSIZE →
  ∃ D' m', iappend (Z.of_nat k + 1) p (mkMst D FSSIZE fi m) = Done tt (mkMst D' FSSIZE fi m') ∧ image D' m' (<[k := (t, c ++ p)]> fs).
Proof.
  intros Him Hk Hmax Hroom. pose proof Him as [I1 I2 I3 I4 I5 I6 I7 I8 I9]. destruct (I5 k _ Hk) as [En Ht]. pose proof (I6 k _ Hk) as F. cbn [fst snd] in *.
  pose proof (lookup_lt_Some _ _ _ Hk) as Hkl. pose proof (total_pos fs). change nmeta with 59 in *. rewrite (total_insert fs k (t, c) (t, c ++ p) Hk) in Hroom.
  cbn [snd] in Hroom. rewrite length_app, Nat2Z.inj_add in Hroom. unfold FSSIZE in *.
  unfold iappend. mstep. rewrite rinode_ok by (change nmeta with 59; lia). mstep.
  replace (i_size (node D k)) with (len c) by (by rewrite En).
  destruct (iappend_loop_ok 1000 fi ltac:(lia) (length p) p D m (node D k) c) as (D1 & x1 & E & F1 & G1); try done; [change nmeta with 59; lia|lia|].
  rewrite E. mstep. cbn [fst snd]. rewrite winode_ok by (change nmeta with 59; lia). set (m1 := m + _) in *.
  do 2 eexists. split; [done|].
  assert (∀ n, n < nmeta → D1 n = D n) as Hmeta.
  { intros n Hn. change nmeta with 59 in *. apply G1; [lia|]. intros b Hb Hnz E'. pose proof (on_range _ _ _ (fk_own _ _ _ _ F) b Hb Hnz) as Hr. change nmeta with 59 in Hr. lia. }
  assert (∀ k', Z.of_nat k' + 1 < NINODES → node D1 k' = node D k') as Hnode by (intros k' Hk'; apply node_keep; [done|intros n Hn; apply Hmeta; change (2 + LOGSIZE) with 32 in *; lia]).
  assert (∀ k' f, k' ≠ k → fs !! k' = Some f → file_ok D1 m1 (node D k') f.2 ∧ sep D1 (node D k') x1) as Hfr.
  { intros k' f Hne Hk'. eapply grows_frame; [done|by apply I6|]. apply I7; try done. by eapply lookup_lt_Some. }
  apply (image_put D1 m1 _ k (set_i_size (len c + len p) x1) t (c ++ p)); try done.
  - apply G1.
  - apply G1.
  - intros n Hn. rewrite Hmeta by (change nmeta with 59; change (2 + LOGSIZE) with 32 in *; lia). by apply I8.
  - rewrite (total_insert fs k (t, c)) by done. cbn [snd]. rewrite length_app, Nat2Z.inj_add. unfold m1. change nmeta with 59. lia.
  - unfold m1. lia.
  - by rewrite length_insert.
  - by rewrite list_lookup_insert_eq.
  - rewrite (gr_fields _ _ _ _ _ _ G1), En, length_app, Nat2Z.inj_add. done.
  - by eapply file_ok_addrs.
  - intros k' f Hne Hk'. rewrite list_lookup_insert_ne in Hk' by done. rewrite Hnode by (apply lookup_lt_Some in Hk'; lia).
    destruct (Hfr k' f Hne Hk') as [F' S']. split; [by apply I5|]. split; [done|]. exact S'.
  - intros k1 k2 H1 H2 Hl1 Hl2 Hne. rewrite length_insert in *. rewrite !Hnode by lia.
    destruct (lookup_lt_is_Some_2 fs k1 Hl1) as [f1 E1], (lookup_lt_is_Some_2 fs k2 Hl2) as [f2 E2].
    intros b b' Hb Hb'. rewrite (grows_slots D m (node D k) D1 m1 x1 (node D k1) f1.2 b G1), (grows_slots D m (node D k) D1 m1 x1 (node D k2) f2.2 b' G1) by auto.
    by apply I7.
  - intros k' Hk' Hk2. rewrite length_insert in Hk'. rewrite Hnode by done. by apply I9.
Qed.

(** ** Files and the root directory *)

(** The entries of the root directory for files from inode [inum] on. *)
Fixpoint listing (inum : Z) (fs : list (list Z * list (list Z))) : list Z :=
  match fs with
  | [] => []
  | f :: fs' => dirent_of (skip_underscore f.1) inum ++ listing (inum + 1) fs'
  end.
#[local] Abbreviation plain := (fmap (λ f : list Z * list (list Z), (T_FILE, concat f.2))).

Lemma length_dirent name inum : len (dirent_of name inum) = 16.
Proof. unfold dirent_of, DIRSIZ. rewrite length_app, length_take, length_app, length_take, length_replicate. cbn [length le16]. lia. Qed.

Lemma length_listing inum fs : len (listing inum fs) = 16 * len fs.
Proof.
  revert inum. induction fs as [|f fs IH]; intros inum; [done|]. cbn [listing length]. pose proof (length_dirent (skip_underscore f.1) inum).
  rewrite length_app, Nat2Z.inj_add, IH. lia.
Qed.

Lemma total_grow (fs : files) k t c p : fs !! k = Some (t, c) → total fs ≤ total (<[k := (t, c ++ p)]> fs).
Proof.
  intros Hk. rewrite (total_insert fs k (t, c)) by done. cbn [snd]. pose proof (cost_mono (len c) (len (c ++ p))) as H. rewrite length_app in *. lia.
Qed.

Lemma iappends_ok fi k t ps : ∀ D m (fs : files) c,
  image D m fs → fs !! k = Some (t, c) → len c + len (concat ps) ≤ MAXFILE * BSIZE → nmeta + total (<[k := (t, c ++ concat ps)]> fs) ≤ FSSIZE →
  ∃ D' m', for_each ps (iappend (Z.of_nat k + 1)) (mkMst D FSSIZE fi m) = Done tt (mkMst D' FSSIZE fi m') ∧ image D' m' (<[k := (t, c ++ concat ps)]> fs).
Proof.
  induction ps as [|p ps IH]; intros D m fs c Him Hk Hmax Hroom.
  - cbn [concat] in *. exists D, m. rewrite app_nil_r, list_insert_id by done. done.
  - cbn [concat] in *. rewrite length_app, Nat2Z.inj_add in Hmax. pose proof (lookup_lt_Some _ _ _ Hk) as Hkl.
    assert (<[k := (t, c ++ p)]> fs !! k = Some (t, c ++ p)) as Hk' by (by rewrite list_lookup_insert_eq).
    pose proof (total_grow _ k t (c ++ p) (concat ps) Hk') as Hg. rewrite list_insert_insert_eq, <- app_assoc in Hg.
    destruct (iappend_ok D m fs k t c p fi) as (D1 & m1 & E1 & I1); [done|done|lia|lia|].
    destruct (IH D1 m1 _ (c ++ p) I1 Hk') as (D2 & m2 & E2 & I2); [rewrite length_app; lia|rewrite list_insert_insert_eq, <- app_assoc; lia|].
    exists D2, m2. rewrite list_insert_insert_eq, <- app_assoc in I2. split; [|done]. cbn [for_each]. mstep. rewrite E1. mstep. exact E2.
Qed.

Lemma add_file_ok D m r (rest : files) f :
  image D m ((T_DIR, r) :: rest) → (slash ∉ f.1) → len (concat f.2) ≤ MAXFILE * BSIZE → len r + 16 ≤ MAXFILE * BSIZE →
  len rest + 2 < NINODES → let inum := len rest + 2 in
  let fs := (T_DIR, r ++ dirent_of (skip_underscore f.1) inum) :: rest ++ [(T_FILE, concat f.2)] in
  nmeta + total fs ≤ FSSIZE →
  ∃ D' m', add_file f (mkMst D FSSIZE inum m) = Done tt (mkMst D' FSSIZE (inum + 1) m') ∧ image D' m' fs.
Proof.
  intros Him Hsl Hmax Hr Hcnt inum fs Hroom. pose proof (length_dirent (skip_underscore f.1) inum) as Hd.
  set (root := (T_DIR, r ++ dirent_of (skip_underscore f.1) inum)) in *.
  assert (total fs = cost (len root.2) + total rest + cost (len (concat f.2))) as Ht.
  { unfold fs. change (total (root :: ?l)) with (cost (len root.2) + total l). rewrite total_cat. change (total [?g]) with (cost (len g.2) + 0). cbn [snd]. lia. }
  pose proof (cost_mono (len r) (len root.2)) as Hc1. cbn [snd root] in Hc1. rewrite length_app in Hc1. pose proof (cost_pos (len (concat f.2))).
  pose proof (im_blocks _ _ _ Him) as Hm. change (total ((T_DIR, r) :: rest)) with (cost (len r) + total rest) in Hm.
  assert (len root.2 = len r + 16) as Hroot by (cbn [snd root]; rewrite length_app; lia).
  unfold add_file. rewrite bool_decide_eq_false_2 by done. mstep.
  destruct (ialloc_ok D m _ T_FILE Him) as (D1 & E1 & I1); [cbn [length]; lia|cbn [snd root] in *; rewrite length_app in *; lia|by right|].
  cbn [length] in E1. rewrite length_app in E1. cbn [length] in E1.
  replace (Z.of_nat (S (length rest)) + 1) with inum in E1 by lia. replace (Z.of_nat (S (length rest) + 1) + 1) with (inum + 1) in E1 by lia.
  rewrite E1. mstep. cbn [app] in I1.
  destruct (iappend_ok D1 m _ 0 T_DIR r (dirent_of (skip_underscore f.1) inum) (inum + 1) I1) as (D2 & m2 & E2 & I2); [done|lia| |].
  { cbn [list_insert insert]. fold root. change (total (root :: ?l)) with (cost (len root.2) + total l). rewrite total_cat. change (total [(T_FILE, [])]) with 0. lia. }
  change (Z.of_nat 0 + 1) with ROOTINO in E2. rewrite E2. mstep. cbn [list_insert insert] in I2. fold root in I2.
  assert ((root :: rest ++ [(T_FILE, [])]) !! S (length rest) = Some (T_FILE, [])) as Hk 
    by (change ((rest ++ [(T_FILE, [] : list Z)]) !! length rest = Some (T_FILE, [])); by rewrite lookup_app_r, Nat.sub_diag by lia).
  assert (<[S (length rest) := (T_FILE, [] ++ concat f.2)]> (root :: rest ++ [(T_FILE, [])]) = fs) as Hfs.
  { change (root :: <[length rest := (T_FILE, concat f.2)]> (rest ++ [(T_FILE, [])]) = fs). unfold fs. f_equal.
    rewrite insert_app_r_alt by lia. by rewrite Nat.sub_diag. }
  destruct (iappends_ok (inum + 1) _ T_FILE f.2 D2 m2 _ [] I2 Hk) as (D3 & m3 & E3 & I3); [cbn; lia|rewrite Hfs; lia|].
  rewrite Hfs in I3. replace (Z.of_nat (S (length rest)) + 1) with inum in E3 by lia. by exists D3, m3.
Qed.

(** What is asked for fits on the disk. *)
Definition tree (inp : list (list Z * list (list Z))) : files :=
  (T_DIR, dirent_of [46] 1 ++ dirent_of [46; 46] 1 ++ listing 2 inp) :: plain inp.
Record fits (inp : list (list Z * list (list Z))) : Prop := {
  ft_name f : f ∈ inp → (slash ∉ f.1);
  ft_size f : f ∈ inp → len (concat f.2) ≤ MAXFILE * BSIZE;
  ft_count : len inp + 2 ≤ NINODES;
  ft_total : nmeta + total (tree inp) ≤ FSSIZE;
}.

Lemma add_files_ok inp : ∀ D m r (rest : files),
  image D m ((T_DIR, r) :: rest) → (∀ f, f ∈ inp → (slash ∉ f.1) ∧ len (concat f.2) ≤ MAXFILE * BSIZE) →
  len r + 16 * len inp ≤ MAXFILE * BSIZE → len rest + len inp + 2 ≤ NINODES →
  let fs := (T_DIR, r ++ listing (len rest + 2) inp) :: rest ++ plain inp in
  nmeta + total fs ≤ FSSIZE →
  ∃ D' m', for_each inp add_file (mkMst D FSSIZE (len rest + 2) m) = Done tt (mkMst D' FSSIZE (len rest + len inp + 2) m') ∧ image D' m' fs.
Proof.
  induction inp as [|f inp IH]; intros D m r rest Him Hf Hr Hcnt fs Hroom.
  - exists D, m. unfold fs. cbn [listing fmap list_fmap length Z.of_nat]. rewrite !app_nil_r, Z.add_0_r. done.
  - cbn [length] in *. destruct (Hf f) as [Hf1 Hf2]; [left|]. set (r1 := r ++ dirent_of (skip_underscore f.1) (len rest + 2)).
    set (rest1 := rest ++ [(T_FILE, concat f.2)]). pose proof (length_dirent (skip_underscore f.1) (len rest + 2)) as Hd.
    assert (len rest1 = len rest + 1) as Hl1 by (unfold rest1; rewrite length_app; cbn [length]; lia).
    assert (len r1 = len r + 16) as Hr1 by (unfold r1; rewrite length_app; lia).
    assert (fs = (T_DIR, r1 ++ listing (len rest1 + 2) inp) :: rest1 ++ plain inp) as Hfs.
    { unfold fs, r1. rewrite Hl1. unfold rest1. cbn [listing]. rewrite <- !app_assoc. replace (len rest + 1 + 2) with (len rest + 2 + 1) by lia. done. }
    assert (total ((T_DIR, r1) :: rest1) ≤ total fs) as Hg.
    { rewrite Hfs. change (total (?g :: ?l)) with (cost (len g.2) + total l). rewrite (total_cat rest1). cbn [snd].
      pose proof (cost_mono (len r1) (len (r1 ++ listing (len rest1 + 2) inp))) as Hc. rewrite length_app in *. pose proof (total_pos (plain inp)). lia. }
    destruct (add_file_ok D m r rest f) as (D1 & m1 & E1 & I1); [done|done|done|lia|lia|fold r1 rest1; lia|].
    destruct (IH D1 m1 r1 rest1) as (D2 & m2 & E2 & I2); [done|intros g Hg'; apply Hf; by right|lia|lia|rewrite <- Hfs; lia|].
    exists D2, m2. rewrite Hfs. split; [|done]. cbn [for_each]. mstep. rewrite E1. mstep.
    rewrite Hl1 in E2. replace (len rest + 2 + 1) with (len rest + 1 + 2) by lia. rewrite E2. do 2 f_equal. lia.
Qed.

(** ** The empty image and the free map *)

Lemma zero_loop n : ∀ a D fi m, 0 ≤ a → (∀ k, D k = zeros) →
  ∃ D', for_each (seqZ a (Z.of_nat n)) (λ i, wsect i zeros) (mkMst D a fi m) = Done tt (mkMst D' (a + Z.of_nat n) fi m) ∧ ∀ k, D' k = zeros.
Proof.
  induction n as [|n IH]; intros a D fi m Ha HD; [exists D; rewrite Z.add_0_r; done|].
  rewrite seqZ_cons by lia. cbn [for_each]. mstep. unfold wsect at 1. mstep. cbn [m_disk m_len m_inode m_block].
  replace (a `max` (a + 1)) with (Z.succ a) by lia. replace (Z.pred (Z.of_nat (S n))) with (Z.of_nat n) by lia.
  destruct (IH (Z.succ a) (dupd a zeros D) fi m) as (D' & E & HD'); [lia|intros k; unfold dupd; by destruct (decide _)|].
  exists D'. split; [|done]. rewrite E. do 2 f_equal. lia.
Qed.

Lemma set_bits_ok n : (n ≤ Z.to_nat (BSIZE * 8))%nat → length (set_bits (Z.of_nat n)) = Z.to_nat BSIZE ∧
  ∀ j, 0 ≤ j < BSIZE * 8 → map_bit j (set_bits (Z.of_nat n)) = (j <? Z.of_nat n).
Proof.
  unfold set_bits. induction n as [|n IH]; intros Hn.
  - split; [done|]. intros j Hj. change (Z.of_nat 0) with 0. destruct (Z.ltb_spec j 0); [lia|]. unfold map_bit, bit_byte.
    change (foldl _ zeros (seqZ 0 0)) with zeros. replace (zeros !!! Z.to_nat (j / 8)) with 0; [apply Z.testbit_0_l|].
    symmetry. apply lookup_total_replicate_2. unfold BSIZE in *. Z.div_mod_to_equations. lia.
  - destruct IH as [IH1 IH2]; [lia|]. rewrite Nat2Z.inj_succ, <- Z.add_1_r, seqZ_app, foldl_app by lia. set (d := foldl _ _ _) in *.
    change (seqZ (0 + Z.of_nat n) 1) with [0 + Z.of_nat n]. cbn [foldl]. rewrite Z.add_0_l. unfold BSIZE in *.
    split; [unfold set_byte; by rewrite length_insert|]. intros j Hj. rewrite map_bit_set; [|lia|lia|rewrite IH1; Z.div_mod_to_equations; lia].
    rewrite IH2 by done. destruct (bool_decide_reflect (j = Z.of_nat n)), (Z.ltb_spec j (Z.of_nat n)), (Z.ltb_spec j (Z.of_nat n + 1)); cbn; (done || lia).
Qed.

(** * The image as the kernel sees it *)

(** Inode [inum] holds the contents [c], with zeros up to the end of its last block. *)
Record holds_file (D : disk) (inum t sz : Z) (c : list Z) : Prop := {
  hf_fields : let x := disk_inode mk_sb D inum in (i_type x, i_major x, i_minor x, i_nlink x, i_size x) = (t, 0, 0, 1, sz);
  hf_owns : owns FSSIZE mk_sb D (disk_inode mk_sb D inum);
  hf_blocks b : 0 ≤ b < MAXFILE → slot_of D (disk_inode mk_sb D inum) b ≠ 0 ↔ b * BSIZE < len c;
  hf_bytes : file_bytes D (disk_inode mk_sb D inum) 0 (len c) = c;
  hf_pad k : len c ≤ k < MAXFILE * BSIZE → slot_of D (disk_inode mk_sb D inum) (k / BSIZE) ≠ 0 → byte D (disk_inode mk_sb D inum) k = 0;
}.

Lemma file_ok_owns D m x c :
  file_ok D m x c → m ≤ FSSIZE → (∀ n, 0 ≤ n < FSSIZE → in_use mk_sb D n = (n <? m)) → owns FSSIZE mk_sb D x.
Proof.
  intros [[O1 O2 O3] F2 F3 F4 F5] Hm Hu. split; [done| |done]. intros b Hb Hn. specialize (O2 b Hb Hn). unfold FSSIZE in *. change nmeta with 59 in *.
  split; [|rewrite Hu by lia; apply Z.ltb_lt; lia]. unfold is_data. change (sb_bmapstart mk_sb + (1000 - 1) / BPB) with 58. lia.
Qed.

Lemma file_ok_bytes D m x c : file_ok D m x c → file_bytes D x 0 (len c) = c.
Proof.
  intros F. apply list_eq_same_length with (length c); [done|rewrite length_file_bytes; lia|].
  intros k a a' Hk. unfold file_bytes. rewrite list_lookup_fmap, lookup_seqZ_lt by lia. cbn [fmap option_fmap option_map]. intros [= <-] Ha'.
  pose proof (fk_max _ _ _ _ F) as Hmx. rewrite Z.add_0_l. rewrite (fk_byte _ _ _ _ F) by first [lia|apply (fk_has _ _ _ _ F); [apply byte_block; lia|unfold BSIZE; Z.div_mod_to_equations; lia]].
  by rewrite Nat2Z.id, nth_lookup, Ha'.
Qed.

Lemma image_holds D m k t c sz :
  m ≤ FSSIZE → (∀ n, 0 ≤ n < FSSIZE → in_use mk_sb D n = (n <? m)) → file_ok D m (node D k) c →
  node D k = mkInode 0 0 0 0 t 0 0 1 sz (i_addrs (node D k)) → holds_file D (Z.of_nat k + 1) t sz c.
Proof.
  intros Hm Hu F En. change (disk_inode mk_sb D (Z.of_nat k + 1)) with (node D k) in *. split; try change (disk_inode mk_sb D (Z.of_nat k + 1)) with (node D k).
  - by rewrite En.
  - by eapply file_ok_owns.
  - apply F.
  - by eapply file_ok_bytes.
  - intros j Hj Hn. rewrite (fk_byte _ _ _ _ F) by (done || lia). apply nth_overflow. lia.
Qed.

Record built (inp : list (list Z * list (list Z))) (D : disk) : Prop := {
  bt_sectors : sectors D;
  bt_sb : sb_on FSSIZE mk_sb D;
  bt_log : D (sb_logstart mk_sb) = zeros;
  bt_map n : 0 ≤ n < FSSIZE → in_use mk_sb D n = (n <? nmeta + total (tree inp));
  bt_root : holds_file D ROOTINO T_DIR ((16 * (len inp + 2) / BSIZE + 1) * BSIZE) (dirent_of [46] 1 ++ dirent_of [46; 46] 1 ++ listing 2 inp);
  bt_file k f : inp !! k = Some f → holds_file D (Z.of_nat k + 2) T_FILE (len (concat f.2)) (concat f.2);
  bt_apart i j : 1 ≤ i < len inp + 2 → 1 ≤ j < len inp + 2 → i ≠ j → apart D (disk_inode mk_sb D i) (disk_inode mk_sb D j);
  bt_outside n : n < 0 ∨ FSSIZE ≤ n → D n = zeros;
  bt_unused i : len inp + 2 ≤ i < NINODES → i_type (disk_inode mk_sb D i) = 0;
}.

(** The last two steps: the size of the root directory is rounded up, and the map is
    written. *)
Definition finish (D : disk) (m sz : Z) : disk :=
  dupd (sb_bmapstart mk_sb) (set_bits m) (put_inode mk_sb D (set_i_inum 1 (set_i_size sz (node D 0)))).

Section Finish.
Context (D : disk) (m : Z) (fs : files) (r : list Z) (sz : Z).
Context (Him : image D m ((T_DIR, r) :: fs)) (Hm : m ≤ FSSIZE) (Hsz : 0 ≤ sz < 2^32).

Lemma finish_wf : inode_wf (set_i_size sz (node D 0)).
Proof.
  destruct (im_node _ _ _ Him 0 (T_DIR, r) eq_refl) as [E _]. pose proof (im_file _ _ _ Him 0 (T_DIR, r) eq_refl) as F.
  revert E F. generalize (node D 0). intros x E F. rewrite E. unfold FSSIZE in *. split; cbn; try lia; [unfold T_DIR; lia|apply F|]. intros k a. eapply own_addr; [apply F|lia].
Qed.

Lemma finish_rest n : nmeta ≤ n ∨ n < 2 + LOGSIZE → finish D m sz n = D n.
Proof.
  intros Hn. unfold finish. change (sb_bmapstart mk_sb) with 58. change nmeta with 59 in *. change (2 + LOGSIZE) with 32 in *.
  rewrite dupd_ne by lia. apply put_inode_keep; cbn; [lia|]. change nmeta with 59. change (2 + LOGSIZE) with 32. lia.
Qed.

Lemma finish_node k : Z.of_nat k + 1 < NINODES →
  node (finish D m sz) k = if decide (k = 0%nat) then mkInode 0 0 0 0 T_DIR 0 0 1 sz (i_addrs (node D 0)) else node D k.
Proof.
  intros Hk. transitivity (node (put_inode mk_sb D (set_i_inum 1 (set_i_size sz (node D 0)))) k).
  { apply node_keep; [done|]. intros n Hn. apply dupd_ne. change (sb_bmapstart mk_sb) with 58. change nmeta with 59 in *. lia. }
  change 1 with (Z.of_nat 0 + 1) at 1. rewrite put_node by first [apply Him|apply finish_wf].
  destruct (decide (k = 0%nat)); [|done]. by destruct (im_node _ _ _ Him 0 (T_DIR, r) eq_refl) as [-> _].
Qed.

Lemma finish_use n : 0 ≤ n < FSSIZE → in_use mk_sb (finish D m sz) n = (n <? m).
Proof.
  intros Hn. pose proof (im_blocks _ _ _ Him) as Hb. pose proof (total_pos ((T_DIR, r) :: fs)). unfold FSSIZE in *. change nmeta with 59 in *.
  unfold in_use, map_block, finish. change (sb_bmapstart mk_sb) with 58. change BPB with 4096. rewrite (Z.div_small n), Z.mod_small, dupd_eq by lia.
  destruct (set_bits_ok (Z.to_nat m)) as [_ Hs]; [unfold BSIZE; lia|]. rewrite Z2Nat.id in Hs by lia. apply Hs. unfold BSIZE. lia.
Qed.

Lemma finish_file k f : ((T_DIR, r) :: fs) !! k = Some f →
  file_ok (finish D m sz) m (node (finish D m sz) k) f.2 ∧ ∀ b, slot_of (finish D m sz) (node (finish D m sz) k) b = slot_of D (node D k) b.
Proof.
  intros Hk. pose proof (im_count _ _ _ Him) as Hc. pose proof (lookup_lt_Some _ _ _ Hk) as Hlt. cbn [length] in *.
  assert (i_addrs (node (finish D m sz) k) = i_addrs (node D k)) as Ea by (rewrite finish_node by lia; by destruct (decide (k = 0%nat)) as [->|]).
  destruct (file_ok_data D (finish D m sz) m (node D k) f.2) as [F Hs]; [by apply Him|intros n Hn; apply finish_rest; by left|].
  split; [by eapply file_ok_addrs|]. intros b. rewrite <- Hs. unfold slot_of, indirect. by rewrite Ea.
Qed.

Lemma finish_sectors : sectors (finish D m sz).
Proof.
  intros n. unfold finish, dupd. destruct (decide _); [|apply put_inode_sectors, Him]. pose proof (im_blocks _ _ _ Him) as Hb.
  pose proof (total_pos ((T_DIR, r) :: fs)). change nmeta with 59 in *. unfold FSSIZE in *.
  destruct (set_bits_ok (Z.to_nat m)) as [Hs _]; [unfold BSIZE; lia|]. by rewrite Z2Nat.id in Hs by lia.
Qed.
End Finish.

Lemma tree_built inp D m :
  fits inp → image D m (tree inp) → built inp (finish D m ((16 * (len inp + 2) / BSIZE + 1) * BSIZE)).
Proof.
  intros Hf Him. set (sz := (_ + 1) * _). pose proof (im_blocks _ _ _ Him) as Hm. pose proof (ft_total _ Hf) as Ht. pose proof (ft_count _ Hf) as Hc.
  assert (m ≤ FSSIZE) as Hmf by lia. assert (0 ≤ sz < 2^32) as Hsz by (unfold sz, BSIZE; Z.div_mod_to_equations; lia).
  set (D' := finish D m sz). unfold tree in Him.
  pose proof (finish_use D m _ _ sz Him Hmf) as Hu. fold D' in Hu.
  assert (∀ k f, tree inp !! k = Some f → file_ok D' m (node D' k) f.2 ∧ ∀ b, slot_of D' (node D' k) b = slot_of D (node D k) b) as HF.
  { intros k f Hk. by eapply (finish_file D m _ _ sz Him Hmf Hsz k f). }
  assert (∀ k f, plain inp !! k = Some f → node D' (S k) = node D (S k)) as HN.
  { intros k f Hk. apply lookup_lt_Some in Hk. rewrite length_fmap in Hk. unfold D'. rewrite (finish_node D m _ _ sz Him Hmf Hsz) by lia. done. }
  split.
  - by eapply finish_sectors.
  - split; [done|]. unfold D'. erewrite finish_rest by (right; done). rewrite (im_boot _ _ _ Him) by done. vm_compute. done.
  - unfold D'. erewrite finish_rest by (right; done). by rewrite (im_boot _ _ _ Him).
  - intros n Hn. rewrite Hu by done. by rewrite Hm.
  - change ROOTINO with (Z.of_nat 0 + 1). eapply image_holds; [exact Hmf|done|by apply (HF 0%nat (T_DIR, _))|].
    unfold D'. by rewrite (finish_node D m _ _ sz Him Hmf Hsz) by done.
  - intros k f Hk. assert (plain inp !! k = Some (T_FILE, concat f.2)) as Hp by (by rewrite list_lookup_fmap, Hk).
    replace (Z.of_nat k + 2) with (Z.of_nat (S k) + 1) by lia. eapply image_holds; [exact Hmf|done|by apply (HF (S k) _ Hp)|].
    rewrite (HN _ _ Hp). by apply (im_node _ _ _ Him (S k) _ Hp).
  - intros a b Ha Hb Hne c c' Hcr Hcr'. set (ka := Z.to_nat (a - 1)). set (kb := Z.to_nat (b - 1)).
    assert (∀ k, (k < S (length inp))%nat → is_Some (tree inp !! k)) as Hlk by (intros k Hk; apply lookup_lt_is_Some_2; unfold tree; cbn [length]; by rewrite length_fmap).
    destruct (Hlk ka) as [fa Ea]; [lia|]. destruct (Hlk kb) as [fb Eb]; [lia|].
    replace a with (Z.of_nat ka + 1) by lia. replace b with (Z.of_nat kb + 1) by lia.
    change (disk_inode mk_sb D' (Z.of_nat ka + 1)) with (node D' ka). change (disk_inode mk_sb D' (Z.of_nat kb + 1)) with (node D' kb).
    destruct (HF _ _ Ea) as [_ ->], (HF _ _ Eb) as [_ ->]. apply (im_sep _ _ _ Him); [..|done|done]; try lia; cbn [length]; rewrite length_fmap; lia.
  - intros n Hn. unfold D'. change nmeta with 59 in *. unfold FSSIZE in *.
    rewrite finish_rest by (change nmeta with 59; change (2 + LOGSIZE) with 32; lia). destruct Hn.
    + rewrite (im_boot _ _ _ Him) by (change (2 + LOGSIZE) with 32; lia). by rewrite decide_False by lia.
    + apply (im_zero _ _ _ Him). lia.
  - intros a Ha. replace a with (Z.of_nat (Z.to_nat (a - 1)) + 1) by lia. set (k := Z.to_nat (a - 1)) in *.
    change (disk_inode mk_sb D' (Z.of_nat k + 1)) with (node D' k). unfold D'. rewrite (finish_node D m _ _ sz Him Hmf Hsz) by lia.
    rewrite decide_False by lia. apply (im_unused _ _ _ Him); [cbn [length]; rewrite length_fmap; lia|lia].
Qed.

Lemma half_zeros off : half off zeros = 0.
Proof.
  unfold half, zeros, get. rewrite drop_replicate, take_replicate. generalize (2 `min` (Z.to_nat BSIZE - off))%nat. intros n.
  induction n as [|n IH]; [done|]. change (0 + 256 * of_le (replicate n 0) = 0). by rewrite IH.
Qed.

Lemma first_inode D : (∀ k, D k = zeros) → image (dupd 1 super D) nmeta [].
Proof.
  intros HD. split; try done.
  - intros n. unfold dupd. destruct (decide _); [done|by rewrite HD].
  - intros n Hn. change nmeta with 59 in Hn. rewrite dupd_ne by lia. apply HD.
  - intros k k' Hk. cbn in Hk. lia.
  - intros n Hn. unfold dupd. destruct (decide _); [done|apply HD].
  - intros k _ Hk. destruct (ino_block (Z.of_nat k + 1)) as [_ Hr]; [lia|]. unfold node, disk_inode. change (2 + LOGSIZE) with 32 in Hr.
    rewrite dupd_ne, HD by lia. cbn [i_type load_dinode]. unfold dip_type. by rewrite half_zeros.
Qed.

Lemma finish_ok inp D m fi : fits inp → image D m (tree inp) →
  (din <- rinode ROOTINO ;; winode ROOTINO (set_i_size (u32 ((i_size din / BSIZE + 1) * BSIZE)) din) ;;; b <- gets m_block ;; mkfs_balloc b)
    (mkMst D FSSIZE fi m) = Done tt (mkMst (finish D m ((16 * (len inp + 2) / BSIZE + 1) * BSIZE)) FSSIZE fi m).
Proof.
  intros Hf Him. pose proof (ft_count _ Hf) as Hc. pose proof (ft_total _ Hf) as Ht. pose proof (im_blocks _ _ _ Him) as Hb.
  destruct (im_node _ _ _ Him 0%nat _ eq_refl) as [En _]. cbn [fst snd] in En.
  change ROOTINO with (Z.of_nat 0 + 1). mstep. rewrite rinode_ok by done. mstep. change (Z.of_nat 0 + 1) with 1.
  replace (i_size (node D 0)) with (16 * (len inp + 2)); [|rewrite En; cbn [i_size]; rewrite !length_app, !Nat2Z.inj_add, !length_dirent, length_listing; lia].
  rewrite u32_id by (unfold BSIZE; Z.div_mod_to_equations; lia). rewrite winode_ok by done. mstep. cbn [m_block]. unfold mkfs_balloc, FSSIZE in *.
  destruct (Z.ltb_spec m (BSIZE * 8)) as [|Hge]; [|unfold BSIZE in Hge; lia]. by rewrite wsect_ok by done.
Qed.

Lemma mkfs_tree inp : fits inp →
  ∃ D m, mkfs inp mst0 = Done tt (mkMst (finish D m ((16 * (len inp + 2) / BSIZE + 1) * BSIZE)) FSSIZE (len inp + 2) m) ∧ image D m (tree inp).
Proof.
  intros Hf. pose proof (ft_count _ Hf) as Hc. unfold mkfs. mstep. change (seqZ 0 FSSIZE) with (seqZ 0 (Z.of_nat (Z.to_nat FSSIZE))).
  destruct (zero_loop (Z.to_nat FSSIZE) 0 (m_disk mst0) 1 nmeta) as (D0 & E0 & H0); [done|done|].
  change (mkMst (m_disk mst0) 0 1 nmeta) with mst0 in E0. rewrite E0. mstep. rewrite Z2Nat.id, Z.add_0_l by done. rewrite wsect_ok by done. mstep.
  change (put 0 (sb_bytes mk_sb) zeros) with super.
  destruct (ialloc_ok _ _ [] T_DIR (first_inode D0 H0)) as (D1 & E1 & I1); [done|done|by left|].
  change (len [] + 1) with 1 in E1. rewrite E1. mstep. change (1 =? ROOTINO) with true. mstep. change (len ([] ++ [(T_DIR, [])]) + 1) with 2.
  pose proof (ft_total _ Hf) as Ht. unfold tree in Ht. change (total (?g :: ?l)) with (cost (len g.2) + total l) in Ht. cbn [snd] in Ht.
  rewrite !length_app, !Nat2Z.inj_add, !length_dirent, length_listing in Ht. pose proof (total_pos (plain inp)) as Hp.
  pose proof (cost_mono 16 (16 + (16 + 16 * len inp)) ltac:(lia)). pose proof (cost_mono 32 (16 + (16 + 16 * len inp)) ltac:(lia)).
  assert (∀ r, total [(T_DIR, r)] = cost (len r)) as Htot by (intros r; apply Z.add_0_r).
  destruct (iappend_ok D1 nmeta _ 0 T_DIR [] (dirent_of [46] 1) 2 I1 eq_refl) as (D2 & m2 & E2 & I2).
  { rewrite length_dirent. done. }
  { cbn [app insert list_insert]. rewrite Htot, length_dirent. lia. }
  change (Z.of_nat 0 + 1) with 1 in E2. rewrite E2. mstep. cbn [app insert list_insert] in I2.
  destruct (iappend_ok D2 m2 _ 0 T_DIR (dirent_of [46] 1) (dirent_of [46; 46] 1) 2 I2 eq_refl) as (D3 & m3 & E3 & I3).
  { rewrite !length_dirent. done. }
  { cbn [insert list_insert]. rewrite Htot, length_app, Nat2Z.inj_add, !length_dirent. change (16 + 16) with 32. lia. }
  change (Z.of_nat 0 + 1) with 1 in E3. rewrite E3. mstep. cbn [insert list_insert] in I3.
  destruct (add_files_ok inp D3 m3 _ [] I3) as (D4 & m4 & E4 & I4).
  { intros f Hf'. split; by apply Hf. }
  { rewrite length_app, Nat2Z.inj_add, !length_dirent. change (MAXFILE * BSIZE) with 71680. lia. }
  { cbn. lia. }
  { rewrite <- app_assoc. apply Hf. }
  rewrite <- app_assoc in I4. change (len [] + 2) with 2 in *. change (len [] + len inp + 2) with (0 + len inp + 2) in E4. rewrite Z.add_0_l in E4.
  rewrite E4. mstep. cbn [app] in I4. fold (tree inp) in I4. exists D4, m4. split; [|done].
  exact (finish_ok inp D4 m4 _ Hf I4).
Qed.

Lemma built_map inp D : built inp D → map_ok FSSIZE mk_sb D.
Proof.
  intros Hb n Hn. rewrite (bt_map _ _ Hb) by done. intros Hlt%Z.ltb_ge. unfold is_data. pose proof (total_pos (tree inp)).
  change (sb_bmapstart mk_sb + (FSSIZE - 1) / BPB) with 58. change nmeta with 59 in *. lia.
Qed.

Lemma mk_geometry fuel : (0 < fuel)%nat → geometry FSSIZE fuel (sb_logstart mk_sb) LOGSIZE mk_sb.
Proof. intros Hf. by repeat split. Qed.

(** [readi] of an entry for file [k] returns its contents. *)
Lemma built_read inp D {W} {VO : VmOps W} {DV : DevSw W} i p D0 fuel h bl ip x (ks : kst W) k f :
  fits inp → built inp D → (0 < fuel)%nat → tx i p D0 FSSIZE (sb_logstart mk_sb) LOGSIZE h D bl ∅ ks → sb_is mk_sb ks → room LOGSIZE 0 bl ∅ →
  inodes ks !! ip = Some x → i_dev x = 1 → inp !! k = Some f → same_fields x (disk_inode mk_sb D (Z.of_nat k + 2)) →
  wp alone (readi fuel ip ToKernel 0 (len (concat f.2)) ks) (λ r _, r = (len (concat f.2), concat f.2)).
Proof.
  intros Hf Hb Hfu Ht Hsb Hroom Hx Hd Hk Hfld. destruct (mk_geometry fuel Hfu) as [G1 G2 G3 G4]. pose proof (built_map inp D Hb) as Hmap.
  destruct (bt_file _ _ Hb k f Hk) as [H1 H2 H3 H4 H5].
  pose proof (ft_size _ Hf f ltac:(by eapply list_elem_of_lookup_2)) as Hmx.
  destruct (same_file FSSIZE mk_sb D x _ Hfld) as (Es & Eo & Eb). apply Eo in H2.
  assert (i_type x = T_FILE ∧ i_size x = len (concat f.2)) as [Ety Esz] by (unfold same_fields in Hfld; cbv zeta in H1; split; congruence).
  eapply wp_mono; [|eapply (readi_ok i p D0 FSSIZE G1 fuel G2 _ LOGSIZE G3 mk_sb G4 h D bl ip x ks 0); [by split|exact Hroom|by rewrite Ety| |lia|lia|]].
  - intros r s' (-> & _). rewrite Esz, Z.sub_0_r, Z.min_id. f_equal. by rewrite <- Eb, H4.
  - intros b H0 Hlt. rewrite <- Es. apply H3; [|lia]. change (MAXFILE * BSIZE) with 71680 in *. change MAXFILE with 140. unfold BSIZE in *. lia.
  - change (MAXFILE * BSIZE) with 71680 in *. lia.
Qed.

(** C19: The image is a file system.  If the files fit on the disk (names without a
    slash, each at most MAXFILE blocks, inodes and blocks enough), mkfs finishes and
    the image has the geometry the kernel expects: the superblock, an empty log, and a
    map in which exactly the metadata and the blocks of the files are marked.  Every
    file is in an inode of its own with its size and contents, the root directory lists
    them behind [.] and [..], no two of them share a block, and the other inodes are
    free. *)
Theorem mkfs_image inp : fits inp →
  ∃ s, mkfs inp mst0 = Done tt s ∧ m_len s = FSSIZE ∧ built inp (m_disk s) ∧ map_ok FSSIZE mk_sb (m_disk s) ∧
  ∀ fuel, (0 < fuel)%nat → geometry FSSIZE fuel (sb_logstart mk_sb) LOGSIZE mk_sb.
Proof.
  intros Hf. destruct (mkfs_tree inp Hf) as (D & m & E & Him). eexists. split; [exact E|]. cbn [m_len m_disk].
  pose proof (tree_built inp D m Hf Him) as Hb. split; [done|]. split; [done|]. split; [by eapply built_map|apply mk_geometry].
Qed.

(** The rounded size of the root directory is one block too long when the entries
    fill their blocks exactly: the last block is then missing. *)
Lemma root_holes inp D : fits inp → built inp D →
  no_holes D (disk_inode mk_sb D ROOTINO) (i_size (disk_inode mk_sb D ROOTINO)) ↔ (len inp + 2) mod 32 ≠ 0.
Proof.
  intros Hf Hb. destruct (bt_root _ _ Hb) as [H1 _ H3 _ _]. pose proof (ft_count _ Hf) as Hc. set (x := disk_inode _ _ _) in *.
  rewrite !length_app, !Nat2Z.inj_add, !length_dirent, length_listing in H3. assert (i_size x = (16 * (len inp + 2) / BSIZE + 1) * BSIZE) as -> by congruence.
  change MAXFILE with 140 in *. unfold no_holes, BSIZE in *. split.
  - intros Hno E. pose proof (Hno ((len inp + 2) / 32)) as Hs. rewrite H3 in Hs by (Z.div_mod_to_equations; lia). Z.div_mod_to_equations. lia.
  - intros Hne b H0 Hlt. apply H3; Z.div_mod_to_equations; lia.
Qed.

Module Demo.
(** "_cat" and "README". *)
Definition inp : list (list Z * list (list Z)) :=
  [([95; 99; 97; 116], [[1; 2; 3]]); ([82; 69; 65; 68; 77; 69], [replicate 512 7; [9]])].

Lemma inp_fits : fits inp.
Proof.
  split.
  - apply Forall_forall. repeat constructor; apply (bool_decide_unpack _); by vm_compute.
  - apply Forall_forall. repeat constructor; by vm_compute.
  - vm_compute. done.
  - vm_compute. done.
Qed.
End Demo.

Lemma mkfs_image_witness : ∃ s, mkfs Demo.inp mst0 = Done tt s ∧ built Demo.inp (m_disk s) ∧ map_ok FSSIZE mk_sb (m_disk s).
Proof.
  destruct (mkfs_image Demo.inp Demo.inp_fits) as (s & E & _ & Hb & Hm & _).
  exists s. split; [exact E|]. split; [exact Hb|exact Hm].
Defined.
