(* ===== verification/Image.v ===== *)
(** From the image to the kernel: a file put into the image by mkfs is found by its
    path and read back. *)
From S2P Require Import Prelude Mem KState Spinlock Sched Sleeplock Layout Path Bio BioLaw Log LogLaw Services Fs Icache FsLaw FsSpec Dir Namei Mkfs.

#[local] Abbreviation len c := (Z.of_nat (length c)).

(** The entries of the root directory: names and inodes. *)
Fixpoint named (inum : Z) (inp : list (list Z * list (list Z))) : list (list Z * Z) :=
  match inp with
  | [] => []
  | f :: inp' => (skip_underscore f.1, inum) :: named (inum + 1) inp'
  end.
Definition ents (inp : list (list Z * list (list Z))) : list (list Z * Z) := ([46], 1) :: ([46; 46], 1) :: named 2 inp.
#[local] Abbreviation bytes_of := (fmap (λ e : list Z * Z, dirent_of e.1 e.2)).

Lemma listing_ents inp : dirent_of [46] 1 ++ dirent_of [46; 46] 1 ++ listing 2 inp = concat (bytes_of (ents inp)).
Proof.
  unfold ents. cbn [fmap list_fmap concat fst snd]. do 2 f_equal. generalize 2. induction inp as [|f inp IH]; intros n; [done|].
  cbn [listing named fmap list_fmap concat fst snd]. by rewrite IH.
Qed.

Lemma length_ents inp : len (ents inp) = len inp + 2.
Proof.
  unfold ents. cbn [length]. assert (∀ n, length (named n inp) = length inp) as ->; [|lia].
  induction inp as [|f inp IH]; intros n; [done|]. cbn [named length]. by rewrite IH.
Qed.

Lemma named_lookup inp : ∀ n k, named n inp !! k = (λ f, (skip_underscore f.1, n + Z.of_nat k)) <$> inp !! k.
Proof.
  induction inp as [|f inp IH]; intros n [|k]; [done|done|..]; cbn [named].
  - cbn. by rewrite Z.add_0_r.
  - change ((?a :: ?l) !! S k) with (l !! k). rewrite IH. destruct (inp !! k); [|done]. cbn. do 2 f_equal. lia.
Qed.

Lemma ents_inum inp j e : ents inp !! j = Some e → 1 ≤ e.2 < len inp + 2.
Proof.
  intros He. destruct j as [|[|j]]; [injection He as <-; cbn; lia|injection He as <-; cbn; lia|]. change (named 2 inp !! j = Some e) in He.
  rewrite named_lookup in He. destruct (inp !! j) as [f|] eqn:E; [|done]. apply lookup_lt_Some in E. injection He as <-. cbn. lia.
Qed.

(** The bytes of equal pieces. *)
Lemma concat_piece (ls : list (list Z)) n j l :
  Forall (λ l, length l = n) ls → ls !! j = Some l → ∀ k, (k < n)%nat → concat ls !! (n * j + k)%nat = l !! k.
Proof.
  intros Hf. revert j. induction Hf as [|a ls Ha Hls IH]; intros [|j] Hj k Hk; [done|done|..].
  - injection Hj as ->. cbn [concat]. rewrite Nat.mul_0_r, Nat.add_0_l, lookup_app_l by lia. done.
  - cbn [concat]. rewrite lookup_app_r by lia. rewrite <- (IH j Hj k Hk). f_equal. lia.
Qed.

Section Image.
Context (inp : list (list Z * list (list Z))) (D : disk) (Hfit : fits inp) (Hb : built inp D) (Hmod : (len inp + 2) mod 32 ≠ 0).
#[local] Abbreviation root := (disk_inode mk_sb D ROOTINO).

Lemma root_size : i_size root = (16 * (len inp + 2) / BSIZE + 1) * BSIZE.
Proof. destruct (bt_root _ _ Hb) as [H1 _ _ _ _]. cbv zeta in H1. congruence. Qed.

Lemma root_entries : dir_size root = ((len inp + 2) / 32 + 1) * 32.
Proof. unfold dir_size. rewrite root_size. unfold BSIZE, dirent_size. Z.div_mod_to_equations. lia. Qed.

(** An entry of the directory, and the empty ones behind them. *)
Lemma root_entry j e : ents inp !! j = Some e → entry D root (Z.of_nat j) = dirent_of e.1 e.2.
Proof.
  intros He. destruct (bt_root _ _ Hb) as [_ _ _ H4 _]. rewrite listing_ents in H4. set (c := concat _) in H4.
  assert (Forall (λ l, length l = 16%nat) (bytes_of (ents inp))) as Hf.
  { apply Forall_forall. intros l (e' & -> & _)%list_elem_of_fmap. pose proof (length_dirent e'.1 e'.2). lia. }
  assert (bytes_of (ents inp) !! j = Some (dirent_of e.1 e.2)) as Hj by (by rewrite list_lookup_fmap, He).
  pose proof (length_dirent e.1 e.2) as Hl. apply list_eq_same_length with 16%nat; [lia|unfold entry; by rewrite length_file_bytes|].
  intros k a b Hk. unfold entry, file_bytes, dirent_size. rewrite list_lookup_fmap, lookup_seqZ_lt by lia. cbn [fmap option_fmap option_map]. intros [= <-] Hb'.
  rewrite <- (concat_piece _ 16 j _ Hf Hj k Hk) in Hb'. fold c in Hb'. rewrite <- H4 in Hb'. pose proof (lookup_lt_Some _ _ _ Hb') as Hlt.
  rewrite length_file_bytes in Hlt. unfold file_bytes in Hb'. rewrite list_lookup_fmap, lookup_seqZ_lt in Hb' by lia. injection Hb' as <-. f_equal. lia.
Qed.

Lemma root_empty j : len inp + 2 ≤ j < dir_size root → de_inum (entry D root j) = 0.
Proof.
  intros Hj. rewrite root_entries in Hj. destruct (bt_root _ _ Hb) as [_ _ H3 _ H5]. pose proof (ft_count _ Hfit) as Hc.
  rewrite listing_ents in H3, H5.
  assert (len (concat (bytes_of (ents inp))) = 16 * (len inp + 2)) as Hl.
  { rewrite <- listing_ents, !length_app, !Nat2Z.inj_add, !length_dirent, length_listing. lia. }
  rewrite Hl in *. assert (entry D root j = replicate 16 0) as ->; [|done].
  apply list_eq_same_length with 16%nat; [done|unfold entry; by rewrite length_file_bytes|].
  intros k a b Hk. unfold entry, file_bytes, dirent_size. rewrite list_lookup_fmap, lookup_seqZ_lt by lia. cbn [fmap option_fmap option_map]. intros [= <-].
  intros [-> _]%lookup_replicate. change (MAXFILE * BSIZE) with 71680 in *. change MAXFILE with 140 in *. unfold BSIZE in *.
  apply H5; [Z.div_mod_to_equations; lia|]. apply H3; Z.div_mod_to_equations; lia.
Qed.

(** What the root directory has for a name. *)
Lemma root_find name j : dir_find D root name = Some j → ∃ e, ents inp !! Z.to_nat j = Some e ∧ entry D root j = dirent_of e.1 e.2.
Proof.
  intros Hf. apply scan_Some in Hf as (Hj & Hh & _). rewrite Z.add_0_l in Hj.
  assert (j < len inp + 2) as Hlt.
  { destruct (decide (j < len inp + 2)) as [|Hge]; [done|]. exfalso. unfold hit in Hh. rewrite root_empty in Hh; [done|]. lia. }
  destruct (lookup_lt_is_Some_2 (ents inp) (Z.to_nat j)) as [e He]; [pose proof (length_ents inp); lia|]. exists e. split; [done|].
  replace j with (Z.of_nat (Z.to_nat j)) at 1 by lia. by apply root_entry.
Qed.

Lemma image_inode inum : 1 ≤ inum < len inp + 2 → ∃ t sz c, holds_file D inum t sz c ∧ (t = T_DIR → inum = ROOTINO) ∧ t ≠ 0.
Proof.
  intros Hi. destruct (decide (inum = ROOTINO)) as [->|Hne]; [by eexists _, _, _; split; [apply (bt_root _ _ Hb)|]|].
  unfold ROOTINO in Hne. destruct (lookup_lt_is_Some_2 inp (Z.to_nat (inum - 2))) as [f Hf]; [lia|]. pose proof (bt_file _ _ Hb _ _ Hf) as H.
  replace (Z.of_nat (Z.to_nat (inum - 2)) + 2) with inum in H by lia. by eexists _, _, _.
Qed.

Lemma image_live inum : live mk_sb D inum ↔ 1 ≤ inum < len inp + 2.
Proof.
  pose proof (ft_count _ Hfit) as Hc. unfold live. change (sb_ninodes mk_sb) with 200. split.
  - intros [Hr Ht]. destruct (decide (inum < len inp + 2)); [lia|]. destruct Ht. apply (bt_unused _ _ Hb). lia.
  - intros Hi. split; [lia|]. destruct (image_inode inum Hi) as (t & sz & c & [H1 _ _ _ _] & _ & Ht). cbv zeta in H1. congruence.
Qed.

(** The image is a file system as [namex] needs it. *)
Lemma image_tree : map_ok FSSIZE mk_sb D → tree_ok FSSIZE mk_sb D.
Proof.
  intros Hmap. pose proof (ft_count _ Hfit) as Hc. split; [done|..].
  - intros inum Hl%image_live. destruct (image_inode inum Hl) as (t & sz & c & [H1 _ _ _ _] & _). cbv zeta in H1.
    assert (i_nlink (disk_inode mk_sb D inum) = 1) as -> by congruence. done.
  - intros inum Hl%image_live. destruct (image_inode inum Hl) as (t & sz & c & H & _). apply H.
  - intros inum Hl%image_live Ht. destruct (image_inode inum Hl) as (t & sz & c & [H1 _ _ _ _] & Hd & _). cbv zeta in H1.
    assert (inum = ROOTINO) as -> by (apply Hd; congruence). intros x. unfold x. split; [|split; [|split]].
    + rewrite root_size. change (MAXFILE * BSIZE) with 71680. unfold BSIZE. Z.div_mod_to_equations. lia.
    + rewrite root_size. unfold BSIZE, dirent_size. Z.div_mod_to_equations. lia.
    + apply (root_holes inp D Hfit Hb). done.
    + intros name n. unfold dir_map. destruct (dir_find D root name) as [j|] eqn:E; [|done]. cbn [fmap option_fmap option_map]. intros [= <-].
      destruct (root_find name j E) as (e & He & ->). pose proof (ents_inum _ _ _ He) as Hr. destruct (dirent_fields e.1 e.2) as [-> _]; [lia|].
      by apply image_live.
Qed.

(** The first entry with a name is what the name means. *)
Lemma root_map name k e :
  name_ok name → Forall (λ e, name_ok e.1) (ents inp) → ents inp !! k = Some e → take DIRSIZ name = take DIRSIZ e.1 →
  (∀ j e', (j < k)%nat → ents inp !! j = Some e' → take DIRSIZ name ≠ take DIRSIZ e'.1) → dir_map D root name = Some e.2.
Proof.
  intros Hn Hall He Heq Hfirst. pose proof (ft_count _ Hfit) as Hc. pose proof (length_ents inp) as Hl. pose proof (lookup_lt_Some _ _ _ He) as Hk.
  rewrite Forall_lookup in Hall.
  assert (∀ j e', ents inp !! j = Some e' → hit name (entry D root (Z.of_nat j)) = bool_decide (take DIRSIZ name = take DIRSIZ e'.1)) as Hhit.
  { intros j e' He'. rewrite (root_entry j e' He'). pose proof (ents_inum _ _ _ He'). apply hit_dirent; [by eapply Hall|done|lia]. }
  unfold dir_map, dir_find. rewrite (scan_first _ _ _ _ (Z.of_nat k)).
  - cbn [fmap option_fmap option_map]. rewrite (root_entry k e He). f_equal. apply dirent_fields. pose proof (ents_inum _ _ _ He). lia.
  - rewrite root_entries. Z.div_mod_to_equations. lia.
  - rewrite (Hhit k e He). by apply bool_decide_eq_true_2.
  - intros j Hj. destruct (lookup_lt_is_Some_2 (ents inp) (Z.to_nat j)) as [e' He']; [lia|].
    replace j with (Z.of_nat (Z.to_nat j)) by lia. rewrite (Hhit _ _ He'). apply bool_decide_eq_false_2. apply (Hfirst (Z.to_nat j)); [lia|done].
Qed.
End Image.

(** A file whose name no file before it has, nor [.] or [..]. *)
Definition first_named (inp : list (list Z * list (list Z))) (k : nat) (name : list Z) : Prop :=
  take DIRSIZ name ≠ [46] ∧ take DIRSIZ name ≠ [46; 46] ∧
  ∀ j f, (j < k)%nat → inp !! j = Some f → take DIRSIZ name ≠ take DIRSIZ (skip_underscore f.1).

Lemma components_one name : name ≠ [] → (slash ∉ name) → components (slash :: name) = [name].
Proof.
  intros Hne Hs. assert (split_slash name = [name]) as E.
  { clear Hne. induction name as [|c name IH]; [done|]. cbn [split_slash]. apply not_elem_of_cons in Hs as [Hc Hs].
    destruct (Z.eqb_spec c slash) as [->|]; [done|]. by rewrite IH. }
  unfold components. cbn [split_slash]. change (slash =? slash) with true. cbv iota. rewrite filter_cons_False by auto. rewrite E.
  by rewrite filter_cons_True.
Qed.

Lemma skip_underscore_in c name : c ∈ skip_underscore name → c ∈ name.
Proof. destruct name as [|a name]; [done|]. cbn. destruct (a =? 95); [by right|done]. Qed.

Lemma ents_ok inp : Forall (λ f, name_ok f.1) inp → Forall (λ e, name_ok e.1) (ents inp).
Proof.
  intros Hn. unfold ents. repeat constructor. generalize 2. induction Hn as [|f inp Hf _ IH]; intros n; [constructor|]. cbn [named]. constructor; [|apply IH].
  apply Forall_forall. intros c Hc%skip_underscore_in. by eapply Forall_forall in Hf.
Qed.

Lemma image_resolve inp D k f :
  fits inp → built inp D → (len inp + 2) mod 32 ≠ 0 → Forall (λ f, name_ok f.1) inp → inp !! k = Some f →
  let name := skip_underscore f.1 in name ≠ [] → first_named inp k name →
  resolve mk_sb D false ROOTINO [] (take DIRSIZ <$> components (slash :: name)) = Some (Z.of_nat k + 2, take DIRSIZ name).
Proof.
  intros Hf Hb Hmod Hn Hk name Hne (N1 & N2 & N3). assert (slash ∉ name) as Hs.
  { intros Hin%skip_underscore_in. by apply (ft_name _ Hf f); [eapply list_elem_of_lookup_2|]. }
  rewrite components_one by done. cbn [fmap list_fmap resolve andb]. destruct (bt_root _ _ Hb) as [H1 _ _ _ _]. cbv zeta in H1.
  assert (i_type (disk_inode mk_sb D ROOTINO) = T_DIR) as -> by congruence. cbn [Z.eqb T_DIR Pos.eqb].
  assert (name_ok name) as Hname.
  { apply Forall_forall. intros c Hc%skip_underscore_in. eapply Forall_lookup in Hn; [|done]. by eapply Forall_forall in Hn. }
  rewrite (root_map inp D Hf Hb Hmod (take DIRSIZ name) (S (S k)) (name, Z.of_nat k + 2)).
  - done.
  - by apply Forall_take.
  - by apply ents_ok.
  - change (named 2 inp !! k = Some (name, Z.of_nat k + 2)). rewrite named_lookup, Hk. cbn. do 2 f_equal. lia.
  - cbn [fst]. apply take_idemp.
  - rewrite take_idemp. intros [|[|j]] e' Hj He'; [injection He' as <-; done|injection He' as <-; done|]. change (named 2 inp !! j = Some e') in He'.
    rewrite named_lookup in He'. destruct (inp !! j) as [g|] eqn:Eg; [|done]. injection He' as <-. cbn [fst]. apply (N3 j g); [lia|done].
Qed.

(** C6: The kernel finds on the image what mkfs was given.  With any kernel state whose
    buffer and inode caches agree with the image, no inode locked and two inode cache
    entries free: the path of a slash and the name of a file leads to its inode, and
    locking and reading it returns its contents.  Of files with the same name (in the
    first DIRSIZ characters, and without a leading underscore) the first one counts. *)
Theorem image_boot inp : fits inp → (len inp + 2) mod 32 ≠ 0 → Forall (λ f, name_ok f.1) inp →
  ∃ m, mkfs inp mst0 = Done tt m ∧
  ∀ (W : Type) (VO : VmOps W) (DV : DevSw W) i p D0 fuel h bl (s : kst W) k f,
    (0 < fuel)%nat → cached i p D0 FSSIZE (sb_logstart mk_sb) LOGSIZE mk_sb h (m_disk m) bl None s →
    (2 ≤ nfree (inodes s))%nat → (∀ d n, refs (inodes s) d n < 2^31 - 4) →
    inp !! k = Some f → let name := skip_underscore f.1 in name ≠ [] → first_named inp k name →
    ∃ ip s1 s2 s3, namei fuel (slash :: name) s = Done (Some ip) s1 ∧ ilock fuel ip s1 = Done tt s2 ∧
      readi fuel ip ToKernel 0 (len (concat f.2)) s2 = Done (len (concat f.2), concat f.2) s3.
Proof.
  intros Hf Hmod Hn. destruct (mkfs_tree inp Hf) as (D1 & m1 & E & Him). eexists. split; [exact E|]. cbn [m_disk].
  pose proof (tree_built inp D1 m1 Hf Him) as Hb. revert Hb. generalize (finish D1 m1 ((16 * (len inp + 2) / BSIZE + 1) * BSIZE)). intros D Hb.
  intros W VO DV i p D0 fuel h bl s k f Hfu Hc Hfree Hmax Hk Hne Hfst. set (name := skip_underscore f.1) in *. pose proof (mk_geometry fuel Hfu) as Hg. pose proof (ft_count _ Hf) as Hcnt.
  pose proof (image_tree inp D Hf Hb Hmod (built_map inp D Hb)) as Ht. pose proof (lookup_lt_Some _ _ _ Hk) as Hlt.
  assert (starts_at p mk_sb D s (slash :: name) ROOTINO) as Hst by (split; [done|apply (image_live inp D Hf Hb); unfold ROOTINO; lia]).
  pose proof (image_resolve inp D k f Hf Hb Hmod Hn Hk Hne Hfst) as Hres.
  destruct (namex_start i p D0 FSSIZE (sb_logstart mk_sb) LOGSIZE mk_sb h D bl (inodes s) Hfree Hmax s _ _ Hc eq_refl Hst) as (ip0 & s0 & E0 & C0 & H0 & L0).
  pose proof (namex_loop_ok i p D0 FSSIZE fuel _ LOGSIZE mk_sb Hg h D bl Ht (inodes s) (ca_ok _ _ _ _ _ _ _ _ _ _ _ _ Hc) Hfree Hmax false
    (S (length (slash :: name))) (slash :: name) [] s0 ip0 ROOTINO ltac:(lia) C0 H0 L0) as Hloop.
  cbv zeta in Hres. fold name in Hres. rewrite Hres in Hloop. destruct Hloop as (ip & s1 & E1 & C1 & H1 & _).
  destruct (ilock_cached i p D0 FSSIZE fuel _ LOGSIZE mk_sb Hg h D bl s1 ip _ C1 H1) as (x & s2 & E2 & C2 & _ & _ & _ & Hx & Hr & _ & Hs).
  pose proof (built_read inp D i p D0 fuel h bl ip x s2 k f Hf Hb Hfu (ca_tx _ _ _ _ _ _ _ _ _ _ _ _ C2) (ca_sb _ _ _ _ _ _ _ _ _ _ _ _ C2)
    (ca_room _ _ _ _ _ _ _ _ _ _ _ _ C2) Hx ltac:(apply Hr) Hk Hs) as Hread.
  apply wp_alone in Hread as (r & s3 & E3 & ->). exists ip, s1, s2, s3. split; [|split; [exact E2|exact E3]].
  unfold namei, namex. mstep. rewrite E0. mstep. rewrite E1. reflexivity.
Qed.

(** A kernel that has just mounted the image of [Mkfs.Demo]: nothing in the caches. *)
Module ImageDemo.
Definition blocks (D : disk) : gmap Z (list Z) := list_to_map ((λ n, (n, D n)) <$> seqZ 0 FSSIZE).

Lemma blocks_at D n : BioLaw.Demo.block_of (blocks D) n = if decide (0 ≤ n < FSSIZE) then D n else zeros.
Proof.
  unfold BioLaw.Demo.block_of, blocks. destruct (decide (0 ≤ n < FSSIZE)) as [Hn|Hn].
  - rewrite (elem_of_list_to_map_1 _ n (D n)); [reflexivity| |].
    + rewrite <- list_fmap_compose. rewrite (list_fmap_ext _ id) by reflexivity. rewrite list_fmap_id. apply NoDup_seqZ.
    + apply list_elem_of_fmap. exists n. split; [reflexivity|]. apply elem_of_seqZ. lia.
  - rewrite not_elem_of_list_to_map_1; [reflexivity|]. rewrite <- list_fmap_compose. intros (k & -> & Hk%elem_of_seqZ)%list_elem_of_fmap. cbn in Hn. lia.
Qed.

(** The caches depend on the disk block by block. *)
Lemma bio_pointwise {W} i p D D' size (s : kst W) : (∀ n, D' n = D n) → bio i p D size [] D ∅ ∅ s → bio i p D' size [] D' ∅ ∅ s.
Proof.
  intros E [A1 [B1 B2 B3 B4 B5 B6] A3 A4 A5 A6]. split; try done.
  - split; try done. intros b x Hb Hx. destruct (B2 b x Hb Hx) as [Q1 Q2 Q3]. split; try done. intros Hd. rewrite E. by apply Q1.
  - intros n. rewrite A3. symmetry. apply E.
  - intros n. by rewrite E.
Qed.

Definition the_log : log := mkLog 2 30 1 0 1 0 (replicate 30 0).
Definition mount {W} (s0 : kst W) : kst W :=
  set_k_fs (set_fs_inodes (replicate 50 inode0) (set_fs_sb mk_sb (set_fs_log the_log (k_fs s0)))) s0.

Lemma mount_cached D (s0 : kst (gmap Z vobj)) :
  bio 0 Sched.Demo.p1 D FSSIZE [] D ∅ ∅ s0 → (∀ k, sl_locked (slock k s0) = 0) →
  cached 0 Sched.Demo.p1 D FSSIZE (sb_logstart mk_sb) LOGSIZE mk_sb [] D [] None (mount s0).
Proof.
  intros Hb Hl. split.
  - split; [|by split|intros x Hx; by apply not_elem_of_nil in Hx|constructor|cbn; lia|reflexivity].
    eapply bio_same; [exact Hb| |reflexivity..]. apply (krun_frame _ _ _ _ s0); [reflexivity..|apply Hb].
  - reflexivity.
  - apply FsDemo.fs_room. lia.
  - split; [reflexivity| |].
    + intros k x [-> _]%lookup_replicate. cbn. lia.
    + intros j k x y _ [-> _]%lookup_replicate _ Hr. cbn in Hr. lia.
  - intros ip y [-> _]%lookup_replicate Hr. cbn in Hr. lia.
  - intros ip _. apply Hl.
Qed.

(** A state in which the blocks of [D] are on the disk. *)
Lemma mounted D : (∀ n, length (D n) = Z.to_nat BSIZE) → (∀ n, n < 0 ∨ FSSIZE ≤ n → D n = zeros) →
  ∃ s : kst (gmap Z vobj), cached 0 Sched.Demo.p1 D FSSIZE (sb_logstart mk_sb) LOGSIZE mk_sb [] D [] None s ∧ inodes s = replicate 50 inode0.
Proof.
  intros HD Hz. assert (map_Forall (λ _ v, length v = Z.to_nat BSIZE) (blocks D)) as Hd.
  { intros n v Hv. apply elem_of_list_to_map_2, list_elem_of_fmap in Hv as (k & [= -> ->] & _). apply HD. }
  pose proof (BioLaw.Demo.bio_st_of (∅ : gmap Z vobj) (blocks D) FSSIZE Hd) as Hb.
  assert (∀ k, sl_locked (slock k (BioLaw.Demo.st_of (∅ : gmap Z vobj) (blocks D) FSSIZE)) = 0) as Hl by (intros k; reflexivity). revert Hb Hl.
  generalize (BioLaw.Demo.st_of (∅ : gmap Z vobj) (blocks D) FSSIZE). intros s0 Hb Hl. exists (mount s0). split; [|reflexivity].
  apply mount_cached; [|done]. eapply bio_pointwise; [|exact Hb]. intros n. rewrite blocks_at. destruct (decide (0 ≤ n < FSSIZE)); [reflexivity|]. apply Hz. lia.
Qed.
End ImageDemo.

Lemma image_boot_witness : ∃ (s s1 s2 s3 : kst (gmap Z vobj)) ip,
  namei 1 [47; 99; 97; 116] s = Done (Some ip) s1 ∧ ilock 1 ip s1 = Done tt s2 ∧ readi 1 ip ToKernel 0 3 s2 = Done (3, [1; 2; 3]) s3.
Proof.
  destruct (image_boot Mkfs.Demo.inp Mkfs.Demo.inp_fits) as (m & E & H); [vm_compute; discriminate|repeat constructor|].
  destruct (mkfs_tree Mkfs.Demo.inp Mkfs.Demo.inp_fits) as (D1 & m1 & E1 & Him). 
  pose proof (tree_built Mkfs.Demo.inp D1 m1 Mkfs.Demo.inp_fits Him) as Hb.
  assert (built Mkfs.Demo.inp (m_disk m)) as Hm by (rewrite E1 in E; injection E as <-; exact Hb). revert Hm H. generalize (m_disk m). clear. intros D Hb H.
  destruct (ImageDemo.mounted D (bt_sectors _ _ Hb) (bt_outside _ _ Hb)) as (s & Hc & Hi).
  destruct (H (gmap Z vobj) _ FsDemo.no_devices 0%nat Sched.Demo.p1 D 1%nat [] [] s 0%nat ([95; 99; 97; 116], [[1; 2; 3]])) as (ip & s1 & s2 & s3 & R1 & R2 & R3).
  - lia.
  - exact Hc.
  - rewrite Hi. vm_compute. lia.
  - intros d n. rewrite Hi. unfold refs. destruct (list_find _ _) as [[k y]|] eqn:Ef; [|lia]. apply list_find_Some in Ef as (Hk & _). apply lookup_replicate in Hk as [-> _]. cbn. lia.
  - reflexivity.
  - discriminate.
  - split; [discriminate|]. split; [discriminate|]. intros j f Hj. lia.
  - exists s, s1, s2, s3, ip. split; [exact R1|]. split; [exact R2|exact R3].
Defined.
