(* ===== verification/Kalloc.v ===== *)
(** kalloc.c: the physical page allocator.  Memory is byte-addressed by kernel
    virtual address; the free pages form a list threaded through their first words.
    The contract of the allocator is stated with a ghost map from pages to what they
    are used for: giving a page out or taking it back changes its use and nothing
    else, so pages with different uses are different pages. *)
From S2P Require Import Prelude Mem Str KState Spinlock Sched Services.

(** * memlayout.h *)
Definition EXTMEM : Z := 1048576.           (* 0x100000 *)
Definition PHYSTOP : Z := 234881024.        (* 0xE000000 *)
Definition DEVSPACE : Z := 4261412864.      (* 0xFE000000 *)
Definition KERNLINK : Z := KERNBASE + EXTMEM.
Definition P2V (a : Z) : Z := u32 (a + KERNBASE).

(** Physical memory, and kmem; what is printed about it is kept in [v_console]. *)
Record vmst := mkVm {
  v_mem : mem;
  v_free : Z;       (* kmem.freelist *)
  v_use_lock : Z;   (* kmem.use_lock *)
  v_locked : Z;     (* kmem.lock.locked *)
  v_console : list string;
}.
Definition set_v_mem (m : mem) (w : vmst) : vmst := mkVm m (v_free w) (v_use_lock w) (v_locked w) (v_console w).
Definition set_v_free (a : Z) (w : vmst) : vmst := mkVm (v_mem w) a (v_use_lock w) (v_locked w) (v_console w).
Definition set_v_use_lock (b : Z) (w : vmst) : vmst := mkVm (v_mem w) (v_free w) b (v_locked w) (v_console w).
Definition set_v_locked (b : Z) (w : vmst) : vmst := mkVm (v_mem w) (v_free w) (v_use_lock w) b (v_console w).
Definition set_v_console (l : list string) (w : vmst) : vmst := mkVm (v_mem w) (v_free w) (v_use_lock w) (v_locked w) l.

Definition upd_mem (f : mem → mem) : M vmst unit := modify (λ w, set_v_mem (f (v_mem w)) w).
Definition load (a : Z) : M vmst Z := gets (λ w, load32 (v_mem w) a).
Definition store (a v : Z) : M vmst unit := upd_mem (λ m, store32 m a v).
Definition memset (a c n : Z) : M vmst unit := upd_mem (λ m, KString.memset m a c (Z.to_nat n)).
Definition memmove (d s n : Z) : M vmst unit := upd_mem (λ m, KString.memmove m d s (Z.to_nat n)).

(** [kmem.lock], as the code that holds it for a few instructions sees it. *)
Definition acquire_kmem : M vmst unit :=
  l <- gets v_locked ;; if l =? 0 then modify (set_v_locked 1) else panic "acquire".
Definition release_kmem : M vmst unit :=
  l <- gets v_locked ;; if l =? 0 then panic "release" else modify (set_v_locked 0).

Section Kalloc.
Variable end_ : Z.   (* first address after the kernel, from kernel.ld *)

Definition kfree (v : Z) : M vmst unit :=
  (if negb (v mod PGSIZE =? 0) || (v <? end_) || (PHYSTOP <=? V2P v) then panic "kfree" else ret tt) ;;;
  memset v 1 PGSIZE ;;;
  u <- gets v_use_lock ;;
  when (negb (u =? 0)) acquire_kmem ;;;
  f <- gets v_free ;;
  store v f ;;;
  modify (set_v_free v) ;;;
  when (negb (u =? 0)) release_kmem.

Definition kalloc : M vmst Z :=
  u <- gets v_use_lock ;;
  when (negb (u =? 0)) acquire_kmem ;;;
  r <- gets v_free ;;
  when (negb (r =? 0)) (n <- load r ;; modify (set_v_free n)) ;;;
  when (negb (u =? 0)) release_kmem ;;;
  ret r.

(** [for(; p + PGSIZE <= vend; p += PGSIZE) kfree(p);] *)
Definition freerange (vstart vend : Z) : M vmst unit :=
  let p := PGROUNDUP vstart in
  for_each (seq 0 (Z.to_nat ((vend - p) / PGSIZE))) (λ k, kfree (p + PGSIZE * Z.of_nat k)).

Definition kinit1 (vstart vend : Z) : M vmst unit :=
  modify (set_v_locked 0) ;;;   (* initlock *)
  modify (set_v_use_lock 0) ;;;
  freerange vstart vend.
Definition kinit2 (vstart vend : Z) : M vmst unit :=
  freerange vstart vend ;;;
  modify (set_v_use_lock 1).

End Kalloc.

(** * Pages and their uses *)

Inductive use :=
| UFree                    (* on the free list *)
| UPage                    (* given out by kalloc *)
| UDir                     (* a page directory *)
| UTab (pd i : Z)          (* page table [i] of directory [pd] *)
| UUser (pd n : Z).        (* user page number [n] of directory [pd] *)
#[export] Instance use_eq : EqDecision use.
Proof. solve_decision. Defined.

Definition in_page (p x : Z) : Prop := p ≤ x < p + 4096.
(** [m'] has the bytes of [m] on page [p]. *)
Definition agree (m m' : mem) (p : Z) : Prop := ∀ x, in_page p x → m' x = m x.

(** The free list as a list of pages. *)
Fixpoint chain (m : mem) (a : Z) (fl : list Z) : Prop :=
  match fl with
  | [] => a = 0
  | p :: fl' => a = p ∧ chain m (load32 m p) fl'
  end.

Lemma chain_frame m m' a fl : (∀ p, p ∈ fl → agree m m' p) → chain m a fl → chain m' a fl.
Proof.
  revert a. induction fl as [|p fl IH]; intros a Hag; [done|]. intros [-> Hc]. split; [done|].
  rewrite (load32_ext m' m); [apply IH; [set_solver|done]|].
  intros x Hx. apply (Hag p); [set_solver|]. unfold in_page. lia.
Qed.

Lemma memset_at m a c n x :
  0 ≤ n → KString.memset m a c (Z.to_nat n) x = if in_range a n x then u8 c else m x.
Proof.
  intros Hn. rewrite (memset_writes m a c (Z.to_nat n) x). destruct (in_range a n x) eqn:E.
  - apply in_range_spec in E. replace x with (a + Z.of_nat (Z.to_nat (x - a))) by lia.
    apply writes_in. apply lookup_replicate. lia.
  - apply in_range_false in E. apply writes_out. rewrite length_replicate. lia.
Qed.

Lemma store32_out m a v x : ¬ (a ≤ x < a + 4) → store32 m a v x = m x.
Proof. intros Hx. apply writes_out. cbn. lia. Qed.

Lemma u8_ok c : 0 ≤ u8 c < 256.
Proof. apply u8_range. Qed.

Lemma memset_ok m a c n : 0 ≤ n → mem_ok m → mem_ok (KString.memset m a c (Z.to_nat n)).
Proof. intros Hn Hm x. rewrite memset_at by done. destruct (in_range a n x); [apply u8_ok|apply Hm]. Qed.

(** * The allocator's contract *)
Section Contract.
Variable end_ : Z.
Hypothesis Hend : KERNBASE < end_.
Implicit Types U : gmap Z use.

Record valid_page (p : Z) : Prop := {
  vp_aligned : p mod 4096 = 0;
  vp_low : end_ ≤ p;
  vp_high : p < KERNBASE + PHYSTOP;
}.

Lemma valid_range p : valid_page p → KERNBASE + 4096 ≤ p ∧ p + 4096 ≤ KERNBASE + PHYSTOP ∧ p < 2^32.
Proof.
  intros [Ha Hl Hh]. unfold KERNBASE, PHYSTOP in *. apply Z.div_exact in Ha; [|lia].
  pose proof (Z.div_pos p 4096). lia.
Qed.

Lemma pages_apart p q x : valid_page p → valid_page q → p ≠ q → in_page p x → ¬ in_page q x.
Proof.
  intros [Ha _ _] [Hb _ _] Hne Hx Hy. unfold in_page in *.
  apply Z.div_exact in Ha, Hb; [|lia..]. lia.
Qed.

Record kmem_ok U (w : vmst) : Prop := {
  ko_lock : v_locked w = 0;
  ko_mem : mem_ok (v_mem w);
  ko_valid p u : U !! p = Some u → valid_page p;
  ko_free : ∃ fl, chain (v_mem w) (v_free w) fl ∧ NoDup fl ∧ ∀ p, p ∈ fl ↔ U !! p = Some UFree;
}.

(** Code that writes only to pages in use keeps the allocator's state. *)
Lemma kmem_write U w m' :
  kmem_ok U w → mem_ok m' → (∀ p, U !! p = Some UFree → agree (v_mem w) m' p) →
  kmem_ok U (set_v_mem m' w).
Proof.
  intros [A B C (fl & H1 & H2 & H3)] Hm Hag. split; try done. exists fl. split; [|done].
  cbn. apply (chain_frame (v_mem w)); [|done]. intros p Hp. by apply Hag, H3.
Qed.

(** Writing inside one page that is not free. *)
Lemma kmem_write_page U w p u m' :
  kmem_ok U w → U !! p = Some u → u ≠ UFree → mem_ok m' →
  (∀ x, ¬ in_page p x → m' x = v_mem w x) → kmem_ok U (set_v_mem m' w).
Proof.
  intros Hk Hp Hu Hm Hout. apply kmem_write; [done..|]. intros q Hq x Hx. apply Hout.
  apply (pages_apart q p); [by eapply ko_valid..|congruence|done].
Qed.

(** Changing the use of a page that is not free to another. *)
Lemma kmem_reuse U w p u u' :
  kmem_ok U w → U !! p = Some u → u ≠ UFree → u' ≠ UFree → kmem_ok (<[p := u']> U) w.
Proof.
  intros [A B C (fl & H1 & H2 & H3)] Hp Hu Hu'. split; try done.
  - intros q v. destruct (decide (q = p)) as [->|]; [eauto|]. rewrite lookup_insert_ne by done. apply C.
  - exists fl. split; [done|]. split; [done|]. intros q. rewrite H3.
    destruct (decide (q = p)) as [->|]; [rewrite lookup_insert_eq; naive_solver|by rewrite lookup_insert_ne].
Qed.

Lemma kalloc_use U w :
  kmem_ok U w → ∃ a w', kalloc w = Done a w' ∧ v_mem w' = v_mem w ∧
    ((a = 0 ∧ (∀ p, U !! p ≠ Some UFree) ∧ kmem_ok U w') ∨
     (U !! a = Some UFree ∧ ∀ u, u ≠ UFree → kmem_ok (<[a := u]> U) w')).
Proof.
  intros [A B C (fl & H1 & H2 & H3)]. unfold kalloc. mstep.
  set (w1 := if v_use_lock w =? 0 then w else set_v_locked 1 w).
  assert (E1 : when (negb (v_use_lock w =? 0)) acquire_kmem w = Done tt w1).
  { unfold w1, when, acquire_kmem. destruct (v_use_lock w =? 0); [done|]. cbn [negb]. mstep. by rewrite A. }
  rewrite E1. mstep. assert (Hm1 : v_mem w1 = v_mem w) by (unfold w1; by destruct (_ =? 0)).
  assert (Hf1 : v_free w1 = v_free w) by (unfold w1; by destruct (_ =? 0)). rewrite Hf1.
  set (w2 := if v_free w =? 0 then w1 else set_v_free (load32 (v_mem w) (v_free w)) w1).
  assert (E2 : when (negb (v_free w =? 0)) (n <- load (v_free w) ;; modify (set_v_free n)) w1 = Done tt w2).
  { unfold w2, load, when. rewrite <- Hm1. by destruct (v_free w =? 0). }
  revert E2. mstep. intros ->. mstep.
  set (w3 := set_v_locked 0 w2).
  assert (E3 : when (negb (v_use_lock w =? 0)) release_kmem w2 = Done tt w3).
  { unfold w3, w2, w1, when, release_kmem. destruct (v_use_lock w =? 0); cbn [negb]; mstep.
    - destruct w as [? ? ? ? ?]. cbn in *. rewrite A. by destruct (_ =? 0).
    - by destruct (v_free w =? 0). }
  rewrite E3. mstep. exists (v_free w), w3. split; [done|].
  assert (Hm3 : v_mem w3 = v_mem w) by (unfold w3, w2; by destruct (v_free w =? 0)).
  split; [done|]. destruct fl as [|p fl].
  - left. cbn in H1. split; [done|]. split; [intros p Hp; apply H3 in Hp; set_solver|].
    split; try done; [by rewrite Hm3|].
    exists []. split; [|done]. unfold w3, w2. rewrite H1. cbn. by rewrite Hf1.
  - right. destruct H1 as [Ef H1]. apply NoDup_cons in H2 as [Hn H2].
    assert (Hp : U !! p = Some UFree) by (apply H3; set_solver).
    assert (Hp0 : p ≠ 0). { pose proof (valid_range p (C _ _ Hp)). unfold KERNBASE in *. lia. }
    rewrite Ef. split; [done|]. intros u Hu. split.
    + done.
    + by rewrite Hm3.
    + intros q v. destruct (decide (q = p)) as [->|]; [eauto|]. rewrite lookup_insert_ne by done. apply C.
    + exists fl. split; [|split; [done|]].
      * rewrite Hm3. unfold w3, w2. rewrite Ef. by destruct (Z.eqb_spec p 0).
      * intros q. destruct (decide (q = p)) as [->|Hne]; [rewrite lookup_insert_eq; naive_solver|].
        rewrite lookup_insert_ne, <- H3 by done. set_solver.
Qed.

Lemma valid_ok p :
  valid_page p → negb (p mod PGSIZE =? 0) || (p <? end_) || (PHYSTOP <=? V2P p) = false.
Proof.
  intros Hv. pose proof (valid_range p Hv). destruct Hv as [Ha Hl Hh]. change PGSIZE with 4096. rewrite Ha.
  cbn [Z.eqb negb orb]. unfold V2P, KERNBASE, PHYSTOP in *. rewrite u32_id by lia.
  destruct (Z.ltb_spec p end_), (Z.leb_spec 234881024 (p - 2147483648)); cbn; lia.
Qed.

Lemma kfree_use U w p :
  kmem_ok U w → valid_page p → U !! p ≠ Some UFree →
  ∃ w', kfree end_ p w = Done tt w' ∧ kmem_ok (<[p := UFree]> U) w' ∧
    (∀ x, ¬ in_page p x → v_mem w' x = v_mem w x) ∧ v_use_lock w' = v_use_lock w.
Proof.
  intros [A B C (fl & H1 & H2 & H3)] Hv Hp. unfold kfree. mstep. rewrite valid_ok by done. mstep.
  unfold memset, store, upd_mem. mstep. set (m1 := KString.memset _ _ _ _).
  set (m2 := store32 m1 p (v_free w)).
  assert (Hout : ∀ x, ¬ in_page p x → m2 x = v_mem w x).
  { intros x Hx. unfold m2. rewrite store32_out by (unfold in_page in Hx; lia). unfold m1.
    rewrite memset_at by done. destruct (in_range p PGSIZE x) eqn:E; [|done].
    apply in_range_spec in E. by destruct Hx. }
  set (w1 := mkVm m2 p (v_use_lock w) 0 (v_console w)).
  exists w1. split.
  { unfold w1, when, acquire_kmem, release_kmem, m2. clearbody m1. destruct w as [m f u l c]. cbn in *. subst l.
    by destruct (u =? 0). }
  split; [|done]. split; try done.
  - apply writes_ok, memset_ok; [done..|]. done.
  - intros q v. destruct (decide (q = p)) as [->|]; [done|]. rewrite lookup_insert_ne by done. apply C.
  - exists (p :: fl). assert (Hn : p ∉ fl) by (rewrite H3; done).
    split; [split; [done|]|split].
    + cbn [w1 v_mem]. unfold m2 at 2. rewrite load32_store32.
      assert (Hr : 0 ≤ v_free w < 2^32).
      { destruct fl as [|q fl]; cbn in H1; [lia|]. destruct H1 as [-> _].
        pose proof (valid_range q (C q UFree (proj1 (H3 q) ltac:(set_solver)))). unfold KERNBASE in *. lia. }
      rewrite u32_id by done. apply (chain_frame (v_mem w)); [|done].
      intros q Hq x Hx. apply Hout. apply (pages_apart q p); [eapply C, H3, Hq|done|set_solver|done].
    + by apply NoDup_cons.
    + intros q. destruct (decide (q = p)) as [->|Hne]; [rewrite lookup_insert_eq; set_solver|].
      rewrite lookup_insert_ne, <- H3 by done. set_solver.
Qed.

(** ** Initialisation *)

(** The pages [freerange] visits. *)
Definition range_pages (vstart vend : Z) : list Z :=
  (λ k, PGROUNDUP vstart + PGSIZE * Z.of_nat k) <$> seq 0 (Z.to_nat ((vend - PGROUNDUP vstart) / PGSIZE)).

Definition free_all (l : list Z) U : gmap Z use := foldl (λ U p, <[p := UFree]> U) U l.

Lemma free_all_lookup l U p :
  free_all l U !! p = if decide (p ∈ l) then Some UFree else U !! p.
Proof.
  unfold free_all. revert U. induction l as [|q l IH]; intros U; cbn [foldl]; [by rewrite decide_False by set_solver|].
  rewrite IH. destruct (decide (p ∈ l)) as [Hin|Hn].
  - by rewrite decide_True by set_solver.
  - destruct (decide (p = q)) as [->|Hne].
    + by rewrite decide_True, lookup_insert_eq by set_solver.
    + by rewrite decide_False, lookup_insert_ne by set_solver.
Qed.

Lemma free_list (f : nat → Z) ks U w :
  kmem_ok U w → NoDup (f <$> ks) → (∀ p, p ∈ f <$> ks → valid_page p ∧ U !! p ≠ Some UFree) →
  ∃ w', for_each ks (λ k, kfree end_ (f k)) w = Done tt w' ∧ kmem_ok (free_all (f <$> ks) U) w' ∧
    v_use_lock w' = v_use_lock w.
Proof.
  revert U w. induction ks as [|k ks IH]; intros U w Hk Hd Hl; [by exists w|].
  cbn [fmap list_fmap] in Hd, Hl. apply NoDup_cons in Hd as [Hn Hd]. rewrite for_each_cons.
  destruct (Hl (f k) ltac:(set_solver)) as [Hv Hp].
  destruct (kfree_use U w (f k) Hk Hv Hp) as (w1 & -> & Hk1 & _ & Hu1).
  cbn [rbind]. destruct (IH (<[f k := UFree]> U) w1 Hk1 Hd) as (w' & E & Hk' & Hu').
  { intros q Hq. rewrite lookup_insert_ne by (intros <-; done). apply Hl. set_solver. }
  exists w'. split; [done|]. split; [done|congruence].
Qed.

Lemma PGROUNDUP_eq a : 0 ≤ a → a + 4095 < 2^32 → PGROUNDUP a = 4096 * ((a + 4095) / 4096).
Proof.
  intros H0 H1. unfold PGROUNDUP. change (PGSIZE - 1) with (Z.ones 12). rewrite land_lnot_ones by lia.
  change PGSIZE with 4096. replace (a + 4096 - 1) with (a + 4095) by lia. rewrite u32_id by lia. done.
Qed.

Lemma range_pages_spec vstart vend p :
  end_ ≤ vstart → vstart ≤ vend → vend ≤ KERNBASE + PHYSTOP →
  p ∈ range_pages vstart vend ↔ p mod 4096 = 0 ∧ vstart ≤ p ∧ p + 4096 ≤ vend.
Proof.
  unfold KERNBASE, PHYSTOP in *. intros Hs Hv He. unfold range_pages. change PGSIZE with 4096.
  rewrite PGROUNDUP_eq by lia. rewrite list_elem_of_fmap. split.
  - intros (k & -> & Hk%elem_of_seq).
    replace (_ + _) with (((vstart + 4095) / 4096 + Z.of_nat k) * 4096) by lia.
    split; [apply Z_mod_mult|]. Z.div_mod_to_equations. lia.
  - intros (Ha & H1 & H2). apply Z.div_exact in Ha; [|lia].
    exists (Z.to_nat (p / 4096 - (vstart + 4095) / 4096)).
    rewrite elem_of_seq. split; Z.div_mod_to_equations; lia.
Qed.

Lemma range_pages_nodup vstart vend : NoDup (range_pages vstart vend).
Proof. apply NoDup_fmap_2; [|apply NoDup_seq]. intros x y. change PGSIZE with 4096. lia. Qed.

Lemma freerange_use U w vstart vend :
  kmem_ok U w → end_ ≤ vstart → vstart ≤ vend → vend ≤ KERNBASE + PHYSTOP →
  (∀ p, p mod 4096 = 0 → vstart ≤ p → p + 4096 ≤ vend → U !! p ≠ Some UFree) →
  ∃ w', freerange end_ vstart vend w = Done tt w' ∧ v_use_lock w' = v_use_lock w ∧
    kmem_ok (free_all (range_pages vstart vend) U) w'.
Proof.
  intros Hk Hs Hv He Hn.
  destruct (free_list (λ k, PGROUNDUP vstart + PGSIZE * Z.of_nat k)
    (seq 0 (Z.to_nat ((vend - PGROUNDUP vstart) / PGSIZE))) U w Hk) as (w' & E & Hk' & Hu).
  - apply range_pages_nodup.
  - intros p Hp. apply (range_pages_spec vstart vend p) in Hp as (H1 & H2 & H3); [|done..].
    split; [split; [done|lia|lia]|auto].
  - exists w'. done.
Qed.

Lemma kinit_ok w mid :
  mem_ok (v_mem w) → v_free w = 0 → mid mod 4096 = 0 → end_ ≤ mid ≤ KERNBASE + PHYSTOP →
  ∃ w' U, (kinit1 end_ end_ mid ;;; kinit2 end_ mid (KERNBASE + PHYSTOP)) w = Done tt w' ∧
    kmem_ok U w' ∧ ∀ p, U !! p = Some UFree ↔ valid_page p.
Proof.
  intros Hm Hf Hmid Hr. unfold kinit1, kinit2. mstep.
  destruct (freerange_use ∅ (set_v_use_lock 0 (set_v_locked 0 w)) end_ mid) as (w1 & -> & _ & Hk1);
    [|lia|lia|lia|done|].
  { split; try done. exists []. split; [done|]. split; [constructor|]. intros p. rewrite lookup_empty. set_solver. }
  mstep.
  destruct (freerange_use (free_all (range_pages end_ mid) ∅) w1 mid (KERNBASE + PHYSTOP)) as (w2 & -> & _ & Hk2);
    [done|lia|lia|lia| |].
  { intros p Hp H1 H2. rewrite free_all_lookup, decide_False, lookup_empty; [done|].
    rewrite range_pages_spec by lia. lia. }
  mstep. eexists _, _. split; [done|]. split; [by destruct Hk2|].
  intros p. rewrite !free_all_lookup, lookup_empty.
  pose proof (range_pages_spec end_ mid p) as R1.
  pose proof (range_pages_spec mid (KERNBASE + PHYSTOP) p) as R2. split.
  - intros E. repeat case_decide; [apply R2 in H|apply R1 in H0|done]; try lia; split; lia.
  - intros Hv. pose proof (valid_range p Hv) as Hvr. destruct Hv as [H1 H2 H3].
    destruct (decide _) as [|N2]; [done|]. destruct (decide _) as [|N1]; [done|]. exfalso.
    apply Z.div_exact in Hmid; [|lia]. pose proof H1 as H1'. apply Z.div_exact in H1'; [|lia].
    destruct (Z.le_gt_cases mid p); [apply N2, R2|apply N1, R1]; lia.
Qed.

(** C12: The page allocator.  After [kinit1] and [kinit2] have been given the memory
    from [end_] to PHYSTOP in two halves, every whole page of it is on the free list
    exactly once.  From then on [kalloc] returns 0 only if no page is free, and
    otherwise a free page, which it takes off the list; [kfree] puts a page back.
    Neither touches the bytes of any other page, and no page is ever handed out
    while it is in use. *)
Theorem page_allocator w :
  mem_ok (v_mem w) → v_free w = 0 →
  (∀ mid, mid mod 4096 = 0 → end_ ≤ mid ≤ KERNBASE + PHYSTOP →
    ∃ w' U, (kinit1 end_ end_ mid ;;; kinit2 end_ mid (KERNBASE + PHYSTOP)) w = Done tt w' ∧
      kmem_ok U w' ∧ ∀ p, U !! p = Some UFree ↔ valid_page p) ∧
  (∀ U w, kmem_ok U w → ∃ a w', kalloc w = Done a w' ∧ v_mem w' = v_mem w ∧
    ((a = 0 ∧ (∀ p, U !! p ≠ Some UFree) ∧ kmem_ok U w') ∨
     (U !! a = Some UFree ∧ ∀ u, u ≠ UFree → kmem_ok (<[a := u]> U) w'))) ∧
  (∀ U w p u, kmem_ok U w → U !! p = Some u → u ≠ UFree →
    ∃ w', kfree end_ p w = Done tt w' ∧ kmem_ok (<[p := UFree]> U) w' ∧
      ∀ x, ¬ in_page p x → v_mem w' x = v_mem w x).
Proof.
  intros Hm Hf. split; [intros mid; by apply kinit_ok|]. split; [apply kalloc_use|].
  intros U w' p u Hk Hp Hu. destruct (kfree_use U w' p Hk) as (w1 & E & Hk1 & Hx & _);
    [by eapply ko_valid|congruence|]. eauto.
Qed.
End Contract.

(** A machine with a kernel that ends one page below PHYSTOP. *)
Lemma page_allocator_witness : ∃ w' U,
  (kinit1 2382360576 2382360576 2382364672 ;;; kinit2 2382360576 2382364672 (KERNBASE + PHYSTOP))
    (mkVm Flat.zeros 0 0 0 []) = Done tt w' ∧
  kmem_ok 2382360576 U w' ∧ ∀ p, U !! p = Some UFree ↔ valid_page 2382360576 p.
Proof.
  refine (proj1 (page_allocator 2382360576 _ (mkVm Flat.zeros 0 0 0 []) _ _) 2382364672 _ _).
  - unfold KERNBASE. lia.
  - intros x. unfold Flat.zeros. cbn. lia.
  - reflexivity.
  - reflexivity.
  - unfold KERNBASE, PHYSTOP. lia.
Defined.
