(* ===== verification/Mp.v ===== *)
(** mp.c: the search for the MultiProcessor tables of the BIOS, and what mpinit reads
    from them. *)
From S2P Require Import Prelude Mem KState Kalloc.

Abbreviation NCPU := 8%nat (only parsing).

(** struct mp is 16 bytes, with physaddr at 4 and imcrp at 12; struct mpconf has a
    header of 44 bytes, with length at 4, version at 6 and lapicaddr at 36. *)
Abbreviation sizeof_mp := 16 (only parsing).
Abbreviation sizeof_mpconf := 44 (only parsing).

(** ismp, ncpu, the apicid of cpus[], ioapicid and lapic; and what was written to the
    I/O ports. *)
Record mpst := mkMp {
  mp_ismp : Z;
  mp_ncpu : nat;
  mp_apicids : list Z;
  mp_ioapicid : Z;
  mp_lapic : Z;
  mp_out : list (Z * Z);
}.

(** [sum] returns an uchar. *)
Definition sum (m : mem) (addr len : Z) : Z := u8 (foldl (λ acc i, s32 (acc + m (addr + i))) 0 (seqZ 0 len)).

(** The structure at [p] has the signature "_MP_" and its bytes add up to 0. *)
Definition is_mp (m : mem) (p : Z) : bool :=
  bool_decide (bytes m p 4 = [95; 77; 80; 95]) && (sum m p sizeof_mp =? 0).
(** [k] bounds the number of places. *)
Fixpoint mpsearch1_loop (k : nat) (m : mem) (p e : Z) : option Z :=
  match k with
  | O => None
  | S k' => if p <? e then if is_mp m p then Some p else mpsearch1_loop k' m (p + sizeof_mp) e else None
  end.
Definition mpsearch1 (m : mem) (a len : Z) : option Z :=
  let addr := P2V a in mpsearch1_loop (Z.to_nat (len / sizeof_mp + 1)) m addr (addr + len).

Definition mpsearch (m : mem) : option Z :=
  let bda := P2V 0x400 in
  let p := u32 (Z.shiftl (Z.lor (Z.shiftl (m (bda + 0x0F)) 8) (m (bda + 0x0E))) 4) in
  match (if negb (p =? 0) then mpsearch1 m p 1024
         else mpsearch1 m (u32 (u32 (Z.lor (Z.shiftl (m (bda + 0x14)) 8) (m (bda + 0x13)) * 1024) - 1024)) 1024) with
  | Some mp => Some mp
  | None => mpsearch1 m 0xF0000 0x10000
  end.

(** The floating pointer and the configuration table, signature "PCMP". *)
Definition mpconfig (m : mem) : option (Z * Z) :=
  match mpsearch m with
  | None => None
  | Some mp =>
    if load32 m (mp + 4) =? 0 then None
    else
      let conf := P2V (load32 m (mp + 4)) in
      if negb (bool_decide (bytes m conf 4 = [80; 67; 77; 80])) then None
      else if negb (m (conf + 6) =? 1) && negb (m (conf + 6) =? 4) then None
      else if negb (sum m conf (of_le (bytes m (conf + 4) 2)) =? 0) then None
      else Some (mp, conf)
  end.

(** The loop of mpinit over the entries.  In the default case [break] leaves the switch
    only: the loop goes on with the same entry. *)
Fixpoint mpinit_loop (fuel : nat) (m : mem) (p e : Z) : M mpst unit :=
  match fuel with
  | O => λ _, Fuel
  | S fuel' =>
    if p <? e then
      match m p with
      | 0 => (* MPPROC *)
        n <- gets mp_ncpu ;;
        when (n <? NCPU)%nat (modify (λ s, mkMp (mp_ismp s) (S n) (<[n := m (p + 1)]> (mp_apicids s)) (mp_ioapicid s) (mp_lapic s) (mp_out s))) ;;;
        mpinit_loop fuel' m (p + 20) e
      | 2 => (* MPIOAPIC *)
        modify (λ s, mkMp (mp_ismp s) (mp_ncpu s) (mp_apicids s) (m (p + 1)) (mp_lapic s) (mp_out s)) ;;;
        mpinit_loop fuel' m (p + 8) e
      | 1 | 3 | 4 => (* MPBUS, MPIOINTR, MPLINTR *)
        mpinit_loop fuel' m (p + 8) e
      | _ =>
        modify (λ s, mkMp 0 (mp_ncpu s) (mp_apicids s) (mp_ioapicid s) (mp_lapic s) (mp_out s)) ;;;
        mpinit_loop fuel' m p e
      end
    else ret tt
  end.

(** [inb port] is what the port reads as. *)
Definition mpinit (fuel : nat) (inb : Z → Z) (m : mem) : M mpst unit :=
  match mpconfig m with
  | None => ret tt
  | Some (mp, conf) =>
    modify (λ s, mkMp 1 (mp_ncpu s) (mp_apicids s) (mp_ioapicid s) (load32 m (conf + 36)) (mp_out s)) ;;;
    mpinit_loop fuel m (conf + sizeof_mpconf) (conf + of_le (bytes m (conf + 4) 2)) ;;;
    ismp <- gets mp_ismp ;;
    if ismp =? 0 then modify (λ s, mkMp 0 1 (mp_apicids s) 0 0 (mp_out s))
    else when (negb (m (mp + 12) =? 0))
      (modify (λ s, mkMp (mp_ismp s) (mp_ncpu s) (mp_apicids s) (mp_ioapicid s) (mp_lapic s)
                      (mp_out s ++ [(0x22, 0x70); (0x23, u8 (Z.lor (inb 0x23) 1))])))
  end.

(** * What is in the tables *)

Inductive mpentry :=
| EProc (apicid : Z) (rest : list Z)
| EIoapic (apicno : Z) (rest : list Z)
| EOther (type : Z) (rest : list Z).

Definition encode (e : mpentry) : list Z :=
  match e with EProc a r => 0 :: a :: r | EIoapic a r => 2 :: a :: r | EOther t r => t :: r end.
Definition entry_ok (e : mpentry) : Prop :=
  match e with
  | EProc _ r => length r = 18%nat
  | EIoapic _ r => length r = 6%nat
  | EOther t r => (t = 1 ∨ t = 3 ∨ t = 4) ∧ length r = 7%nat
  end.

(** The processors, and the last I/O APIC. *)
Definition procs (es : list mpentry) : list Z := es ≫= λ e, match e with EProc a _ => [a] | _ => [] end.
Definition ioapic_of (d : Z) (es : list mpentry) : Z := foldl (λ d e, match e with EIoapic a _ => a | _ => d end) d es.

(** [es] are the entries from [p] on. *)
Definition entries (m : mem) (p : Z) (es : list mpentry) : Prop :=
  Forall entry_ok es ∧ bytes m p (length (concat (encode <$> es))) = concat (encode <$> es).

Lemma entries_cons m p e es : entries m p (e :: es) →
  entry_ok e ∧ bytes m p (length (encode e)) = encode e ∧ entries m (p + Z.of_nat (length (encode e))) es.
Proof.
  intros [Hok Hb]. apply Forall_cons in Hok as [H1 H2]. cbn [fmap list_fmap concat] in Hb. rewrite length_app in Hb.
  rewrite bytes_app in Hb. apply app_inj_1 in Hb as [Hb1 Hb2]; [|apply length_bytes]. split; [done|]. split; [done|by split].
Qed.

(** The byte at an index of an entry. *)
Lemma bytes_byte m p l k v : bytes m p (length l) = l → l !! k = Some v → m (p + Z.of_nat k) = v.
Proof. intros Hb Hk. pose proof (lookup_lt_Some _ _ _ Hk) as Hlt. rewrite <- Hb, bytes_lookup in Hk by done. congruence. Qed.

(** One entry. *)
Definition read_entry (e : mpentry) (s : mpst) : mpst :=
  match e with
  | EProc a _ => if (mp_ncpu s <? NCPU)%nat then mkMp (mp_ismp s) (S (mp_ncpu s)) (<[mp_ncpu s := a]> (mp_apicids s)) (mp_ioapicid s) (mp_lapic s) (mp_out s) else s
  | EIoapic a _ => mkMp (mp_ismp s) (mp_ncpu s) (mp_apicids s) a (mp_lapic s) (mp_out s)
  | EOther _ _ => s
  end.

Lemma loop_entry fuel m p e en s : p < e → entry_ok en → bytes m p (length (encode en)) = encode en →
  mpinit_loop (S fuel) m p e s = mpinit_loop fuel m (p + Z.of_nat (length (encode en))) e (read_entry en s).
Proof.
  intros Hlt Hok Hb. cbn [mpinit_loop]. destruct (Z.ltb_spec p e); [|lia].
  assert (∀ k v, encode en !! k = Some v → m (p + Z.of_nat k) = v) as Hk by (intros; by eapply bytes_byte).
  destruct en as [a r|a r|t r]; cbn [entry_ok encode length] in *.
  - pose proof (Hk 0%nat 0 eq_refl) as E0. pose proof (Hk 1%nat a eq_refl) as E1. change (Z.of_nat 1) with 1 in E1. rewrite Z.add_0_r in E0. rewrite E0, Hok. mstep. rewrite E1.
    cbn [read_entry]. destruct (mp_ncpu s <? NCPU)%nat; done.
  - pose proof (Hk 0%nat 2 eq_refl) as E0. pose proof (Hk 1%nat a eq_refl) as E1. change (Z.of_nat 1) with 1 in E1. rewrite Z.add_0_r in E0. rewrite E0, Hok. mstep. by rewrite E1.
  - pose proof (Hk 0%nat t eq_refl) as E0. rewrite Z.add_0_r in E0. destruct Hok as [Ht Hl]. rewrite E0, Hl. by destruct Ht as [->|[->| ->]].
Qed.

Lemma loop_entries m e : ∀ es fuel p s, entries m p es → p + Z.of_nat (length (concat (encode <$> es))) ≤ e →
  mpinit_loop (length es + fuel) m p e s = mpinit_loop fuel m (p + Z.of_nat (length (concat (encode <$> es)))) e (foldl (λ s e, read_entry e s) s es).
Proof.
  induction es as [|en es IH]; intros fuel p s He Hle; [cbn; by rewrite Z.add_0_r|]. apply entries_cons in He as (Hok & Hb & He).
  cbn [fmap list_fmap concat] in *. rewrite length_app in *. assert (0 < length (encode en))%nat as Hpos by (destruct en; cbn; lia).
  change (length (en :: es) + fuel)%nat with (S (length es + fuel)). rewrite (loop_entry _ m p e en) by (done || lia).
  rewrite IH by (done || lia). cbn [foldl]. f_equal. lia.
Qed.

(** The first NCPU processors in order, and the last I/O APIC. *)
Lemma read_all es : ∀ s, (mp_ncpu s ≤ NCPU)%nat → length (mp_apicids s) = NCPU → let s' := foldl (λ s e, read_entry e s) s es in
  (mp_ismp s', mp_ioapicid s', mp_lapic s', mp_out s') = (mp_ismp s, ioapic_of (mp_ioapicid s) es, mp_lapic s, mp_out s) ∧
  mp_ncpu s' = Nat.min NCPU (mp_ncpu s + length (procs es)) ∧ length (mp_apicids s') = NCPU ∧
  take (mp_ncpu s') (mp_apicids s') = take (mp_ncpu s) (mp_apicids s) ++ take (NCPU - mp_ncpu s) (procs es).
Proof.
  induction es as [|e es IH]; intros s Hn Hl; cbn [foldl].
  - split; [done|]. cbn [procs mbind list_bind length]. split; [lia|]. split; [done|]. by rewrite take_nil, app_nil_r.
  - destruct e as [a r|a r|t r]; cbn [read_entry].
    + change (procs (EProc a r :: es)) with (a :: procs es). change (ioapic_of ?d (EProc a r :: es)) with (ioapic_of d es).
      destruct (Nat.ltb_spec (mp_ncpu s) NCPU) as [Hlt|Hge].
      * destruct (IH (mkMp (mp_ismp s) (S (mp_ncpu s)) (<[mp_ncpu s := a]> (mp_apicids s)) (mp_ioapicid s) (mp_lapic s) (mp_out s))) as (H1 & H2 & H3 & H4);
          [cbn; lia|cbn; by rewrite length_insert|]. cbn [mp_ncpu mp_apicids mp_ismp mp_ioapicid mp_lapic mp_out] in *. split; [exact H1|].
        split; [rewrite H2; cbn [length]; lia|]. split; [exact H3|]. rewrite H4. rewrite (take_S_r _ _ a) by (by rewrite list_lookup_insert_eq by lia).
        rewrite take_insert_ge by lia. rewrite <- app_assoc. f_equal. replace (NCPU - mp_ncpu s)%nat with (S (NCPU - S (mp_ncpu s))) by lia. done.
      * destruct (IH s Hn Hl) as (H1 & H2 & H3 & H4). split; [exact H1|]. split; [rewrite H2; cbn [length]; lia|]. split; [exact H3|]. rewrite H4.
        replace (NCPU - mp_ncpu s)%nat with 0%nat by lia. done.
    + destruct (IH (mkMp (mp_ismp s) (mp_ncpu s) (mp_apicids s) a (mp_lapic s) (mp_out s)) Hn Hl) as (H1 & H2 & H3 & H4). done.
    + by apply IH.
Qed.

(** An entry of another type is never left. *)
Lemma loop_stuck m p e : p < e → (m p < 0 ∨ 4 < m p) → ∀ fuel s, mpinit_loop fuel m p e s = Fuel.
Proof.
  intros Hlt Ht. induction fuel as [|fuel IH]; intros s; [done|]. cbn [mpinit_loop]. destruct (Z.ltb_spec p e); [|lia].
  destruct (m p) as [|q|q] eqn:E; [lia| |mstep; by rewrite IH].
  do 3 (destruct q as [q|q|]; try (exfalso; lia); try (mstep; by rewrite IH)).
Qed.

Lemma entries_stuck m e : ∀ es fuel p s, entries m p es → let q := p + Z.of_nat (length (concat (encode <$> es))) in
  q < e → (m q < 0 ∨ 4 < m q) → mpinit_loop fuel m p e s = Fuel.
Proof.
  induction es as [|en es IH]; intros fuel p s He q Hlt Hq.
  - unfold q in *. cbn in Hlt, Hq. rewrite Z.add_0_r in *. by apply loop_stuck.
  - destruct fuel as [|fuel]; [done|]. apply entries_cons in He as (Hok & Hb & He). unfold q in *. clear q. cbn [fmap list_fmap concat] in *.
    rewrite length_app, Nat2Z.inj_add, Z.add_assoc in *. rewrite (loop_entry _ m p e en) by (done || lia). by apply IH.
Qed.

Lemma mpsearch1_loop_ok m e : ∀ k p, e - p ≤ sizeof_mp * Z.of_nat k →
  match mpsearch1_loop k m p e with
  | Some q => ∃ j, 0 ≤ j ∧ q = p + sizeof_mp * j ∧ q < e ∧ is_mp m q = true ∧ ∀ j', 0 ≤ j' < j → is_mp m (p + sizeof_mp * j') = false
  | None => ∀ j, 0 ≤ j → p + sizeof_mp * j < e → is_mp m (p + sizeof_mp * j) = false
  end.
Proof.
  induction k as [|k IH]; intros p Hk; cbn [mpsearch1_loop]; [intros j H0 Hj; lia|].
  destruct (Z.ltb_spec p e) as [Hlt|Hge]; [|intros j H0 Hj; lia]. destruct (is_mp m p) eqn:E.
  - exists 0. rewrite Z.mul_0_r, Z.add_0_r. split; [done|]. split; [done|]. split; [done|]. split; [done|]. intros j' Hj. lia.
  - specialize (IH (p + sizeof_mp) ltac:(lia)). destruct (mpsearch1_loop k m (p + sizeof_mp) e) as [q|].
    + destruct IH as (j & H0 & -> & Hq & Hmp & Hfst). exists (j + 1). split; [lia|]. split; [lia|]. split; [done|]. split; [done|]. intros j' Hj'.
      destruct (decide (j' = 0)) as [->|]; [by rewrite Z.mul_0_r, Z.add_0_r|].
      replace (p + sizeof_mp * j') with (p + sizeof_mp + sizeof_mp * (j' - 1)) by lia. apply Hfst. lia.
    + intros j H0 Hj. destruct (decide (j = 0)) as [->|]; [by rewrite Z.mul_0_r, Z.add_0_r|].
      replace (p + sizeof_mp * j) with (p + sizeof_mp + sizeof_mp * (j - 1)) by lia. apply IH; lia.
Qed.

(** C40: The tables of the BIOS are read as the specification lays them out.  [mpsearch1]
    finds the first structure with the signature and a zero checksum, if there is one.
    With a table of entries of the five known types mpinit finishes: it records the
    local APIC, the first NCPU processors in the order of the table and the last I/O
    APIC, and switches the interrupt mode if the structure asks for it.  With an entry of
    any other type it never finishes, however long it runs: [break] leaves the switch and
    the loop looks at the same entry again, so the fall-back to one processor behind the
    loop is never reached. *)
Theorem mp_discovery m :
  (∀ a n, 0 ≤ n →
     match mpsearch1 m a n with
     | Some q => ∃ j, 0 ≤ j ∧ q = P2V a + sizeof_mp * j ∧ q < P2V a + n ∧ is_mp m q = true ∧ ∀ j', 0 ≤ j' < j → is_mp m (P2V a + sizeof_mp * j') = false
     | None => ∀ j, 0 ≤ j → sizeof_mp * j < n → is_mp m (P2V a + sizeof_mp * j) = false
     end) ∧
  (∀ fuel inb s mp conf es, mpconfig m = Some (mp, conf) → entries m (conf + sizeof_mpconf) es →
     of_le (bytes m (conf + 4) 2) = sizeof_mpconf + Z.of_nat (length (concat (encode <$> es))) →
     (length es < fuel)%nat → mp_ncpu s = 0%nat → length (mp_apicids s) = NCPU →
     ∃ s', mpinit fuel inb m s = Done tt s' ∧ mp_ismp s' = 1 ∧ mp_lapic s' = load32 m (conf + 36) ∧
       mp_ncpu s' = Nat.min NCPU (length (procs es)) ∧ take (mp_ncpu s') (mp_apicids s') = take NCPU (procs es) ∧
       mp_ioapicid s' = ioapic_of (mp_ioapicid s) es ∧
       mp_out s' = mp_out s ++ (if m (mp + 12) =? 0 then [] else [(0x22, 0x70); (0x23, u8 (Z.lor (inb 0x23) 1))])) ∧
  (∀ fuel inb s mp conf es, mpconfig m = Some (mp, conf) → entries m (conf + sizeof_mpconf) es →
     let q := conf + sizeof_mpconf + Z.of_nat (length (concat (encode <$> es))) in
     q < conf + of_le (bytes m (conf + 4) 2) → (m q < 0 ∨ 4 < m q) → mpinit fuel inb m s = Fuel).
Proof.
  split; [|split].
  - intros a n Hn. unfold mpsearch1. pose proof (mpsearch1_loop_ok m (P2V a + n) (Z.to_nat (n / sizeof_mp + 1)) (P2V a)) as H.
    destruct (mpsearch1_loop _ _ _ _) as [q|].
    + apply H. Z.div_mod_to_equations. lia.
    + intros j H0 Hj. apply H; [Z.div_mod_to_equations; lia|done|lia].
  - intros fuel inb s mp conf es Hc He Hl Hfu Hn0 Hlen. unfold mpinit. rewrite Hc. mstep. cbn [mp_ismp mp_ncpu mp_apicids mp_ioapicid mp_lapic mp_out].
    replace fuel with (length es + S (fuel - length es - 1))%nat by lia. rewrite (loop_entries m _ es) by (done || lia).
    cbn [mpinit_loop]. destruct (Z.ltb_spec (conf + sizeof_mpconf + Z.of_nat (length (concat (encode <$> es)))) (conf + of_le (bytes m (conf + 4) 2))); [lia|]. mstep.
    set (s0 := mkMp _ _ _ _ _ _). destruct (read_all es s0) as (H1 & H2 & H3 & H4); [cbn; lia|done|].
    set (s1 := foldl _ _ _) in *. injection H1 as A1 A2 A3 A4. cbn [mp_ismp mp_ncpu mp_apicids mp_ioapicid mp_lapic mp_out s0] in *. rewrite Hn0 in *. rewrite A1.
    change (1 =? 0) with false. cbv iota. destruct (m (mp + 12) =? 0); cbn [negb when]; mstep; eexists; (split; [done|]);
      cbn [mp_ismp mp_ncpu mp_apicids mp_ioapicid mp_lapic mp_out]; rewrite ?app_nil_r, ?A4; done.
  - intros fuel inb s mp conf es Hc He q Hq Ht. unfold mpinit. rewrite Hc. mstep. by rewrite (entries_stuck m _ es).
Qed.

(** A machine with one processor and one I/O APIC; the structure is in the EBDA. *)
Module MpDemo.
Definition mem0 : mem :=
  writes (writes (writes (λ _, 0) (P2V 0x40E) [192; 159])
    (P2V 0x9FC00) [95; 77; 80; 95; 0; 253; 9; 0; 1; 4; 26; 0; 128; 0; 0; 0])
    (P2V 0x9FD00) ([80; 67; 77; 80; 72; 0; 4; 148; 0; 0; 0; 0; 0; 0; 0; 0; 0; 0; 0; 0; 0; 0; 0; 0; 0; 0; 0; 0; 0; 0; 0; 0; 0; 0; 2; 0; 0; 0; 224; 254; 0; 0; 0; 0] ++
      [0; 5; 0; 0; 0; 0; 0; 0; 0; 0; 0; 0; 0; 0; 0; 0; 0; 0; 0; 0; 2; 9; 0; 0; 0; 0; 0; 0]).
End MpDemo.

Example mp_example :
  mpinit 3 (λ _, 0) MpDemo.mem0 (mkMp 0 0 (replicate NCPU 0) 0 0 []) =
    Done tt (mkMp 1 1 (5 :: replicate 7 0) 9 0xFEE00000 [(0x22, 0x70); (0x23, 1)]).
Proof. vm_compute. reflexivity. Qed.
