(* ===== verification/Vm.v ===== *)
(** vm.c: page tables as the words the hardware reads, over the memory and the
    allocator of Kalloc.v.  The last section is the instance of [VmOps] that the rest
    of the kernel model runs on; VmLaw.v proves that it keeps the contract [VmLaws]. *)
From S2P Require Import Prelude Mem Str KState Spinlock Sched Services Kalloc.

(** * mmu.h *)
Definition PDX (va : Z) : Z := Z.land (Z.shiftr va 22) 1023.
Definition PTX (va : Z) : Z := Z.land (Z.shiftr va 12) 1023.
Definition PGADDR (d t o : Z) : Z := u32 (Z.lor (Z.lor (Z.shiftl d 22) (Z.shiftl t 12)) o).
Definition PGROUNDDOWN (a : Z) : Z := Z.land a (Z.lnot (PGSIZE - 1)).
Definition NPDENTRIES : nat := 1024.
Definition PTE_P : Z := 1.
Definition PTE_W : Z := 2.
Definition PTE_U : Z := 4.
Definition PTE_ADDR (pte : Z) : Z := Z.land pte (Z.lnot 4095).
Definition PTE_FLAGS (pte : Z) : Z := Z.land pte 4095.

(** The test [*pte & PTE_P]. *)
Definition has (pte flag : Z) : bool := negb (Z.land pte flag =? 0).

Section Vm.
Variable end_ : Z.    (* first address after the kernel, from kernel.ld *)
Variable data : Z.    (* start of the kernel's data, from kernel.ld *)

Definition cprintf (msg : string) : M vmst unit := modify (λ w, set_v_console (msg :: v_console w) w).

(** The address of the PTE for [va], or 0. *)
Definition walkpgdir (pgdir va : Z) (alloc : bool) : M vmst Z :=
  let pde := pgdir + 4 * PDX va in
  e <- load pde ;;
  if has e PTE_P then ret (P2V (PTE_ADDR e) + 4 * PTX va)
  else if negb alloc then ret 0
  else
    pgtab <- kalloc ;;
    if pgtab =? 0 then ret 0
    else
      memset pgtab 0 PGSIZE ;;;
      store pde (Z.lor (Z.lor (Z.lor (V2P pgtab) PTE_P) PTE_W) PTE_U) ;;;
      ret (pgtab + 4 * PTX va).

(** The loop of [mappages], with [n] pages left to map. *)
Fixpoint mappages_loop (n : nat) (pgdir a last pa perm : Z) : M vmst Z :=
  match n with
  | O => λ _, Fuel
  | S n' =>
    pte <- walkpgdir pgdir a true ;;
    if pte =? 0 then ret (-1)
    else
      e <- load pte ;;
      (if has e PTE_P then panic "remap" else ret tt) ;;;
      store pte (Z.lor (Z.lor pa perm) PTE_P) ;;;
      if a =? last then ret 0
      else mappages_loop n' pgdir (u32 (a + PGSIZE)) last (u32 (pa + PGSIZE)) perm
  end.
Definition mappages (pgdir va size pa perm : Z) : M vmst Z :=
  let a := PGROUNDDOWN va in
  let last := PGROUNDDOWN (u32 (va + size - 1)) in
  mappages_loop (S (Z.to_nat (u32 (last - a) / PGSIZE))) pgdir a last pa perm.

(** struct kmap: where, from, to, permissions *)
Record kmap := mkKmap { virt : Z; phys_start : Z; phys_end : Z; perm : Z }.
Definition kmaps : list kmap :=
  [ mkKmap KERNBASE 0 EXTMEM PTE_W;
    mkKmap KERNLINK (V2P KERNLINK) (V2P data) 0;
    mkKmap data (V2P data) PHYSTOP PTE_W;
    mkKmap DEVSPACE DEVSPACE 0 PTE_W ].

Fixpoint map_all (l : list kmap) (pgdir : Z) : M vmst Z :=
  match l with
  | [] => ret pgdir
  | k :: l' =>
    r <- mappages pgdir (virt k) (u32 (phys_end k - phys_start k)) (phys_start k) (perm k) ;;
    if r <? 0 then ret 0 else map_all l' pgdir
  end.
Definition setupkvm : M vmst Z :=
  pgdir <- kalloc ;;
  if pgdir =? 0 then ret 0
  else
    memset pgdir 0 PGSIZE ;;;
    (if DEVSPACE <? P2V PHYSTOP then panic "PHYSTOP too high" else ret tt) ;;;
    map_all kmaps pgdir.

(** [init] is the code of the first process. *)
Definition inituvm (pgdir : Z) (init : list Z) : M vmst unit :=
  (if PGSIZE <=? Z.of_nat (length init) then panic "inituvm: more than a page" else ret tt) ;;;
  mem <- kalloc ;;
  memset mem 0 PGSIZE ;;;
  _ <- mappages pgdir 0 PGSIZE (V2P mem) (Z.lor PTE_W PTE_U) ;;
  upd_mem (λ m, writes m mem init).

(** [for(; a < oldsz; a += PGSIZE)] of [deallocuvm]. *)
Fixpoint deallocuvm_loop (n : nat) (pgdir oldsz a : Z) : M vmst unit :=
  if a <? oldsz then
    match n with
    | O => λ _, Fuel
    | S n' =>
      pte <- walkpgdir pgdir a false ;;
      if pte =? 0 then
        deallocuvm_loop n' pgdir oldsz (u32 (u32 (PGADDR (PDX a + 1) 0 0 - PGSIZE) + PGSIZE))
      else
        e <- load pte ;;
        when (has e PTE_P) (
          let pa := PTE_ADDR e in
          (if pa =? 0 then panic "kfree" else ret tt) ;;;
          kfree end_ (P2V pa) ;;;
          store pte 0) ;;;
        deallocuvm_loop n' pgdir oldsz (u32 (a + PGSIZE))
    end
  else ret tt.
Definition deallocuvm (pgdir oldsz newsz : Z) : M vmst Z :=
  if oldsz <=? newsz then ret oldsz
  else
    deallocuvm_loop (Z.to_nat (oldsz / PGSIZE + 1)) pgdir oldsz (PGROUNDUP newsz) ;;;
    ret newsz.

(** [for(; a < newsz; a += PGSIZE)] of [allocuvm]; the result is what the function returns. *)
Fixpoint allocuvm_loop (n : nat) (pgdir oldsz newsz a : Z) : M vmst Z :=
  if a <? newsz then
    match n with
    | O => λ _, Fuel
    | S n' =>
      mem <- kalloc ;;
      if mem =? 0 then
        cprintf "allocuvm out of memory\n" ;;;
        _ <- deallocuvm pgdir newsz oldsz ;;
        ret 0
      else
        memset mem 0 PGSIZE ;;;
        r <- mappages pgdir a PGSIZE (V2P mem) (Z.lor PTE_W PTE_U) ;;
        if r <? 0 then
          cprintf "allocuvm out of memory (2)\n" ;;;
          _ <- deallocuvm pgdir newsz oldsz ;;
          kfree end_ mem ;;;
          ret 0
        else allocuvm_loop n' pgdir oldsz newsz (u32 (a + PGSIZE))
    end
  else ret newsz.
Definition allocuvm (pgdir oldsz newsz : Z) : M vmst Z :=
  if KERNBASE <=? newsz then ret 0
  else if newsz <? oldsz then ret oldsz
  else allocuvm_loop (Z.to_nat (newsz / PGSIZE + 1)) pgdir oldsz newsz (PGROUNDUP oldsz).

Definition freevm (pgdir : Z) : M vmst unit :=
  (if pgdir =? 0 then panic "freevm: no pgdir" else ret tt) ;;;
  _ <- deallocuvm pgdir KERNBASE 0 ;;
  for_each (seq 0 NPDENTRIES) (λ i,
    e <- load (pgdir + 4 * Z.of_nat i) ;;
    when (has e PTE_P) (kfree end_ (P2V (PTE_ADDR e)))) ;;;
  kfree end_ pgdir.

Definition clearpteu (pgdir uva : Z) : M vmst unit :=
  pte <- walkpgdir pgdir uva false ;;
  (if pte =? 0 then panic "clearpteu" else ret tt) ;;;
  e <- load pte ;;
  store pte (Z.land e (Z.lnot PTE_U)).

(** [for(i = 0; i < sz; i += PGSIZE)] of [copyuvm]. *)
Fixpoint copyuvm_loop (n : nat) (pgdir d sz i : Z) : M vmst Z :=
  if i <? sz then
    match n with
    | O => λ _, Fuel
    | S n' =>
      pte <- walkpgdir pgdir i false ;;
      (if pte =? 0 then panic "copyuvm: pte should exist" else ret tt) ;;;
      e <- load pte ;;
      (if has e PTE_P then ret tt else panic "copyuvm: page not present") ;;;
      let pa := PTE_ADDR e in
      let flags := PTE_FLAGS e in
      mem <- kalloc ;;
      if mem =? 0 then freevm d ;;; ret 0
      else
        memmove mem (P2V pa) PGSIZE ;;;
        r <- mappages d i PGSIZE (V2P mem) flags ;;
        if r <? 0 then freevm d ;;; ret 0
        else copyuvm_loop n' pgdir d sz (u32 (i + PGSIZE))
    end
  else ret d.
Definition copyuvm (pgdir sz : Z) : M vmst Z :=
  d <- setupkvm ;;
  if d =? 0 then ret 0 else copyuvm_loop (Z.to_nat (sz / PGSIZE + 1)) pgdir d sz 0.

(** User virtual address to kernel address, or 0.  Following a null [pte] is a fault. *)
Definition uva2ka (pgdir uva : Z) : M vmst Z :=
  pte <- walkpgdir pgdir uva false ;;
  (if pte =? 0 then panic "trap" else ret tt) ;;;
  e <- load pte ;;
  if negb (has e PTE_P) then ret 0
  else if negb (has e PTE_U) then ret 0
  else ret (P2V (PTE_ADDR e)).

(** [while(len > 0)] of [copyout]; [buf] is what is left to copy. *)
Fixpoint copyout_loop (n : nat) (pgdir va : Z) (buf : list Z) : M vmst Z :=
  match buf with
  | [] => ret 0
  | _ =>
    match n with
    | O => λ _, Fuel
    | S n' =>
      let va0 := PGROUNDDOWN va in
      pa0 <- uva2ka pgdir va0 ;;
      if pa0 =? 0 then ret (-1)
      else
        let room := PGSIZE - (va - va0) in
        let k := if Z.of_nat (length buf) <? room then length buf else Z.to_nat room in
        upd_mem (λ m, writes m (pa0 + (va - va0)) (take k buf)) ;;;
        copyout_loop n' pgdir (u32 (va0 + PGSIZE)) (drop k buf)
    end
  end.
Definition copyout (pgdir va : Z) (buf : list Z) : M vmst Z :=
  copyout_loop (S (length buf)) pgdir va buf.

(** * The memory management unit, in kernel mode *)
Definition translate (m : mem) (pgdir va : Z) : option Z :=
  let pde := load32 m (pgdir + 4 * PDX va) in
  if has pde PTE_P then Some (load32 m (P2V (PTE_ADDR pde) + 4 * PTX va)) else None.
Definition mmu_read (w : vmst) (pgdir va : Z) : option Z :=
  pte ← translate (v_mem w) pgdir va;
  if has pte PTE_P then Some (v_mem w (P2V (PTE_ADDR pte) + va mod PGSIZE)) else None.
Definition mmu_write (w : vmst) (pgdir va v : Z) : option vmst :=
  pte ← translate (v_mem w) pgdir va;
  if has pte PTE_P && has pte PTE_W
  then Some (set_v_mem (upd (v_mem w) (P2V (PTE_ADDR pte) + va mod PGSIZE) v) w) else None.

(** Run to the end: these operations never give up the CPU. *)
Definition run {A} (op : M vmst A) : memop vmst A := λ w,
  match op w with
  | Done a w' => inr (a, w')
  | Panic msg => inl msg
  | _ => inl "no result"
  end.

#[export] Instance vm_ops : VmOps vmst := {|
  vm_kalloc := run kalloc;
  vm_kfree a := run (kfree end_ a);
  vm_setupkvm := run setupkvm;
  vm_inituvm pd init := run (inituvm pd init);
  vm_allocuvm pd oldsz newsz := run (allocuvm pd oldsz newsz);
  vm_deallocuvm pd oldsz newsz := run (deallocuvm pd oldsz newsz);
  vm_freevm pd := run (freevm pd);
  vm_copyuvm pd sz := run (copyuvm pd sz);
  vm_uread := mmu_read;
  vm_uwrite := mmu_write;
  vm_clearpteu pd va := run (clearpteu pd va);
  vm_copyout pd va bs := run (copyout pd va bs);
  vm_mapped w pd va := if translate (v_mem w) pd va is Some _ then true else false;
  vm_user w pd va := if translate (v_mem w) pd va is Some e then has e PTE_P && has e PTE_U else false;
  vm_poke pd va bs := run (
    o <- gets (λ w, translate (v_mem w) pd va) ;;
    match o with
    | Some pte => upd_mem (λ m, writes m (P2V (PTE_ADDR pte)) bs)
    | None => panic "trap"
    end);
|}.

End Vm.
