(* ===== verification/VmLaw.v ===== *)
(** vm.c keeps the contract [VmLaws] of Services.v: page tables built from the words
    of physical memory implement separate address spaces with the bytes their
    owners expect.  The proof follows one ghost map from pages to their uses. *)
From S2P Require Import Prelude Mem Str KState Spinlock Sched Services Kalloc Vm.

(** * Page table arithmetic *)

Lemma has_bit e k : 0 ≤ k → has e (2^k) = Z.testbit e k.
Proof.
  intros Hk. unfold has. destruct (Z.testbit e k) eqn:E.
  - destruct (Z.eqb_spec (Z.land e (2^k)) 0) as [H|]; [|done].
    assert (Hb : Z.testbit (Z.land e (2^k)) k = true)
      by (by rewrite Z.land_spec, E, Z.pow2_bits_true).
    by rewrite H, Z.bits_0 in Hb.
  - destruct (Z.eqb_spec (Z.land e (2^k)) 0) as [|H]; [done|]. destruct H.
    apply Z.bits_inj'. intros j Hj. rewrite Z.land_spec, Z.bits_0, Z.pow2_bits_eqb by done.
    destruct (Z.eqb_spec k j) as [<-|]; [by rewrite E|apply andb_false_r].
Qed.

Lemma has_lor e f k : 0 ≤ k → has (Z.lor e f) (2^k) = has e (2^k) || has f (2^k).
Proof. intros. by rewrite !has_bit, Z.lor_spec. Qed.

Lemma lor_page a f : a mod 4096 = 0 → 0 ≤ f < 4096 → Z.lor a f = a + f.
Proof.
  intros Ha Hf. rewrite <- Z.lxor_lor; [symmetry; apply Z.add_nocarry_lxor|].
  all: apply Z.bits_inj'; intros k Hk; rewrite Z.land_spec, Z.bits_0;
    destruct (Z.lt_ge_cases k 12);
    [rewrite <- (Z.mod_pow2_bits_low a 12 k) by done; change (2^12) with 4096; by rewrite Ha, Z.bits_0
    |rewrite (Z.bits_above_log2 f k), andb_false_r; [done|lia|]].
  all: destruct (Z.eq_dec f 0) as [->|]; [cbn; lia|];
    apply Z.lt_le_trans with 12; [|done]; apply Z.log2_lt_pow2; [lia|]; change (2^12) with 4096; lia.
Qed.

Lemma addr_eq e : PTE_ADDR e = 4096 * (e / 4096).
Proof. unfold PTE_ADDR. change 4095 with (Z.ones 12). by rewrite land_lnot_ones. Qed.

Lemma down_eq a : PGROUNDDOWN a = 4096 * (a / 4096).
Proof. unfold PGROUNDDOWN. change (PGSIZE - 1) with (Z.ones 12). by rewrite land_lnot_ones. Qed.

Lemma PDX_eq va : 0 ≤ va < 2^32 → PDX va = va / 4096 / 1024.
Proof.
  intros Hva. unfold PDX. change 1023 with (Z.ones 10). rewrite Z.land_ones, Z.shiftr_div_pow2 by done.
  rewrite Z.div_div by done. change (4096 * 1024) with (2^22). apply Z.mod_small.
  split; [apply Z.div_pos; lia|]. apply Z.div_lt_upper_bound; lia.
Qed.

Lemma PTX_eq va : PTX va = (va / 4096) mod 1024.
Proof. unfold PTX. change 1023 with (Z.ones 10). by rewrite Z.land_ones, Z.shiftr_div_pow2. Qed.

(** The kernel address a page table entry points to. *)
Definition tab (e : Z) : Z := P2V (PTE_ADDR e).

(** The entry for a page with given flags points to that page. *)
Lemma make_pte end_ p f :
  KERNBASE < end_ → valid_page end_ p → 0 ≤ f < 4096 →
  0 ≤ Z.lor (V2P p) f < 2^32 ∧ tab (Z.lor (V2P p) f) = p ∧ PTE_ADDR (Z.lor (V2P p) f) ≠ 0.
Proof.
  intros He Hv Hf. pose proof (valid_range end_ He p Hv) as Hr. destruct Hv as [Ha _ _].
  unfold tab, P2V, V2P. rewrite addr_eq. unfold KERNBASE, PHYSTOP in *.
  rewrite (u32_id (p - _)) by lia.
  assert (Ha' : (p - 2147483648) mod 4096 = 0) by (apply Z.div_exact in Ha; Z.div_mod_to_equations; lia).
  rewrite lor_page by done. apply Z.div_exact in Ha'; [|lia].
  assert (E : 4096 * ((p - 2147483648 + f) / 4096) = p - 2147483648) by (Z.div_mod_to_equations; lia).
  rewrite E, u32_id by lia. lia.
Qed.

(** * Address spaces *)
Definition pde (m : mem) (pd i : Z) : Z := load32 m (pd + 4 * i).
(** Where the entry for page number [n] is, and the entry. *)
Definition pte_addr (m : mem) (pd n : Z) : option Z :=
  let e := pde m pd (n / 1024) in if has e PTE_P then Some (tab e + 4 * (n mod 1024)) else None.
Definition entry (m : mem) (pd n : Z) : option Z := load32 m <$> pte_addr m pd n.

Arguments load32 : simpl never.
Arguments store32 : simpl never.
Arguments pde : simpl never.
Arguments tab : simpl never.
Arguments has : simpl never.

(** User pages are those below KERNBASE. *)
Definition upages : Z := 524288.

(** In memory [m], with the pages used as [U] says, [pd] is the directory of an
    address space whose user pages are exactly those in [D], with contents [um], and
    whose kernel half maps nothing outside [K]. *)
Record space (m : mem) (U : gmap Z use) (pd : Z) (D K : Z → bool) (um : mem) : Prop := {
  sp_dir : U !! pd = Some UDir;
  sp_tab i : 0 ≤ i < 1024 → has (pde m pd i) PTE_P = true → U !! tab (pde m pd i) = Some (UTab pd i);
  sp_user n : 0 ≤ n < upages → D n = true → ∃ e, entry m pd n = Some e ∧
    has e PTE_P = true ∧ has e PTE_W = true ∧ U !! tab e = Some (UUser pd n) ∧ PTE_ADDR e ≠ 0 ∧
    ∀ k, 0 ≤ k < 4096 → m (tab e + k) = um (4096 * n + k);
  sp_none n e : 0 ≤ n < upages → D n = false → entry m pd n = Some e → has e PTE_P = false;
  sp_kern n e : upages ≤ n < 2 * upages → K n = false → entry m pd n = Some e → has e PTE_P = false;
}.

(** User code may access page [n]; and the pages of [m] it may access, it may in [m']. *)
Definition user_page (m : mem) (pd n : Z) : bool :=
  if entry m pd n is Some e then has e PTE_P && has e PTE_U else false.
Definition users (pd : Z) (m m' : mem) : Prop :=
  ∀ n, 0 ≤ n < 2 * upages → user_page m pd n = true → user_page m' pd n = true.

Lemma user_page_entry m m' pd n : entry m' pd n = entry m pd n → user_page m' pd n = user_page m pd n.
Proof. intros E. unfold user_page. by rewrite E. Qed.

Lemma users_refl pd m : users pd m m.
Proof. by intros n Hn. Qed.

(** The pages of the space [pd]. *)
Definition of_space (pd p : Z) (u : use) : Prop :=
  (p = pd ∧ u = UDir) ∨ (∃ i, u = UTab pd i) ∨ (∃ n, u = UUser pd n).

Lemma load32_agree m m' p k : agree m m' p → 0 ≤ k → k + 4 ≤ 4096 → load32 m' (p + k) = load32 m (p + k).
Proof. intros Ha H0 H1. apply load32_ext. intros x Hx. apply Ha. unfold in_page. lia. Qed.

Lemma page_number n : 0 ≤ n < 2 * upages → 0 ≤ n / 1024 < 1024 ∧ 0 ≤ n mod 1024 < 1024.
Proof. unfold upages. intros. Z.div_mod_to_equations. lia. Qed.

Section SpaceFrame.
Variables (m m' : mem) (U U' : gmap Z use) (pd : Z) (D K : Z → bool) (um : mem).
Hypothesis Hkeep : ∀ p u, U !! p = Some u → of_space pd p u → (∀ n, u = UUser pd n → D n = true) →
  U' !! p = Some u ∧ agree m m' p.
Hypothesis Hs : space m U pd D K um.

Lemma frame_tab t i : U !! t = Some (UTab pd i) → U' !! t = Some (UTab pd i) ∧ agree m m' t.
Proof. intros Ht. apply Hkeep; [done| |done]. right. left. eauto. Qed.

Lemma frame_pde i : 0 ≤ i < 1024 → pde m' pd i = pde m pd i.
Proof.
  intros Hi. apply load32_agree; [|lia..].
  apply (Hkeep pd UDir); [apply (sp_dir _ _ _ _ _ _ Hs)|by left|done].
Qed.

Lemma frame_entry n : 0 ≤ n < 2 * upages → entry m' pd n = entry m pd n.
Proof.
  intros Hn. destruct (page_number n Hn) as [Hi Hj]. unfold entry, pte_addr. rewrite frame_pde by done.
  destruct (has (pde m pd (n / 1024)) PTE_P) eqn:E; [|done]. cbn. f_equal.
  apply load32_agree; [|lia..]. eapply frame_tab. by apply (sp_tab _ _ _ _ _ _ Hs).
Qed.

Lemma space_frame : space m' U' pd D K um.
Proof.
  pose proof Hs as [A B C E F]. split.
  - apply (Hkeep pd UDir); [done|by left|done].
  - intros i Hi. rewrite frame_pde by done. intros Hp. by apply frame_tab, B.
  - intros n Hn Hd. rewrite frame_entry by lia.
    destruct (C n Hn Hd) as (e & H1 & H2 & H3 & H4 & H5 & H6). exists e.
    destruct (Hkeep _ (UUser pd n) H4) as [Hu Hag]; [right; right; eauto|naive_solver|].
    split_and!; try done. intros k Hk. rewrite <- H6 by done. apply Hag. unfold in_page. lia.
  - intros n e Hn Hd. rewrite frame_entry by lia. by apply E.
  - intros n e Hn Hd. rewrite frame_entry by (unfold upages in *; lia). by apply F.
Qed.
End SpaceFrame.

(** What an operation on the space [pd] leaves alone. *)
Definition framed (pd : Z) (U : gmap Z use) (m : mem) (U' : gmap Z use) (m' : mem) : Prop :=
  ∀ p u, U !! p = Some u → u ≠ UFree → ¬ of_space pd p u → U' !! p = Some u ∧ agree m m' p.

Lemma framed_refl pd U m : framed pd U m U m.
Proof. intros p u Hp _ _. split; [done|]. by intros x Hx. Qed.

Lemma framed_trans pd U1 m1 U2 m2 U3 m3 :
  framed pd U1 m1 U2 m2 → framed pd U2 m2 U3 m3 → framed pd U1 m1 U3 m3.
Proof.
  intros H1 H2 p u Hp Hu Hn. destruct (H1 p u Hp Hu Hn) as [Hp2 Ha].
  destruct (H2 p u Hp2 Hu Hn) as [Hp3 Hb]. split; [done|]. intros x Hx. rewrite (Hb x Hx). by apply Ha.
Qed.

(** The same, but for one page [q] that the operation owns. *)
Definition framed_but (q pd : Z) (U : gmap Z use) (m : mem) (U' : gmap Z use) (m' : mem) : Prop :=
  ∀ p u, U !! p = Some u → u ≠ UFree → ¬ of_space pd p u → p ≠ q → U' !! p = Some u ∧ agree m m' p.

Lemma framed_but_trans q pd U1 m1 U2 m2 U3 m3 :
  framed_but q pd U1 m1 U2 m2 → framed_but q pd U2 m2 U3 m3 → framed_but q pd U1 m1 U3 m3.
Proof.
  intros H1 H2 p u Hp Hu Hn Hq. destruct (H1 p u Hp Hu Hn Hq) as [Hp2 Ha].
  destruct (H2 p u Hp2 Hu Hn Hq) as [Hp3 Hb]. split; [done|]. intros x Hx. rewrite (Hb x Hx). by apply Ha.
Qed.

Lemma framed_weaken q pd U m U' m' : framed pd U m U' m' → framed_but q pd U m U' m'.
Proof. intros H p u Hp Hu Hn _. by apply H. Qed.

Lemma framed_kalloc q pd U m U' m' :
  U !! q = Some UFree → framed_but q pd (<[q := UPage]> U) m U' m' → framed pd U m U' m'.
Proof.
  intros Hq H p u Hp Hu Hn. assert (p ≠ q) by congruence. apply H; [|done..]. by rewrite lookup_insert_ne.
Qed.

Lemma framed_space pd pd' U m U' m' D K um :
  framed pd U m U' m' → pd' ≠ pd → space m U pd' D K um → space m' U' pd' D K um.
Proof.
  intros Hf Hne. apply space_frame. intros p u Hp Ho _. apply Hf; [done|..].
  - intros ->. destruct Ho as [[_ ?]|[[i ?]|[n ?]]]; done.
  - intros Ho'. destruct Ho as [[-> ->]|[[i ->]|[n ->]]], Ho' as [[? ?]|[[j ?]|[k ?]]]; simplify_eq.
Qed.

(** The sets only matter on page numbers of the right half. *)
Lemma space_ext m U pd D D' K K' um um' :
  (∀ n, 0 ≤ n < upages → D' n = D n) →
  (∀ n, upages ≤ n < 2 * upages → K' n = false → K n = false) →
  (∀ n k, 0 ≤ n < upages → D n = true → 0 ≤ k < 4096 → um' (4096 * n + k) = um (4096 * n + k)) →
  space m U pd D K um → space m U pd D' K' um'.
Proof.
  intros Hd Hk Hu [A B C E F]. split; try done.
  - intros n Hn HD. rewrite Hd in HD by done. destruct (C n Hn HD) as (e & H1 & H2 & H3 & H4 & H5 & H6).
    exists e. split_and!; try done. intros k Hk'. rewrite Hu by done. auto.
  - intros n e Hn HD. rewrite Hd in HD by done. by apply E.
  - intros n e Hn HK. apply F; [done|]. auto.
Qed.

(** * Writing page tables *)
Section Tables.
Variable end_ : Z.
Hypothesis Hend : KERNBASE < end_.
Implicit Types (U : gmap Z use) (D K : Z → bool).

Definition valid_uses U : Prop := ∀ p u, U !! p = Some u → valid_page end_ p.

Lemma uses_apart U p q u v x :
  valid_uses U → U !! p = Some u → U !! q = Some v → u ≠ v → in_page p x → ¬ in_page q x.
Proof. intros Hv Hp Hq Hne. apply (pages_apart end_); [eauto..|congruence]. Qed.

(** A store inside one page. *)
Lemma store_agree U m p q a v u u' :
  valid_uses U → U !! p = Some u → U !! q = Some u' → u ≠ u' → p ≤ a → a + 4 ≤ p + 4096 →
  agree m (store32 m a v) q.
Proof.
  intros Hv Hp Hq Hne H1 H2 x Hx. apply store32_out. intros Hc.
  apply (uses_apart U q p u' u x Hv Hq Hp); [done|done|]. unfold in_page. lia.
Qed.

Lemma pte_addr_eq m pd n a :
  pte_addr m pd n = Some a →
  has (pde m pd (n / 1024)) PTE_P = true ∧ a = tab (pde m pd (n / 1024)) + 4 * (n mod 1024).
Proof. unfold pte_addr. destruct (has _ PTE_P); [|done]. by intros [= <-]. Qed.

Section SetEntry.
Variables (m : mem) (U : gmap Z use) (pd : Z) (D K : Z → bool) (um : mem) (n a v : Z).
Hypothesis Hv : valid_uses U.
Hypothesis Hs : space m U pd D K um.
Hypothesis Hn : 0 ≤ n < 2 * upages.
Hypothesis Ha : pte_addr m pd n = Some a.
Let t := tab (pde m pd (n / 1024)).
Let m' := store32 m a v.

Lemma set_present : has (pde m pd (n / 1024)) PTE_P = true ∧ a = t + 4 * (n mod 1024).
Proof. by apply pte_addr_eq. Qed.

Lemma set_tab : U !! t = Some (UTab pd (n / 1024)).
Proof. apply (sp_tab _ _ _ _ _ _ Hs); [by apply page_number|apply set_present]. Qed.

Lemma set_agree p u : U !! p = Some u → u ≠ UTab pd (n / 1024) → agree m m' p.
Proof.
  intros Hp Hu. destruct set_present as [_ Ea]. destruct (page_number n Hn). unfold m'. rewrite Ea.
  apply (store_agree U _ t p _ _ (UTab pd (n / 1024)) u); [done|apply set_tab|done|congruence|lia..].
Qed.

Lemma set_pde i : 0 ≤ i < 1024 → pde m' pd i = pde m pd i.
Proof.
  intros Hi. apply load32_agree; [|lia..]. by apply (set_agree pd UDir); [apply (sp_dir _ _ _ _ _ _ Hs)|].
Qed.

Lemma set_entry_same : entry m' pd n = Some (u32 v).
Proof.
  unfold entry, pte_addr. destruct (page_number n Hn) as [Hi Hj]. rewrite set_pde by done.
  destruct set_present as [-> Ea]. unfold m'. rewrite Ea. cbn [fmap option_fmap option_map]. f_equal. apply load32_store32.
Qed.

Lemma set_entry_other n' : 0 ≤ n' < 2 * upages → n' ≠ n → entry m' pd n' = entry m pd n'.
Proof.
  intros Hn' Hne. unfold entry, pte_addr. destruct (page_number n' Hn') as [Hi Hj]. rewrite set_pde by done.
  destruct (has (pde m pd (n' / 1024)) PTE_P) eqn:E; [|done]. cbn. f_equal.
  destruct (decide (n' / 1024 = n / 1024)) as [Et|Et].
  - rewrite Et. destruct set_present as [_ Ea]. unfold m'. rewrite Ea. unfold t. apply load32_store32_ne.
    assert (n' mod 1024 ≠ n mod 1024); [|lia]. intros Em. apply Hne.
    rewrite (Z.div_mod n 1024), (Z.div_mod n' 1024) by lia. congruence.
  - apply load32_agree; [|lia..]. apply (set_agree _ (UTab pd (n' / 1024))); [by apply (sp_tab _ _ _ _ _ _ Hs)|congruence].
Qed.

Lemma set_user n' e :
  0 ≤ n' < upages → n' ≠ n → D n' = true → entry m pd n' = Some e →
  ∀ k, 0 ≤ k < 4096 → m' (tab e + k) = m (tab e + k).
Proof.
  intros Hn' Hne Hd He k Hk. destruct (sp_user _ _ _ _ _ _ Hs n' Hn' Hd) as (e' & H1 & _ & _ & H4 & _).
  rewrite H1 in He. injection He as <-. apply (set_agree (tab e') (UUser pd n')); [done|done|]. unfold in_page. lia.
Qed.

Lemma set_framed : framed pd U m U m'.
Proof.
  intros p u Hp _ Ho. split; [done|]. apply (set_agree p u Hp). intros ->. apply Ho. right. left. eauto.
Qed.

(** One more user page. *)
Lemma map_user pg :
  n < upages → u32 v = v → has v PTE_P = true → has v PTE_W = true → PTE_ADDR v ≠ 0 →
  tab v = pg → U !! pg = Some (UUser pd n) →
  space m' U pd (λ x, (x =? n) || D x) K (λ x, if x / 4096 =? n then m (pg + x mod 4096) else um x).
Proof.
  intros Hu Hv32 HP HW H0 Ht Hpg. pose proof Hs as [A B C E F]. split.
  - done.
  - intros i Hi. rewrite set_pde by done. by apply B.
  - intros n' Hn' HD. destruct (Z.eqb_spec n' n) as [->|Hne]; cbn [orb] in HD.
    + exists v. rewrite set_entry_same, Hv32, Ht. split_and!; try done. intros k Hk.
      replace ((4096 * n + k) / 4096) with n by (Z.div_mod_to_equations; lia). rewrite Z.eqb_refl.
      replace ((4096 * n + k) mod 4096) with k by (Z.div_mod_to_equations; lia).
      apply (set_agree pg (UUser pd n)); [done|done|unfold in_page; lia].
    + destruct (C n' Hn' HD) as (e & H1 & H2 & H3 & H4 & H5 & H6).
      exists e. rewrite set_entry_other by (done || lia). split_and!; try done. intros k Hk.
      rewrite (set_user n' e) by done. replace ((4096 * n' + k) / 4096) with n' by (Z.div_mod_to_equations; lia).
      destruct (Z.eqb_spec n' n); [done|]. auto.
  - intros n' e Hn' HD. apply orb_false_iff in HD as [Hne HD]. apply Z.eqb_neq in Hne.
    rewrite set_entry_other by (done || lia). by apply E.
  - intros n' e Hn' HD. rewrite set_entry_other by (unfold upages in *; lia). by apply F.
Qed.

(** A page that was absent is accessible as its new flags say, the others as before. *)
Lemma map_users : n < upages → u32 v = v → D n = false → has v PTE_P = true →
  users pd m m' ∧ user_page m' pd n = has v PTE_U.
Proof.
  intros Hu Hv32 HD HP. split; [|unfold user_page; by rewrite set_entry_same, Hv32, HP].
  intros n' Hn' Hp. destruct (decide (n' = n)) as [->|Hne].
  - unfold user_page in Hp. destruct (entry m pd n) as [e|] eqn:He; [|done].
    by rewrite (sp_none _ _ _ _ _ _ Hs n e ltac:(lia) HD He) in Hp.
  - by rewrite (user_page_entry m) by (by apply set_entry_other).
Qed.

(** The same user page with other flags. *)
Lemma reflag_user e :
  n < upages → D n = true → entry m pd n = Some e → u32 v = v → has v PTE_P = true → has v PTE_W = true →
  PTE_ADDR v = PTE_ADDR e → space m' U pd D K um.
Proof.
  intros Hu HD He Hv32 HP HW Ea. destruct (sp_user _ _ _ _ _ _ Hs n ltac:(lia) HD) as (e' & H1 & _ & _ & H4 & H5 & H6).
  rewrite He in H1. injection H1 as <-. assert (tab v = tab e) as Et by (unfold tab; by rewrite Ea).
  eapply space_ext; [| | |apply (map_user (tab e)); [done..|by rewrite Ea|done|done]].
  - intros x Hx. cbn beta. destruct (Z.eqb_spec x n) as [->|]; [by rewrite HD|done].
  - done.
  - intros x k Hx _ Hk. cbn beta. replace ((4096 * x + k) / 4096) with x by (Z.div_mod_to_equations; lia).
    destruct (Z.eqb_spec x n) as [->|]; [|done]. replace ((4096 * n + k) mod 4096) with k by (Z.div_mod_to_equations; lia).
    symmetry. by apply H6.
Qed.

(** One user page less; the page itself is free to be used again. *)
Lemma unmap_user :
  n < upages → u32 v = 0 → space m' U pd (λ x, negb (x =? n) && D x) K um.
Proof.
  intros Hu Hv0. pose proof Hs as [A B C E F]. split.
  - done.
  - intros i Hi. rewrite set_pde by done. by apply B.
  - intros n' Hn' HD. apply andb_true_iff in HD as [Hne HD]. apply negb_true_iff, Z.eqb_neq in Hne.
    destruct (C n' Hn' HD) as (e & H1 & H2 & H3 & H4 & H5 & H6).
    exists e. rewrite set_entry_other by (done || lia). split_and!; try done. intros k Hk.
    rewrite (set_user n' e) by done. auto.
  - intros n' e Hn' HD. destruct (Z.eqb_spec n' n) as [->|Hne].
    + rewrite set_entry_same, Hv0. by intros [= <-].
    + rewrite set_entry_other by (done || lia). by apply E.
  - intros n' e Hn' HD. rewrite set_entry_other by (unfold upages in *; lia). by apply F.
Qed.

(** One more page in the kernel half. *)
Lemma map_kern : upages ≤ n → space m' U pd D (λ x, (x =? n) || K x) um.
Proof.
  intros Hu. pose proof Hs as [A B C E F]. split.
  - done.
  - intros i Hi. rewrite set_pde by done. by apply B.
  - intros n' Hn' HD. destruct (C n' Hn' HD) as (e & H1 & H2 & H3 & H4 & H5 & H6).
    exists e. rewrite set_entry_other by (done || lia). split_and!; try done. intros k Hk.
    rewrite (set_user n' e) by (done || lia). auto.
  - intros n' e Hn' HD. rewrite set_entry_other by (done || lia). by apply E.
  - intros n' e Hn' HD. apply orb_false_iff in HD as [Hne HD]. apply Z.eqb_neq in Hne.
    rewrite set_entry_other by (unfold upages in *; lia). by apply F.
Qed.
End SetEntry.

(** ** A new page table *)
Lemma load32_zero m a : (∀ x, a ≤ x < a + 4 → m x = 0) → load32 m a = 0.
Proof.
  intros Hz. rewrite (load32_ext m (λ _, 0)); [done|]. intros x Hx. by apply Hz.
Qed.

Section NewTable.
Variables (m : mem) (U : gmap Z use) (pd : Z) (D K : Z → bool) (um : mem) (i t e : Z).
Hypothesis Hv : valid_uses U.
Hypothesis Hs : space m U pd D K um.
Hypothesis Hi : 0 ≤ i < 1024.
Hypothesis Hnew : has (pde m pd i) PTE_P = false.
Hypothesis Ht : U !! t = Some UFree.
Hypothesis He : u32 e = e ∧ tab e = t ∧ has e PTE_P = true.
Let m' := store32 (KString.memset m t 0 (Z.to_nat PGSIZE)) (pd + 4 * i) e.
Let U' := <[t := UTab pd i]> U.

Lemma new_out x : ¬ in_page t x → ¬ in_page pd x → m' x = m x.
Proof.
  intros H1 H2. unfold m'. rewrite store32_out by (unfold in_page in H2; lia). rewrite memset_at by done.
  destruct (in_range t PGSIZE x) eqn:E; [|done]. apply in_range_spec in E. by destruct H1.
Qed.

Lemma new_agree p u : U !! p = Some u → u ≠ UFree → p ≠ pd → agree m m' p.
Proof.
  intros Hp Hu Hne x Hx. apply new_out.
  - by apply (uses_apart U p t u UFree).
  - apply (pages_apart end_ p pd); [by eapply Hv|eapply Hv, (sp_dir _ _ _ _ _ _ Hs)|done|done].
Qed.

Lemma new_memset_pd k : 0 ≤ k → k + 4 ≤ 4096 →
  load32 (KString.memset m t 0 (Z.to_nat PGSIZE)) (pd + k) = load32 m (pd + k).
Proof.
  intros H0 H1. apply load32_ext. intros x Hx. rewrite memset_at by done.
  destruct (in_range t PGSIZE x) eqn:E; [|done]. apply in_range_spec in E.
  destruct (uses_apart U pd t UDir UFree x); [done|apply (sp_dir _ _ _ _ _ _ Hs)|done|done| |done].
  unfold in_page. lia.
Qed.

Lemma new_pde j : 0 ≤ j < 1024 → pde m' pd j = if decide (j = i) then e else pde m pd j.
Proof.
  intros Hj. unfold pde, m'. case_decide as E.
  - subst j. rewrite load32_store32. apply He.
  - rewrite load32_store32_ne by lia. apply new_memset_pd; lia.
Qed.

Lemma new_zero x : in_page t x → m' x = 0.
Proof.
  intros Hx. unfold m'. rewrite store32_out.
  - rewrite memset_at by done. destruct (in_range t PGSIZE x) eqn:E; [done|].
    apply in_range_false in E. by destruct E.
  - intros Hc. destruct (uses_apart U t pd UFree UDir x); [done|done|apply (sp_dir _ _ _ _ _ _ Hs)|done|done|].
    unfold in_page. lia.
Qed.

Lemma new_entry n : 0 ≤ n < 2 * upages →
  entry m' pd n = if decide (n / 1024 = i) then Some 0 else entry m pd n.
Proof.
  intros Hn. destruct (page_number n Hn) as [H1 H2]. unfold entry, pte_addr. rewrite new_pde by done.
  destruct He as (_ & He2 & He3). case_decide as E.
  - rewrite He3, He2. cbn. f_equal. apply load32_zero. intros x Hx. apply new_zero. unfold in_page. lia.
  - destruct (has (pde m pd (n / 1024)) PTE_P) eqn:Ep; [|done]. cbn. f_equal.
    apply load32_agree; [|lia..].
    pose proof (sp_tab _ _ _ _ _ _ Hs (n / 1024) H1 Ep) as Ht'.
    apply (new_agree _ (UTab pd (n / 1024))); [done|done|]. intros Eq. rewrite Eq in Ht'.
    pose proof (sp_dir _ _ _ _ _ _ Hs). congruence.
Qed.

Lemma new_use p u : U !! p = Some u → u ≠ UFree → U' !! p = Some u.
Proof. intros Hp Hu. unfold U'. rewrite lookup_insert_ne; [done|]. intros ->. congruence. Qed.

Lemma new_table : space m' U' pd D K um.
Proof.
  pose proof Hs as [A B C E F]. split.
  - by apply new_use.
  - intros j Hj. rewrite new_pde by done. case_decide as Ej.
    + subst j. destruct He as (_ & -> & _). intros _. apply lookup_insert_eq.
    + intros Hp. apply new_use; [by apply B|done].
  - intros n Hn HD. rewrite new_entry by lia. destruct (C n Hn HD) as (e' & H1 & H2 & H3 & H4 & H5 & H6).
    case_decide as En.
    + exfalso. unfold entry, pte_addr in H1. rewrite En, Hnew in H1. done.
    + exists e'. split_and!; try done; [by apply new_use|]. intros k Hk. rewrite <- H6 by done.
      apply (new_agree (tab e') (UUser pd n)); [done|done|intros Eq; congruence|unfold in_page; lia].
  - intros n e' Hn HD. rewrite new_entry by lia. case_decide; [by intros [= <-]|]. by apply E.
  - intros n e' Hn HD. rewrite new_entry by (unfold upages in *; lia). case_decide; [by intros [= <-]|]. by apply F.
Qed.

Lemma new_users : users pd m m'.
Proof.
  intros n Hn. unfold user_page. rewrite new_entry by done. case_decide as En; [|done].
  unfold entry, pte_addr. by rewrite En, Hnew.
Qed.

Lemma new_framed : framed pd U m U' m'.
Proof.
  intros p u Hp Hu Ho. split; [by apply new_use|]. apply (new_agree p u Hp Hu). intros ->. apply Ho. left.
  pose proof (sp_dir _ _ _ _ _ _ Hs). split; [done|congruence].
Qed.
End NewTable.

(** * walkpgdir and mappages *)

(** Every page in use stays in use, and only the directory and the tables of [pd]
    have been written to. *)
Definition kept (pd : Z) U (m : mem) U' (m' : mem) : Prop :=
  ∀ p u, U !! p = Some u → u ≠ UFree →
    U' !! p = Some u ∧ (¬ (p = pd ∧ u = UDir) → (∀ i, u ≠ UTab pd i) → agree m m' p).

Lemma kept_refl pd U m : kept pd U m U m.
Proof. intros p u Hp _. split; [done|]. by intros _ _ x Hx. Qed.

Lemma kept_trans pd U1 m1 U2 m2 U3 m3 :
  kept pd U1 m1 U2 m2 → kept pd U2 m2 U3 m3 → kept pd U1 m1 U3 m3.
Proof.
  intros H1 H2 p u Hp Hu. destruct (H1 p u Hp Hu) as [Hp2 Ha]. destruct (H2 p u Hp2 Hu) as [Hp3 Hb].
  split; [done|]. intros Hd Ht x Hx. rewrite (Hb Hd Ht x Hx). by apply Ha.
Qed.

Lemma kept_framed pd U m U' m' : kept pd U m U' m' → framed pd U m U' m'.
Proof.
  intros H p u Hp Hu Ho. destruct (H p u Hp Hu) as [Hp' Ha]. split; [done|]. apply Ha.
  - intros Hd. apply Ho. by left.
  - intros i ->. apply Ho. right. left. eauto.
Qed.

Lemma walk_false pd va w :
  0 ≤ va < 2^32 → walkpgdir pd va false w = Done (match pte_addr (v_mem w) pd (va / 4096) with Some a => a | None => 0 end) w.
Proof.
  intros Hva. unfold walkpgdir, load, pte_addr, pde. mstep. rewrite PDX_eq, PTX_eq by done. cbn zeta.
  by destruct (has _ PTE_P).
Qed.

Lemma pte_nonzero m U pd D K um n a :
  valid_uses U → space m U pd D K um → 0 ≤ n < 2 * upages → pte_addr m pd n = Some a → a ≠ 0.
Proof.
  intros Hv Hs Hn Ha. destruct (page_number n Hn) as [Hi Hj]. unfold pte_addr in Ha.
  destruct (has (pde m pd (n / 1024)) PTE_P) eqn:E; [|done]. injection Ha as <-.
  pose proof (valid_range end_ Hend _ (Hv _ _ (sp_tab _ _ _ _ _ _ Hs _ Hi E))). unfold KERNBASE in *. lia.
Qed.

Lemma va_page va : 0 ≤ va < 2^32 → 0 ≤ va / 4096 < 2 * upages.
Proof. unfold upages. intros. Z.div_mod_to_equations. lia. Qed.

Lemma walk_true U w pd D K um va :
  kmem_ok end_ U w → space (v_mem w) U pd D K um → 0 ≤ va < 2^32 →
  ∃ a w' U', walkpgdir pd va true w = Done a w' ∧ kmem_ok end_ U' w' ∧
    space (v_mem w') U' pd D K um ∧ kept pd U (v_mem w) U' (v_mem w') ∧ users pd (v_mem w) (v_mem w') ∧
    (a = 0 ∨ a ≠ 0 ∧ pte_addr (v_mem w') pd (va / 4096) = Some a).
Proof.
  intros Hk Hs Hva. pose proof (va_page va Hva) as Hn. destruct (page_number _ Hn) as [Hi Hj].
  assert (Hv : valid_uses U) by exact (ko_valid _ _ _ Hk).
  unfold walkpgdir, load. mstep. rewrite PDX_eq, PTX_eq by done. cbn [negb].
  fold (pde (v_mem w) pd (va / 4096 / 1024)).
  destruct (has (pde (v_mem w) pd (va / 4096 / 1024)) PTE_P) eqn:E.
  { mstep. eexists _, w, U. split; [done|]. split_and!; [done|done|apply kept_refl|apply users_refl|]. right.
    assert (Ha : pte_addr (v_mem w) pd (va / 4096) = Some (tab (pde (v_mem w) pd (va / 4096 / 1024)) + 4 * ((va / 4096) mod 1024)))
      by (unfold pte_addr; by rewrite E).
    split; [by eapply pte_nonzero|done]. }
  mstep. destruct (kalloc_use end_ Hend U w Hk) as (t & w1 & -> & Hm1 & [(-> & _ & Hk1)|[Ht Hk1]]); mstep.
  { exists 0, w1, U. rewrite Hm1. split_and!; [done|done|done|apply kept_refl|apply users_refl|by left]. }
  pose proof (Hv _ _ Ht) as Hvt. pose proof (valid_range end_ Hend t Hvt) as Hr.
  destruct (Z.eqb_spec t 0); [unfold KERNBASE in Hr; lia|].
  unfold memset, store, upd_mem. mstep.
  set (e := Z.lor (Z.lor (Z.lor (V2P t) PTE_P) PTE_W) PTE_U).
  assert (Ee : e = Z.lor (V2P t) 7) by (unfold e; by rewrite <- !Z.lor_assoc).
  destruct (make_pte end_ t 7 Hend Hvt ltac:(lia)) as (He1 & He2 & _). rewrite <- Ee in He1, He2.
  assert (He : u32 e = e ∧ tab e = t ∧ has e PTE_P = true).
  { split; [by apply u32_id|]. split; [done|]. rewrite Ee. unfold PTE_P. change 1 with (2^0).
    rewrite has_lor by done. apply orb_true_r. }
  set (i := va / 4096 / 1024) in *.
  pose proof (new_table (v_mem w) U pd D K um i t e Hv Hs Hi E Ht He) as Hs'.
  assert (Hpde : pde (store32 (KString.memset (v_mem w) t 0 (Z.to_nat PGSIZE)) (pd + 4 * i) e) pd i = e).
  { etransitivity; [by eapply new_pde|]. by rewrite decide_True. }
  pose proof (sp_dir _ _ _ _ _ _ Hs) as Hd. cbn [v_mem set_v_mem]. rewrite Hm1.
  set (m' := store32 _ _ e) in *.
  eexists _, (set_v_mem m' w1), _. split; [done|]. cbn [v_mem set_v_mem]. split_and!; [|exact Hs'| |by eapply new_users|].
  - apply kmem_write; [by apply Hk1|apply writes_ok, memset_ok; [done|apply (ko_mem _ _ _ Hk)]|].
    intros p Hp x Hx. rewrite Hm1. destruct (decide (p = t)) as [->|Hne]; [by rewrite lookup_insert_eq in Hp|].
    rewrite lookup_insert_ne in Hp by done. apply (new_out (v_mem w)); [done|..].
    + by apply (pages_apart end_ p t); [by eapply Hv|..].
    + by apply (uses_apart U p pd UFree UDir).
  - intros p u Hp Hu. split; [by eapply new_use|]. intros Hnd _. eapply new_agree; [done..|].
    intros ->. apply Hnd. split; [done|congruence].
  - right. split; [unfold KERNBASE in Hr; lia|]. unfold pte_addr. fold i. rewrite Hpde. destruct He as (_ & -> & ->). done.
Qed.

Lemma store_pte U w pd D K um n a v :
  kmem_ok end_ U w → space (v_mem w) U pd D K um → 0 ≤ n < 2 * upages →
  pte_addr (v_mem w) pd n = Some a →
  kmem_ok end_ U (set_v_mem (store32 (v_mem w) a v) w) ∧
  kept pd U (v_mem w) U (store32 (v_mem w) a v).
Proof.
  intros Hk Hs Hn Ha. assert (Hv : valid_uses U) by exact (ko_valid _ _ _ Hk). split.
  - apply kmem_write; [done|apply writes_ok, (ko_mem _ _ _ Hk)|]. intros p Hp. by eapply set_agree.
  - intros p u Hp Hu. split; [done|]. intros _ Ht. by eapply set_agree.
Qed.

Lemma perm_range perm : 0 ≤ perm < 4096 → 0 ≤ Z.lor perm PTE_P < 4096.
Proof.
  intros Hp. assert (H0 : 0 ≤ Z.lor perm PTE_P) by (apply Z.lor_nonneg; unfold PTE_P; lia). split; [done|].
  destruct (Z.eq_dec (Z.lor perm PTE_P) 0) as [->|Hne]; [lia|].
  change 4096 with (2^12). apply Z.log2_lt_pow2; [lia|]. rewrite Z.log2_lor by (unfold PTE_P; lia).
  apply Z.max_lub_lt; [|done]. destruct (Z.eq_dec perm 0) as [->|]; [done|].
  apply Z.log2_lt_pow2; [lia|]. change (2^12) with 4096. lia.
Qed.

(** Pages from [kalloc] are not part of any space, so their use may change. *)
Lemma adopt U m pd D K um pg u :
  U !! pg = Some UPage → space m U pd D K um → space m (<[pg := u]> U) pd D K um.
Proof.
  intros Hpg Hs. eapply space_frame; [|done]. intros p v Hp Ho _. split; [|by intros x Hx].
  rewrite lookup_insert_ne; [done|]. intros ->. rewrite Hpg in Hp. injection Hp as <-.
  destruct Ho as [[_ ?]|[[? ?]|[? ?]]]; done.
Qed.

(** [mappages] of a single user page. *)
Lemma mappages_user U w pd D K um n pg perm :
  kmem_ok end_ U w → space (v_mem w) U pd D K um → 0 ≤ n < upages → D n = false →
  U !! pg = Some UPage → 0 ≤ perm < 4096 → has perm PTE_W = true →
  ∃ r w' U', mappages pd (4096 * n) PGSIZE (V2P pg) perm w = Done r w' ∧ kmem_ok end_ U' w' ∧
    ((r = -1 ∧ kept pd U (v_mem w) U' (v_mem w') ∧ space (v_mem w') U' pd D K um) ∨
     (r = 0 ∧ framed_but pg pd U (v_mem w) U' (v_mem w') ∧
      (users pd (v_mem w) (v_mem w') ∧ (has perm PTE_U = true → user_page (v_mem w') pd n = true)) ∧
      space (v_mem w') U' pd (λ x, (x =? n) || D x) K
        (λ x, if x / 4096 =? n then v_mem w (pg + x mod 4096) else um x))).
Proof.
  intros Hk Hs Hn Hd Hpg Hperm HW. unfold upages in Hn.
  assert (Hvp : valid_page end_ pg) by (by eapply (ko_valid _ _ _ Hk)).
  unfold mappages. change PGSIZE with 4096. rewrite !down_eq, (u32_id (4096 * n + 4096 - 1)) by lia.
  replace (4096 * n / 4096) with n by (Z.div_mod_to_equations; lia).
  replace ((4096 * n + 4096 - 1) / 4096) with n by (Z.div_mod_to_equations; lia).
  rewrite Z.sub_diag. change (S (Z.to_nat (u32 0 / 4096))) with 1%nat. cbn [mappages_loop]. mstep.
  destruct (walk_true U w pd D K um (4096 * n)) as (a & w1 & U1 & -> & Hk1 & Hs1 & Hkp & Hus & Ha); [done..|lia|]. mstep.
  destruct Ha as [->|[Hne Ha]]; mstep; [by exists (-1), w1, U1; split_and!; [..|by left]|].
  destruct (Z.eqb_spec a 0); [done|]. unfold load, store, upd_mem. mstep.
  replace (4096 * n / 4096) with n in Ha by (Z.div_mod_to_equations; lia).
  assert (He : entry (v_mem w1) pd n = Some (load32 (v_mem w1) a)) by (unfold entry; by rewrite Ha).
  rewrite (sp_none _ _ _ _ _ _ Hs1 n _ Hn Hd He). mstep. rewrite Z.eqb_refl. mstep.
  rewrite <- Z.lor_assoc.
  destruct (make_pte end_ pg (Z.lor perm PTE_P) Hend Hvp (perm_range _ Hperm)) as (H1 & H2 & H3).
  assert (HP : has (Z.lor (V2P pg) (Z.lor perm PTE_P)) PTE_P = true)
    by (unfold PTE_P; change 1 with (2^0); rewrite !has_lor by done; by rewrite !orb_true_r).
  assert (HW' : has (Z.lor (V2P pg) (Z.lor perm PTE_P)) PTE_W = true).
  { unfold PTE_W in *. change 2 with (2^1) in *. rewrite !has_lor, HW by done. cbn. apply orb_true_r. }
  assert (HU' : has perm PTE_U = true → has (Z.lor (V2P pg) (Z.lor perm PTE_P)) PTE_U = true).
  { intros HU. unfold PTE_U in *. change 4 with (2^2) in *. rewrite !has_lor, HU by done. cbn. apply orb_true_r. }
  set (v := Z.lor (V2P pg) _) in *. destruct (Hkp pg UPage) as [Hpg1 Hag]; [done..|].
  specialize (Hag ltac:(naive_solver) ltac:(done)).
  set (U2 := <[pg := UUser pd n]> U1).
  assert (Hpg2 : U2 !! pg = Some (UUser pd n)) by (unfold U2; apply lookup_insert_eq).
  assert (Hk2 : kmem_ok end_ U2 w1) by (by eapply kmem_reuse).
  pose proof (adopt U1 (v_mem w1) pd D K um pg (UUser pd n) Hpg1 Hs1) as Hs2.
  assert (Hn2 : 0 ≤ n < 2 * upages) by (unfold upages; lia).
  destruct (store_pte U2 w1 pd D K um n a v) as [Hk3 Hkp3]; [done..|].
  eexists 0, (set_v_mem (store32 (v_mem w1) a v) w1), U2. split; [done|]. cbn [v_mem set_v_mem].
  split; [done|]. right. split; [done|]. split; [|split].
  - intros p u Hp Hu Ho Hne'. destruct (kept_framed _ _ _ _ _ Hkp p u Hp Hu Ho) as [Hp1 Ha1].
    assert (Hp2 : U2 !! p = Some u) by (unfold U2; by rewrite lookup_insert_ne).
    destruct (kept_framed _ _ _ _ _ Hkp3 p u Hp2 Hu Ho) as [_ Ha2]. split; [done|].
    intros x Hx. rewrite (Ha2 x Hx). by apply Ha1.
  - destruct (map_users (v_mem w1) U2 pd D K um n a v) as [Hus1 Hv1];
      [exact (ko_valid _ _ _ Hk2)|done|done|done|unfold upages; lia|by apply u32_id|done|done|].
    split; [intros n' Hn' Hu'; by apply Hus1, Hus|]. intros HU. rewrite Hv1. by apply HU'.
  - eapply space_ext; [| | |eapply (map_user (v_mem w1) U2 pd D K um n a v); [exact (ko_valid _ _ _ Hk2)|done..|unfold upages; lia|by apply u32_id|done|done|done|exact H2|done]].
    + done.
    + done.
    + intros n' k Hn' HD Hk'. cbn beta.
      replace ((4096 * n' + k) / 4096) with n' by (Z.div_mod_to_equations; lia).
      destruct (n' =? n); [|done]. symmetry. apply Hag. unfold in_page. Z.div_mod_to_equations. lia.
Qed.

(** Mapping one kernel page. *)
Lemma kern_step U w pd D K um n v :
  kmem_ok end_ U w → space (v_mem w) U pd D K um → upages ≤ n < 2 * upages → K n = false →
  ∃ a w1 U1, walkpgdir pd (4096 * n) true w = Done a w1 ∧
    ((a = 0 ∧ kmem_ok end_ U1 w1 ∧ kept pd U (v_mem w) U1 (v_mem w1) ∧ space (v_mem w1) U1 pd D K um) ∨
     (a ≠ 0 ∧ has (load32 (v_mem w1) a) PTE_P = false ∧
      kmem_ok end_ U1 (set_v_mem (store32 (v_mem w1) a v) w1) ∧
      kept pd U (v_mem w) U1 (store32 (v_mem w1) a v) ∧
      space (store32 (v_mem w1) a v) U1 pd D (λ x, (x =? n) || K x) um)).
Proof.
  intros Hk Hs Hn HK. assert (Hn2 : 0 ≤ n < 2 * upages) by (unfold upages in *; lia).
  destruct (walk_true U w pd D K um (4096 * n)) as (a & w1 & U1 & E & Hk1 & Hs1 & Hkp & _ & Ha);
    [done..|unfold upages in *; lia|]. exists a, w1, U1. split; [done|].
  destruct Ha as [->|[Hne Ha]]; [by left|]. right. split; [done|].
  replace (4096 * n / 4096) with n in Ha by (Z.div_mod_to_equations; lia).
  assert (He : entry (v_mem w1) pd n = Some (load32 (v_mem w1) a)) by (unfold entry; by rewrite Ha).
  split; [by apply (sp_kern _ _ _ _ _ _ Hs1 n)|].
  destruct (store_pte U1 w1 pd D K um n a v) as [Hk2 Hkp2]; [done..|]. split; [done|].
  split; [by eapply kept_trans|].
  apply (map_kern (v_mem w1) U1 pd D K um n a v (ko_valid _ _ _ Hk1)); done || lia.
Qed.

(** [mappages] over a range of kernel pages. *)
Lemma mappages_loop_kern U w pd D K um n last pa perm k :
  kmem_ok end_ U w → space (v_mem w) U pd D K um →
  upages ≤ n → n + Z.of_nat k = last → last < 2 * upages →
  (∀ n', n ≤ n' ≤ last → K n' = false) →
  ∃ r w' U', mappages_loop (S k) pd (4096 * n) (4096 * last) pa perm w = Done r w' ∧ kmem_ok end_ U' w' ∧
    kept pd U (v_mem w) U' (v_mem w') ∧ (r = 0 ∨ r = -1) ∧
    space (v_mem w') U' pd D (λ x, ((n <=? x) && (x <=? last)) || K x) um.
Proof.
  revert U w K n pa. induction k as [|k IH]; intros U w K n pa Hk Hs Hlow Hlast Hhigh HK.
  all: cbn [mappages_loop]; unfold load, store, upd_mem; mstep;
    destruct (kern_step U w pd D K um n (Z.lor (Z.lor pa perm) PTE_P)) as
      (a & w1 & U1 & -> & [(-> & Hk1 & Hkp & Hs1)|(Hne & HP & Hk1 & Hkp & Hs1)]);
      [done|done|lia|apply HK; lia| |]; mstep.
  1, 3: exists (-1), w1, U1; split_and!; [done..|by right|];
    eapply space_ext; [| | |done]; [done| |done]; intros x _ Hx; by apply orb_false_iff in Hx as [_ ?].
  all: destruct (Z.eqb_spec a 0); [done|]; mstep; rewrite HP; mstep.
  - destruct (Z.eqb_spec (4096 * n) (4096 * last)); [|lia]. mstep. eexists 0, _, U1.
    split_and!; [done|done|done|by left|]. eapply space_ext; [| | |exact Hs1]; [done| |done].
    intros x Hx [Hf1 Hf2]%orb_false_iff. rewrite Hf2, orb_false_r.
    destruct (Z.eqb_spec x n) as [->|]; [|done]. apply andb_false_iff in Hf1. lia.
  - destruct (Z.eqb_spec (4096 * n) (4096 * last)); [lia|].
    rewrite (u32_id (4096 * n + PGSIZE)) by (unfold upages, PGSIZE in *; lia).
    replace (4096 * n + PGSIZE) with (4096 * (n + 1)) by (unfold PGSIZE; lia).
    destruct (IH U1 (set_v_mem (store32 (v_mem w1) a (Z.lor (Z.lor pa perm) PTE_P)) w1)
      (λ x, (x =? n) || K x) (n + 1) (u32 (pa + PGSIZE))) as (r & w' & U' & E & Hk' & Hkp' & Hr & Hs');
      [done|done|lia|lia|lia| |].
    { intros n' Hn'. rewrite HK by lia. destruct (Z.eqb_spec n' n); [lia|done]. }
    exists r, w', U'. split; [done|]. split; [done|]. split; [by eapply kept_trans|].
    split; [done|]. eapply space_ext; [| | |exact Hs']; [done| |done].
    intros x Hx [Hf1 Hf2]%orb_false_iff. rewrite Hf2, orb_false_r. apply andb_false_iff in Hf1.
    apply orb_false_iff. rewrite andb_false_iff. lia.
Qed.

Lemma mappages_kern U w pd D K um n size pa perm :
  kmem_ok end_ U w → space (v_mem w) U pd D K um →
  upages ≤ n → 0 < size → 4096 * n + size ≤ 2^32 →
  (∀ n', n ≤ n' → 4096 * n' < 4096 * n + size → K n' = false) →
  ∃ r w' U', mappages pd (4096 * n) size pa perm w = Done r w' ∧ kmem_ok end_ U' w' ∧
    kept pd U (v_mem w) U' (v_mem w') ∧ (r = 0 ∨ r = -1) ∧
    space (v_mem w') U' pd D (λ x, ((n <=? x) && (4096 * x <? 4096 * n + size)) || K x) um.
Proof.
  intros Hk Hs Hn H0 Hsz HK. unfold mappages. unfold upages in Hn.
  rewrite !down_eq, (u32_id (4096 * n + size - 1)) by lia.
  replace (4096 * n / 4096) with n by (Z.div_mod_to_equations; lia).
  set (last := (4096 * n + size - 1) / 4096).
  assert (Hl : n ≤ last < 2 * upages) by (unfold last, upages; Z.div_mod_to_equations; lia).
  rewrite u32_id by (unfold upages in Hl; lia).
  replace ((4096 * last - 4096 * n) / PGSIZE) with (last - n) by (unfold PGSIZE; Z.div_mod_to_equations; lia).
  destruct (mappages_loop_kern U w pd D K um n last pa perm (Z.to_nat (last - n))) as
    (r & w' & U' & E & Hk' & Hkp & Hr & Hs'); [done|done|unfold upages; lia|lia|lia| |].
  { intros n' Hn'. apply HK; [lia|]. unfold last in Hn'. Z.div_mod_to_equations. lia. }
  exists r, w', U'. split_and!; try done. eapply space_ext; [| | |exact Hs']; [done| |done].
  intros x Hx [Hf1 Hf2]%orb_false_iff. rewrite Hf2, orb_false_r. apply andb_false_iff in Hf1.
  apply andb_false_iff. unfold last. destruct Hf1; [by left|right]. Z.div_mod_to_equations. lia.
Qed.

(** * setupkvm *)
Lemma fresh_space m U pd um :
  U !! pd = Some UDir → (∀ x, in_page pd x → m x = 0) → space m U pd (λ _, false) (λ _, false) um.
Proof.
  intros Hd Hz.
  assert (Hp : ∀ i, 0 ≤ i < 1024 → pde m pd i = 0).
  { intros i Hi. apply load32_zero. intros x Hx. apply Hz. unfold in_page. lia. }
  assert (He : ∀ n, 0 ≤ n < 2 * upages → entry m pd n = None).
  { intros n Hn. unfold entry, pte_addr. by rewrite Hp by (by apply page_number). }
  split; try done.
  - intros i Hi. by rewrite Hp.
  - intros n e Hn _. by rewrite He by lia.
  - intros n e Hn _. by rewrite He by (unfold upages in *; lia).
Qed.

(** The regions of [l] are in the kernel half, apart from each other and from [K]. *)
Definition region (n size x : Z) : bool := (n <=? x) && (4096 * x <? 4096 * n + size).
Fixpoint kmaps_ok (K : Z → bool) (l : list kmap) : Prop :=
  match l with
  | [] => True
  | k :: l' => ∃ n size, virt k = 4096 * n ∧ u32 (phys_end k - phys_start k) = size ∧
      upages ≤ n ∧ 0 < size ∧ 4096 * n + size ≤ 2^32 ∧
      (∀ n', region n size n' = true → K n' = false) ∧ kmaps_ok (λ x, region n size x || K x) l'
  end.

Lemma map_all_kern l U w pd D K um :
  kmem_ok end_ U w → space (v_mem w) U pd D K um → kmaps_ok K l →
  ∃ r w' U', map_all l pd w = Done r w' ∧ kmem_ok end_ U' w' ∧
    kept pd U (v_mem w) U' (v_mem w') ∧ (r = 0 ∨ r = pd) ∧ space (v_mem w') U' pd D (λ _, true) um.
Proof.
  revert U w K. induction l as [|k l IH]; intros U w K Hk Hs Hl; cbn [map_all].
  { exists pd, w, U. split_and!; [done..|apply kept_refl|by right|by eapply space_ext; [| | |done]]. }
  destruct Hl as (n & size & -> & -> & Hn & H0 & Hsz & HK & Hl). mstep.
  destruct (mappages_kern U w pd D K um n size (phys_start k) (perm k)) as (r & w1 & U1 & -> & Hk1 & Hkp & Hr & Hs1);
    [done..| |]. { intros n' H1 H2. apply HK. unfold region. lia. }
  mstep. destruct Hr as [-> | ->]; cbn [Z.ltb Z.compare].
  - destruct (IH U1 w1 _ Hk1 Hs1 Hl) as (r & w' & U' & E & Hk' & Hkp' & Hr & Hs').
    exists r, w', U'. split_and!; try done. by eapply kept_trans.
  - mstep. exists 0, w1, U1. split_and!; [done..|by left|by eapply space_ext; [| | |done]].
Qed.

Section Kvm.
Variable data : Z.
Hypothesis Hdata : data mod 4096 = 0 ∧ KERNLINK < data < KERNBASE + PHYSTOP.

Lemma kmaps_data_ok : kmaps_ok (λ _, false) (kmaps data).
Proof.
  destruct Hdata as [Hal Hr]. apply Z.div_exact in Hal; [|lia].
  unfold KERNLINK, KERNBASE, EXTMEM, PHYSTOP in Hr. unfold kmaps, KERNLINK, V2P, KERNBASE, EXTMEM, PHYSTOP, DEVSPACE.
  rewrite !(u32_id (data - _)) by lia. cbn [kmaps_ok virt phys_start phys_end perm]. unfold region, upages.
  exists 524288, 1048576. split_and!; [done..|].
  exists 524544, (data - 2148532224). split_and!; [done| |done|lia|lia|lia|].
  { change (u32 (2147483648 + 1048576 - 2147483648)) with 1048576. rewrite u32_id; lia. }
  exists (data / 4096), (2382364672 - data). split_and!; [done| |lia..|].
  { rewrite u32_id; lia. }
  exists 1040384, 33554432. split_and!; [done..|lia|done].
Qed.

Lemma setupkvm_ok U w um :
  kmem_ok end_ U w →
  ∃ d w' U' pd, setupkvm data w = Done d w' ∧ kmem_ok end_ U' w' ∧
    framed pd U (v_mem w) U' (v_mem w') ∧ (∀ u, U !! pd = Some u → u = UFree) ∧
    (d = 0 ∨ d = pd ∧ d ≠ 0 ∧ space (v_mem w') U' d (λ _, false) (λ _, true) um).
Proof.
  intros Hk. unfold setupkvm. mstep.
  destruct (kalloc_use end_ Hend U w Hk) as (pd & w1 & -> & Hm1 & [(-> & Hno & Hk1)|[Ht Hk1]]); mstep.
  { exists 0, w1, U, 0. rewrite Hm1. split_and!; [done|done|apply framed_refl| |by left].
    intros u Hu. pose proof (ko_valid _ _ _ Hk _ _ Hu) as Hv.
    pose proof (valid_range end_ Hend _ Hv). unfold KERNBASE in *. lia. }
  pose proof (ko_valid _ _ _ Hk _ _ Ht) as Hvt. pose proof (valid_range end_ Hend pd Hvt) as Hr.
  destruct (Z.eqb_spec pd 0); [unfold KERNBASE in Hr; lia|]. unfold memset, upd_mem. mstep.
  change (DEVSPACE <? P2V PHYSTOP) with false. cbn iota. mstep.
  set (m1 := KString.memset (v_mem w1) pd 0 (Z.to_nat PGSIZE)).
  assert (Hout : ∀ x, ¬ in_page pd x → m1 x = v_mem w x).
  { intros x Hx. unfold m1. rewrite memset_at, Hm1 by done. destruct (in_range pd PGSIZE x) eqn:E; [|done].
    apply in_range_spec in E. by destruct Hx. }
  set (U1 := <[pd := UDir]> U). assert (Hk1' : kmem_ok end_ U1 w1) by (by apply Hk1).
  assert (Hk2 : kmem_ok end_ U1 (set_v_mem m1 w1)).
  { apply (kmem_write_page end_ U1 w1 pd UDir); [done|by unfold U1; rewrite lookup_insert_eq|done| |by rewrite Hm1].
    apply memset_ok; [done|apply (ko_mem _ _ _ Hk1')]. }
  assert (Hs : space m1 U1 pd (λ _, false) (λ _, false) um).
  { apply fresh_space; [by unfold U1; rewrite lookup_insert_eq|]. intros x Hx. unfold m1. rewrite memset_at by done.
    destruct (in_range pd PGSIZE x) eqn:E; [done|]. apply in_range_false in E. by destruct E. }
  destruct (map_all_kern (kmaps data) U1 (set_v_mem m1 w1) pd _ _ um Hk2 Hs kmaps_data_ok)
    as (r & w' & U' & -> & Hk' & Hkp & Hr' & Hs').
  exists r, w', U', pd. split_and!; [done|done| |naive_solver|].
  - eapply framed_trans; [|by apply kept_framed]. intros p u Hp Hu _.
    assert (p ≠ pd) by congruence. split; [by unfold U1; rewrite lookup_insert_ne|].
    intros x Hx. apply Hout. by apply (pages_apart end_ p pd); [by eapply (ko_valid _ _ _ Hk)|..].
  - destruct Hr' as [->| ->]; [by left|right]. done.
Qed.
End Kvm.

(** * deallocuvm *)
Lemma store32_ext m1 m2 a v x : m1 x = m2 x → store32 m1 a v x = store32 m2 a v x.
Proof.
  intros Hx. destruct (decide (a ≤ x < a + 4)) as [Hin|Hout]; [|by rewrite !store32_out].
  unfold store32. destruct (lookup_lt_is_Some_2 (le32 v) (Z.to_nat (x - a))) as [b Hb]; [cbn; lia|].
  replace x with (a + Z.of_nat (Z.to_nat (x - a))) by lia. by rewrite !(writes_in _ _ _ _ b).
Qed.

(** Freeing a mapped page and clearing its entry. *)
Lemma free_page U w pd D K um n a :
  kmem_ok end_ U w → space (v_mem w) U pd D K um → 0 ≤ n < upages → D n = true →
  pte_addr (v_mem w) pd n = Some a →
  let e := load32 (v_mem w) a in
  ∃ w1, has e PTE_P = true ∧ PTE_ADDR e ≠ 0 ∧ kfree end_ (tab e) w = Done tt w1 ∧
    kmem_ok end_ (<[tab e := UFree]> U) (set_v_mem (store32 (v_mem w1) a 0) w1) ∧
    framed pd U (v_mem w) (<[tab e := UFree]> U) (store32 (v_mem w1) a 0) ∧
    space (store32 (v_mem w1) a 0) (<[tab e := UFree]> U) pd (λ x, negb (x =? n) && D x) K um.
Proof.
  intros Hk Hs Hn HD Ha e. assert (Hv : valid_uses U) by exact (ko_valid _ _ _ Hk).
  assert (Hn2 : 0 ≤ n < 2 * upages) by (unfold upages in *; lia).
  destruct (sp_user _ _ _ _ _ _ Hs n Hn HD) as (e' & He & HP & _ & Hu & H0 & _).
  assert (e' = e) as -> by (unfold entry in He; rewrite Ha in He; by injection He).
  destruct (kfree_use end_ Hend U w (tab e) Hk) as (w1 & E & Hk1 & Hout & _); [by eapply Hv|congruence|].
  exists w1. split; [done|]. split; [done|]. split; [done|].
  assert (Ht : U !! tab (pde (v_mem w) pd (n / 1024)) = Some (UTab pd (n / 1024))) by (by eapply (set_tab (v_mem w))).
  destruct (pte_addr_eq (v_mem w) pd n a Ha) as [_ Ea]. set (t := tab (pde (v_mem w) pd (n / 1024))) in *.
  destruct (page_number n Hn2) as [Hi Hj].
  assert (Hin : ∀ x, ¬ in_page t x → ¬ (a ≤ x < a + 4)) by (unfold in_page; lia).
  assert (Hte : t ≠ tab e) by congruence. split; [|split].
  - apply (kmem_write_page end_ _ w1 t (UTab pd (n / 1024))); [done|by rewrite lookup_insert_ne|done| |].
    + apply writes_ok, (ko_mem _ _ _ Hk1).
    + intros x Hx. apply store32_out. by apply Hin.
  - intros p u Hp Hpu Ho. assert (Hpe : p ≠ tab e).
    { intros ->. apply Ho. rewrite Hu in Hp. injection Hp as <-. right. right. eauto. }
    split; [by rewrite lookup_insert_ne|]. intros x Hx. rewrite store32_out.
    + apply Hout. by apply (pages_apart end_ p (tab e)); [by eapply Hv..|done|].
    + apply Hin, (uses_apart U p t u (UTab pd (n / 1024)) x Hv Hp Ht); [|done].
      intros ->. apply Ho. right. left. eauto.
  - eapply space_frame; [|eapply (unmap_user (v_mem w) U pd D K um n a 0); done || lia].
    intros p u Hp Ho Hlive. assert (Hpe : p ≠ tab e).
    { intros ->. rewrite Hu in Hp. injection Hp as <-. specialize (Hlive n eq_refl). cbn in Hlive.
      by rewrite Z.eqb_refl in Hlive. }
    split; [by rewrite lookup_insert_ne|]. intros x Hx. apply store32_ext, Hout.
    by apply (pages_apart end_ p (tab e)); [by eapply Hv..|done|].
Qed.

Lemma next_table na :
  0 ≤ na < upages →
  u32 (u32 (PGADDR (PDX (4096 * na) + 1) 0 0 - PGSIZE) + PGSIZE) = 4096 * (1024 * (na / 1024 + 1)).
Proof.
  unfold upages. intros Hn. rewrite PDX_eq by lia.
  replace (4096 * na / 4096) with na by (Z.div_mod_to_equations; lia).
  assert (0 ≤ na / 1024 < 512) by (Z.div_mod_to_equations; lia). unfold PGADDR.
  rewrite Z.shiftl_0_l, !Z.lor_0_r, Z.shiftl_mul_pow2 by lia. unfold PGSIZE.
  rewrite (u32_id (_ * 2^22)) by lia. rewrite (u32_id (_ - 4096)) by lia. rewrite u32_id by lia. lia.
Qed.

Lemma absent_table m U pd D K um n n' :
  space m U pd D K um → pte_addr m pd n = None → 0 ≤ n' < upages → n' / 1024 = n / 1024 → D n' = false.
Proof.
  intros Hs Hn Hn' E. destruct (D n') eqn:HD; [|done].
  destruct (sp_user _ _ _ _ _ _ Hs n' Hn' HD) as (e & He & _). unfold entry, pte_addr in *. rewrite E in He.
  by destruct (has _ PTE_P).
Qed.

Lemma dealloc_loop k U w pd D K um na oldsz :
  kmem_ok end_ U w → space (v_mem w) U pd D K um → 0 ≤ na → oldsz ≤ KERNBASE → oldsz ≤ 4096 * (na + Z.of_nat k) →
  ∃ w' U', deallocuvm_loop end_ k pd oldsz (4096 * na) w = Done tt w' ∧ kmem_ok end_ U' w' ∧
    framed pd U (v_mem w) U' (v_mem w') ∧
    space (v_mem w') U' pd (λ x, D x && ((x <? na) || (oldsz <=? 4096 * x))) K um.
Proof.
  intros Hk0 Hs0 H0 Hold. revert U w D na Hk0 Hs0 H0.
  induction k as [|k IH]; intros U w D na Hk Hs H0 Hf; cbn [deallocuvm_loop].
  all: destruct (Z.ltb_spec (4096 * na) oldsz); [try lia|].
  1, 3: exists w, U; split_and!; [done..|apply framed_refl|]; eapply space_ext; [| | |exact Hs]; [|done..];
    intros x Hx; cbn beta; destruct (Z.ltb_spec x na), (Z.leb_spec oldsz (4096 * x)); cbn; try lia; apply andb_true_r.
  unfold KERNBASE in Hold. assert (Hn : 0 ≤ na < upages) by (unfold upages; lia).
  assert (Hnext : ∀ U' w' D' na', kmem_ok end_ U' w' → framed pd U (v_mem w) U' (v_mem w') →
    space (v_mem w') U' pd D' K um → na < na' →
    (∀ x, 0 ≤ x < upages → D' x && ((x <? na') || (oldsz <=? 4096 * x)) = D x && ((x <? na) || (oldsz <=? 4096 * x))) →
    ∃ w'' U'', deallocuvm_loop end_ k pd oldsz (4096 * na') w' = Done tt w'' ∧ kmem_ok end_ U'' w'' ∧
      framed pd U (v_mem w) U'' (v_mem w'') ∧
      space (v_mem w'') U'' pd (λ x, D x && ((x <? na) || (oldsz <=? 4096 * x))) K um).
  { intros U' w' D' na' Hk' Hfr Hs' Hlt Heq. destruct (IH U' w' D' na') as (w2 & U2 & E & Hk2 & Hf2 & Hs2); [done|done|lia|lia|].
    exists w2, U2. split_and!; [done..|by eapply framed_trans|]. eapply space_ext; [| | |exact Hs2]; [|done..].
    intros x Hx. symmetry. by apply Heq. }
  mstep. rewrite walk_false by (unfold upages in Hn; lia).
  replace (4096 * na / 4096) with na by (Z.div_mod_to_equations; lia). mstep.
  destruct (pte_addr (v_mem w) pd na) as [a|] eqn:Ha.
  - assert (a ≠ 0) by (eapply pte_nonzero; [exact (ko_valid _ _ _ Hk)|done| |done]; unfold upages in *; lia).
    destruct (Z.eqb_spec a 0); [done|]. unfold load, store, upd_mem. mstep.
    rewrite (u32_id (4096 * na + PGSIZE)) by (unfold upages, PGSIZE in *; lia).
    replace (4096 * na + PGSIZE) with (4096 * (na + 1)) by (unfold PGSIZE; lia).
    destruct (D na) eqn:HD.
    + destruct (free_page U w pd D K um na a) as (w1 & HP & Hne & E & Hk1 & Hf1 & Hs1); [done..|].
      rewrite HP. cbn [when]. mstep. destruct (Z.eqb_spec (PTE_ADDR (load32 (v_mem w) a)) 0); [done|]. mstep.
      unfold tab in E. rewrite E. mstep. eapply Hnext; [done|done|exact Hs1|lia|].
      intros x Hx. cbn beta. destruct (Z.eqb_spec x na) as [->|]; cbn [negb andb].
      * destruct (Z.ltb_spec na na), (Z.leb_spec oldsz (4096 * na)); cbn; try lia; by rewrite andb_false_r.
      * f_equal. f_equal. lia.
    + assert (HP : has (load32 (v_mem w) a) PTE_P = false).
      { apply (sp_none _ _ _ _ _ _ Hs na); [done..|]. unfold entry. by rewrite Ha. }
      rewrite HP. cbn [when]. mstep. eapply Hnext; [done|apply framed_refl|exact Hs|lia|].
      intros x Hx. destruct (Z.eq_dec x na) as [->|]; [by rewrite HD|]. f_equal. f_equal. lia.
  - cbn [Z.eqb]. rewrite next_table by done. eapply Hnext; [done|apply framed_refl|exact Hs| |].
    + Z.div_mod_to_equations. lia.
    + intros x Hx. destruct (Z.ltb_spec x (1024 * (na / 1024 + 1))), (Z.ltb_spec x na); cbn [orb]; try done.
      * rewrite (absent_table (v_mem w) U pd D K um na x); [done..|]. Z.div_mod_to_equations. lia.
      * exfalso. Z.div_mod_to_equations. lia.
Qed.

Definition npages (sz : Z) : Z := (sz + 4095) / 4096.

Lemma npages_up sz : 0 ≤ sz ≤ KERNBASE → PGROUNDUP sz = 4096 * npages sz ∧ 0 ≤ npages sz ≤ upages.
Proof.
  unfold KERNBASE, npages, upages. intros Hs. rewrite PGROUNDUP_eq by lia. split; [done|].
  Z.div_mod_to_equations. lia.
Qed.

Lemma dealloc_ok U w pd D K um oldsz newsz :
  kmem_ok end_ U w → space (v_mem w) U pd D K um → 0 ≤ newsz → oldsz ≤ KERNBASE →
  ∃ w' U', deallocuvm end_ pd oldsz newsz w = Done (Z.min oldsz newsz) w' ∧ kmem_ok end_ U' w' ∧
    framed pd U (v_mem w) U' (v_mem w') ∧
    space (v_mem w') U' pd (λ x, D x && ((x <? npages newsz) || (oldsz <=? 4096 * x))) K um.
Proof.
  intros Hk Hs H0 Hold. unfold deallocuvm. destruct (Z.leb_spec oldsz newsz) as [Hle|Hlt].
  - exists w, U. rewrite Z.min_l by done. split_and!; [done|done|apply framed_refl|].
    eapply space_ext; [| | |exact Hs]; [|done..]. intros x Hx. unfold npages.
    destruct (Z.ltb_spec x ((newsz + 4095) / 4096)), (Z.leb_spec oldsz (4096 * x)); cbn [orb]; rewrite ?andb_true_r; try done.
    Z.div_mod_to_equations. lia.
  - destruct (npages_up newsz) as [-> Hnp]; [lia|]. mstep.
    destruct (dealloc_loop (Z.to_nat (oldsz / PGSIZE + 1)) U w pd D K um (npages newsz) oldsz)
      as (w' & U' & -> & Hk' & Hf & Hs'); [done|done|lia|done|unfold PGSIZE; Z.div_mod_to_equations; lia|].
    mstep. exists w', U'. rewrite Z.min_r by lia. done.
Qed.

(** Taking a page, and clearing it. *)
Lemma take_page U w pd D K um q w1 m1 :
  kmem_ok end_ (<[q := UPage]> U) w1 → v_mem w1 = v_mem w → U !! q = Some UFree → valid_uses U →
  space (v_mem w) U pd D K um → mem_ok m1 → (∀ x, ¬ in_page q x → m1 x = v_mem w x) →
  kmem_ok end_ (<[q := UPage]> U) (set_v_mem m1 w1) ∧ space m1 (<[q := UPage]> U) pd D K um ∧
  framed_but q pd (<[q := UPage]> U) (v_mem w) (<[q := UPage]> U) m1 ∧ users pd (v_mem w) m1.
Proof.
  intros Hk Hm Hq Hv Hs Hok Hout.
  assert (Hag : ∀ p u, U !! p = Some u → p ≠ q → agree (v_mem w) m1 p).
  { intros p u Hp Hne x Hx. apply Hout. by apply (pages_apart end_ p q); [by eapply Hv..|done|]. }
  assert (Hkeep : ∀ p u, U !! p = Some u → of_space pd p u → (∀ n, u = UUser pd n → D n = true) →
    <[q := UPage]> U !! p = Some u ∧ agree (v_mem w) m1 p).
  { intros p u Hp Ho _. assert (p ≠ q).
    { intros ->. rewrite Hq in Hp. injection Hp as <-. destruct Ho as [[_ ?]|[[? ?]|[? ?]]]; done. }
    split; [by rewrite lookup_insert_ne|by eapply Hag]. }
  split_and!.
  - apply (kmem_write_page end_ _ w1 q UPage); [done|apply lookup_insert_eq|done|done|by rewrite Hm].
  - by eapply space_frame.
  - intros p u Hp Hu Ho Hne. split; [done|]. rewrite lookup_insert_ne in Hp by done. by eapply Hag.
  - intros n Hn. rewrite (user_page_entry (v_mem w) m1); [done|]. by eapply frame_entry.
Qed.

Lemma memset_page m q : mem_ok m →
  mem_ok (KString.memset m q 0 (Z.to_nat PGSIZE)) ∧
  (∀ x, ¬ in_page q x → KString.memset m q 0 (Z.to_nat PGSIZE) x = m x) ∧
  (∀ x, in_page q x → KString.memset m q 0 (Z.to_nat PGSIZE) x = 0).
Proof.
  intros Hm. split; [by apply memset_ok|]. split; intros x Hx; rewrite memset_at by done;
    destruct (in_range q PGSIZE x) eqn:E; try done.
  - apply in_range_spec in E. by destruct Hx.
  - apply in_range_false in E. by destruct E.
Qed.

(** * allocuvm *)
Definition below (n x : Z) : bool := x <? n.

(** Undoing a partial growth. *)
Lemma dealloc_back U w pd K um oldsz newsz na :
  kmem_ok end_ U w → space (v_mem w) U pd (below na) K um → 0 ≤ oldsz → newsz < KERNBASE →
  npages oldsz ≤ na ≤ npages newsz →
  ∃ r w' U', deallocuvm end_ pd newsz oldsz w = Done r w' ∧ kmem_ok end_ U' w' ∧
    framed pd U (v_mem w) U' (v_mem w') ∧ space (v_mem w') U' pd (below (npages oldsz)) K um.
Proof.
  intros Hk Hs H0 Hlt Hna. destruct (dealloc_ok U w pd (below na) K um newsz oldsz) as (w' & U' & E & Hk' & Hf & Hs');
    [done|done|done|lia|]. eexists _, w', U'. split_and!; [done..|].
  eapply space_ext; [| | |exact Hs']; [|done..]. intros x Hx. cbn beta. unfold below.
  destruct (Z.ltb_spec x na), (Z.ltb_spec x (npages oldsz)), (Z.leb_spec newsz (4096 * x)); cbn; try lia.
  unfold npages in *. Z.div_mod_to_equations. lia.
Qed.

(** Giving back a page that is in no space. *)
Lemma drop_page U w pd D K um q :
  kmem_ok end_ U w → U !! q = Some UPage → space (v_mem w) U pd D K um →
  ∃ w', kfree end_ q w = Done tt w' ∧ kmem_ok end_ (<[q := UFree]> U) w' ∧
    framed_but q pd U (v_mem w) (<[q := UFree]> U) (v_mem w') ∧
    space (v_mem w') (<[q := UFree]> U) pd D K um.
Proof.
  intros Hk Hq Hs. assert (Hv : valid_uses U) by exact (ko_valid _ _ _ Hk).
  destruct (kfree_use end_ Hend U w q Hk) as (w' & E & Hk' & Hout & _); [by eapply Hv|congruence|].
  assert (Hag : ∀ p u, U !! p = Some u → p ≠ q → agree (v_mem w) (v_mem w') p).
  { intros p u Hp Hne x Hx. apply Hout. by apply (pages_apart end_ p q); [by eapply Hv..|done|]. }
  exists w'. split_and!; [done|done| |].
  - intros p u Hp Hu Ho Hne. split; [by rewrite lookup_insert_ne|by eapply Hag].
  - eapply space_frame; [|exact Hs]. intros p u Hp Ho _. assert (p ≠ q).
    { intros ->. rewrite Hq in Hp. injection Hp as <-. destruct Ho as [[_ ?]|[[? ?]|[? ?]]]; done. }
    split; [by rewrite lookup_insert_ne|by eapply Hag].
Qed.

Lemma page_div x k : 0 ≤ k < 4096 → (4096 * x + k) / 4096 = x.
Proof. intros. Z.div_mod_to_equations. lia. Qed.
Lemma page_mod x k : 0 ≤ k < 4096 → (4096 * x + k) mod 4096 = k.
Proof. intros. Z.div_mod_to_equations. lia. Qed.

(** One round of the loop of [allocuvm]: a new zeroed page is mapped, or the growth is undone. *)
Lemma alloc_page U w pd K um oldsz newsz na :
  kmem_ok end_ U w → space (v_mem w) U pd (below na) K um → 0 ≤ oldsz → newsz < KERNBASE →
  npages oldsz ≤ na ≤ npages newsz → 4096 * na < newsz →
  ∃ w2 U2, kmem_ok end_ U2 w2 ∧ framed pd U (v_mem w) U2 (v_mem w2) ∧
    ((∀ k, allocuvm_loop end_ (S k) pd oldsz newsz (4096 * na) w = Done 0 w2) ∧
      space (v_mem w2) U2 pd (below (npages oldsz)) K um ∨
     (∀ k, allocuvm_loop end_ (S k) pd oldsz newsz (4096 * na) w =
        allocuvm_loop end_ k pd oldsz newsz (4096 * (na + 1)) w2) ∧
      (users pd (v_mem w) (v_mem w2) ∧ user_page (v_mem w2) pd na = true) ∧
      space (v_mem w2) U2 pd (below (na + 1)) K (λ x, if x / 4096 =? na then 0 else um x)).
Proof.
  intros Hk Hs H0 Hlt Hna Hlt'. assert (Hv : valid_uses U) by exact (ko_valid _ _ _ Hk).
  assert (Hn : 0 ≤ na < upages).
  { unfold npages, upages, KERNBASE in *. Z.div_mod_to_equations. lia. }
  cbn [allocuvm_loop]. destruct (Z.ltb_spec (4096 * na) newsz); [|lia]. mstep.
  destruct (kalloc_use end_ Hend U w Hk) as (q & w1 & -> & Hm1 & [(-> & _ & Hk1)|[Hq Hk1]]); mstep.
  { cbn [Z.eqb]. unfold cprintf. mstep. set (w2 := set_v_console _ w1).
    destruct (dealloc_back U w2 pd K um oldsz newsz na) as (r & w' & U' & -> & Hk' & Hfr & Hs');
      [by destruct Hk1|by unfold w2; cbn; rewrite Hm1|done..|]. mstep.
    exists w', U'. cbn in Hfr. rewrite Hm1 in Hfr. split_and!; [done..|by left]. }
  pose proof (valid_range end_ Hend q (Hv _ _ Hq)) as Hr.
  destruct (Z.eqb_spec q 0); [unfold KERNBASE in Hr; lia|]. unfold memset, upd_mem. mstep. rewrite Hm1.
  destruct (memset_page (v_mem w) q (ko_mem _ _ _ Hk)) as (Hok & Hout & Hzero).
  set (m1 := KString.memset (v_mem w) q 0 (Z.to_nat PGSIZE)) in *.
  destruct (take_page U w pd (below na) K um q w1 m1) as (Hk2 & Hs2 & Hf2 & Hus2); [by apply Hk1|done..|].
  destruct (mappages_user (<[q := UPage]> U) (set_v_mem m1 w1) pd (below na) K um na q (Z.lor PTE_W PTE_U))
    as (r & w2 & U2 & -> & Hk3 & Hres); [done|done|done|unfold below; lia|apply lookup_insert_eq|done|done|].
  mstep. cbn [v_mem set_v_mem] in Hres. destruct Hres as [(-> & Hkp & Hs3)|(-> & Hfb & [Hus3 Hpg] & Hs3)]; cbn [Z.ltb Z.compare].
  - unfold cprintf. mstep. set (w3 := set_v_console _ w2).
    destruct (dealloc_back U2 w3 pd K um oldsz newsz na) as (r & w4 & U4 & -> & Hk4 & Hf4 & Hs4);
      [by destruct Hk3|done..|]. mstep.
    assert (Hq4 : U4 !! q = Some UPage).
    { apply (Hf4 q UPage); [|done|intros [[_ ?]|[[? ?]|[? ?]]]; done]. apply Hkp; [apply lookup_insert_eq|done]. }
    destruct (drop_page U4 w4 pd _ K um q Hk4 Hq4 Hs4) as (w5 & -> & Hk5 & Hf5 & Hs5). mstep.
    exists w5, (<[q := UFree]> U4). split_and!; [done| |by left]. apply (framed_kalloc q); [done|].
    eapply framed_but_trans; [exact Hf2|]. eapply framed_but_trans; [by apply framed_weaken, kept_framed|].
    eapply framed_but_trans; [by apply framed_weaken|done].
  - rewrite (u32_id (4096 * na + PGSIZE)) by (unfold upages, PGSIZE in *; lia).
    replace (4096 * na + PGSIZE) with (4096 * (na + 1)) by (unfold PGSIZE; lia).
    exists w2, U2. split_and!; [done| |right; split; [done|split; [split; [|by apply Hpg]|]]].
    + apply (framed_kalloc q); [done|]. by eapply framed_but_trans.
    + intros n' Hn' Hu. by apply Hus3, Hus2.
    + eapply space_ext; [| | |exact Hs3]; [intros x Hx; unfold below; lia|done|].
      intros x k' Hx HD Hk'. cbn beta. rewrite page_div by done. destruct (Z.eqb_spec x na); [|done].
      symmetry. apply Hzero. rewrite page_mod by done. unfold in_page. lia.
Qed.

Lemma alloc_loop k U w pd K um oldsz newsz na :
  kmem_ok end_ U w → space (v_mem w) U pd (below na) K um → 0 ≤ oldsz → newsz < KERNBASE →
  npages oldsz ≤ na ≤ npages newsz → newsz ≤ 4096 * (na + Z.of_nat k) →
  ∃ r w' U', allocuvm_loop end_ k pd oldsz newsz (4096 * na) w = Done r w' ∧ kmem_ok end_ U' w' ∧
    framed pd U (v_mem w) U' (v_mem w') ∧
    ((r = 0 ∧ space (v_mem w') U' pd (below (npages oldsz)) K um) ∨
     (r = newsz ∧
      (users pd (v_mem w) (v_mem w') ∧ ∀ n, na ≤ n < npages newsz → user_page (v_mem w') pd n = true) ∧
      space (v_mem w') U' pd (below (npages newsz)) K (λ x, if x / 4096 <? na then um x else 0))).
Proof.
  intros Hk0 Hs0 H0 Hlt. revert U w um na Hk0 Hs0.
  induction k as [|k IH]; intros U w um na Hk Hs Hna Hf.
  all: destruct (Z.lt_ge_cases (4096 * na) newsz) as [Hin|Hend']; [try lia|].
  1, 3: exists newsz, w, U; cbn [allocuvm_loop]; destruct (Z.ltb_spec (4096 * na) newsz); [lia|];
    assert (na = npages newsz) as -> by (unfold npages in *; Z.div_mod_to_equations; lia);
    split_and!; [done..|apply framed_refl|]; right; split; [done|]; split; [split; [apply users_refl|lia]|]; eapply space_ext; [| | |exact Hs]; [done..|];
    intros x k' Hx HD Hk'; cbn beta; rewrite page_div by done; unfold below in HD; by rewrite HD.
  destruct (alloc_page U w pd K um oldsz newsz na) as (w2 & U2 & Hk2 & Hf2 & [[E Hs2]|(E & [Hus2 Hpg] & Hs2)]); [done..| |].
  - exists 0, w2, U2. split_and!; [done..|by left].
  - rewrite E. destruct (IH U2 w2 _ (na + 1) Hk2 Hs2) as (r & w' & U' & -> & Hk' & Hfr & Hr').
    { split; [lia|]. unfold npages in *. Z.div_mod_to_equations. lia. }
    { lia. }
    exists r, w', U'. split_and!; [done|done|by eapply framed_trans|].
    destruct Hr' as [[-> Hs']|(-> & [Hus' Hpg'] & Hs')]; [left; split; [done|]|right; split; [done|split]].
    2: { split; [intros n Hn Hu; by apply Hus', Hus2|]. intros n Hn. destruct (decide (n = na)) as [->|]; [|apply Hpg'; lia].
         apply Hus'; [|done]. unfold npages, upages, KERNBASE in *. Z.div_mod_to_equations. lia. }
    all: (eapply space_ext; [| | |exact Hs']; [done..|]); intros x k' Hx HD Hk''; cbn beta; rewrite page_div by done;
      unfold below in HD.
    + destruct (Z.eqb_spec x na); [lia|done].
    + destruct (Z.ltb_spec x na), (Z.ltb_spec x (na + 1)), (Z.eqb_spec x na); try lia; done.
Qed.

(** * freevm *)
Lemma free_tables k i U w pd :
  kmem_ok end_ U w → U !! pd = Some UDir → (i + k)%nat = 1024%nat →
  (∀ j, Z.of_nat i ≤ j < 1024 → has (pde (v_mem w) pd j) PTE_P = true →
    U !! tab (pde (v_mem w) pd j) = Some (UTab pd j)) →
  ∃ w' U', for_each (seq i k) (λ i,
      e <- load (pd + 4 * Z.of_nat i) ;; when (has e PTE_P) (kfree end_ (P2V (PTE_ADDR e)))) w = Done tt w' ∧
    kmem_ok end_ U' w' ∧ U' !! pd = Some UDir ∧ framed pd U (v_mem w) U' (v_mem w').
Proof.
  revert i U w. induction k as [|k IH]; intros i U w Hk Hd Hik Ht; cbn [seq].
  { exists w, U. split_and!; [done..|apply framed_refl]. }
  assert (Hv : valid_uses U) by exact (ko_valid _ _ _ Hk).
  rewrite for_each_cons. unfold load at 1. mstep. fold (pde (v_mem w) pd (Z.of_nat i)).
  destruct (has (pde (v_mem w) pd (Z.of_nat i)) PTE_P) eqn:HP; cbn [when]; mstep.
  2: { apply IH; [done|done|lia|]. intros j Hj. apply Ht. lia. }
  fold (tab (pde (v_mem w) pd (Z.of_nat i))). set (t := tab _).
  pose proof (Ht (Z.of_nat i) ltac:(lia) HP) as Htu. fold t in Htu.
  destruct (kfree_use end_ Hend U w t Hk) as (w1 & -> & Hk1 & Hout & _); [by eapply Hv|congruence|]. cbn [rbind].
  assert (Hag : ∀ p u, U !! p = Some u → p ≠ t → agree (v_mem w) (v_mem w1) p).
  { intros p u Hp Hne x Hx. apply Hout. by apply (pages_apart end_ p t); [by eapply Hv..|done|]. }
  assert (Hpd : pd ≠ t) by congruence.
  assert (Hpde : ∀ j, 0 ≤ j < 1024 → pde (v_mem w1) pd j = pde (v_mem w) pd j).
  { intros j Hj. apply load32_agree; [by eapply Hag|lia..]. }
  destruct (IH (S i) (<[t := UFree]> U) w1) as (w' & U' & E & Hk' & Hd' & Hf'); [done|by rewrite lookup_insert_ne|lia| |].
  - intros j Hj. rewrite Hpde by lia. intros HPj. pose proof (Ht j ltac:(lia) HPj) as Hj'.
    rewrite lookup_insert_ne; [done|]. intros Eq. rewrite <- Eq, Htu in Hj'. injection Hj' as Hj'. lia.
  - exists w', U'. split_and!; [done..|]. eapply framed_trans; [|exact Hf']. intros p u Hp Hu Ho.
    assert (p ≠ t).
    { intros ->. apply Ho. rewrite Htu in Hp. injection Hp as <-. right. left. eauto. }
    split; [by rewrite lookup_insert_ne|by eapply Hag].
Qed.

Lemma freevm_ok U w pd D K um :
  kmem_ok end_ U w → space (v_mem w) U pd D K um →
  ∃ w' U', freevm end_ pd w = Done tt w' ∧ kmem_ok end_ U' w' ∧ framed pd U (v_mem w) U' (v_mem w').
Proof.
  intros Hk Hs. pose proof (sp_dir _ _ _ _ _ _ Hs) as Hd.
  pose proof (valid_range end_ Hend pd (ko_valid _ _ _ Hk _ _ Hd)) as Hr.
  unfold freevm. mstep. destruct (Z.eqb_spec pd 0); [unfold KERNBASE in Hr; lia|]. mstep.
  destruct (dealloc_ok U w pd D K um KERNBASE 0) as (w1 & U1 & -> & Hk1 & Hf1 & Hs1); [done|done|done|done|]. mstep.
  destruct (free_tables 1024 0 U1 w1 pd) as (w2 & U2 & E & Hk2 & Hd2 & Hf2);
    [done|apply (sp_dir _ _ _ _ _ _ Hs1)|done|intros j Hj; apply (sp_tab _ _ _ _ _ _ Hs1); lia|].
  revert E. mstep. intros E. change NPDENTRIES with 1024%nat. rewrite E. mstep.
  destruct (kfree_use end_ Hend U2 w2 pd Hk2) as (w3 & -> & Hk3 & Hout & _);
    [by eapply (ko_valid _ _ _ Hk2)|congruence|].
  exists w3, (<[pd := UFree]> U2). split_and!; [done..|].
  eapply framed_trans; [exact Hf1|]. eapply framed_trans; [exact Hf2|]. intros p u Hp Hu Ho.
  assert (p ≠ pd). { intros ->. apply Ho. left. split; [done|congruence]. }
  split; [by rewrite lookup_insert_ne|]. intros x Hx. apply Hout.
  by apply (pages_apart end_ p pd); [by eapply (ko_valid _ _ _ Hk2)..|done|].
Qed.

(** * copyuvm *)
Lemma flags_ok e : has e PTE_W = true → 0 ≤ PTE_FLAGS e < 4096 ∧ has (PTE_FLAGS e) PTE_W = true.
Proof.
  intros HW. unfold PTE_FLAGS. split.
  - change 4095 with (Z.ones 12). rewrite Z.land_ones by done. by apply Z.mod_pos_bound.
  - unfold PTE_W in *. change 2 with (2^1) in *. rewrite has_bit in * by done. by rewrite Z.land_spec, HW.
Qed.

Lemma memmove_page m q s : mem_ok m →
  mem_ok (KString.memmove m q s (Z.to_nat PGSIZE)) ∧
  (∀ x, ¬ in_page q x → KString.memmove m q s (Z.to_nat PGSIZE) x = m x) ∧
  (∀ k, 0 ≤ k < 4096 → KString.memmove m q s (Z.to_nat PGSIZE) (q + k) = m (s + k)).
Proof.
  intros Hm. assert (E : ∀ x, KString.memmove m q s (Z.to_nat PGSIZE) x = writes m q (bytes m s (Z.to_nat PGSIZE)) x)
    by (apply memmove_writes).
  split; [intros x; rewrite E; by apply writes_ok|]. split.
  - intros x Hx. rewrite E. apply writes_out. rewrite length_bytes. by unfold in_page, PGSIZE in *.
  - intros k Hk. rewrite E. replace (q + k) with (q + Z.of_nat (Z.to_nat k)) by lia.
    rewrite (writes_in _ _ _ _ (m (s + k))); [apply u8_id, Hm|].
    rewrite bytes_lookup by (unfold PGSIZE; lia). do 2 f_equal. lia.
Qed.

(** One round of the loop of [copyuvm]: a page of the parent is copied and mapped, or
    the copy is given up. *)
Lemma copy_page U w pd d Kd sz K um i :
  kmem_ok end_ U w → space (v_mem w) U pd (below (npages sz)) K um →
  space (v_mem w) U d (below i) Kd um → d ≠ pd → sz ≤ KERNBASE → 0 ≤ i → 4096 * i < sz →
  ∃ w2 U2, kmem_ok end_ U2 w2 ∧ framed d U (v_mem w) U2 (v_mem w2) ∧
    ((∀ k, copyuvm_loop end_ (S k) pd d sz (4096 * i) w = Done 0 w2) ∨
     (∀ k, copyuvm_loop end_ (S k) pd d sz (4096 * i) w = copyuvm_loop end_ k pd d sz (4096 * (i + 1)) w2) ∧
      space (v_mem w2) U2 d (below (i + 1)) Kd um).
Proof.
  intros Hk Hs Hd Hne Hsz Hi Hlt. assert (Hv : valid_uses U) by exact (ko_valid _ _ _ Hk).
  assert (Hn : 0 ≤ i < upages) by (unfold upages, KERNBASE in *; lia).
  assert (HD : below (npages sz) i = true).
  { unfold below. apply Z.ltb_lt. unfold npages. Z.div_mod_to_equations. lia. }
  destruct (sp_user _ _ _ _ _ _ Hs i Hn HD) as (e & He & HP & HW & Hu & _ & Hc).
  cbn [copyuvm_loop]. destruct (Z.ltb_spec (4096 * i) sz); [|lia].
  mstep. rewrite walk_false by (unfold upages in Hn; lia).
  replace (4096 * i / 4096) with i by (Z.div_mod_to_equations; lia). mstep.
  unfold entry in He. destruct (pte_addr (v_mem w) pd i) as [a|] eqn:Ha; [|done]. cbn in He. injection He as He.
  assert (a ≠ 0) by (eapply pte_nonzero; [done|exact Hs| |done]; unfold upages in *; lia).
  destruct (Z.eqb_spec a 0); [done|]. unfold load. mstep. rewrite He, HP. mstep.
  assert (Give_up : ∀ U' w' D', kmem_ok end_ U' w' → framed d U (v_mem w) U' (v_mem w') →
    space (v_mem w') U' d D' Kd um → ∃ w2 U2, kmem_ok end_ U2 w2 ∧ framed d U (v_mem w) U2 (v_mem w2) ∧
      freevm end_ d w' = Done tt w2).
  { intros U' w' D' Hk' Hf' Hs'. destruct (freevm_ok U' w' d D' Kd um Hk' Hs') as (w2 & U2 & E & Hk2 & Hf2).
    exists w2, U2. split_and!; [done|by eapply framed_trans|done]. }
  destruct (kalloc_use end_ Hend U w Hk) as (q & w1 & -> & Hm1 & [(-> & _ & Hk1)|[Hq Hk1]]); mstep.
  { cbn [Z.eqb]. destruct (Give_up U w1 (below i)) as (w2 & U2 & Hk2 & Hf2 & E);
      [done|rewrite Hm1; apply framed_refl|by rewrite Hm1|].
    exists w2, U2. split_and!; [done..|left]. intros k. mstep. by rewrite E. }
  pose proof (valid_range end_ Hend q (Hv _ _ Hq)) as Hr.
  destruct (Z.eqb_spec q 0); [unfold KERNBASE in Hr; lia|]. unfold memmove, upd_mem. mstep. rewrite Hm1.
  fold (tab e). destruct (memmove_page (v_mem w) q (tab e) (ko_mem _ _ _ Hk)) as (Hok & Hout & Hcopy).
  set (m1 := KString.memmove (v_mem w) q (tab e) (Z.to_nat PGSIZE)) in *.
  destruct (take_page U w d (below i) Kd um q w1 m1) as (Hk2 & Hs2 & Hf2 & _); [by apply Hk1|done..|].
  destruct (flags_ok e HW) as [Hfl HflW].
  destruct (mappages_user (<[q := UPage]> U) (set_v_mem m1 w1) d (below i) Kd um i q (PTE_FLAGS e))
    as (r & w2 & U2 & -> & Hk3 & Hres); [done|done|done|unfold below; lia|apply lookup_insert_eq|done|done|].
  mstep. cbn [v_mem set_v_mem] in Hres. destruct Hres as [(-> & Hkp & Hs3)|(-> & Hfb & _ & Hs3)]; cbn [Z.ltb Z.compare].
  - destruct (Give_up U2 w2 (below i)) as (w3 & U3 & Hk4 & Hf4 & E); [done| |done|].
    { apply (framed_kalloc q); [done|]. eapply framed_but_trans; [exact Hf2|]. by apply framed_weaken, kept_framed. }
    exists w3, U3. split_and!; [done..|left]. intros k. mstep. by rewrite E.
  - rewrite (u32_id (4096 * i + PGSIZE)) by (unfold upages, PGSIZE in *; lia).
    replace (4096 * i + PGSIZE) with (4096 * (i + 1)) by (unfold PGSIZE; lia).
    exists w2, U2. split_and!; [done| |right; split; [done|]].
    + apply (framed_kalloc q); [done|]. by eapply framed_but_trans.
    + eapply space_ext; [| | |exact Hs3]; [intros x Hx; unfold below; lia|done|].
      intros x k' Hx HDx Hk'. cbn beta. rewrite page_div by done. destruct (Z.eqb_spec x i) as [->|]; [|done].
      rewrite page_mod, Hcopy, Hc by done. done.
Qed.

Lemma copy_loop k U w pd d Kd sz K um i :
  kmem_ok end_ U w → space (v_mem w) U pd (below (npages sz)) K um →
  space (v_mem w) U d (below i) Kd um → d ≠ pd → sz ≤ KERNBASE → 0 ≤ i ≤ npages sz →
  sz ≤ 4096 * (i + Z.of_nat k) →
  ∃ r w' U', copyuvm_loop end_ k pd d sz (4096 * i) w = Done r w' ∧ kmem_ok end_ U' w' ∧
    framed d U (v_mem w) U' (v_mem w') ∧
    (r = 0 ∨ r = d ∧ space (v_mem w') U' d (below (npages sz)) Kd um).
Proof.
  intros Hk0 Hs0 Hd0 Hne Hsz. revert U w i Hk0 Hs0 Hd0.
  induction k as [|k IH]; intros U w i Hk Hs Hd Hi Hf.
  all: destruct (Z.lt_ge_cases (4096 * i) sz) as [Hin|Hout]; [try lia|].
  1, 3: exists d, w, U; cbn [copyuvm_loop]; destruct (Z.ltb_spec (4096 * i) sz); [lia|];
    assert (i = npages sz) as -> by (unfold npages in *; Z.div_mod_to_equations; lia);
    split_and!; [done..|apply framed_refl|]; by right.
  destruct (copy_page U w pd d Kd sz K um i) as (w2 & U2 & Hk2 & Hf2 & [E|[E Hs2]]); [done..|lia|done| |].
  - exists 0, w2, U2. split_and!; [done..|by left].
  - rewrite E. destruct (IH U2 w2 (i + 1)) as (r & w' & U' & -> & Hk' & Hfr & Hr'); [done| |done| |lia|].
    + by eapply framed_space.
    + unfold npages in *. Z.div_mod_to_equations. lia.
    + exists r, w', U'. split_and!; [done|done|by eapply framed_trans|done].
Qed.

(** * Using the memory of a space *)
Lemma translate_eq m pd va : 0 ≤ va < 2^32 → translate m pd va = entry m pd (va / 4096).
Proof.
  intros Hva. unfold translate, entry, pte_addr, pde, tab. rewrite PDX_eq, PTX_eq by done.
  by destruct (has _ PTE_P).
Qed.

Lemma writes_shift m um a b off bs k :
  0 ≤ off → m (a + k) = um (b + k) → writes m (a + off) bs (a + k) = writes um (b + off) bs (b + k).
Proof.
  intros H0 Hk. destruct (decide (off ≤ k < off + Z.of_nat (length bs))) as [Hin|Hout].
  - destruct (lookup_lt_is_Some_2 bs (Z.to_nat (k - off))) as [v Hv]; [lia|].
    replace (a + k) with (a + off + Z.of_nat (Z.to_nat (k - off))) by lia.
    replace (b + k) with (b + off + Z.of_nat (Z.to_nat (k - off))) by lia.
    by rewrite !(writes_in _ _ _ _ v).
  - rewrite !writes_out by lia. done.
Qed.

Lemma writes_other um n off bs n' k :
  n' ≠ n → 0 ≤ off → off + Z.of_nat (length bs) ≤ 4096 → 0 ≤ k < 4096 →
  writes um (4096 * n + off) bs (4096 * n' + k) = um (4096 * n' + k).
Proof. intros. apply writes_out. lia. Qed.

(** Stores into a user page. *)
Lemma user_write U w pd D K um n e off bs :
  kmem_ok end_ U w → space (v_mem w) U pd D K um → 0 ≤ n < upages → D n = true →
  entry (v_mem w) pd n = Some e → 0 ≤ off → off + Z.of_nat (length bs) ≤ 4096 →
  let m' := writes (v_mem w) (tab e + off) bs in
  kmem_ok end_ U (set_v_mem m' w) ∧ framed pd U (v_mem w) U m' ∧
  space m' U pd D K (writes um (4096 * n + off) bs) ∧
  ∀ x, 0 ≤ x < 2 * upages → user_page m' pd x = user_page (v_mem w) pd x.
Proof.
  intros Hk Hs Hn HD He H0 Hlen m'. assert (Hv : valid_uses U) by exact (ko_valid _ _ _ Hk).
  destruct (sp_user _ _ _ _ _ _ Hs n Hn HD) as (e' & He' & _ & _ & Hu & _ & Hc).
  rewrite He in He'. injection He' as <-.
  assert (Hout : ∀ x, ¬ in_page (tab e) x → m' x = v_mem w x).
  { intros x Hx. apply writes_out. unfold in_page in Hx. lia. }
  assert (Hag : ∀ p u, U !! p = Some u → u ≠ UUser pd n → agree (v_mem w) m' p).
  { intros p u Hp Hne x Hx. apply Hout. by apply (uses_apart U p (tab e) u (UUser pd n)). }
  pose proof Hs as [A B C E F].
  assert (Hpde : ∀ i, 0 ≤ i < 1024 → pde m' pd i = pde (v_mem w) pd i).
  { intros i Hi. apply load32_agree; [by apply (Hag pd UDir)|lia..]. }
  assert (Hent : ∀ x, 0 ≤ x < 2 * upages → entry m' pd x = entry (v_mem w) pd x).
  { intros x Hx. destruct (page_number x Hx). unfold entry, pte_addr. rewrite Hpde by done.
    destruct (has (pde (v_mem w) pd (x / 1024)) PTE_P) eqn:HP; [|done]. cbn. f_equal.
    apply load32_agree; [|lia..]. by eapply Hag; [by apply B|]. }
  split_and!.
  - apply (kmem_write_page end_ U w (tab e) (UUser pd n)); [done..|apply writes_ok, (ko_mem _ _ _ Hk)|done].
  - intros p u Hp Hpu Ho. split; [done|]. apply (Hag p u Hp). intros ->. apply Ho. right. right. eauto.
  - split; [done| | | |].
    + intros i Hi. rewrite Hpde by done. by apply B.
    + intros x Hx HDx. rewrite Hent by lia. destruct (C x Hx HDx) as (e' & H1 & H2 & H3 & H4 & H5 & H6).
      exists e'. split_and!; try done. intros k Hk'. destruct (decide (x = n)) as [->|Hne].
      * rewrite H1 in He. injection He as ->. apply writes_shift; [done|]. auto.
      * rewrite writes_other by done. rewrite <- H6 by done.
        apply (Hag (tab e') (UUser pd x)); [done|congruence|unfold in_page; lia].
    + intros x e' Hx HDx. rewrite Hent by lia. by apply E.
    + intros x e' Hx HDx. rewrite Hent by (unfold upages in *; lia). by apply F.
  - intros x Hx. by apply user_page_entry, Hent.
Qed.

Lemma page_of_va va sz : 0 ≤ va < sz → sz ≤ KERNBASE →
  0 ≤ va / 4096 < upages ∧ below (npages sz) (va / 4096) = true.
Proof.
  unfold KERNBASE, upages, below, npages. intros. rewrite Z.ltb_lt. Z.div_mod_to_equations. lia.
Qed.

Lemma va_split va : 4096 * (va / 4096) + va mod 4096 = va.
Proof. symmetry. apply Z.div_mod. lia. Qed.

Lemma read_ok m U w pd K um sz va :
  v_mem w = m → space m U pd (below (npages sz)) K um → 0 ≤ va < sz → sz ≤ KERNBASE →
  mmu_read w pd va = Some (um va).
Proof.
  intros <- Hs Hva Hsz. destruct (page_of_va va sz Hva Hsz) as [Hn HD]. unfold mmu_read.
  rewrite translate_eq by (unfold KERNBASE in Hsz; lia).
  destruct (sp_user _ _ _ _ _ _ Hs _ Hn HD) as (e & -> & HP & _ & _ & _ & Hc). cbn. rewrite HP. f_equal.
  change PGSIZE with 4096. rewrite <- (va_split va) at 2. apply Hc. by apply Z.mod_pos_bound.
Qed.

Lemma write_ok U w pd K um sz va v :
  kmem_ok end_ U w → space (v_mem w) U pd (below (npages sz)) K um → 0 ≤ va < sz → sz ≤ KERNBASE →
  ∃ w', mmu_write w pd va v = Some w' ∧ kmem_ok end_ U w' ∧ framed pd U (v_mem w) U (v_mem w') ∧
    space (v_mem w') U pd (below (npages sz)) K (upd um va v).
Proof.
  intros Hk Hs Hva Hsz. destruct (page_of_va va sz Hva Hsz) as [Hn HD]. unfold mmu_write.
  rewrite translate_eq by (unfold KERNBASE in Hsz; lia).
  destruct (sp_user _ _ _ _ _ _ Hs _ Hn HD) as (e & He & HP & HW & _). rewrite He. cbn. rewrite HP, HW. cbn [andb].
  pose proof (Z.mod_pos_bound va 4096 ltac:(lia)) as Hm.
  destruct (user_write U w pd (below (npages sz)) K um (va / 4096) e (va mod 4096) [v]) as (H1 & H2 & H3 & _); [done..|lia|cbn; lia|].
  eexists. split; [done|]. split; [exact H1|]. split; [exact H2|]. cbn in H3. rewrite va_split in H3. exact H3.
Qed.

Lemma uva2ka_ok U w pd K um sz va :
  kmem_ok end_ U w → space (v_mem w) U pd (below (npages sz)) K um → 0 ≤ va < sz → sz ≤ KERNBASE →
  ∃ e, entry (v_mem w) pd (va / 4096) = Some e ∧ tab e ≠ 0 ∧
    uva2ka pd (PGROUNDDOWN va) w = Done (if has e PTE_U then tab e else 0) w.
Proof.
  intros Hk Hs Hva Hsz. destruct (page_of_va va sz Hva Hsz) as [Hn HD].
  assert (Hv : valid_uses U) by exact (ko_valid _ _ _ Hk).
  destruct (sp_user _ _ _ _ _ _ Hs _ Hn HD) as (e & He & HP & _ & Hu & _). exists e. split; [done|].
  pose proof (valid_range end_ Hend _ (Hv _ _ Hu)) as Hr. split; [unfold KERNBASE in Hr; lia|].
  unfold uva2ka. mstep. rewrite down_eq, walk_false by (unfold upages in Hn; lia). mstep.
  replace (4096 * (va / 4096) / 4096) with (va / 4096) by (by rewrite Z.mul_comm, Z.div_mul).
  unfold entry in He. destruct (pte_addr (v_mem w) pd (va / 4096)) as [a|] eqn:Ha; [|done]. cbn in He. injection He as He.
  assert (a ≠ 0) by (eapply pte_nonzero; [done|exact Hs| |done]; unfold upages in *; lia).
  destruct (Z.eqb_spec a 0); [done|]. unfold load. mstep. rewrite He, HP. cbn [negb].
  by destruct (has e PTE_U).
Qed.

Lemma copyout_loop_ok k U w pd K um sz va bs :
  kmem_ok end_ U w → space (v_mem w) U pd (below (npages sz)) K um → mem_ok um →
  0 ≤ va → va + Z.of_nat (length bs) ≤ sz → sz ≤ KERNBASE → (length bs < k)%nat →
  ∃ r w' um', copyout_loop k pd va bs w = Done r w' ∧ kmem_ok end_ U w' ∧
    framed pd U (v_mem w) U (v_mem w') ∧ space (v_mem w') U pd (below (npages sz)) K um' ∧ mem_ok um' ∧
    (∀ n, 0 ≤ n < 2 * upages → user_page (v_mem w') pd n = user_page (v_mem w) pd n) ∧
    (r = 0 ∧ um' = writes um va bs ∨
     r = -1 ∧ ∃ va', va ≤ va' < va + Z.of_nat (length bs) ∧ user_page (v_mem w) pd (va' / 4096) = false).
Proof.
  intros Hk0 Hs0 Hm0 H00 Hlen0 Hsz. revert U w um va bs Hk0 Hs0 Hm0 H00 Hlen0.
  induction k as [|k IH]; intros U w um va bs Hk Hs Hm H0 Hlen Hf; [lia|].
  destruct bs as [|b bs]; cbn [copyout_loop].
  { exists 0, w, um. split_and!; [done..|apply framed_refl|done|done|done|by left]. }
  mstep. cbn [length] in Hlen. assert (Hva : 0 ≤ va < sz) by lia.
  destruct (uva2ka_ok U w pd K um sz va) as (e & He & Hne & ->); [done..|]. mstep.
  destruct (has e PTE_U) eqn:HU; cbn [Z.eqb]; mstep.
  2: { exists (-1), w, um. split_and!; [done..|apply framed_refl|done|done|done|right]. split; [done|]. exists va.
       split; [cbn [length]; lia|]. unfold user_page. by rewrite He, HU, andb_false_r. }
  destruct (Z.eqb_spec (tab e) 0); [done|]. rewrite down_eq.
  pose proof (va_split va) as Hsplit. pose proof (Z.mod_pos_bound va 4096 ltac:(lia)) as Hmod.
  replace (va - 4096 * (va / 4096)) with (va mod 4096) by lia. change PGSIZE with 4096.
  set (room := 4096 - va mod 4096). set (c := if Z.of_nat (length (b :: bs)) <? room then length (b :: bs) else Z.to_nat room).
  assert (Hc : (1 ≤ c ≤ length (b :: bs))%nat ∧ Z.of_nat c ≤ room ∧ (Z.of_nat c < room → c = length (b :: bs))).
  { unfold c. destruct (Z.ltb_spec (Z.of_nat (length (b :: bs))) room); cbn [length] in *; lia. }
  clearbody c. destruct Hc as ([Hc1 Hc2] & Hc3 & Hc4).
  destruct (page_of_va va sz Hva Hsz) as [Hn HD]. unfold upd_mem. mstep.
  destruct (user_write U w pd (below (npages sz)) K um (va / 4096) e (va mod 4096) (take c (b :: bs)))
    as (Hk1 & Hf1 & Hs1 & Hus1); [done..|lia|rewrite length_take; lia|].
  rewrite Hsplit in Hs1. set (w1 := set_v_mem _ w) in *.
  rewrite u32_id by (unfold KERNBASE in Hsz; lia).
  assert (Hm1 : mem_ok (writes um va (take c (b :: bs)))) by (by apply writes_ok).
  destruct (decide (c = length (b :: bs))) as [Ec|Nc].
  - rewrite drop_ge by lia. exists 0, w1, (writes um va (take c (b :: bs))).
    split; [by destruct k|]. split_and!; [exact Hk1|exact Hf1|exact Hs1|exact Hm1|exact Hus1|left].
    split; [done|]. by rewrite take_ge by lia.
  - assert (Ecr : Z.of_nat c = room) by (destruct (Z.lt_trichotomy (Z.of_nat c) room) as [?|[?|?]]; [by destruct Nc; apply Hc4|done|lia]).
    assert (Eva : 4096 * (va / 4096) + 4096 = va + Z.of_nat (length (take c (b :: bs)))).
    { rewrite length_take. unfold room in Ecr. lia. }
    rewrite Eva.
    destruct (IH U w1 (writes um va (take c (b :: bs))) (va + Z.of_nat (length (take c (b :: bs)))) (drop c (b :: bs)))
      as (r & w' & um' & E & Hk' & Hf' & Hs' & Hm' & Hus' & Hr); [done|done|done|lia| | |].
    + rewrite length_take, length_drop. cbn [length] in *. lia.
    + rewrite length_drop. cbn [length] in *. lia.
    + exists r, w', um'. split_and!; [done|done|by eapply framed_trans|done|done| |].
      { intros n' Hn'. rewrite Hus' by done. by apply Hus1. }
      rewrite <- writes_app, take_drop in Hr. destruct Hr as [Hr|(-> & va' & Hva' & Hu')]; [by left|]. right. split; [done|].
      exists va'. rewrite length_take, length_drop in Hva'. split; [cbn [length] in *; lia|]. rewrite <- Hu'. symmetry.
      apply Hus1. unfold KERNBASE, upages in *. cbn [length] in *. Z.div_mod_to_equations. lia.
Qed.
End Tables.

(** * The contract *)
Section Contract.
Variables end_ data : Z.
Hypothesis Hend : KERNBASE < end_.
Hypothesis Hdata : data mod 4096 = 0 ∧ KERNLINK < data < KERNBASE + PHYSTOP.
Implicit Types (g : gmap Z vobj) (w : vmst).

Definition obj_ok (m : mem) (U : gmap Z use) (a : Z) (o : vobj) : Prop :=
  match o with
  | OPage => U !! a = Some UPage
  | OSpace sz um => 0 ≤ sz ≤ KERNBASE ∧ mem_ok um ∧ space m U a (below (npages sz)) (λ _, true) um
  end.
(** The objects of [g] are live. *)
Definition vm_ok g w : Prop :=
  ∃ U, kmem_ok end_ U w ∧ ∀ a o, g !! a = Some o → obj_ok (v_mem w) U a o.

Lemma obj_used m U a o : obj_ok m U a o → ∃ u, U !! a = Some u ∧ u ≠ UFree.
Proof. destruct o as [|sz um]; [by eexists|]. intros (_ & _ & Hs). exists UDir. by split; [apply (sp_dir _ _ _ _ _ _ Hs)|]. Qed.

Lemma obj_framed pd U m U' m' a o :
  framed pd U m U' m' → a ≠ pd → obj_ok m U a o → obj_ok m' U' a o.
Proof.
  intros Hf Hne. destruct o as [|sz um]; cbn.
  - intros Ha. apply (Hf a UPage Ha); [done|]. intros [[_ ?]|[[? ?]|[? ?]]]; done.
  - intros (H1 & H2 & Hs). split; [done|]. split; [done|]. by eapply framed_space.
Qed.

(** An operation on the object at [pd] that replaces it by [o]. *)
Lemma inv_step g U w U' w' pd o :
  (∀ a o, g !! a = Some o → obj_ok (v_mem w) U a o) → framed pd U (v_mem w) U' (v_mem w') →
  kmem_ok end_ U' w' → obj_ok (v_mem w') U' pd o → vm_ok (<[pd := o]> g) w'.
Proof.
  intros Hg Hf Hk Ho. exists U'. split; [done|]. intros a o' Ha.
  destruct (decide (a = pd)) as [->|Hne]; [rewrite lookup_insert_eq in Ha; by injection Ha as <-|].
  rewrite lookup_insert_ne in Ha by done. by eapply obj_framed; [..|apply Hg].
Qed.

Lemma inv_delete g U w U' w' pd :
  (∀ a o, g !! a = Some o → obj_ok (v_mem w) U a o) → framed pd U (v_mem w) U' (v_mem w') →
  kmem_ok end_ U' w' → vm_ok (delete pd g) w'.
Proof.
  intros Hg Hf Hk. exists U'. split; [done|]. intros a o' [Hne Ha]%lookup_delete_Some.
  by eapply obj_framed; [..|apply Hg].
Qed.

Lemma inv_keep g U w U' w' pd :
  (∀ a o, g !! a = Some o → obj_ok (v_mem w) U a o) → framed pd U (v_mem w) U' (v_mem w') →
  kmem_ok end_ U' w' → g !! pd = None → vm_ok g w'.
Proof. intros Hg Hf Hk Hn. rewrite <- (delete_id g pd) by done. by eapply inv_delete. Qed.

Lemma fresh_free g U w a :
  (∀ a o, g !! a = Some o → obj_ok (v_mem w) U a o) → (∀ u, U !! a = Some u → u = UFree) → g !! a = None.
Proof.
  intros Hg Hu. destruct (g !! a) as [o|] eqn:Ha; [|done].
  destruct (obj_used _ _ _ _ (Hg a o Ha)) as (u & H1 & H2). by destruct H2, (Hu u).
Qed.

Lemma run_done {A} (op : M vmst A) a w w' : op w = Done a w' → run op w = inr (a, w').
Proof. intros E. unfold run. by rewrite E. Qed.

Lemma kalloc_law g w : vm_ok g w → ∃ a w', run kalloc w = inr (a, w') ∧
  ((a = 0 ∧ vm_ok g w') ∨ (0 < a < 2^32 ∧ g !! a = None ∧ vm_ok (<[a := OPage]> g) w')).
Proof.
  intros (U & Hk & Hg). destruct (kalloc_use end_ Hend U w Hk) as (a & w' & E & Hm & [(-> & _ & Hk')|[Ha Hk']]).
  - exists 0, w'. split; [by apply run_done|]. left. split; [done|]. exists U. by rewrite Hm.
  - exists a, w'. split; [by apply run_done|]. right.
    pose proof (valid_range end_ Hend a (ko_valid _ _ _ Hk _ _ Ha)) as Hr. unfold KERNBASE in Hr.
    assert (Hfr : ∀ u, U !! a = Some u → u = UFree) by naive_solver.
    split; [lia|]. split; [by eapply fresh_free|].
    apply (inv_step g U w (<[a := UPage]> U) w' a OPage); [done| |by apply Hk'|apply lookup_insert_eq].
    intros p u Hp Hu _. rewrite Hm. split; [|by intros x Hx]. rewrite lookup_insert_ne; [done|congruence].
Qed.

Lemma kfree_law g w a : vm_ok g w → g !! a = Some OPage →
  ∃ w', run (kfree end_ a) w = inr (tt, w') ∧ vm_ok (delete a g) w'.
Proof.
  intros (U & Hk & Hg) Ha. pose proof (Hg a _ Ha) as Hu. cbn in Hu.
  destruct (kfree_use end_ Hend U w a Hk) as (w' & E & Hk' & Hout & _);
    [by eapply (ko_valid _ _ _ Hk)|congruence|]. exists w'. split; [by apply run_done|].
  exists (<[a := UFree]> U). split; [done|]. intros b o [Hne Hb]%lookup_delete_Some.
  assert (Hag : ∀ p u, U !! p = Some u → p ≠ a → agree (v_mem w) (v_mem w') p).
  { intros p u Hp Hpa x Hx. apply Hout. by apply (pages_apart end_ p a); [by eapply (ko_valid _ _ _ Hk)..|done|]. }
  pose proof (Hg b o Hb) as Ho. destruct o as [|sz um]; cbn in *; [by rewrite lookup_insert_ne|].
  destruct Ho as (H1 & H2 & Hs). split; [done|]. split; [done|]. eapply space_frame; [|exact Hs].
  intros p u Hp Hop _. assert (p ≠ a).
  { intros ->. rewrite Hu in Hp. injection Hp as <-. destruct Hop as [[_ ?]|[[? ?]|[? ?]]]; done. }
  split; [by rewrite lookup_insert_ne|by eapply Hag].
Qed.

Lemma copyuvm_law g w pd sz um : vm_ok g w → g !! pd = Some (OSpace sz um) →
  ∃ d w', run (copyuvm end_ data pd sz) w = inr (d, w') ∧
    ((d = 0 ∧ vm_ok g w') ∨ (0 < d < 2^32 ∧ g !! d = None ∧ vm_ok (<[d := OSpace sz um]> g) w')).
Proof.
  intros (U & Hk & Hg) Hpd. destruct (Hg pd _ Hpd) as (Hsz & Hum & Hs).
  destruct (setupkvm_ok end_ Hend data Hdata U w um Hk) as (d & w1 & U1 & d' & E1 & Hk1 & Hf1 & Hfr & Hd).
  assert (Hgd : g !! d' = None) by (by eapply fresh_free). unfold copyuvm.
  destruct Hd as [->|(<- & Hd0 & Hs1)].
  { exists 0, w1. split; [apply run_done; mstep; by rewrite E1|]. left. split; [done|]. by eapply inv_keep. }
  assert (Hne : d ≠ pd) by (intros ->; congruence).
  destruct (copy_loop end_ Hend (Z.to_nat (sz / PGSIZE + 1)) U1 w1 pd d (λ _, true) sz (λ _, true) um 0)
    as (r & w2 & U2 & E2 & Hk2 & Hf2 & Hr).
  - done.
  - by eapply framed_space.
  - eapply space_ext; [| | |exact Hs1]; [|done..]. intros n Hn. unfold below. lia.
  - done.
  - lia.
  - destruct (npages_up sz Hsz). lia.
  - unfold PGSIZE. Z.div_mod_to_equations. lia.
  - exists r, w2. change (4096 * 0) with 0 in E2. split.
    { apply run_done. mstep. rewrite E1. mstep. destruct (Z.eqb_spec d 0); [done|]. exact E2. }
    assert (Hf : framed d U (v_mem w) U2 (v_mem w2)) by (by eapply framed_trans).
    destruct Hr as [->|[-> Hs2]]; [left; split; [done|by eapply inv_keep]|]. right.
    pose proof (valid_range end_ Hend d (ko_valid _ _ _ Hk2 _ _ (sp_dir _ _ _ _ _ _ Hs2))) as Hr. unfold KERNBASE in Hr.
    split; [lia|]. split; [done|]. by eapply inv_step.
Qed.

(** User code may access the page of [va]. *)
Definition user_va w (pd va : Z) : bool :=
  if translate (v_mem w) pd va is Some e then has e PTE_P && has e PTE_U else false.
Lemma user_va_page w pd va : 0 ≤ va < 2^32 → user_va w pd va = user_page (v_mem w) pd (va / 4096).
Proof. intros Hva. unfold user_va, user_page. by rewrite translate_eq. Qed.

Lemma allocuvm_law g w pd sz um oldsz newsz : vm_ok g w → g !! pd = Some (OSpace sz um) →
  oldsz = sz ∨ oldsz = PGROUNDUP sz → sz ≤ oldsz ≤ newsz → newsz < 2^32 →
  ∃ r w', run (allocuvm end_ pd oldsz newsz) w = inr (r, w') ∧
    ((r = 0 ∧ vm_ok g w') ∨
     (r = newsz ∧ newsz < KERNBASE ∧ (∀ va, 0 ≤ va → PGROUNDUP sz ≤ va < newsz → user_va w' pd va = true) ∧
      ∃ um', grown sz newsz um um' ∧ vm_ok (<[pd := OSpace newsz um']> g) w')).
Proof.
  intros (U & Hk & Hg) Hpd Hold Hnew Hmax. destruct (Hg pd _ Hpd) as (Hsz & Hum & Hs). unfold allocuvm.
  destruct (Z.leb_spec KERNBASE newsz).
  { exists 0, w. split; [by apply run_done|]. left. split; [done|]. by exists U. }
  destruct (Z.ltb_spec newsz oldsz); [lia|]. destruct (npages_up sz Hsz) as [Hup Hnp].
  assert (PGROUNDUP oldsz = 4096 * npages sz ∧ npages oldsz = npages sz) as [-> Eold].
  { rewrite <- Hup. destruct Hold as [->| ->]; [done|]. split; [apply PGROUNDUP_idem|]. rewrite Hup. unfold npages.
    Z.div_mod_to_equations. lia. }
  assert (Hmono : npages sz ≤ npages newsz) by (unfold npages; apply Z.div_le_mono; lia).
  destruct (alloc_loop end_ Hend (Z.to_nat (newsz / PGSIZE + 1)) U w pd (λ _, true) um oldsz newsz (npages sz))
    as (r & w' & U' & E & Hk' & Hf & Hr); [done|done|lia|done|lia|unfold PGSIZE; Z.div_mod_to_equations; lia|].
  exists r, w'. split; [by apply run_done|]. destruct Hr as [[-> Hs']|(-> & [_ Hus] & Hs')].
  - left. split; [done|]. rewrite Eold in Hs'. rewrite <- (insert_id g pd (OSpace sz um)) by done. by eapply inv_step.
  - right. split; [done|]. split; [done|]. split.
    { intros va Hva0 Hva. rewrite user_va_page by lia. apply Hus. rewrite Hup in Hva. unfold npages at 2. Z.div_mod_to_equations. lia. }
    eexists. split; [|eapply inv_step; [done|done|done|]; split_and!; [lia|lia| |exact Hs']].
    + split; intros va; cbn beta.
      * intros Hva. destruct (Z.ltb_spec (va / 4096) (npages sz)); [done|]. unfold npages in *. Z.div_mod_to_equations. lia.
      * rewrite Hup. intros _ Hva. destruct (Z.ltb_spec (va / 4096) (npages sz)); [|done]. Z.div_mod_to_equations. lia.
    + intros x. cbn beta. destruct (_ <? _); [apply Hum|lia].
Qed.

Lemma deallocuvm_law g w pd sz um newsz : vm_ok g w → g !! pd = Some (OSpace sz um) → 0 ≤ newsz ≤ sz →
  ∃ w', run (deallocuvm end_ pd sz newsz) w = inr (newsz, w') ∧ vm_ok (<[pd := OSpace newsz um]> g) w'.
Proof.
  intros (U & Hk & Hg) Hpd Hnew. destruct (Hg pd _ Hpd) as (Hsz & Hum & Hs).
  destruct (dealloc_ok end_ Hend U w pd (below (npages sz)) (λ _, true) um sz newsz) as (w' & U' & E & Hk' & Hf & Hs');
    [done|done|lia|lia|]. rewrite Z.min_r in E by lia. exists w'. split; [by apply run_done|].
  eapply inv_step; [done..|]. split_and!; [lia|lia|done|]. eapply space_ext; [| | |exact Hs']; [|done..].
  intros x Hx. cbn beta. unfold below, npages.
  destruct (Z.ltb_spec x ((newsz + 4095) / 4096)), (Z.ltb_spec x ((sz + 4095) / 4096)), (Z.leb_spec sz (4096 * x)); cbn;
    try done; Z.div_mod_to_equations; lia.
Qed.

Lemma freevm_law g w pd sz um : vm_ok g w → g !! pd = Some (OSpace sz um) →
  ∃ w', run (freevm end_ pd) w = inr (tt, w') ∧ vm_ok (delete pd g) w'.
Proof.
  intros (U & Hk & Hg) Hpd. destruct (Hg pd _ Hpd) as (_ & _ & Hs).
  destruct (freevm_ok end_ Hend U w pd _ _ _ Hk Hs) as (w' & U' & E & Hk' & Hf).
  exists w'. split; [by apply run_done|]. by eapply inv_delete.
Qed.

(** Clearing a flag. *)
Lemma clear_flag e : 0 ≤ e < 2^32 →
  let v := Z.land e (Z.lnot PTE_U) in
  u32 v = v ∧ has v PTE_P = has e PTE_P ∧ has v PTE_W = has e PTE_W ∧ PTE_ADDR v = PTE_ADDR e.
Proof.
  intros He v. assert (Hb : ∀ k, 0 ≤ k → Z.testbit v k = Z.testbit e k && negb (k =? 2)).
  { intros k Hk. unfold v, PTE_U. change 4 with (2^2). rewrite Z.land_spec, Z.lnot_spec, Z.pow2_bits_eqb by done.
    by rewrite (Z.eqb_sym 2 k). }
  split_and!.
  - apply u32_id. split; [apply Z.land_nonneg; lia|]. unfold v. rewrite <- (Z.mod_small e (2^32)) by done.
    rewrite <- Z.land_ones by done. rewrite <- Z.land_assoc, (Z.land_comm (Z.ones 32)), Z.land_assoc, Z.land_ones by done.
    by apply Z.mod_pos_bound.
  - unfold PTE_P. change 1 with (2^0). rewrite !has_bit, Hb by done. apply andb_true_r.
  - unfold PTE_W. change 2 with (2^1). rewrite !has_bit, Hb by done. apply andb_true_r.
  - rewrite !addr_eq. f_equal. change 4096 with (2^12). rewrite <- !Z.shiftr_div_pow2 by done. apply Z.bits_inj'.
    intros k Hk. rewrite !Z.shiftr_spec, Hb by lia. destruct (Z.eqb_spec (k + 12) 2); [lia|apply andb_true_r].
Qed.

Lemma clearpteu_law g w pd sz um va : vm_ok g w → g !! pd = Some (OSpace sz um) → 0 ≤ va < sz →
  ∃ w', run (clearpteu pd va) w = inr (tt, w') ∧ vm_ok g w' ∧
    ∀ va', 0 ≤ va' < sz → va' / PGSIZE ≠ va / PGSIZE → user_va w' pd va' = user_va w pd va'.
Proof.
  intros (U & Hk & Hg) Hpd Hva. destruct (Hg pd _ Hpd) as (Hsz & Hum & Hs). destruct (page_of_va va sz Hva) as [Hn HD]; [lia|].
  assert (Hn2 : ∀ x, 0 ≤ x < sz → 0 ≤ x < 2^32 ∧ 0 ≤ x / 4096 < 2 * upages)
    by (unfold KERNBASE, upages in *; intros x Hx; Z.div_mod_to_equations; lia).
  destruct (Hn2 va Hva) as [Hva2 Hnv].
  destruct (sp_user _ _ _ _ _ _ Hs _ Hn HD) as (e & He & HP & HW & _). pose proof He as He'. unfold entry in He'.
  destruct (pte_addr (v_mem w) pd (va / 4096)) as [a|] eqn:Ha; [|done]. injection He' as Ea.
  assert (a ≠ 0) by (eapply (pte_nonzero end_ Hend); [exact (ko_valid _ _ _ Hk)|exact Hs|done|done]).
  destruct (clear_flag e) as (F1 & F2 & F3 & F4); [rewrite <- Ea; apply load32_range, (ko_mem _ _ _ Hk)|]. set (v := Z.land e (Z.lnot PTE_U)) in *.
  destruct (store_pte end_ U w pd (below (npages sz)) (λ _, true) um (va / 4096) a v Hk Hs Hnv Ha) as [Hk' Hkp].
  exists (set_v_mem (store32 (v_mem w) a v) w). split; [|split].
  - apply run_done. unfold clearpteu. mstep. rewrite walk_false, Ha by done. mstep. destruct (Z.eqb_spec a 0); [done|].
    unfold load, store, upd_mem. mstep. by rewrite Ea.
  - rewrite <- (insert_id g pd (OSpace sz um)) by done. eapply inv_step; [done|by apply kept_framed|done|]. split_and!; [lia|lia|done|].
    eapply (reflag_user end_); [exact (ko_valid _ _ _ Hk)|done|done|done|lia|done|exact He|done|congruence|congruence|done].
  - intros va' Hva' Hne. destruct (Hn2 va' Hva') as [H1 H2]. rewrite !user_va_page by done. apply user_page_entry.
    eapply (set_entry_other end_); [exact (ko_valid _ _ _ Hk)|exact Hs|exact Hnv|done|done|exact Hne].
Qed.

Lemma copyout_law g w pd sz um va bs : vm_ok g w → g !! pd = Some (OSpace sz um) →
  0 ≤ va → va + Z.of_nat (length bs) ≤ sz → ∃ r w' um', run (copyout pd va bs) w = inr (r, w') ∧
    vm_ok (<[pd := OSpace sz um']> g) w' ∧ (∀ va', 0 ≤ va' < sz → user_va w' pd va' = user_va w pd va') ∧
    (r = 0 ∧ um' = writes um va bs ∨
     r = -1 ∧ ∃ va', va ≤ va' < va + Z.of_nat (length bs) ∧ user_va w pd va' = false).
Proof.
  intros (U & Hk & Hg) Hpd Hva Hlen. destruct (Hg pd _ Hpd) as (Hsz & Hum & Hs).
  destruct (copyout_loop_ok end_ Hend (S (length bs)) U w pd (λ _, true) um sz va bs)
    as (r & w' & um' & E & Hk' & Hf & Hs' & Hm' & Hus & Hr); [done|done|done|done|done|lia|lia|]. unfold KERNBASE in Hsz.
  exists r, w', um'. split; [by apply run_done|]. split; [by eapply inv_step|]. split.
  - intros va' Hva'. rewrite !user_va_page by lia. apply Hus. unfold upages. Z.div_mod_to_equations. lia.
  - destruct Hr as [Hr|(-> & va' & Hva' & Hu)]; [by left|]. right. split; [done|]. exists va'. split; [done|]. by rewrite user_va_page by lia.
Qed.

Definition vm_laws : @VmLaws vmst (vm_ops end_ data).
Proof.
  refine (@Build_VmLaws vmst (vm_ops end_ data) vm_ok kalloc_law kfree_law copyuvm_law allocuvm_law
    deallocuvm_law freevm_law _ _ _ clearpteu_law copyout_law).
  - intros g w pd sz um (U & _ & Hg) Hpd. by destruct (Hg pd _ Hpd) as (_ & ? & _).
  - intros g w pd sz um va (U & Hk & Hg) Hpd Hva. destruct (Hg pd _ Hpd) as (Hsz & _ & Hs).
    by eapply (read_ok (v_mem w)); [| |exact Hva|lia].
  - intros g w pd sz um va v (U & Hk & Hg) Hpd Hva. destruct (Hg pd _ Hpd) as (Hsz & Hum & Hs).
    destruct (write_ok end_ U w pd _ um sz va v Hk Hs Hva ltac:(lia)) as (w' & E & Hk' & Hf & Hs').
    exists w'. split; [done|]. eapply inv_step; [done..|]. split_and!; [lia|lia|by apply upd_ok|done].
Defined.

(** C3: vm.c and kalloc.c implement the memory contract that process, pipe, exec and
    system call code is verified against.  [vm_ok g w] (the allocator's state is
    sound, and every object of [g] is a live page or a well-formed two-level page
    table with exactly the user bytes [g] gives it) is an invariant under which
    kalloc, kfree, allocuvm, deallocuvm, copyuvm, freevm, clearpteu, copyout and user
    loads and stores do what the contract says and disturb no other object; and it holds after
    [kinit1] and [kinit2]. *)
Theorem vm_keeps_contract w mid :
  mem_ok (v_mem w) → v_free w = 0 → mid mod 4096 = 0 → end_ ≤ mid ≤ KERNBASE + PHYSTOP →
  (∃ L : @VmLaws vmst (vm_ops end_ data), @vm_inv vmst (vm_ops end_ data) L = vm_ok) ∧
  ∃ w', (kinit1 end_ end_ mid ;;; kinit2 end_ mid (KERNBASE + PHYSTOP)) w = Done tt w' ∧ vm_ok ∅ w'.
Proof.
  intros Hm Hf Hmid Hr. split; [by exists vm_laws|].
  destruct (kinit_ok end_ Hend w mid) as (w' & U & E & Hk & _); [done..|].
  exists w'. split; [done|]. exists U. split; [done|]. intros a o. by rewrite lookup_empty.
Qed.
End Contract.

Lemma vm_keeps_contract_witness :
  (∃ L : @VmLaws vmst (vm_ops 2148638720 2148634624), @vm_inv vmst (vm_ops 2148638720 2148634624) L = vm_ok 2148638720) ∧
  ∃ w', (kinit1 2148638720 2148638720 2151677952 ;;; kinit2 2148638720 2151677952 (KERNBASE + PHYSTOP))
    (mkVm Flat.zeros 0 0 0 []) = Done tt w' ∧ vm_ok 2148638720 ∅ w'.
Proof.
  apply (vm_keeps_contract 2148638720 2148634624).
  - unfold KERNBASE. lia.
  - unfold KERNLINK, KERNBASE, EXTMEM, PHYSTOP. split; [reflexivity|lia].
  - intros x. unfold Flat.zeros. cbn. lia.
  - reflexivity.
  - reflexivity.
  - unfold KERNBASE, PHYSTOP. lia.
Defined.
