(* ===== verification/Pipe.v ===== *)
(** pipe.c: the ring buffer and its blocking reader and writer.  The buffer
    refines a FIFO queue of at most 512 bytes, also where the free-running
    [nread] and [nwrite] counters wrap at 2^32. *)
From S2P Require Import Prelude Mem KState Spinlock Sched Services.

Definition PIPESIZE : Z := 512.

(** [p->data[p->nwrite++ % PIPESIZE] = b] *)
Definition pipe_put (b : Z) (pi : pipe) : pipe :=
  mkPipe (<[Z.to_nat (pi_nwrite pi mod PIPESIZE) := u8 b]> (pi_data pi))
    (pi_nread pi) (u32 (pi_nwrite pi + 1)) (pi_readopen pi) (pi_writeopen pi).

(** [p->data[p->nread++ % PIPESIZE]]: the value, and the pipe after the increment. *)
Definition pipe_peek (pi : pipe) : Z :=
  pi_data pi !!! Z.to_nat (pi_nread pi mod PIPESIZE).
Definition pipe_pop (pi : pipe) : pipe :=
  mkPipe (pi_data pi) (u32 (pi_nread pi + 1)) (pi_nwrite pi) (pi_readopen pi) (pi_writeopen pi).

Definition pipe_full (pi : pipe) : bool := pi_nwrite pi =? u32 (pi_nread pi + PIPESIZE).
Definition pipe_empty (pi : pipe) : bool := pi_nread pi =? pi_nwrite pi.

Definition set_readopen (v : Z) (pi : pipe) : pipe :=
  mkPipe (pi_data pi) (pi_nread pi) (pi_nwrite pi) v (pi_writeopen pi).
Definition set_writeopen (v : Z) (pi : pipe) : pipe :=
  mkPipe (pi_data pi) (pi_nread pi) (pi_nwrite pi) (pi_readopen pi) v.

Section Pipe.
Context {W : Type} {VO : VmOps W}.

(** A pipe is reached through its address; a dead one is not in the table. *)
Definition get_pipe (a : Z) : M (kst W) pipe :=
  o <- gets (λ s, k_pipes s !! a) ;; match o with Some pi => ret pi | None => panic "trap" end.
Definition set_pipe (a : Z) (f : pipe → pipe) : M (kst W) unit :=
  modify (λ s, set_k_pipes (alter f a (k_pipes s)) s).

Definition pipeclose (a : Z) (writable : Z) : M (kst W) unit :=
  acquire (L_pipe a) ;;;
  (if negb (writable =? 0) then
     set_pipe a (set_writeopen 0) ;;; wakeup (C_nread a)
   else
     set_pipe a (set_readopen 0) ;;; wakeup (C_nwrite a)) ;;;
  pi <- get_pipe a ;;
  if (pi_readopen pi =? 0) && (pi_writeopen pi =? 0) then
    release (L_pipe a) ;;;
    modify (λ s, set_k_pipes (delete a (k_pipes s)) s) ;;;
    kfree a
  else release (L_pipe a).

(** The inner loop of [pipewrite]: [Some v] when it returned [v] from the middle. *)
Definition pipewrite_wait (fuel : nat) (a : Z) : M (kst W) (option Z) :=
  loop fuel (
    pi <- get_pipe a ;;
    if pipe_full pi then
      k <- cur ;;
      if (pi_readopen pi =? 0) || negb (p_killed k =? 0) then
        release (L_pipe a) ;;; ret (Some (Some (-1)))
      else
        wakeup (C_nread a) ;;;
        sleep (C_nwrite a) (Some (L_pipe a)) ;;;
        ret None
    else ret (Some None)).

Definition pipewrite_byte (fuel : nat) (a addr i : Z) : M (kst W) (option Z) :=
  w <- pipewrite_wait fuel a ;;
  match w with
  | Some v => ret (Some v)
  | None => b <- uload8 (addr + i) ;; set_pipe a (pipe_put b) ;;; ret None
  end.

Definition pipewrite (fuel : nat) (a addr n : Z) : M (kst W) Z :=
  acquire (L_pipe a) ;;;
  r <- for_break (seqZ 0 n) (pipewrite_byte fuel a addr) ;;
  match r with
  | Some v => ret v
  | None => wakeup (C_nread a) ;;; release (L_pipe a) ;;; ret n
  end.

Definition piperead_wait (fuel : nat) (a : Z) : M (kst W) (option Z) :=
  loop fuel (
    pi <- get_pipe a ;;
    if pipe_empty pi && negb (pi_writeopen pi =? 0) then
      k <- cur ;;
      if negb (p_killed k =? 0) then release (L_pipe a) ;;; ret (Some (Some (-1)))
      else sleep (C_nread a) (Some (L_pipe a)) ;;; ret None
    else ret (Some None)).

Definition piperead_byte (a addr i : Z) : M (kst W) (option Z) :=
  pi <- get_pipe a ;;
  if pipe_empty pi then ret (Some i)
  else
    ustore8 (addr + i) (pipe_peek pi) ;;;
    set_pipe a pipe_pop ;;;
    ret None.

Definition piperead (fuel : nat) (a addr n : Z) : M (kst W) Z :=
  acquire (L_pipe a) ;;;
  w <- piperead_wait fuel a ;;
  match w with
  | Some v => ret v
  | None =>
    r <- for_break (seqZ 0 n) (piperead_byte a addr) ;;
    wakeup (C_nwrite a) ;;;
    release (L_pipe a) ;;;
    ret (match r with Some i => i | None => Z.max 0 n end)
  end.

End Pipe.

Arguments get_pipe : simpl never.
Arguments set_pipe : simpl never.
Arguments pipewrite_wait : simpl never.
Arguments piperead_wait : simpl never.

(** * The ring buffer as a queue *)

(** Bytes written and not yet read. *)
Definition pipe_count (pi : pipe) : Z := u32 (pi_nwrite pi - pi_nread pi).

Record pipe_wf (pi : pipe) : Prop := {
  pw_data : length (pi_data pi) = Z.to_nat PIPESIZE;
  pw_nread : 0 ≤ pi_nread pi < 2^32;
  pw_nwrite : 0 ≤ pi_nwrite pi < 2^32;
  pw_count : pipe_count pi ≤ PIPESIZE;
}.

(** The abstract queue, oldest byte first. *)
Definition contents (pi : pipe) : list Z :=
  (λ k, pi_data pi !!! Z.to_nat ((pi_nread pi + Z.of_nat k) mod PIPESIZE))
    <$> seq 0 (Z.to_nat (pipe_count pi)).

Lemma pipe_count_range pi : 0 ≤ pipe_count pi < 2^32.
Proof. apply u32_range. Qed.

Lemma length_contents pi : length (contents pi) = Z.to_nat (pipe_count pi).
Proof. unfold contents. by rewrite length_fmap, length_seq. Qed.

(** The two counters differ by the count, up to one wrap. *)
Lemma pipe_nwrite pi :
  pipe_wf pi → pi_nwrite pi = u32 (pi_nread pi + pipe_count pi).
Proof.
  intros [_ Hr Hw _]. unfold pipe_count, u32 in *. rewrite Zplus_mod_idemp_r.
  replace (pi_nread pi + _) with (pi_nwrite pi) by lia. by rewrite Z.mod_small.
Qed.

Lemma mod_512_u32 x : u32 x mod PIPESIZE = x mod PIPESIZE.
Proof. unfold u32, PIPESIZE. apply Z.mod_mod_divide. by exists (2^23). Qed.

Lemma pipe_full_spec pi : pipe_wf pi → pipe_full pi = bool_decide (pipe_count pi = PIPESIZE).
Proof.
  intros Hwf. unfold pipe_full. rewrite (pipe_nwrite pi Hwf) at 1.
  destruct Hwf as [_ Hr Hw Hc]. pose proof (pipe_count_range pi) as Hn. unfold PIPESIZE in *.
  apply eq_bool_prop_intro. rewrite !Is_true_true, Z.eqb_eq, bool_decide_eq_true.
  unfold u32 in *. Z.div_mod_to_equations. lia.
Qed.

Lemma pipe_empty_spec pi : pipe_wf pi → pipe_empty pi = bool_decide (contents pi = []).
Proof.
  intros Hwf. unfold pipe_empty. apply eq_bool_prop_intro.
  rewrite !Is_true_true, Z.eqb_eq, bool_decide_eq_true, <- length_zero_iff_nil, length_contents.
  destruct Hwf as [_ Hr Hw Hc]. unfold pipe_count, u32 in *. Z.div_mod_to_equations. lia.
Qed.

Lemma pipe_put_count b pi :
  pipe_wf pi → pipe_count pi < PIPESIZE → pipe_count (pipe_put b pi) = pipe_count pi + 1.
Proof.
  intros [_ Hr Hw Hc] Hlt. unfold pipe_count, pipe_put in *. cbn. unfold u32, PIPESIZE in *.
  rewrite Zminus_mod_idemp_l.
  replace (pi_nwrite pi + 1 - pi_nread pi) with (pi_nwrite pi - pi_nread pi + 1) by lia.
  rewrite <- Zplus_mod_idemp_l. apply Z.mod_small.
  pose proof (Z.mod_pos_bound (pi_nwrite pi - pi_nread pi) (2^32)). lia.
Qed.

Lemma pipe_put_wf b pi : pipe_wf pi → pipe_count pi < PIPESIZE → pipe_wf (pipe_put b pi).
Proof.
  intros Hwf Hlt. pose proof (pipe_put_count b pi Hwf Hlt). destruct Hwf as [A B C D].
  split; [|done|apply u32_range|lia]. cbn. by rewrite length_insert.
Qed.

(** Offsets into the ring that differ by less than its size do not collide. *)
Lemma ring_ne n j k : 0 ≤ j < PIPESIZE → 0 ≤ k < PIPESIZE → j ≠ k →
  (n + j) mod PIPESIZE ≠ (n + k) mod PIPESIZE.
Proof. unfold PIPESIZE. intros. Z.div_mod_to_equations. lia. Qed.

(** Writing a byte appends it to the queue. *)
Lemma contents_put b pi :
  pipe_wf pi → pipe_count pi < PIPESIZE →
  contents (pipe_put b pi) = contents pi ++ [u8 b].
Proof.
  intros Hwf Hlt. unfold contents at 1. rewrite pipe_put_count by done.
  pose proof (pipe_count_range pi) as Hn. rewrite Z2Nat.inj_add, Nat.add_1_r by lia.
  rewrite seq_S, fmap_app. cbn. pose proof (pipe_nwrite pi Hwf) as Hnw.
  destruct Hwf as [HL Hr Hw _]. f_equal.
  - unfold contents. apply list_fmap_ext. intros i k [-> Hk]%lookup_seq.
    rewrite list_lookup_total_insert_ne; [done|].
    rewrite Hnw, mod_512_u32. intros E%Z2Nat.inj; [|apply Z.mod_pos_bound; done..].
    revert E. apply ring_ne; unfold PIPESIZE in *; lia.
  - f_equal. rewrite Z2Nat.id by lia. rewrite Hnw at 1. rewrite mod_512_u32.
    apply list_lookup_total_insert_eq. rewrite HL. pose proof (Z.mod_pos_bound (pi_nread pi + pipe_count pi) PIPESIZE).
    unfold PIPESIZE in *. lia.
Qed.

Lemma pipe_pop_count pi :
  pipe_wf pi → 0 < pipe_count pi → pipe_count (pipe_pop pi) = pipe_count pi - 1.
Proof.
  intros [_ Hr Hw Hc] Hlt. unfold pipe_count, pipe_pop in *. cbn. unfold u32, PIPESIZE in *.
  rewrite Zminus_mod_idemp_r.
  replace (pi_nwrite pi - (pi_nread pi + 1)) with (pi_nwrite pi - pi_nread pi - 1) by lia.
  rewrite <- Zminus_mod_idemp_l. apply Z.mod_small. lia.
Qed.

Lemma pipe_pop_wf pi : pipe_wf pi → 0 < pipe_count pi → pipe_wf (pipe_pop pi).
Proof.
  intros Hwf Hlt. pose proof (pipe_pop_count pi Hwf Hlt). destruct Hwf as [A B C D].
  split; [done|apply u32_range|done|lia].
Qed.

(** Reading takes the oldest byte. *)
Lemma contents_pop pi :
  pipe_wf pi → 0 < pipe_count pi → contents pi = pipe_peek pi :: contents (pipe_pop pi).
Proof.
  intros Hwf Hlt. unfold contents. rewrite pipe_pop_count by done.
  replace (Z.to_nat (pipe_count pi)) with (S (Z.to_nat (pipe_count pi - 1))) by lia.
  rewrite <- cons_seq, <- fmap_S_seq, fmap_cons, <- list_fmap_compose. f_equal.
  - unfold pipe_peek. do 3 f_equal. lia.
  - apply list_fmap_ext. intros i k _. cbn. f_equal. f_equal.
    rewrite <- (Zplus_mod_idemp_l (u32 _)), mod_512_u32, Zplus_mod_idemp_l. f_equal. lia.
Qed.

(** * Blocking readers and writers *)
Arguments bytes : simpl never.
Section Blocking.
Context {W : Type} {VO : VmOps W} {VL : VmLaws W}.
Implicit Types s : kst W.

(** Shared between a pipe's users: the pipe at [a] is live and well formed; and
    the user memory of the caller is its own. *)
Definition pipe_shared (a pd sz : Z) (um : mem) (s : kst W) : Prop :=
  (∃ pi, k_pipes s !! a = Some pi ∧ pipe_wf pi) ∧
  (∃ g, vm_inv g (k_mem s) ∧ g !! pd = Some (OSpace sz um)).

Lemma pipe_shared_data a pd sz um : data_only (pipe_shared a pd sz um).
Proof.
  intros s s' [= E1 E2 E3 E4 E5 E6 E7] [(pi & H1 & H2) (g & H3 & H4)].
  split; [exists pi; by rewrite E1|exists g; by rewrite E4].
Qed.
Hint Resolve pipe_shared_data : core.

Lemma get_pipe_eq a pi s : k_pipes s !! a = Some pi → get_pipe a s = Done pi s.
Proof. intros H. unfold get_pipe. cbn. by rewrite H. Qed.

Lemma krun_cur held ls i p s :
  krun held ls i p s → ∃ p', cur s = Done p' s ∧ k_procs s !! i = Some p' ∧ private p' = private p.
Proof. intros [A B C D E (p' & F & G & I)]. exists p'. split; [by apply (cur_eq i)|done]. Qed.

Lemma krun_user held ls i p g um s :
  krun held ls i p s → vm_inv g (k_mem s) → g !! p_pgdir p = Some (OSpace (p_sz p) um) →
  ∃ p', user_mem g i p' um s ∧ private p' = private p.
Proof.
  intros [A B C D E (p' & F & G & I)] Hg Hp. exists p'. split; [|done]. unfold user_mem.
  assert (p_pgdir p' = p_pgdir p ∧ p_sz p' = p_sz p) as [-> ->]
    by (unfold private in I; split; congruence).
  done.
Qed.

Lemma pipewrite_wait_wp i p a um fuel s :
  krun [L_pipe a] [L_pipe a] i p s → pipe_shared a (p_pgdir p) (p_sz p) um s →
  wp (kenv i (pipe_shared a (p_pgdir p) (p_sz p) um) True) (pipewrite_wait fuel a s) (λ r s',
    pipe_shared a (p_pgdir p) (p_sz p) um s' ∧
    match r with
    | Some v => v = -1 ∧ krun [] [L_pipe a] i p s'
    | None => krun [L_pipe a] [L_pipe a] i p s' ∧
        ∃ pi, k_pipes s' !! a = Some pi ∧ pipe_wf pi ∧ pipe_count pi < PIPESIZE
    end).
Proof.
  unfold pipewrite_wait. revert s. induction fuel as [|fuel IH]; intros s Hk HJ; [done|].
  cbn [loop]. cbn. pose proof HJ as [(pi & Hpi & Hwf) Hu]. rewrite (get_pipe_eq a pi) by done. cbn.
  rewrite pipe_full_spec by done. case_bool_decide as Hfull.
  2: { cbn. split; [done|]. split; [done|]. exists pi.
       pose proof (pw_count pi Hwf). split; [done|]. split; [done|lia]. }
  destruct (krun_cur _ _ _ _ _ Hk) as (p' & Hcur & _ & _). cbn. rewrite Hcur. cbn.
  destruct ((pi_readopen pi =? 0) || negb (p_killed p' =? 0)); cbn.
  - destruct (krun_release [] [L_pipe a] i p (L_pipe a) s Hk) as [-> Hk']. cbn.
    split; [by eapply (pipe_shared_data a _ _ _ s)|done].
  - destruct (krun_wakeup _ _ _ _ (C_nread a) s Hk) as (s1 & -> & Hk1 & Hd1); [set_solver|]. cbn.
    apply wp_bind, wp_bind. eapply wp_mono; [|eapply krun_sleep; [done|auto| |exact Hk1]].
    + intros [] s2 [Hk2 HJ2]. cbn. by apply IH.
    + by eapply (pipe_shared_data a _ _ _ s).
Qed.

Lemma pipewrite_byte_wp i p a addr k um fuel s :
  0 ≤ addr + k < p_sz p →
  krun [L_pipe a] [L_pipe a] i p s → pipe_shared a (p_pgdir p) (p_sz p) um s →
  wp (kenv i (pipe_shared a (p_pgdir p) (p_sz p) um) True) (pipewrite_byte fuel a addr k s) (λ r s',
    pipe_shared a (p_pgdir p) (p_sz p) um s' ∧
    match r with
    | Some v => v = -1 ∧ krun [] [L_pipe a] i p s'
    | None => krun [L_pipe a] [L_pipe a] i p s'
    end).
Proof.
  intros Hva Hk HJ. unfold pipewrite_byte. cbn. apply wp_bind.
  eapply wp_mono; [|by apply pipewrite_wait_wp].
  intros [v|] s' [HJ' Hr]; cbn; [done|]. destruct Hr as [Hk' (pi & Hpi & Hwf & Hc)].
  destruct HJ' as [_ (g & Hg & Hpd)].
  destruct (krun_user _ _ _ _ g um s' Hk' Hg Hpd) as (p' & Hu & Hpriv).
  assert (p_sz p' = p_sz p) as Hsz by (unfold private in Hpriv; congruence).
  rewrite (uload8_eq g i p' um) by (done || lia). unfold set_pipe. cbn. split.
  - split; [|by exists g]. exists (pipe_put (um (addr + k)) pi). cbn.
    rewrite lookup_alter_eq, Hpi. split; [done|]. by apply pipe_put_wf.
  - by apply (krun_frame _ _ _ _ s').
Qed.

Lemma pipewrite_wp i p a addr n um fuel s :
  (∀ k, 0 ≤ k < n → 0 ≤ addr + k < p_sz p) →
  krun [] [L_pipe a] i p s → pipe_shared a (p_pgdir p) (p_sz p) um s →
  wp (kenv i (pipe_shared a (p_pgdir p) (p_sz p) um) True) (pipewrite fuel a addr n s) (λ r s',
    (r = n ∨ r = -1) ∧ krun [] [L_pipe a] i p s' ∧ pipe_shared a (p_pgdir p) (p_sz p) um s').
Proof.
  intros Hva Hk HJ. unfold pipewrite. cbn.
  destruct (krun_acquire [] _ _ _ (L_pipe a) s Hk) as [-> Hk1]; [set_solver..|]. cbn.
  set (J := pipe_shared a (p_pgdir p) (p_sz p) um) in *.
  apply wp_bind. eapply wp_mono; [|apply (for_break_wp _
    (λ s, J s ∧ krun [L_pipe a] [L_pipe a] i p s)
    (λ v s, J s ∧ v = -1 ∧ krun [] [L_pipe a] i p s))].
  - intros [v|] s1; cbn.
    + intros (HJ1 & -> & Hk2). auto.
    + intros [HJ1 Hk2].
      destruct (krun_wakeup _ _ _ _ (C_nread a) s1 Hk2) as (s2 & -> & Hk3 & Hd); [set_solver|]. cbn.
      destruct (krun_release [] _ _ _ _ s2 Hk3) as [-> Hk4]. cbn.
      split; [auto|]. split; [done|]. by eapply (pipe_shared_data a _ _ _ s1).
  - split; [by eapply (pipe_shared_data a _ _ _ s)|done].
  - intros k s1 Hin%elem_of_seqZ [HJ1 Hk2].
    eapply wp_mono; [|apply (pipewrite_byte_wp i p a addr k um); [apply Hva; lia|done..]].
    intros [v|] s2; cbn; naive_solver.
Qed.

Lemma piperead_wait_wp i p a um fuel s :
  krun [L_pipe a] [L_pipe a] i p s → pipe_shared a (p_pgdir p) (p_sz p) um s →
  wp (kenv i (pipe_shared a (p_pgdir p) (p_sz p) um) True) (piperead_wait fuel a s) (λ r s',
    pipe_shared a (p_pgdir p) (p_sz p) um s' ∧
    match r with
    | Some v => v = -1 ∧ krun [] [L_pipe a] i p s'
    | None => krun [L_pipe a] [L_pipe a] i p s'
    end).
Proof.
  unfold piperead_wait. revert s. induction fuel as [|fuel IH]; intros s Hk HJ; [done|].
  cbn [loop]. cbn. pose proof HJ as [(pi & Hpi & Hwf) Hu]. rewrite (get_pipe_eq a pi) by done. cbn.
  destruct (pipe_empty pi && negb (pi_writeopen pi =? 0)); [|done].
  destruct (krun_cur _ _ _ _ _ Hk) as (p' & Hcur & _ & _). cbn. rewrite Hcur. cbn.
  destruct (negb (p_killed p' =? 0)); cbn.
  - destruct (krun_release [] [L_pipe a] i p (L_pipe a) s Hk) as [-> Hk']. cbn.
    split; [by eapply (pipe_shared_data a _ _ _ s)|done].
  - apply wp_bind, wp_bind. eapply wp_mono; [|by eapply krun_sleep; [done|auto| |exact Hk]].
    intros [] s2 [Hk2 HJ2]. cbn. by apply IH.
Qed.

Lemma set_pipe_eq a f pi s :
  k_pipes s !! a = Some pi →
  set_pipe a f s = Done tt (set_k_pipes (<[a := f pi]> (k_pipes s)) s).
Proof.
  intros Hpi. unfold set_pipe. cbn. do 2 f_equal. apply map_eq. intros b.
  destruct (decide (a = b)) as [->|].
  - by rewrite lookup_alter_eq, lookup_insert_eq, Hpi.
  - by rewrite lookup_alter_ne, lookup_insert_ne.
Qed.

(** The copy loop of [piperead]: it takes bytes off the front of the queue until
    the count or the queue runs out. *)
Lemma piperead_loop g i p um a addr n k pi s :
  user_mem g i p um s → k_pipes s !! a = Some pi → pipe_wf pi →
  0 ≤ addr + k → addr + k + Z.of_nat n ≤ p_sz p →
  ∃ w pi', for_break (seqZ k (Z.of_nat n)) (piperead_byte a addr) s =
      Done (if decide (length (contents pi) < n)%nat
            then Some (k + Z.of_nat (length (contents pi))) else None)
        (set_k_mem w (set_k_pipes (<[a := pi']> (k_pipes s)) s)) ∧
    vm_inv (<[p_pgdir p := OSpace (p_sz p) (writes um (addr + k) (take n (contents pi)))]> g) w ∧
    pipe_wf pi' ∧ contents pi' = drop n (contents pi) ∧
    pi_readopen pi' = pi_readopen pi ∧ pi_writeopen pi' = pi_writeopen pi.
Proof.
  revert k um g pi s. induction n as [|n IH]; intros k um g pi s Hu Hpi Hwf Hlo Hhi.
  { exists (k_mem s), pi. pose proof Hu as (A & B & C & D). cbn.
    rewrite !(insert_id _ _ _ Hpi), (insert_id g) by done. by destruct s. }
  rewrite seqZ_cons by lia. cbn [for_break]. unfold piperead_byte at 1. cbn.
  rewrite (get_pipe_eq a pi) by done. cbn. rewrite pipe_empty_spec by done.
  case_bool_decide as He.
  { exists (k_mem s), pi. pose proof Hu as (A & B & C & D). rewrite He. cbn.
    rewrite Z.add_0_r, (insert_id _ _ _ Hpi), (insert_id g) by done. by destruct s. }
  assert (Hc : 0 < pipe_count pi).
  { pose proof (pipe_count_range pi). destruct (decide (pipe_count pi = 0)) as [E|]; [|lia].
    destruct He. apply nil_length_inv. rewrite length_contents, E. done. }
  rewrite (contents_pop pi) in * by done.
  destruct (ustore8_eq g i p um (addr + k) (pipe_peek pi) s) as (w & Hst & Hu'); [done|lia|].
  cbn. rewrite Hst. cbn. rewrite (set_pipe_eq a _ pi) by done. cbn.
  destruct (IH (k + 1) (upd um (addr + k) (pipe_peek pi))
    (<[p_pgdir p := OSpace (p_sz p) (upd um (addr + k) (pipe_peek pi))]> g) (pipe_pop pi)
    (set_k_pipes (<[a := pipe_pop pi]> (k_pipes s)) (set_k_mem w s)))
    as (w2 & pi2 & Hl & Hv & Hwf2 & Hc2 & Ho1 & Ho2).
  { destruct Hu' as (A & B & C & D). repeat split; done. }
  { cbn. apply lookup_insert_eq. }
  { by apply pipe_pop_wf. }
  { lia. } { lia. }
  exists w2, pi2. split; [|split; [|done]].
  - replace (Z.pred (Z.of_nat (S n))) with (Z.of_nat n) by lia.
    replace (Z.succ k) with (k + 1) by lia. rewrite Hl. cbn. rewrite insert_insert_eq.
    f_equal. repeat case_decide; try lia; f_equal; lia.
  - rewrite insert_insert_eq in Hv. by replace (addr + k + 1) with (addr + (k + 1)) by lia.
Qed.

Lemma pipewrite_wait_room a pi fuel s :
  k_pipes s !! a = Some pi → pipe_wf pi → pipe_count pi < PIPESIZE →
  pipewrite_wait (S fuel) a s = Done None s.
Proof.
  intros Hpi Hwf Hc. unfold pipewrite_wait. cbn [loop]. cbn.
  rewrite (get_pipe_eq a pi) by done. cbn. rewrite pipe_full_spec by done.
  by rewrite bool_decide_eq_false_2 by lia.
Qed.

(** The loop of [pipewrite] when there is room: it appends the bytes in order. *)
Lemma pipewrite_loop g i p um a addr n k pi fuel s :
  user_mem g i p um s → k_pipes s !! a = Some pi → pipe_wf pi →
  0 ≤ addr + k → addr + k + Z.of_nat n ≤ p_sz p → pipe_count pi + Z.of_nat n ≤ PIPESIZE →
  ∃ pi', for_break (seqZ k (Z.of_nat n)) (pipewrite_byte (S fuel) a addr) s =
      Done None (set_k_pipes (<[a := pi']> (k_pipes s)) s) ∧
    pipe_wf pi' ∧ contents pi' = contents pi ++ bytes um (addr + k) n ∧
    pi_readopen pi' = pi_readopen pi ∧ pi_writeopen pi' = pi_writeopen pi.
Proof.
  revert k pi s. induction n as [|n IH]; intros k pi s Hu Hpi Hwf Hlo Hhi Hroom.
  { exists pi. cbn. rewrite (insert_id _ _ _ Hpi), app_nil_r. by destruct s. }
  rewrite seqZ_cons by lia. cbn [for_break]. unfold pipewrite_byte at 1. cbn.
  rewrite (pipewrite_wait_room a pi) by (done || lia). cbn.
  rewrite (uload8_eq g i p um) by (done || lia). cbn. rewrite (set_pipe_eq a _ pi) by done. cbn.
  assert (pipe_count pi < PIPESIZE) as Hlt by lia.
  destruct (IH (k + 1) (pipe_put (um (addr + k)) pi)
    (set_k_pipes (<[a := pipe_put (um (addr + k)) pi]> (k_pipes s)) s))
    as (pi' & Hl & Hwf' & Hc' & Ho1 & Ho2); [done|cbn; apply lookup_insert_eq|
      by apply pipe_put_wf|lia|lia|rewrite pipe_put_count by done; lia|].
  exists pi'. split; [|split; [done|split; [|done]]].
  - replace (Z.pred (Z.of_nat (S n))) with (Z.of_nat n) by lia.
    replace (Z.succ k) with (k + 1) by lia. rewrite Hl. cbn. by rewrite insert_insert_eq.
  - rewrite Hc', contents_put, bytes_S, <- app_assoc by done. cbn.
    destruct Hu as (A & B & C & D). rewrite u8_id by (eapply vm_bytes_ok; done).
    by replace (addr + k + 1) with (addr + (k + 1)) by lia.
Qed.

Lemma krun_pipes held ls i p m w s :
  krun held ls i p s → krun held ls i p (set_k_mem w (set_k_pipes m s)).
Proof. by apply krun_frame. Qed.

(** The tail both routines share: wake the other side, release the lock. *)
Lemma wake_release a i p ch s :
  krun [L_pipe a] [L_pipe a] i p s →
  ∃ s', (wakeup ch ;;; release (L_pipe a)) s = Done tt s' ∧ krun [] [L_pipe a] i p s' ∧
    kdata s' = kdata s.
Proof.
  intros Hk. cbn.
  destruct (krun_wakeup _ _ _ _ ch s Hk) as (s2 & -> & Hk3 & Hd); [set_solver|]. cbn.
  destruct (krun_release [] _ _ _ _ s2 Hk3) as [-> Hk4]. eexists. split; [done|]. done.
Qed.

Lemma wake_release_bind {B} a i p ch (f : M (kst W) B) s :
  krun [L_pipe a] [L_pipe a] i p s →
  ∃ s', (wakeup ch ;;; release (L_pipe a) ;;; f) s = f s' ∧ krun [] [L_pipe a] i p s' ∧
    kdata s' = kdata s.
Proof.
  intros Hk. destruct (wake_release a i p ch s Hk) as (s' & H1 & H2 & H3). exists s'.
  split; [|done]. cbn in *. destruct (wakeup ch s); cbn in *; try done. by rewrite H1.
Qed.

End Blocking.

(** * Properties *)
Section Properties.
Context {W : Type} {VO : VmOps W} {VL : VmLaws W}.
Implicit Types s : kst W.

(** C14: The ring buffer is a FIFO queue, also across the wrap of its 32-bit
    counters: storing a byte into a pipe that is not full appends it, and a pipe
    is full exactly when it holds 512 bytes; taking a byte from one that is not
    empty removes the oldest, and it is empty exactly when no byte is left. *)
Theorem pipe_fifo pi b :
  pipe_wf pi →
  (pipe_full pi = true ↔ length (contents pi) = 512%nat) ∧
  (pipe_empty pi = true ↔ contents pi = []) ∧
  (pipe_full pi = false →
    pipe_wf (pipe_put b pi) ∧ contents (pipe_put b pi) = contents pi ++ [u8 b]) ∧
  (pipe_empty pi = false →
    pipe_wf (pipe_pop pi) ∧ contents pi = pipe_peek pi :: contents (pipe_pop pi)).
Proof.
  intros Hwf. pose proof (pipe_count_range pi) as Hr. pose proof (pw_count pi Hwf) as Hc.
  rewrite pipe_full_spec, pipe_empty_spec, !bool_decide_eq_true, !bool_decide_eq_false by done.
  rewrite length_contents. unfold PIPESIZE in *.
  split; [lia|]. split; [done|]. split.
  - intros Hne. split; [apply pipe_put_wf|apply contents_put]; unfold PIPESIZE; done || lia.
  - rewrite <- length_zero_iff_nil, length_contents. intros Hne.
    split; [apply pipe_pop_wf|apply contents_pop]; done || lia.
Qed.

(** A [pipewrite] that fits returns [n] without blocking, having appended the
    user's [n] bytes to the queue in order and released the lock. *)
Theorem pipewrite_fits g um fuel a i p pi addr n s :
  krun [] [L_pipe a] i p s → vm_inv g (k_mem s) → g !! p_pgdir p = Some (OSpace (p_sz p) um) →
  k_pipes s !! a = Some pi → pipe_wf pi → 0 ≤ n → 0 ≤ addr → addr + n ≤ p_sz p →
  Z.of_nat (length (contents pi)) + n ≤ 512 →
  ∃ s' pi', pipewrite (S fuel) a addr n s = Done n s' ∧ krun [] [L_pipe a] i p s' ∧
    k_mem s' = k_mem s ∧ k_pipes s' = <[a := pi']> (k_pipes s) ∧ pipe_wf pi' ∧
    contents pi' = contents pi ++ bytes um addr (Z.to_nat n).
Proof.
  intros Hk Hg Hpd Hpi Hwf Hn Ha Hhi Hroom. unfold pipewrite. cbn.
  destruct (krun_acquire [] _ _ _ (L_pipe a) s Hk) as [-> Hk1]; [set_solver..|]. cbn.
  destruct (krun_user _ _ _ _ g um _ Hk1 Hg Hpd) as (p' & Hu & Hpriv).
  assert (p_sz p' = p_sz p) as Hsz by (unfold private in Hpriv; congruence).
  pose proof (pipe_count_range pi). rewrite length_contents in Hroom.
  destruct (pipewrite_loop g i p' um a addr (Z.to_nat n) 0 pi fuel (acquired (L_pipe a) s))
    as (pi' & Hl & Hwf' & Hc' & _); [done..|lia|lia|unfold PIPESIZE; lia|].
  rewrite Z2Nat.id in Hl by done. rewrite Hl. cbn [rbind].
  destruct (wake_release_bind a i p (C_nread a) (ret n)
    (set_k_pipes (<[a := pi']> (k_pipes s)) (acquired (L_pipe a) s)))
    as (s' & Hs' & Hk' & [= E1 E2 E3 E4 E5 E6 E7]).
  { by apply (krun_frame _ _ _ _ (acquired (L_pipe a) s)). }
  exists s', pi'. rewrite Z.add_0_r in Hc'. done.
Qed.

(** A [piperead] from a pipe that has data, or whose write end is closed,
    returns without blocking: it moves the oldest min(n, available) bytes to user
    memory in order, removes exactly them from the queue, and releases the lock. *)
Theorem piperead_available g um fuel a i p pi addr n s :
  krun [] [L_pipe a] i p s → vm_inv g (k_mem s) → g !! p_pgdir p = Some (OSpace (p_sz p) um) →
  k_pipes s !! a = Some pi → pipe_wf pi → 0 ≤ n → 0 ≤ addr → addr + n ≤ p_sz p →
  contents pi ≠ [] ∨ pi_writeopen pi = 0 →
  ∃ s' pi', piperead (S fuel) a addr n s = Done (Z.min n (Z.of_nat (length (contents pi)))) s' ∧
    krun [] [L_pipe a] i p s' ∧ k_pipes s' = <[a := pi']> (k_pipes s) ∧ pipe_wf pi' ∧
    contents pi' = drop (Z.to_nat n) (contents pi) ∧
    vm_inv (<[p_pgdir p := OSpace (p_sz p) (writes um addr (take (Z.to_nat n) (contents pi)))]> g)
      (k_mem s').
Proof.
  intros Hk Hg Hpd Hpi Hwf Hn Ha Hhi Hav. unfold piperead. cbn.
  destruct (krun_acquire [] _ _ _ (L_pipe a) s Hk) as [-> Hk1]; [set_solver..|]. cbn.
  unfold piperead_wait. cbn [loop]. cbn. rewrite (get_pipe_eq a pi) by done. cbn.
  rewrite pipe_empty_spec by done.
  assert (bool_decide (contents pi = []) && negb (pi_writeopen pi =? 0) = false) as ->.
  { destruct Hav as [Hav| ->]; [by rewrite bool_decide_eq_false_2|by rewrite andb_false_r]. }
  cbn. destruct (krun_user _ _ _ _ g um _ Hk1 Hg Hpd) as (p' & Hu & Hpriv).
  assert (p_sz p' = p_sz p ∧ p_pgdir p' = p_pgdir p) as [Hsz Hpg]
    by (unfold private in Hpriv; split; congruence).
  destruct (piperead_loop g i p' um a addr (Z.to_nat n) 0 pi (acquired (L_pipe a) s))
    as (w & pi' & Hl & Hv & Hwf' & Hc' & _); [done..|lia|lia|].
  rewrite Z2Nat.id in Hl by done. rewrite Hl. cbn [rbind].
  destruct (wake_release_bind a i p (C_nwrite a)
    (ret (match (if decide (length (contents pi) < Z.to_nat n)%nat
      then Some (0 + Z.of_nat (length (contents pi))) else None) with
      | Some i => i | None => Z.max 0 n end))
    (set_k_mem w (set_k_pipes (<[a := pi']> (k_pipes s)) (acquired (L_pipe a) s))))
    as (s' & Hs' & Hk' & [= E1 E2 E3 E4 E5 E6 E7]).
  { by apply (krun_frame _ _ _ _ (acquired (L_pipe a) s)). }
  exists s', pi'. split; [refine (eq_trans Hs' _); cbn; f_equal; case_decide; lia|].
  rewrite E4. rewrite Z.add_0_r, Hsz, Hpg in Hv. done.
Qed.

(** A [pipewrite] that has to wait for room is safe: at every point where it
    sleeps it holds exactly [ptable.lock] and leaves the pipe well formed; it
    returns [n] or -1 with no lock held, and never panics or writes past the
    buffer, whatever the readers do meanwhile. *)
Theorem pipewrite_safe i p a addr n um fuel s :
  (∀ k, 0 ≤ k < n → 0 ≤ addr + k < p_sz p) →
  krun [] [L_pipe a] i p s → pipe_shared a (p_pgdir p) (p_sz p) um s →
  wp (kenv i (pipe_shared a (p_pgdir p) (p_sz p) um) True) (pipewrite fuel a addr n s) (λ r s',
    (r = n ∨ r = -1) ∧ krun [] [L_pipe a] i p s' ∧ pipe_shared a (p_pgdir p) (p_sz p) um s').
Proof. apply pipewrite_wp. Qed.

End Properties.

(** A process whose page holds the bytes 1, 2, 3 at address 16, and a pipe whose
    counters are about to wrap. *)
Module Demo.
Definition um : mem := writes (λ _, 0) 16 [1; 2; 3].
Definition pi : pipe := mkPipe (replicate 512 0) (2^32 - 1) (2^32 - 1) 1 1.
Definition world : gmap Z vobj := {[ p_pgdir Sched.Demo.p1 := OSpace 4096 um ]}.
Definition st (q : pipe) : kst (gmap Z vobj) :=
  Sched.Demo.mk {[ L_ptable := mkLock 0 "ptable" None; L_pipe 8192 := mkLock 0 "pipe" None ]}
    {[ 8192 := q ]} world.

Lemma pipe_st_run q : krun [] [L_pipe 8192] 0 Sched.Demo.p1 (st q).
Proof.
  apply Sched.Demo.mk_krun.
  - apply map_Forall_insert_2; [done|]. by apply map_Forall_singleton.
  - intros l [->|[->|Hl%not_elem_of_nil]%elem_of_cons]%elem_of_cons; [..|done]; by eexists.
Qed.
Lemma pipe_um_ok : mem_ok um.
Proof. apply writes_ok. intros x. lia. Qed.
Lemma pipe_st_mem q : vm_inv world (k_mem (st q)).
Proof.
  split; [done|]. intros pd sz u Hl. change (world !! pd = Some (OSpace sz u)) in Hl.
  unfold world in Hl. apply lookup_singleton_Some in Hl as [_ [= <- <-]]. apply pipe_um_ok.
Qed.
Lemma pi_wf : pipe_wf pi.
Proof. split; [done|cbn; lia..|by vm_compute]. Qed.
End Demo.

Lemma pipe_fifo_witness :
  contents (pipe_put 65 Demo.pi) = [65] ∧ pi_nwrite (pipe_put 65 Demo.pi) = 0.
Proof.
  split; [|reflexivity].
  destruct (pipe_fifo Demo.pi 65 Demo.pi_wf) as (_ & _ & H & _).
  destruct (H eq_refl) as [_ ->]. reflexivity.
Defined.

Lemma pipewrite_fits_witness :
  ∃ s' pi', pipewrite 1 8192 16 3 (Demo.st Demo.pi) = Done 3 s' ∧
    k_pipes s' !! 8192 = Some pi' ∧ contents pi' = [1; 2; 3].
Proof.
  destruct (pipewrite_fits Demo.world Demo.um 0 8192 0 Sched.Demo.p1 Demo.pi 16 3 (Demo.st Demo.pi)
    (Demo.pipe_st_run _) (Demo.pipe_st_mem _) eq_refl eq_refl Demo.pi_wf) as (s' & pi' & H1 & H2 & H3 & H4 & H5 & H6);
    [lia|lia|cbn; lia|vm_compute; discriminate|].
  exists s', pi'. split; [exact H1|]. split; [rewrite H4; reflexivity|rewrite H6; reflexivity].
Defined.

Lemma piperead_available_witness :
  ∃ s', piperead 1 8192 32 8 (Demo.st (pipe_put 66 (pipe_put 65 Demo.pi))) = Done 2 s'.
Proof.
  assert (Hwf : pipe_wf (pipe_put 66 (pipe_put 65 Demo.pi))).
  { split; [reflexivity|vm_compute; split; [discriminate|reflexivity]..|vm_compute; discriminate]. }
  destruct (piperead_available Demo.world Demo.um 0 8192 0 Sched.Demo.p1
    (pipe_put 66 (pipe_put 65 Demo.pi)) 32 8 (Demo.st (pipe_put 66 (pipe_put 65 Demo.pi)))
    (Demo.pipe_st_run _) (Demo.pipe_st_mem _) eq_refl eq_refl Hwf) as (s' & pi' & H1 & H2);
    [lia|lia|cbn; lia|left; vm_compute; discriminate|].
  exists s'. exact H1.
Defined.

Lemma pipewrite_safe_witness :
  wp (kenv 0 (pipe_shared 8192 (p_pgdir Sched.Demo.p1) 4096 Demo.um) True)
    (pipewrite 5 8192 16 600 (Demo.st Demo.pi)) (λ r _, r = 600 ∨ r = -1).
Proof.
  eapply wp_mono; [|apply (pipewrite_safe 0 Sched.Demo.p1 8192 16 600 Demo.um 5 (Demo.st Demo.pi))].
  - intros r s' [H _]. exact H.
  - intros k Hk. cbn. lia.
  - apply Demo.pipe_st_run.
  - split; [exists Demo.pi; split; [reflexivity|apply Demo.pi_wf]|].
    exists Demo.world. split; [apply Demo.pipe_st_mem|reflexivity].
Defined.
