(* ===== verification/File.v ===== *)
(** file.c and [pipealloc] of pipe.c: the table of open files.  A file is shared
    by every descriptor that refers to it; its reference count is what
    [filealloc], [filedup] and [fileclose] keep. *)
From S2P Require Import Prelude Mem KState Spinlock Sched Services Layout Pipe.

Definition set_f_ref (v : Z) (f : file) : file :=
  mkFile (f_type f) v (f_readable f) (f_writable f) (f_pipe f) (f_ip f) (f_off f).
Definition set_f_type (v : ftype) (f : file) : file :=
  mkFile v (f_ref f) (f_readable f) (f_writable f) (f_pipe f) (f_ip f) (f_off f).
Definition set_f_off (v : Z) (f : file) : file :=
  mkFile (f_type f) (f_ref f) (f_readable f) (f_writable f) (f_pipe f) (f_ip f) v.

Section File.
Context {W : Type} {VO : VmOps W} {FO : FsOps W}.

Definition get_file (f : nat) : M (kst W) file :=
  o <- gets (λ s, k_files s !! f) ;; match o with Some x => ret x | None => panic "trap" end.
Definition set_file (f : nat) (g : file → file) : M (kst W) unit :=
  modify (λ s, set_k_files (alter g f (k_files s)) s).

Definition fileinit : M (kst W) unit := initlock L_ftable "ftable".

(** The slots of [ftable.file] in the order the loop visits them. *)
Definition fslots : list nat := seq 0 NFILE.

Definition filealloc : M (kst W) (option nat) :=
  acquire L_ftable ;;;
  r <- for_break fslots (λ f,
    x <- get_file f ;;
    if f_ref x =? 0 then
      set_file f (set_f_ref 1) ;;; release L_ftable ;;; ret (Some f)
    else ret None) ;;
  match r with
  | Some f => ret (Some f)
  | None => release L_ftable ;;; ret None
  end.

Definition filedup (f : nat) : M (kst W) nat :=
  acquire L_ftable ;;;
  x <- get_file f ;;
  (if f_ref x <? 1 then panic "filedup" else ret tt) ;;;
  set_file f (set_f_ref (f_ref x + 1)) ;;;
  release L_ftable ;;;
  ret f.

(** The end of [fileclose], once the table entry has been given back: [ff] is the
    copy taken under the lock. *)
Definition fileclose_last (ff : file) : M (kst W) unit :=
  match f_type ff with
  | FD_PIPE => pipeclose (f_pipe ff) (f_writable ff)
  | FD_INODE =>
    fs_begin_op ;;;
    match f_ip ff with Some ip => fs_iput ip | None => panic "trap" end ;;;
    fs_end_op
  | FD_NONE => ret tt
  end.

Definition fileclose (f : nat) : M (kst W) unit :=
  acquire L_ftable ;;;
  x <- get_file f ;;
  (if f_ref x <? 1 then panic "fileclose" else ret tt) ;;;
  set_file f (set_f_ref (f_ref x - 1)) ;;;
  if 0 <? f_ref x - 1 then release L_ftable
  else
    ff <- get_file f ;;
    set_file f (set_f_ref 0) ;;;
    set_file f (set_f_type FD_NONE) ;;;
    release L_ftable ;;;
    fileclose_last ff.

(** The inode of an [FD_INODE] file. *)
Definition file_ip (x : file) : M (kst W) nat :=
  match f_ip x with Some ip => ret ip | None => panic "trap" end.

Definition filestat (f : nat) (st : Z) : M (kst W) Z :=
  x <- get_file f ;;
  match f_type x with
  | FD_INODE =>
    ip <- file_ip x ;;
    fs_ilock ip ;;; fs_stati ip st ;;; fs_iunlock ip ;;; ret 0
  | _ => ret (-1)
  end.

(** [f->off += r] *)
Definition bump_off (f : nat) (r : Z) : M (kst W) unit :=
  set_file f (λ x, set_f_off (u32 (f_off x + r)) x).

Definition fileread (fuel : nat) (f : nat) (addr n : Z) : M (kst W) Z :=
  x <- get_file f ;;
  if f_readable x =? 0 then ret (-1)
  else
    match f_type x with
    | FD_PIPE => piperead fuel (f_pipe x) addr n
    | FD_INODE =>
      ip <- file_ip x ;;
      fs_ilock ip ;;;
      x' <- get_file f ;;
      r <- fs_readi ip addr (f_off x') n ;;
      when (0 <? r) (bump_off f r) ;;;
      fs_iunlock ip ;;;
      ret r
    | FD_NONE => panic "fileread"
    end.

(** At most this many bytes go into one log transaction. *)
Definition filewrite_max : Z := ((LOGSIZE - 1 - 1 - 2) / 2) * 512.

(** [while(i < n)]; the result is the value of [i] on leaving the loop. *)
Fixpoint filewrite_loop (fuel : nat) (f ip : nat) (addr n i : Z) : M (kst W) Z :=
  match fuel with
  | O => λ _, Fuel
  | S fuel' =>
    if i <? n then
      let n1 := if filewrite_max <? n - i then filewrite_max else n - i in
      fs_begin_op ;;;
      fs_ilock ip ;;;
      x <- get_file f ;;
      r <- fs_writei ip (addr + i) (f_off x) n1 ;;
      when (0 <? r) (bump_off f r) ;;;
      fs_iunlock ip ;;;
      fs_end_op ;;;
      if r <? 0 then ret i
      else if negb (r =? n1) then panic "short filewrite"
      else filewrite_loop fuel' f ip addr n (i + r)
    else ret i
  end.

Definition filewrite (fuel : nat) (f : nat) (addr n : Z) : M (kst W) Z :=
  x <- get_file f ;;
  if f_writable x =? 0 then ret (-1)
  else
    match f_type x with
    | FD_PIPE => pipewrite fuel (f_pipe x) addr n
    | FD_INODE =>
      ip <- file_ip x ;;
      i <- filewrite_loop (S (Z.to_nat n)) f ip addr n 0 ;;
      ret (if i =? n then n else -1)
    | FD_NONE => panic "filewrite"
    end.

(** ** pipealloc *)

(** A [struct pipe] fresh from [kalloc] after the assignments of [pipealloc];
    [junk] is what the page held. *)
Definition new_pipe (junk : list Z) : pipe := mkPipe junk 0 0 1 1.

Definition pipealloc (junk : list Z) : M (kst W) (option (nat * nat)) :=
  f0 <- filealloc ;;
  f1 <- (if f0 is Some _ then filealloc else ret None) ;;
  p <- (if f1 is Some _ then kalloc else ret 0) ;;
  match f0, f1 with
  | Some r, Some w =>
    if p =? 0 then fileclose r ;;; fileclose w ;;; ret None
    else
      modify (λ s, set_k_pipes (<[p := new_pipe junk]> (k_pipes s)) s) ;;;
      initlock (L_pipe p) "pipe" ;;;
      set_file r (λ x, mkFile FD_PIPE (f_ref x) 1 0 p (f_ip x) (f_off x)) ;;;
      set_file w (λ x, mkFile FD_PIPE (f_ref x) 0 1 p (f_ip x) (f_off x)) ;;;
      ret (Some (r, w))
  | Some r, None => fileclose r ;;; ret None
  | None, _ => ret None
  end.

End File.

Arguments fslots : simpl never.
Arguments get_file : simpl never.
Arguments set_file : simpl never.
Arguments filedup : simpl never.
Arguments fileclose : simpl never.
Arguments filealloc : simpl never.

(** * The reference counts *)
Section FileLemmas.
Context {W : Type} {VO : VmOps W} {FO : FsOps W}.
Implicit Types s : kst W.

Lemma get_file_eq f x s : k_files s !! f = Some x → get_file f s = Done x s.
Proof. intros H. unfold get_file. cbn. by rewrite H. Qed.

Definition ref_up (x : file) : file := set_f_ref (f_ref x + 1) x.
Definition ref_down (x : file) : file := set_f_ref (f_ref x - 1) x.
(** What [fileclose] leaves in the table when the last reference goes. *)
Definition closed (x : file) : file := set_f_type FD_NONE (set_f_ref 0 x).

(** The state after a critical section on [ftable.lock] that set the table to [fs]. *)
Definition with_files (fs : list file) (s : kst W) : kst W :=
  set_k_cpu (cpu_norm (k_cpu s)) (set_k_files fs s).

Lemma critical_files held fs s :
  kctx held s → L_ftable ∉ held → is_Some (k_locks s !! L_ftable) →
  released L_ftable (set_k_files fs (acquired L_ftable s)) = with_files fs s.
Proof.
  intros Hc Hl Hi.
  change (set_k_files fs (released L_ftable (acquired L_ftable s)) = with_files fs s).
  rewrite released_acquired; [done|by eapply kctx_free|by eapply kctx_cpu_wf].
Qed.

Lemma with_files_kctx held fs s : kctx held s → kctx held (with_files fs s).
Proof. intros Hc. by apply (kctx_norm _ (set_k_files fs s)), (kctx_frame _ s). Qed.

Lemma with_files_krun held ls i p fs s : krun held ls i p s → krun held ls i p (with_files fs s).
Proof.
  intros [A B C D E F]. split; try done; [by apply with_files_kctx|].
  by apply (wf_frame s).
Qed.

(** The lock is taken, the table updated, the lock given back. *)
Lemma files_release held fs s :
  kctx held s → L_ftable ∉ held → is_Some (k_locks s !! L_ftable) →
  release L_ftable (set_k_files fs (acquired L_ftable s)) = Done tt (with_files fs s).
Proof.
  intros Hc Hl Hi. destruct (acquire_kctx held L_ftable s) as [_ Hc1]; [done..|].
  destruct (release_kctx held L_ftable (set_k_files fs (acquired L_ftable s))) as [-> _];
    [by apply (kctx_frame _ (acquired L_ftable s))|].
  by rewrite (critical_files held).
Qed.

Lemma set_file_eq f g x s :
  k_files s !! f = Some x → set_file f g s = Done tt (set_k_files (<[f := g x]> (k_files s)) s).
Proof.
  intros Hx. unfold set_file. cbn. do 2 f_equal. apply list_eq. intros j.
  destruct (decide (j = f)) as [->|].
  - rewrite list_lookup_alter_eq, list_lookup_insert_eq, Hx; [done|by eapply lookup_lt_Some].
  - by rewrite list_lookup_alter_ne, list_lookup_insert_ne.
Qed.

Lemma filedup_eq held f x s :
  kctx held s → L_ftable ∉ held → is_Some (k_locks s !! L_ftable) →
  k_files s !! f = Some x → 1 ≤ f_ref x →
  filedup f s = Done f (with_files (<[f := ref_up x]> (k_files s)) s).
Proof.
  intros Hc Hn Hi Hx Hr. unfold filedup. cbn.
  destruct (acquire_kctx held L_ftable s) as [-> _]; [done..|]. cbn.
  rewrite (get_file_eq f x) by done. cbn. destruct (Z.ltb_spec (f_ref x) 1); [lia|]. cbn.
  rewrite (set_file_eq f _ x) by done. cbn. by rewrite (files_release held).
Qed.

Lemma filedup_panic held f x s :
  kctx held s → L_ftable ∉ held → is_Some (k_locks s !! L_ftable) →
  k_files s !! f = Some x → f_ref x < 1 → filedup f s = Panic "filedup".
Proof.
  intros Hc Hn Hi Hx Hr. unfold filedup. cbn.
  destruct (acquire_kctx held L_ftable s) as [-> _]; [done..|]. cbn.
  rewrite (get_file_eq f x) by done. cbn. destruct (Z.ltb_spec (f_ref x) 1); [done|lia].
Qed.

Lemma fileclose_shared held f x s :
  kctx held s → L_ftable ∉ held → is_Some (k_locks s !! L_ftable) →
  k_files s !! f = Some x → 1 < f_ref x →
  fileclose f s = Done tt (with_files (<[f := ref_down x]> (k_files s)) s).
Proof.
  intros Hc Hn Hi Hx Hr. unfold fileclose. cbn.
  destruct (acquire_kctx held L_ftable s) as [-> _]; [done..|]. cbn.
  rewrite (get_file_eq f x) by done. cbn. destruct (Z.ltb_spec (f_ref x) 1); [lia|]. cbn.
  rewrite (set_file_eq f _ x) by done. cbn. destruct (Z.ltb_spec 0 (f_ref x - 1)); [|lia].
  by rewrite (files_release held).
Qed.

Lemma fileclose_last_ref held f x s :
  kctx held s → L_ftable ∉ held → is_Some (k_locks s !! L_ftable) →
  k_files s !! f = Some x → f_ref x = 1 →
  fileclose f s =
  fileclose_last (set_f_ref 0 x) (with_files (<[f := closed x]> (k_files s)) s).
Proof.
  intros Hc Hn Hi Hx Hr. unfold fileclose. cbn.
  destruct (acquire_kctx held L_ftable s) as [-> _]; [done..|]. cbn.
  rewrite (get_file_eq f x) by done. cbn. rewrite Hr. cbn.
  pose proof (lookup_lt_Some _ _ _ Hx) as Hlt.
  rewrite (set_file_eq f _ x) by done. change (1 - 1) with 0. cbn.
  rewrite (get_file_eq f (set_f_ref 0 x)) by (cbn; by rewrite list_lookup_insert_eq). cbn.
  rewrite (set_file_eq f _ (set_f_ref 0 x)) by (cbn; by rewrite list_lookup_insert_eq). cbn.
  rewrite (set_file_eq f _ (set_f_ref 0 x)) by (cbn; by rewrite list_insert_insert_eq, list_lookup_insert_eq).
  cbn. rewrite !list_insert_insert_eq.
  match goal with |- context [release L_ftable ?st] =>
    change st with (set_k_files (<[f := closed x]> (k_files s)) (acquired L_ftable s)) end.
  by rewrite (files_release held).
Qed.

Lemma fileclose_panic held f x s :
  kctx held s → L_ftable ∉ held → is_Some (k_locks s !! L_ftable) →
  k_files s !! f = Some x → f_ref x < 1 → fileclose f s = Panic "fileclose".
Proof.
  intros Hc Hn Hi Hx Hr. unfold fileclose. cbn.
  destruct (acquire_kctx held L_ftable s) as [-> _]; [done..|]. cbn.
  rewrite (get_file_eq f x) by done. cbn. destruct (Z.ltb_spec (f_ref x) 1); [done|lia].
Qed.

Lemma filealloc_some held f x s :
  kctx held s → L_ftable ∉ held → is_Some (k_locks s !! L_ftable) → length (k_files s) = NFILE →
  list_find (λ x, f_ref x = 0) (k_files s) = Some (f, x) →
  filealloc s = Done (Some f) (with_files (<[f := set_f_ref 1 x]> (k_files s)) s).
Proof.
  intros Hc Hn Hi Hl (Hx & Hr & Hmin)%list_find_Some. unfold filealloc. cbn.
  destruct (acquire_kctx held L_ftable s) as [-> _]; [done..|]. cbn.
  pose proof (lookup_lt_Some _ _ _ Hx) as Hlt.
  unfold fslots. replace NFILE with (f + S (NFILE - S f))%nat by (unfold NFILE in *; lia).
  rewrite seq_app. cbn [seq Nat.add]. rewrite for_break_skip.
  - cbn. rewrite (get_file_eq f x) by done. cbn. rewrite Hr, Z.eqb_refl.
    cbn. rewrite (set_file_eq f _ x) by done. cbn. by rewrite (files_release held).
  - intros j [_ Hj]%elem_of_seq.
    destruct (lookup_lt_is_Some_2 (k_files s) j) as [y Hy]; [unfold NFILE in *; lia|].
    cbn. rewrite (get_file_eq j y) by done. cbn.
    destruct (Z.eqb_spec (f_ref y) 0) as [E|]; [|done]. by destruct (Hmin j y Hy Hj E).
Qed.

Lemma filealloc_none held s :
  kctx held s → L_ftable ∉ held → is_Some (k_locks s !! L_ftable) → length (k_files s) = NFILE →
  list_find (λ x, f_ref x = 0) (k_files s) = None →
  filealloc s = Done None (with_files (k_files s) s).
Proof.
  intros Hc Hn Hi Hl Hf%list_find_None. rewrite Forall_lookup in Hf. unfold filealloc. cbn.
  destruct (acquire_kctx held L_ftable s) as [-> _]; [done..|]. cbn.
  rewrite for_break_none.
  - pose proof (files_release held (k_files s) s Hc Hn Hi) as Hr. cbn.
    replace (set_k_files (k_files s) (acquired L_ftable s)) with (acquired L_ftable s) in Hr
      by (by destruct s). by rewrite Hr.
  - intros j [_ Hj]%elem_of_seq.
    destruct (lookup_lt_is_Some_2 (k_files s) j) as [y Hy]; [unfold NFILE in *; lia|].
    cbn. rewrite (get_file_eq j y) by done. cbn.
    destruct (Z.eqb_spec (f_ref y) 0) as [E|]; [|done]. by destruct (Hf j y Hy E).
Qed.

End FileLemmas.

(** * Pipes through the file table *)
Section PipeFiles.
Context {W : Type} {VO : VmOps W} {VL : VmLaws W} {FO : FsOps W}.
Implicit Types s : kst W.

(** Table entries that are free have no type: what [fileclose] leaves. *)
Definition free_untyped (fs : list file) : Prop :=
  ∀ f x, fs !! f = Some x → f_ref x = 0 → f_type x = FD_NONE.

Lemma list_insert_back {A} (l : list A) i x y : l !! i = Some x → <[i := x]> (<[i := y]> l) = l.
Proof. intros. rewrite list_insert_insert_eq. by apply list_insert_id. Qed.

Lemma list_insert_back2 {A} (l : list A) i j x y x' y' :
  l !! i = Some x → l !! j = Some y → i ≠ j →
  <[j := y]> (<[i := x]> (<[j := y']> (<[i := x']> l))) = l.
Proof.
  intros Hi Hj Hne. rewrite (list_insert_insert_ne _ i j) by done.
  rewrite list_insert_insert_eq, list_insert_insert_eq, (list_insert_id l) by done.
  by apply list_insert_id.
Qed.

(** Closing a file that was just allocated puts the table back. *)
Lemma fileclose_fresh held f x s :
  kctx held s → L_ftable ∉ held → is_Some (k_locks s !! L_ftable) →
  k_files s !! f = Some (set_f_ref 1 x) → f_ref x = 0 → f_type x = FD_NONE →
  fileclose f s = Done tt (with_files (<[f := x]> (k_files s)) s).
Proof.
  intros Hc Hn Hi Hx Hr Ht. rewrite (fileclose_last_ref held f (set_f_ref 1 x)) by done.
  unfold fileclose_last. cbn. rewrite Ht. cbn. do 2 f_equal.
  replace (closed (set_f_ref 1 x)) with x; [done|].
  destruct x. cbn in *. by rewrite Hr, Ht.
Qed.

Lemma with_files_twice fs fs' s : with_files fs (with_files fs' s) = with_files fs s.
Proof.
  unfold with_files. kunf. f_equal. unfold cpu_norm.
  destruct (Z.eqb_spec (c_ncli (k_cpu s)) 0) as [E|E]; cbn; [done|].
  by destruct (Z.eqb_spec (c_ncli (k_cpu s)) 0).
Qed.

Record pipealloc_post (g : gmap Z vobj) (junk : list Z) (s s' : kst W) (r w : nat) : Prop := {
  pp_ne : r ≠ w;
  pp_free : (∃ x, k_files s !! r = Some x ∧ f_ref x = 0) ∧ (∃ x, k_files s !! w = Some x ∧ f_ref x = 0);
  pp_pipe : ∃ a, 0 < a < 2^32 ∧ g !! a = None ∧ vm_inv (<[a := OPage]> g) (k_mem s') ∧
    k_pipes s' = <[a := new_pipe junk]> (k_pipes s) ∧ lock_free (L_pipe a) s' ∧
    (∃ x, k_files s' !! r = Some x ∧ f_type x = FD_PIPE ∧ f_ref x = 1 ∧ f_readable x = 1 ∧
      f_writable x = 0 ∧ f_pipe x = a) ∧
    (∃ x, k_files s' !! w = Some x ∧ f_type x = FD_PIPE ∧ f_ref x = 1 ∧ f_readable x = 0 ∧
      f_writable x = 1 ∧ f_pipe x = a);
  pp_other f : f ≠ r → f ≠ w → k_files s' !! f = k_files s !! f;
}.

Lemma pipealloc_ok held g junk s :
  kctx held s → L_ftable ∉ held → is_Some (k_locks s !! L_ftable) → length (k_files s) = NFILE →
  free_untyped (k_files s) → vm_inv g (k_mem s) →
  ∃ o s', pipealloc junk s = Done o s' ∧
    match o with
    | Some (r, w) => pipealloc_post g junk s s' r w
    | None => k_files s' = k_files s ∧ k_pipes s' = k_pipes s ∧ vm_inv g (k_mem s')
    end.
Proof.
  intros Hc Hn Hi Hl Hf Hg. unfold pipealloc. cbn.
  destruct (list_find (λ x, f_ref x = 0) (k_files s)) as [[r x]|] eqn:E1.
  2: { rewrite (filealloc_none held) by done. cbn. eexists None, _. split; [done|]. done. }
  rewrite (filealloc_some held r x) by done. cbn.
  apply list_find_Some in E1 as (Hx & Hxr & _). pose proof (lookup_lt_Some _ _ _ Hx) as Hrlt.
  set (s1 := with_files _ s). pose proof (with_files_kctx held (<[r:=set_f_ref 1 x]> (k_files s)) s Hc) as Hc1.
  assert (Hl1 : length (k_files s1) = NFILE) by (cbn; by rewrite length_insert).
  destruct (list_find (λ x, f_ref x = 0) (k_files s1)) as [[w y]|] eqn:E2.
  2: { rewrite (filealloc_none held) by done. cbn.
       rewrite (fileclose_fresh held r x); [|by apply with_files_kctx|done|done|
         cbn; by rewrite list_lookup_insert_eq|done|by eapply Hf].
       cbn. eexists None, _. split; [done|]. cbn. by rewrite list_insert_back. }
  rewrite (filealloc_some held w y) by done. cbn.
  apply list_find_Some in E2 as (Hy & Hyr & _).
  assert (Hrw : r ≠ w).
  { intros ->. cbn in Hy. rewrite list_lookup_insert_eq in Hy by done. injection Hy as <-. done. }
  assert (Hy0 : k_files s !! w = Some y) by (cbn in Hy; by rewrite list_lookup_insert_ne in Hy).
  pose proof (lookup_lt_Some _ _ _ Hy0) as Hwlt.
  set (s2 := with_files _ s1). pose proof (with_files_kctx held (<[w:=set_f_ref 1 y]> (k_files s1)) s1 Hc1) as Hc2.
  destruct (vm_kalloc_ok g (k_mem s) Hg) as (a & w' & Hka & Hcase).
  unfold kalloc. rewrite (lift_eq _ a w') by done. cbn.
  destruct Hcase as [[-> Hg']|(Ha & Hga & Hg')].
  - cbn. rewrite (fileclose_fresh held r x); [|by apply (kctx_frame _ s2)|done|done| |done|by eapply Hf].
    2: { cbn. rewrite list_lookup_insert_ne, list_lookup_insert_eq by done. done. }
    cbn. rewrite (fileclose_fresh held w y); [|by apply with_files_kctx, (kctx_frame _ s2)|done|done| |done|by eapply Hf].
    2: { cbn. rewrite list_lookup_insert_ne, list_lookup_insert_eq; [done|by rewrite length_insert|done]. }
    cbn. eexists None, _. split; [done|]. cbn. split; [|done].
    by apply list_insert_back2.
  - destruct (Z.eqb_spec a 0); [lia|]. cbn. unfold initlock. cbn.
    rewrite (set_file_eq r _ (set_f_ref 1 x)) by
      (cbn; rewrite list_lookup_insert_ne, list_lookup_insert_eq by done; done). cbn.
    rewrite (set_file_eq w _ (set_f_ref 1 y)) by
      (cbn; rewrite list_lookup_insert_ne, list_lookup_insert_eq; [done|by rewrite length_insert|done]). cbn.
    eexists (Some (r, w)), _. split; [done|]. split; [done|split; [by exists x|by exists y]| |].
    + exists a. split; [done|]. split; [done|]. split; [done|]. split; [done|].
      split; [exists "pipe"; cbn; by rewrite lookup_insert_eq|]. split; eexists; cbn.
      * rewrite list_lookup_insert_ne, list_lookup_insert_eq; [done|by rewrite !length_insert|done].
      * rewrite list_lookup_insert_eq; [done|by rewrite !length_insert].
    + intros f Hfr Hfw. cbn. by rewrite !list_lookup_insert_ne.
Qed.

(** The end of a pipe named by [wr], closed. *)
Definition close_end (wr : Z) (pi : pipe) : pipe :=
  if wr =? 0 then set_readopen 0 pi else set_writeopen 0 pi.

Lemma pipeclose_ok g i p a wr pi s :
  krun [] [L_pipe a] i p s → k_pipes s !! a = Some pi → vm_inv g (k_mem s) →
  g !! a = Some OPage →
  ∃ s', pipeclose a wr s = Done tt s' ∧ krun [] [L_pipe a] i p s' ∧ k_files s' = k_files s ∧
    if (pi_readopen (close_end wr pi) =? 0) && (pi_writeopen (close_end wr pi) =? 0)
    then k_pipes s' = delete a (k_pipes s) ∧ vm_inv (delete a g) (k_mem s')
    else k_pipes s' = <[a := close_end wr pi]> (k_pipes s) ∧ k_mem s' = k_mem s.
Proof.
  intros Hk Hpi Hg Hga. unfold pipeclose. cbn.
  destruct (krun_acquire [] _ _ _ (L_pipe a) s Hk) as [-> Hk1]; [set_solver..|]. cbn.
  set (s1 := set_k_pipes (<[a := close_end wr pi]> (k_pipes s)) (acquired (L_pipe a) s)).
  assert (Hk2 : krun [L_pipe a] [L_pipe a] i p s1)
    by (by apply (krun_frame _ _ _ _ (acquired (L_pipe a) s))).
  assert (∃ s2, (if negb (wr =? 0) then set_pipe a (set_writeopen 0) ;;; wakeup (C_nread a)
     else set_pipe a (set_readopen 0) ;;; wakeup (C_nwrite a)) (acquired (L_pipe a) s) = Done tt s2 ∧
     krun [L_pipe a] [L_pipe a] i p s2 ∧ kdata s2 = kdata s1) as (s2 & -> & Hk3 & Hd).
  { assert (Hpi' : k_pipes (acquired (L_pipe a) s) !! a = Some pi) by done.
    unfold close_end in s1. destruct (wr =? 0) eqn:Ewr; cbn;
      rewrite (set_pipe_eq a _ pi _ Hpi'); cbn; by apply krun_wakeup; [|set_solver]. }
  pose proof Hd as [= E1 E2 E3 E4 E5 E6 E7].
  cbn. rewrite (get_pipe_eq a (close_end wr pi)) by (rewrite E1; apply lookup_insert_eq). cbn.
  destruct (krun_release [] _ _ _ _ s2 Hk3) as [Hrel Hk4].
  destruct ((pi_readopen (close_end wr pi) =? 0) && (pi_writeopen (close_end wr pi) =? 0)).
  - cbn. rewrite Hrel. cbn. destruct (vm_kfree_ok g (k_mem s) a Hg Hga) as (w & Hkf & Hg').
    unfold kfree. rewrite (lift_eq _ tt w) by (cbn; by rewrite E4). eexists. split; [done|].
    split; [by apply (krun_frame _ _ _ _ (released (L_pipe a) s2))|]. split; [done|].
    split; [|done]. cbn. by rewrite E1, delete_insert_eq.
  - rewrite Hrel. eexists. split; [done|]. done.
Qed.

(** The file table keeps its reference counts: [filealloc] takes the first
    entry with no references and gives it one, or reports that there is none;
    [filedup] adds one, [fileclose] of a shared file takes one away; both panic on
    an entry that is not in use.  No other entry changes, and locks are as before. *)
Theorem file_refcounts held s :
  kctx held s → L_ftable ∉ held → is_Some (k_locks s !! L_ftable) → length (k_files s) = NFILE →
  filealloc s =
    match list_find (λ x, f_ref x = 0) (k_files s) with
    | Some (f, x) => Done (Some f) (with_files (<[f := set_f_ref 1 x]> (k_files s)) s)
    | None => Done None (with_files (k_files s) s)
    end ∧
  ∀ f x, k_files s !! f = Some x →
    filedup f s = (if f_ref x <? 1 then Panic "filedup" else
      Done f (with_files (<[f := set_f_ref (f_ref x + 1) x]> (k_files s)) s)) ∧
    (f_ref x < 1 → fileclose f s = Panic "fileclose") ∧
    (1 < f_ref x →
      fileclose f s = Done tt (with_files (<[f := set_f_ref (f_ref x - 1) x]> (k_files s)) s)).
Proof.
  intros Hc Hn Hi Hl. split.
  - destruct (list_find _ _) as [[f x]|] eqn:E;
      [by apply (filealloc_some held)|by apply (filealloc_none held)].
  - intros f x Hx. split; [|split; intros].
    + destruct (Z.ltb_spec (f_ref x) 1); [by eapply filedup_panic|by apply (filedup_eq held)].
    + by eapply fileclose_panic.
    + by apply (fileclose_shared held).
Qed.

(** [pipealloc] either gives two distinct, previously free file entries, one
    readable and one writable, that share a fresh pipe on a page of its own; or it
    fails and undoes everything: the file table is exactly as before and no page
    is lost. *)
Theorem pipealloc_spec held g junk s :
  kctx held s → L_ftable ∉ held → is_Some (k_locks s !! L_ftable) → length (k_files s) = NFILE →
  free_untyped (k_files s) → vm_inv g (k_mem s) →
  ∃ o s', pipealloc junk s = Done o s' ∧
    match o with
    | Some (r, w) => pipealloc_post g junk s s' r w
    | None => k_files s' = k_files s ∧ k_pipes s' = k_pipes s ∧ vm_inv g (k_mem s')
    end.
Proof. apply pipealloc_ok. Qed.

(** [pipeclose] closes one end; the page is freed when, and only when, the
    other end is closed already, and the pipe is gone from then on. *)
Theorem pipeclose_spec g i p a wr pi s :
  krun [] [L_pipe a] i p s → k_pipes s !! a = Some pi → vm_inv g (k_mem s) →
  g !! a = Some OPage →
  ∃ s', pipeclose a wr s = Done tt s' ∧ krun [] [L_pipe a] i p s' ∧ k_files s' = k_files s ∧
    if (pi_readopen (close_end wr pi) =? 0) && (pi_writeopen (close_end wr pi) =? 0)
    then k_pipes s' = delete a (k_pipes s) ∧ vm_inv (delete a g) (k_mem s')
    else k_pipes s' = <[a := close_end wr pi]> (k_pipes s) ∧ k_mem s' = k_mem s.
Proof. apply pipeclose_ok. Qed.

End PipeFiles.

(** One process, a free file table, the pipe of [Pipe.Demo] on a page of its own. *)
Module Demo.
Definition world : gmap Z vobj := {[ 8192 := OPage ]}.
Definition locks : gmap lockid spinlock :=
  {[ L_ptable := mkLock 0 "ptable" None; L_ftable := mkLock 0 "ftable" None;
     L_pipe 8192 := mkLock 0 "pipe" None ]}.
Definition st : kst (gmap Z vobj) := Sched.Demo.mk locks {[ 8192 := Pipe.Demo.pi ]} world.

Lemma locks_free : map_Forall (λ _ lk, lk = mkLock 0 (l_name lk) None) locks.
Proof.
  apply map_Forall_insert_2; [done|]. apply map_Forall_insert_2; [done|].
  by apply map_Forall_singleton.
Qed.
Lemma file_st_run : krun [] [L_pipe 8192] 0 Sched.Demo.p1 st.
Proof.
  apply Sched.Demo.mk_krun; [exact locks_free|].
  intros l [->|[->|Hl%not_elem_of_nil]%elem_of_cons]%elem_of_cons; [..|done]; by eexists.
Qed.
Lemma file_st_mem : vm_inv world (k_mem st).
Proof.
  split; [done|]. intros pd sz um Hl. change (world !! pd = Some (OSpace sz um)) in Hl.
  unfold world in Hl. by apply lookup_singleton_Some in Hl as [_ ?].
Qed.
End Demo.

Lemma file_refcounts_witness : filealloc Demo.st = Done (Some 0%nat)
  (with_files (<[0%nat := set_f_ref 1 file0]> (k_files Demo.st)) Demo.st).
Proof.
  exact (proj1 (file_refcounts [] Demo.st (kr_ctx _ _ _ _ _ Demo.file_st_run) ltac:(set_solver)
    (mk_is_Some _ _ eq_refl) eq_refl)).
Defined.

Lemma pipealloc_spec_witness : ∃ o s', pipealloc (replicate 512 0) Demo.st = Done o s' ∧
  (o = None → k_files s' = k_files Demo.st).
Proof.
  destruct (pipealloc_spec [] Demo.world (replicate 512 0) Demo.st (kr_ctx _ _ _ _ _ Demo.file_st_run)
    ltac:(set_solver) (mk_is_Some _ _ eq_refl) eq_refl) as (o & s' & H1 & H2).
  - intros f x [-> _]%(lookup_replicate NFILE file0 x f). reflexivity.
  - exact Demo.file_st_mem.
  - exists o, s'. split; [exact H1|]. intros ->. exact (proj1 H2).
Defined.

Lemma pipeclose_spec_witness : ∃ s', pipeclose 8192 1 Demo.st = Done tt s' ∧
  k_pipes s' !! 8192 = Some (set_writeopen 0 Pipe.Demo.pi).
Proof.
  destruct (pipeclose_spec Demo.world 0 Sched.Demo.p1 8192 1 Pipe.Demo.pi Demo.st Demo.file_st_run
    eq_refl Demo.file_st_mem eq_refl) as (s' & H1 & H2 & H3 & H4).
  exists s'. split; [exact H1|]. destruct H4 as [H4 _]. rewrite H4. reflexivity.
Defined.
