(* ===== verification/Proc.v ===== *)
(** proc.c, the life cycle of a process: [allocproc], [userinit], [growproc],
    [fork], [exit], [wait], [forkret].  [exit] never returns, so its
    specification is about the state in which it gives up the CPU for good. *)
From S2P Require Import Prelude Mem Str KState Spinlock Sched Services Pipe File.

Definition ROOTDEV : Z := 1.
Definition SIG_DFL : Z := 0.

(** ** Process names: 16-byte arrays filled by [safestrcpy] *)

(** [safestrcpy(dst, src, n)] on a 16-byte array and a NUL-terminated string. *)
Definition name_copy (dst src : list Z) (n : Z) : list Z :=
  bytes (KString.safestrcpy (writes (writes (λ _, 0) 0 dst) 64 (src ++ [0])) 0 64 n) 0 (length dst).

Definition initcode_name : list Z := [105; 110; 105; 116; 99; 111; 100; 101].

(** The address of a process, as a sleep channel. *)
Definition proc_chan (o : option nat) : chan :=
  match o with Some i => C_proc i | None => C_null end.

(** The descriptors of a process in the order the loops visit them. *)
Definition fds : list nat := seq 0 NOFILE.
Arguments fds : simpl never.

Section Proc.
Context {W : Type} {VO : VmOps W} {FO : FsOps W}.
(** The link address of [forkret]; and what a fresh kernel stack page holds where
    the trap frame goes. *)
Variable forkret_addr : Z.
Variable junk : trapframe.

Definition initSigHandlers (i : nat) : M (kst W) unit :=
  set_proc i (set_p_handlers (replicate NUMSIG 0)).

(** The part of [allocproc] after the kernel stack has been allocated. *)
Definition allocproc_init (i : nat) : M (kst W) unit :=
  set_proc i (set_p_tf junk) ;;;
  set_proc i (set_p_pending 0) ;;;
  set_proc i (set_p_alarmFlag (u32 (-1))) ;;;
  initSigHandlers i ;;;
  set_proc i (set_p_pending 0) ;;;
  set_proc i (set_p_isHandelingSignal 0) ;;;
  set_proc i (set_p_context (mkContext 0 0 0 0 forkret_addr)).

Definition allocproc : M (kst W) (option nat) :=
  acquire L_ptable ;;;
  r <- for_break slots (λ i,
    p <- proc_at i ;;
    if decide (p_state p = UNUSED) then ret (Some i) else ret None) ;;
  match r with
  | None => release L_ptable ;;; ret None
  | Some i =>
    set_proc i (set_p_state EMBRYO) ;;;
    pid <- gets k_nextpid ;;
    set_proc i (set_p_pid pid) ;;;
    modify (set_k_nextpid (s32 (pid + 1))) ;;;
    release L_ptable ;;;
    ks <- kalloc ;;
    set_proc i (set_p_kstack ks) ;;;
    if ks =? 0 then set_proc i (set_p_state UNUSED) ;;; ret None
    else allocproc_init i ;;; ret (Some i)
  end.

(** [_binary_initcode_start] is linked into the kernel: its bytes are an argument. *)
Definition userinit (initcode : list Z) : M (kst W) unit :=
  o <- allocproc ;;
  modify (set_k_initproc o) ;;;
  match o with
  | None => panic "trap"
  | Some i =>
    pd <- setupkvm ;;
    set_proc i (set_p_pgdir pd) ;;;
    (if pd =? 0 then panic "userinit: out of memory?" else ret tt) ;;;
    inituvm pd initcode ;;;
    set_proc i (set_p_sz PGSIZE) ;;;
    set_proc i (set_p_tf tf0) ;;;
    set_proc i (λ p, set_p_tf (set_tf_cs (Z.lor (Z.shiftl SEG_UCODE 3) DPL_USER) (p_tf p)) p) ;;;
    set_proc i (λ p, set_p_tf (set_tf_ds (Z.lor (Z.shiftl SEG_UDATA 3) DPL_USER) (p_tf p)) p) ;;;
    set_proc i (λ p, set_p_tf (set_tf_es (tf_ds (p_tf p)) (p_tf p)) p) ;;;
    set_proc i (λ p, set_p_tf (set_tf_ss (tf_ds (p_tf p)) (p_tf p)) p) ;;;
    set_proc i (λ p, set_p_tf (set_tf_eflags FL_IF (p_tf p)) p) ;;;
    set_proc i (λ p, set_p_tf (set_tf_esp PGSIZE (p_tf p)) p) ;;;
    set_proc i (λ p, set_p_tf (set_tf_eip 0 (p_tf p)) p) ;;;
    set_proc i (λ p, set_p_name (name_copy (p_name p) initcode_name 16) p) ;;;
    d <- fs_namei [47] ;;
    set_proc i (set_p_cwd d) ;;;
    set_proc i (set_p_pending 0) ;;;
    set_proc i (set_p_handlers (replicate NUMSIG SIG_DFL)) ;;;
    acquire L_ptable ;;;
    set_proc i (set_p_state RUNNABLE) ;;;
    release L_ptable
  end.

Definition growproc (n : Z) : M (kst W) Z :=
  i <- myproc ;;
  p <- proc_at i ;;
  let sz := p_sz p in
  r <- (if 0 <? n then
          v <- allocuvm (p_pgdir p) sz (u32 (sz + n)) ;;
          ret (if v =? 0 then None else Some v)
        else if n <? 0 then
          v <- deallocuvm (p_pgdir p) sz (u32 (sz + n)) ;;
          ret (if v =? 0 then None else Some v)
        else ret (Some sz)) ;;
  match r with
  | None => ret (-1)
  | Some v => set_cur (set_p_sz v) ;;; switchuvm i ;;; ret 0
  end.

(** [for(i = 0; i < NOFILE; i++) if(proc->ofile[i]) np->ofile[i] = filedup(...)] *)
Definition fork_files (np : nat) : M (kst W) unit :=
  for_each fds (λ fd,
    p <- cur ;;
    match p_ofile p !! fd with
    | Some (Some f) =>
      f' <- filedup f ;;
      set_proc np (λ q, set_p_ofile (<[fd := Some f']> (p_ofile q)) q)
    | _ => ret tt
    end).

(** The rest of [fork], from the current directory on. *)
Definition fork_finish (np : nat) : M (kst W) Z :=
  p <- cur ;;
  d <- match p_cwd p with Some ip => fs_idup ip | None => panic "trap" end ;;
  set_proc np (set_p_cwd (Some d)) ;;;
  set_proc np (λ q, set_p_name (name_copy (p_name q) (p_name p) 16) q) ;;;
  q <- proc_at np ;;
  let pid := p_pid q in
  set_proc np (set_p_handlers (p_handlers p)) ;;;
  acquire L_ptable ;;;
  set_proc np (set_p_state RUNNABLE) ;;;
  release L_ptable ;;;
  ret pid.

Definition fork : M (kst W) Z :=
  o <- allocproc ;;
  match o with
  | None => ret (-1)
  | Some np =>
    me <- myproc ;;
    p <- proc_at me ;;
    pd <- copyuvm (p_pgdir p) (p_sz p) ;;
    set_proc np (set_p_pgdir pd) ;;;
    if pd =? 0 then
      q <- proc_at np ;;
      kfree (p_kstack q) ;;;
      set_proc np (set_p_kstack 0) ;;;
      set_proc np (set_p_state UNUSED) ;;;
      ret (-1)
    else
      set_proc np (set_p_sz (p_sz p)) ;;;
      set_proc np (set_p_parent (Some me)) ;;;
      set_proc np (set_p_tf (p_tf p)) ;;;
      set_proc np (λ q, set_p_tf (set_tf_eax 0 (p_tf q)) q) ;;;
      fork_files np ;;;
      fork_finish np
  end.

(** ** exit *)

(** [for(fd = 0; fd < NOFILE; fd++) if(proc->ofile[fd]) { fileclose(...); ... = 0; }] *)
Definition exit_files : M (kst W) unit :=
  for_each fds (λ fd,
    p <- cur ;;
    match p_ofile p !! fd with
    | Some (Some f) =>
      fileclose f ;;;
      set_cur (λ q, set_p_ofile (<[fd := None]> (p_ofile q)) q)
    | _ => ret tt
    end).

Definition exit_cwd : M (kst W) unit :=
  fs_begin_op ;;;
  p <- cur ;;
  match p_cwd p with Some ip => fs_iput ip | None => panic "trap" end ;;;
  fs_end_op ;;;
  set_cur (set_p_cwd None).

(** One slot of the loop that passes abandoned children to init. *)
Definition reparent_body (me : nat) (i : nat) : M (kst W) unit :=
  p <- proc_at i ;;
  when (bool_decide (p_parent p = Some me))
    (ini <- gets k_initproc ;;
     set_proc i (set_p_parent ini) ;;;
     q <- proc_at i ;;
     when (bool_decide (p_state q = ZOMBIE)) (wakeup1 (proc_chan ini))).

(** With [ptable.lock] held: wake the parent, pass the children on, become a zombie. *)
Definition exit_table : M (kst W) unit :=
  me <- myproc ;;
  p <- proc_at me ;;
  wakeup1 (proc_chan (p_parent p)) ;;;
  for_each slots (reparent_body me) ;;;
  set_cur (set_p_state ZOMBIE).

(** The end of [exit]: from [acquire(&ptable.lock)] on. *)
Definition exit_tail : M (kst W) unit :=
  acquire L_ptable ;;;
  exit_table ;;;
  sched ;;;
  panic "zombie exit".

Definition exit : M (kst W) unit :=
  me <- myproc ;;
  ini <- gets k_initproc ;;
  (if decide (Some me = ini) then panic "init exiting" else ret tt) ;;;
  exit_files ;;;
  exit_cwd ;;;
  exit_tail.

(** ** wait *)

(** Give back the slot of a zombie child and return its pid. *)
Definition wait_reap (i : nat) (p : proc) : M (kst W) Z :=
  let pid := p_pid p in
  kfree (p_kstack p) ;;;
  set_proc i (set_p_kstack 0) ;;;
  freevm (p_pgdir p) ;;;
  set_proc i (set_p_pid 0) ;;;
  set_proc i (set_p_parent None) ;;;
  set_proc i (λ q, set_p_name (<[0%nat := 0]> (p_name q)) q) ;;;
  set_proc i (set_p_killed 0) ;;;
  set_proc i (set_p_state UNUSED) ;;;
  set_proc i (set_p_pending 0) ;;;
  set_proc i (set_p_handlers (replicate NUMSIG SIG_DFL)) ;;;
  set_proc i (set_p_isHandlingsignal 0) ;;;
  set_proc i (set_p_alarmFlag 0) ;;;
  release L_ptable ;;;
  ret pid.

(** The scan: [inr pid] when it returned from the middle, else [inl havekids]. *)
Fixpoint wait_scan (l : list nat) (havekids : bool) : M (kst W) (bool + Z) :=
  match l with
  | [] => ret (inl havekids)
  | i :: l' =>
    p <- proc_at i ;;
    me <- gets k_cur ;;
    if decide (p_parent p = me) then
      if decide (p_state p = ZOMBIE) then pid <- wait_reap i p ;; ret (inr pid)
      else wait_scan l' true
    else wait_scan l' havekids
  end.

Definition wait_body : M (kst W) (option Z) :=
  r <- wait_scan slots false ;;
  match r with
  | inr pid => ret (Some pid)
  | inl havekids =>
    p <- cur ;;
    if negb havekids || negb (p_killed p =? 0) then release L_ptable ;;; ret (Some (-1))
    else
      me <- myproc ;;
      sleep (C_proc me) (Some L_ptable) ;;;
      ret None
  end.

Definition wait (fuel : nat) : M (kst W) Z :=
  acquire L_ptable ;;; loop fuel wait_body.

(** ** forkret *)

(** A new process starts here, holding [ptable.lock] from [scheduler]. *)
Definition forkret : M (kst W) unit :=
  release L_ptable ;;;
  first <- gets k_first ;;
  when first (
    modify (set_k_first false) ;;;
    fs_iinit ROOTDEV ;;;
    fs_initlog ROOTDEV).

End Proc.

Arguments name_copy : simpl never.
Arguments allocproc_init : simpl never.
Arguments fork_files : simpl never.
Arguments fork_finish : simpl never.
Arguments exit_files : simpl never.
Arguments exit_cwd : simpl never.
Arguments reparent_body : simpl never.
Arguments exit_table : simpl never.
Arguments wait_reap : simpl never.
Arguments wait_body : simpl never.
Arguments allocproc : simpl never.
Arguments for_break : simpl never.
Arguments for_each : simpl never.

(** * allocproc *)
Section Alloc.
Context {W : Type} {VO : VmOps W} {VL : VmLaws W} {FO : FsOps W}.
Variable forkret_addr : Z.
Variable junk : trapframe.
Implicit Types s : kst W.

(** The slot [q] once [allocproc] has taken it, with kernel stack [ks]. *)
Definition embryo (pid ks : Z) (q : proc) : proc :=
  mkProc (p_sz q) (p_pgdir q) ks EMBRYO pid (p_parent q) junk
    (mkContext 0 0 0 0 forkret_addr) (p_chan q) (p_killed q) (p_ofile q) (p_cwd q) (p_name q)
    0 (replicate NUMSIG 0) (p_isHandlingsignal q) 0 (u32 (-1)).

(** The slot [q] when there was no memory for a kernel stack. *)
Definition stillborn (pid : Z) (q : proc) : proc :=
  set_p_state UNUSED (set_p_kstack 0 (set_p_pid pid q)).

Definition took_pid (w : W) (s : kst W) : kst W :=
  set_k_mem w (set_k_nextpid (s32 (k_nextpid s + 1)) (set_k_cpu (cpu_norm (k_cpu s)) s)).

Lemma allocproc_found held i q ks w s :
  kctx held s → L_ptable ∉ held → is_Some (k_locks s !! L_ptable) → length (k_procs s) = NPROC →
  list_find (λ p, p_state p = UNUSED) (k_procs s) = Some (i, q) →
  vm_kalloc (k_mem s) = inr (ks, w) →
  allocproc forkret_addr junk s =
    if ks =? 0 then Done None (with_proc i (stillborn (k_nextpid s) q) (took_pid w s))
    else Done (Some i) (with_proc i (embryo (k_nextpid s) ks q) (took_pid w s)).
Proof.
  intros Hc Hn Hi Hl Hf Hk. unfold allocproc. cbn.
  destruct (acquire_kctx held L_ptable s) as [-> Hc1]; [done..|]. cbn.
  pose proof Hf as (Hq & Hst & _)%list_find_Some. pose proof (lookup_lt_Some _ _ _ Hq) as Hlt.
  rewrite (for_break_slots_some (λ p, p_state p = UNUSED) _ i q i _ (acquired L_ptable s)); [|done|done|..].
  2: { intros j p Hp Hne. cbn. rewrite (proc_at_eq j p) by done. cbn. by rewrite decide_False. }
  2: { cbn. rewrite (proc_at_eq i q) by done. cbn. by rewrite decide_True. }
  cbn. rewrite (set_proc_eq i _ q) by done. cbn. slot_steps.
  match goal with |- context [release _ ?st] =>
    destruct (release_kctx held L_ptable st) as [-> _]; [by apply (kctx_frame _ (acquired L_ptable s))|]
  end. cbn.
  match goal with |- context [kalloc ?st] =>
    replace st with (with_proc i (set_p_pid (k_nextpid s) (set_p_state EMBRYO q))
      (set_k_nextpid (s32 (k_nextpid s + 1)) (set_k_cpu (cpu_norm (k_cpu s)) s)))
  end.
  2: { change (with_proc i (set_p_pid (k_nextpid s) (set_p_state EMBRYO q))
         (set_k_nextpid (s32 (k_nextpid s + 1)) (set_k_cpu (cpu_norm (k_cpu s)) s)) =
       with_proc i (set_p_pid (k_nextpid s) (set_p_state EMBRYO q))
         (set_k_nextpid (s32 (k_nextpid s + 1)) (released L_ptable (acquired L_ptable s)))).
       rewrite released_acquired; [done|by eapply kctx_free|by eapply kctx_cpu_wf]. }
  unfold kalloc. rewrite (lift_eq _ ks w) by done. cbn.
  match goal with |- context [set_proc i _ ?st] =>
    change st with (with_proc i (set_p_pid (k_nextpid s) (set_p_state EMBRYO q)) (took_pid w s)) end.
  slot_steps. destruct (Z.eqb_spec ks 0) as [->|]; cbn; slot_steps.
  - done.
  - unfold allocproc_init, initSigHandlers. cbn. slot_steps. done.
Qed.

Lemma allocproc_full held s :
  kctx held s → L_ptable ∉ held → is_Some (k_locks s !! L_ptable) → length (k_procs s) = NPROC →
  list_find (λ p, p_state p = UNUSED) (k_procs s) = None →
  allocproc forkret_addr junk s = Done None (set_k_cpu (cpu_norm (k_cpu s)) s).
Proof.
  intros Hc Hn Hi Hl Hf. unfold allocproc. cbn.
  destruct (acquire_kctx held L_ptable s) as [-> Hc1]; [done..|]. cbn.
  rewrite (for_break_slots_none (λ p, p_state p = UNUSED)); [|done|done|].
  - cbn. destruct (release_kctx held L_ptable (acquired L_ptable s)) as [-> _]; [done|]. cbn.
    rewrite released_acquired; [done|by eapply kctx_free|by eapply kctx_cpu_wf].
  - intros j p Hp Hne. cbn. rewrite (proc_at_eq j p) by done. cbn. by rewrite decide_False.
Qed.

(** Taking a pid keeps the table well formed. *)
Lemma took_pid_wf i q q' w s :
  ptable_wf s → k_procs s !! i = Some q → p_state q = UNUSED → 0 < k_nextpid s < 2^31 - 1 →
  proc_ok q' → p_pid q' = k_nextpid s → p_state q' ≠ RUNNING →
  ptable_wf (with_proc i q' (took_pid w s)).
Proof.
  intros [A B C D E F G] Hq Hst Hnp Hok Hpid Hr. pose proof (lookup_lt_Some _ _ _ Hq) as Hlt.
  assert (L : ∀ j p, k_procs (with_proc i q' (took_pid w s)) !! j = Some p →
    (j = i ∧ p = q') ∨ (j ≠ i ∧ k_procs s !! j = Some p)).
  { intros j p. unfold with_proc. cbn. destruct (decide (j = i)) as [->|].
    - rewrite list_lookup_insert_eq by done. intros [= <-]. by left.
    - rewrite list_lookup_insert_ne by done. by right. }
  assert (Hn : k_nextpid (with_proc i q' (took_pid w s)) = k_nextpid s + 1).
  { cbn. apply s32_id. lia. }
  split; try done.
  - unfold with_proc. cbn. by rewrite length_insert.
  - intros j p [[-> ->]|[_ Hp]]%L; [done|by eapply B].
  - rewrite Hn. intros j p [[-> ->]|[_ Hp]]%L; [lia|]. specialize (C _ _ Hp). lia.
  - intros j k p p' [[-> ->]|[? Hp]]%L [[-> ->]|[? Hp']]%L; try done; intros He Hne.
    + specialize (C _ _ Hp'). lia.
    + specialize (C _ _ Hp). lia.
    + by eapply D.
  - intros j p [[-> ->]|[_ Hp]]%L Hrun; [done|by eapply E].
Qed.

End Alloc.

(** * fork *)
Section Fork.
Context {W : Type} {VO : VmOps W} {VL : VmLaws W} {FO : FsOps W} {FL : FsLaws W}.
Variable forkret_addr : Z.
Variable junk : trapframe.
Implicit Types s : kst W.

(** The effect of duplicating the descriptors [l] of the parent: on the file
    table, and on the child's descriptors. *)
Definition dup_files (po : list (option nat)) (l : list nat) (fs : list file) : list file :=
  foldl (λ fs fd, if po !! fd is Some (Some f) then alter ref_up f fs else fs) fs l.
Definition dup_ofile (po : list (option nat)) (l : list nat) (co : list (option nat)) :
    list (option nat) :=
  foldl (λ co fd, if po !! fd is Some (Some f) then <[fd := Some f]> co else co) co l.

Definition open_ok (po : list (option nat)) (fs : list file) : Prop :=
  ∀ fd f, po !! fd = Some (Some f) → ∃ x, fs !! f = Some x ∧ 1 ≤ f_ref x.

Lemma open_ok_dup po f fs : open_ok po fs → open_ok po (alter ref_up f fs).
Proof.
  intros H fd f' Hf. destruct (H _ _ Hf) as (x & Hx & Hr).
  destruct (decide (f' = f)) as [->|].
  - exists (ref_up x). rewrite list_lookup_alter_eq, Hx. split; [done|]. cbn. lia.
  - exists x. by rewrite list_lookup_alter_ne.
Qed.

Lemma alter_insert_at {A} (f : A → A) (l : list A) i x :
  l !! i = Some x → <[i := f x]> l = alter f i l.
Proof.
  intros Hx. apply list_eq. intros j. destruct (decide (j = i)) as [->|].
  - rewrite list_lookup_alter_eq, Hx, list_lookup_insert_eq; [done|by eapply lookup_lt_Some].
  - by rewrite list_lookup_alter_ne, list_lookup_insert_ne.
Qed.

#[local] Arguments dup_files : simpl never.
#[local] Arguments dup_ofile : simpl never.

Lemma dup_files_cons po fd l fs : dup_files po (fd :: l) fs =
  dup_files po l (if po !! fd is Some (Some f) then alter ref_up f fs else fs).
Proof. done. Qed.
Lemma dup_ofile_cons po fd l co : dup_ofile po (fd :: l) co =
  dup_ofile po l (if po !! fd is Some (Some f) then <[fd := Some f]> co else co).
Proof. done. Qed.

(** Interrupt bookkeeping settled: a critical section changes nothing of the CPU. *)
Definition settled (s : kst W) : Prop := cpu_norm (k_cpu s) = k_cpu s.

Lemma settled_files fs s : settled s → with_files fs s = set_k_files fs s.
Proof. intros H. unfold with_files. rewrite H. by destruct s. Qed.

Lemma fork_files_eq me np p q l s :
  kctx [] s → is_Some (k_locks s !! L_ftable) → settled s → k_cur s = Some me → me ≠ np →
  k_procs s !! me = Some p → k_procs s !! np = Some q → open_ok (p_ofile p) (k_files s) →
  for_each l (λ fd,
    p <- cur ;;
    match p_ofile p !! fd with
    | Some (Some f) =>
      f' <- filedup f ;; set_proc np (λ q, set_p_ofile (<[fd := Some f']> (p_ofile q)) q)
    | _ => ret tt
    end) s =
  Done tt (with_proc np (set_p_ofile (dup_ofile (p_ofile p) l (p_ofile q)) q)
    (set_k_files (dup_files (p_ofile p) l (k_files s)) s)).
Proof.
  revert q s. induction l as [|fd l IH]; intros q s Hc Hi Hset Hcur Hne Hp Hq Hok.
  { unfold dup_files, dup_ofile. cbn. unfold with_proc. cbn. do 2 f_equal. replace (set_p_ofile (p_ofile q) q) with q by (by destruct q).
    rewrite list_insert_id by done. by destruct s. }
  rewrite for_each_cons. cbn. rewrite (cur_eq me p) by done. cbn.
  pose proof (lookup_lt_Some _ _ _ Hq) as Hlt.
  rewrite dup_files_cons, dup_ofile_cons.
  destruct (p_ofile p !! fd) as [[f|]|] eqn:Hfd; [|by apply IH..].
  destruct (Hok _ _ Hfd) as (x & Hx & Hr). cbn.
  rewrite (filedup_eq [] f x) by (done || set_solver). cbn. rewrite settled_files by done.
  rewrite (set_proc_eq np _ q) by done. cbn.
  rewrite (IH (set_p_ofile (<[fd := Some f]> (p_ofile q)) q)); clear IH; try done.
  - unfold with_proc. cbn. rewrite (alter_insert_at ref_up) by done. kunf.
    by rewrite list_insert_insert_eq.
  - by apply with_proc_kctx, (kctx_frame _ s).
  - by rewrite with_proc_ne.
  - by apply with_proc_lookup.
  - cbn. rewrite (alter_insert_at ref_up) by done. by apply open_ok_dup.
Qed.

(** What [fork] leaves in the child's slot [q]. *)
Definition child_of (me : nat) (pid ks pd : Z) (p q : proc) : proc :=
  mkProc (p_sz p) pd ks RUNNABLE pid (Some me) (set_tf_eax 0 (p_tf p))
    (mkContext 0 0 0 0 forkret_addr) (p_chan q) (p_killed q)
    (dup_ofile (p_ofile p) fds (p_ofile q)) (p_cwd p)
    (name_copy (p_name q) (p_name p) 16) 0 (p_handlers p) (p_isHandlingsignal q) 0 (u32 (-1)).

Lemma cpu_norm_idem c : cpu_norm (cpu_norm c) = cpu_norm c.
Proof. unfold cpu_norm. destruct (Z.eqb_spec (c_ncli c) 0) as [E|E]; cbn; [done|]. by destruct (Z.eqb_spec (c_ncli c) 0). Qed.

Lemma with_proc_mem w i q s : set_k_mem w (with_proc i q s) = with_proc i q (set_k_mem w s).
Proof. done. Qed.

(** [acquire(&ptable.lock); np->state = st; release(&ptable.lock);] *)
Lemma publish st i q s :
  kctx [] s → is_Some (k_locks s !! L_ptable) → settled s → (i < length (k_procs s))%nat →
  (acquire L_ptable ;;; set_proc i (set_p_state st) ;;; release L_ptable) (with_proc i q s) =
  Done tt (with_proc i (set_p_state st q) s).
Proof.
  intros Hc Hi Hset Hlt. cbn.
  destruct (acquire_kctx [] L_ptable (with_proc i q s)) as [-> Hc1];
    [by apply with_proc_kctx|set_solver|done|]. cbn.
  change (acquired L_ptable (with_proc i q s)) with (with_proc i q (acquired L_ptable s)) in *.
  rewrite set_proc_with by done. cbn.
  destruct (release_kctx [] L_ptable (with_proc i (set_p_state st q) (acquired L_ptable s))) as [-> _].
  { by apply (kctx_frame _ (with_proc i q (acquired L_ptable s))). }
  change (released L_ptable (with_proc i (set_p_state st q) (acquired L_ptable s)))
    with (with_proc i (set_p_state st q) (released L_ptable (acquired L_ptable s))).
  rewrite released_acquired; [|apply (kctx_free []); [done|set_solver|done]|by eapply kctx_cpu_wf].
  rewrite Hset. by destruct s.
Qed.

Lemma publish_bind {B} st i q s (k : M (kst W) B) :
  kctx [] s → is_Some (k_locks s !! L_ptable) → settled s → (i < length (k_procs s))%nat →
  (acquire L_ptable ;;; set_proc i (set_p_state st) ;;; release L_ptable ;;; k) (with_proc i q s) =
  k (with_proc i (set_p_state st q) s).
Proof.
  intros Hc Hi Hset Hlt. pose proof (publish st i q s Hc Hi Hset Hlt) as H. cbn in *.
  destruct (acquire L_ptable (with_proc i q s)); cbn in *; try done.
  destruct (set_proc i (set_p_state st) s0); cbn in *; try done. by rewrite H.
Qed.

Lemma with_proc_files fs i q s : set_k_files fs (with_proc i q s) = with_proc i q (set_k_files fs s).
Proof. done. Qed.

Lemma fork_finish_eq me np p q ip s :
  kctx [] s → is_Some (k_locks s !! L_ptable) → is_Some (k_locks s !! L_icache) → settled s →
  k_cur s = Some me → np ≠ me → k_procs s !! me = Some p → (np < length (k_procs s))%nat →
  p_cwd p = Some ip →
  ∃ w f, fork_finish np (with_proc np q s) = Done (p_pid q)
      (with_proc np (set_p_state RUNNABLE (set_p_handlers (p_handlers p)
        (set_p_name (name_copy (p_name q) (p_name p) 16) (set_p_cwd (Some ip) q))))
        (set_k_fs f (set_k_mem w s))) ∧
    ∀ g, vm_inv g (k_mem s) → vm_inv g w.
Proof.
  intros Hc Hlp Hli Hset Hcur Hne Hp Hlt Hcwd. unfold fork_finish. cbn.
  rewrite (cur_eq me p); [|done|by rewrite with_proc_ne]. cbn. rewrite Hcwd. cbn.
  destruct (fs_idup_ok [] ip (with_proc np q s)) as (w & f & -> & Hw);
    [by apply with_proc_kctx|set_solver|done|].
  exists w, f. split; [|done]. cbn.
  replace (set_k_cpu (cpu_norm (k_cpu (with_proc np q s))) (set_k_fs f (set_k_mem w (with_proc np q s))))
    with (with_proc np q (set_k_fs f (set_k_mem w s))).
  2: { change (k_cpu (with_proc np q s)) with (k_cpu s). rewrite Hset. by destruct s. }
  slot_steps. rewrite (proc_at_eq np (set_p_name (name_copy (p_name q) (p_name p) 16) (set_p_cwd (Some ip) q)))
    by (by apply with_proc_lookup). cbn. slot_steps.
  exact (publish_bind RUNNABLE np _ (set_k_fs f (set_k_mem w s)) (ret (p_pid q))
    ltac:(by apply (kctx_frame _ s)) Hlp Hset Hlt).
Qed.

(** The memory part of [fork] fails: the slot and its stack are given back. *)
Definition fork_failed (pid : Z) (q : proc) : proc :=
  set_p_state UNUSED (set_p_kstack 0 (set_p_pgdir 0 (embryo forkret_addr junk pid 0 q))).

Lemma fork_eq me np p q g um ks w ip s :
  kctx [] s → ptable_wf s → is_Some (k_locks s !! L_ptable) → is_Some (k_locks s !! L_ftable) →
  is_Some (k_locks s !! L_icache) → k_cur s = Some me → k_procs s !! me = Some p →
  p_state p ≠ UNUSED → open_ok (p_ofile p) (k_files s) → p_cwd p = Some ip →
  list_find (λ p, p_state p = UNUSED) (k_procs s) = Some (np, q) →
  vm_kalloc (k_mem s) = inr (ks, w) → ks ≠ 0 → vm_inv (<[ks := OPage]> g) w →
  g !! ks = None → g !! p_pgdir p = Some (OSpace (p_sz p) um) →
  ∃ w', (vm_inv g w' ∧ fork forkret_addr junk s =
          Done (-1) (with_proc np (fork_failed (k_nextpid s) q) (took_pid w' s))) ∨
    ∃ pd f, 0 < pd < 2^32 ∧ g !! pd = None ∧ pd ≠ ks ∧
      vm_inv (<[pd := OSpace (p_sz p) um]> (<[ks := OPage]> g)) w' ∧
      fork forkret_addr junk s = Done (k_nextpid s)
        (with_proc np (child_of me (k_nextpid s) ks pd p q)
          (set_k_fs f (set_k_files (dup_files (p_ofile p) fds (k_files s)) (took_pid w' s)))).
Proof.
  intros Hc Hwf Hlp Hlf Hli Hcur Hp Hpst Hopen Hcwd Hf Hka Hks Hg Hgks Hgpd.
  pose proof Hf as (Hq & Hqst & _)%list_find_Some. pose proof (lookup_lt_Some _ _ _ Hq) as Hlt.
  pose proof (kctx_norm _ _ Hc) as Hcn.
  assert (Hne : np ≠ me) by (intros ->; congruence).
  unfold fork. cbn. rewrite (allocproc_found forkret_addr junk [] np q ks w);
    [|done|set_solver|done|by apply wf_len|done|done].
  destruct (Z.eqb_spec ks 0); [done|]. cbn.
  set (base w := took_pid w s).
  change (took_pid w s) with (base w).
  rewrite (myproc_eq me) by done. cbn. rewrite (proc_at_eq me p) by (by rewrite with_proc_ne). cbn.
  destruct (vm_copyuvm_ok (<[ks := OPage]> g) w (p_pgdir p) (p_sz p) um Hg) as (pd & w2 & Hcp & Hcase).
  { rewrite lookup_insert_ne; [done|]. intros ->. congruence. }
  unfold copyuvm. rewrite (lift_eq _ pd w2) by done. cbn. rewrite with_proc_mem.
  change (set_k_mem w2 (base w)) with (base w2). slot_steps.
  assert (HL : length (k_procs (base w2)) = length (k_procs s)) by done.
  destruct Hcase as [[-> Hg2]|(Hpd & Hgpd2 & Hg2)].
  - cbn. rewrite (proc_at_eq np (set_p_pgdir 0 (embryo forkret_addr junk (k_nextpid s) ks q)))
      by (by apply with_proc_lookup). cbn.
    destruct (vm_kfree_ok (<[ks := OPage]> g) w2 ks Hg2) as (w3 & Hkf & Hg3); [by rewrite lookup_insert_eq|].
    unfold kfree. rewrite (lift_eq _ tt w3) by done. cbn. rewrite with_proc_mem.
    change (set_k_mem w3 (base w2)) with (base w3). slot_steps.
    exists w3. left. rewrite delete_insert_id in Hg3 by done. by destruct q.
  - destruct (Z.eqb_spec pd 0); [lia|]. cbn. slot_steps.
    match goal with |- context [fork_files np (with_proc np ?c _)] => set (q1 := c) end.
    assert (Hff : fork_files np (with_proc np q1 (base w2)) =
      Done tt (with_proc np (set_p_ofile (dup_ofile (p_ofile p) fds (p_ofile q1)) q1)
        (set_k_files (dup_files (p_ofile p) fds (k_files s)) (with_proc np q1 (base w2))))).
    { apply (fork_files_eq me np p q1 fds (with_proc np q1 (base w2)));
        [|done|apply cpu_norm_idem|done|done|by rewrite with_proc_ne|
        by apply with_proc_lookup|done].
      by apply with_proc_kctx, (kctx_frame _ (set_k_cpu (cpu_norm (k_cpu s)) s)). }
    rewrite Hff. cbn [rbind]. clear Hff.
    rewrite with_proc_files.
    rewrite with_proc_twice.
    match goal with |- context [fork_finish np (with_proc np ?c ?st)] =>
      destruct (fork_finish_eq me np p c ip st) as (w4 & f & Hfin & Hw4) end; try done.
    { apply (kctx_frame _ (set_k_cpu (cpu_norm (k_cpu s)) s)); [done..|by apply kctx_norm]. }
    { apply cpu_norm_idem. }
    exists w4. right. exists pd, f. apply lookup_insert_None in Hgpd2 as [? ?].
    split; [done|]. split; [done|]. split; [done|]. split; [by apply Hw4|]. refine (eq_trans Hfin _). clear - Hcwd.
    unfold child_of, q1. generalize (dup_files (p_ofile p) fds (k_files s)).
    cbn. generalize (dup_ofile (p_ofile p) fds (p_ofile q)). intros o fs.
    by rewrite Hcwd.
Qed.

Lemma length_dup_ofile po l co : length (dup_ofile po l co) = length co.
Proof.
  unfold dup_ofile. revert co. induction l as [|fd l IH]; intros co; [done|]. cbn.
  rewrite IH. destruct (po !! fd) as [[f|]|]; [|done..].
  by rewrite length_insert.
Qed.

Lemma length_name_copy dst src n : length (name_copy dst src n) = length dst.
Proof. unfold name_copy. apply length_bytes. Qed.

Lemma child_ok me pid ks pd p q :
  proc_ok p → proc_ok q → (me < NPROC)%nat → 0 < pid → ks ≠ 0 → pd ≠ 0 →
  proc_ok (child_of me pid ks pd p q).
Proof.
  intros [A B C D E F G H] [A' B' C' D' E' F' G' H'] Hme Hpid Hks Hpd. split; cbn; try done.
  - by intros k [= <-].
  - by rewrite length_dup_ofile.
  - by rewrite length_name_copy.
Qed.

Lemma embryo_like_ok q q' :
  proc_ok q → p_state q' = UNUSED → p_parent q' = p_parent q → p_ofile q' = p_ofile q →
  length (p_handlers q') = NUMSIG → p_name q' = p_name q → 0 ≤ p_pending q' < 2^32 →
  0 ≤ p_alarmFlag q' < 2^32 → proc_ok q'.
Proof.
  intros [A B C D E F G H] H1 H2 H3 H4 H5 H6 H7.
  split; rewrite ?H1, ?H2, ?H3, ?H5; done.
Qed.

(** C4: [fork], called by process [me] with no lock held, always returns.
    Either it returns -1, and then no file reference was taken, no page was lost
    and every slot in use is as before; or it returns a pid never used before and
    the child's slot, free until then, holds a RUNNABLE copy of the parent: its
    own copy of the parent's memory, the same trap frame but for %eax = 0, the
    same descriptors, directory and signal handlers, no pending signal; each file
    the parent has open has one more reference per descriptor. *)
Theorem fork_spec me p g um ip s :
  kctx [] s → ptable_wf s → is_Some (k_locks s !! L_ptable) → is_Some (k_locks s !! L_ftable) →
  is_Some (k_locks s !! L_icache) → k_cur s = Some me → k_procs s !! me = Some p →
  p_state p = RUNNING → open_ok (p_ofile p) (k_files s) → p_cwd p = Some ip →
  0 < k_nextpid s < 2^31 - 1 → vm_inv g (k_mem s) → g !! p_pgdir p = Some (OSpace (p_sz p) um) →
  ∃ r s', fork forkret_addr junk s = Done r s' ∧
    kctx [] s' ∧ ptable_wf s' ∧ k_cur s' = Some me ∧ k_procs s' !! me = Some p ∧
    ((r = -1 ∧ k_files s' = k_files s ∧ vm_inv g (k_mem s') ∧
      ∀ j q, k_procs s !! j = Some q → p_state q ≠ UNUSED → k_procs s' !! j = Some q) ∨
     (r = k_nextpid s ∧ ∃ np q ks pd,
       k_procs s !! np = Some q ∧ p_state q = UNUSED ∧ g !! ks = None ∧ g !! pd = None ∧ pd ≠ ks ∧
       k_procs s' = <[np := child_of me r ks pd p q]> (k_procs s) ∧
       k_files s' = dup_files (p_ofile p) fds (k_files s) ∧
       vm_inv (<[pd := OSpace (p_sz p) um]> (<[ks := OPage]> g)) (k_mem s'))).
Proof.
  intros Hc Hwf Hlp Hlf Hli Hcur Hp Hr Hopen Hcwd Hnp Hg Hgpd.
  pose proof (kctx_norm _ _ Hc) as Hcn.
  assert (Hwfn : ∀ s', k_procs s' = k_procs s → k_nextpid s' = k_nextpid s → k_cur s' = k_cur s →
    k_initproc s' = k_initproc s → ptable_wf s') by (intros; by apply (wf_frame s)).
  destruct (list_find (λ p, p_state p = UNUSED) (k_procs s)) as [[np q]|] eqn:Hf.
  2: { eexists (-1), _. unfold fork. cbn. rewrite (allocproc_full _ _ []) by (done || set_solver || by apply wf_len).
       cbn. split; [done|]. split; [done|]. split; [by apply Hwfn|]. split; [done|]. split; [done|].
       left. done. }
  pose proof Hf as (Hq & Hqst & _)%list_find_Some. pose proof (lookup_lt_Some _ _ _ Hq) as Hlt.
  assert (Hne : np ≠ me) by (intros ->; congruence). pose proof (wf_ok _ Hwf _ _ Hq) as Hqok.
  assert (Hin : ∀ w q', ptable_wf (with_proc np q' (took_pid w s)) → kctx [] (with_proc np q' (took_pid w s)) ∧
    k_procs (with_proc np q' (took_pid w s)) !! me = Some p ∧
    ∀ j q, k_procs s !! j = Some q → p_state q ≠ UNUSED →
      k_procs (with_proc np q' (took_pid w s)) !! j = Some q).
  { intros w q' _. split; [by apply with_proc_kctx, (kctx_frame _ (set_k_cpu (cpu_norm (k_cpu s)) s))|].
    split; [by rewrite with_proc_ne|]. intros j q2 Hj Hst. rewrite with_proc_ne; [done|]. intros ->. congruence. }
  destruct (vm_kalloc_ok g (k_mem s) Hg) as (ks & w & Hka & Hcase).
  destruct Hcase as [[-> Hg']|(Hks & Hgks & Hg')].
  - assert (Hwf' : ptable_wf (with_proc np (stillborn (k_nextpid s) q) (took_pid w s))).
    { eapply took_pid_wf; [done..| |done|done]. destruct Hqok as [A B C D E F G H]. by split. }
    eexists (-1), _. unfold fork. cbn.
    rewrite (allocproc_found _ _ [] np q 0 w) by (done || set_solver || by apply wf_len). cbn.
    destruct (Hin w _ Hwf') as (? & ? & ?). repeat (split; [done|]). by left.
  - destruct (fork_eq me np p q g um ks w ip s) as (w' & [[Hg2 ->]|(pd & f & Hpd & Hgpd2 & Hne2 & Hg2 & ->)]);
      try done; [by rewrite Hr|lia|..].
    + assert (Hwf' : ptable_wf (with_proc np (fork_failed (k_nextpid s) q) (took_pid w' s))).
      { eapply took_pid_wf; [done..| |done|done]. by eapply (embryo_like_ok q). }
      eexists (-1), _. destruct (Hin w' _ Hwf') as (? & ? & ?). repeat (split; [done|]). by left.
    + assert (Hwf' : ptable_wf (with_proc np (child_of me (k_nextpid s) ks pd p q) (took_pid w' s))).
      { eapply took_pid_wf; [done..| |done|done].
        apply child_ok; [by eapply wf_ok|done|by eapply wf_cur|lia..]. }
      destruct (Hin w' _ Hwf') as (Hc2 & Hp2 & _).
      eexists _, _. split; [done|]. split; [by eapply kctx_frame; [..|exact Hc2]|].
      split; [by eapply wf_frame; [..|exact Hwf']|]. split; [done|].
      split; [done|]. right. split; [done|]. by exists np, q, ks, pd.
Qed.

End Fork.

(** * wait *)
Section Wait.
Context {W : Type} {VO : VmOps W} {VL : VmLaws W} {FO : FsOps W}.
Implicit Types s : kst W.

(** Every live process has a kernel stack page and an address space of its own. *)
Record owns (g : gmap Z vobj) (ps : list proc) : Prop := {
  ow_stack i p : ps !! i = Some p → lclass_of (p_state p) = Live → g !! p_kstack p = Some OPage;
  ow_space i p : ps !! i = Some p → lclass_of (p_state p) = Live →
    ∃ um, g !! p_pgdir p = Some (OSpace (p_sz p) um);
  ow_stack_inj i j p q : ps !! i = Some p → ps !! j = Some q → lclass_of (p_state p) = Live →
    lclass_of (p_state q) = Live → p_kstack p = p_kstack q → i = j;
  ow_space_inj i j p q : ps !! i = Some p → ps !! j = Some q → lclass_of (p_state p) = Live →
    lclass_of (p_state q) = Live → p_pgdir p = p_pgdir q → i = j;
}.

Definition owned (s : kst W) : Prop := ∃ g, vm_inv g (k_mem s) ∧ owns g (k_procs s).

Lemma owns_view g ps ps' : pview <$> ps' = pview <$> ps → owns g ps → owns g ps'.
Proof.
  intros Hv [A B C D].
  assert (L : ∀ i p', ps' !! i = Some p' → ∃ p, ps !! i = Some p ∧ pview p' = pview p).
  { intros i p' Hp'. assert (H : (pview <$> ps') !! i = (pview <$> ps) !! i) by (by rewrite Hv).
    rewrite !list_lookup_fmap, Hp' in H. destruct (ps !! i) as [p|] eqn:E; [|done].
    exists p. cbn in H. injection H as H. split; [done|]. unfold pview. congruence. }
  split.
  - intros i p' (p & Hp & [= -> _ _ -> _ _ _ _])%L Hl. eauto.
  - intros i p' (p & Hp & [= -> -> -> _ _ _ _ _])%L Hl. eauto.
  - intros i j p' q' (p & Hp & [= -> _ _ -> _ _ _ _])%L (q & Hq & [= -> _ _ -> _ _ _ _])%L. eauto.
  - intros i j p' q' (p & Hp & [= -> _ -> _ _ _ _ _])%L (q & Hq & [= -> _ -> _ _ _ _ _])%L. eauto.
Qed.

Lemma owned_data : data_only owned.
Proof.
  intros s s' [= E1 E2 E3 E4 E5 E6 E7] (g & Hg & Ho). exists g. rewrite E4.
  split; [done|]. by eapply owns_view.
Qed.

(** What [wait] leaves in the slot of a child it reaped. *)
Definition reaped (q : proc) : proc :=
  mkProc (p_sz q) (p_pgdir q) 0 UNUSED 0 None (p_tf q) (p_context q) (p_chan q) 0 (p_ofile q)
    (p_cwd q) (<[0%nat := 0]> (p_name q)) 0 (replicate NUMSIG SIG_DFL) 0 (p_isHandelingSignal q) 0.

Lemma owns_reap g i q ps :
  owns g ps → ps !! i = Some q → lclass_of (p_state q) = Live →
  owns (delete (p_pgdir q) (delete (p_kstack q) g)) (<[i := reaped q]> ps).
Proof.
  intros [A B C D] Hq Hl.
  assert (L : ∀ j p, <[i := reaped q]> ps !! j = Some p → lclass_of (p_state p) = Live →
    j ≠ i ∧ ps !! j = Some p).
  { intros j p Hp Hlp. destruct (decide (j = i)) as [->|Hne].
    - rewrite list_lookup_insert_eq in Hp by (by eapply lookup_lt_Some). injection Hp as <-. done.
    - by rewrite list_lookup_insert_ne in Hp. }
  destruct (B _ _ Hq Hl) as [um Hum]. pose proof (A _ _ Hq Hl) as Hst.
  split.
  - intros j p Hp Hlp. destruct (L _ _ Hp Hlp) as [Hne Hp0]. pose proof (A _ _ Hp0 Hlp) as Hs.
    rewrite !lookup_delete_ne; [done| |]; intros E.
    + destruct Hne. by eapply C.
    + rewrite E in Hum. congruence.
  - intros j p Hp Hlp. destruct (L _ _ Hp Hlp) as [Hne Hp0]. destruct (B _ _ Hp0 Hlp) as [um' Hs].
    exists um'. rewrite !lookup_delete_ne; [done| |]; intros E.
    + rewrite E in Hst. congruence.
    + destruct Hne. by eapply D.
  - intros j k p p' Hp Hp' Hlp Hlp'. destruct (L _ _ Hp Hlp), (L _ _ Hp' Hlp'). by eapply C.
  - intros j k p p' Hp Hp' Hlp Hlp'. destruct (L _ _ Hp Hlp), (L _ _ Hp' Hlp'). by eapply D.
Qed.

Lemma wait_reap_eq held g i q um s :
  kctx (L_ptable :: held) s → k_procs s !! i = Some q → vm_inv g (k_mem s) →
  g !! p_kstack q = Some OPage → g !! p_pgdir q = Some (OSpace (p_sz q) um) →
  ∃ w, wait_reap i q s =
      Done (p_pid q) (released L_ptable (with_proc i (reaped q) (set_k_mem w s))) ∧
    vm_inv (delete (p_pgdir q) (delete (p_kstack q) g)) w.
Proof.
  intros Hc Hq Hg Hks Hpd. pose proof (lookup_lt_Some _ _ _ Hq) as Hlt. unfold wait_reap. cbn.
  destruct (vm_kfree_ok g (k_mem s) (p_kstack q) Hg Hks) as (w1 & Hk1 & Hg1).
  unfold kfree. rewrite (lift_eq _ tt w1) by done. cbn.
  rewrite (set_proc_eq i _ q) by done. cbn.
  destruct (vm_freevm_ok _ w1 (p_pgdir q) (p_sz q) um Hg1) as (w2 & Hk2 & Hg2).
  { rewrite lookup_delete_ne; [done|]. intros E. congruence. }
  unfold freevm. rewrite (lift_eq _ tt w2) by done. cbn.
  change (set_k_mem w2 (with_proc i ?c (set_k_mem w1 s))) with (with_proc i c (set_k_mem w2 s)).
  slot_steps.
  match goal with |- context [release L_ptable (with_proc i ?c ?st)] =>
    change c with (reaped q); destruct (release_kctx held L_ptable (with_proc i (reaped q) st)) as [-> _] end.
  { by apply with_proc_kctx, (kctx_frame _ s). }
  by exists w2.
Qed.

Definition zombie_child (me : nat) (p : proc) : Prop := p_parent p = Some me ∧ p_state p = ZOMBIE.

Lemma wait_scan_skip me l1 l2 hk s :
  k_cur s = Some me →
  (∀ i, i ∈ l1 → ∃ p, k_procs s !! i = Some p ∧ ¬ zombie_child me p) →
  wait_scan (l1 ++ l2) hk s =
  wait_scan l2 (hk || existsb (λ i, bool_decide (p_parent <$> k_procs s !! i = Some (Some me))) l1) s.
Proof.
  intros Hcur. revert hk. induction l1 as [|i l1 IH]; intros hk Hl; cbn.
  { by rewrite orb_false_r. }
  destruct (Hl i) as (p & Hp & Hz); [by left|]. rewrite (proc_at_eq i p) by done. cbn.
  rewrite Hcur, Hp. cbn. destruct (decide (p_parent p = Some me)) as [Hc|Hc].
  - rewrite decide_False by (intros ?; by destruct Hz).
    rewrite IH by (intros; apply Hl; by right).
    rewrite (bool_decide_eq_true_2 (Some (p_parent p) = Some (Some me))) by congruence.
    cbn. by rewrite orb_true_r.
  - rewrite IH by (intros; apply Hl; by right).
    rewrite (bool_decide_eq_false_2 (Some (p_parent p) = Some (Some me))) by congruence. done.
Qed.

#[local] Instance zombie_dec me p : Decision (zombie_child me p).
Proof. unfold zombie_child. apply _. Defined.

Lemma wait_scan_found me i q hk s :
  k_cur s = Some me → length (k_procs s) = NPROC →
  list_find (zombie_child me) (k_procs s) = Some (i, q) →
  wait_scan slots hk s = rbind (wait_reap i q s) (λ pid, ret (inr pid)).
Proof.
  intros Hcur Hl (Hq & [Hpar Hz] & Hmin)%list_find_Some.
  pose proof (lookup_lt_Some _ _ _ Hq) as Hlt. rewrite Hl in Hlt.
  unfold slots. replace NPROC with (i + S (NPROC - S i))%nat by lia.
  rewrite seq_app. cbn [seq Nat.add]. rewrite (wait_scan_skip me) by
    (first [done|intros j [_ Hj]%elem_of_seq;
      destruct (lookup_lt_is_Some_2 (k_procs s) j) as [p Hp]; [lia|];
      exists p; split; [done|]; apply (Hmin j p Hp); lia]).
  cbn [wait_scan]. cbn. rewrite (proc_at_eq i q) by done. cbn.
  by rewrite Hcur, decide_True, decide_True.
Qed.

Definition has_child (me : nat) (s : kst W) : bool :=
  existsb (λ i, bool_decide (p_parent <$> k_procs s !! i = Some (Some me))) slots.

Lemma wait_scan_none me s :
  k_cur s = Some me → length (k_procs s) = NPROC →
  list_find (zombie_child me) (k_procs s) = None →
  wait_scan slots false s = Done (inl (has_child me s)) s.
Proof.
  intros Hcur Hl Hn%list_find_None. rewrite Forall_lookup in Hn.
  rewrite <- (app_nil_r slots) at 1. rewrite (wait_scan_skip me); [done|done|].
  intros j [_ Hj]%elem_of_seq. destruct (lookup_lt_is_Some_2 (k_procs s) j) as [p Hp]; [lia|].
  eauto.
Qed.

Lemma reaped_ok q : proc_ok q → proc_ok (reaped q).
Proof. intros [A B C D E F G H]. split; cbn; try done. by rewrite length_insert. Qed.

Lemma reap_wf i q s : ptable_wf s → k_procs s !! i = Some q → ptable_wf (with_proc i (reaped q) s).
Proof.
  intros [A B C D E F G] Hq. pose proof (lookup_lt_Some _ _ _ Hq) as Hlt.
  assert (L : ∀ j p, k_procs (with_proc i (reaped q) s) !! j = Some p →
    (j = i ∧ p = reaped q) ∨ (j ≠ i ∧ k_procs s !! j = Some p)).
  { intros j p. unfold with_proc. cbn. destruct (decide (j = i)) as [->|].
    - rewrite list_lookup_insert_eq by done. intros [= <-]. by left.
    - rewrite list_lookup_insert_ne by done. by right. }
  split; try done.
  - unfold with_proc. cbn. by rewrite length_insert.
  - intros j p [[-> ->]|[_ Hp]]%L; [by eapply reaped_ok, B|by eapply B].
  - intros j p [[-> ->]|[_ Hp]]%L; [|by eapply C].
    pose proof (C _ _ Hq). change (0 ≤ 0 < k_nextpid s). lia.
  - intros j k p p' [[-> ->]|[? Hp]]%L [[-> ->]|[? Hp']]%L He Hne; try done. by eapply D.
  - intros j p [[-> ->]|[_ Hp]]%L Hr; [done|by eapply E].
Qed.

(** A zombie child is reaped under [ptable.lock]: the process goes on, without the lock. *)
Lemma wait_reap_krun ls me p g i q um s :
  krun [L_ptable] ls me p s → k_procs s !! i = Some q → p_state q = ZOMBIE → vm_inv g (k_mem s) →
  owns g (k_procs s) → g !! p_pgdir q = Some (OSpace (p_sz q) um) →
  ∃ s', wait_reap i q s = Done (p_pid q) s' ∧ krun [] ls me p s' ∧
    k_procs s' = <[i := reaped q]> (k_procs s) ∧ k_files s' = k_files s ∧ k_pipes s' = k_pipes s ∧
    vm_inv (delete (p_pgdir q) (delete (p_kstack q) g)) (k_mem s') ∧
    owns (delete (p_pgdir q) (delete (p_kstack q) g)) (k_procs s').
Proof.
  intros Hk Hq Hz Hg Ho Hum. pose proof Hk as [A B C D E (p' & Hp' & Hr & Hpriv)].
  assert (Hlive : lclass_of (p_state q) = Live) by (by rewrite Hz).
  assert (Hne : i ≠ me) by (intros ->; congruence).
  destruct (wait_reap_eq [] g i q um s A Hq Hg) as (w & -> & Hg'); [by eapply ow_stack|done|].
  assert (Hk2 : krun [L_ptable] ls me p (with_proc i (reaped q) (set_k_mem w s))).
  { split; try done.
    - by apply with_proc_kctx, (kctx_frame _ s).
    - apply reap_wf; [by apply (wf_frame s)|done].
    - exists p'. by rewrite with_proc_ne. }
  destruct (krun_release [] _ _ _ _ _ Hk2) as [_ Hk3].
  eexists. split; [done|]. split; [done|]. repeat (split; [done|]). by apply owns_reap.
Qed.

Lemma wait_body_wp ls me p s :
  krun [L_ptable] ls me p s → owned s →
  wp (kenv me owned True) (wait_body s) (λ r s', owned s' ∧
    match r with
    | Some v => krun [] ls me p s' ∧ (v = -1 ∨ 0 < v)
    | None => krun [L_ptable] ls me p s'
    end).
Proof.
  intros Hk Ho. pose proof Hk as [A B C D E (p' & Hp' & Hr & Hpriv)]. unfold wait_body. cbn.
  destruct (list_find (zombie_child me) (k_procs s)) as [[i q]|] eqn:Hf.
  - rewrite (wait_scan_found me i q) by (done || by apply wf_len).
    apply list_find_Some in Hf as (Hq & [Hpar Hz] & _). destruct Ho as (g & Hg & Ho).
    assert (Hlive : lclass_of (p_state q) = Live) by (by rewrite Hz).
    destruct (ow_space _ _ Ho _ _ Hq Hlive) as [um Hum].
    destruct (wait_reap_krun ls me p g i q um s) as (s' & -> & Hk' & _ & _ & _ & Hg' & Ho'); [done..|].
    cbn. split; [by eexists|]. split; [done|]. right.
    apply (po_pid _ (wf_ok _ B _ _ Hq)). by rewrite Hz.
  - rewrite (wait_scan_none me) by (done || by apply wf_len). cbn.
    rewrite (cur_eq me p') by done. cbn.
    destruct (negb (has_child me s) || negb (p_killed p' =? 0)); cbn.
    + destruct (krun_release [] _ _ _ _ _ Hk) as [-> Hk']. cbn.
      split; [by eapply (owned_data s)|]. auto.
    + rewrite (myproc_eq me) by done. cbn. apply wp_bind.
      eapply wp_mono; [|eapply krun_sleep; [done|exact owned_data|done|exact Hk]].
      intros [] s' [Hk' Ho']. done.
Qed.

(** C26: [wait] is safe however long it blocks: it sleeps holding exactly
    [ptable.lock], so no exiting child's wakeup is lost; it never panics, never
    frees a page twice (every live process still owns its stack and its address
    space alone when it returns), and returns a positive pid or -1 with no lock. *)
Theorem wait_safe ls me p fuel s :
  krun [] ls me p s → owned s →
  wp (kenv me owned True) (wait fuel s) (λ r s',
    krun [] ls me p s' ∧ owned s' ∧ (r = -1 ∨ 0 < r)).
Proof.
  intros Hk Ho. unfold wait. cbn.
  destruct (krun_acquire [] _ _ _ L_ptable s Hk) as [-> Hk1]; [set_solver..|]. cbn.
  assert (Ho1 : owned (acquired L_ptable s)) by (by eapply (owned_data s)).
  revert Hk1 Ho1. generalize (acquired L_ptable s). clear s Hk Ho.
  induction fuel as [|fuel IH]; intros s Hk Ho; [done|]. cbn [loop]. cbn.
  apply wp_bind. eapply wp_mono; [|by apply (wait_body_wp ls me p)].
  intros [v|] s' [Ho' Hr]; cbn; [|by apply IH]. destruct Hr. auto.
Qed.

(** When a child is already a zombie, [wait] returns the pid of the first one
    at once; its slot is UNUSED with pid 0 and no parent, its kernel stack and its
    address space are freed, and nothing else in the table changes.  Without
    children it returns -1 and changes no process. *)
Theorem wait_reaps ls me p g fuel s :
  krun [] ls me p s → vm_inv g (k_mem s) → owns g (k_procs s) →
  (∀ i q, list_find (zombie_child me) (k_procs s) = Some (i, q) →
    ∃ s', wait (S fuel) s = Done (p_pid q) s' ∧ krun [] ls me p s' ∧
      k_procs s' = <[i := reaped q]> (k_procs s) ∧ k_files s' = k_files s ∧
      vm_inv (delete (p_pgdir q) (delete (p_kstack q) g)) (k_mem s')) ∧
  ((∀ i q, k_procs s !! i = Some q → p_parent q ≠ Some me) →
    ∃ s', wait (S fuel) s = Done (-1) s' ∧ krun [] ls me p s' ∧
      k_procs s' = k_procs s ∧ k_mem s' = k_mem s).
Proof.
  intros Hk Hg Ho. pose proof Hk as [A B C D E (p' & Hp' & Hr & Hpriv)]. unfold wait. cbn.
  destruct (krun_acquire [] _ _ _ L_ptable s Hk) as [-> Hk1]; [set_solver..|]. cbn.
  split.
  - intros i q Hf. unfold wait_body at 1. cbn. rewrite (wait_scan_found me i q) by (done || by apply (wf_len _ B)).
    apply list_find_Some in Hf as (Hq & [Hpar Hz] & _).
    assert (Hlive : lclass_of (p_state q) = Live) by (by rewrite Hz).
    destruct (ow_space _ _ Ho _ _ Hq Hlive) as [um Hum].
    destruct (wait_reap_krun ls me p g i q um (acquired L_ptable s))
      as (s' & -> & Hk' & H1 & H2 & H3 & Hg' & Ho'); [done..|].
    by exists s'.
  - intros Hno. unfold wait_body at 1. cbn. rewrite (wait_scan_none me); [|done|by apply (wf_len _ B)|].
    + cbn. rewrite (cur_eq me p') by done. cbn.
      assert (has_child me (acquired L_ptable s) = false) as ->.
      { unfold has_child. apply not_true_is_false. intros (i & _ & Hi%bool_decide_eq_true)%existsb_exists.
        cbn in Hi. destruct (k_procs s !! i) as [q|] eqn:Hq; [|done]. cbn in Hi.
        injection Hi as Hi. by eapply Hno. }
      cbn. destruct (krun_release [] _ _ _ _ _ Hk1) as [-> Hk2]. cbn. by eexists.
    + apply list_find_None, Forall_lookup. intros i q Hq [Hpar _]. by eapply Hno.
Qed.

End Wait.

(** * exit *)
Section Exit.
Context {W : Type} {VO : VmOps W} {FO : FsOps W}.
Implicit Types s : kst W.

(** Children of [me] get [ini] as their parent. *)
Definition adopt (me : nat) (ini : option nat) (p : proc) : proc :=
  if bool_decide (p_parent p = Some me) then set_p_parent ini p else p.

Definition orphan_zombie (me : nat) (p : proc) : bool :=
  bool_decide (p_parent p = Some me) && bool_decide (p_state p = ZOMBIE).

(** Init is woken if one of the children it inherits is a zombie already. *)
Definition wake_init (ini : option nat) (b : bool) : proc → proc :=
  if b then wake (proc_chan ini) else id.

Lemma wake_parent ch v p : wake ch (set_p_parent v p) = set_p_parent v (wake ch p).
Proof. unfold wake. cbn. by destruct (bool_decide _ && bool_decide _). Qed.

Lemma wake_wake ch p : wake ch (wake ch p) = wake ch p.
Proof.
  unfold wake. destruct (bool_decide_reflect (p_state p = SLEEPING)) as [E|E]; cbn.
  - destruct (bool_decide_reflect (p_chan p = ch)) as [Ec|Ec]; cbn; [done|].
    by rewrite (bool_decide_eq_false_2 (p_chan p = ch)), andb_false_r.
  - by rewrite (bool_decide_eq_false_2 (p_state p = SLEEPING)).
Qed.

Lemma wake_zombie ch p : p_state (wake ch p) = ZOMBIE ↔ p_state p = ZOMBIE.
Proof.
  unfold wake. destruct (bool_decide_reflect (p_state p = SLEEPING)) as [E|E]; cbn; [|done].
  destruct (bool_decide (p_chan p = ch)); cbn; [|done]. by rewrite E.
Qed.

Lemma wake_init_facts ini b p :
  p_parent (wake_init ini b p) = p_parent p ∧ (p_state (wake_init ini b p) = ZOMBIE ↔ p_state p = ZOMBIE) ∧
  ∀ v, wake_init ini b (set_p_parent v p) = set_p_parent v (wake_init ini b p).
Proof.
  destruct b; [|done]. cbn. split; [|split; [apply wake_zombie|intros; apply wake_parent]].
  unfold wake. by destruct (_ && _).
Qed.

Lemma reparent_step me ini n ps p s :
  k_initproc s = ini → ps !! n = Some p → length ps = NPROC →
  let T n := wake_init ini (existsb (orphan_zombie me) (take n ps)) <$> upto n (adopt me ini) ps in
  reparent_body me n (set_k_procs (T n) s) = Done tt (set_k_procs (T (S n)) s).
Proof.
  intros Hini Hp Hlen T. set (w := wake_init ini (existsb (orphan_zombie me) (take n ps))).
  destruct (wake_init_facts ini (existsb (orphan_zombie me) (take n ps)) p) as (F1 & F2 & F3).
  fold w in F1, F2, F3.
  assert (Hu : upto n (adopt me ini) ps !! n = Some p).
  { unfold upto. rewrite list_lookup_imap, Hp. cbn. by rewrite decide_False by lia. }
  assert (HT : T n !! n = Some (w p)) by (unfold T; by rewrite list_lookup_fmap, Hu).
  assert (HTS : T (S n) = wake_init ini (existsb (orphan_zombie me) (take n ps) || orphan_zombie me p)
    <$> upto (S n) (adopt me ini) ps).
  { unfold T. by rewrite (take_S_r _ _ p), existsb_app by done; cbn; rewrite orb_false_r. }
  unfold reparent_body. cbn. rewrite (proc_at_eq n (w p)) by done. cbn. rewrite F1.
  rewrite HTS, <- upto_S. unfold orphan_zombie, adopt at 1.
  destruct (bool_decide_reflect (p_parent p = Some me)) as [Hc|Hc]; cbn.
  - rewrite Hini. rewrite (set_proc_eq n _ (w p)) by done. cbn.
    assert (Hlt : (n < length (T n))%nat) by (by eapply lookup_lt_Some).
    rewrite (proc_at_eq n (set_p_parent ini (w p))) by (by apply with_proc_lookup). cbn.
    assert (E : with_proc n (set_p_parent ini (w p)) (set_k_procs (T n) s) =
      set_k_procs (w <$> alter (adopt me ini) n (upto n (adopt me ini) ps)) s).
    { unfold with_proc. cbn. kunf. f_equal. unfold T. fold w.
      rewrite <- F3. rewrite <- list_fmap_insert. f_equal. rewrite <- (alter_insert_at _ _ _ p) by done.
      unfold adopt. by rewrite bool_decide_eq_true_2. }
    destruct (bool_decide_reflect (p_state (w p) = ZOMBIE)) as [Hz|Hz]; cbn.
    + apply F2 in Hz. rewrite bool_decide_eq_true_2 by done. rewrite orb_true_r.
      rewrite E, wakeup1_eq by (cbn; rewrite length_fmap, length_alter; unfold upto; by rewrite length_imap).
      cbn. f_equal. kunf. f_equal. rewrite <- list_fmap_compose. apply list_fmap_ext.
      intros j q _. unfold w, wake_init. cbn. destruct (existsb _ _); [apply wake_wake|done].
    + rewrite bool_decide_eq_false_2 by tauto. rewrite orb_false_r. fold w. by rewrite E.
  - rewrite orb_false_r. fold w. do 2 f_equal. unfold T. fold w. f_equal.
    symmetry. rewrite <- (alter_insert_at _ _ _ p) by done. unfold adopt at 1.
    rewrite bool_decide_eq_false_2 by done. by apply list_insert_id.
Qed.

Lemma reparent_loop me s :
  length (k_procs s) = NPROC →
  for_each slots (reparent_body me) s =
  Done tt (set_k_procs (wake_init (k_initproc s) (existsb (orphan_zombie me) (k_procs s)) <$>
    (adopt me (k_initproc s) <$> k_procs s)) s).
Proof.
  intros Hlen. set (ps := k_procs s). set (ini := k_initproc s). unfold slots.
  enough (H : ∀ n, (n ≤ NPROC)%nat → for_each (seq 0 n) (reparent_body me) s =
    Done tt (set_k_procs (wake_init ini (existsb (orphan_zombie me) (take n ps)) <$>
      upto n (adopt me ini) ps) s)).
  { rewrite H by lia. rewrite take_ge, upto_all by (unfold ps; lia). done. }
  induction n as [|n IH]; intros Hn.
  - cbn. rewrite upto_0, list_fmap_id. unfold ps. by rewrite set_procs_id.
  - rewrite seq_S. erewrite for_each_app by (apply IH; lia). rewrite for_each_cons. cbn [Nat.add].
    destruct (lookup_lt_is_Some_2 ps n) as [p Hp]; [unfold ps; lia|].
    rewrite (reparent_step me ini n ps p s) by done. done.
Qed.

(** The process table that [exit] leaves behind, for an exiting process [p] in slot [me]. *)
Definition exit_procs (me : nat) (ini : option nat) (p : proc) (ps : list proc) : list proc :=
  let ps1 := wake (proc_chan (p_parent p)) <$> ps in
  alter (set_p_state ZOMBIE) me
    (wake_init ini (existsb (orphan_zombie me) ps1) <$> (adopt me ini <$> ps1)).

Lemma exit_table_eq me p s :
  length (k_procs s) = NPROC → k_cur s = Some me → k_procs s !! me = Some p →
  exit_table s = Done tt (set_k_procs (exit_procs me (k_initproc s) p (k_procs s)) s).
Proof.
  intros Hlen Hcur Hp. unfold exit_table. cbn. rewrite (myproc_eq me) by done. cbn.
  rewrite (proc_at_eq me p) by done. cbn. rewrite wakeup1_eq by done. cbn.
  rewrite reparent_loop by (cbn; by rewrite length_fmap). cbn.
  rewrite (set_cur_eq me) by done. done.
Qed.

Lemma adopt_ok me ini p :
  (∀ i, ini = Some i → (i < NPROC)%nat) → proc_ok p → proc_ok (adopt me ini p).
Proof.
  intros Hi [A B C D E F G H]. unfold adopt. destruct (bool_decide _); split; cbn; auto.
Qed.

(** Slot by slot, what [exit_procs] does to a process other than the one exiting. *)
Definition exit_other (me : nat) (ini : option nat) (par : option nat) (b : bool) (q : proc) : proc :=
  wake_init ini b (adopt me ini (wake (proc_chan par) q)).

Lemma exit_other_facts me ini par b q :
  let q' := exit_other me ini par b q in
  p_pid q' = p_pid q ∧ private q' = private q ∧ (proc_ok q → (∀ i, ini = Some i → (i < NPROC)%nat) → proc_ok q') ∧
  (p_state q' = p_state q ∨ p_state q = SLEEPING ∧ p_state q' = RUNNABLE) ∧
  (p_state q = SLEEPING → p_chan q = proc_chan par ∨ (b = true ∧ p_chan q = proc_chan ini) →
    p_state q' = RUNNABLE) ∧
  (ini ≠ Some me → p_parent q' ≠ Some me).
Proof.
  set (q1 := wake (proc_chan par) q).
  assert (H1 : p_pid q1 = p_pid q ∧ private q1 = private q ∧ p_chan q1 = p_chan q ∧
    (p_state q1 = p_state q ∨ p_state q = SLEEPING ∧ p_state q1 = RUNNABLE)).
  { unfold q1, wake. destruct (bool_decide_reflect (p_state q = SLEEPING)); cbn; [|by split_and!; auto].
    destruct (bool_decide _); cbn; split_and!; try done; auto. }
  assert (H1' : p_state q = SLEEPING → p_chan q = proc_chan par → p_state q1 = RUNNABLE).
  { intros Ha Hb. unfold q1, wake. by rewrite !bool_decide_eq_true_2. }
  set (q2 := adopt me ini q1).
  assert (H2 : p_pid q2 = p_pid q1 ∧ private q2 = private q1 ∧ p_chan q2 = p_chan q1 ∧
    p_state q2 = p_state q1 ∧ (ini ≠ Some me → p_parent q2 ≠ Some me)).
  { unfold q2, adopt. by destruct (bool_decide_reflect (p_parent q1 = Some me)). }
  intros q'. change q' with (wake_init ini b q2).
  destruct H1 as (A1 & A2 & A3 & A4), H2 as (B1 & B2 & B3 & B4 & B5).
  destruct (wake_init_facts ini b q2) as (C1 & C2 & C3).
  assert (H3 : p_pid (wake_init ini b q2) = p_pid q2 ∧ private (wake_init ini b q2) = private q2 ∧
    (p_state (wake_init ini b q2) = p_state q2 ∨ p_state q2 = SLEEPING ∧ p_state (wake_init ini b q2) = RUNNABLE) ∧
    (b = true → p_state q2 = SLEEPING → p_chan q2 = proc_chan ini → p_state (wake_init ini b q2) = RUNNABLE)).
  { destruct b; cbn; [|by split_and!; auto]. unfold wake.
    destruct (bool_decide_reflect (p_state q2 = SLEEPING)); cbn; [|by split_and!; auto].
    destruct (bool_decide_reflect (p_chan q2 = proc_chan ini)); cbn; split_and!; try done; auto. }
  destruct H3 as (D1 & D2 & D3 & D4). split; [congruence|]. split; [congruence|]. split; [|split; [|split]].
  - intros Hok Hini. destruct b; cbn; [apply wake_ok|]; (apply adopt_ok; [done|]; by apply wake_ok).
  - destruct A4 as [E|[E1 E2]], D3 as [D|[D' D]];
      first [left; congruence|right; split; congruence|exfalso; congruence].
  - intros Hs [Hc|[-> Hc]].
    + rewrite <- B4 in H1'. specialize (H1' Hs Hc). destruct D3 as [->|[D' _]]; congruence.
    + destruct A4 as [E|[_ E]].
      * apply D4; congruence.
      * destruct D3 as [->|[D' D]]; congruence.
  - rewrite C1. done.
Qed.

Lemma exit_procs_lookup me ini p ps j q :
  ps !! j = Some q → j ≠ me → exit_procs me ini p ps !! j =
    Some (exit_other me ini (p_parent p) (existsb (orphan_zombie me) (wake (proc_chan (p_parent p)) <$> ps)) q).
Proof.
  intros Hq Hne. unfold exit_procs. cbn. rewrite list_lookup_alter_ne, !list_lookup_fmap, Hq by done. done.
Qed.

Lemma exit_procs_self me ini p ps :
  ps !! me = Some p → exit_procs me ini p ps !! me = Some (set_p_state ZOMBIE
    (exit_other me ini (p_parent p) (existsb (orphan_zombie me) (wake (proc_chan (p_parent p)) <$> ps)) p)).
Proof. intros Hp. unfold exit_procs. cbn. by rewrite list_lookup_alter_eq, !list_lookup_fmap, Hp. Qed.

Lemma exit_procs_wf me p s :
  ptable_wf s → k_procs s !! me = Some p → p_state p = RUNNING →
  ptable_wf (set_k_procs (exit_procs me (k_initproc s) p (k_procs s)) s).
Proof.
  intros Hwf Hp Hr. apply wf_forall2; [done|]. apply Forall2_same_length_lookup_2.
  { unfold exit_procs. cbn. by rewrite length_alter, !length_fmap. }
  intros j q q' Hq Hq'. destruct (decide (j = me)) as [->|Hne].
  - rewrite exit_procs_self in Hq' by done. injection Hq' as <-. replace q with p by congruence.
    destruct (exit_other_facts me (k_initproc s) (p_parent p)
      (existsb (orphan_zombie me) (wake (proc_chan (p_parent p)) <$> k_procs s)) p)
      as (H1 & H2 & H3 & H4 & H5). split; [done|]. split; [|done].
    intros Hok. specialize (H3 Hok (wf_init _ Hwf)).
    destruct H4 as [H4|[H4 _]]; [|congruence]. destruct H3 as [A B C D E F G H].
    rewrite H4, Hr in A, B. split; cbn; auto.
  - rewrite (exit_procs_lookup me _ p _ j q) in Hq' by done. injection Hq' as <-.
    destruct (exit_other_facts me (k_initproc s) (p_parent p)
      (existsb (orphan_zombie me) (wake (proc_chan (p_parent p)) <$> k_procs s)) q)
      as (H1 & H2 & H3 & H4 & _). split; [done|]. split; [by intros; apply H3; [|apply wf_init]|].
    intros Hrun. destruct H4 as [H4|[_ H4]]; congruence.
Qed.

(** Woken by the exit of [me], a child of [par]: asleep in [wait] as the parent, or as
    init when it inherits a zombie. *)
Definition exit_wakes (me : nat) (ini par : option nat) (ps : list proc) (q : proc) : Prop :=
  p_state q = SLEEPING ∧ (p_chan q = proc_chan par ∨
    p_chan q = proc_chan ini ∧ ∃ z, z ∈ ps ∧ p_parent z = Some me ∧ p_state z = ZOMBIE).

Lemma set_state_id q : set_p_state (p_state q) q = q.
Proof. by destruct q. Qed.
Lemma set_parent_id q : set_p_parent (p_parent q) q = q.
Proof. by destruct q. Qed.

Lemma exit_other_exact me ini par b q :
  exit_other me ini par b q =
  set_p_state (if bool_decide (p_state q = SLEEPING) &&
      (bool_decide (p_chan q = proc_chan par) || b && bool_decide (p_chan q = proc_chan ini))
    then RUNNABLE else p_state q) (adopt me ini q).
Proof.
  unfold exit_other, wake_init, wake.
  assert (Hs : p_state (adopt me ini q) = p_state q ∧ p_chan (adopt me ini q) = p_chan q)
    by (unfold adopt; by destruct (bool_decide _)).
  assert (Ha : ∀ st, adopt me ini (set_p_state st q) = set_p_state st (adopt me ini q))
    by (intros st; unfold adopt; cbn; by destruct (bool_decide _)).
  destruct Hs as [Hs Hc]. destruct (bool_decide_reflect (p_state q = SLEEPING)) as [E|E]; cbn [andb].
  - destruct (bool_decide_reflect (p_chan q = proc_chan par)); cbn [orb].
    + rewrite Ha. by destruct b.
    + destruct b; cbn [andb id]; [rewrite Hs, Hc, E|by rewrite <- Hs, set_state_id].
      rewrite bool_decide_eq_true_2 by done. cbn [andb].
      destruct (bool_decide (p_chan q = proc_chan ini)); [done|]. by rewrite <- E, <- Hs, set_state_id.
  - destruct b; cbn [id]; [rewrite Hs, bool_decide_eq_false_2 by done; cbn [andb]|]; by rewrite <- Hs, set_state_id.
Qed.

Lemma orphan_exists me ch ps :
  existsb (orphan_zombie me) (wake ch <$> ps) = true ↔ ∃ z, z ∈ ps ∧ p_parent z = Some me ∧ p_state z = ZOMBIE.
Proof.
  rewrite existsb_exists. unfold orphan_zombie. split.
  - intros (z' & Hz & Ho). apply list_elem_of_In, list_elem_of_fmap in Hz as (z & -> & Hz).
    rewrite andb_true_iff, !bool_decide_eq_true, wake_zombie in Ho. exists z. split; [done|].
    unfold wake in Ho. by destruct (_ && _).
  - intros (z & Hz & Hp & Hs). exists (wake ch z). split; [by apply list_elem_of_In, list_elem_of_fmap_2|].
    rewrite andb_true_iff, !bool_decide_eq_true, wake_zombie. split; [|done]. unfold wake. by destruct (_ && _).
Qed.

Lemma exit_other_wakes me ini par ps q :
  ∃ st, exit_other me ini par (existsb (orphan_zombie me) (wake (proc_chan par) <$> ps)) q =
      set_p_state st (adopt me ini q) ∧
    (exit_wakes me ini par ps q ∧ st = RUNNABLE ∨ ¬ exit_wakes me ini par ps q ∧ st = p_state q).
Proof.
  rewrite exit_other_exact. eexists. split; [done|]. unfold exit_wakes.
  rewrite <- (orphan_exists me (proc_chan par)).
  destruct (bool_decide_reflect (p_state q = SLEEPING)); cbn [andb]; [|right; naive_solver].
  destruct (bool_decide_reflect (p_chan q = proc_chan par)); cbn [orb]; [left; naive_solver|].
  destruct (existsb _ _), (bool_decide_reflect (p_chan q = proc_chan ini)); cbn [andb]; naive_solver.
Qed.

(** C25: The end of [exit] gives up the CPU for good: it reaches the context switch
    with exactly [ptable.lock] held and the table well formed.  The process is a
    ZOMBIE; its children, and no others, now have init as their parent; exactly the
    parent, if it was asleep in [wait], and init, if it was asleep and inherits a
    zombie, have become RUNNABLE; nothing else in the table has changed.  Nothing but
    a panic follows the switch. *)
Theorem exit_spec ls me p p0 s :
  krun [] ls me p0 s → k_procs s !! me = Some p → k_initproc s ≠ Some me →
  ∃ s2 k, exit_tail s = Switch s2 k ∧ switch_ok me s2 ∧
    k_mem s2 = k_mem s ∧ k_files s2 = k_files s ∧ k_initproc s2 = k_initproc s ∧
    k_procs s2 !! me = Some (set_p_state ZOMBIE
      (if decide (p_parent p = Some me) then set_p_parent (k_initproc s) p else p)) ∧
    (∀ j q, k_procs s !! j = Some q → j ≠ me → ∃ st,
      k_procs s2 !! j = Some (set_p_state st
        (set_p_parent (if decide (p_parent q = Some me) then k_initproc s else p_parent q) q)) ∧
      (exit_wakes me (k_initproc s) (p_parent p) (k_procs s) q ∧ st = RUNNABLE ∨
       ¬ exit_wakes me (k_initproc s) (p_parent p) (k_procs s) q ∧ st = p_state q)) ∧
    (∀ s', k s' = Panic "zombie exit").
Proof.
  intros Hk Hp Hni. pose proof Hk as [A B C D E (p' & Hp' & Hr & Hpriv)].
  rewrite Hp in Hp'. injection Hp' as <-. unfold exit_tail. cbn.
  destruct (krun_acquire [] _ _ _ L_ptable s Hk) as [-> [A1 B1 C1 D1 _ _]]; [set_solver..|]. cbn.
  rewrite (exit_table_eq me p) by (done || by apply (wf_len _ B)). cbn.
  set (s2 := set_k_procs (exit_procs me (k_initproc s) p (k_procs s)) (acquired L_ptable s)).
  assert (Hself : k_procs s2 !! me = Some (set_p_state ZOMBIE (adopt me (k_initproc s) p))).
  { etransitivity; [by apply exit_procs_self|]. rewrite exit_other_exact, Hr. cbn. done. }
  assert (Hc2 : kctx [L_ptable] s2) by (by apply kctx_procs).
  assert (Hwf2 : ptable_wf s2) by (by apply (exit_procs_wf me p (acquired L_ptable s))).
  rewrite (sched_eq me _ s2 Hc2 C1 Hself) by done.
  eexists s2, _. split; [done|]. split; [split; [done..|]; eexists; split; [exact Hself|by right; right]|].
  do 3 (split; [done|]). split; [|split; [|done]].
  - rewrite Hself. unfold adopt. by destruct (bool_decide_reflect (p_parent p = Some me)), (decide _).
  - intros j q Hq Hne. destruct (exit_other_wakes me (k_initproc s) (p_parent p) (k_procs s) q) as (st & Est & Hst).
    exists st. split; [|done]. etransitivity; [by apply exit_procs_lookup|]. rewrite Est. do 2 f_equal. unfold adopt.
    destruct (bool_decide_reflect (p_parent q = Some me)), (decide _); try done. by rewrite set_parent_id.
Qed.

End Exit.

(** * Concrete machines

    Init sleeps in [wait]; process 2 runs in slot 1; its child, process 3, is a
    zombie in slot 2. *)
Module Demo.
Definition mkp (st : procstate) (pid ks pd : Z) (par : option nat) (ch : chan) : proc :=
  mkProc 4096 pd ks st pid par tf0 (mkContext 0 0 0 0 0) ch 0 (replicate NOFILE None) (Some 0%nat)
    (replicate 16 0) 0 (replicate NUMSIG 0) 0 0 0.
Definition ini : proc := mkp SLEEPING 1 11 12 None (C_proc 0).
Definition me : proc := mkp RUNNING 2 21 22 (Some 0%nat) C_null.
Definition kid : proc := mkp ZOMBIE 3 31 32 (Some 1%nat) C_null.
Definition ps : list proc := [ini; me; kid].
Definition spc : vobj := OSpace 4096 Flat.zeros.
Definition world : gmap Z vobj :=
  {[ 11 := OPage; 12 := spc; 21 := OPage; 22 := spc; 31 := OPage; 32 := spc ]}.
Definition locks : gmap lockid spinlock :=
  {[ L_ptable := mkLock 0 "ptable" None; L_ftable := mkLock 0 "ftable" None;
     L_icache := mkLock 0 "icache" None ]}.
Definition st : kst (gmap Z vobj) :=
  mkKst 0%nat (mkCpu 0 false true 0 0) locks (ps ++ replicate 61 proc0) 4 (Some 1%nat)
    (Some 0%nat) 0 true 0 (replicate NFILE file0) ∅ ∅ world fs0 [].

Lemma mkp_ok st pid ks pd par ch :
  0 < pid → ks ≠ 0 → pd ≠ 0 → (∀ k, par = Some k → (k < NPROC)%nat) →
  proc_ok (mkp st pid ks pd par ch).
Proof. intros. split; cbn; try done; lia. Qed.

Lemma proc_st_wf : ptable_wf st.
Proof.
  apply (wf_prefix ps); try done.
  - unfold NPROC. cbn. lia.
  - repeat (constructor; [split; [apply mkp_ok; try done; intros k [= <-]; unfold NPROC; lia|cbn; lia]|]). constructor.
  - apply (bool_decide_unpack (NoDup (p_pid <$> ps))). vm_compute. exact I.
  - intros [|[|[|i]]] p; cbn; try (by intros [= <-]); by destruct i.
  - intros i [= <-]. unfold NPROC. lia.
  - intros i [= <-]. unfold NPROC. lia.
Qed.

Lemma proc_st_ctx : kctx [] st.
Proof.
  apply kctx_none; [|done]. unfold st, locks. cbn [k_locks].
  apply map_Forall_insert_2; [done|]. apply map_Forall_insert_2; [done|].
  by apply map_Forall_singleton.
Qed.

Lemma proc_st_run : krun [] [L_ftable; L_icache] 1 me st.
Proof.
  split; [exact proc_st_ctx|exact proc_st_wf|done| |done|by exists me].
  intros l [->|[->|[->|Hl%not_elem_of_nil]%elem_of_cons]%elem_of_cons]%elem_of_cons; [..|done]; by eexists.
Qed.

Lemma zeros_ok : mem_ok Flat.zeros.
Proof. intros x. unfold Flat.zeros. lia. Qed.

Lemma proc_st_mem : vm_inv world (k_mem st).
Proof.
  split; [done|]. change (Flat.objs_ok world). unfold world.
  repeat (apply Flat.objs_ok_insert; [|intros ? ? [= <- <-]; apply zeros_ok || done]).
  intros pd sz um Hl. by rewrite lookup_empty in Hl.
Qed.

Lemma st_live i p : k_procs st !! i = Some p → lclass_of (p_state p) = Live →
  (i = 0%nat ∧ p = ini) ∨ (i = 1%nat ∧ p = me) ∨ (i = 2%nat ∧ p = kid).
Proof.
  intros Hp Hl. destruct i as [|[|[|i]]]; cbn in Hp; [by injection Hp as <-; auto..|].
  change ((replicate 61 proc0) !! i = Some p) in Hp. apply lookup_replicate in Hp as [-> _]. done.
Qed.

Lemma st_owns : owns world (k_procs st).
Proof.
  split.
  - intros i p Hp Hl. by destruct (st_live i p Hp Hl) as [[-> ->]|[[-> ->]|[-> ->]]].
  - intros i p Hp Hl. exists Flat.zeros. by destruct (st_live i p Hp Hl) as [[-> ->]|[[-> ->]|[-> ->]]].
  - intros i j p q Hp Hq Hl Hl'.
    by destruct (st_live i p Hp Hl) as [[-> ->]|[[-> ->]|[-> ->]]],
      (st_live j q Hq Hl') as [[-> ->]|[[-> ->]|[-> ->]]].
  - intros i j p q Hp Hq Hl Hl'.
    by destruct (st_live i p Hp Hl) as [[-> ->]|[[-> ->]|[-> ->]]],
      (st_live j q Hq Hl') as [[-> ->]|[[-> ->]|[-> ->]]].
Qed.
End Demo.

Lemma fork_spec_witness : ∃ r s', fork 4096 tf0 Demo.st = Done r s' ∧ ptable_wf s' ∧
  k_procs s' !! 1%nat = Some Demo.me.
Proof.
  assert (Hopen : open_ok (p_ofile Demo.me) (k_files Demo.st)).
  { intros fd f [Hf _]%(lookup_replicate 16 None (Some f) fd). discriminate. }
  destruct (fork_spec 4096 tf0 1 Demo.me Demo.world Flat.zeros 0 Demo.st Demo.proc_st_ctx Demo.proc_st_wf
    (mk_is_Some _ _ eq_refl) (mk_is_Some _ _ eq_refl) (mk_is_Some _ _ eq_refl) eq_refl eq_refl
    eq_refl Hopen eq_refl (conj eq_refl eq_refl) Demo.proc_st_mem eq_refl)
    as (r & s' & H1 & H2 & H3 & H4 & H5 & H6).
  exists r, s'. split; [exact H1|]. split; [exact H3|exact H5].
Defined.

Lemma wait_safe_witness :
  wp (kenv 1 owned True) (wait 3 Demo.st) (λ r _, r = -1 ∨ 0 < r).
Proof.
  eapply wp_mono; [|apply (wait_safe [L_ftable; L_icache] 1 Demo.me 3 Demo.st Demo.proc_st_run)].
  - intros r s' (_ & _ & H). exact H.
  - exists Demo.world. split; [exact Demo.proc_st_mem|exact Demo.st_owns].
Defined.

Lemma wait_reaps_witness : ∃ s', wait 1 Demo.st = Done 3 s' ∧
  k_procs s' !! 2%nat = Some (reaped Demo.kid).
Proof.
  destruct (proj1 (wait_reaps [L_ftable; L_icache] 1 Demo.me Demo.world 0 Demo.st Demo.proc_st_run
    Demo.proc_st_mem Demo.st_owns) 2%nat Demo.kid eq_refl) as (s' & H1 & H2 & H3 & H4).
  exists s'. split; [exact H1|]. rewrite H3. reflexivity.
Defined.

Lemma exit_spec_witness : ∃ s2 k, exit_tail Demo.st = Switch s2 k ∧
  k_procs s2 !! 0%nat = Some (set_p_state RUNNABLE Demo.ini) ∧
  k_procs s2 !! 2%nat = Some (set_p_parent (Some 0%nat) Demo.kid).
Proof.
  destruct (exit_spec [L_ftable; L_icache] 1 Demo.me Demo.me Demo.st Demo.proc_st_run eq_refl)
    as (s2 & k & H1 & _ & _ & _ & _ & _ & H7 & _); [discriminate|].
  exists s2, k. split; [exact H1|]. split.
  - destruct (H7 0%nat Demo.ini) as (st & Hq & [[_ ->]|[[] _]]); [reflexivity|discriminate|exact Hq|].
    split; [reflexivity|left; reflexivity].
  - destruct (H7 2%nat Demo.kid) as (st & Hq & [[[Hs _] _]|[_ ->]]); [reflexivity|discriminate|discriminate Hs|exact Hq].
Defined.
