(* ===== verification/Signal.v ===== *)
(** proc.c, signals and alarms.  proc.c carries both sides of a merge that was
    never finished: [Module Head] is the version of lines 778-954, written for the
    fields and callers of the HEAD side (trap.c calls [updateAlarms], trapasm.S
    calls [checkPEndingSignals]); [Module Other] is the version of lines 296-462,
    of commit d445f14.  Both are modelled over the same process record; a pending
    mask and an alarm counter are 32-bit patterns, read as the side's type says. *)
From S2P Require Import Prelude Mem KState Spinlock Sched Services.

(** [1 << n] as a 32-bit pattern. *)
Definition bit (n : Z) : Z := u32 (Z.shiftl 1 n).

(** The marker both sides store above a saved trap frame. *)
Definition tfFlag : Z := 11259375.  (* 0xABCDEF *)

Section Locking.
Context {W : Type}.

(** [int has_lk = holding(&ptable.lock); if (!has_lk) acquire(&ptable.lock); ...;
    if (!has_lk) release(&ptable.lock);] *)
Definition with_ptable {A} (m : M (kst W) A) : M (kst W) A :=
  has_lk <- holding L_ptable ;;
  when (negb has_lk) (acquire L_ptable) ;;;
  r <- m ;;
  when (negb has_lk) (release L_ptable) ;;;
  ret r.

(** Change the user [eip] so that the user code runs the signal handler next; the
    same lines on both sides. *)
Definition redirect (signum nesp : Z) : M (kst W) unit :=
  with_ptable (
    set_cur (λ q, set_p_tf (set_tf_eip (p_handlers q !!! Z.to_nat signum) (p_tf q)) q) ;;;
    set_cur (λ q, set_p_tf (set_tf_ebp nesp (p_tf q)) q) ;;;
    set_cur (λ q, set_p_tf (set_tf_esp nesp (p_tf q)) q)).

End Locking.

Module Head.
Section Head.
Context {W : Type} {VO : VmOps W}.
(** The machine code from [sigretwrapper] up to [sigreturn]. *)
Variable wrapper : list Z.

(** default signal handler *)
Definition def_Hendler (signum : Z) : M (kst W) unit :=
  p <- cur ;; cprintf "A signal %d was accepted by %d\n" [signum; p_pid p].

Definition signal (signum handler : Z) : M (kst W) Z :=
  if (signum <? 0) || (Z.of_nat NUMSIG <=? signum) then ret (-1)
  else
    p <- cur ;;
    let old_handler := p_handlers p !!! Z.to_nat signum in
    with_ptable (set_cur (λ q, set_p_handlers (<[Z.to_nat signum := handler]> (p_handlers q)) q)) ;;;
    ret old_handler.

Definition sigsend_scan (pid signum : Z) : M (kst W) (option Z) :=
  for_break slots (λ i,
    p <- proc_at i ;;
    if p_pid p =? pid then
      set_proc i (set_p_pending (Z.lor (p_pending p) (bit signum))) ;;; ret (Some 0)
    else ret None).

(** sends the signal [signum] to process [pid] *)
Definition sigsend (pid signum : Z) : M (kst W) Z :=
  if (signum <? 0) || (Z.of_nat NUMSIG <=? signum) then ret (-1)
  else
    r <- with_ptable (sigsend_scan pid signum) ;;
    ret (if r is Some v then v else -1).

(** [while(runner != 0xABCDEF) { ans += 4; runner = *ans; }] *)
Fixpoint findTrapframe_loop (fuel : nat) (ans : Z) : M (kst W) Z :=
  match fuel with
  | O => λ _, Fuel
  | S fuel' =>
    runner <- uload32 ans ;;
    if runner =? tfFlag then ret ans else findTrapframe_loop fuel' (u32 (ans + 4))
  end.
Definition findTrapframe (fuel : nat) (sp : Z) : M (kst W) Z :=
  ans <- findTrapframe_loop fuel sp ;; ret (u32 (ans - Z.of_nat tf_size)).

(** (system call) return from a signal handler.  [memmove] returns its first
    argument, so its "error" branch is never taken. *)
Definition sigreturn : M (kst W) Z :=
  with_ptable (
    p <- cur ;;
    bs <- uloads (u32 (tf_ebp (p_tf p) + 8)) tf_size ;;
    set_cur (set_p_tf (tf_of_bytes bs)) ;;;
    set_cur (set_p_isHandlingsignal 0) ;;;
    ret 0).

(** The first [signum] below [NUMSIG] whose bit is set. *)
Fixpoint first_pending (pending : Z) (l : list nat) : option Z :=
  match l with
  | [] => None
  | n :: l' => if Z.testbit pending (Z.of_nat n) then Some (Z.of_nat n) else first_pending pending l'
  end.

(** Build the handler's frame on the user stack and redirect the process to it. *)
Definition push_frame (signum : Z) : M (kst W) unit :=
  p <- cur ;;
  let nesp := u32 (tf_esp (p_tf p) - Z.of_nat (length wrapper)) in
  let retAddress := nesp in
  ustores nesp wrapper ;;;
  let nesp := u32 (nesp - 4) in
  ustores nesp (le32 tfFlag) ;;;
  let nesp := u32 (nesp - Z.of_nat tf_size) in
  ustores nesp (tf_bytes (p_tf p)) ;;;
  let nesp := u32 (nesp - 4) in
  ustores nesp (le32 signum) ;;;
  let nesp := u32 (nesp - 4) in
  ustores nesp (le32 retAddress) ;;;
  redirect signum nesp.

Definition checkPEndingSignals (tf : trapframe) : M (kst W) unit :=
  o <- gets k_cur ;;
  match o with
  | None => ret tt
  | Some _ =>
    p <- cur ;;
    if (p_pending p =? 0) || negb (p_isHandlingsignal p =? 0) || negb (Z.land (tf_cs tf) 3 =? DPL_USER)
    then ret tt
    else
      match first_pending (p_pending p) (seq 0 NUMSIG) with
      | None => ret tt
      | Some signum =>
        with_ptable (set_cur (λ q, set_p_pending (Z.lxor (p_pending q) (bit signum)) q)) ;;;
        p <- cur ;;
        if negb (p_handlers p !!! Z.to_nat signum =? 0) then push_frame signum
        else def_Hendler signum
      end
  end.

(** set alarms *)
Definition alarm (tic : Z) : M (kst W) Z :=
  with_ptable (
    p <- cur ;;
    (if negb (tic =? 0) then ret tt
     else when (Z.testbit (p_pending p) SIGALRM)
       (set_cur (λ q, set_p_pending (Z.lxor (p_pending q) (bit SIGALRM)) q))) ;;;
    set_cur (set_p_alarmFlag (u32 (if negb (tic =? 0) then tic else 0)))) ;;;
  p <- cur ;;
  ret (s32 (p_alarmFlag p)).

Definition updateAlarms_body (i : nat) : M (kst W) unit :=
  p <- proc_at i ;;
  when (0 <? p_alarmFlag p) (
    set_proc i (set_p_alarmFlag (p_alarmFlag p - 1)) ;;;
    q <- proc_at i ;;
    if p_alarmFlag q =? 0 then _ <- sigsend (p_pid q) SIGALRM ;; ret tt else ret tt).

(** handles alarms: once per timer tick *)
Definition updateAlarms : M (kst W) unit :=
  with_ptable (for_each slots updateAlarms_body).

End Head.
End Head.

Module Other.
Section Other.
Context {W : Type} {VO : VmOps W}.
(** The machine code from [sigretwrapper] up to [checkPendingSignals]. *)
Variable wrapper : list Z.

Definition signal (signum handler : Z) : M (kst W) Z :=
  o <- gets k_cur ;;
  match o with
  | None => ret (-1)
  | Some _ =>
    if (signum <? 0) || (Z.of_nat NUMSIG <=? signum) then ret (-1)
    else
      p <- cur ;;
      let oldHandler := p_handlers p !!! Z.to_nat signum in
      set_cur (λ q, set_p_handlers (<[Z.to_nat signum := handler]> (p_handlers q)) q) ;;;
      ret oldHandler
  end.

Definition sigsend (pid signum : Z) : M (kst W) Z :=
  acquire L_ptable ;;;
  found <- for_break slots (λ i,
    p <- proc_at i ;;
    if p_pid p =? pid then
      set_cur (λ q, set_p_pending (Z.lor (p_pending q) (bit signum)) q) ;;; ret (Some tt)
    else ret None) ;;
  release L_ptable ;;;
  ret (if found is Some _ then 0 else -1).

Definition defHandler (signum : Z) : M (kst W) unit :=
  p <- cur ;; cprintf "A signal %d was accepted by process %d\n" [signum; p_pid p].

Definition sigreturn : M (kst W) Z :=
  cprintf "-----------proc tf when starting sigreturn:-----\n " [] ;;;
  with_ptable (
    p <- cur ;;
    bs <- uloads (u32 (tf_ebp (p_tf p) + 8)) tf_size ;;
    set_cur (set_p_tf (tf_of_bytes bs))) ;;;
  ret 0.

(** [for(sigNum=-1; runner!=0; runner>>=1) sigNum++;]: 32 shifts empty a [uint]. *)
Fixpoint top_bit (fuel : nat) (runner sigNum : Z) : Z :=
  match fuel with
  | O => sigNum
  | S fuel' => if runner =? 0 then sigNum else top_bit fuel' (Z.shiftr runner 1) (sigNum + 1)
  end.

Definition pick (pending : Z) : Z :=
  if pending =? 1 then 0 else top_bit 33 pending (-1).

Definition push_frame (sigNum : Z) : M (kst W) unit :=
  p <- cur ;;
  let nesp := u32 (tf_esp (p_tf p) - Z.of_nat (length wrapper)) in
  let retAddress := nesp in
  ustores nesp wrapper ;;;
  let nesp := u32 (nesp - 4) in
  ustores nesp (le32 tfFlag) ;;;
  let nesp := u32 (nesp - Z.of_nat tf_size) in
  ustores nesp (tf_bytes (p_tf p)) ;;;
  let nesp := u32 (nesp - 4) in
  ustores nesp (le32 sigNum) ;;;
  let nesp := u32 (nesp - 4) in
  ustores nesp (le32 retAddress) ;;;
  cprintf "retAdress put on place: %d\n" [nesp] ;;;
  redirect sigNum nesp.

Definition checkPendingSignals : M (kst W) unit :=
  o <- gets k_cur ;;
  match o with
  | None => ret tt
  | Some _ =>
    p <- cur ;;
    if (Z.land (tf_cs (p_tf p)) 3 =? DPL_USER) && negb (p_pending p =? 0) then
      let sigNum := pick (p_pending p) in
      set_cur (λ q, set_p_pending (u32 (p_pending q - bit sigNum)) q) ;;;
      if p_handlers p !!! Z.to_nat sigNum =? 0 then defHandler sigNum
      else push_frame sigNum
    else ret tt
  end.

Definition updateAlarams_body (i : nat) : M (kst W) unit :=
  p <- proc_at i ;;
  when (0 <? s32 (p_alarmFlag p)) (
    set_proc i (set_p_alarmFlag (p_alarmFlag p - 1)) ;;;
    q <- proc_at i ;;
    when (p_alarmFlag q =? 0) (set_proc i (λ q, set_p_pending (Z.lor (p_pending q) (bit 14)) q))).

Definition updateAlarams : M (kst W) unit := for_each slots updateAlarams_body.

(** [temp = ~1<<14] is the mask with bits 15 to 31 set. *)
Definition alarm_mask : Z := u32 (Z.shiftl (Z.lnot 1) 14).

Definition alarm (ti : Z) : M (kst W) Z :=
  if ti <? 0 then ret (-1)
  else if ti =? 0 then
    set_cur (λ q, set_p_pending (Z.land (p_pending q) alarm_mask) q) ;;; ret 0
  else set_cur (set_p_alarmFlag ti) ;;; ret 0.

End Other.
End Other.

(** [printTrapframe], the same on both sides. *)
Definition printTrapframe {W} (tf : trapframe) : M (kst W) unit :=
  cprintf "-----------printing trapfram from kernel------\n" [] ;;;
  for_each [("tf->edi: %d\n", tf_edi tf); ("tf->esi: %d\n", tf_esi tf); ("tf->ebp: %d\n", tf_ebp tf);
    ("tf->oesp: %d\n", tf_oesp tf); ("tf->ebx: %d\n", tf_ebx tf); ("tf->edx: %d\n", tf_edx tf);
    ("tf->ecx: %d\n", tf_ecx tf); ("tf->eax: %d\n", tf_eax tf); ("tf->gs: %d\n", tf_gs tf);
    ("tf->padding1: %d\n", tf_padding1 tf); ("tf->fs: %d\n", tf_fs tf);
    ("tf->padding2: %d\n", tf_padding2 tf); ("tf->es: %d\n", tf_es tf);
    ("tf->padding3: %d\n", tf_padding3 tf); ("tf->ds: %d\n", tf_ds tf);
    ("tf->padding4: %d\n", tf_padding4 tf); ("tf->trapno: %d\n", tf_trapno tf);
    ("tf->err: %d\n", tf_err tf); ("tf->eip: %d\n", tf_eip tf); ("tf->cs: %d\n", tf_cs tf);
    ("tf->padding5: %d\n", tf_padding5 tf); ("tf->eflags: %d\n", tf_eflags tf);
    ("tf->esp: %d\n", tf_esp tf); ("tf->ss: %d\n", tf_ss tf);
    ("tf->padding6: %d\n", tf_padding6 tf)]
    (λ '(fmt, v), cprintf fmt [v]).

Arguments with_ptable : simpl never.
Arguments redirect : simpl never.
Arguments Head.sigsend_scan : simpl never.

Lemma bit_pow n : 0 ≤ n < 32 → bit n = 2^n.
Proof.
  intros Hn. unfold bit. rewrite Z.shiftl_1_l. apply u32_id.
  split; [apply Z.pow_nonneg; lia|apply Z.pow_lt_mono_r; lia].
Qed.

(** * Trap frames as bytes *)

Definition u32_ok (z : Z) : Prop := 0 ≤ z < 2^32.
Definition u16_ok (z : Z) : Prop := 0 ≤ z < 2^16.

(** Every field within its C type. *)
Definition tf_wf (t : trapframe) : Prop :=
  (u32_ok (tf_edi t) ∧ u32_ok (tf_esi t) ∧ u32_ok (tf_ebp t) ∧ u32_ok (tf_oesp t) ∧
   u32_ok (tf_ebx t) ∧ u32_ok (tf_edx t) ∧ u32_ok (tf_ecx t) ∧ u32_ok (tf_eax t)) ∧
  (u16_ok (tf_gs t) ∧ u16_ok (tf_padding1 t) ∧ u16_ok (tf_fs t) ∧ u16_ok (tf_padding2 t) ∧
   u16_ok (tf_es t) ∧ u16_ok (tf_padding3 t) ∧ u16_ok (tf_ds t) ∧ u16_ok (tf_padding4 t)) ∧
  (u32_ok (tf_trapno t) ∧ u32_ok (tf_err t) ∧ u32_ok (tf_eip t) ∧ u16_ok (tf_cs t) ∧
   u16_ok (tf_padding5 t) ∧ u32_ok (tf_eflags t) ∧ u32_ok (tf_esp t) ∧ u16_ok (tf_ss t) ∧
   u16_ok (tf_padding6 t)).

Lemma words_of_concat ws : words_of (length ws) (concat (le32 <$> ws)) = u32 <$> ws.
Proof.
  induction ws as [|w ws IH]; [done|]. cbn [length fmap list_fmap concat words_of].
  rewrite take_app_length', drop_app_length' by done. by rewrite of_le_le32, IH.
Qed.

Lemma half_words a b : u16_ok a → u16_ok b →
  u32 (a + 2^16 * b) = a + 2^16 * b ∧ lo16 (a + 2^16 * b) = a ∧ hi16 (a + 2^16 * b) = b.
Proof.
  unfold u16_ok, lo16, hi16. intros Ha Hb. split; [apply u32_id; lia|].
  Z.div_mod_to_equations. lia.
Qed.

Lemma tf_roundtrip t : tf_wf t → tf_of_bytes (tf_bytes t) = t.
Proof.
  intros ((H1 & H2 & H3 & H4 & H5 & H6 & H7 & H8) & (G1 & G2 & G3 & G4 & G5 & G6 & G7 & G8) &
    (K1 & K2 & K3 & K4 & K5 & K6 & K7 & K8 & K9)).
  unfold tf_of_bytes, tf_bytes. change 19%nat with (length (tf_words t)).
  rewrite words_of_concat. unfold tf_words, tf_of_words. cbn [fmap list_fmap].
  destruct (half_words _ _ G1 G2) as (-> & E1 & E1'), (half_words _ _ G3 G4) as (-> & E2 & E2'),
    (half_words _ _ G5 G6) as (-> & E3 & E3'), (half_words _ _ G7 G8) as (-> & E4 & E4'),
    (half_words _ _ K4 K5) as (-> & E5 & E5'), (half_words _ _ K8 K9) as (-> & E6 & E6').
  rewrite !u32_id by done. cbn [lookup list_lookup default]. unfold id.
  rewrite E1, E1', E2, E2', E3, E3', E4, E4', E5, E5', E6, E6'. by destruct t.
Qed.

Lemma length_tf_bytes t : length (tf_bytes t) = tf_size.
Proof. done. Qed.

Lemma tf_bytes_ok t : Forall (λ b, 0 ≤ b < 256) (tf_bytes t).
Proof. unfold tf_bytes, tf_words. cbn. repeat (constructor; [apply u8_range|]). constructor. Qed.

Arguments tf_bytes : simpl never.
Arguments tf_of_bytes : simpl never.
Arguments bytes : simpl never.
Arguments writes : simpl never.
Arguments le32 : simpl never.

(** * Code under [ptable.lock] *)
Section WithPtable.
Context {W : Type}.
Implicit Types s : kst W.

Definition quiet (s : kst W) : kst W := set_k_cpu (cpu_norm (k_cpu s)) s.

(** The lock is not held by the caller: the body runs in a critical section. *)
Lemma with_ptable_procs {A} held (m : M (kst W) A) r ps s :
  kctx held s → L_ptable ∉ held → is_Some (k_locks s !! L_ptable) →
  m (acquired L_ptable s) = Done r (set_k_procs ps (acquired L_ptable s)) →
  with_ptable m s = Done r (set_k_procs ps (quiet s)).
Proof.
  intros Hc Hn Hi Hm. unfold with_ptable. cbn.
  rewrite (holdingb_free L_ptable s) by (by eapply kctx_free). cbn.
  destruct (acquire_kctx held L_ptable s) as [-> Hc1]; [done..|]. cbn. rewrite Hm. cbn.
  destruct (release_kctx held L_ptable (set_k_procs ps (acquired L_ptable s))) as [-> _];
    [by apply kctx_procs|]. cbn.
  change (released L_ptable (set_k_procs ps (acquired L_ptable s)))
    with (set_k_procs ps (released L_ptable (acquired L_ptable s))).
  rewrite released_acquired; [done|by eapply kctx_free|by eapply kctx_cpu_wf].
Qed.

Lemma with_ptable_free {A} held (m : M (kst W) A) r i q s :
  kctx held s → L_ptable ∉ held → is_Some (k_locks s !! L_ptable) →
  m (acquired L_ptable s) = Done r (with_proc i q (acquired L_ptable s)) →
  with_ptable m s = Done r (with_proc i q (quiet s)).
Proof. apply with_ptable_procs. Qed.

(** The lock is held by the caller already. *)
Lemma with_ptable_held {A} held (m : M (kst W) A) r s s' :
  kctx held s → L_ptable ∈ held → m s = Done r s' → with_ptable m s = Done r s'.
Proof.
  intros Hc Hh Hm. unfold with_ptable. cbn.
  rewrite (holdingb_held L_ptable s) by (by eapply kctx_held). cbn. by rewrite Hm.
Qed.

Lemma set_cur_with i f q s :
  k_cur s = Some i → (i < length (k_procs s))%nat →
  set_cur f (with_proc i q s) = Done tt (with_proc i (f q) s).
Proof.
  intros Hc Hi. rewrite (set_cur_eq i) by done. exact (set_proc_with i f q s Hi).
Qed.

Lemma set_cur_at i f q s :
  k_cur s = Some i → k_procs s !! i = Some q → set_cur f s = Done tt (with_proc i (f q) s).
Proof. intros Hc Hq. rewrite (set_cur_eq i) by done. exact (set_proc_eq i f q s Hq). Qed.

Lemma cur_with i q s :
  k_cur s = Some i → (i < length (k_procs s))%nat →
  cur (with_proc i q s) = Done q (with_proc i q s).
Proof. intros Hc Hi. apply (cur_eq i q); [done|by apply with_proc_lookup]. Qed.

End WithPtable.

(** Run a chain of assignments to fields of the current process. *)
Ltac cur_steps := repeat (rewrite set_cur_with by (cbn; first [done|assumption]); cbn).

(** * Which signal is taken *)

(** The lowest set bit. *)
Lemma first_pending_lowest pending n :
  Head.first_pending pending (seq 0 NUMSIG) = Some n →
  0 ≤ n < 32 ∧ Z.testbit pending n = true ∧ ∀ m, 0 ≤ m < n → Z.testbit pending m = false.
Proof.
  assert (G : ∀ len st n, Head.first_pending pending (seq st len) = Some n →
    Z.of_nat st ≤ n < Z.of_nat (st + len) ∧ Z.testbit pending n = true ∧
    ∀ m, Z.of_nat st ≤ m < n → Z.testbit pending m = false).
  { clear n. induction len as [|len IH]; intros st n; cbn; [done|].
    destruct (Z.testbit pending (Z.of_nat st)) eqn:Hb.
    - intros [= <-]. split; [lia|]. split; [done|]. intros. lia.
    - intros H. destruct (IH _ _ H) as (H1 & H2 & H3). split; [lia|]. split; [done|].
      intros m Hm. destruct (decide (m = Z.of_nat st)) as [->|]; [done|]. apply H3. lia. }
  intros H. destruct (G _ _ _ H) as (H1 & H2 & H3). unfold NUMSIG in *. split; [lia|].
  split; [done|]. intros m Hm. apply H3. lia.
Qed.

Lemma first_pending_none pending :
  0 ≤ pending < 2^32 → Head.first_pending pending (seq 0 NUMSIG) = None → pending = 0.
Proof.
  assert (G : ∀ len st, Head.first_pending pending (seq st len) = None →
    ∀ m, Z.of_nat st ≤ m < Z.of_nat (st + len) → Z.testbit pending m = false).
  { induction len as [|len IH]; intros st; cbn; [intros; lia|].
    destruct (Z.testbit pending (Z.of_nat st)) eqn:Hb; [done|].
    intros H m Hm. destruct (decide (m = Z.of_nat st)) as [->|]; [done|].
    apply (IH _ H). lia. }
  intros Hr H. apply Z.bits_inj'. intros m Hm. rewrite Z.bits_0.
  destruct (decide (m < 32)).
  - apply (G _ _ H). unfold NUMSIG. lia.
  - rewrite <- (Z.mod_small pending (2^32)) by done. rewrite Z.mod_pow2_bits_high by lia. done.
Qed.

(** * Delivery and return: the HEAD side *)
Section Delivery.
Context {W : Type} {VO : VmOps W} {VL : VmLaws W}.
Variable wrapper : list Z.
Implicit Types s : kst W.

(** Bytes the handler's frame takes: the wrapper, the marker, the saved trap
    frame, the argument and the return address. *)
Definition frame_size : Z := Z.of_nat (length wrapper) + 88.

(** User memory once the frame is on the stack of a process interrupted with [t]. *)
Definition frame_mem (t : trapframe) (signum : Z) (um : mem) : mem :=
  let a := tf_esp t - Z.of_nat (length wrapper) in
  writes (writes (writes (writes (writes um a wrapper) (a - 4) (le32 tfFlag))
    (a - 80) (tf_bytes t)) (a - 84) (le32 signum)) (a - 88) (le32 a).

(** The trap frame with which the process enters the handler. *)
Definition handler_tf (t : trapframe) (handler : Z) : trapframe :=
  let nesp := tf_esp t - frame_size in
  set_tf_esp nesp (set_tf_ebp nesp (set_tf_eip handler t)).

Lemma ustores_then {B} g i p um va bs (k : M (kst W) B) s :
  user_mem g i p um s → 0 ≤ va → va + Z.of_nat (length bs) ≤ p_sz p →
  ∃ w, (ustores va bs ;;; k) s = k (set_k_mem w s) ∧
    user_mem (<[p_pgdir p := OSpace (p_sz p) (writes um va bs)]> g) i p (writes um va bs) (set_k_mem w s).
Proof.
  intros Hu H0 H1. destruct (ustores_eq g i p um va bs s Hu H0 H1) as (w & Hs & Hu').
  exists w. cbn. by rewrite Hs.
Qed.

Lemma push_stores_then {B} g i p um signum (k : M (kst W) B) s :
  user_mem g i p um s → frame_size ≤ tf_esp (p_tf p) ≤ p_sz p →
  let a := tf_esp (p_tf p) - Z.of_nat (length wrapper) in
  ∃ w, (ustores a wrapper ;;; ustores (a - 4) (le32 tfFlag) ;;; ustores (a - 80) (tf_bytes (p_tf p)) ;;;
        ustores (a - 84) (le32 signum) ;;; ustores (a - 88) (le32 a) ;;; k) s = k (set_k_mem w s) ∧
    vm_inv (<[p_pgdir p := OSpace (p_sz p) (frame_mem (p_tf p) signum um)]> g) w.
Proof.
  intros Hu Hroom a. unfold frame_size in Hroom.
  destruct (ustores_then g i p um a wrapper
    (ustores (a - 4) (le32 tfFlag) ;;; ustores (a - 80) (tf_bytes (p_tf p)) ;;;
      ustores (a - 84) (le32 signum) ;;; ustores (a - 88) (le32 a) ;;; k) s Hu) as (w1 & -> & H1); [lia..|].
  edestruct (ustores_then _ i p _ (a - 4) (le32 tfFlag) (ustores (a - 80) (tf_bytes (p_tf p)) ;;;
      ustores (a - 84) (le32 signum) ;;; ustores (a - 88) (le32 a) ;;; k) _ H1) as (w2 & -> & H2);
    [lia|change (length (le32 _)) with 4%nat; lia|].
  edestruct (ustores_then _ i p _ (a - 80) (tf_bytes (p_tf p)) (ustores (a - 84) (le32 signum) ;;;
    ustores (a - 88) (le32 a) ;;; k) _ H2) as (w3 & -> & H3);
    [lia|rewrite length_tf_bytes; unfold tf_size; lia|].
  edestruct (ustores_then _ i p _ (a - 84) (le32 signum) (ustores (a - 88) (le32 a) ;;; k) _ H3)
    as (w4 & -> & H4); [lia|change (length (le32 _)) with 4%nat; lia|].
  edestruct (ustores_then _ i p _ (a - 88) (le32 a) k _ H4) as (w5 & -> & H5);
    [lia|change (length (le32 _)) with 4%nat; lia|].
  exists w5. split; [done|]. destruct H5 as [H5 _]. by rewrite !insert_insert_eq in H5.
Qed.

Lemma u32_sub a b : 0 ≤ b ≤ a → a < 2^32 → u32 (a - b) = a - b.
Proof. intros. apply u32_id. lia. Qed.

Lemma push_frame_eq g me p um signum s :
  kctx [] s → is_Some (k_locks s !! L_ptable) → user_mem g me p um s →
  frame_size ≤ tf_esp (p_tf p) ≤ p_sz p → p_sz p < 2^32 →
  ∃ w, Head.push_frame wrapper signum s =
      Done tt (with_proc me (set_p_tf (handler_tf (p_tf p) (p_handlers p !!! Z.to_nat signum)) p)
        (quiet (set_k_mem w s))) ∧
    vm_inv (<[p_pgdir p := OSpace (p_sz p) (frame_mem (p_tf p) signum um)]> g) w.
Proof.
  intros Hc Hi Hu Hroom Hsz. pose proof Hu as (_ & Hcur & Hp & _).
  pose proof (lookup_lt_Some _ _ _ Hp) as Hlt. unfold frame_size in *.
  unfold Head.push_frame. cbn. rewrite (cur_eq me p) by done. cbn [rbind].
  set (a := tf_esp (p_tf p) - Z.of_nat (length wrapper)).
  replace (u32 a) with a by (symmetry; apply u32_id; lia).
  replace (u32 (a - 4)) with (a - 4) by (symmetry; apply u32_id; lia).
  replace (u32 (a - 4 - Z.of_nat tf_size)) with (a - 80) by (symmetry; rewrite u32_id; unfold tf_size; lia).
  replace (u32 (a - 80 - 4)) with (a - 84) by (symmetry; rewrite u32_id; lia).
  replace (u32 (a - 84 - 4)) with (a - 88) by (symmetry; rewrite u32_id; lia).
  destruct (push_stores_then g me p um signum (redirect signum (a - 88)) s Hu) as (w & Hst & Hg); [done|].
  exists w. split; [|exact Hg]. refine (eq_trans Hst _). unfold redirect.
  apply (with_ptable_free []); [by apply (kctx_frame _ s)|set_solver|done|].
  cbn. rewrite (set_cur_at me _ p) by done. cbn. cur_steps.
  unfold handler_tf, frame_size. replace (tf_esp (p_tf p) - _) with (a - 88) by (unfold a; lia). done.
Qed.

(** The process once signal [signum] has been taken and its handler entered. *)
Definition delivered (signum : Z) (p : proc) : proc :=
  set_p_tf (handler_tf (p_tf p) (p_handlers p !!! Z.to_nat signum))
    (set_p_pending (Z.lxor (p_pending p) (bit signum)) p).

Lemma quiet_kctx held s : kctx held s → kctx held (quiet s).
Proof. apply kctx_norm. Qed.

Lemma quiet_quiet s : quiet (quiet s) = quiet s.
Proof.
  unfold quiet. cbn. unfold cpu_norm. destruct (Z.eqb_spec (c_ncli (k_cpu s)) 0) as [E|E]; cbn; [done|].
  by destruct (Z.eqb_spec (c_ncli (k_cpu s)) 0).
Qed.

Lemma deliver_eq g me p um tf signum s :
  kctx [] s → is_Some (k_locks s !! L_ptable) → user_mem g me p um s →
  p_pending p ≠ 0 → p_isHandlingsignal p = 0 → Z.land (tf_cs tf) 3 = DPL_USER →
  Head.first_pending (p_pending p) (seq 0 NUMSIG) = Some signum →
  p_handlers p !!! Z.to_nat signum ≠ 0 →
  frame_size ≤ tf_esp (p_tf p) ≤ p_sz p → p_sz p < 2^32 →
  ∃ w, Head.checkPEndingSignals wrapper tf s =
      Done tt (with_proc me (delivered signum p) (quiet (set_k_mem w s))) ∧
    vm_inv (<[p_pgdir p := OSpace (p_sz p) (frame_mem (p_tf p) signum um)]> g) w.
Proof.
  intros Hc Hi Hu Hpend Hh Hcs Hf Hhd Hroom Hsz. pose proof Hu as (Hg & Hcur & Hp & Hgp).
  pose proof (lookup_lt_Some _ _ _ Hp) as Hlt.
  unfold Head.checkPEndingSignals. cbn [bind rbind gets]. rewrite Hcur. cbn [bind rbind].
  rewrite (cur_eq me p) by done. cbn [rbind]. rewrite Hh, Hcs.
  destruct (Z.eqb_spec (p_pending p) 0); [done|]. cbn [orb negb Z.eqb].
  change (negb (DPL_USER =? DPL_USER)) with false. cbn [orb]. cbv iota. rewrite Hf.
  set (p1 := set_p_pending (Z.lxor (p_pending p) (bit signum)) p).
  assert (Hw : with_ptable (set_cur (λ q, set_p_pending (Z.lxor (p_pending q) (bit signum)) q)) s =
    Done tt (with_proc me p1 (quiet s))).
  { apply (with_ptable_free []); [done|set_solver|done|]. by rewrite (set_cur_at me _ p). }
  unfold bind at 1. rewrite Hw. cbn [rbind]. unfold bind at 1.
  rewrite (cur_with me p1) by done. cbn [rbind].
  destruct (Z.eqb_spec (p_handlers p1 !!! Z.to_nat signum) 0) as [E|E]; [done|]. cbn [negb].
  destruct (push_frame_eq g me p1 um signum (with_proc me p1 (quiet s))) as (w & Hpf & Hg').
  { by apply with_proc_kctx, quiet_kctx. } { done. }
  { split; [done|]. split; [done|]. split; [by apply with_proc_lookup|done]. }
  { done. } { done. }
  exists w. split; [|exact Hg']. rewrite Hpf. f_equal.
  change (quiet (set_k_mem w (with_proc me p1 (quiet s))))
    with (with_proc me p1 (set_k_mem w (quiet (quiet s)))).
  by rewrite with_proc_twice, quiet_quiet.
Qed.

Lemma sigreturn_eq held g me p um s :
  kctx held s → L_ptable ∉ held → is_Some (k_locks s !! L_ptable) → user_mem g me p um s →
  0 ≤ tf_ebp (p_tf p) → tf_ebp (p_tf p) + 84 ≤ p_sz p → p_sz p < 2^32 →
  Head.sigreturn s = Done 0 (with_proc me (set_p_isHandlingsignal 0
    (set_p_tf (tf_of_bytes (bytes um (tf_ebp (p_tf p) + 8) tf_size)) p)) (quiet s)).
Proof.
  intros Hc Hn Hi Hu H0 H1 Hsz. pose proof Hu as (Hg & Hcur & Hp & Hgp).
  pose proof (lookup_lt_Some _ _ _ Hp) as Hlt.
  apply (with_ptable_free held); [done..|]. cbn [bind].
  unfold bind. rewrite (cur_eq me p) by done. cbn [rbind].
  rewrite (uloads_eq g me p um); [|done|rewrite u32_id by lia; lia|rewrite u32_id by lia; unfold tf_size; lia].
  cbn [rbind]. rewrite u32_id by lia.
  rewrite (set_cur_at me _ p) by done. cbn [rbind]. by rewrite set_cur_with.
Qed.

(** What is found where [sigreturn] looks is the frame that was saved. *)
Lemma frame_saved t signum um :
  bytes (frame_mem t signum um) (tf_esp t - frame_size + 8) tf_size = tf_bytes t.
Proof.
  unfold frame_mem, frame_size. set (a := tf_esp t - Z.of_nat (length wrapper)).
  replace (tf_esp t - _ + 8) with (a - 80) by (unfold a; lia).
  rewrite !bytes_writes_disjoint by (change (length (le32 _)) with 4%nat; unfold tf_size; lia).
  rewrite <- (length_tf_bytes t). apply bytes_writes, tf_bytes_ok.
Qed.

End Delivery.

(** * Sending signals and alarms: the HEAD side *)
Section Alarms.
Context {W : Type}.
Implicit Types s : kst W.

Definition with_pending (signum : Z) (p : proc) : proc :=
  set_p_pending (Z.lor (p_pending p) (bit signum)) p.

Lemma sigsend_scan_some pid signum i p s :
  length (k_procs s) = NPROC → list_find (λ p, p_pid p = pid) (k_procs s) = Some (i, p) →
  Head.sigsend_scan pid signum s = Done (Some 0) (with_proc i (with_pending signum p) s).
Proof.
  intros Hl Hf. pose proof Hf as (Hp & Hpid & _)%list_find_Some.
  apply (for_break_slots_some (λ p, p_pid p = pid) _ i p); [done|done|..].
  - intros j q Hq Hne. cbn. rewrite (proc_at_eq j q) by done. cbn. by destruct (Z.eqb_spec (p_pid q) pid).
  - cbn. rewrite (proc_at_eq i p) by done. cbn. rewrite Hpid, Z.eqb_refl. cbn.
    by rewrite (set_proc_eq i _ p).
Qed.

Lemma sigsend_scan_none pid signum s :
  length (k_procs s) = NPROC → list_find (λ p, p_pid p = pid) (k_procs s) = None →
  Head.sigsend_scan pid signum s = Done None s.
Proof.
  intros Hl Hf. apply (for_break_slots_none (λ p, p_pid p = pid)); [done|done|].
  intros j q Hq Hne. cbn. rewrite (proc_at_eq j q) by done. cbn. by destruct (Z.eqb_spec (p_pid q) pid).
Qed.

Lemma sig_range signum : 0 ≤ signum < 32 → (signum <? 0) || (Z.of_nat NUMSIG <=? signum) = false.
Proof.
  intros. change (Z.of_nat NUMSIG) with 32. destruct (Z.ltb_spec signum 0); [lia|].
  destruct (Z.leb_spec 32 signum); [lia|done].
Qed.

Lemma sigsend_eq held pid signum s :
  kctx held s → L_ptable ∉ held → is_Some (k_locks s !! L_ptable) → length (k_procs s) = NPROC →
  0 ≤ signum < 32 →
  Head.sigsend pid signum s =
    match list_find (λ p, p_pid p = pid) (k_procs s) with
    | Some (i, p) => Done 0 (with_proc i (with_pending signum p) (quiet s))
    | None => Done (-1) (quiet s)
    end.
Proof.
  intros Hc Hn Hi Hl Hs. unfold Head.sigsend. rewrite sig_range by done. unfold bind at 1.
  destruct (list_find _ _) as [[i p]|] eqn:Hf.
  - erewrite (with_ptable_free held); [|done..|by apply (sigsend_scan_some pid signum i p)]. done.
  - erewrite (with_ptable_procs held _ None (k_procs s)); [|done..|].
    + done.
    + rewrite sigsend_scan_none by done. done.
Qed.

(** What one tick does to a process. *)
Definition tick (p : proc) : proc :=
  if 0 <? p_alarmFlag p then
    let q := set_p_alarmFlag (p_alarmFlag p - 1) p in
    if p_alarmFlag p - 1 =? 0 then with_pending SIGALRM q else q
  else p.

(** A slot that counts down belongs to a process with a pid. *)
Definition alarms_ok (ps : list proc) : Prop :=
  ∀ i p, ps !! i = Some p → 0 < p_alarmFlag p → p_pid p ≠ 0.

Definition pids_unique (ps : list proc) : Prop :=
  ∀ i j p q, ps !! i = Some p → ps !! j = Some q → p_pid p = p_pid q → p_pid p ≠ 0 → i = j.

Lemma tick_pid p : p_pid (tick p) = p_pid p.
Proof. unfold tick. destruct (0 <? p_alarmFlag p); [|done]. by destruct (_ =? 0). Qed.

Lemma pids_unique_upd i g p s :
  k_procs s !! i = Some p → p_pid (g p) = p_pid p →
  pids_unique (k_procs s) → pids_unique (k_procs (upd_proc i g s)).
Proof.
  intros Hp Hg Hu j k q r Hq Hr.
  assert (L : ∀ j q, k_procs (upd_proc i g s) !! j = Some q → ∃ q0, k_procs s !! j = Some q0 ∧ p_pid q = p_pid q0).
  { intros j' q'. cbn. destruct (decide (j' = i)) as [->|].
    - rewrite list_lookup_alter_eq, Hp. intros [= <-]. eauto.
    - rewrite list_lookup_alter_ne by done. eauto. }
  destruct (L _ _ Hq) as (q0 & Hq0 & ->), (L _ _ Hr) as (r0 & Hr0 & ->). by eapply Hu.
Qed.

Lemma updateAlarms_body_eq held i p s :
  kctx (L_ptable :: held) s → length (k_procs s) = NPROC → pids_unique (k_procs s) →
  k_procs s !! i = Some p → (0 < p_alarmFlag p → p_pid p ≠ 0) →
  Head.updateAlarms_body i s = Done tt (upd_proc i tick s).
Proof.
  intros Hc Hl Hu Hp Hpid. pose proof (lookup_lt_Some _ _ _ Hp) as Hlt.
  assert (Hupd : ∀ q, q = tick p → with_proc i q s = upd_proc i tick s).
  { intros q ->. pose proof (set_proc_eq i tick p s Hp) as H. unfold set_proc in H. cbn in H. congruence. }
  unfold Head.updateAlarms_body. cbn. rewrite (proc_at_eq i p) by done. cbn.
  assert (Ht : tick p = if 0 <? p_alarmFlag p then if p_alarmFlag p - 1 =? 0
    then with_pending SIGALRM (set_p_alarmFlag (p_alarmFlag p - 1) p)
    else set_p_alarmFlag (p_alarmFlag p - 1) p else p) by done.
  destruct (Z.ltb_spec 0 (p_alarmFlag p)) as [H0|H0].
  2: { cbn. rewrite <- (Hupd p (eq_sym Ht)). by rewrite with_proc_id. }
  cbn. rewrite (set_proc_eq i _ p) by done. cbn. set (q := set_p_alarmFlag (p_alarmFlag p - 1) p).
  rewrite (proc_at_eq i q) by (by apply with_proc_lookup). cbn.
  destruct (Z.eqb_spec (p_alarmFlag p - 1) 0) as [Hz|Hz]; [|by rewrite <- (Hupd q (eq_sym Ht))].
  unfold Head.sigsend. rewrite sig_range by (unfold SIGALRM; lia). cbn.
  erewrite (with_ptable_held (L_ptable :: held)); [|by apply with_proc_kctx|set_solver|].
  2: { apply (sigsend_scan_some _ _ i q).
       - unfold with_proc. cbn. by rewrite length_insert.
       - apply list_find_Some. split; [by apply with_proc_lookup|]. split; [done|].
         intros j r Hr Hj Heq. rewrite with_proc_ne in Hr by lia.
         assert (j = i); [|lia]. eapply (Hu j i r p); [done..|]. rewrite Heq. by apply Hpid. }
  cbn. f_equal. rewrite <- (Hupd (with_pending SIGALRM q) (eq_sym Ht)).
  unfold with_proc. kunf. by rewrite list_insert_insert_eq.
Qed.

Lemma updateAlarms_eq held s :
  kctx held s → L_ptable ∉ held → is_Some (k_locks s !! L_ptable) → length (k_procs s) = NPROC →
  pids_unique (k_procs s) → alarms_ok (k_procs s) →
  Head.updateAlarms s = Done tt (set_k_procs (tick <$> k_procs s) (quiet s)).
Proof.
  intros Hc Hn Hi Hl Hu Ha. unfold Head.updateAlarms.
  destruct (acquire_kctx held L_ptable s) as [_ Hc1]; [done..|].
  apply (with_ptable_procs held); [done..|].
  apply (for_each_slots_inv (λ s', kctx (L_ptable :: held) s' ∧ length (k_procs s') = NPROC ∧
    pids_unique (k_procs s') ∧
    ∀ i p, k_procs s' !! i = Some p → 0 < p_alarmFlag p → p_pid p ≠ 0) tick _ (acquired L_ptable s));
    [done| |].
  { split; [done|]. split; [done|]. split; [done|exact Ha]. }
  intros i p s' (H1 & H2 & H3 & H4) Hp.
  split; [apply (updateAlarms_body_eq held i p); eauto|].
  split; [by apply kctx_procs|]. split; [cbn; by rewrite length_alter|].
  split; [by eapply pids_unique_upd; [|apply tick_pid|]|].
  intros j q. cbn. destruct (decide (j = i)) as [->|].
  - rewrite list_lookup_alter_eq, Hp. intros [= <-]. rewrite tick_pid. intros Hq. apply (H4 i p Hp).
    unfold tick in Hq. destruct (Z.ltb_spec 0 (p_alarmFlag p)); done.
  - rewrite list_lookup_alter_ne by done. apply H4.
Qed.

End Alarms.

(** * Properties *)
Section Properties.
Context {W : Type} {VO : VmOps W} {VL : VmLaws W}.
Variable wrapper : list Z.
Implicit Types s : kst W.

(** Process [me], interrupted in user mode with room on its stack, has a pending
    signal whose lowest bit [signum] has a handler. *)
Record deliverable (g : gmap Z vobj) (me : nat) (p : proc) (um : mem) (tf : trapframe)
    (signum : Z) (s : kst W) : Prop := {
  dl_ctx : kctx [] s;
  dl_lock : is_Some (k_locks s !! L_ptable);
  dl_user : user_mem g me p um s;
  dl_range : 0 ≤ p_pending p < 2^32;
  dl_bit : Z.testbit (p_pending p) signum = true;
  dl_low : 0 ≤ signum < 32 ∧ ∀ m, 0 ≤ m < signum → Z.testbit (p_pending p) m = false;
  dl_idle : p_isHandlingsignal p = 0;
  dl_mode : Z.land (tf_cs tf) 3 = DPL_USER;
  dl_handler : p_handlers p !!! Z.to_nat signum ≠ 0;
  dl_room : frame_size wrapper ≤ tf_esp (p_tf p) ≤ p_sz p;
  dl_size : p_sz p < 2^32;
}.

Lemma deliverable_first g me p um tf signum s :
  deliverable g me p um tf signum s →
  p_pending p ≠ 0 ∧ Head.first_pending (p_pending p) (seq 0 NUMSIG) = Some signum.
Proof.
  intros [_ _ _ Hr Hb [Hs Hlow] _ _ _ _ _].
  assert (Hne : p_pending p ≠ 0) by (intros E; rewrite E, Z.bits_0 in Hb; done). split; [done|].
  destruct (Head.first_pending (p_pending p) (seq 0 NUMSIG)) as [n|] eqn:E.
  - destruct (first_pending_lowest _ _ E) as (H1 & H2 & H3). f_equal.
    destruct (Z.lt_trichotomy n signum) as [Hlt|[Heq|Hlt]]; [|done|].
    + rewrite Hlow in H2 by lia. done.
    + rewrite H3 in Hb by lia. done.
  - by apply first_pending_none in E.
Qed.

(** C11: A signal delivered to a handler and returned from with [sigreturn] leaves
    no trace in the registers: [checkPEndingSignals] saves the trap frame on the
    user stack and enters the handler of the lowest pending signal with its number
    as the argument and the wrapper as the return address; and from whatever state
    the handler reaches, with its frame pointer and the saved frame intact,
    [sigreturn] restores exactly the trap frame that was interrupted. *)
Theorem signal_roundtrip g me p um tf signum s :
  deliverable g me p um tf signum s → tf_wf (p_tf p) →
  ∃ s1 p1 g1 um1, Head.checkPEndingSignals wrapper tf s = Done tt s1 ∧ user_mem g1 me p1 um1 s1 ∧
    p_pending p1 = Z.lxor (p_pending p) (bit signum) ∧
    tf_eip (p_tf p1) = p_handlers p !!! Z.to_nat signum ∧
    load32 um1 (tf_esp (p_tf p1) + 4) = signum ∧
    load32 um1 (tf_esp (p_tf p1)) = tf_esp (p_tf p) - Z.of_nat (length wrapper) ∧
    ∀ g2 p2 um2 s2,
      kctx [] s2 → is_Some (k_locks s2 !! L_ptable) → user_mem g2 me p2 um2 s2 →
      p_sz p2 = p_sz p → tf_ebp (p_tf p2) = tf_ebp (p_tf p1) →
      (∀ x, tf_esp (p_tf p1) + 8 ≤ x < tf_esp (p_tf p1) + 84 → um2 x = um1 x) →
      ∃ s3 p3, Head.sigreturn s2 = Done 0 s3 ∧ k_procs s3 !! me = Some p3 ∧ p_tf p3 = p_tf p.
Proof.
  intros Hd Htf. pose proof (deliverable_first _ _ _ _ _ _ _ Hd) as [Hne Hf].
  destruct Hd as [Hc Hl Hu Hr Hb [Hs Hlow] Hi Hm Hh Hroom Hsz].
  pose proof Hu as (Hg & Hcur & Hp & Hgp). pose proof (lookup_lt_Some _ _ _ Hp) as Hlt.
  destruct (deliver_eq wrapper g me p um tf signum s) as (w & Hdel & Hg1); [done..|].
  set (a := tf_esp (p_tf p) - Z.of_nat (length wrapper)).
  assert (Hesp : tf_esp (p_tf (delivered wrapper signum p)) = a - 88) by (cbn; unfold frame_size, a; lia).
  exists (with_proc me (delivered wrapper signum p) (quiet (set_k_mem w s))), (delivered wrapper signum p).
  eexists _, (frame_mem wrapper (p_tf p) signum um). split; [done|]. split; [|split; [done|split; [done|]]].
  { split; [exact Hg1|]. split; [done|]. split; [by apply with_proc_lookup|]. cbn.
    by rewrite lookup_insert_eq. }
  unfold frame_size in Hroom. rewrite Hesp. split; [|split].
  - unfold frame_mem. fold a. change (writes ?m (a - 88) (le32 a)) with (store32 m (a - 88) a).
    rewrite load32_store32_ne by lia. replace (a - 88 + 4) with (a - 84) by lia.
    change (writes ?m (a - 84) (le32 signum)) with (store32 m (a - 84) signum).
    rewrite load32_store32. apply u32_id. lia.
  - unfold frame_mem. fold a. change (writes ?m (a - 88) (le32 a)) with (store32 m (a - 88) a).
    rewrite load32_store32. apply u32_id. unfold a. lia.
  - intros g2 p2 um2 s2 Hc2 Hl2 Hu2 Hsz2 Hebp Hsame.
    assert (Hebp2 : tf_ebp (p_tf p2) = a - 88) by (rewrite Hebp; cbn; unfold frame_size, a; lia).
    pose proof Hu2 as (_ & _ & Hp2 & _). pose proof (lookup_lt_Some _ _ _ Hp2) as Hlt2.
    rewrite (sigreturn_eq [] g2 me p2 um2); [|done|set_solver|done|done|rewrite Hebp2; unfold a; lia..|lia].
    eexists _, _. split; [done|]. split; [by apply with_proc_lookup|]. cbn. rewrite Hebp2.
    replace (bytes um2 (a - 88 + 8) tf_size) with (tf_bytes (p_tf p)); [by apply tf_roundtrip|].
    rewrite <- (frame_saved wrapper (p_tf p) signum um) at 1.
    replace (tf_esp (p_tf p) - frame_size wrapper + 8) with (a - 88 + 8) by (unfold frame_size, a; lia).
    apply bytes_ext. intros k Hk. symmetry. apply Hsame. unfold tf_size in Hk. lia.
Qed.

(** [sigsend] sets exactly the bit of the signal in the pending mask of the
    first process with that pid and returns 0; for an unknown pid or a number out
    of range it returns -1 and changes no process. *)
Theorem sigsend_spec held pid signum s :
  kctx held s → L_ptable ∉ held → is_Some (k_locks s !! L_ptable) → length (k_procs s) = NPROC →
  (¬ 0 ≤ signum < 32 → Head.sigsend pid signum s = Done (-1) s) ∧
  (0 ≤ signum < 32 → list_find (λ p, p_pid p = pid) (k_procs s) = None →
    Head.sigsend pid signum s = Done (-1) (quiet s)) ∧
  (∀ i p, 0 ≤ signum < 32 → list_find (λ p, p_pid p = pid) (k_procs s) = Some (i, p) →
    ∃ q, Head.sigsend pid signum s = Done 0 (with_proc i q (quiet s)) ∧
      q = set_p_pending (p_pending q) p ∧
      ∀ n, 0 ≤ n < 32 → Z.testbit (p_pending q) n = (n =? signum) || Z.testbit (p_pending p) n).
Proof.
  intros Hc Hn Hi Hl. split; [|split].
  - intros Hr. unfold Head.sigsend. change (Z.of_nat NUMSIG) with 32.
    destruct (Z.ltb_spec signum 0); [done|]. destruct (Z.leb_spec 32 signum); [done|lia].
  - intros Hr Hf. rewrite (sigsend_eq held) by done. by rewrite Hf.
  - intros i p Hr Hf. rewrite (sigsend_eq held) by done. rewrite Hf.
    exists (with_pending signum p). split; [done|]. split; [done|]. intros n Hn'.
    cbn. rewrite Z.lor_spec, orb_comm, bit_pow, Z.pow2_bits_eqb by lia.
    by rewrite Z.eqb_sym.
Qed.

Definition ticks_of (k : nat) : M (kst W) unit := for_each (seq 0 k) (λ _, Head.updateAlarms).

Lemma ticks_eq held k s :
  kctx held s → L_ptable ∉ held → is_Some (k_locks s !! L_ptable) → length (k_procs s) = NPROC →
  pids_unique (k_procs s) → alarms_ok (k_procs s) →
  ∃ s', ticks_of k s = Done tt s' ∧ k_procs s' = Nat.iter k (fmap tick) (k_procs s).
Proof.
  unfold ticks_of. generalize 0%nat. revert s. induction k as [|k IH]; intros s st Hc Hn Hi Hl Hu Ha;
    cbn [seq].
  { by exists s. }
  rewrite for_each_cons, (updateAlarms_eq held) by done. cbn [rbind].
  assert (L : ∀ i p, tick <$> k_procs s !! i = Some p → ∃ q, k_procs s !! i = Some q ∧ p = tick q).
  { intros i p. destruct (k_procs s !! i) as [q|]; [|done]. intros [= <-]. eauto. }
  destruct (IH (set_k_procs (tick <$> k_procs s) (quiet s)) (S st)) as (s' & -> & Hs'); try done.
  - by apply kctx_procs, quiet_kctx.
  - cbn. by rewrite length_fmap.
  - intros i j p q. cbn. rewrite !list_lookup_fmap.
    intros (p0 & Hp0 & ->)%L (q0 & Hq0 & ->)%L. rewrite !tick_pid. by eapply Hu.
  - intros i p. cbn. rewrite list_lookup_fmap. intros (p0 & Hp0 & ->)%L. rewrite tick_pid.
    intros Hal. apply (Ha i p0 Hp0). unfold tick in Hal. destruct (Z.ltb_spec 0 (p_alarmFlag p0)); done.
  - exists s'. split; [done|]. rewrite Hs'. cbn [k_procs set_k_procs]. by rewrite <- Nat.iter_succ_r.
Qed.

Lemma tick_iter k n p :
  p_alarmFlag p = n → 0 < n →
  let q := Nat.iter k tick p in
  p_alarmFlag q = Z.max 0 (n - Z.of_nat k) ∧
  p_pending q = if Z.of_nat k <? n then p_pending p else Z.lor (p_pending p) (bit SIGALRM).
Proof.
  intros Hn Hpos. induction k as [|k IH].
  { change (Nat.iter 0 tick p) with p. split; [lia|]. destruct (Z.ltb_spec (Z.of_nat 0) n); [done|lia]. }
  destruct IH as [H1 H2]. change (Nat.iter (S k) tick p) with (tick (Nat.iter k tick p)).
  set (q := Nat.iter k tick p) in *. unfold tick.
  destruct (Z.ltb_spec 0 (p_alarmFlag q)).
  - destruct (Z.eqb_spec (p_alarmFlag q - 1) 0); cbn; rewrite H2, ?H1.
    + split; [lia|]. destruct (Z.ltb_spec (Z.of_nat k) n), (Z.ltb_spec (Z.of_nat (S k)) n); done || lia.
    + split; [lia|]. destruct (Z.ltb_spec (Z.of_nat k) n), (Z.ltb_spec (Z.of_nat (S k)) n); done || lia.
  - split; [lia|]. rewrite H2. destruct (Z.ltb_spec (Z.of_nat k) n), (Z.ltb_spec (Z.of_nat (S k)) n); done || lia.
Qed.

Lemma iter_fmap_lookup {A} (f : A → A) k (l : list A) i :
  Nat.iter k (fmap f) l !! i = Nat.iter k f <$> l !! i.
Proof.
  induction k as [|k IH].
  { change (l !! i = (λ x, x) <$> l !! i). by destruct (l !! i). }
  change (Nat.iter (S k) (fmap f) l) with (f <$> Nat.iter k (fmap f) l).
  rewrite list_lookup_fmap, IH. by destruct (l !! i).
Qed.

(** C34: An alarm set by [alarm n] goes off at the n-th timer tick and not before:
    after [k] calls of [updateAlarms], the count stands at max(0, n - k), and
    SIGALRM has been added to the pending signals exactly if [k >= n]. *)
Theorem alarm_fires held me p n k s :
  kctx held s → L_ptable ∉ held → is_Some (k_locks s !! L_ptable) → ptable_wf s →
  alarms_ok (k_procs s) → k_cur s = Some me → k_procs s !! me = Some p → p_state p = RUNNING →
  0 < n < 2^31 →
  ∃ s' q, (_ <- Head.alarm n ;; ticks_of k) s = Done tt s' ∧ k_procs s' !! me = Some q ∧
    p_alarmFlag q = Z.max 0 (n - Z.of_nat k) ∧
    p_pending q = if Z.of_nat k <? n then p_pending p else Z.lor (p_pending p) (bit SIGALRM).
Proof.
  intros Hc Hn Hi Hwf Ha Hcur Hp Hr Hrange. pose proof (lookup_lt_Some _ _ _ Hp) as Hlt.
  set (p1 := set_p_alarmFlag n p).
  assert (Hal : Head.alarm n s = Done n (with_proc me p1 (quiet s))).
  { unfold Head.alarm, bind at 1. rewrite (with_ptable_free held _ tt me p1); [|done..|].
    - cbn [rbind]. unfold bind. rewrite (cur_with me) by done. cbn [rbind]. unfold ret. f_equal.
      apply s32_id. cbn. lia.
    - unfold bind. rewrite (cur_eq me p) by done. cbn [rbind].
      destruct (Z.eqb_spec n 0); [lia|]. cbn [negb]. cbn [ret rbind].
      rewrite (set_cur_at me _ p) by done. by rewrite u32_id by lia. }
  unfold bind. rewrite Hal. cbn [rbind].
  pose proof (wf_ok _ Hwf _ _ Hp) as Hok.
  destruct (ticks_eq held k (with_proc me p1 (quiet s))) as (s' & -> & Hs').
  - by apply with_proc_kctx, quiet_kctx.
  - done.
  - done.
  - unfold with_proc. cbn. rewrite length_insert. by apply wf_len.
  - destruct Hwf as [A B C D E F G]. intros i j q r Hq Hr'.
    assert (L : ∀ i q, k_procs (with_proc me p1 (quiet s)) !! i = Some q →
      ∃ q0, k_procs s !! i = Some q0 ∧ p_pid q = p_pid q0).
    { intros i' q' Hq'. destruct (decide (i' = me)) as [->|].
      - rewrite with_proc_lookup in Hq' by done. injection Hq' as <-. by exists p.
      - rewrite with_proc_ne in Hq' by done. by exists q'. }
    destruct (L _ _ Hq) as (q0 & Hq0 & ->), (L _ _ Hr') as (r0 & Hr0 & ->). by eapply D.
  - intros i q Hq. destruct (decide (i = me)) as [->|].
    + rewrite with_proc_lookup in Hq by done. injection Hq as <-. intros _. cbn.
      assert (0 < p_pid p) by (apply (po_pid _ Hok); by rewrite Hr). lia.
    + rewrite with_proc_ne in Hq by done. by apply (Ha i q Hq).
  - exists s', (Nat.iter k tick p1). split; [done|]. split; [|apply (tick_iter k n p1); [done|lia]].
    rewrite Hs', iter_fmap_lookup, with_proc_lookup by done. done.
Qed.

End Properties.

(** * The other side of the merge *)
Section OtherSide.
Context {W : Type}.
Implicit Types s : kst W.

Lemma top_bit_spec fuel runner n :
  0 ≤ runner < 2^(Z.of_nat fuel) →
  Other.top_bit fuel runner n = if runner =? 0 then n else n + 1 + Z.log2 runner.
Proof.
  revert runner n. induction fuel as [|fuel IH]; intros r n Hr; cbn [Other.top_bit].
  { change (Z.of_nat 0) with 0 in Hr. assert (r = 0) as -> by lia. done. }
  destruct (Z.eqb_spec r 0) as [->|Hne]; [done|].
  rewrite Nat2Z.inj_succ, Z.pow_succ_r in Hr by lia.
  assert (Hs : Z.shiftr r 1 = r / 2) by (rewrite Z.shiftr_div_pow2 by lia; done).
  rewrite IH by (rewrite Hs; split; [apply Z.div_pos; lia|apply Z.div_lt_upper_bound; lia]).
  rewrite Hs. destruct (Z.eqb_spec (r / 2) 0) as [E|E].
  - assert (r = 1) as -> by (Z.div_mod_to_equations; lia). cbn. lia.
  - assert (Hl : Z.log2 r = Z.succ (Z.log2 (r / 2))); [|lia].
    rewrite (Z.div_mod r 2) at 1 by lia.
    assert (0 < r / 2) by (pose proof (Z.div_pos r 2); lia).
    destruct (Z.mod_pos_bound r 2) as [Hm0 Hm1]; [lia|].
    assert (r mod 2 = 0 ∨ r mod 2 = 1) as [->| ->] by lia.
    + rewrite Z.add_0_r. by apply Z.log2_double.
    + by apply Z.log2_succ_double.
Qed.

(** The d445f14 side serves the highest pending signal first: [pick] is the
    index of the top bit of any non-zero mask, so the bit it subtracts is set. *)
Theorem other_picks_highest pending :
  0 < pending < 2^32 →
  Other.pick pending = Z.log2 pending ∧ 0 ≤ Other.pick pending < 32 ∧
  Z.testbit pending (Other.pick pending) = true ∧
  ∀ m, Other.pick pending < m → Z.testbit pending m = false.
Proof.
  intros Hr. assert (E : Other.pick pending = Z.log2 pending).
  { unfold Other.pick. destruct (Z.eqb_spec pending 1) as [->|]; [done|].
    rewrite top_bit_spec by (cbn; lia). destruct (Z.eqb_spec pending 0); lia. }
  rewrite E. split; [done|]. split.
  - split; [apply Z.log2_nonneg|]. apply Z.log2_lt_pow2; lia.
  - split; [apply Z.bit_log2; lia|]. intros m Hm. apply Z.bits_above_log2; lia.
Qed.

(** The d445f14 side delivers signals to the wrong process: [sigsend] to any
    existing pid sets the bit in the pending mask of the caller, and leaves the
    mask of the addressed process alone unless it is the caller. *)
Theorem other_sigsend_self held pid signum me p i q s :
  kctx held s → L_ptable ∉ held → is_Some (k_locks s !! L_ptable) → length (k_procs s) = NPROC →
  k_cur s = Some me → k_procs s !! me = Some p →
  list_find (λ p, p_pid p = pid) (k_procs s) = Some (i, q) → i ≠ me →
  ∃ s', Other.sigsend pid signum s = Done 0 s' ∧
    k_procs s' !! me = Some (with_pending signum p) ∧ k_procs s' !! i = Some q.
Proof.
  intros Hc Hn Hi Hl Hcur Hp Hf Hne. unfold Other.sigsend. cbn.
  destruct (acquire_kctx held L_ptable s) as [-> Hc1]; [done..|]. cbn.
  pose proof Hf as (Hq & Hpid & _)%list_find_Some. pose proof (lookup_lt_Some _ _ _ Hp) as Hlt.
  rewrite (for_break_slots_some (λ p, p_pid p = pid) _ i q tt _
    (with_proc me (with_pending signum p) (acquired L_ptable s))); [|done|done|..].
  - cbn. destruct (release_kctx held L_ptable (with_proc me (with_pending signum p) (acquired L_ptable s)))
      as [-> _]; [by apply with_proc_kctx|]. cbn. eexists. split; [done|].
    change (k_procs (released L_ptable (with_proc me (with_pending signum p) (acquired L_ptable s))))
      with (k_procs (with_proc me (with_pending signum p) s)).
    split; [by apply with_proc_lookup|by rewrite with_proc_ne].
  - intros j r Hr Hne'. cbn. rewrite (proc_at_eq j r) by done. cbn. by destruct (Z.eqb_spec (p_pid r) pid).
  - cbn. rewrite (proc_at_eq i q) by done. cbn. rewrite Hpid, Z.eqb_refl. cbn.
    by rewrite (set_cur_at me _ p).
Qed.

(** On the d445f14 side [alarm(0)] does not cancel the alarm: the countdown
    goes on, and instead of SIGALRM alone every pending signal up to 14 is lost
    (the mask [~1<<14] is [(~1)<<14]). *)
Theorem other_alarm_cancel me p s :
  k_cur s = Some me → k_procs s !! me = Some p → 0 ≤ p_pending p < 2^32 →
  ∃ q, Other.alarm 0 s = Done 0 (with_proc me q s) ∧ p_alarmFlag q = p_alarmFlag p ∧
    ∀ n, 0 ≤ n < 32 → Z.testbit (p_pending q) n = (15 <=? n) && Z.testbit (p_pending p) n.
Proof.
  intros Hcur Hp Hr. unfold Other.alarm. cbn. rewrite (set_cur_at me _ p) by done. cbn.
  eexists. split; [done|]. split; [done|]. intros n Hn. cbn. rewrite Z.land_spec, andb_comm.
  f_equal. change Other.alarm_mask with (Z.shiftl (2^17 - 1) 15).
  rewrite Z.shiftl_spec by lia. destruct (Z.leb_spec 15 n).
  - change (2^17 - 1) with (Z.ones 17). apply Z.ones_spec_low. lia.
  - apply Z.testbit_neg_r. lia.
Qed.

End OtherSide.

(** * Concrete machines

    The process of [Sched.Demo] with SIGALRM pending and a handler for it at
    address 100, interrupted with 2 KB of stack. *)
Module Demo.
Definition tf : trapframe := set_tf_esp 2048 (set_tf_eax 77 (set_tf_cs 35 tf0)).
Definition p : proc :=
  set_p_tf tf (set_p_pending 16384 (set_p_handlers (<[14%nat := 100]> (replicate NUMSIG 0)) Sched.Demo.p1)).
Definition world : gmap Z vobj := {[ p_pgdir p := OSpace 4096 Flat.zeros ]}.
Definition st : kst (gmap Z vobj) :=
  with_proc 0 p (Sched.Demo.mk {[ L_ptable := mkLock 0 "ptable" None ]} ∅ world).
Definition wrapper : list Z := [184; 24; 0; 0; 0; 205; 64].  (* movl $24, %eax; int $64 *)

Lemma signal_st_ctx : kctx [] st.
Proof.
  apply with_proc_kctx, kctx_none; [|done]. cbn [k_locks Sched.Demo.mk]. by apply map_Forall_singleton.
Qed.
Lemma signal_st_user : user_mem world 0 p Flat.zeros st.
Proof.
  split; [|done]. split; [done|]. intros pd sz um Hl. change (world !! pd = Some (OSpace sz um)) in Hl.
  unfold world in Hl. apply lookup_singleton_Some in Hl as [_ [= <- <-]]. intros x. unfold Flat.zeros. lia.
Qed.
Lemma signal_st_wf : ptable_wf st.
Proof.
  apply (with_proc_wf 0 Sched.Demo.p1); [apply Sched.Demo.mk_wf|done| |done|done].
  split; cbn; try done; lia.
Qed.
Lemma st_deliverable : deliverable wrapper world 0 p Flat.zeros tf 14 st.
Proof.
  split; try done; try (cbn; lia).
  - exact signal_st_ctx.
  - exact signal_st_user.
  - split; [lia|]. intros m Hm. change (p_pending p) with (2^14). apply Z.pow2_bits_false. lia.
Qed.
Lemma tf_ok : tf_wf tf.
Proof. unfold tf_wf. repeat split; vm_compute; (reflexivity || discriminate). Qed.
End Demo.

Lemma signal_roundtrip_witness : ∃ s1 p1, Head.checkPEndingSignals Demo.wrapper Demo.tf Demo.st = Done tt s1 ∧
  k_procs s1 !! 0%nat = Some p1 ∧ tf_eip (p_tf p1) = 100 ∧ p_pending p1 = 0.
Proof.
  destruct (signal_roundtrip Demo.wrapper Demo.world 0 Demo.p Flat.zeros Demo.tf 14 Demo.st
    Demo.st_deliverable Demo.tf_ok) as (s1 & p1 & g1 & um1 & H1 & H2 & H3 & H4 & H5).
  exists s1, p1. split; [exact H1|]. split; [exact (proj1 (proj2 (proj2 H2)))|].
  split; [exact H4|exact H3].
Defined.

Lemma sigsend_spec_witness : Head.sigsend 99 5 Demo.st = Done (-1) (quiet Demo.st).
Proof.
  refine (proj1 (proj2 (sigsend_spec [] 99 5 Demo.st Demo.signal_st_ctx ltac:(set_solver)
    (mk_is_Some _ _ eq_refl) eq_refl)) _ _); [lia|reflexivity].
Defined.

Lemma alarm_fires_witness : ∃ s' q, (_ <- Head.alarm 3 ;; ticks_of 3) Demo.st = Done tt s' ∧
  k_procs s' !! 0%nat = Some q ∧ p_alarmFlag q = 0.
Proof.
  destruct (alarm_fires [] 0 Demo.p 3 3 Demo.st Demo.signal_st_ctx ltac:(set_solver)
    (mk_is_Some _ _ eq_refl) Demo.signal_st_wf) as (s' & q & H1 & H2 & H3 & H4);
    [|reflexivity|reflexivity|reflexivity|lia|].
  - intros [|i] q Hq; [injection Hq as <-; discriminate|].
    apply (lookup_replicate 63 proc0 q i) in Hq as [-> _]. discriminate.
  - exists s', q. split; [exact H1|]. split; [exact H2|exact H3].
Defined.

Lemma other_picks_highest_witness : Other.pick 20480 = 14.
Proof. refine (eq_trans (proj1 (other_picks_highest 20480 _)) _); [lia|reflexivity]. Defined.

Lemma other_sigsend_self_witness : ∃ s', Other.sigsend 0 5 Demo.st = Done 0 s' ∧
  k_procs s' !! 0%nat = Some (with_pending 5 Demo.p).
Proof.
  destruct (other_sigsend_self [] 0 5 0 Demo.p 1 proc0 Demo.st Demo.signal_st_ctx ltac:(set_solver)
    (mk_is_Some _ _ eq_refl) eq_refl eq_refl eq_refl eq_refl) as (s' & H1 & H2 & H3); [discriminate|].
  exists s'. split; [exact H1|exact H2].
Defined.

Lemma other_alarm_cancel_witness : ∃ q, Other.alarm 0 Demo.st = Done 0 (with_proc 0 q Demo.st) ∧
  p_alarmFlag q = 0.
Proof.
  destruct (other_alarm_cancel 0 Demo.p Demo.st eq_refl eq_refl) as (q & H1 & H2 & _); [cbn; lia|].
  exists q. split; [exact H1|exact H2].
Defined.
