(* ===== verification/Syscall.v ===== *)
(** syscall.c and sysproc.c: fetching system call arguments from user memory with
    their bounds checks, and the process system calls.  The signal calls go
    through [SigOps], which both sides of the merge in proc.c implement. *)
From S2P Require Import Prelude Mem KState Spinlock Sched Services File Proc Signal.

(** * Arguments

    A C function that returns -1 or stores through a pointer and returns 0 is an
    [option]: [None] is the -1. *)
Section Args.
Context {W : Type} {VO : VmOps W}.

(** The int at [addr] of the current process. *)
Definition fetchint (addr : Z) : M (kst W) (option Z) :=
  p <- cur ;;
  if (p_sz p <=? addr) || (p_sz p <? u32 (addr + 4)) then ret None
  else v <- uload32 addr ;; ret (Some (s32 v)).

(** [for(s = *pp; s < ep; s++) if( *s == 0) return s - *pp;] with [n = ep - s]. *)
Fixpoint fetchstr_loop (n : nat) (pp s : Z) : M (kst W) (option Z) :=
  match n with
  | O => ret None
  | S n' => c <- uload8 s ;; if c =? 0 then ret (Some (s - pp)) else fetchstr_loop n' pp (s + 1)
  end.

(** The length of the string at [addr], which is also its pointer. *)
Definition fetchstr (addr : Z) : M (kst W) (option Z) :=
  p <- cur ;;
  if p_sz p <=? addr then ret None
  else fetchstr_loop (Z.to_nat (p_sz p - addr)) addr addr.

Definition argint (n : Z) : M (kst W) (option Z) :=
  p <- cur ;; fetchint (u32 (tf_esp (p_tf p) + 4 + 4 * n)).

Definition argptr (n size : Z) : M (kst W) (option Z) :=
  o <- argint n ;;
  match o with
  | None => ret None
  | Some i =>
    p <- cur ;;
    if (size <? 0) || (p_sz p <=? u32 i) || (p_sz p <? u32 (u32 i + size)) then ret None
    else ret (Some (u32 i))
  end.

(** Pointer and length. *)
Definition argstr (n : Z) : M (kst W) (option (Z * Z)) :=
  o <- argint n ;;
  match o with
  | None => ret None
  | Some addr =>
    l <- fetchstr (u32 addr) ;;
    ret (match l with Some len => Some (u32 addr, len) | None => None end)
  end.

End Args.

(** * The signal calls of either side *)
Class SigOps (W : Type) := {
  sg_signal : Z → Z → M (kst W) Z;
  sg_sigsend : Z → Z → M (kst W) Z;
  sg_sigreturn : M (kst W) Z;
  sg_alarm : Z → M (kst W) Z;
  sg_update : M (kst W) unit;              (* updateAlarms / updateAlarams *)
  sg_check : trapframe → M (kst W) unit;   (* checkPEndingSignals / checkPendingSignals *)
}.

Section SigInstances.
Context {W : Type} {VO : VmOps W}.

Definition head_sig (wrapper : list Z) : SigOps W := {|
  sg_signal := Head.signal; sg_sigsend := Head.sigsend; sg_sigreturn := Head.sigreturn;
  sg_alarm := Head.alarm; sg_update := Head.updateAlarms;
  sg_check := Head.checkPEndingSignals wrapper |}.

Definition other_sig (wrapper : list Z) : SigOps W := {|
  sg_signal := Other.signal; sg_sigsend := Other.sigsend; sg_sigreturn := Other.sigreturn;
  sg_alarm := Other.alarm; sg_update := Other.updateAlarams;
  sg_check := λ _, Other.checkPendingSignals wrapper |}.

End SigInstances.

(** * sysproc.c *)
Section Sysproc.
Context {W : Type} {VO : VmOps W} {FO : FsOps W} {SG : SigOps W}.
Variable forkret_addr : Z.
Variable junk : trapframe.

Definition sys_fork : M (kst W) Z := fork forkret_addr junk.
Definition sys_exit : M (kst W) Z := exit ;;; ret 0.
Definition sys_wait (fuel : nat) : M (kst W) Z := wait fuel.

(** [if(argint(n, &x) < 0) return -1; k] *)
Definition with_int (n : Z) (k : Z → M (kst W) Z) : M (kst W) Z :=
  o <- argint n ;; match o with None => ret (-1) | Some v => k v end.

Definition sys_kill : M (kst W) Z := with_int 0 kill.
Definition sys_getpid : M (kst W) Z := p <- cur ;; ret (p_pid p).

Definition sys_sbrk : M (kst W) Z :=
  with_int 0 (λ n,
    p <- cur ;;
    let addr := s32 (p_sz p) in
    r <- growproc n ;;
    if r <? 0 then ret (-1) else ret addr).

(** [while(ticks - ticks0 < n)]: the comparison is unsigned. *)
Definition sys_sleep_body (n ticks0 : Z) : M (kst W) (option Z) :=
  t <- gets k_ticks ;;
  if u32 (t - ticks0) <? u32 n then
    p <- cur ;;
    if negb (p_killed p =? 0) then release L_tickslock ;;; ret (Some (-1))
    else sleep C_ticks (Some L_tickslock) ;;; ret None
  else release L_tickslock ;;; ret (Some 0).

Definition sys_sleep (fuel : nat) : M (kst W) Z :=
  with_int 0 (λ n,
    acquire L_tickslock ;;;
    ticks0 <- gets k_ticks ;;
    loop fuel (sys_sleep_body n ticks0)).

Definition sys_uptime : M (kst W) Z :=
  acquire L_tickslock ;;;
  xticks <- gets k_ticks ;;
  release L_tickslock ;;;
  ret (s32 xticks).

Definition sys_signal : M (kst W) Z :=
  with_int 0 (λ signum,
    o <- argptr 1 4 ;;
    match o with
    | None => ret (-1)
    | Some handler =>
      if (signum <? 0) || (Z.of_nat NUMSIG <=? signum) then ret (-1)
      else r <- sg_signal signum handler ;; ret (s32 r)
    end).

Definition sys_sigsend : M (kst W) Z :=
  with_int 0 (λ pid,
    with_int 1 (λ signum,
      if (signum <? 0) || (Z.of_nat NUMSIG <=? signum) then ret (-1)
      else sg_sigsend pid signum)).

Definition sys_sigreturn : M (kst W) Z := sg_sigreturn.
Definition sys_alarm : M (kst W) Z := with_int 0 sg_alarm.

End Sysproc.

Arguments fetchint : simpl never.
Arguments argint : simpl never.
Arguments argptr : simpl never.
Arguments with_int : simpl never.

(** * Argument checks are sound *)
Section ArgLaws.
Context {W : Type} {VO : VmOps W} {VL : VmLaws W}.
Implicit Types s : kst W.

Lemma uload32_eq g i p um va s :
  user_mem g i p um s → 0 ≤ va → va + 4 ≤ p_sz p → uload32 va s = Done (load32 um va) s.
Proof. intros Hu H0 Hs. unfold uload32. cbn [bind]. rewrite (uloads_eq g i p um) by (done || lia). done. Qed.

Lemma fetchint_eq g i p um addr s :
  user_mem g i p um s → p_sz p ≤ KERNBASE → 0 ≤ addr < 2^32 →
  fetchint addr s = Done (if addr + 4 <=? p_sz p then Some (s32 (load32 um addr)) else None) s.
Proof.
  intros Hu Hsz Ha. pose proof Hu as (_ & Hcur & Hp & _). unfold fetchint. cbn [bind].
  rewrite (cur_eq i p) by done. cbn [rbind]. unfold KERNBASE in Hsz.
  destruct (Z.leb_spec (p_sz p) addr); cbn [orb].
  { destruct (Z.leb_spec (addr + 4) (p_sz p)); [lia|done]. }
  rewrite u32_id by lia.
  destruct (Z.ltb_spec (p_sz p) (addr + 4)), (Z.leb_spec (addr + 4) (p_sz p)); try lia; [done|].
  cbn [bind]. rewrite (uload32_eq g i p um) by (done || lia). done.
Qed.

(** The address of argument [n]: above the saved program counter on the user stack. *)
Definition arg_addr (p : proc) (n : Z) : Z := u32 (tf_esp (p_tf p) + 4 + 4 * n).
Definition arg (p : proc) (um : mem) (n : Z) : option Z :=
  if arg_addr p n + 4 <=? p_sz p then Some (s32 (load32 um (arg_addr p n))) else None.

Lemma argint_eq g i p um n s :
  user_mem g i p um s → p_sz p ≤ KERNBASE → argint n s = Done (arg p um n) s.
Proof.
  intros Hu Hsz. pose proof Hu as (_ & Hcur & Hp & _). unfold argint. cbn [bind].
  rewrite (cur_eq i p) by done. cbn [rbind]. rewrite (fetchint_eq g i p um) by (done || apply u32_range).
  done.
Qed.

Lemma argptr_eq g i p um n size s :
  user_mem g i p um s → p_sz p ≤ KERNBASE → size < 2^31 →
  argptr n size s = Done (match arg p um n with
    | Some v => if (0 <=? size) && (u32 v <? p_sz p) && (u32 v + size <=? p_sz p) then Some (u32 v) else None
    | None => None end) s.
Proof.
  intros Hu Hsz Hs. pose proof Hu as (_ & Hcur & Hp & _). unfold argptr. cbn [bind].
  rewrite (argint_eq g i p um) by done. cbn [rbind]. destruct (arg p um n) as [v|]; [|done].
  cbn [bind]. rewrite (cur_eq i p) by done. cbn [rbind]. unfold KERNBASE in Hsz.
  pose proof (u32_range v).
  destruct (Z.ltb_spec size 0), (Z.leb_spec 0 size); try lia; [done|]. cbn [orb andb].
  destruct (Z.leb_spec (p_sz p) (u32 v)), (Z.ltb_spec (u32 v) (p_sz p)); try lia; [done|]. cbn [orb andb].
  rewrite (u32_id (u32 v + size)) by lia.
  destruct (Z.ltb_spec (p_sz p) (u32 v + size)), (Z.leb_spec (u32 v + size) (p_sz p)); done || lia.
Qed.

(** [a] points to a string of length [len] that ends inside [sz] bytes. *)
Definition cstring (um : mem) (sz a len : Z) : Prop :=
  0 ≤ len ∧ a + len < sz ∧ um (a + len) = 0 ∧ ∀ k, 0 ≤ k < len → um (a + k) ≠ 0.

Lemma fetchstr_loop_spec g i p um n pp c s :
  user_mem g i p um s → 0 ≤ c → pp ≤ c → c + Z.of_nat n = p_sz p →
  (∀ va, pp ≤ va < c → um va ≠ 0) →
  ∃ r, fetchstr_loop n pp c s = Done r s ∧ match r with
    | Some len => cstring um (p_sz p) pp len
    | None => ∀ va, pp ≤ va < p_sz p → um va ≠ 0 end.
Proof.
  intros Hu. revert c. induction n as [|n IH]; intros c H0 Hpp Hn Hz; cbn [fetchstr_loop].
  { eexists. split; [done|]. cbn. intros va Hva. apply Hz. lia. }
  cbn [bind]. rewrite (uload8_eq g i p um) by (done || lia). cbn [rbind].
  destruct (Z.eqb_spec (um c) 0) as [E|E].
  - eexists. split; [done|]. cbn. unfold cstring. replace (pp + (c - pp)) with c by lia.
    split; [lia|]. split; [lia|]. split; [done|]. intros k Hk. apply Hz. lia.
  - apply IH; [lia..|]. intros va Hva. destruct (decide (va = c)) as [->|]; [done|]. apply Hz. lia.
Qed.

Lemma fetchstr_spec g i p um addr s :
  user_mem g i p um s → 0 ≤ addr →
  ∃ r, fetchstr addr s = Done r s ∧ match r with
    | Some len => cstring um (p_sz p) addr len
    | None => ∀ va, addr ≤ va < p_sz p → um va ≠ 0 end.
Proof.
  intros Hu H0. pose proof Hu as (_ & Hcur & Hp & _). unfold fetchstr. cbn [bind].
  rewrite (cur_eq i p) by done. cbn [rbind].
  destruct (Z.leb_spec (p_sz p) addr); [eexists; split; [done|]; cbn; intros; lia|].
  apply (fetchstr_loop_spec g i p um); [done|lia|lia|lia|intros; lia].
Qed.

(** C30: Fetching system call arguments is safe for every stack pointer and every
    argument a user program can pass: nothing faults or changes the state, an
    integer argument is the word on the user stack exactly when that word lies
    inside the process, an accepted buffer lies wholly inside the process, and an
    accepted string is NUL-terminated inside the process. *)
Theorem arguments_checked g i p um s :
  user_mem g i p um s → p_sz p ≤ KERNBASE →
  (∀ n, argint n s = Done (arg p um n) s) ∧
  (∀ n size, size < 2^31 → ∃ o, argptr n size s = Done o s ∧
     ∀ a, o = Some a ↔ ∃ v, arg p um n = Some v ∧ a = u32 v ∧ 0 ≤ size ∧ a < p_sz p ∧ a + size ≤ p_sz p) ∧
  (∀ n, ∃ o, argstr n s = Done o s ∧
     (∀ a len, o = Some (a, len) → cstring um (p_sz p) a len) ∧
     (o = None → ∀ v len, arg p um n = Some v → ~ cstring um (p_sz p) (u32 v) len)).
Proof.
  intros Hu Hsz. split; [intros n; by apply (argint_eq g i)|]. split.
  - intros n size Hs. rewrite (argptr_eq g i p um) by done. eexists. split; [done|]. intros a.
    destruct (arg p um n) as [v|]; [|naive_solver].
    destruct (Z.leb_spec 0 size), (Z.ltb_spec (u32 v) (p_sz p)), (Z.leb_spec (u32 v + size) (p_sz p));
      cbn [andb]; split; try (intros [= <-]; eauto with lia); try done;
      intros (v' & [= <-] & -> & ?); done || lia.
  - intros n. unfold argstr. cbn [bind]. rewrite (argint_eq g i p um) by done. cbn [rbind].
    destruct (arg p um n) as [v|]; [|eexists; split; [done|]; naive_solver]. cbn [bind].
    destruct (fetchstr_spec g i p um (u32 v) s) as (r & -> & Hr); [done|apply u32_range|]. cbn [rbind].
    eexists. split; [done|]. destruct r as [len|]; (split; [intros a l E; by simplify_eq|]); [done|].
    intros _ v' len [= <-] (H1 & H2 & H3 & _). apply (Hr (u32 v + len)); [lia|done].
Qed.

End ArgLaws.

(** * sbrk *)
Section Sbrk.
Context {W : Type} {VO : VmOps W} {VL : VmLaws W}.
Implicit Types s : kst W.

(** The CPU after [switchuvm] with no lock held. *)
Definition loaded (p : proc) (s : kst W) : kst W :=
  set_k_cpu (set_c_cr3 (V2P (p_pgdir p))
    (set_c_esp0 (u32 (p_kstack p + KSTACKSIZE)) (cpu_norm (k_cpu s)))) s.

Lemma switchuvm_free i p s :
  kctx [] s → k_procs s !! i = Some p → p_kstack p ≠ 0 → p_pgdir p ≠ 0 →
  switchuvm i s = Done tt (loaded p s) ∧ kctx [] (loaded p s).
Proof.
  intros Hc Hp Hk Hd. split.
  - unfold switchuvm. cbn. rewrite (proc_at_eq i p) by done. cbn.
    destruct (Z.eqb_spec (p_kstack p) 0); [done|]. cbn.
    destruct (Z.eqb_spec (p_pgdir p) 0); [done|]. cbn.
    rewrite pushcli_eq. cbn. unfold upd_cpu. cbn.
    pose proof (kc_ncli _ _ Hc) as Hn. cbn in Hn.
    rewrite popcli_eq; [|done|cbn; lia]. unfold loaded. kunf. cbn. do 2 f_equal.
    unfold cpu_norm, pop_cpu, push_cpu, set_c_cr3, set_c_esp0. rewrite Hn. cbn. done.
  - apply kctx_norm in Hc. exact (kctx_cpu [] (k_cpu (loaded p s)) (set_k_cpu (cpu_norm (k_cpu s)) s) eq_refl eq_refl Hc).
Qed.

(** The current process with a new size, running on its new page table. *)
Definition resized (i : nat) (p : proc) (sz : Z) (w : W) (s : kst W) : kst W :=
  loaded p (with_proc i (set_p_sz sz p) (set_k_mem w s)).

Lemma resize_eq i p sz w s :
  kctx [] s → k_cur s = Some i → k_procs s !! i = Some p → p_kstack p ≠ 0 → p_pgdir p ≠ 0 →
  (set_cur (set_p_sz sz) ;;; switchuvm i ;;; ret 0) (set_k_mem w s) = Done 0 (resized i p sz w s) ∧
  kctx [] (resized i p sz w s) ∧ k_procs (resized i p sz w s) !! i = Some (set_p_sz sz p).
Proof.
  intros Hc Hcur Hp Hk Hd. cbn [bind].
  rewrite (set_cur_at i _ p) by done. cbn [rbind bind].
  pose proof (lookup_lt_Some _ _ _ Hp) as Hlt.
  assert (Hl : k_procs (with_proc i (set_p_sz sz p) (set_k_mem w s)) !! i = Some (set_p_sz sz p))
    by (by apply with_proc_lookup).
  destruct (switchuvm_free i (set_p_sz sz p) (with_proc i (set_p_sz sz p) (set_k_mem w s))) as [-> Hc'];
    [by apply with_proc_kctx, (kctx_frame _ s)|done..|].
  done.
Qed.

(** [sbrk(n)] returns the old size.  Growing keeps every byte of the process
    and adds zeroed pages, or fails with -1 and changes no process; shrinking to a
    size above zero keeps the bytes that are left.  Shrinking to zero is reported
    as a failure although the memory is gone: the process keeps its old size. *)
Theorem sbrk_spec g i p um n s :
  kctx [] s → user_mem g i p um s → 0 ≤ p_sz p < KERNBASE → p_kstack p ≠ 0 → p_pgdir p ≠ 0 →
  arg p um 0 = Some n → - p_sz p ≤ n →
  ∃ r s' sz' um', sys_sbrk s = Done r s' ∧ kctx [] s' ∧
    vm_inv (<[p_pgdir p := OSpace sz' um']> g) (k_mem s') ∧
    (0 ≤ n →
      (r = p_sz p ∧ sz' = p_sz p + n ∧ grown (p_sz p) sz' um um' ∧
        k_procs s' = <[i := set_p_sz sz' p]> (k_procs s)) ∨
      (r = -1 ∧ sz' = p_sz p ∧ um' = um ∧ k_procs s' = k_procs s)) ∧
    (n < 0 → sz' = p_sz p + n ∧ um' = um ∧
      if decide (sz' = 0) then r = -1 ∧ k_procs s' = k_procs s
      else r = p_sz p ∧ k_procs s' = <[i := set_p_sz sz' p]> (k_procs s)).
Proof.
  intros Hc Hu Hsz Hk Hd Ha Hn. pose proof Hu as (Hinv & Hcur & Hp & Hg). unfold KERNBASE in Hsz.
  assert (Hr0 : n < 2^31).
  { unfold arg in Ha. destruct (_ <=? p_sz p); [|done]. injection Ha as <-. apply s32_range. }
  unfold sys_sbrk, with_int. mstep. rewrite (argint_eq g i p um) by (done || unfold KERNBASE; lia).
  mstep. rewrite Ha. mstep. rewrite (cur_eq i p) by done. mstep.
  unfold growproc. mstep.
  rewrite (myproc_eq i) by done. mstep. rewrite (proc_at_eq i p) by done. mstep.
  rewrite u32_id, s32_id by lia.
  destruct (Z.ltb_spec 0 n) as [Hpos|Hnp]; [|destruct (Z.ltb_spec n 0) as [Hneg|]]; mstep.
  - destruct (vm_allocuvm_ok g (k_mem s) (p_pgdir p) (p_sz p) um (p_sz p) (p_sz p + n)) as (v & w & Ho & Hv);
      [done|done|by left|lia|lia|].
    unfold allocuvm. rewrite (lift_eq _ v w) by done. mstep.
    destruct Hv as [[-> Hv]|(-> & Hlt & _ & um' & Hgr & Hv)]; cbn [Z.eqb]; mstep.
    + eexists _, _, (p_sz p), um. split; [done|]. split; [by apply (kctx_frame _ s)|].
      split; [by rewrite insert_id|]. split; [|lia]. intros _. right. done.
    + destruct (Z.eqb_spec (p_sz p + n) 0); [lia|]. mstep.
      destruct (resize_eq i p (p_sz p + n) w s) as (E1 & Hc' & Hl); [done..|].
      revert E1; mstep; intros ->. mstep; cbn [Z.ltb Z.compare].
      eexists _, _, (p_sz p + n), um'. split; [done|]. split; [done|]. split; [done|].
      split; [|lia]. intros _. left. done.
  - destruct (vm_deallocuvm_ok g (k_mem s) (p_pgdir p) (p_sz p) um (p_sz p + n)) as (w & Ho & Hv);
      [done|done|lia|].
    unfold deallocuvm. rewrite (lift_eq _ (p_sz p + n) w) by done. mstep.
    destruct (Z.eqb_spec (p_sz p + n) 0) as [E|E]; mstep.
    + eexists _, _, _, um. split; [done|]. split; [by apply (kctx_frame _ s)|]. split; [done|].
      split; [lia|]. intros _. by rewrite decide_True.
    + destruct (resize_eq i p (p_sz p + n) w s) as (E1 & Hc' & Hl); [done..|].
      revert E1; mstep; intros ->. mstep; cbn [Z.ltb Z.compare].
      eexists _, _, _, um. split; [done|]. split; [done|]. split; [done|].
      split; [lia|]. intros _. by rewrite decide_False.
  - mstep. assert (Es : set_k_mem (k_mem s) s = s) by (by destruct s).
    destruct (resize_eq i p (p_sz p) (k_mem s) s) as (E1 & Hc' & Hl); [done..|].
    rewrite Es in E1. revert E1; mstep; intros ->. mstep; cbn [Z.ltb Z.compare].
    eexists _, _, (p_sz p), um. split; [done|]. split; [done|]. split; [by rewrite insert_id|].
    split; [|lia]. intros _. left. split; [done|]. split; [lia|]. split; [|done].
    split; [done|]. intros va H1 H2. lia.
Qed.
End Sbrk.

(** * sleep *)
Section Sleep.
Context {W : Type} {VO : VmOps W} {VL : VmLaws W}.
Implicit Types s : kst W.

Lemma sys_sleep_loop ls i p n t0 fuel s :
  krun [L_tickslock] ls i p s →
  wp (kenv i (λ _, True) True) (loop fuel (sys_sleep_body n t0) s) (λ r s',
    krun [] ls i p s' ∧ (r = -1 ∨ r = 0 ∧ u32 n ≤ u32 (k_ticks s' - t0))).
Proof.
  revert s. induction fuel as [|fuel IH]; intros s Hk; [done|]. cbn [loop]. mstep.
  unfold sys_sleep_body. mstep. pose proof Hk as [_ _ Hcur _ _ (p' & Hp' & _ & _)].
  destruct (Z.ltb_spec (u32 (k_ticks s - t0)) (u32 n)).
  - mstep. rewrite (cur_eq i p') by done. mstep. destruct (negb (p_killed p' =? 0)); mstep.
    + destruct (krun_release [] ls i p L_tickslock s Hk) as [-> Hk']. mstep. cbn [wp]. auto.
    + apply wp_bind, wp_bind. eapply wp_mono; [|by apply (krun_sleep [L_tickslock] ls i p)].
      intros [] s' [Hk' _]. mstep. cbn [wp]. by apply IH.
  - mstep. destruct (krun_release [] ls i p L_tickslock s Hk) as [-> Hk']. mstep. cbn [wp]. auto.
Qed.

(** [sleep(n)] gives up the CPU only under [ptable.lock], never panics, and
    returns 0 only once [n] ticks (as an unsigned count) have passed since it read
    the clock; otherwise it returns -1.  It ends with no lock held. *)
Theorem sys_sleep_spec ls i p g um n fuel s :
  krun [] ls i p s → L_tickslock ∈ ls → user_mem g i p um s → p_sz p ≤ KERNBASE →
  arg p um 0 = Some n →
  wp (kenv i (λ _, True) True) (sys_sleep fuel s) (λ r s',
    krun [] ls i p s' ∧ (r = -1 ∨ r = 0 ∧ u32 n ≤ u32 (k_ticks s' - k_ticks s))).
Proof.
  intros Hk Hl Hu Hsz Ha. unfold sys_sleep, with_int. mstep.
  rewrite (argint_eq g i p um) by done. mstep. rewrite Ha. mstep.
  destruct (krun_acquire [] ls i p L_tickslock s Hk) as [-> Hk']; [set_solver..|]. mstep.
  by apply (sys_sleep_loop ls i p n (k_ticks s)).
Qed.
End Sleep.

(** * A concrete machine: the word above the saved program counter is 100. *)
Module Demo.
Definition um : mem := writes Flat.zeros 4 (le32 100).
Definition world : gmap Z vobj := {[ p_pgdir Sched.Demo.p1 := OSpace 4096 um ]}.
Definition locks : gmap lockid spinlock :=
  {[ L_ptable := mkLock 0 "ptable" None; L_tickslock := mkLock 0 "time" None ]}.
Definition st : kst (gmap Z vobj) := Sched.Demo.mk locks ∅ world.

Lemma syscall_st_run : krun [] [L_tickslock] 0 Sched.Demo.p1 st.
Proof.
  apply Sched.Demo.mk_krun.
  - apply map_Forall_insert_2; [done|]. by apply map_Forall_singleton.
  - intros l Hl. apply list_elem_of_In in Hl as [<-|[<-|[]]]; by eexists.
Qed.
Lemma syscall_um_ok : mem_ok um.
Proof. unfold um, le32. cbn [writes]. repeat apply upd_ok. intros x. unfold Flat.zeros. lia. Qed.
Lemma syscall_st_user : user_mem world 0 Sched.Demo.p1 um st.
Proof.
  split; [|done]. split; [done|]. intros pd sz m Hl. change (world !! pd = Some (OSpace sz m)) in Hl.
  unfold world in Hl. apply lookup_singleton_Some in Hl as [_ [= <- <-]]. exact syscall_um_ok.
Qed.
End Demo.

Lemma arguments_checked_witness : argint 0 Demo.st = Done (Some 100) Demo.st.
Proof.
  refine (eq_trans (proj1 (arguments_checked Demo.world 0 Sched.Demo.p1 Demo.um Demo.st Demo.syscall_st_user _) 0) _);
    [discriminate|reflexivity].
Defined.

Lemma sbrk_spec_witness : ∃ r s' sz' um', sys_sbrk Demo.st = Done r s' ∧ kctx [] s' ∧
  vm_inv (<[p_pgdir Sched.Demo.p1 := OSpace sz' um']> Demo.world) (k_mem s').
Proof.
  destruct (sbrk_spec Demo.world 0 Sched.Demo.p1 Demo.um 100 Demo.st (kr_ctx _ _ _ _ _ Demo.syscall_st_run)
    Demo.syscall_st_user) as (r & s' & sz' & um' & H1 & H2 & H3 & _);
    [unfold KERNBASE; cbn; lia|discriminate|discriminate|reflexivity|cbn; lia|].
  exists r, s', sz', um'. split; [exact H1|]. split; [exact H2|exact H3].
Defined.

Lemma sys_sleep_spec_witness : wp (kenv 0 (λ _, True) True) (sys_sleep 3 Demo.st)
  (λ r s', r = -1 ∨ r = 0 ∧ 100 ≤ u32 (k_ticks s')).
Proof.
  eapply wp_mono; [|apply (sys_sleep_spec [L_tickslock] 0 Sched.Demo.p1 Demo.world Demo.um 100 3
    Demo.st Demo.syscall_st_run)].
  - intros r s' [_ [->|[-> H]]]; [by left|]. right. split; [done|]. change (u32 100) with 100 in H.
    replace (k_ticks s') with (k_ticks s' - k_ticks Demo.st); [exact H|]. cbn. lia.
  - set_solver.
  - exact Demo.syscall_st_user.
  - discriminate.
  - reflexivity.
Defined.
