(* ===== verification/Sysfile.v ===== *)
(** sysfile.c: the file system calls.  Mostly argument checking and reference
    counting, on top of the descriptors of the current process, file.c and the
    inode operations of fs.c, which are reached through [FsOps].  A path argument is
    the byte string [argstr] accepted, read from user memory. *)
From S2P Require Import Prelude Mem Str KState Spinlock Sched Layout Path Services Pipe File Proc Syscall.

(** * fcntl.h, param.h *)
Abbreviation O_RDONLY := 0 (only parsing).
Abbreviation O_WRONLY := 1 (only parsing).
Abbreviation O_RDWR := 2 (only parsing).
Abbreviation O_CREATE := 512 (only parsing).
Abbreviation MAXARG := 32%nat (only parsing).

Definition namecmp_eq (s t : list Z) : bool := namecmp s t =? 0.
Definition dot : list Z := [46].
Definition dotdot : list Z := [46; 46].

Section Sysfile.
Context {W : Type} {VO : VmOps W} {FO : FsOps W}.

Definition iunlockput (ip : nat) : M (kst W) unit := fs_iunlock ip ;;; fs_iput ip.

(** A path argument. *)
Definition argpath (n : Z) : M (kst W) (option (list Z)) :=
  o <- argstr n ;;
  match o with
  | None => ret None
  | Some (a, len) => bs <- uloads a (Z.to_nat len) ;; ret (Some bs)
  end.

(** ** Descriptors *)

(** Descriptor and file. *)
Definition argfd (n : Z) : M (kst W) (option (nat * nat)) :=
  o <- argint n ;;
  match o with
  | None => ret None
  | Some fd =>
    p <- cur ;;
    if (fd <? 0) || (Z.of_nat NOFILE <=? fd) then ret None
    else ret (match p_ofile p !! Z.to_nat fd with
              | Some (Some f) => Some (Z.to_nat fd, f)
              | _ => None
              end)
  end.

Definition set_ofile (fd : nat) (o : option nat) : M (kst W) unit :=
  set_cur (λ p, set_p_ofile (<[fd := o]> (p_ofile p)) p).

Definition fdalloc (f : nat) : M (kst W) (option nat) :=
  for_break fds (λ fd,
    p <- cur ;;
    match p_ofile p !! fd with
    | Some None => set_ofile fd (Some f) ;;; ret (Some fd)
    | _ => ret None
    end).

Definition sys_dup : M (kst W) Z :=
  o <- argfd 0 ;;
  match o with
  | None => ret (-1)
  | Some (_, f) =>
    r <- fdalloc f ;;
    match r with
    | None => ret (-1)
    | Some fd => _ <- filedup f ;; ret (Z.of_nat fd)
    end
  end.

(** [argfd(0, 0, &f) < 0 || argint(2, &n) < 0 || argptr(1, &p, n) < 0] *)
Definition with_buffer (k : nat → Z → Z → M (kst W) Z) : M (kst W) Z :=
  o <- argfd 0 ;;
  match o with
  | None => ret (-1)
  | Some (_, f) =>
    with_int 2 (λ n,
      q <- argptr 1 n ;;
      match q with None => ret (-1) | Some p => k f p n end)
  end.

Definition sys_read (fuel : nat) : M (kst W) Z := with_buffer (fileread fuel).
Definition sys_write (fuel : nat) : M (kst W) Z := with_buffer (filewrite fuel).

Definition sys_close : M (kst W) Z :=
  o <- argfd 0 ;;
  match o with
  | None => ret (-1)
  | Some (fd, f) => set_ofile fd None ;;; fileclose f ;;; ret 0
  end.

Definition sys_fstat : M (kst W) Z :=
  o <- argfd 0 ;;
  match o with
  | None => ret (-1)
  | Some (_, f) =>
    q <- argptr 1 20 ;;
    match q with None => ret (-1) | Some st => filestat f st end
  end.

(** ** Names *)

(** [goto bad] of [sys_link]. *)
Definition link_bad (ip : nat) : M (kst W) Z :=
  fs_ilock ip ;;;
  fs_seti ip (λ i, set_i_nlink (s16 (i_nlink i - 1)) i) ;;;
  fs_iupdate ip ;;;
  iunlockput ip ;;;
  fs_end_op ;;;
  ret (-1).

Definition sys_link : M (kst W) Z :=
  o <- argpath 0 ;;
  match o with None => ret (-1) | Some old =>
  o <- argpath 1 ;;
  match o with None => ret (-1) | Some new =>
    fs_begin_op ;;;
    r <- fs_namei old ;;
    match r with
    | None => fs_end_op ;;; ret (-1)
    | Some ip =>
      fs_ilock ip ;;;
      i <- fs_geti ip ;;
      if i_type i =? T_DIR then iunlockput ip ;;; fs_end_op ;;; ret (-1)
      else
        fs_seti ip (λ i, set_i_nlink (s16 (i_nlink i + 1)) i) ;;;
        fs_iupdate ip ;;;
        fs_iunlock ip ;;;
        d <- fs_nameiparent new ;;
        match d with
        | None => link_bad ip
        | Some (dp, name) =>
          fs_ilock dp ;;;
          d <- fs_geti dp ;;
          i <- fs_geti ip ;;
          bad <- (if negb (i_dev d =? i_dev i) then ret true
                  else r <- fs_dirlink dp name (i_inum i) ;; ret (r <? 0)) ;;
          if bad : bool then iunlockput dp ;;; link_bad ip
          else iunlockput dp ;;; fs_iput ip ;;; fs_end_op ;;; ret 0
        end
    end
  end end.

(** Is the directory [dp] empty except for "." and ".."? *)
Fixpoint isdirempty_loop (fuel : nat) (dp : nat) (off : Z) : M (kst W) bool :=
  match fuel with
  | O => λ _, Fuel
  | S fuel' =>
    d <- fs_geti dp ;;
    if off <? i_size d then
      r <- fs_readk dp off dirent_size ;;
      (if r.1 =? dirent_size then ret tt else panic "isdirempty: readi") ;;;
      if negb (de_inum r.2 =? 0) then ret false
      else isdirempty_loop fuel' dp (off + dirent_size)
    else ret true
  end.
Definition isdirempty (dp : nat) : M (kst W) bool :=
  d <- fs_geti dp ;; isdirempty_loop (S (Z.to_nat (i_size d))) dp (2 * dirent_size).

(** The rest of [sys_unlink], with [dp] locked and [ip] found at [off]. *)
Definition unlink_found (dp ip : nat) (off : Z) : M (kst W) Z :=
  fs_ilock ip ;;;
  i <- fs_geti ip ;;
  (if i_nlink i <? 1 then panic "unlink: nlink < 1" else ret tt) ;;;
  busy <- (if i_type i =? T_DIR then e <- isdirempty ip ;; ret (negb e) else ret false) ;;
  if busy : bool then iunlockput ip ;;; iunlockput dp ;;; fs_end_op ;;; ret (-1)
  else
    r <- fs_writek dp (replicate (Z.to_nat dirent_size) 0) off ;;
    (if r =? dirent_size then ret tt else panic "unlink: writei") ;;;
    i <- fs_geti ip ;;
    when (i_type i =? T_DIR) (
      fs_seti dp (λ d, set_i_nlink (s16 (i_nlink d - 1)) d) ;;; fs_iupdate dp) ;;;
    iunlockput dp ;;;
    fs_seti ip (λ i, set_i_nlink (s16 (i_nlink i - 1)) i) ;;;
    fs_iupdate ip ;;;
    iunlockput ip ;;;
    fs_end_op ;;;
    ret 0.

Definition sys_unlink : M (kst W) Z :=
  o <- argpath 0 ;;
  match o with None => ret (-1) | Some path =>
    fs_begin_op ;;;
    d <- fs_nameiparent path ;;
    match d with
    | None => fs_end_op ;;; ret (-1)
    | Some (dp, name) =>
      fs_ilock dp ;;;
      if namecmp_eq name dot || namecmp_eq name dotdot then iunlockput dp ;;; fs_end_op ;;; ret (-1)
      else
        r <- fs_dirlookup dp name ;;
        match r with
        | None => iunlockput dp ;;; fs_end_op ;;; ret (-1)
        | Some (ip, off) => unlink_found dp ip off
        end
    end
  end.

(** [create]: an inode for [path], locked, or [None]. *)
Definition create_new (dp : nat) (name : list Z) (type major minor : Z) : M (kst W) (option nat) :=
  d <- fs_geti dp ;;
  o <- fs_ialloc (i_dev d) type ;;
  match o with
  | None => panic "create: ialloc"
  | Some ip =>
    fs_ilock ip ;;;
    fs_seti ip (set_i_major (s16 major)) ;;;
    fs_seti ip (set_i_minor (s16 minor)) ;;;
    fs_seti ip (set_i_nlink 1) ;;;
    fs_iupdate ip ;;;
    i <- fs_geti ip ;;
    when (type =? T_DIR) (
      fs_seti dp (λ d, set_i_nlink (s16 (i_nlink d + 1)) d) ;;;
      fs_iupdate dp ;;;
      r <- fs_dirlink ip dot (i_inum i) ;;
      d <- fs_geti dp ;;
      r' <- (if r <? 0 then ret (-1) else fs_dirlink ip dotdot (i_inum d)) ;;
      if r' <? 0 then panic "create dots" else ret tt) ;;;
    r <- fs_dirlink dp name (i_inum i) ;;
    (if r <? 0 then panic "create: dirlink" else ret tt) ;;;
    iunlockput dp ;;;
    ret (Some ip)
  end.

Definition create (path : list Z) (type major minor : Z) : M (kst W) (option nat) :=
  d <- fs_nameiparent path ;;
  match d with
  | None => ret None
  | Some (dp, name) =>
    fs_ilock dp ;;;
    r <- fs_dirlookup dp name ;;
    match r with
    | Some (ip, _) =>
      iunlockput dp ;;;
      fs_ilock ip ;;;
      i <- fs_geti ip ;;
      if (type =? T_FILE) && (i_type i =? T_FILE) then ret (Some ip)
      else iunlockput ip ;;; ret None
    | None => create_new dp name type major minor
    end
  end.

(** The inode [sys_open] works on, locked; [None] after an error, with the
    transaction closed. *)
Definition open_inode (path : list Z) (omode : Z) : M (kst W) (option nat) :=
  if negb (Z.land omode O_CREATE =? 0) then
    o <- create path T_FILE 0 0 ;;
    match o with
    | None => fs_end_op ;;; ret None
    | Some ip => ret (Some ip)
    end
  else
    o <- fs_namei path ;;
    match o with
    | None => fs_end_op ;;; ret None
    | Some ip =>
      fs_ilock ip ;;;
      i <- fs_geti ip ;;
      if (i_type i =? T_DIR) && negb (omode =? O_RDONLY) then iunlockput ip ;;; fs_end_op ;;; ret None
      else ret (Some ip)
    end.

(** The fields [sys_open] gives the new file. *)
Definition opened (ip : nat) (omode : Z) (x : file) : file :=
  mkFile FD_INODE (f_ref x)
    (if Z.land omode O_WRONLY =? 0 then 1 else 0)
    (if negb (Z.land omode O_WRONLY =? 0) || negb (Z.land omode O_RDWR =? 0) then 1 else 0)
    (f_pipe x) (Some ip) 0.

Definition sys_open : M (kst W) Z :=
  o <- argpath 0 ;;
  match o with None => ret (-1) | Some path =>
  with_int 1 (λ omode,
    fs_begin_op ;;;
    o <- open_inode path omode ;;
    match o with
    | None => ret (-1)
    | Some ip =>
      f <- filealloc ;;
      fd <- (match f with Some f => fdalloc f | None => ret None end) ;;
      match f, fd with
      | Some f, Some fd =>
        fs_iunlock ip ;;;
        fs_end_op ;;;
        set_file f (opened ip omode) ;;;
        ret (Z.of_nat fd)
      | _, _ =>
        match f with Some f => fileclose f | None => ret tt end ;;;
        iunlockput ip ;;;
        fs_end_op ;;;
        ret (-1)
      end
    end)
  end.

(** [... || (ip = create(...)) == 0) { end_op(); return -1; } iunlockput(ip); end_op(); return 0;] *)
Definition create_and_put (path : list Z) (type major minor : Z) : M (kst W) Z :=
  o <- create path type major minor ;;
  match o with
  | None => fs_end_op ;;; ret (-1)
  | Some ip => iunlockput ip ;;; fs_end_op ;;; ret 0
  end.

Definition sys_mkdir : M (kst W) Z :=
  fs_begin_op ;;;
  o <- argpath 0 ;;
  match o with
  | None => fs_end_op ;;; ret (-1)
  | Some path => create_and_put path T_DIR 0 0
  end.

Definition sys_mknod : M (kst W) Z :=
  fs_begin_op ;;;
  o <- argpath 0 ;;
  match o with
  | None => fs_end_op ;;; ret (-1)
  | Some path =>
    major <- argint 1 ;;
    match major with
    | None => fs_end_op ;;; ret (-1)
    | Some major =>
      minor <- argint 2 ;;
      match minor with
      | None => fs_end_op ;;; ret (-1)
      | Some minor => create_and_put path T_DEV major minor
      end
    end
  end.

Definition sys_chdir : M (kst W) Z :=
  fs_begin_op ;;;
  o <- argpath 0 ;;
  r <- (match o with Some path => fs_namei path | None => ret None end) ;;
  match r with
  | None => fs_end_op ;;; ret (-1)
  | Some ip =>
    fs_ilock ip ;;;
    i <- fs_geti ip ;;
    if negb (i_type i =? T_DIR) then iunlockput ip ;;; fs_end_op ;;; ret (-1)
    else
      fs_iunlock ip ;;;
      p <- cur ;;
      match p_cwd p with Some c => fs_iput c | None => panic "trap" end ;;;
      fs_end_op ;;;
      set_cur (set_p_cwd (Some ip)) ;;;
      ret 0
  end.

(** ** Pipes *)
Definition sys_pipe (junk : list Z) : M (kst W) Z :=
  q <- argptr 0 8 ;;
  match q with
  | None => ret (-1)
  | Some fdp =>
    o <- pipealloc junk ;;
    match o with
    | None => ret (-1)
    | Some (rf, wf) =>
      fd0 <- fdalloc rf ;;
      fd1 <- (match fd0 with Some _ => fdalloc wf | None => ret None end) ;;
      match fd0, fd1 with
      | Some fd0, Some fd1 =>
        ustore32 fdp (Z.of_nat fd0) ;;;
        ustore32 (fdp + 4) (Z.of_nat fd1) ;;;
        ret 0
      | _, _ =>
        match fd0 with Some fd0 => set_ofile fd0 None | None => ret tt end ;;;
        fileclose rf ;;;
        fileclose wf ;;;
        ret (-1)
      end
    end
  end.

(** ** Arguments of exec *)

(** [for(i=0;; i++)] over the user's [argv]. *)
Fixpoint fetch_argv (k : nat) (uargv : Z) (i : Z) (acc : list (list Z)) : M (kst W) (option (list (list Z))) :=
  match k with
  | O => ret None  (* i >= NELEM(argv) *)
  | S k' =>
    o <- fetchint (u32 (uargv + 4 * i)) ;;
    match o with
    | None => ret None
    | Some uarg =>
      if uarg =? 0 then ret (Some acc)
      else
        l <- fetchstr (u32 uarg) ;;
        match l with
        | None => ret None
        | Some len => bs <- uloads (u32 uarg) (Z.to_nat len) ;; fetch_argv k' uargv (i + 1) (acc ++ [bs])
        end
    end
  end.

Definition sys_exec (exec : list Z → list (list Z) → M (kst W) Z) : M (kst W) Z :=
  o <- argpath 0 ;;
  match o with None => ret (-1) | Some path =>
  with_int 1 (λ uargv,
    a <- fetch_argv MAXARG (u32 uargv) 0 [] ;;
    match a with None => ret (-1) | Some argv => exec path argv end)
  end.

End Sysfile.

Arguments argfd : simpl never.
Arguments fdalloc : simpl never.
Arguments set_ofile : simpl never.

(** * Descriptors *)
Section Descriptors.
Context {W : Type} {VO : VmOps W} {VL : VmLaws W} {FO : FsOps W}.
Implicit Types s : kst W.

(** Descriptor [v] of [p], as a system call argument. *)
Definition fd_of (p : proc) (v : option Z) : option (nat * nat) :=
  match v with
  | Some fd => if (fd <? 0) || (Z.of_nat NOFILE <=? fd) then None
               else match p_ofile p !! Z.to_nat fd with Some (Some f) => Some (Z.to_nat fd, f) | _ => None end
  | None => None
  end.

Lemma argfd_eq g i p um n s :
  user_mem g i p um s → p_sz p ≤ KERNBASE → argfd n s = Done (fd_of p (arg p um n)) s.
Proof.
  intros Hu Hsz. pose proof Hu as (_ & Hcur & Hp & _). unfold argfd, fd_of. mstep.
  rewrite (argint_eq g i p um) by done. mstep. destruct (arg p um n) as [fd|]; [|done]. mstep.
  rewrite (cur_eq i p) by done. mstep. by destruct ((fd <? 0) || (Z.of_nat NOFILE <=? fd)).
Qed.

Definition with_fd (fd : nat) (o : option nat) (p : proc) : proc :=
  set_p_ofile (<[fd := o]> (p_ofile p)) p.

Lemma set_ofile_eq i p fd o s :
  k_cur s = Some i → k_procs s !! i = Some p → set_ofile fd o s = Done tt (with_proc i (with_fd fd o p) s).
Proof. intros. unfold set_ofile. by rewrite (Signal.set_cur_at i _ p). Qed.

(** The lowest free descriptor. *)
Definition free_fd (p : proc) : option nat := fst <$> list_find (λ o, o = None) (p_ofile p).

Lemma fdalloc_eq i p f s :
  k_cur s = Some i → k_procs s !! i = Some p → length (p_ofile p) = NOFILE →
  fdalloc f s = Done (free_fd p)
    (match free_fd p with Some fd => with_proc i (with_fd fd (Some f) p) s | None => s end).
Proof.
  intros Hc Hp Hl. unfold fdalloc, free_fd, fds. rewrite <- Hl.
  assert (Hskip : ∀ (j : nat) (y : option nat), p_ofile p !! j = Some y → y ≠ None →
    (p0 <- cur ;; match p_ofile p0 !! (0 + j)%nat with
      | Some None => set_ofile (0 + j) (Some f) ;;; ret (Some (0 + j)%nat) | _ => ret None end) s = Done None s).
  { intros j [y|] Hy Hn; [|done]. cbn [Nat.add]. mstep. rewrite (cur_eq i p) by done. mstep. by rewrite Hy. }
  destruct (list_find (λ o, o = None) (p_ofile p)) as [[fd o]|] eqn:E; cbn [fmap option_fmap option_map fst].
  - apply (for_break_first (λ o, o = None) _ _ _ fd o); [done|exact Hskip|].
    apply list_find_Some in E as (E & -> & _). cbn [Nat.add]. mstep. rewrite (cur_eq i p) by done. mstep.
    rewrite E. mstep. by rewrite (set_ofile_eq i p).
  - by apply (for_break_absent (λ o, o = None)).
Qed.

(** Freeing a descriptor of the running process keeps the process table in order. *)
Lemma krun_with_fd ls i p fd o s :
  krun [] ls i p s → k_procs s !! i = Some p →
  krun [] ls i (with_fd fd o p) (with_proc i (with_fd fd o p) s).
Proof.
  intros [A B C D E (p' & F & G & _)] Hp. rewrite Hp in F. injection F as <-. split; try done.
  - by apply with_proc_kctx.
  - apply (with_proc_wf i p); [done|done| |done|done]. destruct (wf_ok _ B i p Hp). split; try done. cbn. by rewrite length_insert.
  - exists (with_fd fd o p). split; [|done]. apply with_proc_lookup. by eapply lookup_lt_Some.
Qed.

(** The descriptor [fd] freed, and the entry [f] of the file table given back. *)
Definition after_close (i : nat) (p : proc) (fd f : nat) (o : file) (s : kst W) : kst W :=
  with_files (<[f := closed o]> (k_files s)) (with_proc i (with_fd fd None p) s).

(** [close] of the last reference to a pipe end. *)
Definition pipe_closed (g : gmap Z vobj) (o : file) (pi : pipe) (s s' : kst W) : Prop :=
  let pi' := close_end (f_writable o) pi in
  if (pi_readopen pi' =? 0) && (pi_writeopen pi' =? 0)
  then k_pipes s' = delete (f_pipe o) (k_pipes s) ∧ vm_inv (delete (f_pipe o) g) (k_mem s')
  else k_pipes s' = <[f_pipe o := pi']> (k_pipes s) ∧ k_mem s' = k_mem s.

Lemma sys_close_last g i p um fd f o s :
  kctx [] s → is_Some (k_locks s !! L_ftable) → user_mem g i p um s → p_sz p ≤ KERNBASE →
  fd_of p (arg p um 0) = Some (fd, f) → k_files s !! f = Some o → f_ref o = 1 →
  sys_close s = (fileclose_last (set_f_ref 0 o) ;;; ret 0) (after_close i p fd f o s).
Proof.
  intros Hc Hl Hu Hsz Hfd Hf Hr. pose proof Hu as (_ & Hcur & Hp & _). unfold sys_close. mstep.
  rewrite (argfd_eq g i p um), Hfd by done. mstep. rewrite (set_ofile_eq i p) by done. mstep.
  by rewrite (fileclose_last_ref [] f o); [|by apply with_proc_kctx|set_solver|..].
Qed.

(** C39: [dup] of an open descriptor returns the lowest free one, which then refers to
    the same file, and counts the reference; with no free descriptor, or a bad
    argument, it returns -1 and changes nothing.  [close] frees the descriptor.  While
    the file has other references it takes one back and does nothing else.  With the
    last reference it gives the entry of the file table back, and then: for an inode it
    runs one transaction that drops the inode's reference; for a pipe it closes that
    end, and the page of the pipe is freed when the other end is closed too.  A file
    with no reference is a panic. *)
Theorem descriptor_calls g i p um s :
  kctx [] s → is_Some (k_locks s !! L_ftable) → user_mem g i p um s → p_sz p ≤ KERNBASE →
  length (p_ofile p) = NOFILE →
  (∀ o fd f, fd_of p (arg p um 0) = Some (fd, f) → k_files s !! f = Some o →
    (1 ≤ f_ref o → sys_dup s = match free_fd p with
      | Some nfd => Done (Z.of_nat nfd) (with_files (<[f := ref_up o]> (k_files s))
                      (with_proc i (with_fd nfd (Some f) p) s))
      | None => Done (-1) s end) ∧
    (1 < f_ref o → sys_close s =
      Done 0 (with_files (<[f := ref_down o]> (k_files s)) (with_proc i (with_fd fd None p) s))) ∧
    (f_ref o = 1 → match f_type o with
      | FD_NONE => sys_close s = Done 0 (after_close i p fd f o s)
      | FD_INODE => ∀ ip, f_ip o = Some ip →
          sys_close s = ((fs_begin_op ;;; fs_iput ip ;;; fs_end_op) ;;; ret 0) (after_close i p fd f o s)
      | FD_PIPE => ∀ pi, krun [] [L_pipe (f_pipe o)] i p s → k_pipes s !! f_pipe o = Some pi →
          g !! f_pipe o = Some OPage →
          ∃ s', sys_close s = Done 0 s' ∧ krun [] [L_pipe (f_pipe o)] i (with_fd fd None p) s' ∧
            k_files s' = <[f := closed o]> (k_files s) ∧ pipe_closed g o pi s s'
      end) ∧
    (f_ref o < 1 → sys_close s = Panic "fileclose")) ∧
  (fd_of p (arg p um 0) = None → sys_dup s = Done (-1) s ∧ sys_close s = Done (-1) s).
Proof.
  intros Hc Hl Hu Hsz Hlen. pose proof Hu as (Hinv & Hcur & Hp & _). split.
  - intros o fd f Hfd Hf. split; [|split; [|split]]; intros Hr.
    + unfold sys_dup. mstep. rewrite (argfd_eq g i p um), Hfd by done. mstep.
      rewrite (fdalloc_eq i p) by done. mstep. destruct (free_fd p) as [nfd|]; mstep; [|done].
      rewrite (filedup_eq [] f o); [done|by apply with_proc_kctx|set_solver|done..].
    + unfold sys_close. mstep. rewrite (argfd_eq g i p um), Hfd by done. mstep.
      rewrite (set_ofile_eq i p) by done. mstep.
      rewrite (fileclose_shared [] f o); [done|by apply with_proc_kctx|set_solver|done..].
    + rewrite (sys_close_last g i p um fd f o) by done. unfold fileclose_last. cbn [set_f_ref f_type f_ip f_pipe f_writable].
      destruct (f_type o); [done| |].
      * intros pi Hk Hpi Hg. destruct (pipeclose_ok g i (with_fd fd None p) (f_pipe o) (f_writable o) pi (after_close i p fd f o s))
          as (s' & E & Hk' & Hf' & Hpost); [by apply with_files_krun, krun_with_fd|done|done|done|].
        mstep. rewrite E. by exists s'.
      * by intros ip ->.
    + unfold sys_close. mstep. rewrite (argfd_eq g i p um), Hfd by done. mstep.
      rewrite (set_ofile_eq i p) by done. mstep.
      rewrite (fileclose_panic [] f o); [done|by apply with_proc_kctx|set_solver|done..].
  - intros Hfd. unfold sys_dup, sys_close. mstep. rewrite (argfd_eq g i p um), Hfd by done. done.
Qed.

End Descriptors.

(** * A process whose descriptor 3 names a file with two references, or one; the
    argument of the call is 3. *)
Module Demo.
Definition um : mem := writes Flat.zeros 4 (le32 3).
Definition p : proc := set_p_ofile (<[3%nat := Some 5%nat]> (replicate NOFILE None)) Sched.Demo.p1.
Definition world : gmap Z vobj := {[ p_pgdir p := OSpace 4096 um ]}.
Definition f : file := mkFile FD_INODE 2 1 0 0 (Some 1%nat) 0.
Definition with_file (f : file) : kst (gmap Z vobj) :=
  set_k_files (<[5%nat := f]> (replicate NFILE file0))
    (set_k_procs (p :: replicate 63 proc0)
      (Sched.Demo.mk {[ L_ptable := mkLock 0 "ptable" None; L_ftable := mkLock 0 "ftable" None ]} ∅ world)).

Definition f1 : file := set_f_ref 1 f.
Definition st : kst (gmap Z vobj) := with_file f.
Definition st1 : kst (gmap Z vobj) := with_file f1.

Lemma sysfile_ctx x : kctx [] (with_file x).
Proof. apply kctx_none; [|done]. apply map_Forall_insert_2; [done|]. by apply map_Forall_singleton. Qed.
Lemma sysfile_user x : user_mem world 0 p um (with_file x).
Proof.
  split; [|done]. split; [done|]. intros pd sz m Hl. change (world !! pd = Some (OSpace sz m)) in Hl.
  unfold world in Hl. apply lookup_singleton_Some in Hl as [_ [= <- <-]].
  unfold um, le32. cbn [writes]. repeat apply upd_ok. intros y. unfold Flat.zeros. lia.
Qed.
End Demo.

Lemma descriptor_calls_witness :
  sys_dup Demo.st = Done 0 (with_files (<[5%nat := ref_up Demo.f]> (k_files Demo.st))
                      (with_proc 0 (with_fd 0 (Some 5%nat) Demo.p) Demo.st)) ∧
  sys_close Demo.st = Done 0 (with_files (<[5%nat := ref_down Demo.f]> (k_files Demo.st))
                      (with_proc 0 (with_fd 3 None Demo.p) Demo.st)) ∧
  sys_close Demo.st1 = Done 0 (after_close 0 Demo.p 3 5 Demo.f1 Demo.st1).
Proof.
  destruct (descriptor_calls Demo.world 0 Demo.p Demo.um Demo.st (Demo.sysfile_ctx _)
    ltac:(by eexists) (Demo.sysfile_user _) ltac:(discriminate) eq_refl) as [H _].
  destruct (H Demo.f 3%nat 5%nat) as (H1 & H2 & _); [reflexivity|reflexivity|].
  destruct (descriptor_calls Demo.world 0 Demo.p Demo.um Demo.st1 (Demo.sysfile_ctx _)
    ltac:(by eexists) (Demo.sysfile_user _) ltac:(discriminate) eq_refl) as [H' _].
  destruct (H' Demo.f1 3%nat 5%nat) as (_ & _ & H3 & _); [reflexivity|reflexivity|].
  split; [apply H1; cbn; lia|]. split; [apply H2; cbn; lia|]. exact (H3 eq_refl 1%nat eq_refl).
Defined.
