(* ===== verification/Exec.v ===== *)
(** exec.c, with [loaduvm] of vm.c, which it calls: replace the image of the current
    process by an ELF program. *)
From S2P Require Import Prelude Mem Str KState Spinlock Sched Layout Services Pipe File Proc Signal Syscall Sysfile.

(** * elf.h: the fields [exec] uses, at their offsets *)
Abbreviation ELF_MAGIC := 1179403647 (only parsing).  (* 0x464C457F *)
Abbreviation ELF_PROG_LOAD := 1 (only parsing).
Definition elfhdr_size : Z := 52.
Definition proghdr_size : Z := 32.

Definition field (bs : list Z) (off n : nat) : Z := of_le (take n (drop off bs)).
Definition elf_magic (h : list Z) : Z := field h 0 4.
Definition elf_entry (h : list Z) : Z := field h 24 4.
Definition elf_phoff (h : list Z) : Z := field h 28 4.
Definition elf_phnum (h : list Z) : Z := field h 44 2.
Definition ph_type (h : list Z) : Z := field h 0 4.
Definition ph_off (h : list Z) : Z := field h 4 4.
Definition ph_vaddr (h : list Z) : Z := field h 8 4.
Definition ph_filesz (h : list Z) : Z := field h 16 4.
Definition ph_memsz (h : list Z) : Z := field h 20 4.

(** [path] after its last '/'. *)
Fixpoint last_component (path last : list Z) : list Z :=
  match path with
  | [] => last
  | c :: path' => last_component path' (if c =? 47 then path' else last)
  end.

Section Exec.
Context {W : Type} {VO : VmOps W} {FO : FsOps W}.

(** Load a program segment into [pgdir]. *)
Fixpoint loaduvm_loop (fuel : nat) (pgdir addr : Z) (ip : nat) (offset sz i : Z) : M (kst W) Z :=
  match fuel with
  | O => λ _, Fuel
  | S fuel' =>
    if i <? sz then
      m <- gets (λ s, vm_mapped (k_mem s) pgdir (u32 (addr + i))) ;;
      (if m : bool then ret tt else panic "loaduvm: address should exist") ;;;
      let n := if sz - i <? PGSIZE then sz - i else PGSIZE in
      r <- fs_readk ip (u32 (offset + i)) n ;;
      lift (vm_poke pgdir (u32 (addr + i)) r.2) ;;;
      if negb (r.1 =? n) then ret (-1)
      else loaduvm_loop fuel' pgdir addr ip offset sz (u32 (i + PGSIZE))
    else ret 0
  end.
Definition loaduvm (pgdir addr : Z) (ip : nat) (offset sz : Z) : M (kst W) Z :=
  (if addr mod PGSIZE =? 0 then ret tt else panic "loaduvm: addr must be page aligned") ;;;
  loaduvm_loop (S (Z.to_nat sz)) pgdir addr ip offset sz 0.

(** [bad:] frees the new image and puts the inode; [ip] and [pgdir] may be null. *)
Definition exec_bad (pgdir : Z) (ip : option nat) : M (kst W) Z :=
  when (negb (pgdir =? 0)) (freevm pgdir) ;;;
  match ip with Some ip => iunlockput ip ;;; fs_end_op | None => ret tt end ;;;
  ret (-1).

(** One program header: the new size, or [None] for [goto bad]. *)
Definition exec_segment (pgdir : Z) (ip : nat) (off sz : Z) : M (kst W) (option Z) :=
  r <- fs_readk ip (u32 off) proghdr_size ;;
  let ph := r.2 in
  if negb (r.1 =? proghdr_size) then ret None
  else if negb (ph_type ph =? ELF_PROG_LOAD) then ret (Some sz)
  else if ph_memsz ph <? ph_filesz ph then ret None
  else if u32 (ph_vaddr ph + ph_memsz ph) <? ph_vaddr ph then ret None
  else
    sz <- allocuvm pgdir sz (u32 (ph_vaddr ph + ph_memsz ph)) ;;
    if sz =? 0 then ret None
    else if negb (ph_vaddr ph mod PGSIZE =? 0) then ret None
    else
      r <- loaduvm pgdir (ph_vaddr ph) ip (ph_off ph) (ph_filesz ph) ;;
      ret (if r <? 0 then None else Some sz).

Fixpoint exec_load (k : nat) (pgdir : Z) (ip : nat) (off sz : Z) : M (kst W) (option Z) :=
  match k with
  | O => ret (Some sz)
  | S k' =>
    o <- exec_segment pgdir ip off sz ;;
    match o with
    | None => ret None
    | Some sz => exec_load k' pgdir ip (s32 (off + proghdr_size)) sz
    end
  end.

(** Push the argument strings: their addresses, in order, and the stack pointer.
    [argc] strings have been pushed already. *)
Fixpoint exec_strings (pgdir : Z) (argv : list (list Z)) (argc : nat) (sp : Z) (ptrs : list Z) :
    M (kst W) (option (Z * list Z)) :=
  match argv with
  | [] => ret (Some (sp, ptrs))
  | a :: argv' =>
    if (MAXARG <=? argc)%nat then ret None
    else
      let sp := Z.land (u32 (sp - (Z.of_nat (length a) + 1))) (Z.lnot 3) in
      r <- copyout pgdir sp (a ++ [0]) ;;
      if r <? 0 then ret None else exec_strings pgdir argv' (S argc) sp (ptrs ++ [sp])
  end.

(** [ustack]: fake return address, argc, argv, and the argv array. *)
Definition ustack (sp : Z) (ptrs : list Z) : list Z :=
  let argc := Z.of_nat (length ptrs) in
  [2^32 - 1; argc; u32 (sp - (argc + 1) * 4)] ++ ptrs ++ [0].

(** The whole initial stack; the result is the final stack pointer. *)
Definition exec_stack (pgdir : Z) (argv : list (list Z)) (sp : Z) : M (kst W) (option Z) :=
  o <- exec_strings pgdir argv 0 sp [] ;;
  match o with
  | None => ret None
  | Some (sp, ptrs) =>
    let sp' := u32 (sp - (3 + Z.of_nat (length ptrs) + 1) * 4) in
    r <- copyout pgdir sp' (concat (le32 <$> ustack sp ptrs)) ;;
    ret (if r <? 0 then None else Some sp')
  end.

(** Commit to the user image. *)
Definition exec_commit (path : list Z) (pgdir sz entry sp : Z) : M (kst W) Z :=
  set_cur (λ p, set_p_name (name_copy (p_name p) (last_component path path) 16) p) ;;;
  p <- cur ;;
  let oldpgdir := p_pgdir p in
  set_cur (set_p_pgdir pgdir) ;;;
  set_cur (set_p_sz sz) ;;;
  set_cur (λ p, set_p_tf (set_tf_eip entry (p_tf p)) p) ;;;
  set_cur (λ p, set_p_tf (set_tf_esp sp (p_tf p)) p) ;;;
  i <- myproc ;;
  switchuvm i ;;;
  freevm oldpgdir ;;;
  ret 0.

(** From [sz = PGROUNDUP(sz)] on: [ip] is null and the transaction is closed. *)
Definition exec_image (path : list Z) (argv : list (list Z)) (pgdir sz entry : Z) : M (kst W) Z :=
  let sz := PGROUNDUP sz in
  sz <- allocuvm pgdir sz (u32 (sz + 2 * PGSIZE)) ;;
  if sz =? 0 then exec_bad pgdir None
  else
    clearpteu pgdir (u32 (sz - 2 * PGSIZE)) ;;;
    o <- exec_stack pgdir argv sz ;;
    match o with
    | None => exec_bad pgdir None
    | Some sp => exec_commit path pgdir sz entry sp
    end.

Definition exec (path : list Z) (argv : list (list Z)) : M (kst W) Z :=
  fs_begin_op ;;;
  o <- fs_namei path ;;
  match o with
  | None => fs_end_op ;;; ret (-1)
  | Some ip =>
    fs_ilock ip ;;;
    r <- fs_readk ip 0 elfhdr_size ;;
    let elf := r.2 in
    if negb (r.1 =? elfhdr_size) then exec_bad 0 (Some ip)
    else if negb (elf_magic elf =? ELF_MAGIC) then exec_bad 0 (Some ip)
    else
      pgdir <- setupkvm ;;
      if pgdir =? 0 then exec_bad 0 (Some ip)
      else
        o <- exec_load (Z.to_nat (elf_phnum elf)) pgdir ip (s32 (elf_phoff elf)) 0 ;;
        match o with
        | None => exec_bad pgdir (Some ip)
        | Some sz =>
          iunlockput ip ;;;
          fs_end_op ;;;
          exec_image path argv pgdir sz (elf_entry elf)
        end
  end.

End Exec.

Arguments copyout : simpl never.

(** * The initial stack *)
Section Stack.
Context {W : Type} {VO : VmOps W} {VL : VmLaws W}.
Implicit Types s : kst W.

Definition byte_string (a : list Z) : Prop := Forall (λ b, 0 ≤ b < 256) a.

(** Room for a string, its NUL and the rounding. *)
Definition need (argv : list (list Z)) : Z := foldr (λ a n, Z.of_nat (length a) + 4 + n) 0 argv.

Lemma need_pos argv : 0 ≤ need argv.
Proof. unfold need. induction argv; cbn [foldr]; lia. Qed.

(** The strings [args] lie at [ptrs], between [lo] and [hi]. *)
Definition placed (um : mem) (lo hi : Z) (ptrs : list Z) (args : list (list Z)) : Prop :=
  length ptrs = length args ∧ ∀ k p a, ptrs !! k = Some p → args !! k = Some a →
    lo ≤ p ∧ p + Z.of_nat (S (length a)) ≤ hi ∧ bytes um p (S (length a)) = a ++ [0].

(** A store below [lo] moves nothing that is placed; the new string is placed too. *)
Lemma placed_push um lo hi ptrs args sp a :
  placed um lo hi ptrs args → byte_string a → sp + Z.of_nat (S (length a)) ≤ lo ≤ hi →
  placed (writes um sp (a ++ [0])) sp hi (ptrs ++ [sp]) (args ++ [a]).
Proof.
  intros [Hlen Hp] Ha Hsp. split; [rewrite !length_app; cbn; lia|]. intros k p b Hk Hb.
  assert (Hla : length (a ++ [0]) = S (length a)) by (rewrite length_app; cbn; lia).
  apply lookup_app_Some in Hk as [Hk|[Hk1 Hk2]].
  - rewrite lookup_app_l in Hb by (apply lookup_lt_Some in Hk; lia).
    destruct (Hp k p b Hk Hb) as (H1 & H2 & H3). split; [lia|]. split; [done|].
    rewrite <- H3. apply bytes_writes_disjoint. rewrite Hla. lia.
  - apply list_lookup_singleton_Some in Hk2 as [Hk2 <-].
    rewrite lookup_app_r in Hb by lia. replace (k - length args)%nat with 0%nat in Hb by lia.
    injection Hb as <-. split; [lia|]. split; [lia|].
    rewrite <- Hla, bytes_writes; [done|]. apply Forall_app. split; [done|]. repeat constructor; lia.
Qed.

(** [copyout] to memory that user code may access succeeds. *)
Lemma copyout_eq pgdir sz va bs g um s :
  vm_inv g (k_mem s) → g !! pgdir = Some (OSpace sz um) → 0 ≤ va → va + Z.of_nat (length bs) ≤ sz →
  (∀ x, va ≤ x < sz → vm_user (k_mem s) pgdir x = true) →
  ∃ w, copyout pgdir va bs s = Done 0 (set_k_mem w s) ∧ vm_inv (<[pgdir := OSpace sz (writes um va bs)]> g) w ∧
    ∀ x, 0 ≤ x < sz → vm_user w pgdir x = vm_user (k_mem s) pgdir x.
Proof.
  intros Hinv Hg H0 Hlen Hu. destruct (vm_copyout_ok g (k_mem s) pgdir sz um va bs) as (r & w & um' & Hop & Hinv' & Hus & Hr); [done..|].
  destruct Hr as [[-> ->]|(_ & x & Hx & Hf)]; [|rewrite Hu in Hf; [done|lia]].
  exists w. split; [by apply lift_eq|done].
Qed.

(** The rounded-down place for a string of [n] bytes and its NUL. *)
Lemma sp_down sp n : 0 ≤ n → n + 4 ≤ sp < 2^32 →
  sp - (n + 4) ≤ Z.land (u32 (sp - (n + 1))) (Z.lnot 3) ≤ sp - (n + 1).
Proof.
  intros Hn Hsp. change 3 with (Z.ones 2). rewrite land_lnot_ones, u32_id by lia. change (2^2) with 4.
  Z.div_mod_to_equations. lia.
Qed.

Lemma exec_strings_spec pgdir sz lo argv argc sp ptrs args g um s :
  vm_inv g (k_mem s) → g !! pgdir = Some (OSpace sz um) → 0 ≤ lo → sz < 2^32 →
  (∀ x, lo ≤ x < sz → vm_user (k_mem s) pgdir x = true) →
  Forall byte_string argv → lo + need argv ≤ sp ≤ sz → placed um sp sz ptrs args → (argc ≤ MAXARG)%nat →
  ∃ r w um', exec_strings pgdir argv argc sp ptrs s = Done r (set_k_mem w s) ∧
    vm_inv (<[pgdir := OSpace sz um']> g) w ∧ (∀ x, lo ≤ x < sz → vm_user w pgdir x = true) ∧
    if decide (argc + length argv ≤ MAXARG)%nat then ∃ sp' ptrs', r = Some (sp', ptrs') ∧
      placed um' sp' sz ptrs' (args ++ argv) ∧ sp - need argv ≤ sp' ≤ sp ∧ ∀ x, x < sp' → um' x = um x
    else r = None.
Proof.
  intros Hinv Hg Hlo Hsz Hu Hb. revert argc sp ptrs args g um s Hinv Hg Hu.
  induction argv as [|a argv IH]; intros argc sp ptrs args g um s Hinv Hg Hu Hn Hp Hargc; cbn [exec_strings].
  - eexists _, (k_mem s), um. split; [mstep; by destruct s|]. split; [by rewrite insert_id|]. split; [done|].
    cbn [length]. rewrite decide_True by lia. exists sp, ptrs. rewrite app_nil_r. change (need []) with 0. split_and!; [done|done|lia|lia|done].
  - apply Forall_cons in Hb as [Ha Hb]. change (need (a :: argv)) with (Z.of_nat (length a) + 4 + need argv) in *.
    cbn [length]. destruct (Nat.leb_spec MAXARG argc).
    { eexists _, (k_mem s), um. split; [mstep; by destruct s|]. split; [by rewrite insert_id|]. split; [done|].
      by rewrite decide_False by lia. }
    pose proof (need_pos argv) as Hneed. pose proof (sp_down sp (Z.of_nat (length a)) ltac:(lia) ltac:(lia)) as Hsp1.
    cbn zeta. set (sp1 := Z.land _ (Z.lnot 3)) in *.
    assert (Hla : length (a ++ [0]) = S (length a)) by (rewrite length_app; cbn; lia).
    destruct (copyout_eq pgdir sz sp1 (a ++ [0]) g um s) as (w & Hop & Hinv1 & Hus); [done|done|lia|lia|intros x Hx; apply Hu; lia|].
    mstep. rewrite Hop. mstep. cbn [Z.ltb Z.compare].
    destruct (IH Hb (S argc) sp1 (ptrs ++ [sp1]) (args ++ [a])
      (<[pgdir := OSpace sz (writes um sp1 (a ++ [0]))]> g) (writes um sp1 (a ++ [0])) (set_k_mem w s))
      as (r' & w' & um' & -> & Hinv' & Hus' & Hr'); [done|by rewrite lookup_insert_eq| |lia| |lia|].
    { intros x Hx. cbn. rewrite Hus by lia. by apply Hu. }
    { apply (placed_push _ sp); [done|done|lia]. }
    eexists r', w', um'. split; [done|]. rewrite insert_insert_eq in Hinv'. split; [done|]. split; [done|].
    replace (argc + S (length argv))%nat with (S argc + length argv)%nat by lia. case_decide; [|done].
    destruct Hr' as (sp' & ptrs' & E & H1 & H2 & H3). exists sp', ptrs'. rewrite <- app_assoc in H1. cbn [app] in H1.
    split_and!; [done|done|lia|lia|]. intros x Hx. rewrite H3 by done. apply writes_out. lia.
Qed.

(** Reading back a word of an array of words. *)
Lemma load32_words um a ws k v :
  ws !! k = Some v → load32 (writes um a (concat (le32 <$> ws))) (a + 4 * Z.of_nat k) = u32 v.
Proof.
  revert um a k. induction ws as [|w ws IH]; intros um a k Hk; [done|].
  cbn [fmap list_fmap concat]. rewrite writes_app. change (Z.of_nat (length (le32 w))) with 4.
  destruct k as [|k]; cbn in Hk.
  - injection Hk as ->. rewrite Z.mul_0_r, Z.add_0_r. unfold load32.
    rewrite bytes_writes_disjoint by lia. apply (load32_store32 um).
  - replace (a + 4 * Z.of_nat (S k)) with (a + 4 + 4 * Z.of_nat k) by lia. by apply IH.
Qed.

(** The stack [main(argc, argv)] expects at [sp]: a return address, [argc], the
    address of the [argv] array, and that array, null-terminated, whose entries point
    to the arguments, NUL-terminated, between the array and [sz]. *)
Definition main_stack (um : mem) (sp sz : Z) (argv : list (list Z)) : Prop :=
  ∃ ptrs,
    load32 um sp = 2^32 - 1 ∧ load32 um (sp + 4) = u32 (Z.of_nat (length argv)) ∧
    load32 um (sp + 8) = sp + 12 ∧
    load32 um (sp + 12 + 4 * Z.of_nat (length argv)) = 0 ∧
    (∀ k p, ptrs !! k = Some p → load32 um (sp + 12 + 4 * Z.of_nat k) = p) ∧
    placed um (sp + 4 * Z.of_nat (length argv + 4)) sz ptrs argv.

Lemma ustack_layout um sp sz ptrs argv :
  placed um sp sz ptrs argv → 4 * Z.of_nat (length argv + 4) ≤ sp → sz < 2^32 → sp ≤ sz →
  let sp' := sp - (3 + Z.of_nat (length ptrs) + 1) * 4 in
  main_stack (writes um sp' (concat (le32 <$> ustack sp ptrs))) sp' sz argv.
Proof.
  intros [Hlen Hp] Hsp Hsz Hle sp'. exists ptrs.
  assert (Hwl : Z.of_nat (length (concat (le32 <$> ustack sp ptrs))) = sp - sp').
  { rewrite length_words. unfold ustack, sp'. rewrite !length_app. cbn [length]. lia. }
  assert (Hword : ∀ k v, ustack sp ptrs !! k = Some v →
    load32 (writes um sp' (concat (le32 <$> ustack sp ptrs))) (sp' + 4 * Z.of_nat k) = u32 v)
    by (intros; by apply load32_words).
  split_and!.
  - rewrite <- (Z.add_0_r sp') at 2. by apply (Hword 0%nat (2^32 - 1)).
  - rewrite <- Hlen. by apply (Hword 1%nat).
  - etransitivity; [by apply (Hword 2%nat)|]. rewrite u32_idem, u32_id; unfold sp'; lia.
  - rewrite <- Hlen. replace (sp' + 12 + 4 * Z.of_nat (length ptrs)) with (sp' + 4 * Z.of_nat (3 + length ptrs)) by lia.
    apply (Hword _ 0). unfold ustack. rewrite lookup_app_r, lookup_app_r by (cbn; lia).
    cbn [length]. by replace (3 + length ptrs - 3 - length ptrs)%nat with 0%nat by lia.
  - intros k p Hk. replace (sp' + 12 + 4 * Z.of_nat k) with (sp' + 4 * Z.of_nat (3 + k)) by lia.
    pose proof (lookup_lt_Some _ _ _ Hk) as Hkl.
    destruct (lookup_lt_is_Some_2 argv k) as [a Ha]; [lia|]. destruct (Hp k p a Hk Ha) as (H1 & H2 & _).
    rewrite (Hword _ p); [apply u32_id; lia|]. unfold ustack. rewrite lookup_app_r by (cbn; lia).
    cbn [length]. replace (3 + k - 3)%nat with k by lia. by rewrite lookup_app_l.
  - split; [done|]. intros k p a Hk Ha. destruct (Hp k p a Hk Ha) as (H1 & H2 & H3).
    split; [unfold sp'; lia|]. split; [done|]. rewrite <- H3. apply bytes_writes_disjoint. lia.
Qed.

(** With room in accessible memory, only too many arguments make the stack fail. *)
Lemma exec_stack_spec pgdir sz lo argv g um s :
  vm_inv g (k_mem s) → g !! pgdir = Some (OSpace sz um) → 0 ≤ lo → sz < 2^32 →
  (∀ x, lo ≤ x < sz → vm_user (k_mem s) pgdir x = true) →
  Forall byte_string argv → lo + need argv + 4 * Z.of_nat (length argv + 4) ≤ sz →
  ∃ r w um', exec_stack pgdir argv sz s = Done r (set_k_mem w s) ∧
    vm_inv (<[pgdir := OSpace sz um']> g) w ∧
    if decide (length argv ≤ MAXARG)%nat then ∃ sp, r = Some sp ∧ lo ≤ sp ∧ main_stack um' sp sz argv ∧ ∀ x, x < sp → um' x = um x
    else r = None.
Proof.
  intros Hinv Hg Hlo Hsz Hu Hb Hn. pose proof (need_pos argv) as Hpos. unfold exec_stack. mstep.
  destruct (exec_strings_spec pgdir sz lo argv 0 sz [] [] g um s) as (r & w & um1 & -> & Hinv1 & Hu1 & Hr);
    [done|done|done|done|done|done|lia|done|lia|]. mstep. cbn [Nat.add] in Hr.
  case_decide as Hmax; [|subst r; by eexists None, w, um1].
  destruct Hr as (sp & ptrs & -> & Hp & Hsp & Hlow). cbn [app] in Hp. cbn zeta. pose proof (proj1 Hp) as Hlen.
  rewrite u32_id by lia. set (sp' := sp - (3 + Z.of_nat (length ptrs) + 1) * 4).
  assert (Hwl : Z.of_nat (length (concat (le32 <$> ustack sp ptrs))) = sp - sp').
  { rewrite length_words. unfold ustack, sp'. rewrite !length_app. cbn [length]. lia. }
  destruct (copyout_eq pgdir sz sp' (concat (le32 <$> ustack sp ptrs)) (<[pgdir := OSpace sz um1]> g) um1 (set_k_mem w s))
    as (w' & Hop & Hinv2 & _); [done|by rewrite lookup_insert_eq|lia|lia|intros x Hx; apply Hu1; lia|].
  rewrite insert_insert_eq in Hinv2. mstep. rewrite Hop. mstep. cbn [Z.ltb Z.compare].
  eexists _, w', _. split; [done|]. split; [exact Hinv2|]. exists sp'. split_and!; [done|lia|apply ustack_layout; [done|lia..]|].
  intros x Hx. rewrite writes_out by lia. apply Hlow. lia.
Qed.

End Stack.

(** * The new image *)
Section Image.
Context {W : Type} {VO : VmOps W} {VL : VmLaws W} {FO : FsOps W}.
Implicit Types s : kst W.

(** The process that runs the new program. *)
Definition committed (path : list Z) (pgdir sz entry sp : Z) (p : proc) : proc :=
  set_p_tf (set_tf_esp sp (set_tf_eip entry (p_tf p)))
    (set_p_sz sz (set_p_pgdir pgdir (set_p_name (name_copy (p_name p) (last_component path path) 16) p))).

Lemma exec_commit_eq g i p path pgdir sz entry sp sz0 um0 s :
  kctx [] s → k_cur s = Some i → k_procs s !! i = Some p → p_kstack p ≠ 0 → pgdir ≠ 0 →
  vm_inv g (k_mem s) → g !! p_pgdir p = Some (OSpace sz0 um0) →
  let p' := committed path pgdir sz entry sp p in
  ∃ w, exec_commit path pgdir sz entry sp s = Done 0 (set_k_mem w (loaded p' (with_proc i p' s))) ∧
    vm_inv (delete (p_pgdir p) g) w.
Proof.
  intros Hc Hcur Hp Hks Hpd Hinv Hg p'. pose proof (lookup_lt_Some _ _ _ Hp) as Hlt.
  destruct (vm_freevm_ok g (k_mem s) (p_pgdir p) sz0 um0 Hinv Hg) as (w & Hf & Hinv').
  exists w. split; [|done]. unfold exec_commit. mstep.
  rewrite (set_cur_at i _ p) by done. mstep.
  rewrite (cur_with i) by done. mstep.
  do 4 (rewrite (set_cur_with i) by done; mstep). rewrite (myproc_eq i) by done. mstep.
  match goal with |- context [switchuvm i ?st] => change st with (with_proc i p' s) end.
  destruct (switchuvm_free i p' (with_proc i p' s)) as [-> _]; [by apply with_proc_kctx|by apply with_proc_lookup|done..|].
  mstep. unfold freevm. rewrite (lift_eq _ tt w) by done. done.
Qed.

Lemma exec_bad_eq g pgdir sz um s :
  vm_inv g (k_mem s) → g !! pgdir = Some (OSpace sz um) → pgdir ≠ 0 →
  ∃ w, exec_bad pgdir None s = Done (-1) (set_k_mem w s) ∧ vm_inv (delete pgdir g) w.
Proof.
  intros Hinv Hg Hpd. destruct (vm_freevm_ok g (k_mem s) pgdir sz um Hinv Hg) as (w & Hf & Hinv'). exists w. split; [|done].
  unfold exec_bad. mstep. destruct (Z.eqb_spec pgdir 0); [done|]. cbn [negb when]. unfold freevm. by rewrite (lift_eq _ tt w).
Qed.

Lemma roundup_bounds sz : 0 ≤ sz < KERNBASE → sz ≤ PGROUNDUP sz ≤ KERNBASE ∧ PGROUNDUP sz mod 4096 = 0.
Proof.
  unfold KERNBASE. intros Hsz. rewrite PGROUNDUP_down, u32_id by lia. Z.div_mod_to_equations. lia.
Qed.

(** The two pages [exec] adds: the upper one is accessible after the lower one is not. *)
Lemma guard_page g pgdir sz um s :
  let sz1 := PGROUNDUP sz + 2 * PGSIZE in
  vm_inv g (k_mem s) → g !! pgdir = Some (OSpace sz1 um) → 0 ≤ sz < KERNBASE →
  (∀ x, PGROUNDUP sz ≤ x < sz1 → vm_user (k_mem s) pgdir x = true) →
  ∃ w, clearpteu pgdir (u32 (sz1 - 2 * PGSIZE)) s = Done tt (set_k_mem w s) ∧ vm_inv g w ∧
    ∀ x, sz1 - PGSIZE ≤ x < sz1 → vm_user w pgdir x = true.
Proof.
  intros sz1 Hinv Hg Hsz Hu. destruct (roundup_bounds sz Hsz) as [Hb Hm]. unfold KERNBASE, sz1 in *. change PGSIZE with 4096 in *.
  rewrite u32_id by lia. replace (PGROUNDUP sz + 2 * 4096 - 2 * 4096) with (PGROUNDUP sz) by lia.
  destruct (vm_clearpteu_ok g (k_mem s) pgdir _ um (PGROUNDUP sz) Hinv Hg) as (w & Hop & Hinv' & Hus); [lia|].
  exists w. split; [by apply lift_eq|]. split; [done|]. intros x Hx. rewrite Hus; [apply Hu; lia|lia|].
  change PGSIZE with 4096. Z.div_mod_to_equations. lia.
Qed.

(** C38: The last step of [exec] starts the program with the stack its
    [main(argc, argv)] expects.  The new image, [sz] bytes in [pgdir], gets a guard
    page and a stack page.  When the arguments fit in that page, [exec] returns 0
    unless there are more than MAXARG of them or [allocuvm] runs out of memory: the
    process then runs in [pgdir] at [entry], the bytes below [sz] are those loaded,
    the stack pointer is in the stack page and has there a return address, [argc],
    the address of the null-terminated [argv] array and the strings it points to, and
    the old address space is freed.  Otherwise it returns -1, frees [pgdir], and the
    process keeps its image. *)
Theorem exec_image_spec g i p path argv pgdir sz um sz0 um0 entry s :
  kctx [] s → vm_inv g (k_mem s) → k_cur s = Some i → k_procs s !! i = Some p → p_kstack p ≠ 0 →
  g !! p_pgdir p = Some (OSpace sz0 um0) → g !! pgdir = Some (OSpace sz um) → pgdir ≠ p_pgdir p → pgdir ≠ 0 →
  0 ≤ sz < KERNBASE → Forall byte_string argv → need argv + 4 * Z.of_nat (length argv + 4) ≤ PGSIZE →
  let sz1 := PGROUNDUP sz + 2 * PGSIZE in
  (∃ w, exec_image path argv pgdir sz entry s = Done (-1) (set_k_mem w s) ∧ vm_inv (delete pgdir g) w ∧
     ((MAXARG < length argv)%nat ∨ ∃ w1, vm_allocuvm pgdir (PGROUNDUP sz) sz1 (k_mem s) = inr (0, w1))) ∨
  ((length argv ≤ MAXARG)%nat ∧ ∃ sp um' w, let p' := committed path pgdir sz1 entry sp p in
     exec_image path argv pgdir sz entry s = Done 0 (set_k_mem w (loaded p' (with_proc i p' s))) ∧
     vm_inv (<[pgdir := OSpace sz1 um']> (delete (p_pgdir p) g)) w ∧
     sz1 - PGSIZE ≤ sp ∧ main_stack um' sp sz1 argv ∧ ∀ va, 0 ≤ va < sz → um' va = um va).
Proof.
  intros Hc Hinv Hcur Hp Hks Hg0 Hg Hne Hpd Hsz Hb Hn sz1. destruct (roundup_bounds sz Hsz) as [Hup _].
  assert (sz1 < 2^32 ∧ u32 sz1 = sz1) as [Hmax Eu] by (unfold sz1, PGSIZE, KERNBASE in *; rewrite u32_id; lia).
  destruct (vm_allocuvm_ok g (k_mem s) pgdir sz um (PGROUNDUP sz) sz1) as (r & w1 & Hal & Hr);
    [done|done|by right|unfold sz1, PGSIZE; lia|done|].
  unfold exec_image. cbn zeta. fold sz1. rewrite Eu. mstep. unfold allocuvm. rewrite (lift_eq _ r w1) by done. mstep.
  destruct Hr as [[-> Hinv1]|(-> & Hk & Hu1 & um1 & [Hlow _] & Hinv1)].
  { left. destruct (exec_bad_eq g pgdir sz um (set_k_mem w1 s)) as (w & He & Hw); [done..|]. exists w. cbn [Z.eqb].
    rewrite He. split; [done|]. split; [done|]. right. by exists w1. }
  destruct (Z.eqb_spec sz1 0); [unfold sz1, PGSIZE in *; lia|]. set (g1 := <[pgdir := OSpace sz1 um1]> g) in *.
  assert (g1 !! pgdir = Some (OSpace sz1 um1)) as Hg1 by (apply lookup_insert_eq).
  destruct (guard_page g1 pgdir sz um1 (set_k_mem w1 s)) as (w2 & Hcl & Hinv2 & Hu2); [done|done|done|intros x Hx; apply Hu1; lia|].
  fold sz1 in Hcl, Hu2. mstep. rewrite Hcl. mstep.
  destruct (exec_stack_spec pgdir sz1 (sz1 - PGSIZE) argv g1 um1 (set_k_mem w2 s)) as (r & w3 & um3 & Hst & Hinv3 & Hr);
    [done|done|unfold sz1, PGSIZE; lia|done|done|done|lia|].
  change (set_k_mem w2 (set_k_mem w1 s)) with (set_k_mem w2 s). rewrite Hst. mstep.
  unfold g1 in Hinv3. rewrite insert_insert_eq in Hinv3. case_decide as Hargs.
  - right. split; [done|]. destruct Hr as (sp & -> & Hsp & Hmain & Hbelow).
    destruct (exec_commit_eq (<[pgdir := OSpace sz1 um3]> g) i p path pgdir sz1 entry sp sz0 um0 (set_k_mem w3 s)) as (w & He & Hw);
      [by apply (kctx_frame _ s)|done|done|done|done|done|by rewrite lookup_insert_ne|].
    exists sp, um3, w. split; [exact He|]. rewrite delete_insert_ne in Hw by done. split_and!; [done|done|done|].
    intros va Hva. rewrite Hbelow by (unfold sz1, PGSIZE in *; lia). by apply Hlow.
  - left. subst r. destruct (exec_bad_eq (<[pgdir := OSpace sz1 um3]> g) pgdir sz1 um3 (set_k_mem w3 s)) as (w & He & Hw);
      [done|apply lookup_insert_eq|done|]. exists w. split; [exact He|]. rewrite delete_insert_eq in Hw. split; [done|]. left. lia.
Qed.

End Image.

(** A process that loads a program of 100 bytes into the space at 0x90000000. *)
Module ExecDemo.
Definition world : gmap Z vobj := <[2415919104 := OSpace 100 Flat.zeros]> Syscall.Demo.world.
Definition st : kst (gmap Z vobj) := Sched.Demo.mk Syscall.Demo.locks ∅ world.

Lemma exec_demo_inv : vm_inv world (k_mem st).
Proof.
  split; [done|]. apply Flat.objs_ok_insert; [apply (proj1 Syscall.Demo.syscall_st_user)|].
  intros sz um [= <- <-] x. unfold Flat.zeros. lia.
Qed.
Lemma exec_demo_run : kctx [] st.
Proof.
  eapply kr_ctx, (Sched.Demo.mk_krun [L_tickslock] Syscall.Demo.locks ∅ world).
  - apply map_Forall_insert_2; [done|]. by apply map_Forall_singleton.
  - intros l Hl. apply list_elem_of_In in Hl as [<-|[<-|[]]]; by eexists.
Qed.
End ExecDemo.

Lemma exec_image_spec_witness : ∃ sp um' w s',
  exec_image [108; 115] [[108; 115]; [45; 108]] 2415919104 100 0 ExecDemo.st = Done 0 s' ∧
  vm_inv (<[2415919104 := OSpace 12288 um']> (delete (p_pgdir Sched.Demo.p1) ExecDemo.world)) w ∧
  8192 ≤ sp ∧ main_stack um' sp 12288 [[108; 115]; [45; 108]].
Proof.
  destruct (exec_image_spec ExecDemo.world 0 Sched.Demo.p1 [108; 115] [[108; 115]; [45; 108]] 2415919104 100 Flat.zeros
    4096 Syscall.Demo.um 0 ExecDemo.st) as [(w & _ & _ & H)|(_ & sp & um' & w & H1 & H2 & H3 & H4 & _)].
  - exact ExecDemo.exec_demo_run.
  - exact ExecDemo.exec_demo_inv.
  - reflexivity.
  - reflexivity.
  - done.
  - reflexivity.
  - reflexivity.
  - done.
  - done.
  - unfold KERNBASE. lia.
  - repeat constructor; lia.
  - unfold need, PGSIZE. cbn. lia.
  - exfalso. destruct H as [H|[w1 H]]; [cbn in H; lia|].
    apply (f_equal (λ r, match r with inr (a, _) => a | inl _ => 0 end)) in H. vm_compute in H. discriminate.
  - eexists sp, um', w, _. split; [exact H1|]. split; [exact H2|]. split; [exact H3|exact H4].
Defined.
