(* ===== verification/Trap.v ===== *)
(** trap.c, trapasm.S and the dispatcher of syscall.c: what happens between the
    moment a user program (or the kernel) is interrupted and the moment it goes on.
    The device handlers a trap may call are the operations of [DevOps]. *)
From S2P Require Import Prelude Mem Str KState Spinlock Sched Services Pipe File Proc Signal.
From S2P Require Import Syscall Sysfile Exec.

(** * traps.h, mmu.h *)
Abbreviation T_SYSCALL := 64 (only parsing).
Abbreviation T_IRQ0 := 32 (only parsing).
Abbreviation IRQ_TIMER := 0 (only parsing).
Abbreviation IRQ_KBD := 1 (only parsing).
Abbreviation IRQ_COM1 := 4 (only parsing).
Abbreviation IRQ_IDE := 14 (only parsing).
Abbreviation IRQ_SPURIOUS := 31 (only parsing).
Definition SEG_KCODE : Z := 1.
Definition STS_IG32 : Z := 14.
Definition STS_TG32 : Z := 15.

(** struct gatedesc *)
Record gatedesc := mkGate {
  g_off_15_0 : Z;
  g_cs : Z;
  g_args : Z;
  g_rsv1 : Z;
  g_type : Z;
  g_s : Z;
  g_dpl : Z;
  g_p : Z;
  g_off_31_16 : Z;
}.
Definition SETGATE (istrap : bool) (sel off d : Z) : gatedesc :=
  mkGate (Z.land off 65535) (u16 sel) 0 0 (if istrap then STS_TG32 else STS_IG32) 0 d 1
    (Z.shiftr off 16).

(** What the device drivers and the local APIC do on an interrupt. *)
Class DevOps (W : Type) := {
  dev_ideintr : M (kst W) unit;
  dev_kbdintr : M (kst W) unit;
  dev_uartintr : M (kst W) unit;
  dev_lapiceoi : M (kst W) unit;
  dev_rcr2 : kst W → Z;   (* the register that holds the faulting address *)
}.

Section Trap.
Context {W : Type} {VO : VmOps W} {FO : FsOps W} {SG : SigOps W} {DO : DevOps W}.
Variable forkret_addr : Z.      (* address of the code of forkret *)
Variable junk : trapframe.      (* contents of a fresh kernel stack *)
Variable pipe_junk : list Z.    (* contents of a fresh page *)
Variable fuel : nat.            (* bound on the loops that wait for other processes *)

(** The interrupt descriptor table: [vectors] are the entry points of vectors.S. *)
Definition idt_init (vectors : nat → Z) : list gatedesc :=
  <[Z.to_nat T_SYSCALL := SETGATE true (Z.shiftl SEG_KCODE 3) (vectors (Z.to_nat T_SYSCALL)) DPL_USER]>
    ((λ i, SETGATE false (Z.shiftl SEG_KCODE 3) (vectors i) 0) <$> seq 0 256).
Definition tvinit (vectors : nat → Z) : M (kst W) (list gatedesc) :=
  initlock L_tickslock "time" ;;; ret (idt_init vectors).

(** ** syscall.c *)
Definition syscalls : list (option (M (kst W) Z)) :=
  [ None;
    Some (sys_fork forkret_addr junk);
    Some sys_exit;
    Some (sys_wait fuel);
    Some (sys_pipe pipe_junk);
    Some (sys_read fuel);
    Some sys_kill;
    Some (sys_exec exec);
    Some sys_fstat;
    Some sys_chdir;
    Some sys_dup;
    Some sys_getpid;
    Some sys_sbrk;
    Some (sys_sleep fuel);
    Some sys_uptime;
    Some sys_open;
    Some (sys_write fuel);
    Some sys_mknod;
    Some sys_unlink;
    Some sys_link;
    Some sys_mkdir;
    Some sys_close;
    Some sys_signal;
    Some sys_sigsend;
    Some sys_sigreturn;
    Some sys_alarm ].

(** [num > 0 && num < NELEM(syscalls) && syscalls[num]] *)
Definition handler (num : Z) : option (M (kst W) Z) :=
  if (0 <? num) && (num <? Z.of_nat (length syscalls)) then mjoin (syscalls !! Z.to_nat num) else None.

Definition set_eax (v : Z) : M (kst W) unit := set_cur (λ p, set_p_tf (set_tf_eax (u32 v) (p_tf p)) p).

Definition syscall : M (kst W) unit :=
  p <- cur ;;
  let num := s32 (tf_eax (p_tf p)) in
  match handler num with
  | Some f => r <- f ;; set_eax r
  | None =>
    cprintf "%d %s: unknown sys call %d\n" ([p_pid p] ++ p_name p ++ [num]) ;;;
    set_eax (-1)
  end.

(** ** trap.c *)

(** [if(proc && proc->killed && ...) exit();] *)
Definition exit_if_killed : M (kst W) unit :=
  o <- gets k_cur ;;
  match o with
  | None => ret tt
  | Some i => p <- proc_at i ;; when (negb (p_killed p =? 0)) exit
  end.

(** [case T_IRQ0 + IRQ_TIMER] *)
Definition timer_intr : M (kst W) unit :=
  id <- gets k_cpuid ;;
  when (Nat.eqb id 0) (
    acquire L_tickslock ;;;
    modify (λ s, set_k_ticks (u32 (k_ticks s + 1)) s) ;;;
    sg_update ;;;
    wakeup C_ticks ;;;
    release L_tickslock) ;;;
  dev_lapiceoi.

(** [default:] of the switch. *)
Definition unexpected (tf : trapframe) : M (kst W) unit :=
  o <- gets k_cur ;;
  id <- gets (λ s, Z.of_nat (k_cpuid s)) ;;
  cr2 <- gets dev_rcr2 ;;
  match o with
  | Some i =>
    if Z.land (tf_cs tf) 3 =? 0 then
      cprintf "unexpected trap %d from cpu %d eip %x (cr2=0x%x)\n" [tf_trapno tf; id; tf_eip tf; cr2] ;;;
      panic "trap"
    else
      p <- proc_at i ;;
      cprintf "pid %d %s: trap %d err %d on cpu %d eip 0x%x addr 0x%x--kill proc\n"
        ([p_pid p] ++ p_name p ++ [tf_trapno tf; tf_err tf; id; tf_eip tf; cr2]) ;;;
      set_proc i (set_p_killed 1)
  | None =>
    cprintf "unexpected trap %d from cpu %d eip %x (cr2=0x%x)\n" [tf_trapno tf; id; tf_eip tf; cr2] ;;;
    panic "trap"
  end.

Definition trap_switch (tf : trapframe) : M (kst W) unit :=
  let n := tf_trapno tf in
  if n =? T_IRQ0 + IRQ_TIMER then timer_intr
  else if n =? T_IRQ0 + IRQ_IDE then dev_ideintr ;;; dev_lapiceoi
  else if n =? T_IRQ0 + IRQ_IDE + 1 then ret tt
  else if n =? T_IRQ0 + IRQ_KBD then dev_kbdintr ;;; dev_lapiceoi
  else if n =? T_IRQ0 + IRQ_COM1 then dev_uartintr ;;; dev_lapiceoi
  else if (n =? T_IRQ0 + 7) || (n =? T_IRQ0 + IRQ_SPURIOUS) then
    id <- gets (λ s, Z.of_nat (k_cpuid s)) ;;
    cprintf "cpu%d: spurious interrupt at %x:%x\n" [id; tf_cs tf; tf_eip tf] ;;;
    dev_lapiceoi
  else unexpected tf.

(** What follows the switch. *)
Definition trap_end (tf : trapframe) : M (kst W) unit :=
  let user := Z.land (tf_cs tf) 3 =? DPL_USER in
  when user exit_if_killed ;;;
  o <- gets k_cur ;;
  match o with
  | None => ret tt
  | Some i =>
    p <- proc_at i ;;
    when (bool_decide (p_state p = RUNNING) && (tf_trapno tf =? T_IRQ0 + IRQ_TIMER)) yield
  end ;;;
  when user exit_if_killed.

Definition trap_syscall (tf : trapframe) : M (kst W) unit :=
  p <- cur ;;
  when (negb (p_killed p =? 0)) exit ;;;
  set_cur (set_p_tf tf) ;;;
  syscall ;;;
  p <- cur ;;
  when (negb (p_killed p =? 0)) exit.

Definition trap (tf : trapframe) : M (kst W) unit :=
  if tf_trapno tf =? T_SYSCALL then trap_syscall tf
  else trap_switch tf ;;; trap_end tf.

(** ** trapasm.S

    On a trap from user mode the frame is pushed at the top of the kernel stack of
    the current process, which is where [proc->tf] points; in kernel mode it is
    pushed below what the kernel has there.  [trapret] leaves through the frame its
    stack pointer points to: the result is what [iret] loads. *)
Definition trapret (user : bool) (tf : trapframe) : M (kst W) trapframe :=
  t <- (if user then p <- cur ;; ret (p_tf p) else ret tf) ;;
  sg_check t ;;;
  if user then p <- cur ;; ret (p_tf p) else ret tf.

Definition alltraps (tf : trapframe) : M (kst W) trapframe :=
  let user := Z.land (tf_cs tf) 3 =? DPL_USER in
  when user (set_cur (set_p_tf tf)) ;;;
  trap tf ;;;
  trapret user tf.

End Trap.

Arguments exit : simpl never.
Arguments yield : simpl never.
Arguments syscall : simpl never.
Arguments set_eax : simpl never.

(** * Leaving the kernel *)

(** [returns r Q]: whenever and however the computation comes back, it does so with
    [Q]; other code may run, and do anything, wherever it gives up the CPU. *)
Fixpoint returns {St A} (r : res St A) (Q : A → St → Prop) : Prop :=
  match r with
  | Done a s => Q a s
  | Switch _ k => ∀ s', returns (k s') Q
  | _ => True
  end.

Lemma returns_bind {St A B} (r : res St A) (f : A → M St B) P Q :
  returns r P → (∀ a s, P a s → returns (f a s) Q) → returns (rbind r f) Q.
Proof. intros Hr Hf. induction r; cbn in *; auto. Qed.

Lemma returns_mono {St A} (r : res St A) (P Q : A → St → Prop) :
  returns r P → (∀ a s, P a s → Q a s) → returns r Q.
Proof. intros Hr HPQ. induction r; cbn in *; auto. Qed.

Lemma returns_any {St A B} (r : res St A) (f : A → M St B) Q :
  (∀ a s, returns (f a s) Q) → returns (rbind r f) Q.
Proof. intros Hf. induction r; cbn; auto. Qed.

Section Return.
Context {W : Type} {VO : VmOps W} {FO : FsOps W} {SG : SigOps W} {DO : DevOps W}.
Implicit Types s : kst W.

Lemma exit_no_return s : returns (exit s) (λ _ _, False).
Proof.
  unfold exit. cbn [bind]. apply returns_any. intros me s1. cbn [bind gets rbind].
  do 3 (apply returns_any; intros ? ?). unfold exit_tail. cbn [bind].
  do 3 (apply returns_any; intros ? ?). done.
Qed.

(** The current process, if there is one, has not been killed. *)
Definition alive (s : kst W) : Prop :=
  ∀ i p, k_cur s = Some i → k_procs s !! i = Some p → p_killed p = 0.

Lemma exit_when_killed i p s :
  k_cur s = Some i → k_procs s !! i = Some p →
  returns (when (negb (p_killed p =? 0)) exit s) (λ _, alive).
Proof.
  intros Hc Hp. destruct (Z.eqb_spec (p_killed p) 0); cbn [negb when].
  - intros i' p' Hi Hp'. by simplify_eq.
  - eapply returns_mono; [apply exit_no_return|done].
Qed.

Lemma proc_at_returns i s : returns (proc_at i s) (λ p s', s' = s ∧ k_procs s !! i = Some p).
Proof. unfold proc_at. mstep. by destruct (k_procs s !! i). Qed.

Lemma cur_returns s :
  returns (cur s) (λ p s', s' = s ∧ ∃ i, k_cur s = Some i ∧ k_procs s !! i = Some p).
Proof.
  unfold cur, myproc. mstep. destruct (k_cur s) as [i|]; mstep; [|done].
  eapply returns_mono; [apply proc_at_returns|]. intros p s' [-> Hp]. eauto.
Qed.

Lemma exit_if_killed_returns s : returns (exit_if_killed s) (λ _, alive).
Proof.
  unfold exit_if_killed. mstep. destruct (k_cur s) as [i|] eqn:Hc; mstep; [|intros i p Hi _; congruence].
  eapply returns_bind; [apply proc_at_returns|]. intros p s' [-> Hp]. by apply (exit_when_killed i).
Qed.

Variables (forkret_addr : Z) (junk : trapframe) (pipe_junk : list Z) (fuel : nat).
Abbreviation ktrap := (trap forkret_addr junk pipe_junk fuel).

(** The numbers [trap] has a case for. *)
Definition expected (n : Z) : bool :=
  (n =? T_SYSCALL) || existsb (Z.eqb n)
    [T_IRQ0 + IRQ_TIMER; T_IRQ0 + IRQ_IDE; T_IRQ0 + IRQ_IDE + 1; T_IRQ0 + IRQ_KBD; T_IRQ0 + IRQ_COM1;
     T_IRQ0 + 7; T_IRQ0 + IRQ_SPURIOUS].

Lemma unexpected_switch tf s : expected (tf_trapno tf) = false →
  ktrap tf s = (unexpected tf ;;; trap_end tf) s.
Proof.
  unfold expected. cbn [existsb]. intros E. repeat (apply orb_false_iff in E as [? E]).
  unfold trap, trap_switch. cbn zeta.
  repeat match goal with H : (_ =? _) = false |- _ => rewrite H; clear H end. done.
Qed.

(** C28: A trap from user space goes back to user space only if the process has not
    been killed, whatever the trap was, whatever state the kernel was in and
    whatever ran while the process was off the CPU.  In particular a process that
    causes an exception the kernel does not expect never runs user code again. *)
Theorem trap_returns_alive tf s :
  Z.land (tf_cs tf) 3 = DPL_USER →
  returns (ktrap tf s) (λ _ s', alive s' ∧ expected (tf_trapno tf) = true).
Proof.
  intros Hu. destruct (expected (tf_trapno tf)) eqn:E.
  - eapply (returns_mono _ (λ _, alive)); [|done]. unfold trap.
    destruct (tf_trapno tf =? T_SYSCALL).
    + unfold trap_syscall. mstep. do 4 (apply returns_any; intros ? ?; mstep).
      eapply returns_bind; [apply cur_returns|]. intros p s' (-> & i & Hi & Hp).
      by apply (exit_when_killed i).
    + mstep. apply returns_any. intros _ s1. unfold trap_end. cbn zeta. rewrite Hu, Z.eqb_refl. cbn [when].
      mstep. apply returns_any. intros _ s2. mstep. apply returns_any. intros _ s3. mstep.
      apply exit_if_killed_returns.
  - rewrite (unexpected_switch _ _ E). unfold unexpected. mstep.
    destruct (k_cur s) as [i|] eqn:Hc; mstep; [|done]. rewrite Hu. cbn [DPL_USER Z.eqb].
    eapply returns_bind; [eapply returns_bind; [apply proc_at_returns|]|].
    { intros p s1 [-> Hp]. mstep.
      instantiate (1 := λ _ s', ∃ p, k_cur s' = Some i ∧ k_procs s' !! i = Some p ∧ p_killed p = 1).
      unfold cprintf. mstep. rewrite (set_proc_eq i _ p) by done. cbn [returns].
      exists (set_p_killed 1 p). split; [done|]. split; [|done].
      apply with_proc_lookup. by apply (lookup_lt_Some _ _ p). }
    intros _ s1 (p & Hc1 & Hp & Hk). unfold trap_end. cbn zeta. rewrite Hu, Z.eqb_refl. cbn [when]. mstep.
    eapply returns_bind with (P := λ _ _, False); [|done].
    unfold exit_if_killed. mstep. rewrite Hc1. mstep. rewrite (proc_at_eq i p) by done. mstep.
    rewrite Hk. apply exit_no_return.
Qed.
End Return.

(** * Signals through the system call path *)
Section SigreturnCall.
Context {W : Type} {VO : VmOps W} {VL : VmLaws W} {FO : FsOps W} {DO : DevOps W}.
Implicit Types s : kst W.
Variable wrapper : list Z.
Variables (forkret_addr : Z) (junk : trapframe) (pipe_junk : list Z) (fuel : nat).
#[local] Instance SG : SigOps W := head_sig wrapper.
Abbreviation ktrap := (trap forkret_addr junk pipe_junk fuel).

Lemma set_eax_eq me p v s :
  k_cur s = Some me → k_procs s !! me = Some p →
  set_eax v s = Done tt (with_proc me (set_p_tf (set_tf_eax (u32 v) (p_tf p)) p) s).
Proof. intros Hc Hp. unfold set_eax. by rewrite (set_cur_at me _ p). Qed.

(** [sigreturn] as a system call does not give back the interrupted program's
    %eax: the frame saved on the user stack is restored, and then [syscall] stores
    the result of [sys_sigreturn], zero, in it. *)
Theorem sigreturn_loses_eax g me p um tf s :
  kctx [] s → is_Some (k_locks s !! L_ptable) → user_mem g me p um s → p_killed p = 0 →
  tf_trapno tf = T_SYSCALL → tf_eax tf = 24 →
  0 ≤ tf_ebp tf → tf_ebp tf + 84 ≤ p_sz p → p_sz p < 2^32 →
  ∃ s' p', ktrap tf s = Done tt s' ∧ k_procs s' !! me = Some p' ∧
    p_tf p' = set_tf_eax 0 (tf_of_bytes (bytes um (tf_ebp tf + 8) tf_size)).
Proof.
  intros Hc Hl Hu Hk Ht Ha H0 H1 Hsz. pose proof Hu as (Hg & Hcur & Hp & Hgp).
  pose proof (lookup_lt_Some _ _ _ Hp) as Hlt.
  unfold trap. rewrite Ht, Z.eqb_refl. unfold trap_syscall. mstep.
  rewrite (cur_eq me p) by done. mstep. rewrite Hk. cbn [Z.eqb negb when]. mstep.
  rewrite (set_cur_at me _ p) by done. mstep. set (p1 := set_p_tf tf p). set (s1 := with_proc me p1 s).
  assert (Hp1 : k_procs s1 !! me = Some p1) by (by apply with_proc_lookup).
  unfold syscall. mstep. rewrite (cur_eq me p1) by done. mstep. cbn [p_tf p1 set_p_tf]. rewrite Ha.
  change (handler forkret_addr junk pipe_junk fuel (s32 24)) with (Some (Head.sigreturn (W:=W))). mstep.
  rewrite (sigreturn_eq [] g me p1 um); [|by apply with_proc_kctx|set_solver|done|done|done..]. mstep.
  assert (Hlt1 : (me < length (k_procs (quiet s1)))%nat) by (by eapply lookup_lt_Some).
  set (p2 := set_p_isHandlingsignal 0 _). rewrite (set_eax_eq me p2) by (done || by apply with_proc_lookup).
  mstep. rewrite with_proc_twice, cur_with by done. mstep.
  cbn [p_killed set_p_tf p2 set_p_isHandlingsignal p1]. rewrite Hk. cbn [Z.eqb negb when].
  eexists _, _. split; [done|]. split; [by apply with_proc_lookup|]. done.
Qed.
End SigreturnCall.

(** * The timer interrupt *)
Section Timer.
Context {W : Type} {VO : VmOps W} {FO : FsOps W} {DO : DevOps W}.
Implicit Types s : kst W.
Variable wrapper : list Z.
Variables (forkret_addr : Z) (junk : trapframe) (pipe_junk : list Z) (fuel : nat).
#[local] Instance SG' : SigOps W := head_sig wrapper.
Abbreviation ktrap := (trap forkret_addr junk pipe_junk fuel).

(** The state after one tick: the clock, every alarm and every sleeper on the clock. *)
Definition ticked (s : kst W) : kst W :=
  set_k_cpu (cpu_norm (k_cpu s))
    (set_k_ticks (u32 (k_ticks s + 1)) (set_k_procs (wake C_ticks <$> (tick <$> k_procs s)) s)).

Lemma held_norm l held s : kctx (l :: held) s → set_k_cpu (cpu_norm (k_cpu s)) s = s.
Proof.
  intros Hc. pose proof (kc_ncli _ _ Hc) as Hn. cbn in Hn. unfold cpu_norm.
  destruct (Z.eqb_spec (c_ncli (k_cpu s)) 0); [lia|]. by destruct s.
Qed.

Lemma timer_eq held s :
  (∀ s, dev_lapiceoi s = Done tt s) →
  kctx held s → L_ptable ∉ held → L_tickslock ∉ held → k_cpuid s = 0%nat →
  is_Some (k_locks s !! L_ptable) → is_Some (k_locks s !! L_tickslock) → ptable_wf s →
  alarms_ok (k_procs s) → timer_intr s = Done tt (ticked s).
Proof.
  intros Heoi Hc Hn1 Hn2 Hid Hi1 Hi2 Hwf Ha. unfold timer_intr. mstep. rewrite Hid. cbn [Nat.eqb when]. mstep.
  destruct (acquire_kctx held L_tickslock s) as [-> Hc1]; [done..|]. mstep.
  set (s1 := set_k_ticks _ (acquired L_tickslock s)).
  assert (Hc2 : kctx (L_tickslock :: held) s1) by (by apply (kctx_frame _ (acquired L_tickslock s))).
  assert (Hi3 : is_Some (k_locks s1 !! L_ptable)).
  { cbn. unfold upd_lock. cbn. by rewrite lookup_insert_ne by done. }
  cbn [sg_update SG' head_sig]. rewrite (updateAlarms_eq (L_tickslock :: held));
    [|done|set_solver|done|by apply (wf_len _ Hwf)|exact (wf_uniq _ Hwf)|done].
  mstep. unfold quiet. rewrite (held_norm _ _ _ Hc2).
  assert (Hc3 : kctx (L_tickslock :: held) (set_k_procs (tick <$> k_procs s1) s1)) by (by apply kctx_procs).
  rewrite (wakeup_eq (L_tickslock :: held)); [|done|set_solver|done|cbn; rewrite length_fmap; by apply (wf_len _ Hwf)].
  mstep. change (k_procs (set_k_procs _ _)) with (tick <$> k_procs s).
  set (s2 := set_k_procs (wake C_ticks <$> _) _).
  assert (Hc4 : kctx (L_tickslock :: held) s2) by (by apply kctx_procs).
  change (k_cpu (set_k_procs _ s1)) with (k_cpu s2). rewrite (held_norm _ _ _ Hc4).
  destruct (release_kctx held L_tickslock s2 Hc4) as [-> _]. mstep. rewrite Heoi. f_equal.
  change (released L_tickslock s2) with (set_k_procs (wake C_ticks <$> (tick <$> k_procs s))
    (set_k_ticks (u32 (k_ticks s + 1)) (released L_tickslock (acquired L_tickslock s)))).
  rewrite released_acquired; [done|by eapply kctx_free|by eapply kctx_cpu_wf].
Qed.

Lemma tick_same p : p_state (tick p) = p_state p ∧ p_killed (tick p) = p_killed p.
Proof. unfold tick. destruct (0 <? p_alarmFlag p); [|done]. by destruct (_ =? 0). Qed.

Lemma ticked_kctx held s : kctx held s → kctx held (ticked s).
Proof.
  intros Hc. apply (kctx_norm _ (set_k_ticks (u32 (k_ticks s + 1)) (set_k_procs _ s))).
  by apply (kctx_frame _ s).
Qed.

(** C29: A timer interrupt on CPU 0 advances the clock by one, counts every alarm
    down by one tick (with SIGALRM made pending where it reaches zero), wakes
    exactly the processes that sleep on the clock and leaves the locks as they
    were; then a process that was running yields, and an idle CPU goes back to its
    scheduler.  [lapiceoi] only talks to the interrupt controller. *)
Theorem timer_tick held tf s :
  (∀ s, dev_lapiceoi s = Done tt s) →
  kctx held s → L_ptable ∉ held → L_tickslock ∉ held → k_cpuid s = 0%nat →
  is_Some (k_locks s !! L_ptable) → is_Some (k_locks s !! L_tickslock) → ptable_wf s →
  alarms_ok (k_procs s) → tf_trapno tf = T_IRQ0 + IRQ_TIMER →
  ktrap tf s = trap_end tf (ticked s) ∧ kctx held (ticked s) ∧
  (k_cur s = None → ktrap tf s = Done tt (ticked s)) ∧
  (∀ i p, k_cur s = Some i → k_procs s !! i = Some p → p_state p = RUNNING → p_killed p = 0 →
    ktrap tf s = (yield ;;; when (Z.land (tf_cs tf) 3 =? DPL_USER) exit_if_killed) (ticked s)).
Proof.
  intros Heoi Hc Hn1 Hn2 Hid Hi1 Hi2 Hwf Ha Ht.
  assert (E : ktrap tf s = trap_end tf (ticked s)).
  { unfold trap. rewrite Ht. change (T_IRQ0 + IRQ_TIMER =? T_SYSCALL) with false. cbn iota. mstep.
    unfold trap_switch. rewrite Ht, Z.eqb_refl. by rewrite (timer_eq held). }
  split; [done|]. split; [by apply ticked_kctx|]. rewrite E. unfold trap_end. cbn zeta. mstep. split.
  - intros Hcur. assert (E2 : ∀ b, when b exit_if_killed (ticked s) = Done tt (ticked s)).
    { intros []; [|done]. unfold exit_if_killed, when. mstep.
      change (k_cur (ticked s)) with (k_cur s). by rewrite Hcur. }
    rewrite E2. mstep. change (k_cur (ticked s)) with (k_cur s). rewrite Hcur. mstep. apply E2.
  - intros i p Hcur Hp Hst Hk.
    assert (Hp' : ∃ q, k_procs (ticked s) !! i = Some q ∧ p_state q = RUNNING ∧ p_killed q = 0).
    { destruct (tick_same p) as [Es Ek]. exists (tick p). rewrite Es, Ek. split; [|done].
      cbn. rewrite !list_lookup_fmap, Hp. cbn. rewrite wake_running; [done|by rewrite Es]. }
    destruct Hp' as (q & Hq & Hqs & Hqk).
    assert (E1 : exit_if_killed (ticked s) = Done tt (ticked s)).
    { unfold exit_if_killed. mstep. change (k_cur (ticked s)) with (k_cur s). rewrite Hcur. mstep.
      rewrite (proc_at_eq i q) by done. mstep. by rewrite Hqk. }
    assert (E2 : when (Z.land (tf_cs tf) 3 =? DPL_USER) exit_if_killed (ticked s) = Done tt (ticked s)).
    { unfold when. by destruct (_ =? DPL_USER). }
    rewrite E2. mstep. change (k_cur (ticked s)) with (k_cur s). rewrite Hcur. mstep.
    rewrite (proc_at_eq i q) by done. mstep. rewrite Hqs, Ht, Z.eqb_refl. done.
Qed.
End Timer.

(** * Concrete traps, with devices that do nothing *)
Module Demo.
#[global] Instance dev : DevOps (gmap Z vobj) := {|
  dev_ideintr := ret tt; dev_kbdintr := ret tt; dev_uartintr := ret tt; dev_lapiceoi := ret tt;
  dev_rcr2 := λ _, 0 |}.
#[global] Instance sig : SigOps (gmap Z vobj) := head_sig Signal.Demo.wrapper.
Definition fault : trapframe := set_tf_trapno 14 (set_tf_cs 35 tf0).
Definition sigret : trapframe := set_tf_trapno 64 (set_tf_eax 24 (set_tf_ebp 1000 (set_tf_cs 35 tf0))).
Definition timer : trapframe := set_tf_trapno 32 (set_tf_cs 35 tf0).
End Demo.

Lemma trap_returns_alive_witness :
  returns (trap 0 tf0 [] 1 Demo.fault Signal.Demo.st) (λ _ s', alive s' ∧ expected 14 = true).
Proof. exact (trap_returns_alive 0 tf0 [] 1 Demo.fault Signal.Demo.st eq_refl). Defined.

Lemma sigreturn_loses_eax_witness : ∃ s' p', trap 0 tf0 [] 1 Demo.sigret Signal.Demo.st = Done tt s' ∧
  k_procs s' !! 0%nat = Some p' ∧ tf_eax (p_tf p') = 0.
Proof.
  destruct (sigreturn_loses_eax Signal.Demo.wrapper 0 tf0 [] 1 Signal.Demo.world 0 Signal.Demo.p Flat.zeros
    Demo.sigret Signal.Demo.st Signal.Demo.signal_st_ctx (mk_is_Some _ _ eq_refl) Signal.Demo.signal_st_user)
    as (s' & p' & H1 & H2 & H3); [reflexivity|reflexivity|reflexivity|cbn; lia|cbn; lia|cbn; lia|].
  exists s', p'. split; [exact H1|]. split; [exact H2|]. rewrite H3. reflexivity.
Defined.

Lemma timer_tick_witness :
  trap 0 tf0 [] 1 Demo.timer Syscall.Demo.st = trap_end Demo.timer (ticked Syscall.Demo.st) ∧
  k_ticks (ticked Syscall.Demo.st) = 1.
Proof.
  split; [|reflexivity].
  refine (proj1 (timer_tick Signal.Demo.wrapper 0 tf0 [] 1 [] Demo.timer Syscall.Demo.st
    _ (kr_ctx _ _ _ _ _ Syscall.Demo.syscall_st_run) _ _ eq_refl (mk_is_Some _ _ eq_refl)
    (mk_is_Some _ _ eq_refl) (kr_wf _ _ _ _ _ Syscall.Demo.syscall_st_run) _ eq_refl)).
  - reflexivity.
  - set_solver.
  - set_solver.
  - intros [|i] q Hq; [injection Hq as <-; discriminate|].
    apply (lookup_replicate 63 proc0 q i) in Hq as [-> _]. discriminate.
Defined.
