(* ===== verification/Umalloc.v ===== *)
(** umalloc.c: the memory allocator of user programs.  Free blocks form a circular
    list in address order, threaded through their headers in process memory.
    [sbrk] is the system call; what is assumed of it is what Syscall.v proves. *)
From stdpp Require Import sorting.
From S2P Require Import Prelude Mem.

(** The memory of the process, the variable [freep], and the end of memory. *)
Record heap := mkHeap {
  h_mem : mem;
  h_freep : Z;
  h_brk : Z;
}.
Definition set_h_mem (m : mem) (h : heap) : heap := mkHeap m (h_freep h) (h_brk h).
Definition set_h_freep (p : Z) (h : heap) : heap := mkHeap (h_mem h) p (h_brk h).

(** [sizeof(Header)]: a header is the pointer [s.ptr] and, 4 bytes on, [s.size]. *)
Definition HEADER : Z := 8.

Definition get_ptr (p : Z) : M heap Z := gets (λ h, load32 (h_mem h) p).
Definition get_size (p : Z) : M heap Z := gets (λ h, load32 (h_mem h) (p + 4)).
Definition set_ptr (p v : Z) : M heap unit := modify (λ h, set_h_mem (store32 (h_mem h) p v) h).
Definition set_size (p v : Z) : M heap unit := modify (λ h, set_h_mem (store32 (h_mem h) (p + 4) v) h).

Section Umalloc.
(** [&base], [sbrk], and a bound on the steps along the list. *)
Context (base : Z) (sbrk : Z → M heap Z) (fuel : nat).

(** [for(p = freep; !(bp > p && bp < p->s.ptr); p = p->s.ptr) if(...) break;] *)
Fixpoint find_place (n : nat) (bp p : Z) : M heap Z :=
  match n with
  | O => λ _, Fuel
  | S n' =>
    nx <- get_ptr p ;;
    if (p <? bp) && (bp <? nx) then ret p
    else if (nx <=? p) && ((p <? bp) || (bp <? nx)) then ret p
    else find_place n' bp nx
  end.

(** Join the block at [bp], to be inserted after the node [p], to the node after it. *)
Definition join_upper (bp p : Z) : M heap unit :=
  sz <- get_size bp ;;
  nx <- get_ptr p ;;
  if u32 (bp + sz * HEADER) =? nx then
    nsz <- get_size nx ;;
    set_size bp (u32 (sz + nsz)) ;;;
    nn <- get_ptr nx ;;
    set_ptr bp nn
  else set_ptr bp nx.

(** Join it to [p], or link it. *)
Definition join_lower (bp p : Z) : M heap unit :=
  psz <- get_size p ;;
  if u32 (p + psz * HEADER) =? bp then
    bsz <- get_size bp ;;
    set_size p (u32 (psz + bsz)) ;;;
    bn <- get_ptr bp ;;
    set_ptr p bn
  else set_ptr p bp.

Definition free (ap : Z) : M heap unit :=
  let bp := u32 (ap - HEADER) in
  f <- gets h_freep ;;
  p <- find_place fuel bp f ;;
  join_upper bp p ;;;
  join_lower bp p ;;;
  modify (set_h_freep p).

Definition morecore (nu : Z) : M heap Z :=
  let nu := if nu <? 4096 then 4096 else nu in
  p <- sbrk (s32 (nu * HEADER)) ;;
  if p =? 2^32 - 1 then ret 0
  else
    set_size p nu ;;;
    free (u32 (p + HEADER)) ;;;
    gets h_freep.

(** Take [nunits] units from the block at [p], which has at least as many. *)
Definition carve (nunits prevp p : Z) : M heap Z :=
  sz <- get_size p ;;
  q <- (if sz =? nunits then
          nx <- get_ptr p ;; set_ptr prevp nx ;;; ret p
        else
          set_size p (u32 (sz - nunits)) ;;;
          sz' <- get_size p ;;
          let q := u32 (p + sz' * HEADER) in
          set_size q nunits ;;; ret q) ;;
  modify (set_h_freep prevp) ;;;
  ret (u32 (q + HEADER)).

Fixpoint malloc_loop (n : nat) (nunits prevp p : Z) : M heap Z :=
  match n with
  | O => λ _, Fuel
  | S n' =>
    sz <- get_size p ;;
    if nunits <=? sz then carve nunits prevp p
    else
      f <- gets h_freep ;;
      if p =? f then
        q <- morecore nunits ;;
        if q =? 0 then ret 0 else nx <- get_ptr q ;; malloc_loop n' nunits q nx
      else nx <- get_ptr p ;; malloc_loop n' nunits p nx
  end.

Definition malloc (nbytes : Z) : M heap Z :=
  let nunits := u32 (u32 (nbytes + HEADER - 1) / HEADER + 1) in
  f <- gets h_freep ;;
  prevp <- (if f =? 0 then
              modify (set_h_freep base) ;;; set_ptr base base ;;; set_size base 0 ;;; ret base
            else ret f) ;;
  p <- get_ptr prevp ;;
  malloc_loop fuel nunits prevp p.

End Umalloc.

(** * The list of free blocks *)

(** The nodes from [x] up to [y], each an address and the size its header has. *)
Fixpoint seg (m : mem) (x : Z) (N : list (Z * Z)) (y : Z) : Prop :=
  match N with
  | [] => x = y
  | (a, k) :: N' => x = a ∧ load32 m (a + 4) = k ∧ seg m (load32 m a) N' y
  end.

Lemma seg_app m x N1 N2 y : seg m x (N1 ++ N2) y ↔ ∃ z, seg m x N1 z ∧ seg m z N2 y.
Proof.
  revert x. induction N1 as [|[a k] N1 IH]; intros x; cbn [app seg]; [naive_solver|].
  rewrite IH. naive_solver.
Qed.

(** The headers of [N] are the same in [m'] as in [m]. *)
Definition same_headers (m m' : mem) (N : list (Z * Z)) : Prop :=
  Forall (λ b : Z * Z, ∀ x, b.1 ≤ x < b.1 + 8 → m' x = m x) N.

Lemma seg_frame m m' x N y : same_headers m m' N → seg m x N y → seg m' x N y.
Proof.
  intros H. revert x. induction H as [|[a k] N Hb _ IH]; intros x; [done|]. cbn [seg fst] in *.
  intros (-> & Hk & Hs). rewrite !(load32_ext m' m) by (intros; apply Hb; lia). split; [done|]. split; [done|]. by apply IH.
Qed.

Definition total (N : list (Z * Z)) : Z := foldr (λ b acc, b.2 + acc) 0 N.
Lemma total_cons a k N : total ((a, k) :: N) = k + total N.
Proof. done. Qed.
Lemma total_app N1 N2 : total (N1 ++ N2) = total N1 + total N2.
Proof. unfold total. induction N1 as [|b N1 IH]; cbn [app foldr]; lia. Qed.

Section Heap.
Context (base : Z) (sbrk : Z → M heap Z) (fuel : nat).

(** The end of a node; [base] is a header and nothing else. *)
Definition fin (b : Z * Z) : Z := if b.1 =? base then base + 8 else b.1 + 8 * b.2.

(** [b] is a node, below [brk]; but for [base] it is aligned to units. *)
Definition good (brk : Z) (b : Z * Z) : Prop :=
  (b = (base, 0) ∨ base + 8 < b.1 ∧ 1 ≤ b.2 ∧ b.1 mod 8 = 0) ∧ fin b ≤ brk.
(** In address order, and never next to each other. *)
Definition before (b c : Z * Z) : Prop := fin b < c.1.
(** The bytes from [lo] up to [hi] are none of [b]'s. *)
Definition clear (lo hi : Z) (b : Z * Z) : Prop := hi ≤ b.1 ∨ fin b ≤ lo.

Record heap_ok (F : list (Z * Z)) (U : gmap Z Z) (h : heap) : Prop := {
  hk_base : 0 < base;
  hk_brk : base + 8 < h_brk h < 2^31;
  hk_list : seg (h_mem h) base ((base, 0) :: F) base;
  hk_good : Forall (good (h_brk h)) ((base, 0) :: F);
  hk_order : StronglySorted before ((base, 0) :: F);
  hk_freep : h_freep h ∈ ((base, 0) :: F).*1;
  hk_used a k : U !! a = Some k →
    base + 8 < a ∧ 1 ≤ k ∧ a + 8 * k ≤ h_brk h ∧ load32 (h_mem h) (a + 4) = k ∧ Forall (clear a (a + 8 * k)) ((base, 0) :: F);
  hk_apart a k b j : U !! a = Some k → U !! b = Some j → a ≠ b → a + 8 * k ≤ b ∨ b + 8 * j ≤ a;
  hk_align : h_brk h mod 8 = 0 ∧ ∀ a k, U !! a = Some k → a mod 8 = 0;
}.

(** Before the first call there is no list. *)
Definition heap_inv (F : list (Z * Z)) (U : gmap Z Z) (h : heap) : Prop :=
  heap_ok F U h ∨ F = [] ∧ U = ∅ ∧ h_freep h = 0 ∧ 0 < base ∧ base + 8 < h_brk h < 2^31 ∧ h_brk h mod 8 = 0.

(** A byte that belongs to no free block. *)
Definition untouched (F : list (Z * Z)) (x : Z) : Prop := Forall (clear x (x + 1)) ((base, 0) :: F).

(** What a program gets from the system call: nothing, or memory above all it has. *)
Definition sbrk_ok : Prop := ∀ n h, 0 < n < 2^31 →
  sbrk n h = Done (2^32 - 1) h ∨
  h_brk h + n < 2^31 ∧ ∃ m', sbrk n h = Done (h_brk h) (mkHeap m' (h_freep h) (h_brk h + n)) ∧
    ∀ x, ¬ (h_brk h ≤ x < h_brk h + n) → m' x = h_mem h x.

Lemma good_fin brk b : good brk b → b.1 + 8 ≤ fin b.
Proof.
  intros [[->|[H1 H2]] _]; unfold fin; cbn; [by rewrite Z.eqb_refl|]. destruct (Z.eqb_spec b.1 base); lia.
Qed.

(** Nodes in order have different addresses, and what is between two is free. *)
Lemma order_mid N1 b N2 :
  StronglySorted before (N1 ++ b :: N2) → Forall (λ c, before c b) N1 ∧ Forall (before b) N2 ∧
  StronglySorted before N1 ∧ StronglySorted before N2.
Proof.
  induction N1 as [|c N1 IH]; cbn; intros H; apply StronglySorted_inv in H as [Hs Hf].
  - split; [constructor|]. split; [done|]. split; [constructor|done].
  - destruct (IH Hs) as (H1 & H2 & H3 & H4). apply Forall_app in Hf as [Hf1 Hf2]. apply Forall_cons in Hf2 as [Hf2 _].
    split; [by constructor|]. split; [done|]. split; [by constructor|done].
Qed.

(** ** Walking along the list *)

Definition stops (m : mem) (bp p : Z) : bool :=
  (p <? bp) && (bp <? load32 m p) || (load32 m p <=? p) && ((p <? bp) || (bp <? load32 m p)).

Lemma find_place_S n bp p h :
  find_place (S n) bp p h = if stops (h_mem h) bp p then Done p h else find_place n bp (load32 (h_mem h) p) h.
Proof.
  cbn [find_place]. unfold stops, get_ptr. mstep. destruct (_ && _); [done|]. cbn [orb]. by destruct (_ && _).
Qed.

Lemma find_place_walk N x y bp n h :
  seg (h_mem h) x N y → Forall (λ b, stops (h_mem h) bp b.1 = false) N →
  find_place (length N + n) bp x h = find_place n bp y h.
Proof.
  revert x. induction N as [|[a k] N IH]; intros x Hs Hf; [by cbn in Hs; subst|].
  destruct Hs as (-> & _ & Hs). apply Forall_cons in Hf as [Ha Hf]. cbn [length Nat.add].
  rewrite find_place_S. cbn [fst] in Ha. rewrite Ha. by apply IH.
Qed.

(** Where the nodes below [bp] end. *)
Lemma split_at bp N :
  StronglySorted before N → Forall (λ b, b.1 ≠ bp) N → Forall (λ b, b.1 ≤ fin b) N →
  ∃ N1 N2, N = N1 ++ N2 ∧ Forall (λ b, b.1 < bp) N1 ∧ Forall (λ b, bp < b.1) N2.
Proof.
  intros Hs. induction Hs as [|b N Hs IH Hb]; intros Hn Hg; [by exists [], []|].
  apply Forall_cons in Hn as [Hn1 Hn2]. apply Forall_cons in Hg as [Hg1 Hg2]. destruct (decide (b.1 < bp)) as [Hlt|Hge].
  - destruct (IH Hn2 Hg2) as (N1 & N2 & -> & H1 & H2). exists (b :: N1), N2. split; [done|]. split; [by constructor|done].
  - exists [], (b :: N). split; [done|]. split; [constructor|]. constructor; [lia|].
    eapply Forall_impl; [exact Hb|]. unfold before. cbn. intros c Hc. lia.
Qed.

Lemma pass_below m bp N1 x p :
  seg m x N1 p → StronglySorted before N1 → Forall (λ b, b.1 < p ∧ b.1 ≤ fin b ∧ b.1 < bp) N1 → p < bp →
  Forall (λ b, stops m bp b.1 = false) N1.
Proof.
  revert x. induction N1 as [|[a k] N1 IH]; intros x Hs Ho Hf Hp; [constructor|]. destruct Hs as (-> & _ & Hs).
  apply StronglySorted_inv in Ho as [Ho Hb]. apply Forall_cons in Hf as [(Hf1 & Hf2 & Hf3) Hf]. constructor; [|by eapply IH].
  cbn [fst] in *. assert (a < load32 m a < bp) as Hn.
  { destruct N1 as [|[c j] N1]; cbn [seg] in Hs; [subst; lia|]. destruct Hs as [-> _]. apply Forall_cons in Hb as [Hb _].
    apply Forall_cons in Hf as [Hc _]. unfold before in Hb. cbn [fst] in *. lia. }
  unfold stops. destruct (Z.ltb_spec bp (load32 m a)), (Z.leb_spec (load32 m a) a); lia.
Qed.

Lemma pass_above m bp N2 x :
  seg m x N2 base → StronglySorted before N2 → Forall (λ b, b.1 ≤ fin b ∧ bp < b.1) N2 → base < bp →
  Forall (λ b, stops m bp b.1 = false) N2.
Proof.
  revert x. induction N2 as [|[a k] N2 IH]; intros x Hs Ho Hf Hp; [constructor|]. destruct Hs as (-> & _ & Hs).
  apply StronglySorted_inv in Ho as [Ho Hb]. apply Forall_cons in Hf as [[Hf1 Hf2] Hf]. constructor; [|by eapply IH].
  cbn [fst] in *. unfold stops. destruct (Z.ltb_spec a bp); [lia|]. cbn [andb orb].
  destruct N2 as [|[c j] N2]; cbn [seg] in Hs; [rewrite Hs; destruct (Z.ltb_spec bp base); [lia|]; by rewrite andb_false_r|].
  destruct Hs as [-> _]. apply Forall_cons in Hb as [Hb _]. unfold before in Hb. cbn [fst] in *.
  by destruct (Z.leb_spec c a); [lia|].
Qed.

(** The place of [bp] is found, wherever the search starts. *)
Lemma find_place_ok brk N1 p ps N2 bp f n h :
  seg (h_mem h) base (N1 ++ (p, ps) :: N2) base → StronglySorted before (N1 ++ (p, ps) :: N2) →
  Forall (good brk) (N1 ++ (p, ps) :: N2) → Forall (λ b, b.1 < bp) (N1 ++ [(p, ps)]) → Forall (λ b, bp < b.1) N2 →
  f ∈ (N1 ++ (p, ps) :: N2).*1 → base < bp → base ≤ p → (length (N1 ++ (p, ps) :: N2) < n)%nat → find_place n bp f h = Done p h.
Proof.
  intros Hs Ho Hg Hlt Hgt Hf Hb Hbp Hn. apply seg_app in Hs as (z & Hs1 & -> & Hps & Hs2).
  apply order_mid in Ho as (Ho1 & Ho2 & Ho3 & Ho4). apply Forall_app in Hg as [Hg1 Hg2]. apply Forall_cons in Hg2 as [Hgp Hg2].
  apply Forall_app in Hlt as [Hlt Hp]. apply Forall_cons in Hp as [Hp _]. cbn in Hp.
  assert (Forall (λ b, stops (h_mem h) bp b.1 = false) N1) as Hn1.
  { eapply pass_below; [done|done| |done]. apply Forall_forall. intros b Hb'. rewrite Forall_forall in Ho1, Hg1, Hlt.
    pose proof (good_fin _ _ (Hg1 b Hb')). specialize (Ho1 b Hb'). specialize (Hlt b Hb'). unfold before in Ho1. cbn in *. lia. }
  assert (Forall (λ b, stops (h_mem h) bp b.1 = false) N2) as Hn2.
  { eapply pass_above; [done|done| |done]. apply Forall_forall. intros b Hb'. rewrite Forall_forall in Hg2, Hgt.
    pose proof (good_fin _ _ (Hg2 b Hb')). specialize (Hgt b Hb'). cbn in *. lia. }
  assert (∀ k, find_place (S k) bp p h = Done p h) as Hstop.
  { intros k. rewrite find_place_S. unfold stops. destruct (Z.ltb_spec p bp); [|lia]. cbn [andb orb].
    destruct N2 as [|[c j] N2]; cbn [seg] in Hs2.
    - rewrite Hs2. destruct (Z.leb_spec base p); [by rewrite orb_true_r|lia].
    - destruct Hs2 as [-> _]. apply Forall_cons in Hgt as [Hc _]. cbn in Hc. by destruct (Z.ltb_spec bp c); [|lia]. }
  rewrite length_app in Hn. cbn [length] in Hn.
  rewrite fmap_app, fmap_cons in Hf. apply elem_of_app in Hf as [Hf|[->|Hf]%elem_of_cons].
  - apply list_elem_of_fmap in Hf as ([a k] & -> & Hf). apply list_elem_of_split in Hf as (A & B & ->).
    apply seg_app in Hs1 as (z & _ & Hz). pose proof Hz as (-> & _). cbn [fst]. apply Forall_app in Hn1 as [_ Hn1]. rewrite length_app in Hn.
    replace n with (length ((a, k) :: B) + S (n - length B - 2))%nat by (cbn [length] in *; lia).
    by rewrite (find_place_walk _ _ _ _ _ _ Hz Hn1).
  - cbn [fst]. destruct n as [|n]; [lia|]. apply Hstop.
  - apply list_elem_of_fmap in Hf as ([a k] & -> & Hf). apply list_elem_of_split in Hf as (A & B & ->).
    apply seg_app in Hs2 as (z & _ & Hz). pose proof Hz as (-> & _). cbn [fst]. apply Forall_app in Hn2 as [_ Hn2]. rewrite length_app in Hn.
    replace n with (length ((a, k) :: B) + (length N1 + S (n - length B - length N1 - 2)))%nat by (cbn [length] in *; lia).
    rewrite (find_place_walk _ _ _ _ _ _ Hz Hn2). by rewrite (find_place_walk _ _ _ _ _ _ Hs1 Hn1).
Qed.

(** ** Freeing a block *)

Lemma align_add a t : a mod 8 = 0 → (a + 8 * t) mod 8 = 0.
Proof. intros H. by rewrite (Z.mul_comm 8), Z.mod_add by lia. Qed.

Lemma fin_ne a k : base + 8 < a → fin (a, k) = a + 8 * k.
Proof. intros H. unfold fin. cbn. destruct (Z.eqb_spec a base); lia. Qed.

Lemma load32_changed m m' a lo hi : (∀ x, ¬ (lo ≤ x < hi) → m' x = m x) → a + 4 ≤ lo ∨ hi ≤ a → load32 m' a = load32 m a.
Proof. intros H Ha. apply load32_ext. intros x Hx. apply H. lia. Qed.

(** Changes inside a block do not reach the headers of nodes clear of it. *)
Lemma same_headers_clear brk m m' lo hi N :
  (∀ x, ¬ (lo ≤ x < hi) → m' x = m x) → Forall (good brk) N → Forall (clear lo hi) N → same_headers m m' N.
Proof.
  intros H Hg Hc. apply Forall_forall. intros b Hb x Hx. rewrite Forall_forall in Hg, Hc. apply H.
  pose proof (good_fin _ _ (Hg b Hb)). destruct (Hc b Hb); lia.
Qed.

Lemma seg_start brk m x N :
  seg m x N base → Forall (good brk) N → 0 < base → base + 8 < brk < 2^31 → 0 ≤ x < 2^32.
Proof.
  intros Hs Hg Hb Hk. destruct N as [|[a k] N]; cbn [seg] in Hs; [lia|]. destruct Hs as [-> _].
  apply Forall_cons in Hg as [Hg _]. pose proof (good_fin _ _ Hg). destruct Hg as [[[= -> ->]|?] ?]; cbn in *; lia.
Qed.

(** [p->s.ptr = y], and [p->s.size = sz; p->s.ptr = y]. *)
Lemma store_ptr m p y : 0 ≤ y < 2^32 →
  load32 (store32 m p y) p = y ∧ load32 (store32 m p y) (p + 4) = load32 m (p + 4) ∧
  ∀ x, ¬ (p ≤ x < p + 8) → store32 m p y x = m x.
Proof.
  intros Hy. split; [rewrite load32_store32; by apply u32_id|]. split; [apply load32_store32_ne; lia|].
  intros x Hx. unfold store32. apply writes_out. cbn [length le32]. lia.
Qed.
Lemma store_header m p sz y : 0 ≤ sz < 2^32 → 0 ≤ y < 2^32 →
  let m1 := store32 (store32 m (p + 4) sz) p y in
  load32 m1 p = y ∧ load32 m1 (p + 4) = sz ∧ ∀ x, ¬ (p ≤ x < p + 8) → m1 x = m x.
Proof.
  intros Hs Hy m1. destruct (store_ptr (store32 m (p + 4) sz) p y Hy) as (H1 & H2 & H3). split; [done|].
  split; [etrans; [exact H2|]; rewrite load32_store32; by apply u32_id|]. intros x Hx. unfold m1. rewrite H3 by done.
  unfold store32. apply writes_out. cbn [length le32]. lia.
Qed.

Lemma join_upper_ok brk bp k p N2 h :
  base + 8 < bp → bp mod 8 = 0 → 1 ≤ k → bp + 8 * k ≤ brk → brk < 2^31 → 0 < base → load32 (h_mem h) (bp + 4) = k →
  seg (h_mem h) (load32 (h_mem h) p) N2 base → StronglySorted before N2 → Forall (good brk) N2 →
  Forall (λ b, bp < b.1) N2 → Forall (clear bp (bp + 8 * k)) N2 →
  ∃ m1 k' N2', join_upper bp p h = Done tt (set_h_mem m1 h) ∧ (∀ x, ¬ (bp ≤ x < bp + 8) → m1 x = h_mem h x) ∧
    load32 m1 (bp + 4) = k' ∧ seg m1 (load32 m1 bp) N2' base ∧ StronglySorted before ((bp, k') :: N2') ∧
    Forall (good brk) ((bp, k') :: N2') ∧ k' + total N2' = k + total N2 ∧ k ≤ k' ∧ (length N2' ≤ length N2)%nat ∧
    ∀ lo hi, lo < hi → Forall (clear lo hi) ((bp, k) :: N2) → Forall (clear lo hi) ((bp, k') :: N2').
Proof.
  intros Hbp Hal Hk Hbrk Hmax Hbase Hsz Hs Ho Hg Hgt Hcl.
  assert (u32 (bp + k * HEADER) = bp + 8 * k) as Eu by (unfold HEADER; rewrite u32_id; lia).
  unfold join_upper, get_size, get_ptr, set_size, set_ptr. mstep. rewrite Hsz, Eu.
  destruct (Z.eqb_spec (bp + 8 * k) (load32 (h_mem h) p)) as [Hj|Hj].
  - destruct N2 as [|[c j] N2]; cbn [seg] in Hs; [lia|]. destruct Hs as (Hc & Hjs & Hs).
    apply StronglySorted_inv in Ho as [Ho Hb]. apply Forall_cons in Hg as [Hgc Hg]. apply Forall_cons in Hcl as [_ Hcl].
    assert (c = bp + 8 * k) as -> by lia. rewrite Hc. mstep. cbn [set_h_mem h_mem h_freep h_brk]. rewrite Hjs.
    pose proof (seg_start brk _ _ _ Hs Hg Hbase ltac:(lia)) as Hy.
    pose proof (good_fin _ _ Hgc) as Hfc. destruct Hgc as [Hgc1 Hgc2]. cbn [fst] in *. rewrite fin_ne in Hgc2, Hfc by lia.
    rewrite (u32_id (k + j)), load32_store32_ne by lia.
    destruct (store_header (h_mem h) bp (k + j) (load32 (h_mem h) (bp + 8 * k)) ltac:(lia) Hy) as (E1 & E2 & E3).
    eexists _, (k + j), N2. split; [done|]. split; [exact E3|]. split; [exact E2|]. rewrite E1.
    assert (Forall (before (bp, k + j)) N2) as Hb'.
    { eapply Forall_impl; [exact Hb|]. intros b. unfold before. rewrite !fin_ne by lia. lia. }
    split; [|split; [by constructor|split; [|split; [rewrite total_cons; lia|split; [lia|split; [cbn; lia|]]]]]].
    + eapply seg_frame; [|exact Hs]. eapply same_headers_clear; [exact E3|exact Hg|]. eapply Forall_impl; [exact Hb'|].
      intros b. unfold before, clear. rewrite fin_ne by lia. lia.
    + constructor; [|done]. split; [right; cbn; lia|]. rewrite fin_ne by lia. lia.
    + intros lo hi Hlh H. apply Forall_cons in H as [H1 H]. apply Forall_cons in H as [H2 H]. constructor; [|done].
      unfold clear in *. cbn [fst] in *. rewrite !fin_ne in * by lia. lia.
  - mstep. pose proof (seg_start brk _ _ _ Hs Hg Hbase ltac:(lia)) as Hy.
    destruct (store_ptr (h_mem h) bp (load32 (h_mem h) p) Hy) as (E1 & E2 & E3).
    eexists _, k, N2. split; [done|]. split; [exact E3|]. split; [by rewrite E2|]. rewrite E1.
    split; [|split; [|split; [|split; [lia|split; [lia|split; [lia|done]]]]]].
    + eapply seg_frame; [|exact Hs]. eapply same_headers_clear; [exact E3|exact Hg|]. eapply Forall_impl; [exact Hcl|].
      intros b. unfold clear. lia.
    + constructor; [done|]. destruct N2 as [|[c j] N2]; [constructor|]. cbn [seg] in Hs. destruct Hs as [Hc _]. rewrite Hc in Hj.
      rewrite Forall_forall in Hcl, Hgt. apply Forall_forall. intros b Hb.
      pose proof (Hcl b Hb) as H1. pose proof (Hgt b Hb) as H2. cbn in H2. unfold before. rewrite fin_ne by lia.
      destruct H1 as [H1|H1].
      * apply elem_of_cons in Hb as [->|Hb]; [cbn [fst] in *; lia|]. apply StronglySorted_inv in Ho as [_ Hb']. rewrite Forall_forall in Hb'.
        specialize (Hb' b Hb). unfold before in Hb'. apply Forall_cons in Hg as [Hgc _]. pose proof (good_fin _ _ Hgc).
        pose proof (Hgt (c, j) ltac:(by left)). pose proof (Hcl (c, j) ltac:(by left)) as [Hd|Hd]; cbn [fst] in *; lia.
      * rewrite Forall_forall in Hg. pose proof (good_fin _ _ (Hg b Hb)). lia.
    + constructor; [|done]. split; [right; cbn; lia|]. rewrite fin_ne by lia. lia.
Qed.

Lemma order_glue N1 b L :
  StronglySorted before N1 → Forall (λ c, before c b) N1 → b.1 ≤ fin b → StronglySorted before (b :: L) →
  StronglySorted before (N1 ++ b :: L).
Proof.
  intros H1 Hb Hf HL. apply StronglySorted_app_2; [|done|done]. intros x y Hx Hy. rewrite Forall_forall in Hb. specialize (Hb x Hx).
  apply elem_of_cons in Hy as [->|Hy]; [done|]. apply StronglySorted_inv in HL as [_ HL]. rewrite Forall_forall in HL.
  specialize (HL y Hy). unfold before in *. lia.
Qed.

Lemma join_lower_ok brk bp k p ps N1 N2 h :
  base + 8 < bp → 1 ≤ k → 0 < base → base + 8 < brk < 2^31 →
  seg (h_mem h) base N1 p → load32 (h_mem h) (p + 4) = ps → load32 (h_mem h) (bp + 4) = k → seg (h_mem h) (load32 (h_mem h) bp) N2 base →
  Forall (λ c, before c (p, ps)) N1 → StronglySorted before N1 → StronglySorted before ((bp, k) :: N2) →
  Forall (good brk) (N1 ++ (p, ps) :: (bp, k) :: N2) → fin (p, ps) ≤ bp →
  ∃ m1 N3, join_lower bp p h = Done tt (set_h_mem m1 h) ∧ (∀ x, ¬ (p ≤ x < p + 8) → m1 x = h_mem h x) ∧
    let N := N1 ++ (p, N3.1) :: N3.2 in
    seg m1 base N base ∧ StronglySorted before N ∧ Forall (good brk) N ∧
    total N = total (N1 ++ (p, ps) :: (bp, k) :: N2) ∧ (∃ b, b ∈ N ∧ k ≤ b.2) ∧ (length N3.2 ≤ S (length N2))%nat ∧
    ∀ lo hi, lo < hi → Forall (clear lo hi) (N1 ++ (p, ps) :: (bp, k) :: N2) → Forall (clear lo hi) N.
Proof.
  intros Hbp Hk Hbase Hbrk Hs1 Hps Hbk Hs2 Hb1 Ho1 Ho2 Hg Hfin.
  pose proof Hg as Hg'. apply Forall_app in Hg as [Hg1 Hg]. apply Forall_cons in Hg as [Hgp Hg]. apply Forall_cons in Hg as [Hgb Hg2].
  pose proof (good_fin _ _ Hgp) as Hfp. cbn [fst] in Hfp. pose proof Hgb as [_ Hbb]. rewrite fin_ne in Hbb by lia.
  pose proof Ho2 as Ho2'. apply StronglySorted_inv in Ho2 as [Ho2 Hb2].
  assert (∀ m1, (∀ x, ¬ (p ≤ x < p + 8) → m1 x = h_mem h x) → same_headers (h_mem h) m1 N1) as Hh1.
  { intros m1 Hm. eapply same_headers_clear; [exact Hm|exact Hg1|]. eapply Forall_impl; [exact Hb1|]. intros b. unfold before, clear. cbn [fst]. lia. }
  assert (∀ m1, (∀ x, ¬ (p ≤ x < p + 8) → m1 x = h_mem h x) → same_headers (h_mem h) m1 N2) as Hh2.
  { intros m1 Hm. eapply same_headers_clear; [exact Hm|exact Hg2|]. eapply Forall_impl; [exact Hb2|]. intros b. unfold before, clear.
    rewrite (fin_ne bp) by lia. lia. }
  assert (0 ≤ ps ∧ p + 8 * ps ≤ fin (p, ps)) as [Hps0 Hps1].
  { destruct Hgp as [[[= -> ->]|[Hp1 Hp2]] _]; cbn [fst snd] in *; [lia|]. rewrite fin_ne by lia. lia. }
  assert (0 ≤ p) as Hp0 by (destruct Hgp as [[[= -> ->]|[Hp1 Hp2]] _]; cbn [fst snd] in *; lia).
  assert (u32 (p + ps * HEADER) = p + 8 * ps) as Eu by (unfold HEADER; rewrite u32_id; lia).
  unfold join_lower, get_size, get_ptr, set_size, set_ptr. mstep. rewrite Hps, Eu.
  destruct (Z.eqb_spec (p + 8 * ps) bp) as [Hj|Hj].
  - assert (base + 8 < p ∧ p mod 8 = 0) as [Hp Hpa] by (destruct Hgp as [[[= -> ->]|(Hp1 & Hp2 & Hp3)] _]; cbn [fst snd] in *; [lia|done]).
    rewrite fin_ne in Hfp by lia.
    pose proof (seg_start brk _ _ _ Hs2 Hg2 Hbase ltac:(lia)) as Hy. mstep. cbn [set_h_mem h_mem h_freep h_brk].
    rewrite Hbk, (u32_id (ps + k)), (load32_store32_ne _ _ bp) by lia.
    destruct (store_header (h_mem h) p (ps + k) (load32 (h_mem h) bp) ltac:(lia) Hy) as (E1 & E2 & E3).
    eexists _, (ps + k, N2). split; [done|]. split; [exact E3|]. cbn [fst snd].
    assert (Forall (before (p, ps + k)) N2) as Hb2'.
    { eapply Forall_impl; [exact Hb2|]. intros b. unfold before. rewrite !fin_ne by lia. lia. }
    split; [|split; [|split; [|split; [|split; [|split; [lia|]]]]]].
    + apply seg_app. exists p. split; [by eapply seg_frame; [apply Hh1|]|]. cbn [seg]. split; [done|]. split; [done|].
      rewrite E1. by eapply seg_frame; [apply Hh2|].
    + apply order_glue; [done|done| |by constructor]. rewrite fin_ne; cbn [fst]; lia.
    + apply Forall_app. split; [done|]. constructor; [|done]. split; [right; cbn; lia|]. rewrite fin_ne by lia. lia.
    + rewrite !total_app, !total_cons. lia.
    + exists (p, ps + k). split; [apply elem_of_app; right; by left|cbn; lia].
    + intros lo hi Hlh Hc. apply Forall_app in Hc as [Hc1 Hc]. apply Forall_cons in Hc as [Hc2 Hc]. apply Forall_cons in Hc as [Hc3 Hc].
      apply Forall_app. split; [done|]. constructor; [|done]. unfold clear in *. cbn [fst] in *. rewrite !fin_ne in * by lia. lia.
  - mstep. destruct (store_ptr (h_mem h) p bp ltac:(lia)) as (E1 & E2 & E3).
    assert (before (p, ps) (bp, k)) as Hpb.
    { unfold before. cbn [fst]. destruct Hgp as [[[= -> ->]|[Hp1 Hp2]] _]; cbn [fst snd] in *; [unfold fin; cbn [fst]; rewrite Z.eqb_refl; lia|].
      rewrite fin_ne in * by lia. lia. }
    eexists _, (ps, (bp, k) :: N2). split; [done|]. split; [exact E3|]. cbn [fst snd]. split; [|split; [|split; [done|split; [done|split; [|done]]]]].
    + apply seg_app. exists p. split; [by eapply seg_frame; [apply Hh1|]|]. cbn [seg]. split; [done|]. split; [by rewrite E2|].
      rewrite E1. split; [done|]. rewrite !(load32_changed (h_mem h) _ _ p (p + 8) E3) by lia. split; [done|]. by eapply seg_frame; [apply Hh2|].
    + apply order_glue; [done|done|cbn [fst]; lia|]. constructor; [done|]. constructor; [done|].
      eapply Forall_impl; [exact Hb2|]. intros b Hb. unfold before in *. rewrite (fin_ne bp) in Hb by lia. cbn [fst] in Hpb. lia.
    + exists (bp, k). split; [apply elem_of_app; right; right; by left|cbn; lia].
Qed.

(** The list after the block [(a, k)] has joined it. *)
Record joined (F : list (Z * Z)) (a k : Z) (F' : list (Z * Z)) (m m' : mem) : Prop := {
  jn_total : total F' = total F + k;
  jn_block : ∃ b, b ∈ F' ∧ k ≤ b.2;
  jn_length : (length F' ≤ S (length F))%nat;
  jn_clear lo hi : lo < hi → Forall (clear lo hi) ((a, k) :: (base, 0) :: F) → Forall (clear lo hi) ((base, 0) :: F');
  jn_frame x : untouched F x → ¬ (a ≤ x < a + 8 * k) → m' x = m x;
}.

Lemma order_clear N brk a k :
  StronglySorted before N → Forall (good brk) N → Forall (clear a (a + 8 * k)) N → 1 ≤ k → base + 8 < a → hd_error N = Some (base, 0) →
  ∃ N1 p ps N2, N = N1 ++ (p, ps) :: N2 ∧ Forall (λ b, b.1 < a) (N1 ++ [(p, ps)]) ∧ Forall (λ b, a < b.1) N2 ∧ base ≤ p ∧ fin (p, ps) ≤ a.
Proof.
  intros Ho Hg Hc Hk Ha Hh. destruct (split_at a N) as (N1 & N2 & -> & H1 & H2); [done| | |].
  { apply Forall_forall. intros b Hb Heq. rewrite Forall_forall in Hg, Hc. pose proof (good_fin _ _ (Hg b Hb)). destruct (Hc b Hb); lia. }
  { eapply Forall_impl; [exact Hg|]. cbn. intros b Hb. pose proof (good_fin _ _ Hb). lia. }
  destruct N1 as [|[p ps] N1 _] using rev_ind.
  { cbn in Hh. destruct N2 as [|b N2]; [done|]. injection Hh as ->. apply Forall_cons in H2 as [H2 _]. cbn in H2. lia. }
  exists N1, p, ps, N2. rewrite <- app_assoc in *. split; [done|]. split; [done|]. split; [done|].
  apply Forall_app in Hg as [_ Hg]. apply Forall_cons in Hg as [Hg _]. apply Forall_app in Hc as [_ Hc]. apply Forall_cons in Hc as [Hc _].
  apply Forall_app in H1 as [_ H1]. apply Forall_cons in H1 as [H1 _]. split.
  - destruct Hg as [[[= -> ->]|?] _]; cbn [fst] in *; lia.
  - destruct Hc as [Hc|Hc]; cbn [fst] in *; [lia|done].
Qed.

Lemma joined_used F (U : gmap Z Z) a k F' h m' b j :
  (∀ a k, U !! a = Some k →
    base + 8 < a ∧ 1 ≤ k ∧ a + 8 * k ≤ h_brk h ∧ load32 (h_mem h) (a + 4) = k ∧ Forall (clear a (a + 8 * k)) ((base, 0) :: F)) →
  (∀ b j, U !! b = Some j → b ≠ a → a + 8 * k ≤ b ∨ b + 8 * j ≤ a) → base + 8 < a → U !! b = Some j → a ≠ b →
  joined F a k F' (h_mem h) m' →
  base + 8 < b ∧ 1 ≤ j ∧ b + 8 * j ≤ h_brk h ∧ load32 m' (b + 4) = j ∧ Forall (clear b (b + 8 * j)) ((base, 0) :: F').
Proof.
  intros HU Hap Ha Hb Hne HJ. destruct (HU b j Hb) as (U1 & U2 & U3 & U4 & U5). pose proof (Hap b j Hb (not_eq_sym Hne)) as Hd.
  do 3 (split; [done|]). split.
  - rewrite <- U4. apply load32_ext. intros x Hx. apply (jn_frame _ _ _ _ _ _ HJ); [|lia].
    eapply Forall_impl; [exact U5|]. intros c. unfold clear. lia.
  - apply (jn_clear _ _ _ _ _ _ HJ); [lia|]. constructor; [|done]. unfold clear. rewrite fin_ne by lia. cbn [fst]. lia.
Qed.

(** Inserting a block of [k] units at [a] that nobody uses. *)
Lemma free_block F U a k h :
  heap_ok F U h → base + 8 < a → a mod 8 = 0 → 1 ≤ k → a + 8 * k ≤ h_brk h → load32 (h_mem h) (a + 4) = k →
  Forall (clear a (a + 8 * k)) ((base, 0) :: F) →
  (∀ b j, U !! b = Some j → b ≠ a → a + 8 * k ≤ b ∨ b + 8 * j ≤ a) → (length F + 1 < fuel)%nat →
  ∃ F' h', free fuel (u32 (a + 8)) h = Done tt h' ∧ heap_ok F' (delete a U) h' ∧ h_brk h' = h_brk h ∧
    joined F a k F' (h_mem h) (h_mem h').
Proof.
  intros [K1 K2 K3 K4 K5 K6 K7 K8 K9] Ha Hal Hk Hbrk Hsz Hcl Hap Hfuel.
  destruct (order_clear ((base, 0) :: F) (h_brk h) a k) as (N1 & p & ps & N2 & E & H1 & H2 & Hp & Hfp); [done..|].
  assert (length F + 1 = length (N1 ++ (p, ps) :: N2))%nat as Elen by (rewrite <- E; cbn; lia).
  assert (∀ lo hi, Forall (clear lo hi) ((base, 0) :: F) ↔ Forall (clear lo hi) N1 ∧ clear lo hi (p, ps) ∧ Forall (clear lo hi) N2) as Ecl.
  { intros lo hi. by rewrite E, Forall_app, Forall_cons. }
  assert (total F = total (N1 ++ (p, ps) :: N2)) as Etot by (rewrite <- E, total_cons; lia).
  apply Ecl in Hcl as (Hc1 & Hcp & Hc2). rewrite E in K3, K4, K5, K6.
  assert (find_place fuel a (h_freep h) h = Done p h) as Hfind by (eapply find_place_ok; try done; lia).
  apply seg_app in K3 as (z & S1 & -> & Sp & S2). apply order_mid in K5 as (O1 & _ & O3 & O4).
  pose proof K4 as K4'. apply Forall_app in K4 as [G1 K4]. apply Forall_cons in K4 as [Gp G2].
  destruct (join_upper_ok (h_brk h) a k p N2 h) as (m1 & k' & N2' & Eu & Hm1 & Hk' & Hs' & Ho' & Hg' & Ht' & Hkk & Hl' & Hcl'); [done || lia..|].
  pose proof (good_fin _ _ Gp) as Gf. cbn [fst] in Gf.
  destruct (join_lower_ok (h_brk h) a k' p ps N1 N2' (set_h_mem m1 h)) as (m2 & N3 & El & Hm2 & Hs2 & Ho2 & Hg2 & Ht2 & (bb & Hb1 & Hb2) & Hl2 & Hcl2);
    [done|lia|done|done| | |done|done|done|done|done| |done|].
  { cbn [set_h_mem h_mem]. eapply seg_frame; [|exact S1]. eapply same_headers_clear; [exact Hm1|exact G1|].
    eapply Forall_impl; [exact Hc1|]. intros b. unfold clear. lia. }
  { cbn [set_h_mem h_mem]. rewrite (load32_changed (h_mem h) _ _ _ _ Hm1); [done|lia]. }
  { apply Forall_app. split; [done|]. by constructor. }
  set (N := N1 ++ (p, N3.1) :: N3.2) in *.
  assert (∃ F', N = (base, 0) :: F') as [F' EF].
  { destruct N1 as [|b N1]; [|injection E as <- _; by eexists]. injection E as <- _ _. exists N3.2. unfold N in *.
    apply Forall_cons in Hg2 as [[[EN|EN] _] _]; [by rewrite EN|cbn in EN; lia]. }
  assert (joined F a k F' (h_mem h) m2) as Hj.
  { assert (bb ∈ F') as Hbb by (rewrite EF in Hb1; apply elem_of_cons in Hb1 as [->|?]; [cbn in Hb2; lia|done]).
    split.
    - rewrite EF, total_cons, !total_app, !total_cons in Ht2. rewrite Etot, total_app, total_cons. lia.
    - exists bb. split; [done|lia].
    - assert (length N = S (length F')) as EN by (by rewrite EF). unfold N in EN. rewrite !length_app in *. cbn [length] in *. lia.
    - intros lo hi Hlh [Hca (Hc1' & Hcp' & Hc2')%Ecl]%Forall_cons. rewrite <- EF. apply Hcl2; [done|]. apply Forall_app. split; [done|].
      constructor; [done|]. apply Hcl'; [done|]. by constructor.
    - intros x (_ & Hxp & _)%Ecl Hxa. unfold clear in Hxp. cbn [fst] in Hxp. rewrite Hm2 by lia. apply Hm1. lia. }
  exists F', (set_h_freep p (set_h_mem m2 h)). split; [|split; [|split; [done|done]]].
  - unfold free. mstep. replace (u32 (u32 (a + 8) - HEADER)) with a by (unfold HEADER; rewrite (u32_id (a + 8)), u32_id; lia).
    rewrite Hfind. mstep. rewrite Eu. mstep. by rewrite El.
  - rewrite EF in *. split; try done.
    + cbn [h_freep set_h_freep]. rewrite <- EF. unfold N. rewrite fmap_app. apply elem_of_app. right. by left.
    + intros b j [Hne Hb]%lookup_delete_Some. exact (joined_used F U a k F' h m2 b j K7 Hap Ha Hb Hne Hj).
    + intros b j c l [_ Hb]%lookup_delete_Some [_ Hc]%lookup_delete_Some. by apply K8.
    + split; [apply K9|]. intros b j [_ Hb]%lookup_delete_Some. by eapply K9.
Qed.

(** ** Growing the heap *)

Lemma heap_ok_grow F U h m brk :
  heap_ok F U h → (∀ x, x < h_brk h → m x = h_mem h x) → h_brk h ≤ brk < 2^31 → brk mod 8 = 0 →
  heap_ok F U (mkHeap m (h_freep h) brk).
Proof.
  intros [K1 K2 K3 K4 K5 K6 K7 K8 K9] Hm Hb Hal. split; cbn [h_mem h_freep h_brk]; try done; [lia| | | |].
  - eapply seg_frame; [|exact K3]. apply Forall_forall. intros b Hb' x Hx. apply Hm. rewrite Forall_forall in K4.
    pose proof (good_fin _ _ (K4 b Hb')). destruct (K4 b Hb') as [_ ?]. lia.
  - eapply Forall_impl; [exact K4|]. intros b [H1 H2]. split; [done|lia].
  - intros a k Ha. destruct (K7 a k Ha) as (H1 & H2 & H3 & H4 & H5). do 2 (split; [done|]). split; [lia|]. split; [|done].
    rewrite <- H4. apply load32_ext. intros x Hx. apply Hm. lia.
  - split; [done|apply K9].
Qed.

Lemma morecore_ok F U nu h :
  sbrk_ok → heap_ok F U h → 1 ≤ nu < 2^28 → (length F + 1 < fuel)%nat →
  morecore sbrk fuel nu h = Done 0 h ∨
  ∃ F' h', morecore sbrk fuel nu h = Done (h_freep h') h' ∧ heap_ok F' U h' ∧ h_brk h ≤ h_brk h' ∧
    total F' = total F + Z.max nu 4096 ∧ (∃ b, b ∈ F' ∧ nu ≤ b.2) ∧ (length F' ≤ S (length F))%nat ∧
    (∀ lo hi, lo < hi → hi ≤ h_brk h → Forall (clear lo hi) ((base, 0) :: F) → Forall (clear lo hi) ((base, 0) :: F')) ∧
    (∀ x, untouched F x → x < h_brk h → h_mem h' x = h_mem h x).
Proof.
  intros Hsb Hok Hnu Hfuel. unfold morecore. set (n := if nu <? 4096 then 4096 else nu).
  assert (n = Z.max nu 4096) as En by (unfold n; destruct (Z.ltb_spec nu 4096); lia). clearbody n.
  assert (s32 (n * HEADER) = 8 * n) as Es by (unfold HEADER; rewrite s32_id; lia).
  mstep. rewrite Es. pose proof (hk_brk _ _ _ Hok) as Hb. destruct (Hsb (8 * n) h) as [->|(Hmax & m1 & -> & Hm1)]; [lia|by left|right].
  mstep. destruct (Z.eqb_spec (h_brk h) (2^32 - 1)); [lia|]. unfold set_size. mstep. unfold set_h_mem. cbn [h_mem h_freep h_brk].
  set (h1 := mkHeap (store32 m1 (h_brk h + 4) n) (h_freep h) (h_brk h + 8 * n)).
  assert (∀ x, x < h_brk h → h_mem h1 x = h_mem h x) as Hm.
  { intros x Hx. unfold h1, store32. cbn [h_mem]. rewrite writes_out by lia. apply Hm1. lia. }
  assert (heap_ok F U h1) as Hok1 by (apply heap_ok_grow; [done|done|lia|apply align_add, Hok]).
  assert (∀ a k, U !! a = Some k → a + 8 * k ≤ h_brk h ∧ 1 ≤ k) as HU by (intros a k Ha; destruct (hk_used _ _ _ Hok a k Ha); lia).
  assert (Forall (λ b, fin b ≤ h_brk h) ((base, 0) :: F)) as Hfin by (eapply Forall_impl; [apply Hok|]; by intros b [_ ?]).
  destruct (free_block F U (h_brk h) n h1 Hok1) as (F' & h' & He & Hok' & Hb' & [J1 J2 J3 J4 J5]); [lia|apply Hok|lia|cbn; lia| | | |done|].
  { unfold h1. cbn [h_mem]. rewrite load32_store32, u32_id; lia. }
  { eapply Forall_impl; [exact Hfin|]. intros b ?. by right. }
  { intros b j Hbj _. destruct (HU b j Hbj). lia. }
  exists F', h'. unfold HEADER. rewrite He. mstep. split; [done|]. split; [|split; [rewrite Hb'; cbn; lia|split; [lia|split; [|split; [done|split]]]]].
  - rewrite delete_id in Hok'; [done|]. destruct (U !! h_brk h) eqn:E; [|done]. apply HU in E. lia.
  - destruct J2 as (b & H1 & H2). exists b. split; [done|lia].
  - intros lo hi Hlh Hhi Hc. apply J4; [done|]. constructor; [|done]. left. done.
  - intros x Hx Hlt. rewrite J5; [by apply Hm|done|lia].
Qed.

(** ** Taking a block *)

Lemma order_shrink A x b b' B :
  b'.1 = b.1 → fin b' ≤ fin b → StronglySorted before (A ++ x :: b :: B) → StronglySorted before (A ++ x :: b' :: B).
Proof.
  intros E Hf [HA [H1 H2]]%StronglySorted_app. apply StronglySorted_inv in H2 as [H2 Hx]. apply StronglySorted_inv in H2 as [H2 Hb].
  apply Forall_cons in Hx as [Hxb Hx]. unfold before in *. apply StronglySorted_app_2; [|done|].
  - intros y z Hy Hz. apply elem_of_cons in Hz as [->|Hz]; [apply HA; [done|by left]|]. apply elem_of_cons in Hz as [->|Hz].
    + rewrite E. apply (HA y b); [done|right; by left].
    + apply HA; [done|]. right. by right.
  - constructor; [constructor; [done|]|constructor; [by rewrite E|done]]. eapply Forall_impl; [exact Hb|]. cbn. intros. lia.
Qed.

Lemma order_drop A x b B : StronglySorted before (A ++ x :: b :: B) → StronglySorted before (A ++ x :: B).
Proof.
  intros [HA [H1 H2]]%StronglySorted_app. apply StronglySorted_inv in H2 as [H2 Hx]. apply StronglySorted_inv in H2 as [H2 Hb].
  apply Forall_cons in Hx as [Hxb Hx]. apply StronglySorted_app_2; [|done|by constructor].
  intros y z Hy Hz. apply HA; [done|]. apply elem_of_cons in Hz as [->|Hz]; [by left|]. right. by right.
Qed.

(** A block of [n] units at [a], from the free blocks [F] to the used ones. *)
Record taken (F : list (Z * Z)) (a n : Z) (F' : list (Z * Z)) (m m' : mem) : Prop := {
  tk_total : total F' + n = total F;
  tk_within : Exists (λ b, b.1 ≤ a ∧ a + 8 * n ≤ fin b ∧ base + 8 < b.1) F;
  tk_frame x : untouched F x → m' x = m x;
}.

(** Free blocks that shrink, or go, keep the used ones as they are. *)
Lemma heap_ok_take F U a n F' h h' :
  heap_ok F U h → 1 ≤ n → a mod 8 = 0 → taken F a n F' (h_mem h) (h_mem h') → h_brk h' = h_brk h →
  load32 (h_mem h') (a + 4) = n → Forall (clear a (a + 8 * n)) ((base, 0) :: F') →
  (∀ lo hi, Forall (clear lo hi) ((base, 0) :: F) → Forall (clear lo hi) ((base, 0) :: F')) →
  seg (h_mem h') base ((base, 0) :: F') base → Forall (good (h_brk h)) ((base, 0) :: F') → StronglySorted before ((base, 0) :: F') →
  h_freep h' ∈ ((base, 0) :: F').*1 → heap_ok F' (<[a:=n]> U) h'.
Proof.
  intros [K1 K2 K3 K4 K5 K6 K7 K8 K9] Hn Hal [T1 T2 T3] Eb Hsz Hca Hsub Hs Hg Ho Hf.
  assert (∀ b j, U !! b = Some j → a + 8 * n ≤ b ∨ b + 8 * j ≤ a) as Hap.
  { intros b j Hb. destruct (K7 b j Hb) as (_ & Hj & _ & _ & Hc). apply Exists_exists in T2 as (c & Hc1 & Hc2 & Hc3 & Hc4).
    apply Forall_cons in Hc as [_ Hc]. rewrite Forall_forall in Hc. destruct (Hc c Hc1); lia. }
  assert (base + 8 < a ∧ a + 8 * n ≤ h_brk h) as [Ha Ha2].
  { apply Exists_exists in T2 as (c & Hc1 & Hc2 & Hc3 & Hc4). apply Forall_cons in K4 as [_ K4]. rewrite Forall_forall in K4.
    destruct (K4 c Hc1) as [_ ?]. lia. }
  split; rewrite ?Eb; try done.
  - intros b j Hb. apply lookup_insert_Some in Hb as [[<- <-]|[Hne Hb]]; [done|]. destruct (K7 b j Hb) as (U1 & U2 & U3 & U4 & U5).
    do 3 (split; [done|]). split; [|by apply Hsub]. rewrite <- U4. apply load32_ext. intros x Hx. apply T3.
    eapply Forall_impl; [exact U5|]. intros c. unfold clear. lia.
  - intros b j c l Hb Hc Hne. apply lookup_insert_Some in Hb as [[<- <-]|[_ Hb]]; apply lookup_insert_Some in Hc as [[<- <-]|[_ Hc]];
      [done|by apply Hap|specialize (Hap b j Hb); lia|by apply K8].
  - split; [apply K9|]. intros b j [[<- _]|[_ Hb]]%lookup_insert_Some; [done|by eapply K9].
Qed.

(** Two nodes, one after the other. *)
Record pair_at (F A : list (Z * Z)) (x xs q k : Z) (B : list (Z * Z)) (h : heap) : Prop := {
  pa_list : (base, 0) :: F = A ++ (x, xs) :: (q, k) :: B;
  pa_x : base ≤ x ∧ x + 8 ≤ fin (x, xs) ∧ fin (x, xs) < q;
  pa_q : base + 8 < q ∧ 1 ≤ k ∧ q + 8 * k ≤ h_brk h;
  pa_align : q mod 8 = 0;
  pa_seg : seg (h_mem h) base A x ∧ load32 (h_mem h) x = q ∧ load32 (h_mem h) (x + 4) = xs;
  pa_segq : load32 (h_mem h) (q + 4) = k ∧ seg (h_mem h) (load32 (h_mem h) q) B base;
  pa_below : Forall (λ b, fin b < x) A;
  pa_above : Forall (λ b, q + 8 * k < b.1) B;
  pa_first y B' : (x, xs) :: B' = y → A ++ y = (base, 0) :: tl (A ++ y);
}.

Lemma pair_facts F U A x xs q k B h :
  heap_ok F U h → (base, 0) :: F = A ++ (x, xs) :: (q, k) :: B → pair_at F A x xs q k B h.
Proof.
  intros [K1 K2 K3 K4 K5 K6 K7 K8 K9] E. rewrite E in K3, K4, K5. apply seg_app in K3 as (z & S1 & -> & Sx & Eq & Sq & S2).
  apply order_mid in K5 as (O1 & O2 & _ & O4). apply StronglySorted_inv in O4 as [_ Oq].
  apply Forall_cons in O2 as [Hxq Ox]. apply Forall_app in K4 as [GA K4]. apply Forall_cons in K4 as [Gx K4]. apply Forall_cons in K4 as [Gq GB].
  pose proof (good_fin _ _ Gx) as Gfx. pose proof (good_fin _ _ Gq) as Gfq. cbn [fst] in *. unfold before in Hxq. cbn [fst] in Hxq.
  assert (base ≤ x) as Hx by (destruct Gx as [[[= -> ->]|?] _]; cbn [fst] in *; lia).
  assert (base + 8 < q) as Hq by (destruct Gq as [[[= -> ->]|?] _]; cbn [fst] in *; lia).
  assert (q mod 8 = 0) as Hqa by (destruct Gq as [[[= -> ->]|?] _]; cbn [fst] in *; [lia|tauto]).
  rewrite fin_ne in Gfq by lia. destruct Gq as [_ Gq]. rewrite fin_ne in Gq by lia.
  split; try done; [lia| |].
  - eapply Forall_impl; [exact Oq|]. intros b. unfold before. by rewrite fin_ne by lia.
  - intros y B' <-. destruct A as [|b A]; [injection E as <- <- _; done|injection E as <- _; done].
Qed.

Lemma carve_exact F U n A x xs q B h :
  heap_ok F U h → pair_at F A x xs q n B h → 1 ≤ n →
  ∃ F' h', carve n x q h = Done (u32 (q + 8)) h' ∧ heap_ok F' (<[q:=n]> U) h' ∧ h_brk h' = h_brk h ∧
    (length F' ≤ length F)%nat ∧ taken F q n F' (h_mem h) (h_mem h').
Proof.
  intros Hok [E (P1 & P2 & P3) (Q1 & Q2 & Q3) Qa (S1 & S2 & S3) (S4 & S5) PA PB Pf] Hn.
  pose proof Hok as [K1 K2 _ K4 K5 _ _ _ _]. rewrite E in K4, K5. pose proof (Pf _ B eq_refl) as EF. set (F' := tl (A ++ (x, xs) :: B)) in *.
  assert (Forall (good (h_brk h)) (A ++ (x, xs) :: B)) as Hg.
  { apply Forall_app in K4 as [GA K4]. apply Forall_cons in K4 as [Gx K4]. apply Forall_cons in K4 as [_ GB]. apply Forall_app. split; [done|by constructor]. }
  assert (0 ≤ load32 (h_mem h) q < 2^32) as Hy by (eapply seg_start; [exact S5| |done|exact K2]; apply Forall_app in Hg as [_ Hg]; by inversion Hg).
  destruct (store_ptr (h_mem h) x (load32 (h_mem h) q) Hy) as (E1 & E2 & E3).
  exists F', (set_h_freep x (set_h_mem (store32 (h_mem h) x (load32 (h_mem h) q)) h)).
  split; [unfold carve, get_size, get_ptr, set_ptr; mstep; rewrite S4, Z.eqb_refl; done|].
  assert (taken F q n F' (h_mem h) (store32 (h_mem h) x (load32 (h_mem h) q))) as Ht.
  { split.
    - assert (total ((base, 0) :: F) = total ((base, 0) :: F') + n) as Et by (rewrite E, <- EF, !total_app, !total_cons; lia).
      rewrite !total_cons in Et. lia.
    - apply Exists_exists. exists (q, n). split; [|rewrite fin_ne by lia; cbn; lia].
      assert ((q, n) ∈ (base, 0) :: F) as Hin by (rewrite E; apply elem_of_app; right; right; by left).
      apply elem_of_cons in Hin as [[= -> ->]|Hin]; [lia|done].
    - intros z Hz. apply E3. unfold untouched in Hz. rewrite E in Hz. apply Forall_app in Hz as [_ Hz]. apply Forall_cons in Hz as [Hz _].
      unfold clear in Hz. cbn [fst] in Hz. lia. }
  assert (length F' ≤ length F)%nat as Hl.
  { assert (length ((base, 0) :: F) = S (length ((base, 0) :: F'))) as El by (rewrite E, <- EF, !length_app; cbn [length]; lia). cbn [length] in El. lia. }
  split; [|split; [done|split; [done|done]]].
  apply (heap_ok_take F U q n F' h); rewrite <- ?EF; try done; cbn [h_mem h_freep h_brk set_h_freep set_h_mem].
  - rewrite (load32_changed _ _ _ _ _ E3); [done|lia].
  - apply Forall_app. split; [eapply Forall_impl; [exact PA|]; intros b; unfold clear; lia|]. constructor; [right; lia|].
    eapply Forall_impl; [exact PB|]. intros b. unfold clear. lia.
  - intros lo hi. rewrite E, !Forall_app, !Forall_cons. tauto.
  - apply Forall_app in Hg as [GA Hg]. apply Forall_cons in Hg as [_ GB]. apply seg_app. exists x.
    split; [eapply seg_frame; [|exact S1]; eapply same_headers_clear; [exact E3|exact GA|]; eapply Forall_impl; [exact PA|]; intros b; unfold clear; lia|].
    cbn [seg]. split; [done|]. split; [by rewrite E2|]. rewrite E1.
    eapply seg_frame; [|exact S5]. eapply same_headers_clear; [exact E3|exact GB|]. eapply Forall_impl; [exact PB|]. intros b; unfold clear; lia.
  - by eapply order_drop.
  - rewrite fmap_app. apply elem_of_app. right. by left.
Qed.

(** [p->s.size = r] and [q->s.size = n] for the unit [q] further on. *)
Lemma store_sizes m q r a n k :
  0 ≤ r < 2^32 → 0 ≤ n < 2^32 → q + 8 ≤ a → a + 8 ≤ q + 8 * k →
  let m1 := store32 (store32 m (q + 4) r) (a + 4) n in
  load32 m1 q = load32 m q ∧ load32 m1 (q + 4) = r ∧ load32 m1 (a + 4) = n ∧ ∀ x, ¬ (q ≤ x < q + 8 * k) → m1 x = m x.
Proof.
  intros Hr Hn H1 H2 m1. unfold m1. rewrite !(load32_store32_ne _ (a + 4)), load32_store32_ne, !load32_store32, !u32_id by lia.
  do 3 (split; [done|]). intros x Hx. unfold store32. rewrite !writes_out by (cbn [length le32]; lia). done.
Qed.

Lemma carve_split F U n A x xs q k B h :
  heap_ok F U h → pair_at F A x xs q k B h → 1 ≤ n < k →
  let a := q + 8 * (k - n) in
  ∃ F' h', carve n x q h = Done (u32 (a + 8)) h' ∧ heap_ok F' (<[a:=n]> U) h' ∧ h_brk h' = h_brk h ∧
    (length F' ≤ length F)%nat ∧ taken F a n F' (h_mem h) (h_mem h').
Proof.
  intros Hok [E (P1 & P2 & P3) (Q1 & Q2 & Q3) Qa (S1 & S2 & S3) (S4 & S5) PA PB Pf] Hn a.
  pose proof Hok as [K1 K2 _ K4 K5 _ _ _ _]. rewrite E in K4, K5. set (B' := (q, k - n) :: B).
  pose proof (Pf _ B' eq_refl) as EF. set (F' := tl (A ++ (x, xs) :: B')) in *.
  apply Forall_app in K4 as [GA K4]. apply Forall_cons in K4 as [Gx K4]. apply Forall_cons in K4 as [Gq GB].
  destruct (store_sizes (h_mem h) q (k - n) a n k) as (E0 & E1 & E2 & E3); [lia..|].
  set (m1 := store32 (store32 (h_mem h) (q + 4) (k - n)) (a + 4) n) in *.
  exists F', (set_h_freep x (set_h_mem m1 h)).
  split.
  { unfold carve, get_size, set_size. mstep. rewrite S4. destruct (Z.eqb_spec k n); [lia|]. mstep. unfold set_h_mem. cbn [h_mem h_freep h_brk].
    rewrite load32_store32, u32_idem, (u32_id (k - n)) by lia. unfold HEADER. rewrite (u32_id (q + (k - n) * 8)) by lia.
    by replace (q + (k - n) * 8) with a by lia. }
  assert (taken F a n F' (h_mem h) m1) as Ht.
  { split.
    - assert (total ((base, 0) :: F) = total ((base, 0) :: F') + n) as Et by (rewrite E, <- EF; unfold B'; rewrite !total_app, !total_cons; lia).
      rewrite !total_cons in Et. lia.
    - apply Exists_exists. exists (q, k). split; [|rewrite fin_ne by lia; cbn; lia].
      assert ((q, k) ∈ (base, 0) :: F) as Hin by (rewrite E; apply elem_of_app; right; right; by left).
      apply elem_of_cons in Hin as [[= -> ->]|Hin]; [lia|done].
    - intros z Hz. apply E3. unfold untouched in Hz. rewrite E in Hz. apply Forall_app in Hz as [_ Hz]. apply Forall_cons in Hz as [_ Hz].
      apply Forall_cons in Hz as [Hz _]. unfold clear in Hz. rewrite fin_ne in Hz by lia. cbn [fst] in Hz. lia. }
  assert (length F' ≤ length F)%nat as Hl.
  { assert (length ((base, 0) :: F) = length ((base, 0) :: F')) as El by (rewrite E, <- EF, !length_app; done). cbn [length] in El. lia. }
  split; [|split; [done|split; [done|done]]].
  apply (heap_ok_take F U a n F' h); rewrite <- ?EF; try done; cbn [h_mem h_freep h_brk set_h_freep set_h_mem]; unfold B'.
  - lia.
  - by apply align_add.
  - apply Forall_app. split; [eapply Forall_impl; [exact PA|]; intros b; unfold clear; lia|]. constructor; [right; lia|].
    constructor; [right; rewrite fin_ne; lia|]. eapply Forall_impl; [exact PB|]. intros b. unfold clear. lia.
  - intros lo hi. rewrite E, !Forall_app, !Forall_cons. unfold clear. rewrite !(fin_ne q) by lia. cbn [fst]. intuition lia.
  - apply seg_app. exists x.
    split; [eapply seg_frame; [|exact S1]; eapply same_headers_clear; [exact E3|exact GA|]; eapply Forall_impl; [exact PA|]; intros b; unfold clear; lia|].
    cbn [seg]. rewrite !(load32_changed _ _ _ _ _ E3) by lia. do 3 (split; [done|]). split; [done|]. rewrite E0.
    eapply seg_frame; [|exact S5]. eapply same_headers_clear; [exact E3|exact GB|]. eapply Forall_impl; [exact PB|]. intros b; unfold clear; lia.
  - apply Forall_app. split; [done|]. constructor; [done|]. constructor; [|done]. split; [right; cbn; lia|]. rewrite fin_ne; lia.
  - eapply order_shrink; [| |exact K5]; [done|]. rewrite !fin_ne by lia. lia.
  - rewrite fmap_app. apply elem_of_app. right. by left.
Qed.

Lemma carve_ok F U n A x xs q k B h :
  heap_ok F U h → (base, 0) :: F = A ++ (x, xs) :: (q, k) :: B → 1 ≤ n ≤ k →
  ∃ a F' h', carve n x q h = Done (u32 (a + 8)) h' ∧ heap_ok F' (<[a:=n]> U) h' ∧ h_brk h' = h_brk h ∧
    (length F' ≤ length F)%nat ∧ taken F a n F' (h_mem h) (h_mem h').
Proof.
  intros Hok E Hn. pose proof (pair_facts _ _ _ _ _ _ _ _ _ Hok E) as Hp. destruct (decide (k = n)) as [->|Hne].
  - exists q. eapply carve_exact; [done|done|lia].
  - eexists. eapply carve_split; [done|done|lia].
Qed.

(** ** Searching the list *)

Lemma seg_size m x N y b : seg m x N y → b ∈ N → load32 m (b.1 + 4) = b.2.
Proof.
  revert x. induction N as [|[a k] N IH]; intros x Hs Hb; [by apply not_elem_of_nil in Hb|]. destruct Hs as (_ & Hk & Hs).
  apply elem_of_cons in Hb as [->|Hb]; [done|by eapply IH].
Qed.

(** A node and the one it points to. *)
Lemma next_node F U h x n :
  heap_ok F U h → x ∈ ((base, 0) :: F).*1 → n ≤ load32 (h_mem h) (load32 (h_mem h) x + 4) → 1 ≤ n →
  ∃ A xs k B, (base, 0) :: F = A ++ (x, xs) :: (load32 (h_mem h) x, k) :: B ∧ n ≤ k.
Proof.
  intros Hok Hx Hn Hn1. pose proof (hk_list _ _ _ Hok) as Hs. apply list_elem_of_fmap in Hx as ([x' xs] & -> & Hx). cbn [fst] in *.
  apply list_elem_of_split in Hx as (A & C & E). rewrite E in Hs. pose proof (seg_size _ _ _ _ (base, 0) (hk_list _ _ _ Hok) ltac:(by left)) as Hb.
  cbn [fst snd] in Hb. apply seg_app in Hs as (z & _ & -> & _ & Hs). destruct C as [|[c j] C]; cbn [seg] in Hs; [rewrite Hs in Hn; lia|].
  destruct Hs as (Hc & Hj & _). rewrite Hc in *. exists A, xs, j, C. split; [done|lia].
Qed.

(** The nodes between [p] and [freep], which the search has yet to visit. *)
Lemma malloc_search F U n L x p f h r :
  heap_ok F U h → h_freep h = f → x ∈ ((base, 0) :: F).*1 → load32 (h_mem h) x = p → seg (h_mem h) p L f → f ∉ L.*1 →
  (∀ b, b ∈ L → b ∈ (base, 0) :: F) → 1 ≤ n →
  (∃ A y ys q k B, (base, 0) :: F = A ++ (y, ys) :: (q, k) :: B ∧ n ≤ k ∧
     malloc_loop sbrk fuel (S (length L) + r) n x p h = carve n y q h) ∨
  Forall (λ b, b.2 < n) (L ++ [(f, load32 (h_mem h) (f + 4))]) ∧
  malloc_loop sbrk fuel (S (length L) + r) n x p h =
    rbind (morecore sbrk fuel n h) (λ q, if q =? 0 then ret 0 else nx <- get_ptr q ;; malloc_loop sbrk fuel r n q nx).
Proof.
  intros Hok Hf Hx Hxp Hs Hnf HL Hn. revert x p Hx Hxp Hs. induction L as [|[c j] L IH]; intros x p Hx Hxp Hs.
  - cbn [seg] in Hs. subst p. cbn [length Nat.add malloc_loop]. unfold get_size. mstep.
    destruct (Z.leb_spec n (load32 (h_mem h) (load32 (h_mem h) x + 4))) as [Hle|Hgt].
    + left. destruct (next_node F U h x n Hok Hx Hle Hn) as (A & xs & k & B & E & Hk). by eexists _, _, _, _, _, _.
    + right. rewrite Hs in *. split; [by repeat constructor|]. mstep. by rewrite Hf, Z.eqb_refl.
  - destruct Hs as (-> & Hj & Hs). cbn [length Nat.add malloc_loop]. unfold get_size. mstep. rewrite Hj.
    destruct (Z.leb_spec n j) as [Hle|Hgt].
    + left. destruct (next_node F U h x n Hok Hx) as (A & xs & k & B & E & Hk); [by rewrite Hxp, Hj|done|]. rewrite Hxp in E. by eexists _, _, _, _, _, _.
    + rewrite fmap_cons, not_elem_of_cons in Hnf. destruct Hnf as [Hcf Hnf]. mstep. rewrite Hf. destruct (Z.eqb_spec c f); [cbn in Hcf; congruence|].
      unfold get_ptr at 1 2. mstep. destruct (IH Hnf) with (x := c) (p := load32 (h_mem h) c) as [H|[H1 H2]]; [intros; apply HL; by right| |done|done| |].
      * apply list_elem_of_fmap. exists (c, j). split; [done|]. apply HL. by left.
      * left. exact H.
      * right. split; [by constructor|exact H2].
Qed.

(** The list as seen from [freep]. *)
Lemma from_freep F U h :
  heap_ok F U h → ∃ L, seg (h_mem h) (load32 (h_mem h) (h_freep h)) L (h_freep h) ∧ (h_freep h ∉ L.*1) ∧ length L = length F ∧
    (∀ b, b ∈ ((base, 0) :: F) ↔ b ∈ (L ++ [(h_freep h, load32 (h_mem h) (h_freep h + 4))])).
Proof.
  intros Hok. pose proof (hk_freep _ _ _ Hok) as Hf. apply list_elem_of_fmap in Hf as ([f fs] & Ef & Hf). cbn [fst] in Ef. rewrite Ef.
  pose proof (seg_size _ _ _ _ _ (hk_list _ _ _ Hok) Hf) as Hfs. cbn [fst snd] in Hfs. rewrite Hfs. apply list_elem_of_split in Hf as (A & B & E).
  pose proof (hk_list _ _ _ Hok) as Hs. pose proof (hk_order _ _ _ Hok) as Ho. pose proof (hk_good _ _ _ Hok) as Hg. rewrite E in Hs, Ho, Hg.
  apply seg_app in Hs as (z & S1 & -> & _ & S2). apply order_mid in Ho as (O1 & O2 & _ & _). apply Forall_app in Hg as [GA GB]. apply Forall_cons in GB as [Gf _].
  pose proof (good_fin _ _ Gf) as Gff. cbn [fst snd] in *. exists (B ++ A). split; [apply seg_app; eauto|]. split; [|split].
  - intros (b & Hb1 & Hb2)%list_elem_of_fmap. apply elem_of_app in Hb2 as [Hb2|Hb2].
    + rewrite Forall_forall in O2. specialize (O2 b Hb2). unfold before in O2. lia.
    + rewrite Forall_forall in O1, GA. specialize (O1 b Hb2). pose proof (good_fin _ _ (GA b Hb2)). unfold before in O1. cbn [fst] in O1. lia.
  - assert (length ((base, 0) :: F) = length (A ++ (f, fs) :: B)) as El by (by rewrite E). rewrite length_app in *. cbn [length] in El. lia.
  - intros b. rewrite E. set_solver.
Qed.

(** The result of a successful [malloc]. *)
Record got (F : list (Z * Z)) (U : gmap Z Z) (n : Z) (h : heap) (a : Z) (F' : list (Z * Z)) (h' : heap) : Prop := {
  gt_ok : heap_ok F' (<[a:=n]> U) h';
  gt_brk : h_brk h ≤ h_brk h';
  gt_length : (length F' ≤ S (length F))%nat;
  gt_total : total F' + n = total F ∨ total F' + n = total F + Z.max n 4096;
  gt_new : U !! a = None;
  gt_frame x : untouched F x → x < h_brk h → h_mem h' x = h_mem h x;
}.

Lemma fits_found F U n x h r :
  heap_ok F U h → x = h_freep h → 1 ≤ n → Exists (λ b, n ≤ b.2) F →
  ∃ a F' h', malloc_loop sbrk fuel (S (length F) + r) n x (load32 (h_mem h) x) h = Done (u32 (a + 8)) h' ∧
    heap_ok F' (<[a:=n]> U) h' ∧ h_brk h' = h_brk h ∧ (length F' ≤ length F)%nat ∧ taken F a n F' (h_mem h) (h_mem h').
Proof.
  intros Hok -> Hn Hex. destruct (from_freep F U h Hok) as (L & HL1 & HL2 & HL3 & HL4).
  destruct (malloc_search F U n L (h_freep h) (load32 (h_mem h) (h_freep h)) (h_freep h) h r) as [(A & y & ys & q & k & B & E & Hk & Hm)|[Hno _]];
    [done|done|apply Hok|done|done|done| |done| |].
  - intros b Hb. apply HL4, elem_of_app. by left.
  - rewrite HL3 in Hm. rewrite Hm. eapply carve_ok; [done|done|lia].
  - exfalso. apply Exists_exists in Hex as (b & Hb1 & Hb2). rewrite Forall_forall in Hno. specialize (Hno b).
    rewrite <- HL4 in Hno. specialize (Hno ltac:(by right)). cbn in Hno. lia.
Qed.

Lemma taken_new F U a n F' h m' : heap_ok F U h → 1 ≤ n → taken F a n F' (h_mem h) m' → U !! a = None.
Proof.
  intros Hok Hn [_ T2 _]. destruct (U !! a) as [j|] eqn:E; [|done]. destruct (hk_used _ _ _ Hok a j E) as (_ & Hj & _ & _ & Hc).
  apply Exists_exists in T2 as (c & Hc1 & Hc2 & Hc3 & Hc4). apply Forall_cons in Hc as [_ Hc]. rewrite Forall_forall in Hc. destruct (Hc c Hc1); lia.
Qed.

Lemma freep_pos F U h : heap_ok F U h → h_freep h ≠ 0.
Proof.
  intros Hok Hz. pose proof (hk_freep _ _ _ Hok) as Hf. rewrite Hz in Hf. apply list_elem_of_fmap in Hf as (b & Hb & Hin).
  pose proof (hk_good _ _ _ Hok) as Hg. rewrite Forall_forall in Hg.
  destruct (Hg b Hin) as [[->|?] _]; cbn in *; pose proof (hk_base _ _ _ Hok); lia.
Qed.

(** A search from [freep], on a list that exists. *)
Lemma malloc_loop_ok F U n h r :
  sbrk_ok → heap_ok F U h → 1 ≤ n < 2^28 → (length F + 1 < fuel)%nat →
  let run := malloc_loop sbrk fuel (S (length F) + (S (S (length F)) + r)) n (h_freep h) (load32 (h_mem h) (h_freep h)) h in
  run = Done 0 h ∧ Forall (λ b, b.2 < n) F ∨ ∃ a F' h', run = Done (u32 (a + 8)) h' ∧ got F U n h a F' h'.
Proof.
  intros Hsb Hok Hn Hfuel run. destruct (from_freep F U h Hok) as (L & HL1 & HL2 & HL3 & HL4).
  destruct (malloc_search F U n L (h_freep h) (load32 (h_mem h) (h_freep h)) (h_freep h) h (S (S (length F)) + r))
    as [(A & y & ys & q & k & B & E & Hk & Hm)|[Hno Hm]]; [done|done|apply Hok|done|done|done| |lia| |].
  { intros b Hb. apply HL4, elem_of_app. by left. }
  - right. unfold run. rewrite HL3 in Hm. rewrite Hm. destruct (carve_ok F U n A y ys q k B h) as (a & F' & h' & He & Hok' & Hb & Hl & Ht); [done|done|lia|].
    exists a, F', h'. split; [done|]. split; [done|lia|lia|left; apply Ht|by eapply taken_new; [..|exact Ht]; [exact Hok|lia]|]. intros x Hx _. by apply Ht.
  - unfold run. rewrite HL3 in Hm. rewrite Hm. clear run Hm. destruct (morecore_ok F U n h Hsb Hok Hn Hfuel) as [->|(F1 & h1 & -> & Hok1 & Hb1 & Ht1 & Hex & Hl1 & Hc1 & Hm1)].
    { left. split; [done|]. rewrite Forall_forall in Hno. apply Forall_forall. intros b Hb. apply Hno, HL4. by right. }
    right. mstep. destruct (Z.eqb_spec (h_freep h1) 0) as [Hz|_]; [exfalso; by eapply freep_pos|].
    unfold get_ptr. mstep. replace (S (S (length F)) + r)%nat with (S (length F1) + (S (length F) - length F1 + r))%nat by lia.
    destruct (fits_found F1 U n (h_freep h1) h1 (S (length F) - length F1 + r)) as (a & F' & h' & -> & Hok' & Hb & Hl & Ht); [done|done|lia|by apply Exists_exists|].
    exists a, F', h'. split; [done|]. split; [done|lia|lia| |by eapply taken_new; [..|exact Ht]; [exact Hok1|lia]|].
    + pose proof (tk_total _ _ _ _ _ _ Ht). right. lia.
    + intros x Hx Hlt. rewrite (tk_frame _ _ _ _ _ _ Ht); [by apply Hm1|]. apply Hc1; [lia|lia|done].
Qed.

(** The first call makes the list. *)
Lemma malloc_first h :
  h_freep h = 0 → 0 < base → base + 8 < h_brk h < 2^31 → h_brk h mod 8 = 0 →
  let h1 := set_h_mem (store32 (store32 (h_mem h) base base) (base + 4) 0) (set_h_freep base h) in
  heap_ok [] ∅ h1 ∧ ∀ x, untouched [] x → h_mem h1 x = h_mem h x.
Proof.
  intros Hf Hb Hbrk Hal h1. split.
  - split; cbn [h1 set_h_mem h_brk h_mem h_freep set_h_freep]; try done.
    + cbn [seg]. rewrite load32_store32, load32_store32_ne, load32_store32, !u32_id by lia. done.
    + constructor; [|constructor]. split; [by left|]. unfold fin. cbn. rewrite Z.eqb_refl. lia.
    + repeat constructor.
    + by left.
  - intros x Hx. apply Forall_cons in Hx as [Hx _]. unfold clear, fin in Hx. cbn [fst] in Hx. rewrite Z.eqb_refl in Hx.
    cbn [h1 set_h_mem h_mem set_h_freep]. unfold store32. rewrite !writes_out by (cbn [length le32]; lia). done.
Qed.

Lemma malloc_ok F U nbytes h :
  sbrk_ok → heap_inv F U h → 0 ≤ nbytes ≤ 2^31 - 16 → (2 * length F + 3 ≤ fuel)%nat →
  let n := (nbytes + 7) / 8 + 1 in
  (∃ h', malloc base sbrk fuel nbytes h = Done 0 h' ∧ heap_inv F U h' ∧ Forall (λ b, b.2 < n) F ∧
     ∀ x, untouched F x → h_mem h' x = h_mem h x) ∨
  ∃ a F' h', malloc base sbrk fuel nbytes h = Done (a + 8) h' ∧ got F U n h a F' h'.
Proof.
  intros Hsb Hinv Hnb Hfuel n.
  assert (1 ≤ n < 2^28) as Hn by (unfold n; Z.div_mod_to_equations; lia).
  assert (u32 (u32 (nbytes + HEADER - 1) / HEADER + 1) = n) as En.
  { unfold HEADER. rewrite (u32_id (nbytes + 8 - 1)) by lia. replace (nbytes + 8 - 1) with (nbytes + 7) by lia. apply u32_id. fold n. lia. }
  assert (∀ F h0 a F' h', 0 < base → got F U n h0 a F' h' → u32 (a + 8) = a + 8) as Eu.
  { intros F0 h0 a F' h' Hb [G _ _ _ _ _]. destruct (hk_used _ _ _ G a n) as (? & ? & ? & _); [apply lookup_insert_eq|].
    pose proof (hk_brk _ _ _ G). apply u32_id. lia. }
  unfold malloc. mstep. rewrite En. destruct Hinv as [Hok|(-> & -> & Hf & Hb & Hbrk & Hal)].
  - destruct (Z.eqb_spec (h_freep h) 0) as [Hz|_]; [exfalso; by eapply freep_pos|]. unfold get_ptr. mstep.
    pose proof (malloc_loop_ok F U n h (fuel - (2 * length F + 3)) Hsb Hok Hn ltac:(lia)) as Hm. cbv zeta in Hm.
    replace (S (length F) + (S (S (length F)) + (fuel - (2 * length F + 3))))%nat with fuel in Hm by lia.
    destruct Hm as [[-> Hno]|(a & F' & h' & -> & Hg)].
    + left. exists h. split; [done|]. split; [by left|done].
    + right. exists a, F', h'. by rewrite (Eu F h a F' h') by (done || apply Hok).
  - rewrite Hf. cbn [Z.eqb]. unfold set_ptr, set_size, get_ptr. mstep. destruct (malloc_first h Hf Hb Hbrk Hal) as [Hok Hfr].
    set (h1 := set_h_mem _ _) in *. change (h_mem (set_h_freep base h)) with (h_mem h).
    pose proof (malloc_loop_ok [] ∅ n h1 (fuel - 3) Hsb Hok Hn ltac:(cbn in *; lia)) as Hm. cbv zeta in Hm.
    replace (S (length []) + (S (S (length [])) + (fuel - 3)))%nat with fuel in Hm by (cbn in *; lia).
    change (h_freep h1) with base in Hm. destruct Hm as [[-> Hno]|(a & F' & h' & -> & Hg)].
    + left. exists h1. split; [done|]. split; [by left|done].
    + right. exists a, F', h'. rewrite (Eu [] h1 a F' h') by done. split; [done|]. destruct Hg as [G1 G2 G3 G4 G5 G6]. split; try done.
      intros x Hx Hlt. rewrite G6 by done. by apply Hfr.
Qed.

(** Used blocks have the same bytes in both. *)
Definition kept (U : gmap Z Z) (h h' : heap) : Prop :=
  ∀ a k x, U !! a = Some k → a ≤ x < a + 8 * k → h_mem h' x = h_mem h x.

Lemma used_untouched F U h a k x : heap_ok F U h → U !! a = Some k → a ≤ x < a + 8 * k → untouched F x ∧ x < h_brk h.
Proof.
  intros Hok Ha Hx. destruct (hk_used _ _ _ Hok a k Ha) as (_ & _ & H1 & _ & H2). split; [|lia].
  eapply Forall_impl; [exact H2|]. intros b. unfold clear. lia.
Qed.

End Heap.

(** C20: [malloc] and [free] keep separate blocks separate.  As long as the heap is well
    formed (the circular list of free blocks in address order, the used blocks [U],
    no two of all these overlapping, each aligned to 8 bytes, and so the break),
    [malloc] of less than 2^31 bytes either returns 0, which it only does when no free
    block is large enough, or a block with room for them, aligned to 8 bytes, that
    overlaps no used block and counts as used from then on; [free] of a used block makes it free again; both always return, no
    byte of any other used block changes, and no memory is lost: what leaves the
    free list is used, and the list grows by what is freed or taken from the system. *)
Theorem heap_allocator base sbrk fuel F U h :
  sbrk_ok sbrk → heap_inv base F U h → (2 * length F + 3 ≤ fuel)%nat →
  (∀ nbytes, 0 ≤ nbytes ≤ 2^31 - 16 →
     (∃ h', malloc base sbrk fuel nbytes h = Done 0 h' ∧ heap_inv base F U h' ∧ kept U h h' ∧
        Forall (λ b, 8 * b.2 - 8 < nbytes) F) ∨
     ∃ a n F' h', malloc base sbrk fuel nbytes h = Done (a + 8) h' ∧ nbytes ≤ 8 * n - 8 ∧ (8 | a + 8) ∧ U !! a = None ∧
       heap_ok base F' (<[a:=n]> U) h' ∧ kept U h h' ∧ (total F' + n = total F ∨ total F' + n = total F + Z.max n 4096)) ∧
  (∀ a n, U !! a = Some n → ∃ F' h', free fuel (a + 8) h = Done tt h' ∧
     heap_ok base F' (delete a U) h' ∧ kept (delete a U) h h' ∧ total F' = total F + n).
Proof.
  intros Hsb Hinv Hfuel. split.
  - intros nbytes Hn. destruct (malloc_ok base sbrk fuel F U nbytes h Hsb Hinv Hn Hfuel) as [(h' & He & Hi & Hno & Hfr)|(a & F' & h' & He & [G1 G2 G3 G4 G5 G6])].
    + left. exists h'. do 2 (split; [done|]). split; [|eapply Forall_impl; [exact Hno|]; cbn; intros b; Z.div_mod_to_equations; lia].
      intros a k x Ha Hx. apply Hfr. destruct Hinv as [Hok|(_ & -> & _)]; [|done]. by eapply used_untouched.
    + right. exists a. eexists _, F', h'. split; [done|]. split; [|split; [|split; [done|split; [done|split; [|done]]]]]; [Z.div_mod_to_equations; lia| |].
      { destruct (hk_align _ _ _ _ G1) as [_ Hal]. apply (Z.mod_divide (a + 8) 8), (align_add a 1), (Hal a _ (lookup_insert_eq U a _)); lia. }
      intros b k x Hb Hx. destruct Hinv as [Hok|(_ & -> & _)]; [|done]. by apply G6; eapply used_untouched.
  - intros a n Ha. destruct Hinv as [Hok|(_ & -> & _)]; [|done]. destruct (hk_used _ _ _ _ Hok a n Ha) as (H1 & H2 & H3 & H4 & H5).
    pose proof (hk_brk _ _ _ _ Hok) as Hb. pose proof (hk_base _ _ _ _ Hok) as Hb0.
    destruct (free_block base fuel F U a n h Hok H1 (proj2 (hk_align _ _ _ _ Hok) a n Ha) H2 H3 H4 H5) as (F' & h' & He & Hok' & _ & HJ); [|lia|].
    { intros b j Hbj Hne. by eapply (hk_apart _ _ _ _ Hok a n b j). }
    rewrite u32_id in He by lia. exists F', h'. split; [done|]. split; [done|]. split; [|apply HJ].
    intros b j x [Hne Hbj]%lookup_delete_Some Hx. destruct (used_untouched _ _ _ _ _ _ _ Hok Hbj Hx) as [Hu _].
    apply (jn_frame _ _ _ _ _ _ _ HJ); [done|]. destruct (hk_apart _ _ _ _ Hok a n b j Ha Hbj Hne); lia.
Qed.

(** A process with [base] at 64, and a system call that always has more memory. *)
Module HeapDemo.
Definition sbrk (n : Z) : M heap Z := λ h,
  if h_brk h + n <? 2^31 then Done (h_brk h) (mkHeap (h_mem h) (h_freep h) (h_brk h + n)) else Done (2^32 - 1) h.
Definition h0 : heap := mkHeap (λ _, 0) 0 4096.
End HeapDemo.

Lemma heap_allocator_witness :
  ∃ a n h', malloc 64 HeapDemo.sbrk 9 100 HeapDemo.h0 = Done (a + 8) h' ∧ 100 ≤ 8 * n - 8 ∧ (8 | a + 8).
Proof.
  destruct (heap_allocator 64 HeapDemo.sbrk 9 [] ∅ HeapDemo.h0) as [Hm _].
  - intros n h Hn. unfold HeapDemo.sbrk. destruct (Z.ltb_spec (h_brk h + n) (2^31)); [right|by left].
    split; [done|]. by exists (h_mem h).
  - right. cbn. by split_and!; try lia.
  - cbn. lia.
  - destruct (Hm 100 ltac:(lia)) as [(h' & He & _)|(a & n & F' & h' & He & Hn & Ha & _)].
    + exfalso. assert (∃ x h1, malloc 64 HeapDemo.sbrk 9 100 HeapDemo.h0 = Done (Zpos x) h1) as (x & h1 & E) by (eexists _, _; reflexivity).
      congruence.
    + exists a, n, h'. by split_and!.
Defined.

(** The size computation wraps: a request of 2^32 - 7 bytes or more is rounded to a
    block of one unit, a header without room for a single byte. *)
Lemma malloc_wraps nbytes : 2^32 - 7 ≤ nbytes < 2^32 → u32 (u32 (nbytes + HEADER - 1) / HEADER + 1) = 1.
Proof.
  intros H. unfold HEADER. replace (u32 (nbytes + 8 - 1)) with (nbytes + 7 - 2^32); [|unfold u32; rewrite <- (Z.mod_unique (nbytes + 8 - 1) (2^32) 1 (nbytes + 7 - 2^32)); lia].
  rewrite Z.div_small by lia. reflexivity.
Qed.
