(* ===== verification/Printf.v ===== *)
(** printf.c: formatted output of user programs, one byte per system call.  The
    numbers are printed by [printint], which console.c has in almost the same form;
    what they share is here. *)
From S2P Require Import Prelude Mem Str.

(** The characters of a string constant. *)
Definition chars (s : string) : list Z := (λ c, Z.of_N (Ascii.N_of_ascii c)) <$> String.list_ascii_of_string s.
Definition charsln (s : string) : list Z := chars s ++ [10].

Lemma charsln_bytes s : Forall (λ c, 0 ≤ c < 256) (charsln s).
Proof.
  apply Forall_app. split; [|by apply Forall_singleton]. apply Forall_fmap, Forall_forall. intros c _. cbn.
  pose proof (Ascii.N_ascii_bounded c). lia.
Qed.

(** * Numbers *)

(** [do{ buf[i++] = digits[x % base]; }while((x /= base) != 0)] with [room] bytes
    left in [buf]; [None] is a store beyond its end. *)
Fixpoint digit_loop (room : nat) (digits : list Z) (base x : Z) (buf : list Z) : option (list Z) :=
  match room with
  | O => None
  | S room' =>
    let buf' := buf ++ [digits !!! Z.to_nat (x mod base)] in
    if x / base =? 0 then Some buf' else digit_loop room' digits base (x / base) buf'
  end.

(** The bytes [printint] has in [buf[16]], least significant first. *)
Definition printint_buf (digits : list Z) (xx base : Z) (sgn : bool) : option (list Z) :=
  let neg := sgn && (xx <? 0) in
  let x := if neg then u32 (- xx) else u32 xx in
  buf ← digit_loop 16 digits base x [];
  if neg then if (length buf <? 16)%nat then Some (buf ++ [45]) else None else Some buf.

(** * The system calls a program makes *)

Record stat := mkStat { st_type : Z; st_dev : Z; st_ino : Z; st_nlink : Z; st_size : Z }.

Class Unix (St : Type) := {
  open : list Z → Z → M St Z;
  close : Z → M St Z;
  read : Z → Z → M St (Z * list Z);  (* the result, and the bytes stored *)
  write : Z → list Z → M St Z;
  fstat : Z → M St (Z * stat);
  link : list Z → list Z → M St Z;
  unlink : list Z → M St Z;
  mkdir : list Z → M St Z;
  kill : Z → M St Z;
}.

(** [exit] does not return: the program gives up the CPU for good. *)
Definition exit {St A} : M St A := λ s, Switch s (λ _, Spin).

(** What a program may expect of descriptors: [input] is what is left to read,
    [output] what was written.  A read returns some of the input, and nothing only
    at its end. *)
Class UnixLaws (St : Type) {UX : Unix St} := {
  input : St → gmap Z (list Z);
  output : St → gmap Z (list Z);
  read_law fd n s bs : input s !! fd = Some bs → 0 < n →
    ∃ k s', read fd n s = Done (Z.of_nat k, take k bs) s' ∧ (k ≤ length bs)%nat ∧ Z.of_nat k ≤ n ∧
      (k = O → bs = []) ∧ input s' = <[fd := drop k bs]> (input s) ∧ output s' = output s;
  write_law fd bs s o : output s !! fd = Some o →
    ∃ s', write fd bs s = Done (Z.of_nat (length bs)) s' ∧ output s' = <[fd := o ++ bs]> (output s) ∧ input s' = input s;
}.

(** * printf *)

Definition digits : list Z := [48; 49; 50; 51; 52; 53; 54; 55; 56; 57; 65; 66; 67; 68; 69; 70].
Definition null_str : list Z := [40; 110; 117; 108; 108; 41].  (* "(null)" *)

Section Printf.
Context {St : Type} {UX : Unix St}.
(** The memory of the process, and a bound on the length of strings. *)
Context (m : mem) (fuel : nat).

Definition putc (fd c : Z) : M St unit := write fd [u8 c] ;;; ret tt.

Definition printint (fd xx base : Z) (sgn : bool) : M St unit :=
  match printint_buf digits xx base sgn with
  | None => panic "buf"
  | Some buf => for_each (rev buf) (putc fd)
  end.

(** [while( *s != 0){ putc(fd, *s); s++; }] *)
Fixpoint puts (n : nat) (fd s : Z) : M St unit :=
  match n with
  | O => λ _, Fuel
  | S n' => if m s =? 0 then ret tt else putc fd (m s) ;;; puts n' fd (s + 1)
  end.

(** One conversion; [ap] is the next argument.  Whether it was used. *)
Definition printf_conv (fd c ap : Z) : M St bool :=
  if c =? 100 then printint fd (s32 ap) 10 true ;;; ret true
  else if (c =? 120) || (c =? 112) then printint fd (s32 ap) 16 false ;;; ret true
  else if c =? 115 then
    (if ap =? 0 then for_each null_str (putc fd) else puts fuel fd ap) ;;; ret true
  else if c =? 99 then putc fd ap ;;; ret true
  else if c =? 37 then putc fd c ;;; ret false
  else putc fd 37 ;;; putc fd c ;;; ret false.

(** The loop; [state] is whether a ['%'] came before.  The arguments are the words of
    the stack above [fmt]; [ap] counts them. *)
Fixpoint printf_loop (fd : Z) (stack : nat → Z) (fmt : list Z) (state : bool) (ap : nat) : M St unit :=
  match fmt with
  | [] => ret tt
  | c :: fmt' =>
    if negb state then
      if c =? 37 then printf_loop fd stack fmt' true ap
      else putc fd c ;;; printf_loop fd stack fmt' false ap
    else
      used <- printf_conv fd c (stack ap) ;;
      printf_loop fd stack fmt' false (if used : bool then S ap else ap)
  end.

Definition printf (fd : Z) (fmt : list Z) (stack : nat → Z) : M St unit := printf_loop fd stack fmt false 0.

End Printf.

(** * What is printed *)

(** The number with the digits [ds], the most significant first. *)
Definition of_digits (base : Z) (ds : list Z) : Z := foldl (λ acc d, acc * base + d) 0 ds.

Lemma of_digits_snoc base ds d : of_digits base (ds ++ [d]) = of_digits base ds * base + d.
Proof. unfold of_digits. by rewrite foldl_app. Qed.

(** [ds] is how [x] is written in [base]. *)
Record numeral (base x : Z) (ds : list Z) : Prop := {
  nu_value : of_digits base ds = x;
  nu_digits : Forall (λ d, 0 ≤ d < base) ds;
  nu_first : x ≠ 0 → hd_error ds ≠ Some 0;
  nu_length : (1 ≤ length ds)%nat;
}.

(** The loop stores the digits of [x], as many as it has. *)
Lemma digit_loop_ok tbl base n room x buf :
  1 < base → 0 ≤ x < base ^ Z.of_nat (S n) → (n ≤ room)%nat →
  ∃ ds, digit_loop (S room) tbl base x buf = Some (buf ++ rev ((λ d, tbl !!! Z.to_nat d) <$> ds)) ∧
    numeral base x ds ∧ (length ds ≤ S n)%nat.
Proof.
  intros Hb. revert room x buf. induction n as [|n IH]; intros room x buf Hx Hr; cbn [digit_loop];
    pose proof (Z.mod_pos_bound x base ltac:(lia)) as Hm; pose proof (Z.div_mod x base ltac:(lia)) as Hd.
  - change (Z.of_nat 1) with 1 in Hx. rewrite Z.pow_1_r in Hx. rewrite Z.div_small in * by done. cbn [Z.eqb].
    exists [x mod base]. split; [done|]. split; [|done]. split; [unfold of_digits; cbn; lia|apply Forall_singleton; lia| |done].
    cbn. intros Hne [= E]. lia.
  - destruct (Z.eqb_spec (x / base) 0) as [Hz|Hnz].
    + exists [x mod base]. split; [done|]. split; [|cbn; lia]. split; [unfold of_digits; cbn; lia|apply Forall_singleton; lia| |done].
      cbn. intros Hne [= E]. lia.
    + destruct room as [|room]; [lia|]. destruct (IH room (x / base) (buf ++ [tbl !!! Z.to_nat (x mod base)])) as (ds & -> & [N1 N2 N3 N4] & Hl).
      { split; [apply Z.div_pos; lia|]. apply Z.div_lt_upper_bound; [lia|]. rewrite Nat2Z.inj_succ, Z.pow_succ_r in Hx by lia. lia. }
      { lia. }
      exists (ds ++ [x mod base]). rewrite fmap_app, rev_app_distr, <- app_assoc. split; [done|]. split; [|rewrite length_app; cbn; lia]. split.
      * rewrite of_digits_snoc, N1. lia.
      * apply Forall_app. split; [done|apply Forall_singleton; lia].
      * intros _. destruct ds as [|d ds]; [cbn in N4; lia|]. by apply N3.
      * rewrite length_app. lia.
Qed.

(** The characters of a number, the sign first. *)
Definition written (digits : list Z) (base xx : Z) (sgn : bool) (l : list Z) : Prop :=
  let neg := sgn && (xx <? 0) in
  ∃ ds, numeral base (if neg then - xx else u32 xx) ds ∧
    l = (if neg then [45] else []) ++ ((λ d, digits !!! Z.to_nat d) <$> ds).

Lemma printint_buf_ok tbl xx base sgn :
  (base = 10 ∨ base = 16) → - 2^31 ≤ xx < 2^31 →
  ∃ buf, printint_buf tbl xx base sgn = Some buf ∧ (length buf ≤ 11)%nat ∧ written tbl base xx sgn (rev buf).
Proof.
  intros Hb Hx. unfold printint_buf, written. set (neg := sgn && (xx <? 0)).
  set (x := if neg then u32 (- xx) else u32 xx).
  assert (0 ≤ x < 2^32) as Hx32 by (unfold x; destruct neg; apply u32_range).
  assert ((if neg then - xx else u32 xx) = x) as ->.
  { unfold x. destruct neg eqn:E; [|done]. apply andb_prop in E as [_ ?%Z.ltb_lt]. rewrite u32_id; lia. }
  destruct (digit_loop_ok tbl base 9 15 x []) as (ds & -> & Hn & Hl); [lia|destruct Hb as [->| ->]; lia|lia|].
  cbn [mbind option_bind app]. destruct neg.
  - rewrite length_rev, length_fmap. destruct (Nat.ltb_spec (length ds) 16); [|lia]. eexists. split; [done|].
    rewrite length_app, length_rev, length_fmap, rev_app_distr, rev_involutive. split; [cbn; lia|]. by exists ds.
  - eexists. split; [done|]. rewrite length_rev, length_fmap, rev_involutive. split; [lia|]. by exists ds.
Qed.

(** ** The output of a program *)

Section Emits.
Context {St : Type} {UX : Unix St} {UL : UnixLaws St}.

(** A computation that writes [l] to [fd], does nothing else, and returns [a]. *)
Definition emits {A} (c : M St A) (fd : Z) (l : list Z) (a : A) : Prop :=
  ∀ s o, output s !! fd = Some o →
    ∃ s', c s = Done a s' ∧ output s' = <[fd := o ++ l]> (output s) ∧ input s' = input s.

Lemma emits_ret {A} (a : A) fd : emits (ret a) fd [] a.
Proof. intros s o Ho. exists s. rewrite app_nil_r, insert_id by done. done. Qed.

Lemma emits_bind {A B} (c : M St A) (f : A → M St B) fd l1 l2 a b :
  emits c fd l1 a → emits (f a) fd l2 b → emits (bind c f) fd (l1 ++ l2) b.
Proof.
  intros Hc Hf s o Ho. destruct (Hc s o Ho) as (s1 & H1 & O1 & I1).
  destruct (Hf s1 (o ++ l1)) as (s2 & H2 & O2 & I2); [rewrite O1; apply lookup_insert_eq|].
  exists s2. mstep. rewrite H1. mstep. rewrite H2. split; [done|]. rewrite O2, O1, insert_insert_eq, app_assoc. split; [done|congruence].
Qed.

Lemma emits_seq {A B} (c : M St A) (d : M St B) fd l1 l2 a b :
  emits c fd l1 a → emits d fd l2 b → emits (c ;;; d) fd (l1 ++ l2) b.
Proof. intros Hc Hd. by eapply emits_bind. Qed.

Lemma emits_then {A B} (c : M St A) (b : B) fd l a : emits c fd l a → emits (c ;;; ret b) fd l b.
Proof. intros Hc. rewrite <- (app_nil_r l). eapply emits_seq; [done|apply emits_ret]. Qed.

Lemma putc_emits fd c : emits (putc fd c) fd [u8 c] tt.
Proof.
  unfold putc. eapply emits_then. intros s o Ho. destruct (write_law fd [u8 c] s o Ho) as (s' & He & ? & ?). by exists s'.
Qed.

Lemma each_emits fd l : emits (for_each l (putc fd)) fd (u8 <$> l) tt.
Proof. induction l as [|c l IH]; [apply emits_ret|]. apply (emits_bind _ _ _ [u8 c] _ tt); [apply putc_emits|done]. Qed.

Lemma puts_emits m n fd s l : cstr m s l → (length l < n)%nat → emits (puts m n fd s) fd l tt.
Proof.
  revert s n. induction l as [|b l IH]; intros s [|n] Hs Hn; try (cbn in Hn; lia).
  - apply cstr_nil in Hs. cbn [puts]. rewrite Hs. apply emits_ret.
  - apply cstr_cons in Hs as (Hb & Hr & Hs). cbn [puts]. destruct (Z.eqb_spec (m s) 0); [lia|]. rewrite Hb.
    replace (b :: l) with ([u8 b] ++ l) by (by rewrite u8_id by lia). apply (emits_bind _ _ _ [u8 b] _ tt); [apply putc_emits|]. apply IH; [done|cbn in Hn; lia].
Qed.

End Emits.

(** ** What [printf] means *)

(** The characters of a number. *)
Definition number (xx base : Z) (sgn : bool) : list Z := default [] (@rev Z <$> printint_buf digits xx base sgn).

Lemma digits_bytes xx base sgn l : base = 10 ∨ base = 16 → written digits base xx sgn l → u8 <$> l = l.
Proof.
  intros Hb (ds & [_ Hd _ _] & ->). rewrite fmap_app. f_equal; [by destruct (_ && _)|]. rewrite <- list_fmap_compose.
  apply list_fmap_ext. intros k d Hk. rewrite Forall_lookup in Hd. specialize (Hd k d Hk). cbn.
  assert (forallb (λ d, u8 (digits !!! Z.to_nat d) =? digits !!! Z.to_nat d) (seqZ 0 16) = true) as Ha by reflexivity.
  rewrite forallb_forall in Ha. apply Z.eqb_eq, Ha, list_elem_of_In, elem_of_seqZ. destruct Hb as [->| ->]; lia.
Qed.

Section Format.
(** The string at an address. *)
Context (str : Z → list Z) (stack : nat → Z).

Definition conv (c a : Z) : list Z * bool :=
  if c =? 100 then (number (s32 a) 10 true, true)
  else if (c =? 120) || (c =? 112) then (number (s32 a) 16 false, true)
  else if c =? 115 then (if a =? 0 then null_str else str a, true)
  else if c =? 99 then ([u8 a], true)
  else if c =? 37 then ([37], false)
  else ([37; c], false).

Definition next (ap : nat) (b : bool) : nat := if b then S ap else ap.

Fixpoint format (fmt : list Z) (ap : nat) : list Z :=
  match fmt with
  | [] => []
  | c :: fmt1 =>
    if c =? 37 then
      match fmt1 with
      | [] => []
      | d :: fmt2 => (conv d (stack ap)).1 ++ format fmt2 (next ap (conv d (stack ap)).2)
      end
    else c :: format fmt1 ap
  end.

(** The arguments of ["%s"] are strings in [m] of less than [fuel] characters. *)
Fixpoint strings_ok (m : mem) (fuel : nat) (fmt : list Z) (ap : nat) : Prop :=
  match fmt with
  | [] => True
  | c :: fmt1 =>
    if c =? 37 then
      match fmt1 with
      | [] => True
      | d :: fmt2 =>
        (d = 115 → stack ap ≠ 0 → cstr m (stack ap) (str (stack ap)) ∧ (length (str (stack ap)) < fuel)%nat) ∧
        strings_ok m fuel fmt2 (next ap (conv d (stack ap)).2)
      end
    else strings_ok m fuel fmt1 ap
  end.

Context {St : Type} {UX : Unix St} {UL : UnixLaws St} (m : mem) (fuel : nat).

Lemma printint_emits fd xx base sgn :
  base = 10 ∨ base = 16 → - 2^31 ≤ xx < 2^31 → emits (printint fd xx base sgn) fd (number xx base sgn) tt.
Proof.
  intros Hb Hx. destruct (printint_buf_ok digits xx base sgn Hb Hx) as (buf & E & _ & Hw). unfold printint, number. rewrite E.
  cbn [default fmap option_fmap option_map]. rewrite <- (digits_bytes _ _ _ _ Hb Hw) at 2. apply each_emits.
Qed.

Lemma conv_emits fd c a :
  0 ≤ c < 256 → (c = 115 → a ≠ 0 → cstr m a (str a) ∧ (length (str a) < fuel)%nat) →
  emits (printf_conv m fuel fd c a) fd (conv c a).1 (conv c a).2.
Proof.
  intros Hc Hs. unfold printf_conv, conv. pose proof (s32_range a) as Hr. change (2^31) with (2 ^ 31) in Hr.
  destruct (Z.eqb_spec c 100); [apply (emits_then _ _ _ _ tt), printint_emits; auto; lia|].
  destruct ((c =? 120) || (c =? 112)); [apply (emits_then _ _ _ _ tt), printint_emits; auto; lia|].
  destruct (Z.eqb_spec c 115) as [->|].
  { cbn [fst snd]. apply (emits_then _ _ _ _ tt). destruct (Z.eqb_spec a 0); [apply each_emits|]. destruct (Hs eq_refl) as [H1 H2]; [done|]. by apply puts_emits. }
  destruct (Z.eqb_spec c 99); [apply (emits_then _ _ _ _ tt), putc_emits|].
  destruct (Z.eqb_spec c 37) as [->|]; [apply (emits_then _ _ _ _ tt), (putc_emits fd 37)|]. cbn [fst snd].
  replace [37; c] with ([37] ++ [u8 c]) by (by rewrite u8_id). apply (emits_bind _ _ fd [37] [u8 c] tt); [apply (putc_emits fd 37)|]. apply (emits_then _ _ _ _ tt), putc_emits.
Qed.

Lemma printf_loop_emits fd n fmt ap :
  (length fmt ≤ n)%nat → Forall (λ c, 0 ≤ c < 256) fmt → strings_ok m fuel fmt ap →
  emits (printf_loop m fuel fd stack fmt false ap) fd (format fmt ap) tt.
Proof.
  revert fmt ap. induction n as [|n IH]; intros [|c fmt] ap Hn Hc Hs; try (cbn in Hn; lia); try apply emits_ret.
  apply Forall_cons in Hc as [Hc Hf]. cbn [printf_loop negb format strings_ok] in *. destruct (Z.eqb_spec c 37).
  - destruct fmt as [|d fmt]; [apply emits_ret|]. apply Forall_cons in Hf as [Hd Hf]. destruct Hs as [Hs1 Hs2]. cbn [printf_loop negb].
    eapply emits_bind; [apply conv_emits; [done|exact Hs1]|]. apply IH; [cbn in *; lia|done|done].
  - replace (c :: format fmt ap) with ([u8 c] ++ format fmt ap) by (by rewrite u8_id). apply (emits_bind _ _ fd [u8 c] _ tt); [apply putc_emits|]. apply IH; [cbn in *; lia|done|done].
Qed.

End Format.

(** ** Reading a number back *)

Lemma foldl_mono base ds n : 1 < base → 0 ≤ n → Forall (λ d, 0 ≤ d < base) ds → n ≤ foldl (λ acc d, acc * base + d) n ds.
Proof.
  intros Hb. revert n. induction ds as [|d ds IH]; intros n Hn Hd; [done|]. apply Forall_cons in Hd as [Hd1 Hd]. cbn [foldl].
  etrans; [|apply IH; [nia|done]]. nia.
Qed.

Lemma atoi_digits m s ds n fuel :
  cstr m s ((λ d, digits !!! Z.to_nat d) <$> ds) → Forall (λ d, 0 ≤ d < 10) ds → 0 ≤ n →
  foldl (λ acc d, acc * 10 + d) n ds < 2^31 → (length ds < fuel)%nat →
  Ulib.atoi_loop fuel m s n = Some (foldl (λ acc d, acc * 10 + d) n ds).
Proof.
  revert s n fuel. induction ds as [|d ds IH]; intros s n [|fuel] Hs Hd Hn Hlt Hf; try (cbn in Hf; lia).
  - rewrite fmap_nil in Hs. apply cstr_nil in Hs. cbn [Ulib.atoi_loop]. by rewrite Hs.
  - rewrite fmap_cons in Hs. apply cstr_cons in Hs as (Hb & _ & Hs). apply Forall_cons in Hd as [Hd1 Hd]. cbn [foldl] in *.
    assert (digits !!! Z.to_nat d = 48 + d) as Ed.
    { assert (forallb (λ d, digits !!! Z.to_nat d =? 48 + d) (seqZ 0 10) = true) as Ha by reflexivity.
      rewrite forallb_forall in Ha. apply Z.eqb_eq, Ha, list_elem_of_In, elem_of_seqZ. lia. }
    rewrite Ed in Hb. cbn [Ulib.atoi_loop]. rewrite Hb. destruct (Z.leb_spec 48 (48 + d)), (Z.leb_spec (48 + d) 57); try lia. cbn [andb].
    pose proof (foldl_mono 10 ds (n * 10 + d) ltac:(lia) ltac:(lia) Hd). rewrite s32_id by lia.
    replace (n * 10 + (48 + d) - 48) with (n * 10 + d) by lia. apply IH; [done|done|lia|done|cbn in Hf; lia].
Qed.

(** Numbers are printed exactly.  [printint] in base 10 or 16 never stores more than
    11 of the 16 bytes of its buffer; what it prints is the numeral of the value
    without leading zeros, after a minus sign if the value is negative and signed
    printing was asked for (also for -2^31, whose negation is no [int]); and [atoi]
    reads a decimal numeral that was printed back as the same number. *)
Theorem printint_exact tbl xx base sgn :
  (base = 10 ∨ base = 16) → - 2^31 ≤ xx < 2^31 →
  ∃ buf, printint_buf tbl xx base sgn = Some buf ∧ (length buf ≤ 11)%nat ∧ written tbl base xx sgn (rev buf) ∧
    (tbl = digits → base = 10 → 0 ≤ xx → ∀ m s fuel, cstr m s (rev buf) → (length buf < fuel)%nat → Ulib.atoi fuel m s = Some xx).
Proof.
  intros Hb Hx. destruct (printint_buf_ok tbl xx base sgn Hb Hx) as (buf & E & Hl & Hw). exists buf. do 3 (split; [done|]).
  intros -> -> Hpos m s fuel Hs Hf. destruct Hw as (ds & [N1 N2 _ _] & Er).
  assert (sgn && (xx <? 0) = false) as En by (destruct (Z.ltb_spec xx 0); [lia|]; by rewrite andb_false_r).
  rewrite En in *. rewrite u32_id in N1 by lia. rewrite Er in Hs. cbn [app] in *.
  unfold Ulib.atoi. rewrite <- N1. apply atoi_digits; [done|done|done|unfold of_digits in N1; lia|].
  apply (f_equal length) in Er. rewrite length_rev, length_fmap in Er. lia.
Qed.

Lemma printint_exact_witness : printint_buf digits 2017 10 true = Some [55; 49; 48; 50] ∧ 2017 < 2^31.
Proof.
  destruct (printint_exact digits 2017 10 true) as (buf & E & _); [by left|lia|]. rewrite E. split; [|lia].
  vm_compute in E. injection E as <-. reflexivity.
Defined.

(** [printf] prints its format: ordinary characters as they are, ["%d"], ["%x"] and
    ["%p"] the next argument as a number, ["%s"] the string it points to or [(null)],
    ["%c"] its low byte, ["%%"] a percent sign, any other conversion both of its
    characters; one argument per conversion that takes one, nothing else is written. *)
Theorem printf_spec {St} {UX : Unix St} {UL : UnixLaws St} str stack m fuel fd fmt (s : St) o :
  output s !! fd = Some o → Forall (λ c, 0 ≤ c < 256) fmt → strings_ok str stack m fuel fmt 0 →
  ∃ s', printf m fuel fd fmt stack s = Done tt s' ∧ output s' = <[fd := o ++ format str stack fmt 0]> (output s) ∧ input s' = input s.
Proof. intros Ho Hc Hs. by apply (printf_loop_emits str stack m fuel fd (length fmt)). Qed.

(** Descriptors as they are for a program that reads files and writes to a terminal. *)
Module Files.

Record io := mkIo { i_in : gmap Z (list Z); i_out : gmap Z (list Z) }.

#[global] Instance unix : Unix io := {|
  open _ _ := ret (-1);
  close fd := modify (λ s, mkIo (delete fd (i_in s)) (i_out s)) ;;; ret 0;
  read fd n := λ s,
    match i_in s !! fd with
    | Some bs => let bs' := take (Z.to_nat n) bs in
                 Done (Z.of_nat (length bs'), bs') (mkIo (<[fd := drop (Z.to_nat n) bs]> (i_in s)) (i_out s))
    | None => Done (-1, []) s
    end;
  write fd bs := λ s,
    match i_out s !! fd with
    | Some o => Done (Z.of_nat (length bs)) (mkIo (i_in s) (<[fd := o ++ bs]> (i_out s)))
    | None => Done (-1) s
    end;
  fstat _ := ret (-1, mkStat 0 0 0 0 0);
  link _ _ := ret (-1);
  unlink _ := ret (-1);
  mkdir _ := ret (-1);
  kill _ := ret (-1);
|}.

#[global, program] Instance unix_laws : UnixLaws io := {| input := i_in; output := i_out |}.
Next Obligation.
  intros fd n s bs Hbs Hn. exists (length (take (Z.to_nat n) bs)), (mkIo (<[fd := drop (Z.to_nat n) bs]> (i_in s)) (i_out s)).
  cbn. rewrite Hbs. rewrite length_take. split; [|split; [lia|split; [lia|split; [|split; [|done]]]]].
  - do 2 f_equal. destruct (decide (Z.to_nat n ≤ length bs)%nat); [by rewrite Nat.min_l|]. rewrite Nat.min_r by lia. by rewrite !take_ge by lia.
  - intros H. apply nil_length_inv. lia.
  - f_equal. destruct (decide (Z.to_nat n ≤ length bs)%nat); [by rewrite Nat.min_l|]. rewrite Nat.min_r by lia. by rewrite !drop_ge by lia.
Qed.
Next Obligation. intros fd bs s o Ho. cbn. rewrite Ho. by eexists. Qed.

Definition io0 (bs : list Z) : io := mkIo {[ 0 := bs ]} {[ 1 := [] ]}.

End Files.

Lemma printf_spec_witness :
  ∃ s', printf (λ _, 0) 1 1 [120; 61; 37; 100] (λ _, 42) (Files.io0 []) = Done tt s' ∧ Files.i_out s' !! 1 = Some [120; 61; 52; 50].
Proof.
  destruct (printf_spec (λ _, []) (λ _, 42) (λ _, 0) 1 1 [120; 61; 37; 100] (Files.io0 []) []) as (s' & E & Ho & _);
    [reflexivity|repeat constructor; lia|split; [discriminate|exact I]|].
  exists s'. split; [exact E|]. change (Files.i_out s') with (output s'). rewrite Ho. reflexivity.
Defined.
