(* ===== verification/Console.v ===== *)
(** console.c, uart.c and kbd.c: output to the screen and the serial line, input from
    the keyboard and the serial line, and the line editing between the input and the
    processes that read.

    The drivers work on the state [cst]: the statics of the three files, the memory of
    the screen and the state [D] of the hardware behind the I/O ports, which is a
    parameter.  As part of the kernel state they live beside the memory, in a world
    [V * cst D]. *)
From S2P Require Import Prelude Mem Str KState Spinlock Sched Sleeplock Services Pipe Layout Bio Fs Printf.

(** x86.h: the I/O instructions, and the two interrupt controllers. *)
Class Hw (D : Type) := {
  inb : Z → D → Z * D;
  outb : Z → Z → D → D;
  picenable : Z → D → D;
  ioapicenable : Z → Z → D → D;
}.

Abbreviation INPUT_BUF := 128 (only parsing).
Abbreviation BACKSPACE := 256 (only parsing).
Abbreviation CRTPORT := 980 (only parsing).
Abbreviation COM1 := 1016 (only parsing).
Abbreviation C x := (x - 64) (only parsing).  (* Control-x *)

Record cst (D : Type) := mkCst {
  c_locking : Z;        (* cons.locking *)
  c_panicked : Z;       (* panicked *)
  c_crt : list Z;       (* CGA memory, in cells of 16 bits *)
  c_buf : list Z;       (* input.buf *)
  c_r : Z;              (* input.r: read index *)
  c_w : Z;              (* input.w: write index *)
  c_e : Z;              (* input.e: edit index *)
  c_uart : Z;           (* is there a uart? *)
  c_shift : Z;          (* kbdgetc's static shift *)
  c_dev : D;
}.
Arguments mkCst {D}.
Arguments c_locking {D}.
Arguments c_panicked {D}.
Arguments c_crt {D}.
Arguments c_buf {D}.
Arguments c_r {D}.
Arguments c_w {D}.
Arguments c_e {D}.
Arguments c_uart {D}.
Arguments c_shift {D}.
Arguments c_dev {D}.

Section Setters.
Context {D : Type}.
Definition set_c_locking (v : Z) (c : cst D) : cst D :=
  mkCst v (c_panicked c) (c_crt c) (c_buf c) (c_r c) (c_w c) (c_e c) (c_uart c) (c_shift c) (c_dev c).
Definition set_c_panicked (v : Z) (c : cst D) : cst D :=
  mkCst (c_locking c) v (c_crt c) (c_buf c) (c_r c) (c_w c) (c_e c) (c_uart c) (c_shift c) (c_dev c).
Definition set_c_crt (v : list Z) (c : cst D) : cst D :=
  mkCst (c_locking c) (c_panicked c) v (c_buf c) (c_r c) (c_w c) (c_e c) (c_uart c) (c_shift c) (c_dev c).
Definition set_c_buf (v : list Z) (c : cst D) : cst D :=
  mkCst (c_locking c) (c_panicked c) (c_crt c) v (c_r c) (c_w c) (c_e c) (c_uart c) (c_shift c) (c_dev c).
Definition set_c_r (v : Z) (c : cst D) : cst D :=
  mkCst (c_locking c) (c_panicked c) (c_crt c) (c_buf c) v (c_w c) (c_e c) (c_uart c) (c_shift c) (c_dev c).
Definition set_c_w (v : Z) (c : cst D) : cst D :=
  mkCst (c_locking c) (c_panicked c) (c_crt c) (c_buf c) (c_r c) v (c_e c) (c_uart c) (c_shift c) (c_dev c).
Definition set_c_e (v : Z) (c : cst D) : cst D :=
  mkCst (c_locking c) (c_panicked c) (c_crt c) (c_buf c) (c_r c) (c_w c) v (c_uart c) (c_shift c) (c_dev c).
Definition set_c_uart (v : Z) (c : cst D) : cst D :=
  mkCst (c_locking c) (c_panicked c) (c_crt c) (c_buf c) (c_r c) (c_w c) (c_e c) v (c_shift c) (c_dev c).
Definition set_c_shift (v : Z) (c : cst D) : cst D :=
  mkCst (c_locking c) (c_panicked c) (c_crt c) (c_buf c) (c_r c) (c_w c) (c_e c) (c_uart c) v (c_dev c).
Definition set_c_dev (v : D) (c : cst D) : cst D :=
  mkCst (c_locking c) (c_panicked c) (c_crt c) (c_buf c) (c_r c) (c_w c) (c_e c) (c_uart c) (c_shift c) v.
End Setters.

(** * The tables of kbd.h *)

Abbreviation KBSTATP := 100 (only parsing).
Abbreviation KBS_DIB := 1 (only parsing).
Abbreviation KBDATAP := 96 (only parsing).
Abbreviation SHIFT := 1 (only parsing).
Abbreviation CTL := 2 (only parsing).
Abbreviation ALT := 4 (only parsing).
Abbreviation CAPSLOCK := 8 (only parsing).
Abbreviation NUMLOCK := 16 (only parsing).
Abbreviation SCROLLLOCK := 32 (only parsing).
Abbreviation E0ESC := 64 (only parsing).

(** An array of 256 bytes, given by its first elements and single others. *)
Definition keymap (first : list Z) (others : list (Z * Z)) (i : Z) : Z :=
  match find (λ e, e.1 =? i) others with Some e => e.2 | None => nth (Z.to_nat i) first 0 end.

Definition shiftcode : Z → Z := keymap [] [(29, CTL); (42, SHIFT); (54, SHIFT); (56, ALT); (157, CTL); (184, ALT)].
Definition togglecode : Z → Z := keymap [] [(58, CAPSLOCK); (69, NUMLOCK); (70, SCROLLLOCK)].
Definition normalmap : Z → Z := keymap
  [0; 27; 49; 50; 51; 52; 53; 54; 55; 56; 57; 48; 45; 61; 8; 9;
   113; 119; 101; 114; 116; 121; 117; 105; 111; 112; 91; 93; 10; 0; 97; 115;
   100; 102; 103; 104; 106; 107; 108; 59; 39; 96; 0; 92; 122; 120; 99; 118;
   98; 110; 109; 44; 46; 47; 0; 42; 0; 32; 0; 0; 0; 0; 0; 0;
   0; 0; 0; 0; 0; 0; 0; 55; 56; 57; 45; 52; 53; 54; 43; 49;
   50; 51; 48; 46; 0; 0; 0; 0]
  [(156, 10); (181, 47); (200, 226); (208, 227); (201, 230); (209, 231); (203, 228); (205, 229); (151, 224); (207, 225); (210, 232); (211, 233)].
Definition shiftmap : Z → Z := keymap
  [0; 27; 33; 64; 35; 36; 37; 94; 38; 42; 40; 41; 95; 43; 8; 9;
   81; 87; 69; 82; 84; 89; 85; 73; 79; 80; 123; 125; 10; 0; 65; 83;
   68; 70; 71; 72; 74; 75; 76; 58; 34; 126; 0; 124; 90; 88; 67; 86;
   66; 78; 77; 60; 62; 63; 0; 42; 0; 32; 0; 0; 0; 0; 0; 0;
   0; 0; 0; 0; 0; 0; 0; 55; 56; 57; 45; 52; 53; 54; 43; 49;
   50; 51; 48; 46; 0; 0; 0; 0]
  [(156, 10); (181, 47); (200, 226); (208, 227); (201, 230); (209, 231); (203, 228); (205, 229); (151, 224); (207, 225); (210, 232); (211, 233)].
Definition ctlmap : Z → Z := keymap
  [0; 0; 0; 0; 0; 0; 0; 0; 0; 0; 0; 0; 0; 0; 0; 0;
   17; 23; 5; 18; 20; 25; 21; 9; 15; 16; 0; 0; 13; 0; 1; 19;
   4; 6; 7; 8; 10; 11; 12; 0; 0; 0; 0; 28; 26; 24; 3; 22;
   2; 14; 13; 0; 0; 239; 0; 0]
  [(156, 13); (181, 239); (200, 226); (208, 227); (201, 230); (209, 231); (203, 228); (205, 229); (151, 224); (207, 225); (210, 232); (211, 233)].

(** [charcode[4]] of [kbdgetc]. *)
Definition charcode (k : Z) : Z → Z := if k =? 0 then normalmap else if k =? 1 then shiftmap else ctlmap.

(** * The drivers *)
Section Drivers.
Context {D : Type} {HW : Hw D}.

Definition port_in (p : Z) : M (cst D) Z := λ c, let '(v, d) := inb p (c_dev c) in Done v (set_c_dev d c).
Definition port_out (p v : Z) : M (cst D) unit := modify (λ c, set_c_dev (outb p (u8 v) (c_dev c)) c).

(** ** uart.c *)

(** [microdelay] of lapic.c does nothing. *)
Definition uartputc (ch : Z) : M (cst D) unit :=
  u <- gets c_uart ;;
  if u =? 0 then ret tt
  else
    _ <- for_break (seqZ 0 128) (λ _,
      st <- port_in (COM1 + 5) ;; ret (if Z.land st 32 =? 0 then None else Some tt)) ;;
    port_out COM1 ch.

Definition uartgetc : M (cst D) Z :=
  u <- gets c_uart ;;
  if u =? 0 then ret (-1)
  else
    st <- port_in (COM1 + 5) ;;
    if Z.land st 1 =? 0 then ret (-1) else port_in COM1.

Definition uartinit : M (cst D) unit :=
  port_out (COM1 + 2) 0 ;;;
  port_out (COM1 + 3) 128 ;;;
  port_out (COM1 + 0) (115200 / 9600) ;;;
  port_out (COM1 + 1) 0 ;;;
  port_out (COM1 + 3) 3 ;;;
  port_out (COM1 + 4) 0 ;;;
  port_out (COM1 + 1) 1 ;;;
  st <- port_in (COM1 + 5) ;;
  if st =? 255 then ret tt
  else
    modify (set_c_uart 1) ;;;
    _ <- port_in (COM1 + 2) ;;
    _ <- port_in (COM1 + 0) ;;
    modify (λ c, set_c_dev (picenable 4 (c_dev c)) c) ;;;
    modify (λ c, set_c_dev (ioapicenable 4 0 (c_dev c)) c) ;;;
    for_each [120; 118; 54; 46; 46; 46; 10] uartputc.  (* "xv6...\n" *)

(** ** The screen *)

(** [crt[i] = v]; an address outside the memory of the screen is a fault. *)
Definition crt_store (i v : Z) : M (cst D) unit := λ c,
  if (0 <=? i) && (i <? Z.of_nat (length (c_crt c)))
  then Done tt (set_c_crt (<[Z.to_nat i := u16 v]> (c_crt c)) c) else Panic "trap".

(** The lines go up by one, and the cells from [pos] to the end of row 23 are cleared. *)
Definition scroll (pos : Z) (crt : list Z) : list Z :=
  let crt' := take (Z.to_nat (23 * 80)) (drop 80 crt) ++ drop (Z.to_nat (23 * 80)) crt in
  take (Z.to_nat pos) crt' ++ replicate (Z.to_nat (24 * 80 - pos)) 0 ++ drop (Z.to_nat (24 * 80)) crt'.

(** The second half of [cgaputc]: scroll if needed, set the cursor. *)
Definition cga_finish (pos : Z) : M (cst D) unit :=
  (if (pos <? 0) || (25 * 80 <? pos) then panic "pos under/overflow" else ret tt) ;;;
  pos <- (if 24 <=? pos / 80 then
            modify (λ c, set_c_crt (scroll (pos - 80) (c_crt c)) c) ;;; ret (pos - 80)
          else ret pos) ;;
  port_out CRTPORT 14 ;;;
  port_out (CRTPORT + 1) (Z.shiftr pos 8) ;;;
  port_out CRTPORT 15 ;;;
  port_out (CRTPORT + 1) pos ;;;
  crt_store pos (Z.lor 32 1792).

Definition cgaputc (ch : Z) : M (cst D) unit :=
  port_out CRTPORT 14 ;;;
  hi <- port_in (CRTPORT + 1) ;;
  port_out CRTPORT 15 ;;;
  lo <- port_in (CRTPORT + 1) ;;
  let pos := Z.lor (Z.shiftl hi 8) lo in
  pos <- (if ch =? 10 then ret (pos + (80 - pos mod 80))
          else if ch =? BACKSPACE then ret (if 0 <? pos then pos - 1 else pos)
          else crt_store pos (Z.lor (Z.land ch 255) 1792) ;;; ret (pos + 1)) ;;
  cga_finish pos.

Definition consputc (ch : Z) : M (cst D) unit :=
  k <- gets c_panicked ;;
  if negb (k =? 0) then λ _, Spin
  else
    (if ch =? BACKSPACE then uartputc 8 ;;; uartputc 32 ;;; uartputc 8 else uartputc ch) ;;;
    cgaputc ch.

(** ** kbd.c *)

(** What [kbdgetc] makes of the byte [data]: the character, and the new [shift]. *)
Definition kbd_decode (shift data : Z) : Z * Z :=
  if data =? 224 then (0, Z.lor shift E0ESC)
  else if negb (Z.land data 128 =? 0) then
    (* key released *)
    let data := if Z.land shift E0ESC =? 0 then Z.land data 127 else data in
    (0, Z.land shift (Z.lnot (Z.lor (shiftcode data) E0ESC)))
  else
    let esc := negb (Z.land shift E0ESC =? 0) in
    let data := if esc then Z.lor data 128 else data in
    let shift := if esc then Z.land shift (Z.lnot E0ESC) else shift in
    let shift := Z.lxor (Z.lor shift (shiftcode data)) (togglecode data) in
    let ch := charcode (Z.land shift (Z.lor CTL SHIFT)) data in
    (if negb (Z.land shift CAPSLOCK =? 0) then
       if (97 <=? ch) && (ch <=? 122) then ch + (65 - 97)
       else if (65 <=? ch) && (ch <=? 90) then ch + (97 - 65)
       else ch
     else ch, shift).

Definition kbdgetc : M (cst D) Z :=
  st <- port_in KBSTATP ;;
  if Z.land st KBS_DIB =? 0 then ret (-1)
  else
    data <- port_in KBDATAP ;;
    shift <- gets c_shift ;;
    let '(ch, shift') := kbd_decode shift data in
    modify (set_c_shift shift') ;;; ret ch.

End Drivers.

(** * Printing *)
Section Print.
Context {D : Type} {HW : Hw D}.
(** The memory strings are read from, and a bound on their length. *)
Context (m : mem) (fuel : nat).

Definition lower_digits : list Z := [48; 49; 50; 51; 52; 53; 54; 55; 56; 57; 97; 98; 99; 100; 101; 102].

Definition cons_printint (xx base : Z) (sign : bool) : M (cst D) unit :=
  match printint_buf lower_digits xx base sign with
  | Some buf => for_each (rev buf) consputc
  | None => panic "trap"
  end.

(** [for(; *s; s++) consputc( *s);] *)
Fixpoint cons_puts (n : nat) (s : Z) : M (cst D) unit :=
  match n with
  | O => λ _, Fuel
  | S n' => if m s =? 0 then ret tt else consputc (m s) ;;; cons_puts n' (s + 1)
  end.

Fixpoint cprintf_loop (stack : nat → Z) (fmt : list Z) (argp : nat) : M (cst D) unit :=
  match fmt with
  | [] => ret tt
  | c :: fmt1 =>
    if negb (c =? 37) then consputc c ;;; cprintf_loop stack fmt1 argp
    else match fmt1 with
    | [] => ret tt
    | ch :: fmt' =>
      if ch =? 100 then cons_printint (s32 (stack argp)) 10 true ;;; cprintf_loop stack fmt' (S argp)
      else if (ch =? 120) || (ch =? 112) then cons_printint (s32 (stack argp)) 16 false ;;; cprintf_loop stack fmt' (S argp)
      else if ch =? 115 then
        (if stack argp =? 0 then for_each null_str consputc else cons_puts fuel (stack argp)) ;;;
        cprintf_loop stack fmt' (S argp)
      else if ch =? 37 then consputc 37 ;;; cprintf_loop stack fmt' argp
      else consputc 37 ;;; consputc ch ;;; cprintf_loop stack fmt' argp
    end
  end.

End Print.

(** * A world with more in it than memory *)
Section Pair.
Context {V X : Type} {VO : VmOps V}.

Definition on_fst {A} (op : memop V A) : memop (V * X) A := λ w,
  match op w.1 with inl e => inl e | inr (a, v) => inr (a, (v, w.2)) end.

#[global] Instance vm_pair : VmOps (V * X) := {|
  vm_kalloc := on_fst vm_kalloc;
  vm_kfree a := on_fst (vm_kfree a);
  vm_setupkvm := on_fst vm_setupkvm;
  vm_inituvm pd l := on_fst (vm_inituvm pd l);
  vm_allocuvm pd a b := on_fst (vm_allocuvm pd a b);
  vm_deallocuvm pd a b := on_fst (vm_deallocuvm pd a b);
  vm_freevm pd := on_fst (vm_freevm pd);
  vm_copyuvm pd sz := on_fst (vm_copyuvm pd sz);
  vm_uread w := vm_uread w.1;
  vm_uwrite w pd va v := (λ x, (x, w.2)) <$> vm_uwrite w.1 pd va v;
  vm_clearpteu pd va := on_fst (vm_clearpteu pd va);
  vm_copyout pd va bs := on_fst (vm_copyout pd va bs);
  vm_mapped w := vm_mapped w.1;
  vm_user w := vm_user w.1;
  vm_poke pd va bs := on_fst (vm_poke pd va bs);
|}.

#[global] Instance vm_pair_laws {VL : VmLaws V} : VmLaws (V * X).
Proof.
  refine {| vm_inv g w := vm_inv g w.1 |}; cbn; unfold on_fst.
  - intros g w H. destruct (vm_kalloc_ok g w.1 H) as (a & v & -> & H'). by eexists _, _.
  - intros g w a H Ha. destruct (vm_kfree_ok g w.1 a H Ha) as (v & -> & H'). by eexists.
  - intros g w pd sz um H Hpd. destruct (vm_copyuvm_ok g w.1 pd sz um H Hpd) as (a & v & -> & H'). by eexists _, _.
  - intros g w pd sz um o n H Hpd Ho Hn Hm. destruct (vm_allocuvm_ok g w.1 pd sz um o n H Hpd Ho Hn Hm) as (a & v & -> & H'). by eexists _, _.
  - intros g w pd sz um n H Hpd Hn. destruct (vm_deallocuvm_ok g w.1 pd sz um n H Hpd Hn) as (v & -> & H'). by eexists.
  - intros g w pd sz um H Hpd. destruct (vm_freevm_ok g w.1 pd sz um H Hpd) as (v & -> & H'). by eexists.
  - intros g w pd sz um H Hpd. by eapply vm_bytes_ok.
  - intros g w pd sz um va H Hpd Hva. by eapply vm_uread_ok.
  - intros g w pd sz um va b H Hpd Hva. destruct (vm_uwrite_ok g w.1 pd sz um va b H Hpd Hva) as (v & -> & H'). by eexists.
  - intros g w pd sz um va H Hpd Hva. destruct (vm_clearpteu_ok g w.1 pd sz um va H Hpd Hva) as (v & -> & H'). by eexists.
  - intros g w pd sz um va bs H Hpd H0 Hn. destruct (vm_copyout_ok g w.1 pd sz um va bs H Hpd H0 Hn) as (a & v & um' & -> & H'). by eexists _, _, um'.
Defined.
End Pair.

(** * The console in the kernel *)
Section Console.
Context {V D : Type} {VO : VmOps V} {HW : Hw D} {DK : DiskOps (V * cst D)}.
Abbreviation W := (V * cst D)%type.

(** Run a driver on the console part of the world. *)
Definition onc {A} (m : M (cst D) A) : M (kst W) A := λ s,
  match m (k_mem s).2 with
  | Done a c => Done a (set_k_mem ((k_mem s).1, c) s)
  | Panic msg => Panic msg
  | Spin => Spin
  | Fuel | Switch _ _ => Fuel
  end.

(** cprintf, with [fmt] not null. *)
Definition cons_cprintf (m : mem) (fuel : nat) (fmt : list Z) (stack : nat → Z) : M (kst W) unit :=
  locking <- gets (λ s, c_locking (k_mem s).2) ;;
  when (negb (locking =? 0)) (acquire L_cons) ;;;
  onc (cprintf_loop m fuel stack fmt 0) ;;;
  when (negb (locking =? 0)) (release L_cons).

(** panic: [apicid] is that of the CPU, [pcs] what [getcallerpcs] found.  It never returns. *)
Definition cons_panic (m : mem) (fuel : nat) (apicid : Z) (msg : list Z) (pcs : list Z) : M (kst W) unit :=
  cli ;;;
  onc (modify (set_c_locking 0)) ;;;
  cons_cprintf m fuel (chars "cpu with apicid %d: panic: ") (λ _, apicid) ;;;
  cons_cprintf m fuel msg (λ _, 0) ;;;
  cons_cprintf m fuel [10] (λ _, 0) ;;;
  for_each (take 10 pcs) (λ pc, cons_cprintf m fuel (chars " %p") (λ _, pc)) ;;;
  onc (modify (set_c_panicked 1)) ;;;
  (λ _, Spin).

(** ** Input *)

(** [input.buf[i % INPUT_BUF]] *)
Definition input_at (i : Z) (c : cst D) : Z := c_buf c !!! Z.to_nat (i mod INPUT_BUF).

(** Kill line: [while(input.e != input.w && input.buf[(input.e-1) % INPUT_BUF] != '\n')] *)
Definition kill_line : M (cst D) unit :=
  loop (S (Z.to_nat INPUT_BUF)) (
    c <- gets id ;;
    if negb (c_e c =? c_w c) && negb (input_at (u32 (c_e c - 1)) c =? 10) then
      modify (set_c_e (u32 (c_e c - 1))) ;;; consputc BACKSPACE ;;; ret None
    else ret (Some tt)).

Definition erase : M (cst D) unit :=
  c <- gets id ;;
  if negb (c_e c =? c_w c) then modify (set_c_e (u32 (c_e c - 1))) ;;; consputc BACKSPACE else ret tt.

(** An ordinary character; the result says that there is input for the readers. *)
Definition input_char (ch : Z) : M (cst D) bool :=
  c <- gets id ;;
  if negb (ch =? 0) && (u32 (c_e c - c_r c) <? INPUT_BUF) then
    let ch := if ch =? 13 then 10 else ch in
    modify (λ c, set_c_buf (<[Z.to_nat (c_e c mod INPUT_BUF) := u8 ch]> (c_buf c)) c) ;;;
    modify (λ c, set_c_e (u32 (c_e c + 1)) c) ;;;
    consputc ch ;;;
    c <- gets id ;;
    if (ch =? 10) || (ch =? C 68) || (c_e c =? u32 (c_r c + INPUT_BUF)) then
      modify (λ c, set_c_w (c_e c) c) ;;; ret true
    else ret false
  else ret false.

(** The [switch] of [consoleintr]; the result is [doprocdump]. *)
Definition consoleintr_char (ch : Z) : M (kst W) bool :=
  if ch =? C 80 then ret true
  else if ch =? C 85 then onc kill_line ;;; ret false
  else if (ch =? C 72) || (ch =? 127) then onc erase ;;; ret false
  else r <- onc (input_char ch) ;; when r (wakeup C_input) ;;; ret false.

Fixpoint consoleintr_loop (n : nat) (getc : M (cst D) Z) (dump : bool) : M (kst W) bool :=
  match n with
  | O => λ _, Fuel
  | S n' =>
    ch <- onc getc ;;
    if 0 <=? ch then d <- consoleintr_char ch ;; consoleintr_loop n' getc (dump || d) else ret dump
  end.

(** proc.c: the process listing; [m] is the memory of the kernel stacks. *)
Definition state_name (st : procstate) : list Z :=
  chars (match st with
         | UNUSED => "unused" | EMBRYO => "embryo" | SLEEPING => "sleep " | RUNNABLE => "runble"
         | RUNNING => "run   " | ZOMBIE => "zombie"
         end).
Definition procdump (m : mem) : M (kst W) unit :=
  for_each slots (λ i,
    p <- proc_at i ;;
    if bool_decide (p_state p = UNUSED) then ret tt
    else
      cprintf "%d %s %s" ([p_pid p] ++ state_name (p_state p) ++ p_name p) ;;;
      when (bool_decide (p_state p = SLEEPING)) (
        _ <- for_break (getcallerpcs m (ctx_ebp (p_context p) + 8)) (λ pc,
          if pc =? 0 then ret (Some tt) else cprintf " %p" [pc] ;;; ret None) ;;
        ret tt) ;;;
      cprintf "\n" []).

(** [n] bounds the number of characters that are waiting. *)
Definition consoleintr (n : nat) (m : mem) (getc : M (cst D) Z) : M (kst W) unit :=
  acquire L_cons ;;;
  d <- consoleintr_loop n getc false ;;
  release L_cons ;;;
  when d (procdump m).

Definition kbdintr (n : nat) (m : mem) : M (kst W) unit := consoleintr n m kbdgetc.
Definition uartintr (n : nat) (m : mem) : M (kst W) unit := consoleintr n m uartgetc.

(** ** The device *)

(** Wait for input; [false] when the process is killed. *)
Definition consoleread_wait (fuel : nat) : M (kst W) bool :=
  loop fuel (
    c <- onc (gets id) ;;
    if c_r c =? c_w c then
      p <- cur ;;
      if negb (p_killed p =? 0) then ret (Some false)
      else sleep C_input (Some L_cons) ;;; ret None
    else ret (Some true)).

(** [*dst++ = c], [k] bytes into the buffer. *)
Definition put_byte (d : dst) (k b : Z) : M (kst W) unit :=
  match d with ToUser va => ustore8 (va + k) b | ToKernel => ret tt end.

(** The loop of [consoleread]: [n] bytes still wanted, [bs] read.  [None] when the
    process is killed. *)
Fixpoint consoleread_loop (fuel : nat) (d : dst) (n : nat) (bs : list Z) : M (kst W) (option (list Z)) :=
  match n with
  | O => ret (Some bs)
  | S n' =>
    ok <- consoleread_wait fuel ;;
    if negb ok then ret None
    else
      b <- onc (gets (λ c, input_at (c_r c) c)) ;;
      onc (modify (λ c, set_c_r (u32 (c_r c + 1)) c)) ;;;
      if b =? C 68 then
        (* save ^D for next time, to make sure the caller gets a 0-byte result *)
        when (negb (length bs =? 0)%nat) (onc (modify (λ c, set_c_r (u32 (c_r c - 1)) c))) ;;;
        ret (Some bs)
      else
        put_byte d (Z.of_nat (length bs)) b ;;;
        if b =? 10 then ret (Some (bs ++ [b])) else consoleread_loop fuel d n' (bs ++ [b])
  end.

Definition consoleread (fuel : nat) (ip : nat) (d : dst) (n : Z) : M (kst W) (Z * list Z) :=
  iunlock ip ;;;
  acquire L_cons ;;;
  r <- consoleread_loop fuel d (Z.to_nat n) [] ;;
  release L_cons ;;;
  ilock fuel ip ;;;
  ret (match r with None => (-1, []) | Some bs => (Z.of_nat (length bs), bs) end).

(** [buf[i]] *)
Definition get_byte (a : src) (k : Z) : M (kst W) Z :=
  match a with FromUser va => uload8 (va + k) | FromKernel bs => ret (nth (Z.to_nat k) bs 0) end.

Definition consolewrite (fuel : nat) (ip : nat) (a : src) (n : Z) : M (kst W) Z :=
  iunlock ip ;;;
  acquire L_cons ;;;
  for_each (seqZ 0 n) (λ k, b <- get_byte a k ;; onc (consputc (Z.land b 255))) ;;;
  release L_cons ;;;
  ilock fuel ip ;;;
  ret n.

(** [devsw[CONSOLE]], and the rest of [consoleinit]. *)
Definition console_devsw (fuel : nat) : DevSw W := {|
  devsw_read major := if major =? 1 then Some (consoleread fuel) else None;
  devsw_write major := if major =? 1 then Some (consolewrite fuel) else None;
|}.
Definition consoleinit : M (kst W) unit :=
  initlock L_cons "console" ;;;
  onc (modify (set_c_locking 1)) ;;;
  onc (modify (λ c, set_c_dev (picenable 1 (c_dev c)) c)) ;;;
  onc (modify (λ c, set_c_dev (ioapicenable 1 0 (c_dev c)) c)).

End Console.

(** * What the drivers rely on of the hardware *)

(** What can be observed of it: the index and the registers of the display controller,
    the bytes written to the serial line, and the bytes waiting on the serial line and
    in the keyboard. *)
Record obs := mkObs { o_idx : Z; o_reg : Z → Z; o_sent : list Z; o_rx : list Z; o_keys : list Z }.
Definition with_sent (l : list Z) (o : obs) : obs := mkObs (o_idx o) (o_reg o) l (o_rx o) (o_keys o).
Definition with_rx (l : list Z) (o : obs) : obs := mkObs (o_idx o) (o_reg o) (o_sent o) l (o_keys o).
Definition with_keys (l : list Z) (o : obs) : obs := mkObs (o_idx o) (o_reg o) (o_sent o) (o_rx o) l.
Definition with_reg (v : Z) (o : obs) : obs :=
  mkObs (o_idx o) (λ i, if i =? o_idx o then v else o_reg o i) (o_sent o) (o_rx o) (o_keys o).
Definition with_idx (v : Z) (o : obs) : obs := mkObs v (o_reg o) (o_sent o) (o_rx o) (o_keys o).

Class HwLaws (D : Type) {HW : Hw D} := {
  hw : D → obs;
  hw_index v d : hw (outb CRTPORT v d) = with_idx v (hw d);
  hw_store v d : hw (outb (CRTPORT + 1) v d) = with_reg v (hw d);
  hw_load d : ∃ d', inb (CRTPORT + 1) d = (o_reg (hw d) (o_idx (hw d)), d') ∧ hw d' = hw d;
  hw_send v d : hw (outb COM1 v d) = with_sent (o_sent (hw d) ++ [v]) (hw d);
  hw_line d : ∃ v d', inb (COM1 + 5) d = (v, d') ∧ hw d' = hw d ∧ (Z.land v 1 = 0 ↔ o_rx (hw d) = []);
  hw_recv d b l : o_rx (hw d) = b :: l → ∃ d', inb COM1 d = (b, d') ∧ hw d' = with_rx l (hw d);
  hw_status d : ∃ v d', inb KBSTATP d = (v, d') ∧ hw d' = hw d ∧ (Z.land v KBS_DIB = 0 ↔ o_keys (hw d) = []);
  hw_key d b l : o_keys (hw d) = b :: l → ∃ d', inb KBDATAP d = (b, d') ∧ hw d' = with_keys l (hw d);
}.

(** * The screen *)

(** What a cell shows. *)
Definition glyph (v : Z) : Z := if v =? 0 then 32 else Z.land v 255.

(** A terminal with 24 lines of 80 characters: the characters before the cursor. *)
Definition tput (ch : Z) (t : list Z) : list Z :=
  let t' := if ch =? 10 then t ++ replicate (80 - length t mod 80) 32
            else if ch =? BACKSPACE then take (length t - 1) t
            else t ++ [Z.land ch 255] in
  if 1920 <=? Z.of_nat (length t') then drop 80 t' else t'.

Record shows (t : list Z) (crt : list Z) (o : obs) : Prop := {
  sh_cursor : Z.of_nat (length t) < 1920;
  sh_crt : Z.of_nat (length crt) = 2000;
  sh_hi : o_reg o 14 = Z.of_nat (length t) / 256;
  sh_lo : o_reg o 15 = Z.of_nat (length t) mod 256;
  sh_text k : Z.of_nat k < 1920 → glyph (crt !!! k) = nth k t 32;
}.

Lemma cursor_eq n : Z.lor (Z.shiftl (n / 256) 8) (n mod 256) = n.
Proof.
  apply Z.bits_inj'. intros k Hk. change 256 with (2^8). rewrite Z.lor_spec. destruct (Z.ltb_spec k 8).
  - by rewrite Z.shiftl_spec_low, Z.mod_pow2_bits_low.
  - rewrite Z.shiftl_spec_high, Z.div_pow2_bits, Z.mod_pow2_bits_high by lia. rewrite orb_false_r. f_equal. lia.
Qed.

Lemma scroll_row crt : Z.of_nat (length crt) = 2000 →
  scroll 1840 crt = take (Z.to_nat 1840) (drop 80 crt) ++ replicate 80 0 ++ drop (Z.to_nat 1920) crt.
Proof.
  intros Hl. unfold scroll. change (23 * 80) with 1840. change (24 * 80) with 1920. change (Z.to_nat (1920 - 1840)) with 80%nat.
  assert (length (take (Z.to_nat 1840) (drop 80 crt)) = Z.to_nat 1840) as Ht by (rewrite length_take, length_drop; lia).
  rewrite take_app_length' by done. do 2 f_equal. rewrite drop_app_ge by lia. rewrite drop_drop, Ht. by f_equal.
Qed.

Lemma glyph_char ch : glyph (u16 (Z.lor (Z.land ch 255) 1792)) = Z.land ch 255.
Proof.
  assert (u16 (Z.lor (Z.land ch 255) 1792) = Z.lor (Z.land ch 255) 1792) as ->.
  { unfold u16. rewrite <- Z.land_ones by lia. by rewrite Z.land_lor_distr_l, <- Z.land_assoc. }
  unfold glyph. destruct (Z.eqb_spec (Z.lor (Z.land ch 255) 1792) 0) as [E|_].
  - apply Z.lor_eq_0_iff in E. lia.
  - rewrite Z.land_lor_distr_l. change (Z.land 1792 255) with 0. by rewrite Z.lor_0_r, <- Z.land_assoc.
Qed.

Section Screen.
Context {D : Type} {HW : Hw D} {HL : HwLaws D}.
Implicit Types c : cst D.

(** Nothing but the cursor has changed. *)
Definition quiet (o o' : obs) : Prop := o_sent o' = o_sent o ∧ o_rx o' = o_rx o ∧ o_keys o' = o_keys o.

Lemma crt_store_ok k v c : (k < length (c_crt c))%nat →
  crt_store (Z.of_nat k) v c = Done tt (set_c_crt (<[k := u16 v]> (c_crt c)) c).
Proof.
  intros Hk. unfold crt_store. destruct (Z.leb_spec 0 (Z.of_nat k)), (Z.ltb_spec (Z.of_nat k) (Z.of_nat (length (c_crt c)))); try lia. cbn [andb].
  by rewrite Nat2Z.id.
Qed.

(** The cursor is set at [length t], and the cell there cleared. *)
Lemma set_cursor_ok t c :
  Z.of_nat (length t) < 1920 → Z.of_nat (length (c_crt c)) = 2000 →
  (∀ k, Z.of_nat k < 1920 → k ≠ length t → glyph (c_crt c !!! k) = nth k t 32) →
  let pos := Z.of_nat (length t) in
  ∃ crt' d', (port_out CRTPORT 14 ;;; port_out (CRTPORT + 1) (Z.shiftr pos 8) ;;; port_out CRTPORT 15 ;;;
              port_out (CRTPORT + 1) pos ;;; crt_store pos (Z.lor 32 1792)) c = Done tt (set_c_dev d' (set_c_crt crt' c)) ∧
    shows t crt' (hw d') ∧ quiet (hw (c_dev c)) (hw d').
Proof.
  intros Hlen Hcrt Ht pos. unfold port_out. mstep. unfold pos. rewrite crt_store_ok by (cbn; lia). exists (<[length t := u16 (Z.lor 32 1792)]> (c_crt c)). eexists. split; [reflexivity|].
  cbn [c_dev set_c_dev c_crt]. rewrite !hw_store, !hw_index. rewrite ?hw_store, ?hw_index. split; [|done]. split; [done|by rewrite length_insert| | |].
  - cbn. unfold u8. rewrite Z.shiftr_div_pow2 by lia. apply Z.mod_small. Z.div_mod_to_equations. lia.
  - done.
  - intros k Hk. destruct (decide (k = length t)) as [->|Hne].
    + rewrite list_lookup_total_insert_eq by lia. by rewrite nth_overflow.
    + rewrite list_lookup_total_insert_ne by done. by apply Ht.
Qed.

Lemma cga_finish_ok t c :
  Z.of_nat (length t) ≤ 1920 → Z.of_nat (length (c_crt c)) = 2000 →
  (∀ k, Z.of_nat k < 1920 → k ≠ length t → glyph (c_crt c !!! k) = nth k t 32) →
  ∃ crt' d', cga_finish (Z.of_nat (length t)) c = Done tt (set_c_dev d' (set_c_crt crt' c)) ∧
    shows (if 1920 <=? Z.of_nat (length t) then drop 80 t else t) crt' (hw d') ∧ quiet (hw (c_dev c)) (hw d').
Proof.
  intros Hlen Hcrt Ht. unfold cga_finish. mstep.
  destruct (Z.ltb_spec (Z.of_nat (length t)) 0), (Z.ltb_spec (25 * 80) (Z.of_nat (length t))); try lia. cbn [orb]. mstep.
  destruct (Z.leb_spec 24 (Z.of_nat (length t) / 80)) as [H24|H24]; destruct (Z.leb_spec 1920 (Z.of_nat (length t))) as [Hf|Hf]; try (Z.div_mod_to_equations; lia).
  - assert (Z.of_nat (length t) = 1920) as E by lia. rewrite E. change (1920 - 80) with 1840. mstep. rewrite scroll_row by done.
    set (c1 := set_c_crt _ c). destruct (set_cursor_ok (drop 80 t) c1) as (crt' & d' & He & Hs & Hq).
    + rewrite length_drop. lia.
    + unfold c1. cbn [c_crt set_c_crt]. rewrite !length_app, length_take, length_replicate, !length_drop. lia.
    + intros k Hk _. unfold c1. cbn [c_crt set_c_crt].
      rewrite nth_skipn. destruct (Z.ltb_spec (Z.of_nat k) 1840).
      * rewrite lookup_total_app_l by (rewrite length_take, length_drop; lia). rewrite lookup_total_take, decide_True, lookup_total_drop by lia. apply Ht; lia.
      * rewrite lookup_total_app_r by (rewrite length_take, length_drop; lia). rewrite lookup_total_app_l by (rewrite length_take, length_drop, length_replicate; lia).
        rewrite lookup_total_replicate_2 by (rewrite length_take, length_drop; lia). rewrite nth_overflow by lia. done.
    + rewrite length_drop in He. replace (Z.of_nat (length t - 80)) with 1840 in He by lia. exists crt', d'. done.
  - destruct (set_cursor_ok t c Hf Hcrt Ht) as (crt' & d' & He & Hs & Hq). by exists crt', d'.
Qed.
Lemma nth_blank k n : nth k (replicate n 32) 32 = 32.
Proof. revert k. induction n as [|n IH]; intros [|k]; try done. apply IH. Qed.

Lemma port_in_ok p c v d : inb p (c_dev c) = (v, d) → port_in p c = Done v (set_c_dev d c).
Proof. intros H. unfold port_in. by rewrite H. Qed.

Lemma cgaputc_ok ch t c :
  shows t (c_crt c) (hw (c_dev c)) →
  ∃ crt' d', cgaputc ch c = Done tt (set_c_dev d' (set_c_crt crt' c)) ∧
    shows (tput ch t) crt' (hw d') ∧ quiet (hw (c_dev c)) (hw d').
Proof.
  intros [S1 S2 S3 S4 S5]. unfold cgaputc, port_out at 1. mstep.
  set (c1 := set_c_dev _ c). destruct (hw_load (c_dev c1)) as (d1 & E1 & H1). rewrite (port_in_ok _ _ _ _ E1). mstep.
  unfold port_out at 1. mstep. set (c2 := set_c_dev _ (set_c_dev d1 c1)). destruct (hw_load (c_dev c2)) as (d2 & E2 & H2).
  rewrite (port_in_ok _ _ _ _ E2). mstep.
  assert (hw (c_dev c1) = with_idx 14 (hw (c_dev c))) as F1 by (unfold c1; cbn; apply hw_index).
  assert (hw (c_dev c2) = with_idx 15 (with_idx 14 (hw (c_dev c)))) as F2 by (unfold c2; cbn; by rewrite hw_index, H1, F1).
  rewrite F1, F2. cbn [o_reg o_idx with_idx]. rewrite S3, S4, cursor_eq.
  assert (∀ t' crt, Z.of_nat (length t') ≤ 1920 → Z.of_nat (length crt) = 2000 →
    (∀ k, Z.of_nat k < 1920 → k ≠ length t' → glyph (crt !!! k) = nth k t' 32) →
    ∃ crt' d', cga_finish (Z.of_nat (length t')) (set_c_crt crt (set_c_dev d2 c2)) = Done tt (set_c_dev d' (set_c_crt crt' c)) ∧
      shows (if 1920 <=? Z.of_nat (length t') then drop 80 t' else t') crt' (hw d') ∧ quiet (hw (c_dev c)) (hw d')) as Hfin.
  { intros t' crt A1 A2 A3. destruct (cga_finish_ok t' (set_c_crt crt (set_c_dev d2 c2)) A1 A2 A3) as (crt' & d' & -> & Hs & Hq).
    exists crt', d'. split; [done|]. split; [done|]. cbn [c_dev set_c_dev set_c_crt] in Hq. rewrite H2, F2 in Hq. done. }
  change (set_c_dev d2 c2) with (set_c_crt (c_crt c) (set_c_dev d2 c2)). unfold tput. destruct (Z.eqb_spec ch 10) as [->|Hnl]; mstep.
  - set (t' := t ++ replicate (80 - length t mod 80) 32).
    assert (Z.of_nat (length t) + (80 - Z.of_nat (length t) mod 80) = Z.of_nat (length t')) as ->.
    { unfold t'. rewrite length_app, length_replicate. pose proof (Nat.mod_upper_bound (length t) 80). rewrite <- (Nat2Z.inj_mod _ 80). lia. }
    apply Hfin; [|done|].
    + unfold t'. rewrite length_app, length_replicate. pose proof (Nat.mod_upper_bound (length t) 80). pose proof (Nat.div_mod_eq (length t) 80). lia.
    + intros k Hk _. rewrite S5 by done. unfold t'. destruct (decide (k < length t)%nat); [by rewrite app_nth1|].
      rewrite app_nth2, (nth_overflow t) by lia. by rewrite nth_blank.
  - destruct (Z.eqb_spec ch BACKSPACE) as [->|Hbs]; mstep.
    + assert ((if 0 <? Z.of_nat (length t) then Z.of_nat (length t) - 1 else Z.of_nat (length t)) = Z.of_nat (length (take (length t - 1) t))) as ->.
      { rewrite length_take. destruct (Z.ltb_spec 0 (Z.of_nat (length t))); lia. }
      apply Hfin; [rewrite length_take; lia|done|]. intros k Hk Hne. rewrite S5 by done. rewrite length_take in Hne.
      rewrite nth_firstn. destruct (Nat.ltb_spec k (length t - 1)); [done|]. apply nth_overflow. lia.
    + rewrite crt_store_ok by (cbn [c_crt set_c_crt]; lia). mstep. cbn [c_crt set_c_crt].
      replace (Z.of_nat (length t) + 1) with (Z.of_nat (length (t ++ [Z.land ch 255]))) by (rewrite length_app; cbn; lia).
      apply (Hfin _ (<[length t := u16 (Z.lor (Z.land ch 255) 1792)]> (c_crt c))); [rewrite length_app; cbn; lia|by rewrite length_insert|].
      intros k Hk Hne. rewrite length_app in Hne. cbn in Hne. destruct (decide (k = length t)) as [->|].
      * rewrite list_lookup_total_insert_eq by lia. rewrite glyph_char, nth_middle. done.
      * rewrite list_lookup_total_insert_ne by done. rewrite S5 by done. destruct (decide (k < length t)%nat); [by rewrite app_nth1|].
        rewrite !nth_overflow; [done|rewrite length_app; cbn; lia|lia].
Qed.
(** What goes over the serial line for a character. *)
Definition sends (ch : Z) : list Z := if ch =? BACKSPACE then [8; 32; 8] else [u8 ch].

(** The console as its user sees it: the terminal, and the bytes sent. *)
Record console (t : list Z) (out : list Z) (c : cst D) : Prop := {
  cn_live : c_panicked c = 0;
  cn_shows : shows t (c_crt c) (hw (c_dev c));
  cn_sent : c_uart c ≠ 0 → o_sent (hw (c_dev c)) = out;
}.

Lemma line_poll l c :
  ∃ r d', for_break l (λ _ : Z, st <- port_in (COM1 + 5) ;; ret (if Z.land st 32 =? 0 then None else Some tt)) c = Done r (set_c_dev d' c) ∧
    hw d' = hw (c_dev c).
Proof.
  revert c. induction l as [|k l IH]; intros c; cbn [for_break]; mstep; [exists None, (c_dev c); by destruct c|].
  destruct (hw_line (c_dev c)) as (v & d1 & E & H & _). rewrite (port_in_ok _ _ _ _ E). mstep.
  destruct (Z.land v 32 =? 0); mstep; [|by eexists _, d1]. destruct (IH (set_c_dev d1 c)) as (r & d' & -> & Hd). exists r, d'. split; [done|].
  by rewrite Hd.
Qed.

Lemma uartputc_ok ch c :
  ∃ d', uartputc ch c = Done tt (set_c_dev d' c) ∧
    hw d' = if c_uart c =? 0 then hw (c_dev c) else with_sent (o_sent (hw (c_dev c)) ++ [u8 ch]) (hw (c_dev c)).
Proof.
  unfold uartputc. mstep. destruct (c_uart c =? 0); mstep; [exists (c_dev c); by destruct c|].
  destruct (line_poll (seqZ 0 128) c) as (r & d & -> & Hd). mstep. unfold port_out. mstep. eexists. split; [done|]. cbn. by rewrite hw_send, Hd.
Qed.

Lemma consputc_ok ch t out c :
  console t out c →
  ∃ crt' d', consputc ch c = Done tt (set_c_dev d' (set_c_crt crt' c)) ∧
    console (tput ch t) (out ++ sends ch) (set_c_dev d' (set_c_crt crt' c)) ∧
    o_rx (hw d') = o_rx (hw (c_dev c)) ∧ o_keys (hw d') = o_keys (hw (c_dev c)).
Proof.
  intros [Hl Hs Ho]. unfold consputc. mstep. rewrite Hl. cbn [Z.eqb negb].
  assert (∃ d1, (if ch =? BACKSPACE then uartputc 8 ;;; uartputc 32 ;;; uartputc 8 else uartputc ch) c = Done tt (set_c_dev d1 c) ∧
    hw d1 = if c_uart c =? 0 then hw (c_dev c) else with_sent (o_sent (hw (c_dev c)) ++ sends ch) (hw (c_dev c))) as (d1 & E1 & H1).
  { unfold sends. destruct (ch =? BACKSPACE); [|apply uartputc_ok].
    mstep. destruct (uartputc_ok 8 c) as (d1 & -> & H1). mstep. destruct (uartputc_ok 32 (set_c_dev d1 c)) as (d2 & -> & H2). mstep.
    destruct (uartputc_ok 8 (set_c_dev d2 (set_c_dev d1 c))) as (d3 & -> & H3). exists d3. split; [done|]. cbn [c_uart c_dev set_c_dev] in *.
    rewrite H3, H2, H1. destruct (c_uart c =? 0); [done|]. unfold with_sent. cbn. by rewrite <- !app_assoc. }
  mstep. rewrite E1. mstep. destruct (cgaputc_ok ch t (set_c_dev d1 c)) as (crt' & d' & -> & Hs' & Q1 & Q2 & Q3).
  { cbn [c_dev set_c_dev c_crt]. rewrite H1. destruct (c_uart c =? 0); [done|]. by destruct Hs; split. }
  exists crt', d'. split; [done|]. cbn [c_dev set_c_dev] in *. rewrite Q2, Q3. split.
  - split; [done|done|]. cbn [c_uart c_dev set_c_dev set_c_crt]. intros Hu. rewrite Q1, H1. destruct (Z.eqb_spec (c_uart c) 0); [done|]. cbn. by rewrite Ho.
  - rewrite H1. by destruct (c_uart c =? 0).
Qed.

(** [m] prints the characters [l], and changes nothing else. *)
Definition prints (m : M (cst D) unit) (l : list Z) : Prop := ∀ t out c, console t out c →
  ∃ crt' d', m c = Done tt (set_c_dev d' (set_c_crt crt' c)) ∧
    console (foldl (flip tput) t l) (out ++ concat (sends <$> l)) (set_c_dev d' (set_c_crt crt' c)) ∧
    o_rx (hw d') = o_rx (hw (c_dev c)) ∧ o_keys (hw d') = o_keys (hw (c_dev c)).

Lemma prints_nothing : prints (ret tt) [].
Proof. intros t out c Hc. exists (c_crt c), (c_dev c). cbn. rewrite app_nil_r. by destruct c. Qed.

Lemma prints_char ch : prints (consputc ch) [ch].
Proof. intros t out c Hc. cbn [foldl flip fmap list_fmap concat]. rewrite app_nil_r. by apply consputc_ok. Qed.

Lemma prints_seq m1 m2 l1 l2 : prints m1 l1 → prints m2 l2 → prints (m1 ;;; m2) (l1 ++ l2).
Proof.
  intros P1 P2 t out c Hc. destruct (P1 t out c Hc) as (crt1 & d1 & E1 & Hc1 & R1 & K1). mstep. rewrite E1. mstep.
  destruct (P2 _ _ _ Hc1) as (crt2 & d2 & E2 & Hc2 & R2 & K2). exists crt2, d2. split; [done|].
  rewrite foldl_app, fmap_app, concat_app, app_assoc. cbn [c_dev set_c_dev set_c_crt] in *. rewrite R2, K2. done.
Qed.

Lemma prints_each l : prints (for_each l consputc) l.
Proof. induction l as [|ch l IH]; [apply prints_nothing|]. apply (prints_seq _ _ [ch] l); [apply prints_char|done]. Qed.

End Screen.

(** * cprintf *)
Section Format.
Context {D : Type} {HW : Hw D} {HL : HwLaws D}.
Context (m : mem) (fuel : nat) (stack : nat → Z) (str : Z → list Z).

(** A number as [cprintf] writes it. *)
Definition cnumber (xx base : Z) (sgn : bool) : list Z := default [] (@rev Z <$> printint_buf lower_digits xx base sgn).

(** The characters a format stands for; [str] gives the strings. *)
Fixpoint cformat (fmt : list Z) (argp : nat) : list Z :=
  match fmt with
  | [] => []
  | c :: fmt1 =>
    if negb (c =? 37) then c :: cformat fmt1 argp
    else match fmt1 with
    | [] => []
    | ch :: fmt' =>
      if ch =? 100 then cnumber (s32 (stack argp)) 10 true ++ cformat fmt' (S argp)
      else if (ch =? 120) || (ch =? 112) then cnumber (s32 (stack argp)) 16 false ++ cformat fmt' (S argp)
      else if ch =? 115 then (if stack argp =? 0 then null_str else str (stack argp)) ++ cformat fmt' (S argp)
      else if ch =? 37 then 37 :: cformat fmt' argp
      else 37 :: ch :: cformat fmt' argp
    end
  end.

(** Every ["%s"] has a null pointer or a string for its argument. *)
Fixpoint cstrings_ok (fmt : list Z) (argp : nat) : Prop :=
  match fmt with
  | [] => True
  | c :: fmt1 =>
    if negb (c =? 37) then cstrings_ok fmt1 argp
    else match fmt1 with
    | [] => True
    | ch :: fmt' =>
      if (ch =? 100) || (ch =? 120) || (ch =? 112) then cstrings_ok fmt' (S argp)
      else if ch =? 115 then
        (stack argp ≠ 0 → cstr m (stack argp) (str (stack argp)) ∧ (length (str (stack argp)) < fuel)%nat) ∧
        cstrings_ok fmt' (S argp)
      else cstrings_ok fmt' argp
    end
  end.

Lemma cons_puts_prints n s l : cstr m s l → (length l < n)%nat → prints (D := D) (cons_puts m n s) l.
Proof.
  revert s n. induction l as [|b l IH]; intros s [|n] Hs Hn; try (cbn in Hn; lia).
  - apply cstr_nil in Hs. cbn [cons_puts]. rewrite Hs. apply prints_nothing.
  - apply cstr_cons in Hs as (Hb & Hr & Hs). cbn [cons_puts]. destruct (Z.eqb_spec (m s) 0); [lia|]. rewrite Hb.
    apply (prints_seq _ _ [b] l); [apply prints_char|]. apply IH; [done|cbn in Hn; lia].
Qed.

Lemma cons_printint_prints xx base sgn : (base = 10 ∨ base = 16) → - 2^31 ≤ xx < 2^31 →
  prints (D := D) (cons_printint xx base sgn) (cnumber xx base sgn).
Proof.
  intros Hb Hx. destruct (printint_buf_ok lower_digits xx base sgn Hb Hx) as (buf & E & _). unfold cons_printint, cnumber. rewrite E. apply prints_each.
Qed.

Lemma cprintf_loop_prints k fmt argp :
  (length fmt ≤ k)%nat → cstrings_ok fmt argp → prints (D := D) (cprintf_loop m fuel stack fmt argp) (cformat fmt argp).
Proof.
  revert fmt argp. induction k as [|k IH]; intros [|c [|ch fmt]] argp Hk Hs; cbn [length] in Hk; try lia; cbn [cprintf_loop cformat cstrings_ok] in *;
    try apply prints_nothing.
  - destruct (negb (c =? 37)); [|apply prints_nothing]. apply (prints_seq _ _ [c] []); [apply prints_char|apply prints_nothing].
  - destruct (negb (c =? 37)); [apply (prints_seq _ _ [c]); [apply prints_char|apply (IH (ch :: fmt)); [cbn; lia|done]]|].
    pose proof (s32_range (stack argp)).
    destruct (ch =? 100); [apply prints_seq; [apply cons_printint_prints; auto|apply IH; [lia|done]]|]. cbn [orb] in Hs.
    destruct ((ch =? 120) || (ch =? 112)); [apply prints_seq; [apply cons_printint_prints; auto|apply IH; [lia|done]]|].
    destruct (ch =? 115).
    + destruct Hs as [Hstr Hs]. apply prints_seq; [|apply IH; [lia|done]]. destruct (Z.eqb_spec (stack argp) 0); [apply prints_each|].
      destruct Hstr as [? ?]; [done|]. by apply cons_puts_prints.
    + destruct (ch =? 37); [apply (prints_seq _ _ [37]); [apply prints_char|apply IH; [lia|done]]|].
      apply (prints_seq _ _ [37]); [apply prints_char|]. apply (prints_seq _ _ [ch]); [apply prints_char|apply IH; [lia|done]].
Qed.

End Format.

(** * Line editing *)

(** The input as its users see it: the bytes ready to be read, and the line being
    typed. *)
Definition ekey (ch : Z) (a : list Z * list Z) : list Z * list Z :=
  let '(q, l) := a in
  if ch =? C 80 then (q, l)
  else if ch =? C 85 then (q, [])
  else if (ch =? C 72) || (ch =? 127) then (q, take (length l - 1) l)
  else if negb (ch =? 0) && (length q + length l <? 128)%nat then
    let ch := if ch =? 13 then 10 else ch in
    if (ch =? 10) || (ch =? C 68) || (length q + length l =? 127)%nat then (q ++ l ++ [u8 ch], []) else (q, l ++ [u8 ch])
  else (q, l).

(** What is printed for a key. *)
Definition echo (ch : Z) (a : list Z * list Z) : list Z :=
  let '(q, l) := a in
  if ch =? C 80 then []
  else if ch =? C 85 then replicate (length l) BACKSPACE
  else if (ch =? C 72) || (ch =? 127) then (if l is [] then [] else [BACKSPACE])
  else if negb (ch =? 0) && (length q + length l <? 128)%nat then [if ch =? 13 then 10 else ch]
  else [].

Section Editing.
Context {D : Type} {HW : Hw D} {HL : HwLaws D}.
Implicit Types c : cst D.

Record input_ok (q l : list Z) (c : cst D) : Prop := {
  in_len : length (c_buf c) = 128%nat;
  in_r : 0 ≤ c_r c < 2^32;
  in_w : c_w c = u32 (c_r c + Z.of_nat (length q));
  in_e : c_e c = u32 (c_r c + Z.of_nat (length q + length l));
  in_fit : (length q + length l ≤ 128)%nat;
  in_full : (length q + length l = 128)%nat → l = [];
  in_nl : 10 ∉ l;
  in_at k : (k < length (q ++ l))%nat → input_at (c_r c + Z.of_nat k) c = (q ++ l) !!! k;
}.

(** [c'] is [c] after the characters [pr] were printed and the input became [q], [l]. *)
Record typed (t out : list Z) (c : cst D) (pr q l : list Z) (c' : cst D) : Prop := {
  ty_console : console (foldl (flip tput) t pr) (out ++ concat (sends <$> pr)) c';
  ty_input : input_ok q l c';
  ty_rx : o_rx (hw (c_dev c')) = o_rx (hw (c_dev c));
  ty_keys : o_keys (hw (c_dev c')) = o_keys (hw (c_dev c));
  ty_rest : (c_locking c', c_uart c', c_shift c') = (c_locking c, c_uart c, c_shift c);
}.

Lemma input_frame q l c c' :
  (c_buf c', c_r c', c_w c', c_e c') = (c_buf c, c_r c, c_w c, c_e c) → input_ok q l c → input_ok q l c'.
Proof.
  intros [= E1 E2 E3 E4] [A1 A2 A3 A4 A5 A6 A7 A8]. split; unfold input_at in *; rewrite ?E1, ?E2, ?E3, ?E4; done.
Qed.

Lemma mod_128_u32 x : u32 x mod 128 = x mod 128.
Proof. unfold u32. apply Z.mod_mod_divide. by exists (2^25). Qed.

Lemma u32_pred x : u32 (u32 (x + 1) - 1) = u32 x.
Proof. unfold u32. rewrite Zminus_mod_idemp_l. f_equal. lia. Qed.

(** Two positions of the ring that are less than its size apart. *)
Lemma u32_ne r a b : 0 ≤ a < b → b ≤ 128 → u32 (r + a) ≠ u32 (r + b).
Proof. unfold u32. intros. Z.div_mod_to_equations. lia. Qed.

(** The last character of the line is taken back. *)
Lemma input_back q l x c :
  input_ok q (l ++ [x]) c →
  c_e c ≠ c_w c ∧ input_at (u32 (c_e c - 1)) c = x ∧ input_ok q l (set_c_e (u32 (c_e c - 1)) c).
Proof.
  intros [A1 A2 A3 A4 A5 A6 A7 A8]. rewrite length_app in *. cbn [length] in *.
  assert (u32 (c_e c - 1) = u32 (c_r c + Z.of_nat (length q + length l))) as Ee.
  { rewrite A4, <- (u32_pred (c_r c + Z.of_nat (length q + length l))). do 3 f_equal. lia. }
  split; [|split].
  - rewrite A3, A4. apply not_eq_sym, u32_ne; lia.
  - rewrite Ee. pose proof (A8 (length q + length l)%nat) as H. rewrite !length_app in H. cbn [length] in H. unfold input_at in *.
    rewrite mod_128_u32, H by lia. rewrite app_assoc, <- length_app. by apply list_lookup_total_middle.
  - split; cbn; try done; [lia|intros; lia|set_solver|]. intros k Hk. rewrite length_app in Hk. unfold input_at in *. cbn.
    rewrite A8 by (rewrite !length_app; cbn; lia). rewrite app_assoc. by rewrite lookup_total_app_l by (rewrite length_app; lia).
Qed.

(** Printing leaves the input alone. *)
Lemma typed_print m pr t out c q l :
  prints m pr → console t out c → input_ok q l c → ∃ c', m c = Done tt c' ∧ typed t out c pr q l c'.
Proof.
  intros Hm Hc Hi. destruct (Hm t out c Hc) as (crt' & d' & E & Hc' & R & K). eexists. split; [exact E|]. split; try done.
  by apply (input_frame _ _ c).
Qed.

Lemma typed_trans t out c pr1 q1 l1 c1 pr2 q2 l2 c2 :
  typed t out c pr1 q1 l1 c1 →
  typed (foldl (flip tput) t pr1) (out ++ concat (sends <$> pr1)) c1 pr2 q2 l2 c2 → typed t out c (pr1 ++ pr2) q2 l2 c2.
Proof.
  intros [A1 A2 A3 A4 A5] [B1 B2 B3 B4 B5]. split; try congruence. by rewrite foldl_app, fmap_app, concat_app, app_assoc.
Qed.

Lemma erase_back t out c q l x :
  console t out c → input_ok q (l ++ [x]) c →
  ∃ c', (modify (set_c_e (u32 (c_e c - 1))) ;;; consputc BACKSPACE) c = Done tt c' ∧ typed t out c [BACKSPACE] q l c'.
Proof.
  intros Hc Hi. destruct (input_back q l x c Hi) as (_ & _ & Hi'). mstep.
  destruct (typed_print _ _ t out (set_c_e (u32 (c_e c - 1)) c) q l (prints_char BACKSPACE)) as (c' & -> & Ht); [by destruct Hc; split|done|].
  exists c'. split; [done|]. by destruct Ht; split.
Qed.

Lemma kill_loop t out c q l n :
  console t out c → input_ok q l c → (length l < n)%nat →
  ∃ c', loop n (c <- gets id ;;
    if negb (c_e c =? c_w c) && negb (input_at (u32 (c_e c - 1)) c =? 10) then
      modify (set_c_e (u32 (c_e c - 1))) ;;; consputc BACKSPACE ;;; ret None
    else ret (Some tt)) c = Done tt c' ∧ typed t out c (replicate (length l) BACKSPACE) q [] c'.
Proof.
  revert t out c n. induction l as [|x l IH] using rev_ind; intros t out c [|n] Hc Hi Hn; try lia; cbn [loop]; mstep; cbn [id].
  - pose proof Hi as [A1 A2 A3 A4 A5 A6 A7 A8]. rewrite Nat.add_0_r in A4. rewrite A3, A4, Z.eqb_refl. cbn [negb andb]. mstep.
    exists c. split; [done|]. split; try done. cbn. by rewrite app_nil_r.
  - destruct (input_back q l x c Hi) as (Hne & Hx & _). destruct (Z.eqb_spec (c_e c) (c_w c)); [done|]. rewrite Hx.
    assert (x ≠ 10) as Hx10 by (intros ->; apply (in_nl _ _ _ Hi); set_solver). destruct (Z.eqb_spec x 10); [done|]. cbn [negb andb].
    destruct (erase_back t out c q l x Hc Hi) as (c1 & E1 & H1). revert E1. mstep. intros E1. rewrite E1. mstep.
    rewrite length_app in Hn. cbn [length] in Hn.
    destruct (IH _ _ c1 n (ty_console _ _ _ _ _ _ _ H1) (ty_input _ _ _ _ _ _ _ H1) ltac:(lia)) as (c2 & E2 & H2). exists c2. split; [exact E2|].
    rewrite length_app, Nat.add_1_r. apply (typed_trans t out c [BACKSPACE] q l c1); done.
Qed.

Lemma kill_line_ok t out c q l :
  console t out c → input_ok q l c →
  ∃ c', kill_line c = Done tt c' ∧ typed t out c (replicate (length l) BACKSPACE) q [] c'.
Proof. intros Hc Hi. apply kill_loop; [done|done|]. pose proof (in_fit _ _ _ Hi). cbn. lia. Qed.

Lemma erase_ok t out c q l :
  console t out c → input_ok q l c →
  ∃ c', erase c = Done tt c' ∧ typed t out c (if l is [] then [] else [BACKSPACE]) q (take (length l - 1) l) c'.
Proof.
  intros Hc Hi. unfold erase. mstep. cbn [id]. destruct l as [|x l _] using rev_ind.
  - pose proof Hi as [A1 A2 A3 A4 A5 A6 A7 A8]. rewrite Nat.add_0_r in A4. rewrite A3, A4, Z.eqb_refl. cbn [negb]. mstep.
    exists c. split; [done|]. split; try done. cbn. by rewrite app_nil_r.
  - destruct (input_back q l x c Hi) as (Hne & _ & _). destruct (Z.eqb_spec (c_e c) (c_w c)); [done|]. cbn [negb].
    destruct (erase_back t out c q l x Hc Hi) as (c1 & E1 & H1). exists c1. split; [exact E1|].
    rewrite length_app. cbn [length]. rewrite Nat.add_sub, take_app_length. by destruct l.
Qed.

(** A character is stored behind the line. *)
Definition stored (ch : Z) (c : cst D) : cst D :=
  set_c_e (u32 (c_e c + 1)) (set_c_buf (<[Z.to_nat (c_e c mod INPUT_BUF) := u8 ch]> (c_buf c)) c).

Lemma stored_at q l c ch k :
  input_ok q l c → (length q + length l < 128)%nat → (k ≤ length (q ++ l))%nat →
  input_at (c_r c + Z.of_nat k) (stored ch c) = (q ++ l ++ [u8 ch]) !!! k.
Proof.
  intros [A1 A2 A3 A4 A5 A6 A7 A8] Hn Hk. unfold input_at, stored. cbn [c_buf set_c_e set_c_buf]. rewrite A4, mod_128_u32, app_assoc.
  rewrite length_app in Hk. destruct (decide (k = length (q ++ l))) as [->|Hne].
  - rewrite length_app at 1. rewrite list_lookup_total_insert_eq; [by rewrite list_lookup_total_middle|]. rewrite A1. Z.div_mod_to_equations. lia.
  - rewrite length_app in Hne. rewrite list_lookup_total_insert_ne; [|Z.div_mod_to_equations; lia].
    rewrite lookup_total_app_l by (rewrite length_app; lia). apply A8. rewrite length_app. lia.
Qed.

Lemma stored_e q l c ch : input_ok q l c → c_e (stored ch c) = u32 (c_r c + Z.of_nat (length q + length l + 1)).
Proof.
  intros Hi. cbn. rewrite (in_e _ _ _ Hi). unfold u32. rewrite Zplus_mod_idemp_l. f_equal. lia.
Qed.

(** It stays in the line, or the line is complete. *)
Lemma input_more q l c ch :
  input_ok q l c → (length q + length l < 127)%nat → u8 ch ≠ 10 → input_ok q (l ++ [u8 ch]) (stored ch c).
Proof.
  intros Hi Hn Hne. pose proof Hi as [A1 A2 A3 A4 A5 A6 A7 A8]. split; try done.
  - cbn. by rewrite length_insert.
  - rewrite (stored_e q l) by done. cbn [c_r stored]. rewrite length_app. cbn [length]. unfold stored. cbn [c_r set_c_e set_c_buf]. do 3 f_equal. lia.
  - rewrite length_app. cbn. lia.
  - rewrite length_app. cbn. lia.
  - set_solver.
  - intros k Hk. rewrite !length_app in Hk. cbn in Hk. change (c_r (stored ch c)) with (c_r c). apply stored_at; [done|lia|]. rewrite length_app. lia.
Qed.

Lemma input_line q l c ch w :
  input_ok q l c → (length q + length l < 128)%nat → w = c_e (stored ch c) →
  input_ok (q ++ l ++ [u8 ch]) [] (set_c_w w (stored ch c)).
Proof.
  intros Hi Hn ->. pose proof Hi as [A1 A2 A3 A4 A5 A6 A7 A8]. pose proof (stored_e q l c ch Hi) as Ee.
  assert (length (q ++ l ++ [u8 ch]) = length q + length l + 1)%nat as El by (rewrite !length_app; cbn; lia).
  split; try done.
  - cbn. by rewrite length_insert.
  - cbn [c_w set_c_w]. rewrite Ee. change (c_r (set_c_w _ (stored ch c))) with (c_r c). by rewrite El.
  - change (c_e (set_c_w _ (stored ch c))) with (c_e (stored ch c)). rewrite Ee. change (c_r (set_c_w _ (stored ch c))) with (c_r c). by rewrite El, Nat.add_0_r.
  - rewrite El. cbn. lia.
  - set_solver.
  - intros k Hk. rewrite app_nil_r in *. change (c_r (set_c_w _ (stored ch c))) with (c_r c).
    change (input_at (c_r c + Z.of_nat k) (stored ch c) = (q ++ l ++ [u8 ch]) !!! k). apply stored_at; [done|done|]. rewrite length_app. lia.
Qed.

(** Input has become ready. *)
Definition commits (ch : Z) (a : list Z * list Z) : bool := negb (length (ekey ch a).1 =? length a.1)%nat.

Lemma input_char_ok t out c q l ch :
  console t out c → input_ok q l c → 0 ≤ ch < 256 → (ch =? C 80) = false → (ch =? C 85) = false → (ch =? C 72) || (ch =? 127) = false →
  ∃ c', input_char ch c = Done (commits ch (q, l)) c' ∧
    typed t out c (echo ch (q, l)) (ekey ch (q, l)).1 (ekey ch (q, l)).2 c'.
Proof.
  intros Hc Hi Hr N1 N2 N3. unfold input_char, commits, ekey, echo. rewrite N1, N2, N3. mstep. cbn [id].
  assert (u32 (c_e c - c_r c) = Z.of_nat (length q + length l)) as En.
  { rewrite (in_e _ _ _ Hi). unfold u32. rewrite Zminus_mod_idemp_l. pose proof (in_fit _ _ _ Hi). rewrite Z.mod_small by lia. lia. }
  rewrite En. replace (Z.of_nat (length q + length l) <? 128) with (length q + length l <? 128)%nat by (apply eq_bool_prop_intro; rewrite !Is_true_true, Nat.ltb_lt, Z.ltb_lt; lia).
  destruct (negb (ch =? 0) && (length q + length l <? 128)%nat) eqn:E.
  2: { mstep. exists c. cbn [fst snd]. rewrite Nat.eqb_refl. split; [done|]. split; try done. cbn. by rewrite app_nil_r. }
  apply andb_true_iff in E as [_ Hlt%Nat.ltb_lt]. set (x := if ch =? 13 then 10 else ch).
  assert (0 ≤ x < 256) as Hx by (unfold x; destruct (ch =? 13); lia). mstep.
  match goal with |- context [consputc x ?s] => change s with (stored x c) end.
  destruct (prints_char x t out (stored x c)) as (crt' & d' & E1 & P1 & P2 & P3); [by destruct Hc; split|]. rewrite E1. mstep. cbn [id].
  set (c1 := set_c_dev d' (set_c_crt crt' (stored x c))) in *.
  assert ((c_e c1 =? u32 (c_r c1 + INPUT_BUF)) = (length q + length l =? 127)%nat) as ->.
  { change (c_e c1) with (c_e (stored x c)). rewrite (stored_e q l) by done. change (c_r c1) with (c_r c). apply eq_bool_prop_intro.
    rewrite !Is_true_true, Nat.eqb_eq, Z.eqb_eq. unfold u32. Z.div_mod_to_equations. lia. }
  destruct ((x =? 10) || (x =? C 68) || (length q + length l =? 127)%nat) eqn:Ec; mstep; cbn [fst snd].
  - eexists. split.
    { f_equal. symmetry. apply negb_true_iff, Nat.eqb_neq. rewrite !length_app. cbn. lia. }
    split; [by destruct P1; split| |done..].
    apply (input_frame _ _ (set_c_w (c_e (stored x c)) (stored x c))); [done|]. by apply input_line.
  - exists c1. rewrite Nat.eqb_refl. split; [done|]. split; try done.
    apply (input_frame _ _ (stored x c)); [done|]. apply orb_false_iff in Ec as [[Ec _]%orb_false_iff E127]. apply Nat.eqb_neq in E127. apply Z.eqb_neq in Ec.
    apply input_more; [done|lia|]. rewrite u8_id by lia. done.
Qed.

(** ** Where the characters come from *)

(** [getc] delivers the characters that [src] finds in the state of the driver and the
    hardware, and -1 when there is none left. *)
Definition pending (src : Z → Z → list Z → list Z → list Z) (c : cst D) : list Z :=
  src (c_uart c) (c_shift c) (o_rx (hw (c_dev c))) (o_keys (hw (c_dev c))).
Record char_source (getc : M (cst D) Z) (src : Z → Z → list Z → list Z → list Z) : Prop := {
  cs_end c : pending src c = [] → ∃ d', getc c = Done (-1) (set_c_dev d' c) ∧ hw d' = hw (c_dev c);
  cs_next c k ks : pending src c = k :: ks → ∃ sh' rx' keys' d', getc c = Done k (set_c_dev d' (set_c_shift sh' c)) ∧
    hw d' = with_rx rx' (with_keys keys' (hw (c_dev c))) ∧ pending src (set_c_dev d' (set_c_shift sh' c)) = ks;
}.

Definition serial_src (uart shift : Z) (rx keys : list Z) : list Z := if uart =? 0 then [] else rx.
Fixpoint kbd_chars (shift : Z) (keys : list Z) : list Z :=
  match keys with [] => [] | k :: keys' => (kbd_decode shift k).1 :: kbd_chars (kbd_decode shift k).2 keys' end.
Definition kbd_src (uart shift : Z) (rx keys : list Z) : list Z := kbd_chars shift keys.

Lemma serial_source : char_source uartgetc serial_src.
Proof.
  split; unfold pending, serial_src, uartgetc.
  - intros c Hp. mstep. destruct (c_uart c =? 0); mstep; [exists (c_dev c); by destruct c|].
    destruct (hw_line (c_dev c)) as (v & d & E & Hd & Hv). rewrite (port_in_ok _ _ _ _ E). mstep. apply Hv in Hp. rewrite Hp. mstep. by exists d.
  - intros c k ks Hp. mstep. destruct (Z.eqb_spec (c_uart c) 0) as [|Hu]; [done|]. destruct (hw_line (c_dev c)) as (v & d & E & Hd & Hv).
    mstep. rewrite (port_in_ok _ _ _ _ E). mstep. destruct (Z.eqb_spec (Z.land v 1) 0) as [H0|H0]; [apply Hv in H0; congruence|]. rewrite <- Hd in Hp.
    destruct (hw_recv d k ks Hp) as (d' & E' & H'). rewrite (port_in_ok _ (set_c_dev d c) k d') by done. exists (c_shift c), ks, (o_keys (hw (c_dev c))), d'.
    split; [done|]. rewrite H', Hd. split; [done|]. cbn. rewrite H'. by destruct (Z.eqb_spec (c_uart c) 0).
Qed.

Lemma kbd_source : char_source kbdgetc kbd_src.
Proof.
  split; unfold pending, kbd_src, kbdgetc.
  - intros c Hp. mstep. destruct (hw_status (c_dev c)) as (v & d & E & Hd & Hv). rewrite (port_in_ok _ _ _ _ E). mstep.
    destruct (o_keys (hw (c_dev c))) eqn:Ek; [|done]. rewrite (proj2 Hv) by done. mstep. by exists d.
  - intros c k ks Hp. mstep. destruct (hw_status (c_dev c)) as (v & d & E & Hd & Hv). rewrite (port_in_ok _ _ _ _ E). mstep.
    destruct (o_keys (hw (c_dev c))) as [|b keys] eqn:Ek; [done|]. cbn [kbd_chars] in Hp. injection Hp as <- <-.
    destruct (Z.eqb_spec (Z.land v KBS_DIB) 0) as [H0|_]; [apply Hv in H0; congruence|]. mstep. rewrite <- Hd in Ek.
    destruct (hw_key d b keys Ek) as (d' & E' & H'). rewrite (port_in_ok _ (set_c_dev d c) b d') by done. mstep. cbn [c_shift set_c_dev].
    destruct (kbd_decode (c_shift c) b) as [ch sh] eqn:Edec. mstep. exists sh, (o_rx (hw (c_dev c))), keys, d'. split; [done|].
    rewrite H', Hd. split; [done|]. cbn. by rewrite H'.
Qed.

End Editing.

(** * The interrupt handler *)
Section Intr.
Context {V D : Type} {HW : Hw D} {HL : HwLaws D}.
Abbreviation W := (V * cst D)%type.
Implicit Types s : kst W.

Definition rest (s : kst W) :=
  (k_cpuid s, k_nextpid s, k_cur s, k_initproc s, k_ticks s, k_first s, k_kpgdir s, k_files s, k_pipes s, k_slocks s, k_fs s, k_console s).

(** The handler runs, holding the locks [held]: the console is [c], the processes are
    [ps], and everything else is as in [s0]. *)
Record istate (held : list lockid) (s0 : kst W) (c : cst D) (ps : list proc) (s : kst W) : Prop := {
  is_ctx : kctx held s;
  is_cons : is_Some (k_locks s !! L_cons);
  is_ptable : is_Some (k_locks s !! L_ptable);
  is_len : length ps = NPROC;
  is_procs : k_procs s = ps;
  is_mem : k_mem s = ((k_mem s0).1, c);
  is_rest : rest s = rest s0;
}.

Lemma onc_eq {A} (m : M (cst D) A) s v c a c' :
  k_mem s = (v, c) → m c = Done a c' → onc m s = Done a (set_k_mem (v, c') s).
Proof. intros E H. unfold onc. rewrite E. cbn [snd fst]. by rewrite H. Qed.

Lemma istate_onc {A} (m : M (cst D) A) held s0 c ps s a c' :
  istate held s0 c ps s → m c = Done a c' → ∃ s', onc m s = Done a s' ∧ istate held s0 c' ps s'.
Proof.
  intros [A1 A2 A3 A4 A5 A6 A7] H. eexists. split; [by eapply onc_eq|]. split; try done. by apply (kctx_frame _ s).
Qed.

Lemma istate_wakeup s0 c ps s :
  istate [L_cons] s0 c ps s → ∃ s', wakeup C_input s = Done tt s' ∧ istate [L_cons] s0 c (wake C_input <$> ps) s'.
Proof.
  intros [A1 A2 A3 A4 A5 A6 A7]. eexists. split; [eapply (wakeup_eq [L_cons]); [done|set_solver|done|by rewrite A5]|].
  split; try done; [|by rewrite length_fmap|cbn; by rewrite A5].
  apply (kctx_norm _ (set_k_procs (wake C_input <$> k_procs s) s)). by apply kctx_procs.
Qed.

(** The state of the process table after input became ready, or not. *)
Definition woken (b : bool) (ps : list proc) : list proc := if b then wake C_input <$> ps else ps.

Lemma consoleintr_char_ok s0 t out c ps q l ch s :
  istate [L_cons] s0 c ps s → console t out c → input_ok q l c → 0 ≤ ch < 256 →
  ∃ c' s', consoleintr_char ch s = Done (ch =? C 80) s' ∧ istate [L_cons] s0 c' (woken (commits ch (q, l)) ps) s' ∧
    typed t out c (echo ch (q, l)) (ekey ch (q, l)).1 (ekey ch (q, l)).2 c'.
Proof.
  intros Hs Hc Hi Hr. unfold consoleintr_char. destruct (ch =? C 80) eqn:N1.
  { exists c, s. unfold commits, ekey, echo. rewrite N1. cbn [fst snd]. rewrite Nat.eqb_refl. split; [done|]. split; [done|]. split; try done. cbn. by rewrite app_nil_r. }
  destruct (ch =? C 85) eqn:N2.
  { destruct (kill_line_ok t out c q l Hc Hi) as (c' & E & Ht). destruct (istate_onc _ _ _ _ _ _ _ _ Hs E) as (s' & E' & Hs'). mstep. rewrite E'.
    exists c', s'. unfold commits, ekey, echo. rewrite N1, N2. cbn [fst snd]. rewrite Nat.eqb_refl. done. }
  destruct ((ch =? C 72) || (ch =? 127)) eqn:N3.
  { destruct (erase_ok t out c q l Hc Hi) as (c' & E & Ht). destruct (istate_onc _ _ _ _ _ _ _ _ Hs E) as (s' & E' & Hs'). mstep. rewrite E'.
    exists c', s'. unfold commits, ekey, echo. rewrite N1, N2, N3. cbn [fst snd]. rewrite Nat.eqb_refl. done. }
  destruct (input_char_ok t out c q l ch Hc Hi Hr N1 N2 N3) as (c' & E & Ht). destruct (istate_onc _ _ _ _ _ _ _ _ Hs E) as (s1 & E1 & Hs1).
  mstep. rewrite E1. mstep. destruct (commits ch (q, l)); cbn [when woken]; mstep; [|by exists c', s1].
  destruct (istate_wakeup _ _ _ _ Hs1) as (s2 & -> & Hs2). mstep. by exists c', s2.
Qed.

(** ** All the characters that are waiting *)
Fixpoint echoes (ks : list Z) (a : list Z * list Z) : list Z :=
  match ks with [] => [] | k :: ks' => echo k a ++ echoes ks' (ekey k a) end.

Lemma ekey_grows ch a : (length a.1 ≤ length (ekey ch a).1)%nat.
Proof.
  destruct a as [q l]. unfold ekey. repeat case_match; cbn [fst]; rewrite ?length_app; lia.
Qed.
Lemma ekeys_grow ks a : (length a.1 ≤ length (foldl (flip ekey) a ks).1)%nat.
Proof. revert a. induction ks as [|k ks IH]; intros a; [done|]. cbn. etrans; [apply (ekey_grows k)|apply IH]. Qed.

Lemma wake_idemp ch p : wake ch (wake ch p) = wake ch p.
Proof.
  unfold wake. destruct (bool_decide (p_state p = SLEEPING) && bool_decide (p_chan p = ch)) eqn:E; [|by rewrite E].
  by rewrite bool_decide_eq_false_2.
Qed.

Lemma consoleintr_loop_ok getc src s0 ks n dump t out c ps q l s :
  char_source getc src → istate [L_cons] s0 c ps s → console t out c → input_ok q l c → pending src c = ks →
  Forall (λ k, 0 ≤ k < 256) ks → (length ks < n)%nat →
  let a := foldl (flip ekey) (q, l) ks in
  ∃ c' s', consoleintr_loop n getc dump s = Done (dump || existsb (Z.eqb (C 80)) ks) s' ∧
    istate [L_cons] s0 c' (woken (negb (length a.1 =? length q)%nat) ps) s' ∧
    console (foldl (flip tput) t (echoes ks (q, l))) (out ++ concat (sends <$> echoes ks (q, l))) c' ∧
    input_ok a.1 a.2 c' ∧ pending src c' = [].
Proof.
  intros Hg. revert n dump t out c ps q l s. induction ks as [|k ks IH]; intros [|n] dump t out c ps q l s Hs Hc Hi Hp Hr Hn a; try (cbn in Hn; lia); cbn [consoleintr_loop]; mstep.
  - destruct (cs_end _ _ Hg c Hp) as (d' & E & Hd). destruct (istate_onc _ _ _ _ _ _ _ _ Hs E) as (s1 & -> & Hs1). mstep. cbn [Z.leb Z.compare]. mstep.
    exists (set_c_dev d' c), s1. cbn [existsb]. rewrite orb_false_r. split; [done|]. unfold a. cbn [foldl fst snd echoes fmap list_fmap concat].
    rewrite Nat.eqb_refl, app_nil_r. split; [done|]. split; [destruct Hc; split; try done; cbn; by rewrite Hd|].
    split; [by apply (input_frame _ _ c)|]. unfold pending in *. cbn. by rewrite Hd.
  - apply Forall_cons in Hr as [Hk Hr]. destruct (cs_next _ _ Hg c k ks Hp) as (sh & rx & keys & d' & E & Hd & Hp').
    destruct (istate_onc _ _ _ _ _ _ _ _ Hs E) as (s1 & -> & Hs1). mstep. destruct (Z.leb_spec 0 k); [|lia]. mstep. set (c1 := set_c_dev d' (set_c_shift sh c)) in *.
    assert (console t out c1) as Hc1.
    { destruct Hc as [B1 B2 B3]. split; [done| |]; unfold c1; cbn [c_dev set_c_dev c_crt set_c_shift c_uart]; rewrite Hd; [by destruct B2; split|done]. }
    destruct (consoleintr_char_ok s0 t out c1 ps q l k s1 Hs1 Hc1) as (c2 & s2 & -> & Hs2 & [T1 T2 T3 T4 T5]); [by apply (input_frame _ _ c)|done|].
    assert (pending src c2 = ks) as Hp2.
    { rewrite <- Hp'. unfold pending. rewrite T3, T4. injection T5 as _ -> ->. done. }
    destruct (IH n (dump || (k =? C 80)) _ _ c2 _ _ _ s2 Hs2 T1 T2 Hp2 Hr ltac:(cbn in Hn; lia)) as (c3 & s3 & E3 & Hs3 & Hc3 & Hi3 & Hp3).
    exists c3, s3. cbn [rbind]. rewrite E3. split; [cbn [existsb]; by rewrite orb_assoc, (Z.eqb_sym k)|]. rewrite <- surjective_pairing in *.
    split; [|split; [|done]].
    + destruct Hs3 as [B1 B2 B3 B4 B5 B6 B7]. pose proof (ekey_grows k (q, l)) as G1. pose proof (ekeys_grow ks (ekey k (q, l))) as G2.
      assert (woken (negb (length a.1 =? length q)%nat) ps = woken (negb (length (foldl (flip ekey) (ekey k (q, l)) ks).1 =? length (ekey k (q, l)).1)%nat) (woken (commits k (q, l)) ps)) as ->; [|done].
      unfold a, commits. cbn [foldl flip fst] in *. set (n0 := length q) in *. set (n1 := length (ekey k (q, l)).1) in *. set (n2 := length (foldl _ _ ks).1) in *.
      destruct (Nat.eqb_spec n2 n0), (Nat.eqb_spec n2 n1), (Nat.eqb_spec n1 n0); try lia; cbn [negb woken]; try done.
      rewrite <- list_fmap_compose. apply list_fmap_ext. intros; symmetry; apply wake_idemp.
    + cbn [echoes]. by rewrite foldl_app, fmap_app, concat_app, app_assoc.
Qed.

End Intr.

(** * Reading *)

(** What a read of [n] bytes takes from the bytes that are ready: up to a newline or ^D;
    a ^D is taken only by a read that returns nothing else.  [None]: it has to wait. *)
Fixpoint eread (n : nat) (first : bool) (q : list Z) : option (list Z * list Z) :=
  match n, q with
  | O, _ => Some ([], q)
  | S _, [] => None
  | S n', b :: q' =>
    if b =? C 68 then Some ([], if first then q' else q)
    else if b =? 10 then Some ([b], q')
    else (λ r, (b :: r.1, r.2)) <$> eread n' false q'
  end.

Section Reading.
Context {V D : Type} {VO : VmOps V} {VL : VmLaws V} {HW : Hw D} {HL : HwLaws D} {DK : DiskOps (V * cst D)}.
Abbreviation W := (V * cst D)%type.
Implicit Types s : kst W.

Lemma input_pop q l b (c : cst D) :
  input_ok (b :: q) l c →
  c_r c ≠ c_w c ∧ input_at (c_r c) c = b ∧ input_ok q l (set_c_r (u32 (c_r c + 1)) c).
Proof.
  intros [A1 A2 A3 A4 A5 A6 A7 A8]. cbn [length] in *. split; [|split].
  - rewrite A3. unfold u32. Z.div_mod_to_equations. lia.
  - pose proof (A8 0%nat ltac:(cbn; lia)) as H. by rewrite Z.add_0_r in H.
  - split; cbn [c_buf c_r c_w c_e set_c_r]; try done; [apply u32_range| | |lia|lia|].
    + rewrite A3. unfold u32. rewrite Zplus_mod_idemp_l. f_equal. lia.
    + rewrite A4. unfold u32. rewrite Zplus_mod_idemp_l. f_equal. lia.
    + intros k Hk. pose proof (A8 (S k) ltac:(cbn; lia)) as H. unfold input_at in *. cbn [c_buf set_c_r].
      rewrite <- (mod_128_u32 (u32 (c_r c + 1) + Z.of_nat k)). unfold u32 at 1 2. rewrite Zplus_mod_idemp_l. fold (u32 (c_r c + 1 + Z.of_nat k)). rewrite mod_128_u32.
      replace (c_r c + 1 + Z.of_nat k) with (c_r c + Z.of_nat (S k)) by lia. by rewrite H.
Qed.

(** Where the bytes go. *)
Definition room (d : dst) (sz : Z) (n : nat) : Prop := match d with ToUser va => 0 ≤ va ∧ va + Z.of_nat n ≤ sz | ToKernel => True end.
Definition landed (d : dst) (k : nat) (bs : list Z) (um : mem) : mem :=
  match d with ToUser va => writes um (va + Z.of_nat k) bs | ToKernel => um end.

Lemma put_byte_ok g i p um d k n b s :
  user_mem g i p um s → room d (p_sz p) n → (k < n)%nat →
  ∃ v', put_byte d (Z.of_nat k) b s = Done tt (set_k_mem (v', (k_mem s).2) s) ∧
    user_mem (<[p_pgdir p := OSpace (p_sz p) (landed d k [b] um)]> g) i p (landed d k [b] um) (set_k_mem (v', (k_mem s).2) s).
Proof.
  intros Hu Hd Hk. destruct d as [va|]; cbn [put_byte landed room] in *.
  - destruct Hu as (Hinv & Hcur & Hp & Hg). unfold ustore8. mstep. rewrite (cur_eq i p) by done. mstep. cbn [vm_uwrite vm_pair].
    destruct (vm_uwrite_ok g (k_mem s).1 (p_pgdir p) (p_sz p) um (va + Z.of_nat k) b) as (v' & -> & Hv); [done|done|lia|].
    exists v'. split; [done|]. split; [done|]. split; [done|]. split; [done|]. apply lookup_insert_eq.
  - exists (k_mem s).1. rewrite <- surjective_pairing. destruct Hu as (Hinv & Hcur & Hp & Hg). rewrite insert_id by done.
    replace (set_k_mem (k_mem s) s) with s by (by destruct s). done.
Qed.

Lemma consoleread_wait_ready fuel s : c_r (k_mem s).2 ≠ c_w (k_mem s).2 → (0 < fuel)%nat → consoleread_wait fuel s = Done true s.
Proof.
  intros Hne Hf. destruct fuel as [|f]; [lia|]. unfold consoleread_wait. cbn [loop]. mstep. rewrite (onc_eq _ s (k_mem s).1 (k_mem s).2 (k_mem s).2 (k_mem s).2); [|by destruct (k_mem s)|done].
  mstep. destruct (Z.eqb_spec (c_r (k_mem s).2) (c_w (k_mem s).2)); [done|]. mstep. f_equal. rewrite <- surjective_pairing. by destruct s.
Qed.

Lemma landed_cons d k b bs um : landed d (S k) bs (landed d k [b] um) = landed d k (b :: bs) um.
Proof. destruct d as [va|]; [|done]. cbn [landed writes]. by replace (va + Z.of_nat (S k)) with (va + Z.of_nat k + 1) by lia. Qed.

Lemma set_mem_twice w w' s : set_k_mem w (set_k_mem w' s) = set_k_mem w s.
Proof. by destruct s. Qed.

Lemma consoleread_loop_ok g i p um d fuel n bs q l bs' q' c s :
  user_mem g i p um s → (k_mem s).2 = c → input_ok q l c → room d (p_sz p) (length bs + n) → (0 < fuel)%nat →
  eread n (length bs =? 0)%nat q = Some (bs', q') →
  ∃ v' r', consoleread_loop fuel d n bs s = Done (Some (bs ++ bs')) (set_k_mem (v', set_c_r r' c) s) ∧
    input_ok q' l (set_c_r r' c) ∧
    user_mem (<[p_pgdir p := OSpace (p_sz p) (landed d (length bs) bs' um)]> g) i p (landed d (length bs) bs' um)
      (set_k_mem (v', set_c_r r' c) s).
Proof.
  intros Hu Hm Hi Hroom Hf. revert g um bs q bs' c s Hu Hm Hi Hroom.
  assert (∀ g um s c, user_mem g i p um s → (k_mem s).2 = c →
    set_k_mem ((k_mem s).1, set_c_r (c_r c) c) s = s ∧ ∀ k, <[p_pgdir p := OSpace (p_sz p) (landed d k [] um)]> g = g ∧ landed d k [] um = um) as Hid.
  { intros g um s c (_ & _ & _ & Hg) <-. split; [destruct s as [? ? ? ? ? ? ? ? ? ? ? ? ? [v c] ? ?]; by destruct c|].
    intros k. destruct d; cbn; by rewrite insert_id. }
  induction n as [|n IH]; intros g um bs q bs' c s Hu Hm Hi Hroom He; cbn [consoleread_loop eread] in *.
  { injection He as <- <-. exists (k_mem s).1, (c_r c). destruct (Hid g um s c Hu Hm) as [E1 E2]. destruct (E2 (length bs)) as [-> ->].
    rewrite E1, app_nil_r. split; [done|]. split; [|done]. by apply (input_frame _ _ c). }
  destruct q as [|b q]; [done|]. destruct (input_pop q l b c Hi) as (Hne & Hb & Hi'). mstep.
  rewrite consoleread_wait_ready by (rewrite ?Hm; done). mstep. cbn [negb]. mstep.
  rewrite (onc_eq _ s (k_mem s).1 c b c); [|destruct (k_mem s); cbn in *; congruence|cbn; by rewrite Hb]. mstep.
  erewrite onc_eq; [|done|done]. mstep. set (c1 := set_c_r (u32 (c_r c + 1)) c) in *. rewrite set_mem_twice. set (s1 := set_k_mem ((k_mem s).1, c1) s).
  assert (user_mem g i p um s1) as Hu1 by (destruct Hu as (? & ? & ? & ?); done). destruct (b =? C 68).
  - injection He as <- <-. destruct (Hid g um s1 c1 Hu1 eq_refl) as [_ E2]. destruct (E2 (length bs)) as [-> ->]. rewrite app_nil_r.
    destruct (length bs =? 0)%nat; cbn [negb when]; mstep; [by exists (k_mem s).1, (u32 (c_r c + 1))|].
    erewrite onc_eq; [|done|done]. mstep. unfold s1. rewrite set_mem_twice. exists (k_mem s).1, (u32 (c_r c1 - 1)). split; [done|].
    split; [|by destruct Hu as (? & ? & ? & ?)]. apply (input_frame _ _ c); [|done]. cbn. rewrite u32_pred, u32_id by apply Hi. done.
  - destruct (put_byte_ok g i p um d (length bs) (length bs + S n) b s1 Hu1 Hroom ltac:(lia)) as (v2 & E2 & Hu2). mstep. rewrite E2. mstep.
    cbn [k_mem s1 set_k_mem snd] in *. unfold s1 in *. rewrite set_mem_twice in *. destruct (b =? 10).
    + injection He as <- <-. exists v2, (u32 (c_r c + 1)). done.
    + destruct (eread n false q) as [[bs2 q2]|] eqn:Er; [|done]. injection He as <- <-. cbn [fst snd].
      destruct (IH _ _ (bs ++ [b]) q bs2 c1 _ Hu2 eq_refl Hi') as (v3 & r3 & E3 & Hi3 & Hu3).
      * rewrite length_app. cbn. by rewrite <- Nat.add_assoc.
      * rewrite length_app, Nat.add_1_r. done.
      * exists v3, r3. rewrite E3, <- app_assoc, set_mem_twice. split; [done|]. split; [done|].
        rewrite set_mem_twice, length_app, Nat.add_1_r, landed_cons, insert_insert_eq in Hu3. done.
Qed.

(** ** Around the inode lock *)

(** [ip] is a valid entry of the inode cache, whose lock is known. *)
Record device (ls : list lockid) (ip : nat) (s : kst W) : Prop := {
  dv_lock : L_sleeplock (inode_lock ip) ∈ ls;
  dv_cons : L_cons ∈ ls;
  dv_entry : ∃ x, fs_inodes (k_fs s) !! ip = Some x ∧ 1 ≤ i_ref x ∧ Z.land (i_flags x) I_VALID ≠ 0;
}.

Lemma get_inode_is ip x s : fs_inodes (k_fs s) !! ip = Some x → get_inode ip s = Done x s.
Proof. intros H. unfold get_inode. mstep. by rewrite H. Qed.

Lemma iunlock_ok ls i p ip s :
  krun [] ls i p s → device ls ip s → sl_locked (slock (inode_lock ip) s) ≠ 0 →
  wp alone (iunlock ip s) (λ _ s', krun [] ls i p s' ∧ core s' = core s ∧ k_fs s' = k_fs s ∧ sl_locked (slock (inode_lock ip) s') = 0).
Proof.
  intros Hk [L1 L2 (x & Hx & Hr & Hv)] Hl. unfold iunlock. mstep. eapply wp_then; [by apply (holdingsleep_eq (inode_lock ip) ls i p)|].
  intros h s1 (-> & Hk1 & Hc1 & Hf1 & _). mstep. rewrite (get_inode_is ip x) by (by rewrite Hf1). mstep.
  destruct (Z.eqb_spec (sl_locked (slock (inode_lock ip) s)) 0); [done|]. destruct (Z.ltb_spec (i_ref x) 1); [lia|]. cbn [orb]. mstep.
  eapply wp_mono; [|by apply (releasesleep_eq (inode_lock ip) ls i p)]. intros [] s2 (Hk2 & Hc2 & Hf2 & Hl2 & _).
  split; [done|]. split; [congruence|]. split; [congruence|done].
Qed.

Lemma ilock_valid ls i p ip fuel s :
  krun [] ls i p s → device ls ip s → sl_locked (slock (inode_lock ip) s) = 0 → (0 < fuel)%nat →
  wp alone (ilock fuel ip s) (λ _ s', krun [] ls i p s' ∧ core s' = core s ∧ k_fs s' = k_fs s ∧ sl_locked (slock (inode_lock ip) s') = 1).
Proof.
  intros Hk [L1 L2 (x & Hx & Hr & Hv)] Hl Hf. unfold ilock. mstep. rewrite (get_inode_is ip x) by done. mstep.
  destruct (Z.ltb_spec (i_ref x) 1); [lia|]. mstep. eapply wp_then; [by apply (acquiresleep_free fuel (inode_lock ip) ls i p)|].
  intros [] s1 (Hk1 & Hc1 & Hf1 & Hl1 & _). mstep. rewrite (get_inode_is ip x) by (by rewrite Hf1). mstep.
  destruct (Z.eqb_spec (Z.land (i_flags x) I_VALID) 0); [done|]. done.
Qed.

Lemma device_frame ls ip s s' : k_fs s' = k_fs s → device ls ip s → device ls ip s'.
Proof. intros E [A B C0]. split; [done|done|]. by rewrite E. Qed.

(** Code between [iunlock] and [ilock], under cons.lock, that only changes the world. *)
Lemma unlocked_ok {A B} (body : M (kst W) A) (f : A → B) ls i p ip fuel s (Q : A → W → Prop) :
  krun [] ls i p s → device ls ip s → sl_locked (slock (inode_lock ip) s) ≠ 0 → (0 < fuel)%nat →
  (∀ s1, krun [L_cons] ls i p s1 → k_mem s1 = k_mem s → ∃ a w, body s1 = Done a (set_k_mem w s1) ∧ Q a w) →
  wp alone ((iunlock ip ;;; acquire L_cons ;;; r <- body ;; release L_cons ;;; ilock fuel ip ;;; ret (f r)) s)
    (λ r s', krun [] ls i p s' ∧ k_fs s' = k_fs s ∧ sl_locked (slock (inode_lock ip) s') = 1 ∧ ∃ a, r = f a ∧ Q a (k_mem s')).
Proof.
  intros Hk Hd Hl Hf Hb. mstep. eapply wp_then; [by apply (iunlock_ok ls i p)|]. intros [] s1 (Hk1 & Hc1 & Hf1 & Hl1). mstep.
  destruct (krun_acquire [] ls i p L_cons s1 Hk1) as [-> Hk2]; [right; apply Hd|set_solver|]. mstep.
  destruct (Hb (acquired L_cons s1) Hk2) as (a & w & -> & HQ); [exact (f_equal (λ c, c.1.1.2) Hc1)|]. mstep.
  set (s3 := set_k_mem w (acquired L_cons s1)). assert (krun [L_cons] ls i p s3) as Hk3 by (by apply (krun_frame _ _ _ _ (acquired L_cons s1))).
  destruct (krun_release [] ls i p L_cons s3 Hk3) as [-> Hk4]. mstep.
  eapply wp_then; [apply (ilock_valid ls i p ip fuel); [done|by apply (device_frame _ _ s)|exact Hl1|done]|].
  intros [] s5 (Hk5 & Hc5 & Hf5 & Hl5). mstep. split; [done|]. split; [by rewrite Hf5|]. split; [done|]. exists a. split; [done|].
  replace (k_mem s5) with w; [done|]. symmetry. exact (f_equal (λ c, c.1.1.2) Hc5).
Qed.

Lemma consoleread_ok ls i p ip d n fuel g um q l bs q' v c s :
  krun [] ls i p s → device ls ip s → sl_locked (slock (inode_lock ip) s) ≠ 0 → (0 < fuel)%nat →
  k_mem s = (v, c) → input_ok q l c → vm_inv g v → g !! p_pgdir p = Some (OSpace (p_sz p) um) → room d (p_sz p) (Z.to_nat n) →
  eread (Z.to_nat n) true q = Some (bs, q') →
  wp alone (consoleread fuel ip d n s) (λ r s', krun [] ls i p s' ∧ k_fs s' = k_fs s ∧ sl_locked (slock (inode_lock ip) s') = 1 ∧
    r = (Z.of_nat (length bs), bs) ∧ ∃ v' r', k_mem s' = (v', set_c_r r' c) ∧ input_ok q' l (set_c_r r' c) ∧
      vm_inv (<[p_pgdir p := OSpace (p_sz p) (landed d 0 bs um)]> g) v').
Proof.
  intros Hk Hd Hl Hf Hm Hi Hg Hpd Hroom He. unfold consoleread.
  eapply wp_mono; [|apply (unlocked_ok (consoleread_loop fuel d (Z.to_nat n) []) (λ r, match r with None => (-1, []) | Some bs => (Z.of_nat (length bs), bs) end)
    ls i p ip fuel s (λ a w, a = Some bs ∧ ∃ v' r', w = (v', set_c_r r' c) ∧ input_ok q' l (set_c_r r' c) ∧
      vm_inv (<[p_pgdir p := OSpace (p_sz p) (landed d 0 bs um)]> g) v')); try done].
  - intros r s' (A1 & A2 & A3 & a & -> & -> & A4). done.
  - intros s1 Hk1 Hm1. destruct (krun_user _ _ _ _ g um s1 Hk1) as (p' & Hu & Hpriv); [rewrite Hm1, Hm; done|done|].
    assert (p_sz p' = p_sz p ∧ p_pgdir p' = p_pgdir p) as [Hsz Hpg] by (unfold private in Hpriv; split; congruence).
    destruct (consoleread_loop_ok g i p' um d fuel (Z.to_nat n) [] q l bs q' c s1 Hu) as (v' & r' & E & Hi' & Hu'); [by rewrite Hm1, Hm|done|by rewrite Hsz|done|done|].
    exists (Some bs), (v', set_c_r r' c). split; [done|]. split; [done|]. exists v', r'. split; [done|]. split; [done|].
    destruct Hu' as (Hv & _). rewrite Hsz, Hpg in Hv. exact Hv.
Qed.

(** ** Writing *)
Definition byte_at (a : src) (um : mem) (k : Z) : Z := match a with FromUser va => um (va + k) | FromKernel bs => nth (Z.to_nat k) bs 0 end.
Definition inside (a : src) (sz k : Z) : Prop := match a with FromUser va => 0 ≤ va + k < sz | FromKernel _ => True end.

Lemma write_loop g i p um a ks t out c s :
  user_mem g i p um s → (k_mem s).2 = c → console t out c → (∀ k, k ∈ ks → inside a (p_sz p) k) →
  let l := (λ k, Z.land (byte_at a um k) 255) <$> ks in
  ∃ crt' d', for_each ks (λ k, b <- get_byte a k ;; onc (consputc (Z.land b 255))) s =
      Done tt (set_k_mem ((k_mem s).1, set_c_dev d' (set_c_crt crt' c)) s) ∧
    console (foldl (flip tput) t l) (out ++ concat (sends <$> l)) (set_c_dev d' (set_c_crt crt' c)).
Proof.
  revert t out c s. induction ks as [|k ks IH]; intros t out c s Hu Hm Hc Hin l; cbn [for_each]; mstep.
  - exists (c_crt c), (c_dev c). unfold l. cbn [fmap list_fmap foldl concat]. rewrite app_nil_r.
    replace (set_c_dev (c_dev c) (set_c_crt (c_crt c) c)) with c by (by destruct c). split; [|done]. rewrite <- Hm, <- surjective_pairing. by destruct s.
  - assert (get_byte a k s = Done (byte_at a um k) s) as ->.
    { destruct a as [va|bs]; [|done]. apply (uload8_eq g i p um); [done|]. apply (Hin k). set_solver. }
    mstep. destruct (consputc_ok (Z.land (byte_at a um k) 255) t out c Hc) as (crt1 & d1 & E1 & Hc1 & _).
    rewrite (onc_eq _ s (k_mem s).1 c tt (set_c_dev d1 (set_c_crt crt1 c))); [|rewrite <- Hm; apply surjective_pairing|done]. mstep.
    set (s1 := set_k_mem _ s). destruct (IH _ _ _ s1 ltac:(by destruct Hu as (? & ? & ? & ?)) eq_refl Hc1) as (crt2 & d2 & -> & Hc2); [set_solver|].
    exists crt2, d2. unfold s1. rewrite set_mem_twice. split; [done|]. unfold l. cbn [fmap list_fmap foldl concat]. rewrite app_assoc. exact Hc2.
Qed.

Lemma consolewrite_ok ls i p ip a n fuel g um t out v c s :
  krun [] ls i p s → device ls ip s → sl_locked (slock (inode_lock ip) s) ≠ 0 → (0 < fuel)%nat →
  k_mem s = (v, c) → console t out c → vm_inv g v → g !! p_pgdir p = Some (OSpace (p_sz p) um) → (∀ k, 0 ≤ k < n → inside a (p_sz p) k) →
  let l := (λ k, Z.land (byte_at a um k) 255) <$> seqZ 0 n in
  wp alone (consolewrite fuel ip a n s) (λ r s', krun [] ls i p s' ∧ k_fs s' = k_fs s ∧ sl_locked (slock (inode_lock ip) s') = 1 ∧ r = n ∧
    ∃ crt' d', k_mem s' = (v, set_c_dev d' (set_c_crt crt' c)) ∧
      console (foldl (flip tput) t l) (out ++ concat (sends <$> l)) (set_c_dev d' (set_c_crt crt' c))).
Proof.
  intros Hk Hd Hl Hf Hm Hc Hg Hpd Hin l. unfold consolewrite.
  eapply wp_mono; [|apply (unlocked_ok (for_each (seqZ 0 n) (λ k, b <- get_byte a k ;; onc (consputc (Z.land b 255)))) (λ _, n)
    ls i p ip fuel s (λ _ w, ∃ crt' d', w = (v, set_c_dev d' (set_c_crt crt' c)) ∧
      console (foldl (flip tput) t l) (out ++ concat (sends <$> l)) (set_c_dev d' (set_c_crt crt' c)))); try done].
  - intros r s' (A1 & A2 & A3 & x & -> & A4). done.
  - intros s1 Hk1 Hm1. destruct (krun_user _ _ _ _ g um s1 Hk1) as (p' & Hu & Hpriv); [rewrite Hm1, Hm; done|done|].
    assert (p_sz p' = p_sz p) as Hsz by (unfold private in Hpriv; congruence).
    destruct (write_loop g i p' um a (seqZ 0 n) t out c s1 Hu) as (crt' & d' & E & Hc'); [by rewrite Hm1, Hm|done| |].
    + intros k Hk'%elem_of_seqZ. rewrite Hsz. apply Hin. lia.
    + rewrite Hm1, Hm in E. eexists tt, _. split; [exact E|]. by exists crt', d'.
Qed.

End Reading.

(** C22: Typed lines reach the readers.  From the serial line or the keyboard, the
    interrupt handler works off the characters that are waiting: each is echoed and put
    into the line being typed; backspace takes back the last one and ^U the whole line;
    a newline, ^D or a full buffer hands the line over and wakes the processes that sleep
    on the console; ^P lists the processes at the end.  A [read] for which enough is
    ready returns, without sleeping, the bytes up to a newline or ^D, at most as many as
    it asked for, stores them in the memory of the process and takes exactly them (^D
    alone makes it return 0).  Nothing is lost or reordered, also where the 32-bit
    indices wrap. *)
Theorem console_input {V D} {VO : VmOps V} {VL : VmLaws V} {HW : Hw D} {HL : HwLaws D} {DK : DiskOps (V * cst D)}
    getc src nmax m t out c q l (s : kst (V * cst D)) :
  (getc, src) = (uartgetc, serial_src) ∨ (getc, src) = (kbdgetc, kbd_src) →
  istate [] s c (k_procs s) s → console t out c → input_ok q l c →
  Forall (λ k, 0 ≤ k < 256) (pending src c) → (length (pending src c) < nmax)%nat →
  (let ks := pending src c in
   let a := foldl (flip ekey) (q, l) ks in
   ∃ c' s', consoleintr nmax m getc s = when (existsb (Z.eqb (C 80)) ks) (procdump m) s' ∧
     istate [] s c' (woken (negb (length a.1 =? length q)%nat) (k_procs s)) s' ∧
     console (foldl (flip tput) t (echoes ks (q, l))) (out ++ concat (sends <$> echoes ks (q, l))) c' ∧
     input_ok a.1 a.2 c' ∧ pending src c' = []) ∧
  (∀ ls i p ip d n fuel g um bs q',
     krun [] ls i p s → device ls ip s → sl_locked (slock (inode_lock ip) s) ≠ 0 → (0 < fuel)%nat →
     vm_inv g (k_mem s).1 → g !! p_pgdir p = Some (OSpace (p_sz p) um) → room d (p_sz p) (Z.to_nat n) →
     eread (Z.to_nat n) true q = Some (bs, q') →
     wp alone (consoleread fuel ip d n s) (λ r s', krun [] ls i p s' ∧ k_fs s' = k_fs s ∧ sl_locked (slock (inode_lock ip) s') = 1 ∧
       r = (Z.of_nat (length bs), bs) ∧ ∃ v' r', k_mem s' = (v', set_c_r r' c) ∧ input_ok q' l (set_c_r r' c) ∧
         vm_inv (<[p_pgdir p := OSpace (p_sz p) (landed d 0 bs um)]> g) v')).
Proof.
  intros Hsrc Hs Hc Hi Hb Hn. split.
  - assert (char_source getc src) as Hg by (destruct Hsrc as [[= -> ->]|[= -> ->]]; [apply serial_source|apply kbd_source]).
    intros ks a. destruct Hs as [A1 A2 A3 A4 A5 A6 A7]. destruct (acquire_kctx [] L_cons s) as [Ea Ka]; [done|set_solver|done|].
    unfold consoleintr. mstep. rewrite Ea. mstep.
    assert (istate [L_cons] s c (k_procs s) (acquired L_cons s)) as Hs1.
    { split; try done; cbn; rewrite ?lookup_insert_eq, ?lookup_insert_ne by done; [by eexists|done]. }
    destruct (consoleintr_loop_ok getc src s ks nmax false t out c (k_procs s) q l _ Hg Hs1 Hc Hi eq_refl Hb Hn) as (c' & s2 & -> & [B1 B2 B3 B4 B5 B6 B7] & Hc2 & Hi2 & Hp2).
    mstep. destruct (release_kctx [] L_cons s2 B1) as [-> Kr]. exists c', (released L_cons s2). split; [done|]. split; [|done].
    split; try done; cbn; rewrite ?lookup_insert_eq, ?lookup_insert_ne by done; [by eexists|done].
  - intros ls i p ip d n fuel g um bs q' Hk Hd Hl Hf Hg Hpd Hroom He. destruct Hs as [_ _ _ _ _ A6 _].
    by eapply (consoleread_ok ls i p ip d n fuel g um q l bs q' (k_mem s).1 c s).
Qed.

(** C23: What is written to the console appears on it.  The screen is a terminal of 24
    lines of 80 characters that wraps and scrolls: for any characters, [consolewrite]
    and [cprintf] leave it showing what was there, followed by them, with the cursor
    behind them and inside the screen, never store outside its memory and never panic;
    the serial line gets the same bytes (backspace as three). *)
Theorem console_output {V D} {VO : VmOps V} {VL : VmLaws V} {HW : Hw D} {HL : HwLaws D} {DK : DiskOps (V * cst D)}
    ls i p ip a n fuel g um t out v c (s : kst (V * cst D)) :
  krun [] ls i p s → device ls ip s → sl_locked (slock (inode_lock ip) s) ≠ 0 → (0 < fuel)%nat →
  k_mem s = (v, c) → console t out c → vm_inv g v → g !! p_pgdir p = Some (OSpace (p_sz p) um) → (∀ k, 0 ≤ k < n → inside a (p_sz p) k) →
  (let l := (λ k, Z.land (byte_at a um k) 255) <$> seqZ 0 n in
   wp alone (consolewrite fuel ip a n s) (λ r s', krun [] ls i p s' ∧ k_fs s' = k_fs s ∧ sl_locked (slock (inode_lock ip) s') = 1 ∧ r = n ∧
     ∃ crt' d', k_mem s' = (v, set_c_dev d' (set_c_crt crt' c)) ∧
       console (foldl (flip tput) t l) (out ++ concat (sends <$> l)) (set_c_dev d' (set_c_crt crt' c)))) ∧
  (∀ m str stack fmt, cstrings_ok m fuel stack str fmt 0 →
     ∃ crt' d' s', cons_cprintf m fuel fmt stack s = Done tt s' ∧ k_mem s' = (v, set_c_dev d' (set_c_crt crt' c)) ∧ krun [] ls i p s' ∧
       console (foldl (flip tput) t (cformat stack str fmt 0)) (out ++ concat (sends <$> cformat stack str fmt 0)) (set_c_dev d' (set_c_crt crt' c))) ∧
  Z.of_nat (length t) < 1920.
Proof.
  intros Hk Hd Hl Hf Hm Hc Hg Hpd Hin. split; [by apply (consolewrite_ok ls i p ip a n fuel g um t out v c s)|]. split; [|apply Hc].
  intros m str stack fmt Hstr. unfold cons_cprintf. mstep.
  destruct (cprintf_loop_prints m fuel stack str (length fmt) fmt 0 ltac:(done) Hstr t out c Hc) as (crt' & d' & E & Hc' & _). exists crt', d'.
  rewrite Hm. cbn [snd]. destruct (negb (c_locking c =? 0)); cbn [when]; mstep.
  - destruct (krun_acquire [] ls i p L_cons s Hk) as [-> Hk1]; [right; apply Hd|set_solver|]. mstep.
    erewrite onc_eq; [|exact Hm|exact E]. mstep. set (s1 := set_k_mem _ _).
    assert (krun [L_cons] ls i p s1) as Hk2 by (by apply (krun_frame _ _ _ _ (acquired L_cons s))).
    destruct (krun_release [] ls i p L_cons s1 Hk2) as [-> Hk3]. eexists. split; [done|]. done.
  - erewrite onc_eq; [|exact Hm|exact E]. mstep. eexists. split; [done|]. split; [done|]. split; [by apply (krun_frame _ _ _ _ s)|done].
Qed.

(** A display controller, a serial line and a keyboard that do what is observed of them,
    and a process that has the console open. *)
Module ConsoleDemo.
#[global] Instance hardware : Hw obs := {|
  inb p o :=
    if p =? CRTPORT + 1 then (o_reg o (o_idx o), o)
    else if p =? COM1 + 5 then (if o_rx o is [] then 32 else 33, o)
    else if p =? COM1 then (if o_rx o is b :: l then (b, with_rx l o) else (0, o))
    else if p =? KBSTATP then (if o_keys o is [] then 0 else 1, o)
    else if p =? KBDATAP then (if o_keys o is b :: l then (b, with_keys l o) else (0, o))
    else (0, o);
  outb p v o :=
    if p =? CRTPORT then with_idx v o
    else if p =? CRTPORT + 1 then with_reg v o
    else if p =? COM1 then with_sent (o_sent o ++ [v]) o
    else o;
  picenable _ o := o;
  ioapicenable _ _ o := o;
|}.
#[global] Instance hardware_ok : HwLaws obs.
Proof.
  refine {| hw := id |}; cbn; try done.
  - intros d. by eexists.
  - intros d. eexists _, _. split; [done|]. split; [done|]. by destruct (o_rx d).
  - intros d b l ->. by eexists.
  - intros d. eexists _, _. split; [done|]. split; [done|]. by destruct (o_keys d).
  - intros d b l ->. by eexists.
Defined.
#[global] Instance no_disk : DiskOps (gmap Z vobj * cst obs) := {| dk_iderw _ := ret tt |}.

Definition con (rx : list Z) : cst obs :=
  mkCst 1 0 (replicate (Z.to_nat 2000) 0) (replicate 128 0) 0 0 0 1 0 (mkObs 0 (λ _, 0) [] rx []).
Definition locks : gmap lockid spinlock :=
  {[ L_ptable := mkLock 0 "ptable" None; L_cons := mkLock 0 "cons" None; L_sleeplock (inode_lock 0) := mkLock 0 "inode" None ]}.
Definition st (rx : list Z) : kst (gmap Z vobj * cst obs) :=
  set_k_slocks {[ inode_lock 0 := mkSleep 1 "inode" 1 ]}
    (set_k_fs (set_fs_inodes [set_i_flags I_VALID (set_i_ref 1 inode0)] fs0)
      (Sched.Demo.mk locks ∅ (Pipe.Demo.world, con rx))).

Lemma con_locks_free : map_Forall (λ _ lk, lk = mkLock 0 (l_name lk) None) locks.
Proof. apply map_Forall_insert_2; [done|]. apply map_Forall_insert_2; [done|]. by apply map_Forall_singleton. Qed.
Lemma con_blank rx : console [] [] (con rx).
Proof.
  split; [done| |done]. split; [cbn; lia| |done|done|].
  - cbn [con c_crt]. rewrite length_replicate. lia.
  - intros k Hk. cbn [con c_crt]. rewrite lookup_total_replicate_2 by lia. by destruct k.
Qed.
Lemma con_empty rx : input_ok [] [] (con rx).
Proof. split; try done; [cbn; lia|set_solver|cbn; lia]. Qed.
Lemma con_pending rx : pending serial_src (con rx) = rx.
Proof. reflexivity. Qed.
Lemma con_run rx : krun [] [L_cons; L_sleeplock (inode_lock 0)] 0 Sched.Demo.p1 (st rx).
Proof.
  apply (krun_frame _ _ _ _ (Sched.Demo.mk locks ∅ (Pipe.Demo.world, con rx))); try reflexivity.
  apply Sched.Demo.mk_krun; [apply con_locks_free|]. intros l Hl. repeat (apply elem_of_cons in Hl as [->|Hl]; [by eexists|]). by apply elem_of_nil in Hl.
Qed.
Lemma con_device rx : device [L_cons; L_sleeplock (inode_lock 0)] 0 (st rx).
Proof. split; [set_solver|set_solver|]. eexists. split; [reflexivity|]. split; [cbn; lia|discriminate]. Qed.
End ConsoleDemo.

Lemma console_demo_ok rx : istate [] (ConsoleDemo.st rx) (ConsoleDemo.con rx) (k_procs (ConsoleDemo.st rx)) (ConsoleDemo.st rx).
Proof. split; try done. apply kctx_none; [apply ConsoleDemo.con_locks_free|done]. Qed.

(** ["lx"], backspace, ["s"] and return are typed on the serial line. *)
Lemma console_input_witness :
  ∃ c' s', consoleintr 6 (λ _, 0) uartgetc (ConsoleDemo.st [108; 120; 8; 115; 13]) = Done tt s' ∧
    (k_mem s').2 = c' ∧ input_ok [108; 115; 10] [] c'.
Proof.
  destruct (console_input uartgetc serial_src 6 (λ _, 0) [] [] (ConsoleDemo.con [108; 120; 8; 115; 13]) [] [] (ConsoleDemo.st [108; 120; 8; 115; 13]))
    as [(c' & s' & E & [_ _ _ _ _ M _] & _ & I & _) _].
  - left. reflexivity.
  - apply console_demo_ok.
  - apply ConsoleDemo.con_blank.
  - apply ConsoleDemo.con_empty.
  - rewrite ConsoleDemo.con_pending. repeat (apply Forall_cons_2; [lia|]). apply Forall_nil_2.
  - rewrite ConsoleDemo.con_pending. cbn [length]. lia.
  - rewrite ConsoleDemo.con_pending in E, I. exists c', s'. split; [exact E|]. split; [rewrite M; reflexivity|exact I].
Defined.

(** The program writes the bytes 1, 2 and 3. *)
Lemma console_output_witness :
  wp alone (consolewrite 1 0 (FromUser 16) 3 (ConsoleDemo.st [])) (λ r s', r = 3 ∧ console [1; 2; 3] [1; 2; 3] (k_mem s').2).
Proof.
  destruct (console_output [L_cons; L_sleeplock (inode_lock 0)] 0 Sched.Demo.p1 0 (FromUser 16) 3 1 Pipe.Demo.world Pipe.Demo.um [] [] Pipe.Demo.world
    (ConsoleDemo.con []) (ConsoleDemo.st [])) as [H _].
  - apply ConsoleDemo.con_run.
  - apply ConsoleDemo.con_device.
  - discriminate.
  - lia.
  - reflexivity.
  - apply ConsoleDemo.con_blank.
  - apply (Pipe.Demo.pipe_st_mem Pipe.Demo.pi).
  - reflexivity.
  - intros k Hk. cbn. lia.
  - refine (wp_mono _ _ _ _ _ H). intros r s' (_ & _ & _ & -> & crt & d & M & Hc). split; [reflexivity|]. rewrite M. exact Hc.
Defined.
