(* ===== verification/Grep.v ===== *)
(** grep.c: the regular expression matcher, and the loop that applies it to the lines
    of a file.  The matcher decides the language its patterns denote; the loop prints
    exactly the matching lines. *)
From S2P Require Import Prelude Mem Str Printf.

(** * The matcher *)

(** [do{ if(matchhere(re, text)) return 1; }while( *text!='\0' && ( *text++==c || c=='.'));]
    with [here] for [matchhere(re, _)]. *)
Fixpoint star_loop (here : list Z → bool) (c : Z) (text : list Z) : bool :=
  if here text then true
  else match text with
       | [] => false
       | x :: text' => if (x =? c) || (c =? 46) then star_loop here c text' else false
       end.

(** Strings are without the NUL that ends them: reading [re[0]], [re[1]] or [*text]
    there is the end of the list. *)
Fixpoint matchhere (re text : list Z) {struct re} : bool :=
  match re with
  | [] => true
  | c :: re1 =>
    let one :=
      if (c =? 36) && match re1 with [] => true | _ => false end
      then match text with [] => true | _ => false end
      else match text with
           | [] => false
           | x :: text' => if (c =? 46) || (c =? x) then matchhere re1 text' else false
           end in
    match re1 with
    | d :: re2 => if d =? 42 then star_loop (matchhere re2) c text else one
    | [] => one
    end
  end.

Definition matchstar (c : Z) (re text : list Z) : bool := star_loop (matchhere re) c text.

(** [do{ if(matchhere(re, text)) return 1; }while( *text++ != '\0');] *)
Fixpoint search (re text : list Z) : bool :=
  if matchhere re text then true
  else match text with [] => false | _ :: text' => search re text' end.

Definition match_ (re text : list Z) : bool :=
  match re with
  | c :: re' => if c =? 94 then matchhere re' text else search re text
  | [] => search re text
  end.

(** * The loop *)

(** [strchr(p, '\n')]: the line before it and what follows it.  The string ends at
    the first NUL. *)
Fixpoint strchr_nl (p : list Z) : option (list Z * list Z) :=
  match p with
  | [] => None
  | c :: p' =>
    if c =? 0 then None
    else if c =? 10 then Some ([], p')
    else match strchr_nl p' with Some (l, q) => Some (c :: l, q) | None => None end
  end.

Section Grep.
Context {St : Type} {UX : Unix St}.

(** [while((q = strchr(p, '\n')) != 0)]; what is left in the buffer after it. *)
Fixpoint grep_lines (n : nat) (pattern p : list Z) : M St (list Z) :=
  match n with
  | O => λ _, Fuel
  | S n' =>
    match strchr_nl p with
    | None => ret p
    | Some (l, q) =>
      (if match_ pattern l then write 1 (l ++ [10]) ;;; ret tt else ret tt) ;;;
      grep_lines n' pattern q
    end
  end.

(** [buf] holds [kept] when the next read starts; [n] bounds the reads. *)
Fixpoint grep_loop (n : nat) (pattern : list Z) (fd : Z) (kept : list Z) : M St unit :=
  match n with
  | O => λ _, Fuel
  | S n' =>
    r <- read fd (1024 - Z.of_nat (length kept) - 1) ;;
    if 0 <? r.1 then
      let buf := kept ++ r.2 in
      p <- grep_lines (S (length buf)) pattern buf ;;
      grep_loop n' pattern fd (if (length p =? length buf)%nat then [] else p)
    else ret tt
  end.

Definition grep (n : nat) (pattern : list Z) (fd : Z) : M St unit := grep_loop n pattern fd [].

End Grep.

(** * The language of a pattern *)

(** A character, or any number of a character; ['.'] is any. *)
Inductive item := One (c : Z) | Star (c : Z).
Definition hits (c x : Z) : Prop := c = 46 ∨ c = x.

Inductive lang : list item → list Z → Prop :=
| lang_nil : lang [] []
| lang_one c x l t : hits c x → lang l t → lang (One c :: l) (x :: t)
| lang_star c u l t : Forall (hits c) u → lang l t → lang (Star c :: l) (u ++ t).

(** The items of a pattern (after ['^']), and whether it ends in ['$']. *)
Fixpoint items (re : list Z) : list item * bool :=
  match re with
  | [] => ([], false)
  | c :: re1 =>
    match re1 with
    | [] => if c =? 36 then ([], true) else ([One c], false)
    | d :: re2 => if d =? 42 then (Star c :: (items re2).1, (items re2).2) else (One c :: (items re1).1, (items re1).2)
    end
  end.

(** [text] starts with a word of the pattern. *)
Definition starts (re text : list Z) : Prop :=
  ∃ w rest, text = w ++ rest ∧ lang (items re).1 w ∧ ((items re).2 = true → rest = []).
(** [text] has one somewhere, or at the beginning if the pattern starts with ['^']. *)
Definition matches (re text : list Z) : Prop :=
  match re with
  | 94 :: re' => starts re' text
  | _ => ∃ u v, text = u ++ v ∧ starts re v
  end.

Lemma star_loop_spec here (P : list Z → Prop) c text :
  (∀ t, here t = true ↔ P t) →
  star_loop here c text = true ↔ ∃ u v, text = u ++ v ∧ Forall (hits c) u ∧ P v.
Proof.
  intros HP. induction text as [|x text IH]; cbn [star_loop].
  - destruct (here []) eqn:E.
    + split; [|done]. intros _. exists [], []. split; [done|]. split; [constructor|by apply HP].
    + split; [done|]. intros (u & v & Eu & _ & Hv). symmetry in Eu. apply app_eq_nil in Eu as [-> ->]. apply HP in Hv. congruence.
  - destruct (here (x :: text)) eqn:E.
    + split; [|done]. intros _. exists [], (x :: text). split; [done|]. split; [constructor|by apply HP].
    + destruct ((x =? c) || (c =? 46)) eqn:Ex.
      * rewrite IH. split.
        -- intros (u & v & -> & Hu & Hv). exists (x :: u), v. split; [done|]. split; [|done]. constructor; [|done].
           apply orb_prop in Ex as [?%Z.eqb_eq|?%Z.eqb_eq]; [by right|by left].
        -- intros (u & v & Eu & Hu & Hv). destruct u as [|y u]; [cbn in Eu; subst v; apply HP in Hv; congruence|].
           injection Eu as <- ->. apply Forall_cons in Hu as [_ Hu]. by exists u, v.
      * split; [done|]. intros (u & v & Eu & Hu & Hv). destruct u as [|y u]; [cbn in Eu; subst v; apply HP in Hv; congruence|].
        injection Eu as <- ->. apply Forall_cons in Hu as [Hx _]. apply orb_false_elim in Ex as [?%Z.eqb_neq ?%Z.eqb_neq]. destruct Hx; congruence.
Qed.

Lemma starts_one c re1 text :
  items (c :: re1) = (One c :: (items re1).1, (items re1).2) →
  starts (c :: re1) text ↔ ∃ x t, text = x :: t ∧ hits c x ∧ starts re1 t.
Proof.
  intros E. unfold starts. rewrite E. cbn [fst snd]. split.
  - intros (w & rest & -> & Hw & Hr). inversion Hw as [|c' x l t Hx Ht|]; subst. exists x, (t ++ rest). split; [done|]. split; [done|]. by exists t, rest.
  - intros (x & t & -> & Hx & w & rest & -> & Hw & Hr). exists (x :: w), rest. split; [done|]. split; [by constructor|done].
Qed.

Lemma starts_star c re2 text :
  starts (c :: 42 :: re2) text ↔ ∃ u v, text = u ++ v ∧ Forall (hits c) u ∧ starts re2 v.
Proof.
  unfold starts. cbn [items Z.eqb Pos.eqb fst snd]. split.
  - intros (w & rest & -> & Hw & Hr). inversion Hw as [| |c' u l t Hu Ht]; subst. exists u, (t ++ rest).
    rewrite app_assoc. split; [done|]. split; [done|]. by exists t, rest.
  - intros (u & v & -> & Hu & w & rest & -> & Hw & Hr). exists (u ++ w), rest. rewrite app_assoc. split; [done|]. split; [by constructor|done].
Qed.

(** The branch of [matchhere] for one character. *)
Lemma one_spec c re1 text :
  (∀ t, matchhere re1 t = true ↔ starts re1 t) → items (c :: re1) = (One c :: (items re1).1, (items re1).2) →
  match text with [] => false | x :: text' => if (c =? 46) || (c =? x) then matchhere re1 text' else false end = true ↔ starts (c :: re1) text.
Proof.
  intros IH E. rewrite (starts_one _ _ _ E). destruct text as [|x text]; [split; [done|]; by intros (x & t & ? & _)|].
  destruct ((c =? 46) || (c =? x)) eqn:Ex.
  - rewrite IH. split; [|by intros (x' & t & [= <- <-] & _ & Ht)]. intros Ht. exists x, text. split; [done|]. split; [|done].
    apply orb_prop in Ex as [?%Z.eqb_eq|?%Z.eqb_eq]; [by left|by right].
  - split; [done|]. intros (x' & t & [= <- <-] & Hx & _). apply orb_false_elim in Ex as [?%Z.eqb_neq ?%Z.eqb_neq]. destruct Hx; congruence.
Qed.

Lemma matchhere_spec re text : matchhere re text = true ↔ starts re text.
Proof.
  remember (length re) as n eqn:En. assert (length re ≤ n)%nat as Hn by lia. clear En. revert re text Hn.
  induction n as [|n IH]; intros [|c re1] text Hn; try (cbn in Hn; lia);
    try (split; [intros _; exists [], text; split; [done|split; [constructor|done]]|done]).
  destruct re1 as [|d re2]; cbn [matchhere].
  - rewrite andb_true_r. destruct (Z.eqb_spec c 36) as [->|Hc].
    + unfold starts. cbn [items Z.eqb Pos.eqb fst snd]. destruct text as [|x text].
      * split; [|done]. intros _. exists [], []. split; [done|]. split; [constructor|done].
      * split; [done|]. intros (w & rest & E & Hw & Hr). inversion Hw; subst. by rewrite Hr in E.
    + apply (one_spec c [] text); [|cbn [items]; by destruct (Z.eqb_spec c 36)]. intros t. apply IH. cbn. lia.
  - rewrite andb_false_r. destruct (Z.eqb_spec d 42) as [->|Hd].
    + rewrite starts_star. apply star_loop_spec. intros t. apply IH. cbn in *. lia.
    + apply (one_spec c (d :: re2) text); [intros t; apply (IH (d :: re2)); cbn in *; lia|]. change (items (c :: d :: re2)) with
        (if d =? 42 then (Star c :: (items re2).1, (items re2).2) else (One c :: (items (d :: re2)).1, (items (d :: re2)).2)).
      by destruct (Z.eqb_spec d 42).
Qed.

Lemma search_spec re text : search re text = true ↔ ∃ u v, text = u ++ v ∧ starts re v.
Proof.
  induction text as [|x text IH]; cbn [search]; destruct (matchhere re _) eqn:E.
  - split; [|done]. intros _. exists [], []. split; [done|]. by apply matchhere_spec.
  - split; [done|]. intros (u & v & Eu & Hv). symmetry in Eu. apply app_eq_nil in Eu as [-> ->]. apply matchhere_spec in Hv. congruence.
  - split; [|done]. intros _. exists [], (x :: text). split; [done|]. by apply matchhere_spec.
  - rewrite IH. split; [intros (u & v & -> & Hv); by exists (x :: u), v|]. intros (u & v & Eu & Hv).
    destruct u as [|y u]; [cbn in Eu; subst v; apply matchhere_spec in Hv; congruence|]. injection Eu as <- ->. by exists u, v.
Qed.

Lemma match_spec re text : match_ re text = true ↔ matches re text.
Proof.
  unfold match_, matches. destruct re as [|c re]; [apply search_spec|]. destruct (Z.eqb_spec c 94) as [->|Hc]; [apply matchhere_spec|].
  rewrite search_spec. by repeat case_match.
Qed.

(** * The lines of a file *)

Definition nl (l : list Z) : list Z := l ++ [10].
(** A line: no newline and no NUL, and short enough for the buffer. *)
Definition line (l : list Z) : Prop := Forall (λ c, c ≠ 10 ∧ c ≠ 0) l ∧ (length l < 1023)%nat.
(** A file of lines, with or without a newline at its end. *)
Definition text (ls : list (list Z)) (last : list Z) : list Z := concat (nl <$> ls) ++ last.
Definition hit (pattern : list Z) (ls : list (list Z)) : list (list Z) := filter (λ l, match_ pattern l = true) ls.

Lemma strchr_line l q : Forall (λ c, c ≠ 10 ∧ c ≠ 0) l → strchr_nl (l ++ 10 :: q) = Some (l, q).
Proof.
  induction 1 as [|c l [Hc1 Hc2] _ IH]; [done|]. cbn [app strchr_nl]. destruct (Z.eqb_spec c 0); [done|]. destruct (Z.eqb_spec c 10); [done|]. by rewrite IH.
Qed.

Lemma strchr_none p : 10 ∉ p → strchr_nl p = None.
Proof.
  induction p as [|c p IH]; intros Hp; [done|]. cbn [strchr_nl]. apply not_elem_of_cons in Hp as [Hc Hp]. destruct (Z.eqb_spec c 0); [done|].
  destruct (Z.eqb_spec c 10); [congruence|]. by rewrite IH.
Qed.

Lemma length_text_cons l ls last : length (text (l :: ls) last) = (S (length l) + length (text ls last))%nat.
Proof. unfold text, nl. rewrite fmap_cons. cbn [concat]. rewrite !length_app. cbn. lia. Qed.

(** What a buffer of [n] bytes has of a file: whole lines, and a piece without newline. *)
Lemma take_text n ls last :
  Forall line ls → 10 ∉ last →
  ∃ ls1 ls2 part, ls = ls1 ++ ls2 ∧ take n (text ls last) = text ls1 part ∧ (10 ∉ part) ∧
    part ++ drop n (text ls last) = text ls2 last ∧ (ls1 = [] → ls = [] ∨ (n < 1023)%nat).
Proof.
  intros Hls Hlast. revert n. induction Hls as [|l ls [Hl1 Hl2] Hls IH]; intros n.
  - exists [], [], (take n last). split; [done|]. split; [done|]. split; [|split; [apply take_drop|by left]].
    intros Hin. apply Hlast. rewrite <- (take_drop n last). apply elem_of_app. by left.
  - assert (text (l :: ls) last = nl l ++ text ls last) as E by (unfold text; rewrite fmap_cons; cbn [concat]; by rewrite app_assoc).
    destruct (decide (n < length (nl l))%nat) as [Hn|Hn].
    + exists [], (l :: ls), (take n (nl l)). split; [done|]. rewrite E, take_app_le, drop_app_le by lia. unfold text at 1. cbn [app concat fmap list_fmap].
      split; [done|]. split; [|split; [by rewrite app_assoc, take_drop|]].
      * unfold nl in *. rewrite length_app in Hn. cbn in Hn. rewrite take_app_le by lia. intros Hin. rewrite Forall_forall in Hl1.
        apply (subseteq_take n l) in Hin. by destruct (Hl1 10 Hin).
      * intros _. right. unfold nl in Hn. rewrite length_app in Hn. cbn in Hn. lia.
    + destruct (IH (n - length (nl l))%nat) as (ls1 & ls2 & part & -> & Ht & Hp & Hd & _). exists (l :: ls1), ls2, part. split; [done|].
      rewrite E, take_app_ge, drop_app_ge by lia. split; [|split; [done|split; [done|done]]].
      rewrite Ht. unfold text. rewrite fmap_cons. cbn [concat]. by rewrite app_assoc.
Qed.

Section Lines.
Context {St : Type} {UX : Unix St} {UL : UnixLaws St}.

Lemma grep_lines_emits pattern n ls part :
  Forall (λ l, Forall (λ c, c ≠ 10 ∧ c ≠ 0) l) ls → 10 ∉ part → (length ls < n)%nat →
  emits (grep_lines n pattern (text ls part)) 1 (concat (nl <$> hit pattern ls)) part.
Proof.
  intros Hls Hp. revert n. induction Hls as [|l ls Hl Hls IH]; intros [|n] Hn; try (cbn in Hn; lia).
  - cbn [grep_lines]. unfold text. cbn [app concat fmap list_fmap]. rewrite strchr_none by done. apply emits_ret.
  - assert (text (l :: ls) part = l ++ 10 :: text ls part) as -> by (unfold text, nl; rewrite fmap_cons; cbn [concat]; by rewrite <- !app_assoc).
    cbn [grep_lines]. rewrite strchr_line by done. unfold hit. rewrite filter_cons. destruct (match_ pattern l) eqn:E.
    + rewrite decide_True by done. rewrite fmap_cons. cbn [concat]. eapply emits_bind; [|apply IH; cbn in Hn; lia].
      eapply emits_then. intros s o Ho. destruct (write_law 1 (l ++ [10]) s o Ho) as (s' & He & ? & ?). by exists s'.
    + rewrite decide_False by done. apply (emits_bind _ _ 1 [] _ tt); [apply emits_ret|apply IH; cbn in Hn; lia].
Qed.

(** Reads of [fd] return as much as was asked for, as those of files do. *)
Definition full_reads (fd : Z) : Prop := ∀ n s bs, input s !! fd = Some bs → 0 < n →
  ∃ s', read fd n s = Done (Z.of_nat (length (take (Z.to_nat n) bs)), take (Z.to_nat n) bs) s' ∧
    input s' = <[fd := drop (Z.to_nat n) bs]> (input s) ∧ output s' = output s.

Lemma grep_loop_ok pattern fd n ls last kept rest s o :
  full_reads fd → input s !! fd = Some rest → output s !! 1 = Some o → Forall line ls → 10 ∉ last →
  kept ++ rest = text ls last → 10 ∉ kept → (length kept < 1023)%nat → (length rest < n)%nat →
  ∃ s', grep_loop n pattern fd kept s = Done tt s' ∧ output s' = <[1 := o ++ concat (nl <$> hit pattern ls)]> (output s).
Proof.
  intros Hfull. revert ls last kept rest s o. induction n as [|n IH]; intros ls last kept rest s o Hin Ho Hls Hlast E Hk Hlen Hn; [lia|].
  cbn [grep_loop]. mstep. destruct (Hfull (1024 - Z.of_nat (length kept) - 1) s rest Hin) as (s1 & -> & I1 & O1); [lia|]. mstep. cbn [fst snd].
  replace (Z.to_nat (1024 - Z.of_nat (length kept) - 1)) with (1023 - length kept)%nat in * by lia.
  destruct rest as [|r rest].
  { rewrite take_nil. cbn [length Z.of_nat Z.ltb Z.compare]. exists s1. split; [done|]. rewrite app_nil_r in E. subst kept.
    destruct ls as [|l ls]; [unfold hit; rewrite filter_nil; cbn [fmap list_fmap concat]; by rewrite app_nil_r, insert_id|]. exfalso. apply Hk. unfold text, nl.
    rewrite fmap_cons. cbn [concat]. set_solver. }
  assert (kept ++ take (1023 - length kept) (r :: rest) = take 1023 (text ls last)) as Eb.
  { rewrite <- E, take_app_ge by lia. done. }
  destruct (Z.ltb_spec 0 (Z.of_nat (length (take (1023 - length kept) (r :: rest))))) as [_|Hz]; [|rewrite length_take in Hz; cbn in Hz; lia].
  cbv zeta. mstep. rewrite Eb. destruct (take_text 1023 ls last Hls Hlast) as (ls1 & ls2 & part & -> & Ht & Hp & Hd & Hfirst). rewrite Ht.
  apply Forall_app in Hls as [Hls1 Hls2].
  destruct (grep_lines_emits pattern (S (length (text ls1 part))) ls1 part) with (s := s1) (o := o) as (s2 & -> & O2 & I2);
    [by eapply Forall_impl; [exact Hls1|]; intros l [? _]|done| |by rewrite O1|].
  { clear. unfold text. rewrite length_app. induction ls1 as [|l ls1 IH]; cbn; [lia|]. unfold nl at 1. rewrite !length_app. cbn in *. lia. }
  mstep. unfold hit. rewrite filter_app, fmap_app, concat_app, app_assoc.
  set (k' := if (length part =? length (text ls1 part))%nat then [] else part).
  set (rest' := drop (1023 - length kept) (r :: rest)) in *.
  assert (rest' = drop 1023 (text (ls1 ++ ls2) last)) as Er by (rewrite <- E, drop_app_ge by lia; done).
  assert (length rest' < n)%nat as Hn' by (unfold rest'; rewrite length_drop; cbn in *; lia).
  assert (input s2 !! fd = Some rest') as I2' by (rewrite I2, I1; apply lookup_insert_eq).
  assert (output s2 !! 1 = Some (o ++ concat (nl <$> hit pattern ls1))) as O2' by (rewrite O2; apply lookup_insert_eq).
  assert (∃ s', grep_loop n pattern fd k' s2 = Done tt s' ∧
    output s' = <[1 := (o ++ concat (nl <$> hit pattern ls1)) ++ concat (nl <$> hit pattern ls2)]> (output s2)) as (s3 & E3 & O3).
  { destruct ls1 as [|l ls1].
    - unfold k'. rewrite Nat.eqb_refl. destruct (Hfirst eq_refl) as [Hnil|?]; [|lia]. cbn [app] in Hnil. subst ls2. cbn [app] in *.
      apply (IH [] rest' [] rest'); try done; [|apply not_elem_of_nil|cbn; lia]. rewrite Er. intros H10. apply Hlast. apply (subseteq_drop 1023 (text [] last) 10 H10).
    - pose proof (length_text_cons l ls1 part) as Hl. assert (length (text ls1 part) ≥ length part)%nat as Hge by (unfold text; rewrite length_app; lia).
      unfold k'. destruct (Nat.eqb_spec (length part) (length (text (l :: ls1) part))); [lia|].
      apply (IH ls2 last part rest'); try done; [by rewrite Er|]. rewrite <- Ht, length_take in Hl. lia. }
  exists s3. split; [done|]. rewrite O3, O2, O1, insert_insert_eq. done.
Qed.

End Lines.

(** C37: [grep] prints the matching lines.  For a file of lines of at most 1022
    characters, none of them NUL, it returns after having written to descriptor 1
    exactly the lines, each with its newline and in order, that the pattern matches;
    what follows the last newline is never printed.  A line matches when it has a
    part, from its beginning after ['^'] and up to its end before ['$'], that is a
    word of the pattern: ['.'] stands for any character and ['*'] repeats the
    character before it, any number of times. *)
Theorem grep_spec {St} {UX : Unix St} {UL : UnixLaws St} pattern fd ls last n (s : St) o :
  full_reads fd → input s !! fd = Some (text ls last) → output s !! 1 = Some o →
  Forall line ls → 10 ∉ last → (length (text ls last) < n)%nat →
  (∃ s', grep n pattern fd s = Done tt s' ∧
     output s' = <[1 := o ++ concat (nl <$> filter (λ l, match_ pattern l = true) ls)]> (output s)) ∧
  ∀ l, match_ pattern l = true ↔ matches pattern l.
Proof.
  intros Hfull Hin Ho Hls Hlast Hn. split; [|apply match_spec].
  eapply (grep_loop_ok pattern fd n ls last [] (text ls last)); try done; [apply not_elem_of_nil|cbn; lia].
Qed.

(** ["ab*"] in a file with the lines ["xab"] and ["b"]. *)
Lemma grep_spec_witness :
  ∃ s', grep 9 [97; 98; 42] 0 (Files.io0 [120; 97; 98; 10; 98; 10]) = Done tt s' ∧ output s' !! 1 = Some [120; 97; 98; 10].
Proof.
  destruct (grep_spec [97; 98; 42] 0 [[120; 97; 98]; [98]] [] 9 (Files.io0 [120; 97; 98; 10; 98; 10]) []) as [(s' & E & O) _].
  - intros n s bs Hbs Hn. change (Files.i_in s !! 0 = Some bs) in Hbs. cbn. rewrite Hbs. by eexists.
  - reflexivity.
  - reflexivity.
  - repeat constructor; cbn; lia.
  - apply not_elem_of_nil.
  - cbn. lia.
  - exists s'. split; [exact E|]. rewrite O. reflexivity.
Defined.

(** Reads from a pipe or the console may return less.  When what they return has no
    newline the loop forgets it: here the line ["xab"] comes in two pieces, matches
    the pattern ["xab"], and is not printed. *)
Module Chunks.
#[local] Instance unix : Unix (list (list Z) * list Z) := {|
  open _ _ := ret (-1);
  close _ := ret 0;
  read _ n := λ s, match s with
    | (c :: cs, o) => Done (Z.of_nat (length (take (Z.to_nat n) c)), take (Z.to_nat n) c) (cs, o)
    | ([], o) => Done (0, []) s
    end;
  write _ bs := λ '(cs, o), Done (Z.of_nat (length bs)) (cs, o ++ bs);
  fstat _ := ret (-1, mkStat 0 0 0 0 0);
  link _ _ := ret (-1);
  unlink _ := ret (-1);
  mkdir _ := ret (-1);
  kill _ := ret (-1);
|}.

Example grep_short_reads :
  match_ [120; 97; 98] [120; 97; 98] = true ∧
  grep 9 [120; 97; 98] 0 ([[120; 97]; [98; 10]], []) = Done tt ([], []).
Proof. split; reflexivity. Qed.
End Chunks.
