(* ===== verification/Tools.v ===== *)
(** The file utilities (cat.c, wc.c, echo.c, kill.c, ln.c, mkdir.c, rm.c, the rest of
    grep.c, [fmtname] of ls.c) and the input routines of ulib.c, over the system call
    interface of Printf.v.  [argv] is the list of the addresses of the arguments. *)
From S2P Require Import Prelude Mem Str Printf Grep.

(** The C string at [a]. *)
Fixpoint cstring (n : nat) (m : mem) (a : Z) : option (list Z) :=
  match n with
  | O => None
  | S n' => if m a =? 0 then Some [] else cons (m a) <$> cstring n' m (a + 1)
  end.

(** The words [printf] finds above [fmt]. *)
Definition args (l : list Z) (k : nat) : Z := nth k l 0.

Section Tools.
Context {St : Type} {UX : Unix St}.
(** The memory with the arguments, and a bound on loops and strings. *)
Context (m : mem) (fuel : nat).

Definition str_at (a : Z) : M St (list Z) :=
  match cstring fuel m a with Some l => ret l | None => λ _, Fuel end.
Definition print (fd : Z) (fmt : list Z) (l : list Z) : M St unit := printf m fuel fd fmt (args l).

(** ** ulib.c *)

(** The loop of [gets]; [buf] is what is stored, and is NUL-terminated after it. *)
Fixpoint gets_loop (n : nat) (max : Z) (buf : list Z) : M St (list Z) :=
  match n with
  | O => λ _, Fuel
  | S n' =>
    if Z.of_nat (length buf) + 1 <? max then
      r <- read 0 1 ;;
      if r.1 <? 1 then ret buf
      else
        let c := nth 0 r.2 0 in
        let buf' := buf ++ [c] in
        if (c =? 10) || (c =? 13) then ret buf' else gets_loop n' max buf'
    else ret buf
  end.
Definition gets (max : Z) : M St (list Z) := gets_loop (S (Z.to_nat max)) max [].

Definition ulib_stat (path : list Z) : M St (Z * stat) :=
  fd <- open path 0 ;;
  if fd <? 0 then ret (-1, mkStat 0 0 0 0 0)
  else
    r <- fstat fd ;;
    _ <- close fd ;;
    ret r.

(** ** cat.c *)

Fixpoint cat (n : nat) (fd : Z) : M St unit :=
  match n with
  | O => λ _, Fuel
  | S n' =>
    r <- read fd 512 ;;
    if 0 <? r.1 then
      w <- write 1 r.2 ;;
      if negb (w =? r.1) then print 1 (charsln "cat: write error") [] ;;; exit
      else cat n' fd
    else if r.1 <? 0 then print 1 (charsln "cat: read error") [] ;;; exit
    else ret tt
  end.

(** [for(i = 1; i < argc; i++)] of [cat], [wc] and [grep]: open, work, close. *)
Definition each_file (msg : list Z) (work : Z → Z → M St unit) (argv : list Z) : M St unit :=
  for_each argv (λ a,
    path <- str_at a ;;
    fd <- open path 0 ;;
    if fd <? 0 then print 1 msg [a] ;;; exit
    else work fd a ;;; _ <- close fd ;; ret tt).

Definition cat_main (argv : list Z) : M St unit :=
  if (length argv <=? 1)%nat then cat fuel 0 ;;; exit
  else each_file (charsln "cat: cannot open %s") (λ fd _, cat fuel fd) (drop 1 argv) ;;; exit.

(** ** wc.c *)

Record counts := mkCounts { n_l : Z; n_w : Z; n_c : Z; inword : bool }.

(** [strchr(" \r\t\n\v", c)] *)
Definition is_space (c : Z) : bool := existsb (Z.eqb c) [32; 13; 9; 10; 11].

Definition wc_byte (k : counts) (b : Z) : counts :=
  let c := s32 (n_c k + 1) in
  let l := if b =? 10 then s32 (n_l k + 1) else n_l k in
  if is_space b then mkCounts l (n_w k) c false
  else if negb (inword k) then mkCounts l (s32 (n_w k + 1)) c true
  else mkCounts l (n_w k) c (inword k).

Fixpoint wc_loop (n : nat) (fd : Z) (k : counts) : M St (Z * counts) :=
  match n with
  | O => λ _, Fuel
  | S n' =>
    r <- read fd 512 ;;
    if 0 <? r.1 then wc_loop n' fd (foldl wc_byte k r.2)
    else ret (r.1, k)
  end.

Definition wc (fd name : Z) : M St unit :=
  r <- wc_loop fuel fd (mkCounts 0 0 0 false) ;;
  if r.1 <? 0 then print 1 (charsln "wc: read error") [] ;;; exit
  else print 1 (charsln "%d %d %d %s") [n_l r.2; n_w r.2; n_c r.2; name].

(** [empty] is the address of the empty string. *)
Definition wc_main (empty : Z) (argv : list Z) : M St unit :=
  if (length argv <=? 1)%nat then wc 0 empty ;;; exit
  else each_file (charsln "wc: cannot open %s") wc (drop 1 argv) ;;; exit.

(** ** grep.c *)

Definition grep_main (argv : list Z) : M St unit :=
  match argv with
  | _ :: a :: files =>
    pattern <- str_at a ;;
    match files with
    | [] => grep fuel pattern 0 ;;; exit
    | _ => each_file (charsln "grep: cannot open %s") (λ fd _, grep fuel pattern fd) files ;;; exit
    end
  | _ => print 2 (charsln "usage: grep pattern [file ...]") [] ;;; exit
  end.

(** ** echo.c, kill.c, ln.c, mkdir.c, rm.c *)

(** [sp] and [nl] are the addresses of the strings after an argument. *)
Fixpoint echo_loop (sp nl : Z) (argv : list Z) : M St unit :=
  match argv with
  | [] => ret tt
  | a :: argv' => print 1 (chars "%s%s") [a; match argv' with [] => nl | _ => sp end] ;;; echo_loop sp nl argv'
  end.
Definition echo_main (sp nl : Z) (argv : list Z) : M St unit := echo_loop sp nl (drop 1 argv) ;;; exit.

Definition atoi (a : Z) : M St Z := match Ulib.atoi fuel m a with Some n => ret n | None => λ _, Fuel end.

Definition kill_main (argv : list Z) : M St unit :=
  if (length argv <? 2)%nat then print 2 (charsln "usage: kill pid...") [] ;;; exit
  else for_each (drop 1 argv) (λ a, pid <- atoi a ;; _ <- kill pid ;; ret tt) ;;; exit.

Definition ln_main (argv : list Z) : M St unit :=
  match argv with
  | [_; a1; a2] =>
    old <- str_at a1 ;;
    new <- str_at a2 ;;
    r <- link old new ;;
    when (r <? 0) (print 2 (charsln "link %s %s: failed") [a1; a2]) ;;;
    exit
  | _ => print 2 (charsln "Usage: ln old new") [] ;;; exit
  end.

(** [mkdir] and [rm]: the loop ends at the first failure. *)
Definition each_path (op : list Z → M St Z) (usage msg : list Z) (argv : list Z) : M St unit :=
  if (length argv <? 2)%nat then print 2 usage [] ;;; exit
  else
    _ <- for_break (drop 1 argv) (λ a,
      path <- str_at a ;;
      r <- op path ;;
      if r <? 0 then print 2 msg [a] ;;; ret (Some tt) else ret None) ;;
    exit.

Definition mkdir_main : list Z → M St unit :=
  each_path mkdir (charsln "Usage: mkdir files...") (charsln "mkdir: %s failed to create").
Definition rm_main : list Z → M St unit :=
  each_path unlink (charsln "Usage: rm files...") (charsln "rm: %s failed to delete").

End Tools.

(** ** ls.c *)

(** [for(p=path+strlen(path); p >= path && *p != '/'; p--) ; p++;] for [p = path + k]. *)
Fixpoint after_slash (path : list Z) (k : nat) : nat :=
  if nth k path 0 =? 47 then S k else match k with O => O | S k' => after_slash path k' end.

Definition fmtname (path : list Z) : list Z :=
  let p := drop (after_slash path (length path)) path in
  if (14 <=? length p)%nat then p else p ++ replicate (14 - length p) 32.

(** * What the programs do *)

Section Spec.
Context {St : Type} {UX : Unix St} {UL : UnixLaws St} (m : mem) (fuel : nat).

(** What [gets] takes from the input: a line, or as much as fits. *)
Fixpoint first_line (k : nat) (bs : list Z) : list Z :=
  match k, bs with
  | S k', b :: bs' => b :: if (b =? 10) || (b =? 13) then [] else first_line k' bs'
  | _, _ => []
  end.

Lemma gets_loop_ok max n buf bs (s : St) :
  input s !! 0 = Some bs → (Z.to_nat max - length buf < n)%nat → Z.of_nat (length buf) < Z.max 1 max →
  let l := first_line (Z.to_nat (max - 1) - length buf) bs in
  ∃ s', gets_loop n max buf s = Done (buf ++ l) s' ∧ input s' = <[0 := drop (length l) bs]> (input s) ∧ output s' = output s.
Proof.
  revert buf bs s. induction n as [|n IH]; intros buf bs s Hin Hn Hb; [lia|]. cbn [gets_loop].
  destruct (Z.ltb_spec (Z.of_nat (length buf) + 1) max) as [Hlt|Hge].
  - mstep. destruct (read_law 0 1 s bs Hin) as (k & s1 & -> & Hk1 & Hk2 & Hk3 & I1 & O1); [lia|]. mstep. cbn [fst snd].
    destruct bs as [|b bs]; [cbn in Hk1; replace k with O in * by lia|].
    + cbn [Z.of_nat Z.ltb Z.compare]. exists s1. destruct (Z.to_nat (max - 1) - length buf)%nat; cbn [first_line length drop]; rewrite app_nil_r; done.
    + destruct k as [|k]; [by specialize (Hk3 eq_refl)|]. replace k with O in * by lia. change (Z.of_nat 1 <? 1) with false. cbn iota.
      change (nth 0 (take 1 (b :: bs)) 0) with b. cbn [drop] in I1.
      replace (Z.to_nat (max - 1) - length buf)%nat with (S (Z.to_nat (max - 1) - length (buf ++ [b])))%nat by (rewrite length_app; cbn; lia).
      cbn [first_line]. cbv zeta. destruct ((b =? 10) || (b =? 13)).
      * exists s1. cbn [length drop]. done.
      * destruct (IH (buf ++ [b]) bs s1) as (s2 & -> & I2 & O2); [rewrite I1; apply lookup_insert_eq|rewrite length_app; cbn; lia|rewrite length_app; cbn; lia|].
        exists s2. rewrite <- app_assoc. cbn [app length drop]. split; [done|]. rewrite I2, I1, insert_insert_eq. split; [done|congruence].
  - replace (Z.to_nat (max - 1) - length buf)%nat with O by lia. exists s. cbn [first_line length drop]. rewrite app_nil_r, insert_id by done. done.
Qed.

Lemma cat_ok n fd bs o (s : St) :
  input s !! fd = Some bs → output s !! 1 = Some o → (length bs < n)%nat →
  ∃ s', cat m fuel n fd s = Done tt s' ∧ input s' = <[fd := []]> (input s) ∧ output s' = <[1 := o ++ bs]> (output s).
Proof.
  revert bs o s. induction n as [|n IH]; intros bs o s Hin Ho Hn; [lia|]. cbn [cat]. mstep.
  destruct (read_law fd 512 s bs Hin) as (k & s1 & -> & Hk1 & Hk2 & Hk3 & I1 & O1); [lia|]. mstep. cbn [fst snd].
  destruct (Z.ltb_spec 0 (Z.of_nat k)) as [Hk|Hk].
  - mstep. destruct (write_law 1 (take k bs) s1 o) as (s2 & -> & O2 & I2); [by rewrite O1|]. mstep. rewrite length_take, Nat.min_l, Z.eqb_refl by done. cbn [negb].
    destruct (IH (drop k bs) (o ++ take k bs) s2) as (s3 & -> & I3 & O3);
      [rewrite I2, I1; apply lookup_insert_eq|rewrite O2; apply lookup_insert_eq|rewrite length_drop; lia|].
    exists s3. split; [done|]. rewrite I3, I2, I1, O3, O2, O1, !insert_insert_eq, <- app_assoc, take_drop. done.
  - replace k with O in * by lia. rewrite (Hk3 eq_refl) in *. change (Z.of_nat 0 <? 0) with false. cbn iota. exists s1. split; [done|].
    split; [by rewrite I1|]. by rewrite app_nil_r, insert_id.
Qed.

Lemma wc_loop_ok n fd bs k (s : St) :
  input s !! fd = Some bs → (length bs < n)%nat →
  ∃ s', wc_loop n fd k s = Done (0, foldl wc_byte k bs) s' ∧ input s' = <[fd := []]> (input s) ∧ output s' = output s.
Proof.
  revert bs k s. induction n as [|n IH]; intros bs k s Hin Hn; [lia|]. cbn [wc_loop]. mstep.
  destruct (read_law fd 512 s bs Hin) as (j & s1 & -> & Hk1 & Hk2 & Hk3 & I1 & O1); [lia|]. mstep. cbn [fst snd].
  destruct (Z.ltb_spec 0 (Z.of_nat j)) as [Hk|Hk].
  - destruct (IH (drop j bs) (foldl wc_byte k (take j bs)) s1) as (s2 & -> & I2 & O2); [rewrite I1; apply lookup_insert_eq|rewrite length_drop; lia|].
    exists s2. rewrite <- foldl_app, take_drop, I2, I1, insert_insert_eq. split; [done|]. split; [done|congruence].
  - replace j with O in * by lia. rewrite (Hk3 eq_refl) in *. exists s1. split; [done|]. by rewrite I1.
Qed.

End Spec.

(** A word starts at a byte that is no space, at the beginning or after a space. *)
Definition word_start (bs : list Z) (i : nat) : bool :=
  negb (is_space (nth i bs 0)) && match i with O => true | S j => is_space (nth j bs 0) end.
Definition words (bs : list Z) : Z := Z.of_nat (length (filter (λ i, word_start bs i = true) (seq 0 (length bs)))).
Definition lines (bs : list Z) : Z := Z.of_nat (length (filter (λ b, b = 10) bs)).

Lemma words_snoc bs b :
  words (bs ++ [b]) = words bs + if negb (is_space b) && match length bs with O => true | S j => is_space (nth j bs 0) end then 1 else 0.
Proof.
  assert (∀ l : list nat, (∀ i, i ∈ l → (i < length bs)%nat) →
    filter (λ i, word_start (bs ++ [b]) i = true) l = filter (λ i, word_start bs i = true) l) as Hext.
  { induction l as [|i l IH]; intros Hl; [done|]. rewrite !filter_cons, IH by (intros; apply Hl; by right).
    assert (word_start (bs ++ [b]) i = word_start bs i) as ->; [|done]. pose proof (Hl i ltac:(by left)) as Hi. unfold word_start.
    rewrite app_nth1 by done. destruct i as [|j]; [done|]. by rewrite app_nth1 by lia. }
  unfold words. rewrite length_app. cbn [length]. rewrite Nat.add_1_r, seq_S, filter_app, length_app, Hext by (intros i [_ ?]%elem_of_seq; lia).
  cbn [Nat.add]. rewrite filter_cons, filter_nil.
  assert (word_start (bs ++ [b]) (length bs) = negb (is_space b) && match length bs with O => true | S j => is_space (nth j bs 0) end) as ->.
  { unfold word_start. rewrite app_nth2, Nat.sub_diag by lia. cbn [nth]. f_equal. destruct (length bs) eqn:E; [done|]. by rewrite app_nth1 by lia. }
  destruct (negb (is_space b) && _); [rewrite decide_True by done|rewrite decide_False by done]; cbn [length]; lia.
Qed.

Lemma words_bound bs : 0 ≤ words bs ≤ Z.of_nat (length bs).
Proof.
  unfold words. pose proof (length_filter (λ i, word_start bs i = true) (seq 0 (length bs))) as H. rewrite length_seq in H. lia.
Qed.

(** The counters of [wc]. *)
Lemma wc_counts bs :
  Z.of_nat (length bs) < 2^31 →
  foldl wc_byte (mkCounts 0 0 0 false) bs =
    mkCounts (lines bs) (words bs) (Z.of_nat (length bs)) match length bs with O => false | S j => negb (is_space (nth j bs 0)) end.
Proof.
  induction bs as [|b bs IH] using rev_ind; intros Hl; [done|]. rewrite foldl_app, IH by (rewrite length_app in Hl; cbn in Hl; lia).
  rewrite length_app in Hl. cbn in Hl. cbn [foldl]. unfold wc_byte. cbn [n_l n_w n_c inword].
  assert (lines (bs ++ [b]) = if b =? 10 then lines bs + 1 else lines bs) as El.
  { unfold lines. rewrite filter_app, length_app, filter_cons, filter_nil. destruct (Z.eqb_spec b 10); [rewrite decide_True by done|rewrite decide_False by done]; cbn; lia. }
  assert (0 ≤ lines bs ≤ Z.of_nat (length bs)) as Hlb.
  { unfold lines. pose proof (length_filter (λ b, b = 10) bs) as H. lia. }
  pose proof (words_bound bs) as Hw. rewrite El, words_snoc, length_app, !s32_id by lia. cbn [length]. rewrite Nat.add_1_r, app_nth2, Nat.sub_diag by lia. cbn [nth].
  replace (Z.of_nat (S (length bs))) with (Z.of_nat (length bs) + 1) by lia.
  destruct (is_space b); cbn [negb andb]; [by rewrite Z.add_0_r|]. 
  destruct (length bs) as [|j]; cbn [negb]; [done|]. destruct (is_space (nth j bs 0)); cbn [negb]; [done|by rewrite Z.add_0_r].
Qed.

Lemma first_line_length k bs : (length (first_line k bs) ≤ k)%nat.
Proof. revert bs. induction k as [|k IH]; intros [|b bs]; cbn; try lia. destruct (_ || _); cbn; [lia|]. specialize (IH bs). lia. Qed.

Lemma first_line_prefix k bs : take (length (first_line k bs)) bs = first_line k bs.
Proof. revert bs. induction k as [|k IH]; intros [|b bs]; cbn; try done. destruct (_ || _); cbn; [done|]. by rewrite IH. Qed.

(** [gets] stays inside its buffer: of a buffer of [max] bytes it fills at most
    [max - 1] and then stores the NUL.  What it stores is the beginning of the input,
    up to and including the first newline or carriage return if that fits; what it
    took is gone from the input, whatever the sizes of the reads, and the rest is
    still there. *)
Theorem gets_spec {St} {UX : Unix St} {UL : UnixLaws St} max bs (s : St) :
  input s !! 0 = Some bs → 1 ≤ max →
  let l := first_line (Z.to_nat (max - 1)) bs in
  ∃ s', gets max s = Done l s' ∧ Z.of_nat (length l) + 1 ≤ max ∧ l ++ drop (length l) bs = bs ∧
    input s' = <[0 := drop (length l) bs]> (input s) ∧ output s' = output s.
Proof.
  intros Hin Hmax l. destruct (gets_loop_ok max (S (Z.to_nat max)) [] bs s Hin) as (s' & He & I & O); [cbn; lia|cbn; lia|].
  cbn [length] in *. rewrite Nat.sub_0_r in *. exists s'. split; [exact He|]. split; [|split; [|done]].
  - pose proof (first_line_length (Z.to_nat (max - 1)) bs). unfold l. lia.
  - unfold l. rewrite <- (first_line_prefix (Z.to_nat (max - 1)) bs) at 1. apply take_drop.
Qed.

Lemma gets_spec_witness : ∃ s', gets 4 (Files.io0 [108; 115; 10; 119]) = Done [108; 115; 10] s'.
Proof.
  destruct (gets_spec 4 [108; 115; 10; 119] (Files.io0 [108; 115; 10; 119])) as (s' & E & _); [reflexivity|lia|].
  exists s'. exact E.
Defined.

(** [cat] copies and [wc] counts, whatever the sizes of the reads.  [cat] writes to
    descriptor 1 exactly what was left to read on [fd]; [wc] of less than 2^31 bytes
    prints the number of newlines, of words (maximal runs of bytes that are no
    spaces) and of bytes, and the name. *)
Theorem cat_wc_spec {St} {UX : Unix St} {UL : UnixLaws St} m fuel fd bs o (s : St) :
  input s !! fd = Some bs → output s !! 1 = Some o → (length bs < fuel)%nat →
  (∃ s', cat m fuel fuel fd s = Done tt s' ∧ input s' = <[fd := []]> (input s) ∧ output s' = <[1 := o ++ bs]> (output s)) ∧
  (∀ name l, Z.of_nat (length bs) < 2^31 → cstr m name l → name ≠ 0 → (length l < fuel)%nat →
     ∃ s', wc m fuel fd name s = Done tt s' ∧ input s' = <[fd := []]> (input s) ∧
       output s' = <[1 := o ++ number (lines bs) 10 true ++ [32] ++ number (words bs) 10 true ++ [32] ++
                          number (Z.of_nat (length bs)) 10 true ++ [32] ++ l ++ [10]]> (output s)).
Proof.
  intros Hin Ho Hf. split; [by apply cat_ok|]. intros name l Hlen Hname Hnz Hl. unfold wc. mstep.
  destruct (wc_loop_ok fuel fd bs (mkCounts 0 0 0 false) s Hin Hf) as (s1 & -> & I1 & O1). mstep. cbn [fst snd Z.ltb Z.compare].
  rewrite wc_counts by done. cbn [n_l n_w n_c]. set (stk := args [lines bs; words bs; Z.of_nat (length bs); name]).
  destruct (printf_loop_emits (λ _, l) stk m fuel 1 12 (charsln "%d %d %d %s") 0) with (s := s1) (o := o) as (s2 & E2 & O2 & I2);
    [cbn; lia|apply charsln_bytes|cbn; do 3 (split; [discriminate|]); split; [by intros _ _|done]|by rewrite O1|].
  exists s2. split; [exact E2|]. rewrite I2, I1, O2, O1. split; [done|]. do 2 f_equal.
  assert (0 ≤ lines bs ≤ Z.of_nat (length bs)) as Hlb by (unfold lines; pose proof (length_filter (λ b, b = 10) bs); lia).
  pose proof (words_bound bs). change (charsln "%d %d %d %s") with [37; 100; 32; 37; 100; 32; 37; 100; 32; 37; 115; 10].
  cbn [format conv Z.eqb Pos.eqb fst snd next orb]. unfold stk, args. cbn [nth]. destruct (Z.eqb_spec name 0); [done|].
  rewrite !s32_id by lia. done.
Qed.

Lemma cat_wc_spec_witness :
  ∃ s', wc (λ _, 0) 9 0 100 (Files.io0 [97; 32; 98; 10]) = Done tt s' ∧ output s' !! 1 = Some [49; 32; 50; 32; 52; 32; 10].
Proof.
  destruct (cat_wc_spec (λ _, 0) 9 0 [97; 32; 98; 10] [] (Files.io0 [97; 32; 98; 10])) as [_ H]; [reflexivity|reflexivity|cbn; lia|].
  destruct (H 100 []) as (s' & E & _ & O); [cbn; lia|split; [reflexivity|split; [constructor|reflexivity]]|lia|cbn; lia|].
  exists s'. split; [exact E|]. rewrite O. vm_compute. reflexivity.
Defined.

Lemma after_slash_down path j n :
  (∀ k, (j < k ≤ j + n)%nat → nth k path 0 ≠ 47) → after_slash path (j + n) = after_slash path j.
Proof.
  induction n as [|n IH]; intros H; [by rewrite Nat.add_0_r|]. rewrite Nat.add_succ_r. cbn [after_slash].
  destruct (Z.eqb_spec (nth (S (j + n)) path 0) 47) as [E|_]; [by apply H in E; [|lia]|]. apply IH. intros k Hk. apply H. lia.
Qed.

Lemma nth_no_slash b k : 47 ∉ b → nth k b 0 ≠ 47.
Proof.
  intros Hb E. destruct (decide (k < length b)%nat) as [Hk|Hk]; [|rewrite nth_overflow in E by lia; done].
  apply Hb. rewrite <- E. apply list_elem_of_In, nth_In. done.
Qed.

(** [fmtname] is what follows the last slash, padded with blanks to the length of the
    names in directories. *)
Lemma fmtname_spec path b :
  (∃ a, path = a ++ 47 :: b) ∨ path = b → 47 ∉ b →
  fmtname path = b ++ replicate (14 - length b) 32.
Proof.
  intros Hp Hb. unfold fmtname. assert (drop (after_slash path (length path)) path = b) as ->.
  { destruct Hp as [[a ->]| ->].
    - rewrite length_app. rewrite after_slash_down.
      + destruct (length a) eqn:E; cbn [after_slash]; rewrite <- ?E, app_nth2, Nat.sub_diag by lia; cbn [nth Z.eqb Pos.eqb];
          rewrite <- ?E, cons_middle, app_assoc, drop_app_length'; try done; rewrite length_app; cbn; lia.
      + intros k Hk. rewrite app_nth2 by lia. destruct (k - length a)%nat eqn:E; [lia|]. cbn [nth]. by apply nth_no_slash.
    - change (length b) with (0 + length b)%nat. rewrite (after_slash_down b 0 (length b)) by (intros; by apply nth_no_slash). cbn [after_slash].
      destruct (Z.eqb_spec (nth 0 b 0) 47) as [E|_]; [by apply nth_no_slash in E|done]. }
  destruct (Nat.leb_spec 14 (length b)); [|done]. replace (14 - length b)%nat with O by lia. by rewrite app_nil_r.
Qed.
