(* ===== verification/Sh.v ===== *)
(** sh.c: the command language of the shell.  A pointer into the command line is the
    rest of the line from there on; the parser is a computation over the pointer
    [*ps].  In the parser [panic], which prints a message and exits, is the [Panic] of
    the monad.  [malloc] is taken to succeed.  A running command is the tree of system
    calls it makes, for every result they may have. *)
From S2P Require Import Prelude.

(** The commands, over a type for the words in them. *)
Inductive cmd (A : Type) :=
| EXEC (argv : list A)
| REDIR (c : cmd A) (file : A) (mode fd : Z)
| PIPE (left right : cmd A)
| LIST (left right : cmd A)
| BACK (c : cmd A).
Arguments EXEC {A} argv.
Arguments REDIR {A} c file mode fd.
Arguments PIPE {A} left right.
Arguments LIST {A} left right.
Arguments BACK {A} c.

Fixpoint cmd_map {A B} (f : A → B) (c : cmd A) : cmd B :=
  match c with
  | EXEC argv => EXEC (f <$> argv)
  | REDIR c file mode fd => REDIR (cmd_map f c) (f file) mode fd
  | PIPE l r => PIPE (cmd_map f l) (cmd_map f r)
  | LIST l r => LIST (cmd_map f l) (cmd_map f r)
  | BACK c => BACK (cmd_map f c)
  end.

Definition MAXARGS : nat := 10.
Abbreviation O_RDONLY := 0 (only parsing).
Abbreviation O_WRONLY := 1 (only parsing).
Abbreviation O_CREATE := 512 (only parsing).

(** * The parser *)

Abbreviation line := (list Z).
(** A word: the pointers to its beginning and to its end. *)
Abbreviation tok := (line * line)%type.

Definition whitespace : list Z := [32; 9; 13; 10; 11].
Definition symbols : list Z := [60; 124; 62; 38; 59; 40; 41].  (* <|>&;() *)
Definition mem_of (l : list Z) (c : Z) : bool := existsb (Z.eqb c) l.

(** [while(s < es && strchr(whitespace, *s)) s++;] *)
Fixpoint skip (s : line) : line :=
  match s with
  | [] => []
  | c :: s' => if mem_of whitespace c then skip s' else s
  end.

(** [while(s < es && !strchr(whitespace, *s) && !strchr(symbols, *s)) s++;] *)
Fixpoint word_end (s : line) : line :=
  match s with
  | [] => []
  | c :: s' => if mem_of whitespace c || mem_of symbols c then s else word_end s'
  end.

(** The token, its beginning and its end. *)
Definition gettoken : M line (Z * tok) := λ ps,
  let q := skip ps in
  let '(ret, eq) :=
    match q with
    | [] => (0, q)
    | c :: s =>
      if mem_of [124; 40; 41; 59; 38; 60] c then (c, s)
      else if c =? 62 then match s with 62 :: s' => (43, s') | _ => (c, s) end
      else (97, word_end q)
    end in
  Done (ret, (q, eq)) (skip eq).

Definition peek (toks : list Z) : M line bool := λ ps,
  let s := skip ps in
  Done (match s with [] => false | c :: _ => mem_of toks c end) s.

(** A redirection: the file, the mode and the descriptor. *)
Abbreviation redir := (tok * Z * Z)%type.
(** The command with the redirections around it, the first one innermost. *)
Definition wrap {A} (c : cmd A) (ws : list (A * Z * Z)) : cmd A :=
  foldl (λ c '(file, mode, fd), REDIR c file mode fd) c ws.

(** [parseredirs]; [ws] are the redirections so far. *)
Fixpoint redirs_loop (k : nat) (ws : list redir) : M line (list redir) :=
  match k with
  | O => λ _, Fuel
  | S k' =>
    b <- peek [60; 62] ;;
    if b : bool then
      t <- gettoken ;;
      f <- gettoken ;;
      (if negb (f.1 =? 97) then panic "missing file for redirection" else ret tt) ;;;
      redirs_loop k' (ws ++ (if t.1 =? 60 then [(f.2, O_RDONLY, 0)]
                             else if t.1 =? 62 then [(f.2, Z.lor O_WRONLY O_CREATE, 1)]
                             else if t.1 =? 43 then [(f.2, Z.lor O_WRONLY O_CREATE, 1)]
                             else []))
    else ret ws
  end.
(** [k] bounds the steps of a loop that takes at least one character in each. *)
Definition steps : M line nat := gets (λ ps, S (length ps)).
Definition parseredirs (ws : list redir) : M line (list redir) := k <- steps ;; redirs_loop k ws.

(** The loop of [parseexec].  The command gets its arguments while it already is
    inside the redirections [ws]. *)
Fixpoint exec_loop (k : nat) (argv : list tok) (ws : list redir) : M line (cmd tok) :=
  match k with
  | O => λ _, Fuel
  | S k' =>
    b <- peek [124; 41; 38; 59] ;;
    if b : bool then ret (wrap (EXEC argv) ws)
    else
      t <- gettoken ;;
      if t.1 =? 0 then ret (wrap (EXEC argv) ws)
      else
        (if negb (t.1 =? 97) then panic "syntax" else ret tt) ;;;
        let argv' := argv ++ [t.2] in
        (if (MAXARGS <=? length argv')%nat then panic "too many args" else ret tt) ;;;
        ws' <- parseredirs ws ;;
        exec_loop k' argv' ws'
  end.

(** [while(peek(ps, es, "&"))] of [parseline]. *)
Fixpoint back_loop (k : nat) (c : cmd tok) : M line (cmd tok) :=
  match k with
  | O => λ _, Fuel
  | S k' => b <- peek [38] ;; if b : bool then _ <- gettoken ;; back_loop k' (BACK c) else ret c
  end.

(** [n] bounds the nesting of the calls. *)
Fixpoint parseline (n : nat) : M line (cmd tok) :=
  match n with
  | O => λ _, Fuel
  | S n' =>
    c <- parsepipe n' ;;
    k <- steps ;;
    c <- back_loop k c ;;
    b <- peek [59] ;;
    if b : bool then _ <- gettoken ;; r <- parseline n' ;; ret (LIST c r) else ret c
  end
with parsepipe (n : nat) : M line (cmd tok) :=
  match n with
  | O => λ _, Fuel
  | S n' =>
    c <- parseexec n' ;;
    b <- peek [124] ;;
    if b : bool then _ <- gettoken ;; r <- parsepipe n' ;; ret (PIPE c r) else ret c
  end
with parseexec (n : nat) : M line (cmd tok) :=
  match n with
  | O => λ _, Fuel
  | S n' =>
    b <- peek [40] ;;
    if b : bool then parseblock n'
    else
      ws <- parseredirs [] ;;
      k <- steps ;;
      exec_loop k [] ws
  end
with parseblock (n : nat) : M line (cmd tok) :=
  match n with
  | O => λ _, Fuel
  | S n' =>
    b <- peek [40] ;;
    (if negb b then panic "parseblock" else ret tt) ;;;
    _ <- gettoken ;;
    c <- parseline n' ;;
    b <- peek [41] ;;
    (if negb b then panic "syntax - missing )" else ret tt) ;;;
    _ <- gettoken ;;
    ws <- parseredirs [] ;;
    ret (wrap c ws)
  end.

(** [parsecmd] up to [nulterminate].  What is left of the line is printed before the
    [panic]; of that output only the message of [panic] is kept. *)
Definition parse (n : nat) : M line (cmd tok) :=
  c <- parseline n ;;
  _ <- peek [] ;;
  s <- gets id ;;
  (if negb (length s =? 0)%nat then panic "syntax" else ret tt) ;;;
  ret c.

(** ** nulterminate *)

(** The ends of the words of a command, in the order in which they are cut off. *)
Fixpoint cuts (c : cmd tok) : list line :=
  match c with
  | EXEC argv => snd <$> argv
  | REDIR c file _ _ => cuts c ++ [file.2]
  | PIPE l r => cuts l ++ cuts r
  | LIST l r => cuts l ++ cuts r
  | BACK c => cuts c
  end.

(** [*p = 0] for the pointer [p] into the line [s]; a line is followed by its NUL. *)
Definition cut (s p : line) : line := <[(length s - length p)%nat := 0]> s.
Definition nulterminate (s : line) (c : cmd tok) : line := foldl cut s (cuts c).

(** The string at the pointer [p]. *)
Fixpoint upto_nul (s : line) : line :=
  match s with [] => [] | c :: s' => if c =? 0 then [] else c :: upto_nul s' end.
Definition string_at (s' : line) (p : line) : line := upto_nul (drop (length s' - length p) s').

(** The command with the strings its words are after [nulterminate]. *)
Definition parsecmd (s : line) : res line (cmd line) :=
  match parse (4 * length s + 8) s with
  | Done c ps => let s' := nulterminate s c in Done (cmd_map (λ t, string_at s' t.1) c) ps
  | Panic msg => Panic msg
  | Spin => Spin
  | Fuel => Fuel
  | Switch _ _ => Fuel
  end.

(** * Every line is parsed safely *)

(** The computation ends, in a result with [Q] or in an error message. *)
Definition ends {A} (p : M line A) (r : line) (Q : A → line → Prop) : Prop :=
  match p r with Done a r' => Q a r' | Panic _ => True | _ => False end.

Lemma ends_bind {A B} (p : M line A) (f : A → M line B) r (P : A → line → Prop) (Q : B → line → Prop) :
  ends p r P → (∀ a r', P a r' → ends (f a) r' Q) → ends (bind p f) r Q.
Proof. unfold ends, bind. intros Hp Hf. destruct (p r); cbn; try done. by apply Hf. Qed.

Lemma ends_ret {A} (a : A) r (Q : A → line → Prop) : Q a r → ends (ret a) r Q.
Proof. done. Qed.

Lemma ends_mono {A} (p : M line A) r (P Q : A → line → Prop) : ends p r P → (∀ a r', P a r' → Q a r') → ends p r Q.
Proof. unfold ends. intros Hp HPQ. destruct (p r); try done. by apply HPQ. Qed.

Lemma ends_check {A} (b : bool) msg (f : M line A) r Q :
  (b = false → ends f r Q) → ends ((if b then panic msg else ret tt) ;;; f) r Q.
Proof. intros H. unfold ends, bind in *. destruct b; cbn; [done|]. by apply H. Qed.

Definition ordinary (c : Z) : Prop := mem_of whitespace c || mem_of symbols c = false.

(** The pointers of a token enclose a word, as long as it can be. *)
Definition tok_ok (t : tok) : Prop :=
  ∃ w, t.1 = w ++ t.2 ∧ w ≠ [] ∧ Forall ordinary w ∧ match t.2 with [] => True | c :: _ => ¬ ordinary c end.

Lemma suffix_r {A} (l : list A) : l `suffix_of` l.
Proof. by exists []. Qed.
#[local] Hint Extern 0 (_ `suffix_of` _) => apply suffix_r : core.

Lemma skip_suffix s : skip s `suffix_of` s.
Proof. induction s as [|c s IH]; cbn [skip]; [done|]. destruct (mem_of whitespace c); [|done]. by apply suffix_cons_r. Qed.

Lemma skip_head s c s' : skip s = c :: s' → mem_of whitespace c = false.
Proof. induction s as [|d s IH]; cbn [skip]; [done|]. destruct (mem_of whitespace d) eqn:E; [exact IH|]. by intros [= <- _]. Qed.

Lemma skip_skip s : skip (skip s) = skip s.
Proof. induction s as [|c s IH]; cbn [skip]; [done|]. destruct (mem_of whitespace c) eqn:E; [exact IH|]. cbn [skip]. by rewrite E. Qed.

Lemma word_end_ok s :
  ∃ w, s = w ++ word_end s ∧ Forall ordinary w ∧ match word_end s with [] => True | c :: _ => ¬ ordinary c end.
Proof.
  induction s as [|c s (w & Hw & Ho & He)]; cbn [word_end]; [by exists []|].
  destruct (mem_of whitespace c || mem_of symbols c) eqn:E.
  - exists []. split; [done|]. split; [constructor|]. unfold ordinary. by rewrite E.
  - exists (c :: w). split; [cbn; by rewrite <- Hw|]. split; [by constructor|done].
Qed.

Lemma suffix_length {A} (l1 l2 : list A) : l1 `suffix_of` l2 → (length l1 ≤ length l2)%nat.
Proof. intros [k ->]. rewrite length_app. lia. Qed.

(** What [gettoken] does: it takes at least a character, unless the line is at its end. *)
Lemma gettoken_ok r :
  ends gettoken r (λ t r', t.2.1 = skip r ∧ t.2.2 `suffix_of` t.2.1 ∧ r' `suffix_of` t.2.2 ∧
    (t.1 = 97 → tok_ok t.2) ∧ (skip r ≠ [] → (length r' < length r)%nat) ∧ (t.1 ≠ 0 → skip r ≠ [])).
Proof.
  unfold ends, gettoken. pose proof (suffix_length _ _ (skip_suffix r)) as Hl. destruct (skip r) as [|c s] eqn:E; cbn [fst snd].
  { do 3 (split; [done|]). split; [done|]. split; [done|]. done. }
  pose proof (skip_head _ _ _ E) as Hc. cbn [length] in Hl.
  assert (∀ e, e `suffix_of` s → (length (skip e) < length r)%nat) as Hlt.
  { intros e He. pose proof (suffix_length _ _ (skip_suffix e)). pose proof (suffix_length _ _ He). lia. }
  assert (s `suffix_of` c :: s) as Hs by (by apply suffix_cons_r).
  destruct (mem_of [124; 40; 41; 59; 38; 60] c) eqn:Em; cbn [fst snd].
  { split; [done|]. split; [done|]. split; [apply skip_suffix|]. split; [|split; [intros _; by apply Hlt|done]].
    intros ->. done. }
  destruct (Z.eqb_spec c 62) as [->|Hne].
  { assert (∀ x, x = 62 ∨ x = 43 → x = 97 → tok_ok (62 :: s, s)) as Hno by (intros x [-> | ->]; done).
    destruct s as [|d s]; cbn [fst snd]; [split; [done|]; split; [done|]; split; [done|]; split; [done|]; split; [intros _; by apply (Hlt [])|done]|].
    destruct (decide (d = 62)) as [->|Hd]; cbn [fst snd].
    - split; [done|]. split; [by do 2 apply suffix_cons_r|]. split; [apply skip_suffix|]. split; [done|]. split; [|done]. intros _. apply Hlt. by apply suffix_cons_r.
    - assert (match d with 62 => (43, s) | _ => (62, d :: s) end = (62, d :: s)) as -> by (repeat case_match; congruence). cbn [fst snd].
      split; [done|]. split; [done|]. split; [apply skip_suffix|]. split; [done|]. split; [|done]. intros _. by apply Hlt. }
  assert (ordinary c) as Ho.
  { unfold ordinary. rewrite Hc. cbn [orb]. unfold mem_of, symbols in *. cbn [existsb] in *.
    repeat match goal with |- context [c =? ?k] => destruct (Z.eqb_spec c k) as [->|?]; try done end. }
  destruct (word_end_ok (c :: s)) as (w & Hw & Hwo & He). assert (w ≠ []) as Hw0.
  { intros ->. cbn [app] in Hw. rewrite <- Hw in He. done. }
  cbn [fst snd]. split; [done|]. split; [by exists w|]. split; [apply skip_suffix|]. split; [intros _; exists w; done|]. split; [|done].
  intros _. apply Hlt. destruct w as [|c' w]; [done|]. injection Hw as _ Hw. by exists w.
Qed.

Lemma peek_ok toks r :
  ends (peek toks) r (λ b r', r' = skip r ∧ (b = true → ∃ c s, skip r = c :: s ∧ mem_of toks c = true)).
Proof. unfold ends, peek. split; [done|]. destruct (skip r) as [|c s]; [done|]. eauto. Qed.

(** ** Words that do not overlap *)

(** [t] and [t'] are apart: the NUL that ends one is not in the other. *)
Definition apart (t t' : tok) : Prop := (length t'.1 < length t.2)%nat ∨ (length t.1 < length t'.2)%nat.

(** The words in [ts] are between [hi] and [lo], and apart. *)
Record spread (hi lo : line) (ts : list tok) : Prop := {
  sp_suffix : lo `suffix_of` hi;
  sp_ok t : t ∈ ts → tok_ok t ∧ t.1 `suffix_of` hi ∧ lo `suffix_of` t.2;
  sp_apart t t' : t ∈ ts → t' ∈ ts → t = t' ∨ apart t t';
}.

Lemma suffix_trans {A} (l1 l2 l3 : list A) : l1 `suffix_of` l2 → l2 `suffix_of` l3 → l1 `suffix_of` l3.
Proof. intros [k ->] [k' ->]. exists (k' ++ k). by rewrite app_assoc. Qed.

Lemma spread_nil hi lo : lo `suffix_of` hi → spread hi lo [].
Proof. intros H. split; [done|by intros t ?%not_elem_of_nil|by intros t t' ?%not_elem_of_nil]. Qed.

(** A word starts with an ordinary character, and does not end before one. *)
Lemma tok_start t t' : tok_ok t → tok_ok t' → t'.1 `suffix_of` t.2 → (length t'.1 < length t.2)%nat.
Proof.
  intros (w & _ & _ & _ & He) (w' & Hw' & Hn' & Ho' & _) Hs. pose proof (suffix_length _ _ Hs) as Hl.
  destruct (decide (length t'.1 = length t.2)) as [E|]; [|lia]. destruct Hs as [k Hk]. exfalso.
  assert (k = []) as -> by (apply nil_length_inv; rewrite Hk, length_app in E; lia). cbn [app] in Hk.
  rewrite Hk, Hw' in He. destruct w' as [|c w']; [done|]. cbn in He. apply Forall_cons in Ho' as [Ho' _]. done.
Qed.

Lemma spread_app hi mid lo ts ts' : spread hi mid ts → spread mid lo ts' → spread hi lo (ts ++ ts').
Proof.
  intros [A1 A2 A3] [B1 B2 B3]. split; [by eapply suffix_trans| |].
  - intros t [Ht|Ht]%elem_of_app.
    + destruct (A2 t Ht) as (? & ? & ?). split; [done|]. split; [done|]. by eapply suffix_trans.
    + destruct (B2 t Ht) as (? & ? & ?). split; [done|]. split; [|done]. by eapply suffix_trans.
  - assert (∀ t t', t ∈ ts → t' ∈ ts' → (length t'.1 < length t.2)%nat) as Hx.
    { intros t t' Ht Ht'. destruct (A2 t Ht) as (H1 & _ & H2), (B2 t' Ht') as (H3 & H4 & _). apply tok_start; [done|done|]. by eapply suffix_trans. }
    intros t t' [Ht|Ht]%elem_of_app [Ht'|Ht']%elem_of_app; [by apply A3|right; left; by apply Hx|right; right; by apply Hx|by apply B3].
Qed.

Lemma spread_sub hi lo ts ts' : spread hi lo ts → (∀ t, t ∈ ts' → t ∈ ts) → spread hi lo ts'.
Proof. intros [A1 A2 A3] H. split; [done| |]; intros; eauto. Qed.

Lemma spread_lo hi mid lo ts : spread hi mid ts → lo `suffix_of` mid → spread hi lo ts.
Proof. intros H1 H2. rewrite <- (app_nil_r ts). eapply spread_app; [done|]. by apply spread_nil. Qed.

Lemma spread_one r q e r' : tok_ok (q, e) → q `suffix_of` r → r' `suffix_of` e → spread r r' [(q, e)].
Proof.
  intros Ht Hq He. assert (e `suffix_of` q) as Hqe by (destruct Ht as (w & Hw & _); by exists w). split.
  - by eapply suffix_trans; [|eapply suffix_trans].
  - by intros t ->%list_elem_of_singleton.
  - intros t t' ->%list_elem_of_singleton ->%list_elem_of_singleton. by left.
Qed.

(** ** The words of a command *)

Fixpoint toks (c : cmd tok) : list tok :=
  match c with
  | EXEC argv => argv
  | REDIR c file _ _ => toks c ++ [file]
  | PIPE l r => toks l ++ toks r
  | LIST l r => toks l ++ toks r
  | BACK c => toks c
  end.
Definition files (ws : list redir) : list tok := (λ w, w.1.1) <$> ws.

Lemma toks_wrap c ws : toks (wrap c ws) = toks c ++ files ws.
Proof.
  revert c. induction ws as [|[[f m] d] ws IH]; intros c; cbn; [by rewrite app_nil_r|]. unfold wrap in IH. rewrite IH. cbn. by rewrite <- app_assoc.
Qed.

(** Every [argv] has room for the null pointer at its end. *)
Fixpoint narrow (c : cmd tok) : Prop :=
  match c with
  | EXEC argv => (length argv < MAXARGS)%nat
  | REDIR c _ _ _ => narrow c
  | PIPE l r => narrow l ∧ narrow r
  | LIST l r => narrow l ∧ narrow r
  | BACK c => narrow c
  end.

Lemma narrow_wrap c ws : narrow (wrap c ws) ↔ narrow c.
Proof. revert c. induction ws as [|[[f m] d] ws IH]; intros c; cbn; [done|]. unfold wrap in IH. by rewrite IH. Qed.

(** ** The loops *)

Lemma redirs_ok h pre k ws r :
  (length r < k)%nat → spread h r (pre ++ files ws) →
  ends (redirs_loop k ws) r (λ ws' r', spread h r' (pre ++ files ws') ∧ r' `suffix_of` r).
Proof.
  revert ws r. induction k as [|k IH]; intros ws r Hk Hs; [lia|]. cbn [redirs_loop].
  eapply ends_bind; [apply peek_ok|]. intros b r1 [-> Hb]. pose proof (skip_suffix r) as Hr. pose proof (suffix_length _ _ Hr) as Hrl.
  destruct b; [|split; [by eapply spread_lo|done]]. destruct (Hb eq_refl) as (c & s & E & _).
  eapply ends_bind; [apply gettoken_ok|]. intros [t [q e]] r2 (E1 & E2 & E3 & _ & E4 & _). cbn [fst snd] in *.
  rewrite skip_skip in *. specialize (E4 ltac:(congruence)).
  eapply ends_bind; [apply gettoken_ok|]. intros [t' [q' e']] r3 (F1 & F2 & F3 & F4 & _). cbn [fst snd] in *.
  apply ends_check. intros Ht. apply negb_false_iff, Z.eqb_eq in Ht. specialize (F4 Ht). subst q q'.
  assert (r2 `suffix_of` r) as Hr2 by (eapply suffix_trans; [exact E3|]; by eapply suffix_trans).
  assert (spread r r3 [(skip r2, e')]) as Hone.
  { apply spread_one; [done|eapply suffix_trans; [apply skip_suffix|done]|done]. }
  pose proof (sp_suffix _ _ _ Hone) as Hr3.
  set (new := if t =? 60 then _ else _). assert (∀ x, x ∈ files new → x = (skip r2, e')) as Hnew.
  { intros x. unfold new. repeat case_match; cbn; rewrite ?elem_of_nil, ?list_elem_of_singleton; try done. }
  eapply ends_mono; [apply IH|].
  - pose proof (suffix_length _ _ F3). pose proof (suffix_length _ _ F2). pose proof (suffix_length _ _ (skip_suffix r2)). cbn in *. lia.
  - unfold files. rewrite fmap_app, app_assoc. eapply spread_app; [exact Hs|]. eapply spread_sub; [exact Hone|]. intros x Hx. apply list_elem_of_singleton. by apply Hnew.
  - cbn. intros ws' r' [G1 G2]. split; [done|]. by eapply suffix_trans.
Qed.

Lemma parseredirs_ok h pre ws r :
  spread h r (pre ++ files ws) → ends (parseredirs ws) r (λ ws' r', spread h r' (pre ++ files ws') ∧ r' `suffix_of` r).
Proof. intros Hs. unfold parseredirs. apply (ends_bind _ _ _ (λ k r', k = S (length r) ∧ r' = r)); [done|]. intros k r' [-> ->]. apply redirs_ok; [lia|done]. Qed.

Lemma exec_ok h k argv ws r :
  (length r < k)%nat → spread h r (argv ++ files ws) → (length argv < MAXARGS)%nat →
  ends (exec_loop k argv ws) r (λ c r', spread h r' (toks c) ∧ r' `suffix_of` r ∧ narrow c).
Proof.
  revert argv ws r. induction k as [|k IH]; intros argv ws r Hk Hs Ha; [lia|]. cbn [exec_loop].
  assert (∀ r', r' `suffix_of` r → ends (ret (wrap (EXEC argv) ws)) r' (λ c r', spread h r' (toks c) ∧ r' `suffix_of` r ∧ narrow c)) as Hret.
  { intros r' Hr'. cbn. rewrite toks_wrap, narrow_wrap. split; [|done]. by eapply spread_lo. }
  eapply ends_bind; [apply peek_ok|]. intros b r1 [-> Hb]. pose proof (skip_suffix r) as Hr. pose proof (suffix_length _ _ Hr) as Hrl.
  destruct b; [by apply Hret|]. eapply ends_bind; [apply gettoken_ok|]. intros [t [q e]] r2 (E1 & E2 & E3 & E4 & E5 & E6). cbn [fst snd] in *.
  rewrite skip_skip in *. subst q. assert (r2 `suffix_of` r) as Hr2 by (eapply suffix_trans; [exact E3|]; by eapply suffix_trans).
  destruct (Z.eqb_spec t 0) as [->|Ht0]; [by apply Hret|]. specialize (E5 (E6 Ht0)).
  apply ends_check. intros Ht%negb_false_iff%Z.eqb_eq. specialize (E4 Ht). apply ends_check. intros Hlen%Nat.leb_gt.
  assert (spread h r2 ((argv ++ [(skip r, e)]) ++ files ws)) as Hs2.
  { eapply spread_sub; [eapply spread_app; [exact Hs|]; apply (spread_one r (skip r) e r2); done|]. set_solver. }
  eapply ends_bind; [by apply (parseredirs_ok h)|]. intros ws' r3 [G1 G2]. eapply ends_mono; [apply IH; [|done|done]|].
  - pose proof (suffix_length _ _ G2). lia.
  - cbn. intros c r' (K1 & K2 & K3). split; [done|]. split; [|done]. eapply suffix_trans; [exact K2|]. by eapply suffix_trans.
Qed.

Lemma back_ok k c r :
  (length r < k)%nat → ends (back_loop k c) r (λ c' r', toks c' = toks c ∧ r' `suffix_of` r ∧ (narrow c → narrow c')).
Proof.
  revert c r. induction k as [|k IH]; intros c r Hk; [lia|]. cbn [back_loop]. eapply ends_bind; [apply peek_ok|]. intros b r1 [-> Hb].
  pose proof (skip_suffix r) as Hr. pose proof (suffix_length _ _ Hr) as Hrl. destruct b; [|by split].
  destruct (Hb eq_refl) as (x & s & E & _). eapply ends_bind; [apply gettoken_ok|]. intros [t [q e]] r2 (E1 & E2 & E3 & _ & E5 & _). cbn [fst snd] in *.
  rewrite skip_skip in *. specialize (E5 ltac:(congruence)). eapply ends_mono; [apply IH; lia|]. cbn. intros c' r' (K1 & K2 & K3).
  split; [done|]. split; [|done]. subst q. eapply suffix_trans; [exact K2|]. eapply suffix_trans; [exact E3|]. by eapply suffix_trans.
Qed.

(** A token after [peek]: at least a character less. *)
Lemma peek_token toks r {A} (f : M line A) (g : M line A) Q :
  (∀ r', r' `suffix_of` r → (length r' < length r)%nat → ends f r' Q) → (∀ r', r' `suffix_of` r → ends g r' Q) →
  ends (b <- peek toks ;; if b : bool then _ <- gettoken ;; f else g) r Q.
Proof.
  intros Hf Hg. eapply ends_bind; [apply peek_ok|]. intros b r1 [-> Hb]. pose proof (skip_suffix r) as Hr. pose proof (suffix_length _ _ Hr) as Hrl.
  destruct b; [|by apply Hg]. destruct (Hb eq_refl) as (x & s & E & _). eapply ends_bind; [apply gettoken_ok|].
  intros [t [q e]] r2 (E1 & E2 & E3 & _ & E5 & _). cbn [fst snd] in *. rewrite skip_skip in *. specialize (E5 ltac:(congruence)). subst q.
  apply Hf; [|lia]. eapply suffix_trans; [exact E3|]. by eapply suffix_trans.
Qed.

(** A command parsed from [r]. *)
Definition parsed (r : line) (c : cmd tok) (r' : line) : Prop := spread r r' (toks c) ∧ narrow c.

Lemma parsed_suffix r c r' : parsed r c r' → r' `suffix_of` r.
Proof. intros [[? _ _] _]. done. Qed.

Lemma parse_all n r :
  (4 * length r + 4 ≤ n → ends (parseline n) r (parsed r))%nat ∧ (4 * length r + 3 ≤ n → ends (parsepipe n) r (parsed r))%nat ∧
  (4 * length r + 2 ≤ n → ends (parseexec n) r (parsed r))%nat ∧ (4 * length r + 1 ≤ n → ends (parseblock n) r (parsed r))%nat.
Proof.
  revert r. induction n as [|n IH]; intros r; [split; [|split; [|split]]; lia|].
  split; [|split; [|split]]; intros Hn; cbn [parseline parsepipe parseexec parseblock].
  - eapply ends_bind; [apply (IH r); lia|]. intros c r1 [H1 H2]. pose proof (sp_suffix _ _ _ H1) as Hr1.
    apply (ends_bind _ _ _ (λ k r', k = S (length r1) ∧ r' = r1)); [done|]. intros k r' [-> ->].
    eapply ends_bind; [apply back_ok; lia|]. intros c2 r2 (T2 & Hr2 & N2). pose proof (suffix_length _ _ Hr1). pose proof (suffix_length _ _ Hr2).
    apply peek_token.
    + intros r3 Hr3 Hl3. eapply ends_bind; [apply (IH r3); lia|]. intros d r4 [H3 H4]. apply ends_ret. split; cbn [toks narrow]; [|by split; [apply N2|]].
      eapply spread_app; [|exact H3]. rewrite T2. eapply spread_lo; [exact H1|]. by eapply suffix_trans.
    + intros r3 Hr3. apply ends_ret. split; [|by apply N2]. rewrite T2. eapply spread_lo; [exact H1|]. by eapply suffix_trans.
  - eapply ends_bind; [apply (IH r); lia|]. intros c r1 [H1 H2]. pose proof (sp_suffix _ _ _ H1) as Hr1. pose proof (suffix_length _ _ Hr1).
    apply peek_token.
    + intros r3 Hr3 Hl3. eapply ends_bind; [apply (IH r3); lia|]. intros d r4 [H3 H4]. apply ends_ret. split; cbn [toks narrow]; [|done].
      eapply spread_app; [|exact H3]. by eapply spread_lo.
    + intros r3 Hr3. apply ends_ret. split; [|done]. by eapply spread_lo.
  - eapply ends_bind; [apply peek_ok|]. intros b r1 [-> Hb]. pose proof (skip_suffix r) as Hr. pose proof (suffix_length _ _ Hr) as Hrl. destruct b.
    + eapply ends_mono; [apply (IH (skip r)); lia|]. intros c r' [H1 H2]. split; [|done].
      apply (spread_app _ _ _ [] _ (spread_nil _ _ Hr) H1).
    + eapply ends_bind; [apply (parseredirs_ok r [] []); by apply spread_nil|]. intros ws r2 [G1 G2].
      apply (ends_bind _ _ _ (λ k r', k = S (length r2) ∧ r' = r2)); [done|]. intros k r' [-> ->].
      eapply ends_mono; [apply (exec_ok r); [lia|exact G1|unfold MAXARGS; cbn; lia]|]. by intros c r' (H1 & _ & H2).
  - eapply ends_bind; [apply peek_ok|]. intros b r1 [-> Hb]. pose proof (skip_suffix r) as Hr. pose proof (suffix_length _ _ Hr) as Hrl.
    apply ends_check. intros ->%negb_false_iff. destruct (Hb eq_refl) as (x & s & E & _).
    eapply ends_bind; [apply gettoken_ok|]. intros [t [q e]] r2 (E1 & E2 & E3 & _ & E5 & _). cbn [fst snd] in *. rewrite skip_skip in *.
    specialize (E5 ltac:(congruence)). subst q. assert (r2 `suffix_of` r) as Hr2 by (eapply suffix_trans; [exact E3|]; by eapply suffix_trans).
    eapply ends_bind; [apply (IH r2); lia|]. intros c r3 [H1 H2]. eapply ends_bind; [apply peek_ok|]. intros b r4 [-> _].
    apply ends_check. intros _. eapply ends_bind; [apply gettoken_ok|]. intros [t' [q' e']] r5 (F1 & F2 & F3 & _). cbn [fst snd] in *.
    rewrite skip_skip in *. subst q'. assert (r5 `suffix_of` r3) as Hr5 by (eapply suffix_trans; [exact F3|]; eapply suffix_trans; [exact F2|apply skip_suffix]).
    eapply ends_bind; [apply (parseredirs_ok r (toks c) []); cbn [files fmap list_fmap]; rewrite app_nil_r|].
    + apply (spread_app _ _ _ [] _ (spread_nil _ _ Hr2)). by eapply spread_lo.
    + intros ws r6 [G1 G2]. apply ends_ret. split; [by rewrite toks_wrap|by rewrite narrow_wrap].
Qed.

(** ** Cutting the line into words *)

Lemma cuts_toks c : cuts c = snd <$> toks c.
Proof.
  induction c as [argv|c IH file m d|l IHl r IHr|l IHl r IHr|c IH]; cbn [cuts toks]; rewrite ?fmap_app; [done| | | |done].
  - by rewrite IH.
  - by rewrite IHl, IHr.
  - by rewrite IHl, IHr.
Qed.

Lemma length_cuts s ps : length (foldl cut s ps) = length s.
Proof. revert s. induction ps as [|p ps IH]; intros s; cbn; [done|]. rewrite IH. unfold cut. by rewrite length_insert. Qed.

Lemma cuts_keep s ps i : (∀ p, p ∈ ps → i ≠ (length s - length p)%nat) → foldl cut s ps !! i = s !! i.
Proof.
  revert s. induction ps as [|p ps IH]; intros s H; cbn; [done|]. rewrite IH.
  - unfold cut. apply list_lookup_insert_ne. apply not_eq_sym, H. by left.
  - intros p' Hp'. unfold cut. rewrite length_insert. apply H. by right.
Qed.

Lemma cuts_zero s ps i : s !! i = Some 0 → foldl cut s ps !! i = Some 0.
Proof.
  revert s. induction ps as [|p ps IH]; intros s H; cbn; [done|]. apply IH. unfold cut.
  destruct (decide (i = length s - length p)%nat) as [->|Hne]; [|by rewrite list_lookup_insert_ne].
  apply list_lookup_insert_eq. by eapply lookup_lt_Some.
Qed.

Lemma cuts_at s ps p : p ∈ ps → p ≠ [] → (length p ≤ length s)%nat → foldl cut s ps !! (length s - length p)%nat = Some 0.
Proof.
  intros Hp Hn Hl. apply list_elem_of_split in Hp as (ps1 & ps2 & ->). rewrite foldl_app. cbn [foldl]. apply cuts_zero.
  unfold cut. rewrite length_cuts. apply list_lookup_insert_eq. rewrite length_cuts. destruct p; [done|]. cbn in *. lia.
Qed.

Lemma upto_nul_word w l :
  (∀ j, (j < length w)%nat → l !! j = w !! j) → Forall (λ c, c ≠ 0) w → (l !! length w = None ∨ l !! length w = Some 0) → upto_nul l = w.
Proof.
  revert l. induction w as [|c w IH]; intros l Hj Hw Hend.
  - destruct l as [|d l]; [done|]. cbn in Hend. destruct Hend as [|[= ->]]; [done|]. done.
  - apply Forall_cons in Hw as [Hc Hw]. pose proof (Hj O ltac:(cbn; lia)) as H0. destruct l as [|d l]; [done|]. injection H0 as ->.
    cbn [upto_nul]. destruct (Z.eqb_spec c 0); [done|]. f_equal. apply IH; [|done|done]. intros j Hlt. apply (Hj (S j)). cbn. lia.
Qed.

Definition word (t : tok) : line := take (length t.1 - length t.2) t.1.

(** After [nulterminate] the string at the beginning of a word is the word. *)
Lemma word_string s c t :
  Forall (λ c, c ≠ 0) s → spread s [] (toks c) → t ∈ toks c → string_at (nulterminate s c) t.1 = word t.
Proof.
  intros Hs [S1 S2 S3] Ht. destruct (S2 t Ht) as ((w & Hw & Hn & Ho & _) & Hq & _). destruct t as [q e]. cbn [fst snd] in *. subst q.
  assert (word (w ++ e, e) = w) as ->. { unfold word. cbn [fst snd]. rewrite length_app, Nat.add_sub, take_app_length. done. }
  unfold string_at, nulterminate. rewrite length_cuts. destruct Hq as [k Hk].
  assert (length s = length k + length w + length e)%nat as El by (rewrite Hk, !length_app; lia).
  replace (length s - length (w ++ e))%nat with (length k) by (rewrite length_app; lia). rewrite cuts_toks. apply upto_nul_word.
  - intros j Hj. rewrite lookup_drop, cuts_keep.
    + rewrite Hk, lookup_app_r by lia. rewrite lookup_app_l by lia. f_equal. lia.
    + intros p (t' & -> & Ht')%list_elem_of_fmap. destruct (S2 t' Ht') as ((w' & Hw' & Hn' & _) & Hq' & _).
      apply suffix_length in Hq'. pose proof (f_equal length Hw') as Hl'. rewrite length_app in Hl'.
      destruct (S3 (w ++ e, e) t' Ht Ht') as [<-|[Ha|Ha]]; cbn [fst snd] in *; rewrite ?length_app in *; try lia.
  - rewrite Hk in Hs. apply Forall_app in Hs as [_ Hs]. by apply Forall_app in Hs as [Hs _].
  - rewrite lookup_drop. destruct e as [|d e]; [left; apply lookup_ge_None_2; rewrite length_cuts; cbn in El; lia|right].
    replace (length k + length w)%nat with (length s - length (d :: e))%nat by lia. apply cuts_at; [|done|cbn in *; lia].
    apply list_elem_of_fmap. by exists (w ++ d :: e, d :: e).
Qed.

Lemma parsecmd_words (s : line) :
  Forall (λ c, c ≠ 0) s →
  match parsecmd s with
  | Done c' _ => ∃ c, parse (4 * length s + 8) s = Done c [] ∧ c' = cmd_map word c ∧ narrow c ∧
      ∀ t, t ∈ toks c → word t ≠ [] ∧ Forall ordinary (word t) ∧ ∃ k, s = k ++ word t ++ t.2
  | Panic _ => True
  | _ => False
  end.
Proof.
  intros Hs. assert (ends (parse (4 * length s + 8)) s (λ c r', r' = [] ∧ parsed s c [])) as Hp.
  { unfold parse. eapply ends_bind; [apply (parse_all (4 * length s + 8) s); lia|]. intros c r1 Hc.
    eapply ends_bind; [apply peek_ok|]. intros b r2 [-> _]. apply (ends_bind _ _ _ (λ x r', x = skip r1 ∧ r' = skip r1)); [done|].
    intros x r' [-> ->]. apply ends_check. intros Hl%negb_false_iff%Nat.eqb_eq%nil_length_inv. apply ends_ret. split; [done|].
    destruct Hc as [H1 H2]. split; [|done]. eapply spread_lo; [exact H1|]. by exists r1; rewrite app_nil_r. }
  unfold parsecmd, ends in *. destruct (parse (4 * length s + 8) s) as [c r'|msg| | |]; try done. destruct Hp as [-> [H1 H2]].
  exists c. split; [done|]. split; [|split; [done|]].
  - assert (∀ t, t ∈ toks c → string_at (nulterminate s c) t.1 = word t) as H by (intros; by apply word_string).
    revert H. generalize (nulterminate s c). intros s'. clear -c. induction c; cbn; intros H; f_equal; auto.
    + apply list_fmap_ext. intros i t Ht. apply H. by eapply list_elem_of_lookup_2.
    + apply IHc. intros t Ht. apply H. set_solver.
    + apply H. set_solver.
    + apply IHc1. intros t Ht. apply H. set_solver.
    + apply IHc2. intros t Ht. apply H. set_solver.
    + apply IHc1. intros t Ht. apply H. set_solver.
    + apply IHc2. intros t Ht. apply H. set_solver.
  - intros t Ht. destruct (sp_ok _ _ _ H1 t Ht) as ((w & Hw & Hn & Ho & _) & [k Hk] & _).
    assert (word t = w) as ->. { unfold word. rewrite Hw, length_app, Nat.add_sub, take_app_length. done. }
    split; [done|]. split; [done|]. exists k. by rewrite <- Hw.
Qed.

(** The shell copes with every line.  For any line without NUL, [parsecmd] ends: in
    an error message, or in a command in which no [argv] is longer than its array
    (with the null pointer at the end), and in which, after [nulterminate] has cut
    the line, every argument and every file name is the string of one word of the
    line, not empty and without blanks or symbols. *)
Theorem parsecmd_safe (s : line) :
  Forall (λ c, c ≠ 0) s →
  match parsecmd s with
  | Done c' _ => ∃ c, parse (4 * length s + 8) s = Done c [] ∧ c' = cmd_map word c ∧ narrow c ∧
      ∀ t, t ∈ toks c → word t ≠ [] ∧ Forall ordinary (word t) ∧ ∃ k, s = k ++ word t ++ t.2
  | Panic _ => True
  | _ => False
  end.
Proof. exact (parsecmd_words s). Qed.

Lemma parsecmd_safe_witness :
  match parsecmd [108; 115; 32; 62; 102; 10] with
  | Done c' _ => c' = REDIR (EXEC [[108; 115]]) [102] 513 1
  | _ => False
  end.
Proof.
  pose proof (parsecmd_safe [108; 115; 32; 62; 102; 10] ltac:(repeat constructor; discriminate)) as H.
  assert (parsecmd [108; 115; 32; 62; 102; 10] = Done (REDIR (EXEC [[108; 115]]) [102] 513 1) []) as E by (vm_compute; reflexivity).
  rewrite E in *. destruct H as (c & _ & Hc & _). rewrite Hc. destruct c; reflexivity.
Defined.

(** * Printing and parsing *)

(** A command as text, each token with a blank after it.  At level 0 anything goes, at
    1 the left of a list, at 2 the right of a pipe, at 3 the left of a pipe. *)
Definition redir_text (w : line * Z * Z) : line := let '(f, _, d) := w in (if d =? 0 then 60 else 62) :: 32 :: f ++ [32].
Definition paren (b : bool) (s : line) : line := if b then [40; 32] ++ s ++ [41; 32] else s.
Fixpoint text (lv : nat) (c : cmd line) : line :=
  match c with
  | EXEC argv => concat ((λ w, w ++ [32]) <$> argv)
  | REDIR c f m d => text 3 c ++ redir_text (f, m, d)
  | PIPE l r => paren (2 <? lv)%nat (text 3 l ++ [124; 32] ++ text 2 r)
  | BACK c => paren (1 <? lv)%nat (text 1 c ++ [38; 32])
  | LIST l r => paren (0 <? lv)%nat (text 1 l ++ [59; 32] ++ text 0 r)
  end.

(** Words of ordinary characters, few enough; redirections as the parser makes them. *)
Definition word_ok (w : line) : Prop := w ≠ [] ∧ Forall ordinary w.
Definition redir_ok (m d : Z) : Prop := (m, d) = (O_RDONLY, 0) ∨ (m, d) = (Z.lor O_WRONLY O_CREATE, 1).
Fixpoint cmd_ok (c : cmd line) : Prop :=
  match c with
  | EXEC argv => Forall word_ok argv ∧ (length argv < MAXARGS)%nat
  | REDIR c f m d => cmd_ok c ∧ word_ok f ∧ redir_ok m d
  | PIPE l r => cmd_ok l ∧ cmd_ok r
  | LIST l r => cmd_ok l ∧ cmd_ok r
  | BACK c => cmd_ok c
  end.

(** The text that follows is at its end, or a token that ends what is being parsed. *)
Definition stop (S : list Z) (r : line) : Prop := r = [] ∨ ∃ c s, r = c :: s ∧ mem_of S c = true.
Definition enders : list Z := [124; 41; 38; 59].

Lemma sub_enders S c : (∀ x, x ∈ S → x ∈ enders) → mem_of S c = true → mem_of enders c = true.
Proof.
  intros HS. unfold mem_of. rewrite !existsb_exists. intros (x & Hx & E%Z.eqb_eq). subst x. exists c. split; [|apply Z.eqb_refl].
  apply list_elem_of_In, HS, list_elem_of_In. done.
Qed.

(** No blanks in front. *)
Definition clean (r : line) : Prop := skip r = r.

Lemma clean_stop S r : (∀ x, x ∈ S → x ∈ enders) → stop S r → clean r.
Proof.
  intros HS [->|(c & s & -> & Hc)]; [done|]. apply (sub_enders S c HS) in Hc. unfold clean. cbn [skip].
  destruct (mem_of whitespace c) eqn:E; [|done]. exfalso. unfold mem_of, enders, whitespace in *. cbn [existsb] in *.
  repeat match goal with H : context [c =? ?k] |- _ => destruct (Z.eqb_spec c k) as [->|?]; try done end.
Qed.

Lemma clean_ordinary c s : ordinary c → clean (c :: s).
Proof. intros Hc%orb_false_elim. destruct Hc as [Hc _]. unfold clean. cbn [skip]. by rewrite Hc. Qed.

Lemma clean_symbol c s : mem_of symbols c = true → clean (c :: s).
Proof.
  intros Hc. unfold clean. cbn [skip]. destruct (mem_of whitespace c) eqn:E; [|done]. exfalso. unfold mem_of, symbols, whitespace in *. cbn [existsb] in *.
  repeat match goal with H : context [c =? ?k] |- _ => destruct (Z.eqb_spec c k) as [->|?]; try done end.
Qed.

Lemma peek_clean S r : clean r → peek S r = Done (match r with [] => false | c :: _ => mem_of S c end) r.
Proof. intros Hr. unfold peek. rewrite Hr. done. Qed.

Lemma word_end_word w r : Forall ordinary w → word_end (w ++ 32 :: r) = 32 :: r.
Proof. induction 1 as [|c w Hc _ IH]; [done|]. cbn [app word_end]. unfold ordinary in Hc. by rewrite Hc. Qed.

Lemma token_word w r : word_ok w → clean r → gettoken (w ++ 32 :: r) = Done (97, (w ++ 32 :: r, 32 :: r)) r.
Proof.
  intros [Hn Hw] Hr. destruct w as [|c w]; [done|]. apply Forall_cons in Hw as [Hc Hw'].
  unfold gettoken. change ((c :: w) ++ 32 :: r) with (c :: w ++ 32 :: r). rewrite (clean_ordinary c (w ++ 32 :: r) Hc).
  assert (mem_of [124; 40; 41; 59; 38; 60] c = false ∧ c ≠ 62) as [-> Hne].
  { apply orb_false_elim in Hc as [_ Hc]. unfold mem_of, symbols in *. cbn [existsb] in *.
    split; [|intros ->; done]. repeat match goal with |- context [c =? ?k] => destruct (Z.eqb_spec c k) as [->|?]; try done end. }
  destruct (Z.eqb_spec c 62); [done|]. pose proof (word_end_word (c :: w) r ltac:(by constructor)) as Hwe. cbn [app] in Hwe.
  pose proof (clean_ordinary c (w ++ 32 :: r) Hc) as Hcl. unfold clean in Hcl. rewrite !Hcl, Hwe. change (skip (32 :: r)) with (skip r). by rewrite Hr.
Qed.

Lemma token_symbol c r : mem_of [124; 40; 41; 59; 38; 60] c = true → clean r → gettoken (c :: 32 :: r) = Done (c, (c :: 32 :: r, 32 :: r)) r.
Proof.
  intros Hc Hr. assert (mem_of symbols c = true) as Hs.
  { unfold mem_of, symbols in *. cbn [existsb] in *. repeat match goal with H : context [c =? ?k] |- _ => destruct (Z.eqb_spec c k) as [->|?]; try done end. }
  unfold gettoken. pose proof (clean_symbol c (32 :: r) Hs) as Hcl. unfold clean in *. rewrite !Hcl, Hc. change (skip (32 :: r)) with (skip r). by rewrite Hr.
Qed.

Lemma token_gt r : clean r → gettoken (62 :: 32 :: r) = Done (62, (62 :: 32 :: r, 32 :: r)) r.
Proof. intros Hr. unfold gettoken. cbn. by rewrite Hr. Qed.

Lemma word_of_token w r : word (w ++ 32 :: r, 32 :: r) = w.
Proof. unfold word. cbn [fst snd]. rewrite length_app, Nat.add_sub. apply take_app_length. Qed.

(** ** Redirections *)

Definition rmap (ws : list redir) : list (line * Z * Z) := (λ w, (word w.1.1, w.1.2, w.2)) <$> ws.
Definition redirs_text (l : list (line * Z * Z)) : line := concat (redir_text <$> l).
Definition redirs_ok' (l : list (line * Z * Z)) : Prop := Forall (λ w, word_ok w.1.1 ∧ redir_ok w.1.2 w.2) l.

Lemma map_wrap c ws : cmd_map word (wrap c ws) = wrap (cmd_map word c) (rmap ws).
Proof. revert c. induction ws as [|[[f m] d] ws IH]; intros c; [done|]. unfold wrap in *. cbn [foldl rmap fmap list_fmap]. by rewrite IH. Qed.

(** The head of what follows is none of these. *)
Definition not_at (S : list Z) (r : line) : Prop := match r with [] => True | c :: _ => mem_of S c = false end.

Lemma redirs_clean l rest : redirs_ok' l → clean rest → clean (redirs_text l ++ rest).
Proof.
  intros Hl Hr. destruct l as [|[[f m] d] l]; [done|]. cbn. unfold clean. cbn [skip].
  by destruct (d =? 0).
Qed.

Lemma word_clean w r : word_ok w → clean (w ++ r).
Proof. intros [Hn Hw]. destruct w as [|c w]; [done|]. apply Forall_cons in Hw as [Hc _]. by apply clean_ordinary. Qed.

Lemma redirs_print l k ws rest :
  redirs_ok' l → clean rest → not_at [60; 62] rest → (length l < k)%nat →
  ∃ ws', redirs_loop k ws (redirs_text l ++ rest) = Done (ws ++ ws') rest ∧ rmap ws' = l.
Proof.
  intros Hl Hc Hn. revert k ws. induction Hl as [|[[f m] d] l [Hf Hd] Hl IH]; intros [|k] ws Hk; try (cbn in Hk; lia).
  - cbn [redirs_text fmap list_fmap concat app redirs_loop]. mstep. rewrite peek_clean by done. mstep. exists [].
    destruct rest as [|c rest]; [by rewrite app_nil_r|]. unfold not_at in Hn. rewrite Hn. by rewrite app_nil_r.
  - assert (clean (redirs_text l ++ rest)) as Hcl by (by apply redirs_clean). cbn [fst snd] in *.
    assert (redirs_text ((f, m, d) :: l) ++ rest = (if d =? 0 then 60 else 62) :: 32 :: f ++ 32 :: redirs_text l ++ rest) as ->.
    { unfold redirs_text. cbn. by rewrite <- !app_assoc. }
    cbn [redirs_loop]. mstep. rewrite peek_clean by (by destruct (d =? 0)). mstep.
    destruct Hd as [[= -> ->]|[= -> ->]]; cbn [Z.eqb mem_of existsb orb Pos.eqb].
    + mstep. rewrite token_symbol by (done || by apply word_clean). mstep. rewrite token_word by done. mstep. cbn [fst snd Z.eqb Pos.eqb negb]. mstep.
      destruct (IH k (ws ++ [((f ++ 32 :: redirs_text l ++ rest, 32 :: redirs_text l ++ rest), O_RDONLY, 0)])) as (ws' & -> & Hm); [cbn in Hk; lia|].
      eexists (_ :: ws'). rewrite <- app_assoc. split; [done|]. unfold rmap in *. rewrite fmap_cons, Hm. cbn [fst snd]. by rewrite word_of_token.
    + mstep. rewrite token_gt by (by apply word_clean). mstep. rewrite token_word by done. mstep. cbn [fst snd Z.eqb Pos.eqb negb]. mstep.
      destruct (IH k (ws ++ [((f ++ 32 :: redirs_text l ++ rest, 32 :: redirs_text l ++ rest), Z.lor O_WRONLY O_CREATE, 1)])) as (ws' & -> & Hm); [cbn in Hk; lia|].
      eexists (_ :: ws'). rewrite <- app_assoc. split; [done|]. unfold rmap in *. rewrite fmap_cons, Hm. cbn [fst snd]. by rewrite word_of_token.
Qed.

Lemma parseredirs_print l ws rest :
  redirs_ok' l → clean rest → not_at [60; 62] rest →
  ∃ ws', parseredirs ws (redirs_text l ++ rest) = Done (ws ++ ws') rest ∧ rmap ws' = l.
Proof.
  intros Hl Hc Hn. unfold parseredirs, steps. mstep. apply redirs_print; try done.
  rewrite length_app. assert (length l ≤ length (redirs_text l))%nat; [|lia]. clear.
  unfold redirs_text. induction l as [|[[f m] d] l IH]; [done|]. rewrite fmap_cons. cbn [concat redir_text length app]. rewrite !length_app. lia.
Qed.

(** ** Arguments *)

Definition words_text (l : list line) : line := concat ((λ w, w ++ [32]) <$> l).

Lemma exec_stop k argv ws rest : stop enders rest → exec_loop (S k) argv ws rest = Done (wrap (EXEC argv) ws) rest.
Proof.
  intros Hs. assert (clean rest) as Hc by (by apply (clean_stop enders)). cbn [exec_loop]. mstep. rewrite peek_clean by done. mstep.
  destruct Hs as [->|(c & s & -> & Hm)]; [done|]. unfold enders in Hm. by rewrite Hm.
Qed.

Lemma stop_not_at rest : stop enders rest → not_at [60; 62] rest ∧ not_at [40] rest.
Proof.
  intros [->|(c & s & -> & Hm)]; [done|]. unfold not_at. unfold mem_of, enders in *. cbn [existsb] in *.
  repeat match goal with H : context [c =? ?k] |- _ => destruct (Z.eqb_spec c k) as [->|?]; try done end.
Qed.

Lemma word_not_at w r : word_ok w → not_at [60; 62] (w ++ r) ∧ not_at [40] (w ++ r) ∧ not_at enders (w ++ r).
Proof.
  intros [Hn Hw]. destruct w as [|c w]; [done|]. apply Forall_cons in Hw as [Hc _]. cbn [app not_at].
  apply orb_false_elim in Hc as [_ Hc]. unfold mem_of, symbols, enders in *. cbn [existsb] in *.
  repeat match goal with |- context [c =? ?k] => destruct (Z.eqb_spec c k) as [->|?]; try done end.
Qed.

Lemma exec_print l k argv ws rl rest :
  Forall word_ok l → l ≠ [] → redirs_ok' rl → stop enders rest → (length argv + length l < MAXARGS)%nat → (length l < k)%nat →
  ∃ l' ws', exec_loop k argv ws (words_text l ++ redirs_text rl ++ rest) = Done (wrap (EXEC (argv ++ l')) (ws ++ ws')) rest ∧
    word <$> l' = l ∧ rmap ws' = rl.
Proof.
  intros Hl Hne Hrl Hs. revert k argv ws. induction Hl as [|w l Hw Hl IH]; intros k argv ws Hlen Hk; [done|]. destruct k as [|k]; [lia|].
  pose proof (clean_stop enders rest ltac:(done) Hs) as Hcr. assert (clean (redirs_text rl ++ rest)) as Hcrr by (by apply redirs_clean).
  set (more := words_text l ++ redirs_text rl ++ rest).
  assert (clean more) as Hcm. { unfold more. destruct Hl as [|w' l Hw' Hl]; [done|]. unfold words_text. cbn. rewrite <- !app_assoc. by apply word_clean. }
  assert (words_text (w :: l) ++ redirs_text rl ++ rest = w ++ 32 :: more) as -> by (unfold words_text, more; cbn; by rewrite <- !app_assoc).
  cbn [exec_loop]. mstep. rewrite peek_clean by (by apply word_clean). mstep. destruct (word_not_at w (32 :: more) Hw) as (_ & _ & Hna).
  assert (match w ++ 32 :: more with [] => false | c :: _ => mem_of [124; 41; 38; 59] c end = false) as ->.
  { unfold not_at, enders in Hna. by destruct (w ++ 32 :: more). }
  mstep. rewrite token_word by done. mstep. cbn [fst snd Z.eqb Pos.eqb negb]. mstep. unfold MAXARGS in *.
  cbn [length] in Hlen, Hk. destruct (Nat.leb_spec 10 (length (argv ++ [(w ++ 32 :: more, 32 :: more)]))) as [Hbad|_]; [rewrite length_app in Hbad; cbn in Hbad; lia|].
  mstep. destruct l as [|w' l].
  - unfold more, words_text. cbn [fmap list_fmap concat app]. destruct (stop_not_at rest Hs) as [Hn1 _].
    destruct (parseredirs_print rl ws rest Hrl Hcr Hn1) as (ws' & -> & Hm). mstep. destruct k as [|k]; [lia|]. rewrite exec_stop by done.
    eexists [_], ws'. split; [done|]. split; [|done]. cbn [fmap list_fmap]. by rewrite word_of_token.
  - apply Forall_cons in Hl as [Hw' Hl']. assert (not_at [60; 62] more) as Hnm.
    { unfold more, words_text. cbn. rewrite <- !app_assoc. by apply word_not_at. }
    destruct (parseredirs_print [] ws more ltac:(constructor) Hcm Hnm) as (ws0 & E0 & Hm0). cbn [redirs_text fmap list_fmap concat app] in E0.
    rewrite E0. mstep.
    destruct ws0 as [|? ws0]; [|done]. rewrite app_nil_r.
    destruct (IH ltac:(done) k (argv ++ [(w ++ 32 :: more, 32 :: more)]) ws) as (l' & ws' & E & Hl1 & Hl2); [rewrite length_app; cbn in *; lia|cbn in *; lia|].
    fold more in E. rewrite E. eexists (_ :: l'), ws'. rewrite <- app_assoc. split; [done|]. split; [|done].
    rewrite fmap_cons, Hl1. by rewrite word_of_token.
Qed.

(** ** Commands *)

Fixpoint strip (c : cmd line) : cmd line * list (line * Z * Z) :=
  match c with REDIR c f m d => ((strip c).1, (strip c).2 ++ [(f, m, d)]) | _ => (c, []) end.

Lemma strip_spec c :
  cmd_ok c → c = wrap (strip c).1 (strip c).2 ∧ text 3 c = text 3 (strip c).1 ++ redirs_text (strip c).2 ∧
  cmd_ok (strip c).1 ∧ redirs_ok' (strip c).2 ∧ match (strip c).1 with REDIR _ _ _ _ => False | _ => True end.
Proof.
  induction c as [argv|c IH f m d|l IHl r IHr|l IHl r IHr|c IH]; intros Hok; cbn [strip fst snd];
    try (split; [done|]; split; [by rewrite app_nil_r|]; split; [done|]; split; [constructor|done]).
  destruct Hok as (Hc & Hf & Hd). destruct (IH Hc) as (E1 & E2 & E3 & E4 & E5). split; [|split; [|split; [done|split; [|done]]]].
  - unfold wrap in *. rewrite foldl_app, <- E1. done.
  - cbn [text]. rewrite E2. unfold redirs_text. rewrite fmap_app, concat_app, app_assoc. cbn [fmap list_fmap concat]. by rewrite app_nil_r.
  - apply Forall_app. split; [done|]. by apply Forall_singleton.
Qed.

Fixpoint unback (c : cmd line) : cmd line * nat :=
  match c with BACK c => ((unback c).1, S (unback c).2) | _ => (c, O) end.
Definition ands (k : nat) : line := concat (replicate k [38; 32]).

Lemma ands_snoc k : ands (S k) = ands k ++ [38; 32].
Proof. unfold ands. rewrite replicate_S_end, concat_app. cbn [concat]. by rewrite app_nil_r. Qed.

Lemma unback_spec c :
  cmd_ok c → c = Nat.iter (unback c).2 BACK (unback c).1 ∧ text 1 c = text 2 (unback c).1 ++ ands (unback c).2 ∧ cmd_ok (unback c).1.
Proof.
  induction c as [argv|c IH f m d|l IHl r IHr|l IHl r IHr|c IH]; intros Hok; cbn [unback fst snd];
    try (split; [done|]; split; [by rewrite app_nil_r|done]).
  destruct (IH Hok) as (E1 & E2 & E3). split; [exact (f_equal BACK E1)|]. split; [|done]. cbn [text paren Nat.ltb Nat.leb]. by rewrite E2, ands_snoc, app_assoc.
Qed.

Lemma text_clean c lv rest : cmd_ok c → clean rest → clean (text lv c ++ rest).
Proof.
  revert lv rest. induction c as [argv|c IH f m d|l IHl r IHr|l IHl r IHr|c IH]; intros lv rest Hok Hr; cbn [text].
  - destruct Hok as [Hw _]. destruct Hw as [|w argv Hw _]; [done|]. cbn. rewrite <- !app_assoc. by apply word_clean.
  - destruct Hok as (Hc & _ & _). rewrite <- app_assoc. apply IH; [done|]. unfold clean. cbn. by destruct (d =? 0).
  - destruct Hok as [Hl _]. destruct (2 <? lv)%nat; [done|]. cbn [paren]. rewrite <- app_assoc. by apply IHl.
  - destruct Hok as [Hl _]. destruct (0 <? lv)%nat; [done|]. cbn [paren]. rewrite <- app_assoc. by apply IHl.
  - destruct (1 <? lv)%nat; [done|]. cbn [paren]. rewrite <- app_assoc. by apply IH.
Qed.

Lemma back_print j k c rest :
  clean rest → not_at [38] rest → (j < k)%nat → back_loop k c (ands j ++ rest) = Done (Nat.iter j BACK c) rest.
Proof.
  intros Hr Hn. revert k c. induction j as [|j IH]; intros [|k] c Hk; try lia; cbn [back_loop]; mstep.
  - cbn [ands replicate concat app Nat.iter]. rewrite peek_clean by done. mstep. destruct rest as [|x rest]; [done|]. unfold not_at in Hn. by rewrite Hn.
  - assert (clean (ands j ++ rest)) as Hcl by (destruct j; [done|done]).
    change (ands (S j) ++ rest) with (38 :: 32 :: ands j ++ rest). rewrite peek_clean by done. mstep. cbn [mem_of existsb Z.eqb Pos.eqb orb]. mstep.
    rewrite token_symbol by done. mstep. rewrite IH by lia. f_equal. by rewrite Nat.iter_succ_r.
Qed.

(** [p] parses the text [r] as [c], up to [rest]. *)
Definition yields (p : M line (cmd tok)) (r : line) (c : cmd line) (rest : line) : Prop :=
  ∃ c', p r = Done c' rest ∧ cmd_map word c' = c.

Definition reads_line (n : nat) : Prop := ∀ c rest,
  cmd_ok c → stop [41] rest → (4 * length (text 0 c ++ rest) + 4 ≤ n)%nat → yields (parseline n) (text 0 c ++ rest) c rest.
Definition reads_pipe (n : nat) : Prop := ∀ c rest,
  cmd_ok c → stop [41; 38; 59] rest → (4 * length (text 2 c ++ rest) + 3 ≤ n)%nat → yields (parsepipe n) (text 2 c ++ rest) c rest.
Definition reads_exec (n : nat) : Prop := ∀ c rest,
  cmd_ok c → stop enders rest → (4 * length (text 3 c ++ rest) + 2 ≤ n)%nat → yields (parseexec n) (text 3 c ++ rest) c rest.
Definition block_text (c : cmd line) (l : list (line * Z * Z)) : line := [40; 32] ++ text 0 c ++ [41; 32] ++ redirs_text l.
Definition reads_block (n : nat) : Prop := ∀ c l rest,
  cmd_ok c → redirs_ok' l → stop enders rest → (4 * length (block_text c l ++ rest) + 1 ≤ n)%nat →
  yields (parseblock n) (block_text c l ++ rest) (wrap c l) rest.

Lemma block_step n : reads_line n → reads_block (S n).
Proof.
  intros IH c l rest Hc Hl Hs Hn. pose proof (clean_stop enders rest ltac:(done) Hs) as Hcr. destruct (stop_not_at rest Hs) as [Hn1 _].
  assert (clean (redirs_text l ++ rest)) as Hcl by (by apply redirs_clean).
  assert (block_text c l ++ rest = 40 :: 32 :: text 0 c ++ 41 :: 32 :: redirs_text l ++ rest) as E by (unfold block_text; cbn; by rewrite <- !app_assoc).
  rewrite E in *. cbn [parseblock]. unfold yields. mstep. rewrite peek_clean by done. mstep. cbn [mem_of existsb Z.eqb Pos.eqb orb negb]. mstep.
  rewrite token_symbol by (done || by apply text_clean). mstep.
  destruct (IH c (41 :: 32 :: redirs_text l ++ rest) Hc) as (c' & -> & Hc'); [right; by eexists _, _|cbn [length] in Hn; lia|]. mstep.
  rewrite peek_clean by done. mstep. cbn [mem_of existsb Z.eqb Pos.eqb orb negb]. mstep. rewrite token_symbol by done. mstep.
  destruct (parseredirs_print l [] rest Hl Hcr Hn1) as (ws & -> & Hm). mstep. eexists. split; [done|]. cbn [app]. by rewrite map_wrap, Hc', Hm.
Qed.

Definition compound (c : cmd line) : Prop := match c with EXEC _ | REDIR _ _ _ _ => False | _ => True end.

Lemma text_block c l rest : compound c → text 3 c ++ redirs_text l ++ rest = block_text c l ++ rest.
Proof. unfold block_text. destruct c; try done; intros _; cbn [text paren Nat.ltb Nat.leb]; by rewrite <- !app_assoc. Qed.

Lemma exec_step_args n argv l rest :
  cmd_ok (EXEC argv) → redirs_ok' l → stop enders rest →
  yields (parseexec (S n)) (words_text argv ++ redirs_text l ++ rest) (wrap (EXEC argv) l) rest.
Proof.
  intros [Hw Hlen] Hl Hs. pose proof (clean_stop enders rest ltac:(done) Hs) as Hcr. destruct (stop_not_at rest Hs) as [Hn1 Hn2].
  assert (clean (redirs_text l ++ rest)) as Hcl by (by apply redirs_clean). cbn [parseexec]. unfold yields. mstep.
  destruct argv as [|w argv].
  - unfold words_text. cbn [fmap list_fmap concat app]. rewrite peek_clean by done. mstep.
    assert (match redirs_text l ++ rest with [] => false | c :: _ => mem_of [40] c end = false) as ->.
    { destruct l as [|[[f m] d] l]; [cbn; by destruct rest|]. cbn. by destruct (d =? 0). }
    mstep. destruct (parseredirs_print l [] rest Hl Hcr Hn1) as (ws & -> & Hm). unfold steps. mstep. rewrite exec_stop by done. eexists. split; [done|].
    cbn [app]. by rewrite map_wrap, Hm.
  - set (r := words_text (w :: argv) ++ redirs_text l ++ rest). apply Forall_cons in Hw as [Hw Hws].
    assert (∃ r', r = w ++ r') as [r' Er]. { unfold r, words_text. cbn. rewrite <- !app_assoc. by eexists. }
    destruct (word_not_at w r' Hw) as (Hna1 & Hna2 & _). assert (clean r) as Hr by (rewrite Er; by apply word_clean). rewrite <- Er in *.
    rewrite peek_clean by done. mstep. assert (match r with [] => false | c :: _ => mem_of [40] c end = false) as -> by (by destruct r).
    mstep. destruct (parseredirs_print [] [] r ltac:(constructor) Hr Hna1) as (ws0 & E0 & Hm0). cbn [redirs_text fmap list_fmap concat app] in E0.
    destruct ws0 as [|? ws0]; [|done]. rewrite E0. unfold steps. mstep.
    destruct (exec_print (w :: argv) (S (length r)) [] [] l rest) as (l' & ws' & E & Hl1 & Hl2); try done; [by constructor| |].
    { unfold r. rewrite length_app. assert (length (w :: argv) ≤ length (words_text (w :: argv)))%nat; [|lia]. clear.
      unfold words_text. generalize (w :: argv). induction l as [|x l IH]; [done|]. rewrite fmap_cons. cbn [concat length]. rewrite !length_app. cbn. lia. }
    fold r in E. rewrite E. eexists. split; [done|]. cbn [app]. rewrite map_wrap, Hl2. cbn [cmd_map]. by rewrite Hl1.
Qed.

Lemma exec_step n : reads_block n → reads_exec (S n).
Proof.
  intros IH c rest Hc Hs Hn. destruct (strip_spec c Hc) as (E1 & E2 & Hb & Hl & Hne). set (l := (strip c).2) in *. set (b := (strip c).1) in *.
  rewrite E1. rewrite <- E1 at 1. rewrite E2 in *. rewrite <- app_assoc in *. clearbody b l. clear E1 E2 Hc c.
  assert (compound b ∨ ∃ argv, b = EXEC argv) as [Hcb|[argv ->]] by (destruct b; cbn; eauto; done).
  - rewrite text_block in * by done. destruct (IH b l rest Hb Hl Hs) as (c' & E & Hm); [lia|]. unfold yields. cbn [parseexec]. mstep.
    rewrite peek_clean by done. mstep. change (match block_text b l ++ rest with [] => false | c :: _ => mem_of [40] c end) with true. cbn iota.
    rewrite E. by exists c'.
  - by apply exec_step_args.
Qed.

Lemma pipe_step n : reads_exec n → reads_pipe n → reads_pipe (S n).
Proof.
  intros IH3 IH2 c rest Hc Hs Hn. pose proof (clean_stop [41; 38; 59] rest ltac:(unfold enders; set_solver) Hs) as Hcr.
  assert ((∃ l r, c = PIPE l r) ∨ text 2 c = text 3 c) as [(l & r & ->)|E2] by (destruct c; eauto).
  - destruct Hc as [Hl Hr]. cbn [text paren Nat.ltb Nat.leb] in *. rewrite <- !app_assoc in *. cbn [app] in *. unfold yields. cbn [parsepipe]. mstep.
    destruct (IH3 l (124 :: 32 :: text 2 r ++ rest) Hl) as (l' & -> & Hl'); [right; by eexists _, _|lia|]. mstep.
    rewrite peek_clean by done. mstep. cbn [mem_of existsb Z.eqb Pos.eqb orb]. mstep. rewrite token_symbol by (done || by apply text_clean). mstep.
    destruct (IH2 r rest Hr Hs) as (r' & -> & Hr'); [rewrite length_app in Hn; cbn [length] in Hn; lia|]. mstep.
    eexists. split; [done|]. cbn [cmd_map]. by rewrite Hl', Hr'.
  - rewrite E2 in *. unfold yields. cbn [parsepipe]. mstep. assert (stop enders rest) as Hs3.
    { destruct Hs as [->|(x & s & -> & Hx)]; [by left|right]. exists x, s. split; [done|]. eapply sub_enders; [|exact Hx]. unfold enders. set_solver. }
    destruct (IH3 c rest Hc Hs3) as (c' & -> & Hm); [lia|]. mstep. rewrite peek_clean by done. mstep.
    assert (match rest with [] => false | x :: _ => mem_of [124] x end = false) as ->; [|by exists c'].
    destruct Hs as [->|(x & s & -> & Hx)]; [done|]. unfold mem_of in *. cbn [existsb] in *.
    repeat match goal with H : context [x =? ?k] |- _ => destruct (Z.eqb_spec x k) as [->|?]; try done end.
Qed.

Lemma map_iter {A B} (f : A → B) k c : cmd_map f (Nat.iter k BACK c) = Nat.iter k BACK (cmd_map f c).
Proof. induction k as [|k IH]; [done|]. exact (f_equal BACK IH). Qed.

(** The first part of a line: a pipe and the [&]s after it. *)
Lemma line_head n d more :
  reads_pipe n → cmd_ok d → clean more → stop [41; 59] more → (4 * length (text 1 d ++ more) + 3 ≤ n)%nat →
  ∃ d', parsepipe n (text 1 d ++ more) = Done d' (ands (unback d).2 ++ more) ∧ cmd_map word (Nat.iter (unback d).2 BACK d') = d ∧
    back_loop (S (length (ands (unback d).2 ++ more))) d' (ands (unback d).2 ++ more) = Done (Nat.iter (unback d).2 BACK d') more.
Proof.
  intros IH2 Hok Hcm Hsm Hlen. destruct (unback_spec d Hok) as (E1 & E2 & Hb). rewrite E2 in *. rewrite <- app_assoc in *.
  assert (not_at [38] more ∧ stop [41; 38; 59] more) as [Hna Hst].
  { destruct Hsm as [->|(x & s & -> & Hx)]; [split; [done|by left]|]. unfold mem_of in Hx. cbn [existsb] in Hx.
    repeat match goal with H : context [x =? ?k] |- _ => destruct (Z.eqb_spec x k) as [->|?]; try done end; (split; [done|right; by eexists _, _]). }
  destruct (IH2 (unback d).1 (ands (unback d).2 ++ more) Hb) as (d' & -> & Hm); [destruct (unback d).2; [done|right; by eexists 38, _]|lia|].
  exists d'. split; [done|]. split; [by rewrite map_iter, Hm, <- E1|]. apply back_print; [done|done|]. rewrite length_app.
  assert ((unback d).2 ≤ length (ands (unback d).2))%nat; [|lia]. clear. unfold ands. induction (unback d).2 as [|k IH]; [done|]. cbn. lia.
Qed.

Lemma line_step n : reads_pipe n → reads_line n → reads_line (S n).
Proof.
  intros IH2 IH0 c rest Hc Hs Hn. pose proof (clean_stop [41] rest ltac:(unfold enders; set_solver) Hs) as Hcr.
  unfold yields. cbn [parseline]. mstep. assert ((∃ l r, c = LIST l r) ∨ text 0 c = text 1 c) as [(l & r & ->)|E1] by (destruct c; eauto).
  - destruct Hc as [Hl Hr]. cbn [text paren Nat.ltb Nat.leb] in *. rewrite <- !app_assoc in *. cbn [app] in *.
    destruct (line_head n l (59 :: 32 :: text 0 r ++ rest) IH2 Hl) as (d' & -> & Hm & Hb); [done|right; by eexists _, _|lia|].
    unfold steps. mstep. rewrite Hb. mstep. rewrite peek_clean by done. mstep. cbn [mem_of existsb Z.eqb Pos.eqb orb]. mstep.
    rewrite token_symbol by (done || by apply text_clean). mstep.
    destruct (IH0 r rest Hr Hs) as (r' & -> & Hr'); [rewrite length_app in Hn; cbn [length] in Hn; lia|]. mstep.
    eexists. split; [done|]. cbn [cmd_map]. by rewrite Hm, Hr'.
  - rewrite E1 in *. destruct (line_head n c rest IH2 Hc Hcr) as (d' & -> & Hm & Hb); [|lia|].
    { destruct Hs as [->|(x & s & -> & Hx)]; [by left|right]. exists x, s. split; [done|]. unfold mem_of in *. cbn [existsb] in *.
      by destruct (Z.eqb_spec x 41) as [->|?]. }
    unfold steps. mstep. rewrite Hb. mstep. rewrite peek_clean by done. mstep.
    assert (match rest with [] => false | x :: _ => mem_of [59] x end = false) as ->; [|by eexists].
    destruct Hs as [->|(x & s & -> & Hx)]; [done|]. unfold mem_of in *. cbn [existsb] in *. by destruct (Z.eqb_spec x 41) as [->|?].
Qed.

Lemma reads_all n : reads_line n ∧ reads_pipe n ∧ reads_exec n ∧ reads_block n.
Proof.
  induction n as [|n (IH0 & IH2 & IH3 & IHb)].
  - split; [|split; [|split]]; intros ?; intros; lia.
  - split; [by apply line_step|]. split; [by apply pipe_step|]. split; [by apply exec_step|by apply block_step].
Qed.

(** C24: What is printed is read back.  For every command, its text, with parentheses
    where precedence needs them and a blank after each token, is parsed by [parsecmd]
    to the same command with the same words. *)
Theorem parse_print (c : cmd line) :
  cmd_ok c → Forall (λ x, x ≠ 0) (text 0 c) → parsecmd (text 0 c) = Done c [].
Proof.
  intros Hc Hz. destruct (reads_all (4 * length (text 0 c) + 8)) as [IH _]. destruct (IH c [] Hc) as (c' & E & Hm); [by left|rewrite app_nil_r; lia|].
  rewrite app_nil_r in E. assert (parse (4 * length (text 0 c) + 8) (text 0 c) = Done c' []) as Hp by (unfold parse; mstep; by rewrite E).
  pose proof (parsecmd_words (text 0 c) Hz) as Hsafe. unfold parsecmd in *. rewrite Hp in *. destruct Hsafe as (c2 & [= <-] & Ew & _). by rewrite Ew, Hm.
Qed.

(** ["ls -l > f | wc & "] *)
Lemma parse_print_witness :
  let c := BACK (PIPE (REDIR (EXEC [[108; 115]; [45; 108]]) [102] 513 1) (EXEC [[119; 99]])) in
  parsecmd (text 0 c) = Done c [].
Proof.
  intros c. apply (parse_print c).
  - repeat first [discriminate|reflexivity|split|apply Forall_cons_2|apply Forall_nil_2|right; reflexivity]; unfold MAXARGS; cbn; lia.
  - repeat constructor; discriminate.
Defined.

(** * Running commands *)

(** The system calls the shell makes. *)
Inductive call :=
| Close (fd : Z)
| Open (path : line) (mode : Z)
| Dup (fd : Z)
| Exec (path : line) (argv : list line)
| Wait
| Chdir (path : line)
| Print (msg : string) (arg : line).  (* printf to descriptor 2 *)

(** A process, as what it does from a point on: the next system call, and how it goes
    on with the result.  [fork] returns twice. *)
Inductive prog :=
| Exit
| Sys (c : call) (k : Z → prog)
| SysPipe (k : Z → Z → Z → prog)  (* the result, p[0] and p[1] *)
| SysFork (k : Z → prog).

Definition nl : string := String (Ascii.ascii_of_nat 10) EmptyString.
Definition sh_panic (s : string) : prog := Sys (Print (s +:+ nl) []) (λ _, Exit).

(** Fork but panics on failure. *)
Definition fork1 (k : Z → prog) : prog := SysFork (λ pid, if pid =? -1 then sh_panic "fork" else k pid).

(** Execute cmd.  Never returns. *)
Fixpoint runcmd (c : cmd line) : prog :=
  match c with
  | EXEC argv =>
    match argv with
    | [] => Exit
    | a :: _ => Sys (Exec a argv) (λ _, Sys (Print ("exec %s failed" +:+ nl) a) (λ _, Exit))
    end
  | REDIR c file mode fd =>
    Sys (Close fd) (λ _, Sys (Open file mode) (λ r,
      if r <? 0 then Sys (Print ("open %s failed" +:+ nl) file) (λ _, Exit) else runcmd c))
  | LIST l r => fork1 (λ pid, if pid =? 0 then runcmd l else Sys Wait (λ _, runcmd r))
  | PIPE l r =>
    SysPipe (λ e p0 p1,
      if e <? 0 then sh_panic "pipe"
      else fork1 (λ pid,
        if pid =? 0 then
          Sys (Close 1) (λ _, Sys (Dup p1) (λ _, Sys (Close p0) (λ _, Sys (Close p1) (λ _, runcmd l))))
        else fork1 (λ pid,
          if pid =? 0 then
            Sys (Close 0) (λ _, Sys (Dup p0) (λ _, Sys (Close p0) (λ _, Sys (Close p1) (λ _, runcmd r))))
          else Sys (Close p0) (λ _, Sys (Close p1) (λ _, Sys Wait (λ _, Sys Wait (λ _, Exit)))))))
  | BACK c => fork1 (λ pid, if pid =? 0 then runcmd c else Exit)
  end.

(** [while((fd = open("console", O_RDWR)) >= 0) if(fd >= 3){ close(fd); break; }]; [path]
    is "console". *)
Fixpoint open_console (n : nat) (path : line) (k : prog) : prog :=
  match n with
  | O => Exit
  | S n' => Sys (Open path 2) (λ fd,
      if 0 <=? fd then if 3 <=? fd then Sys (Close fd) (λ _, k) else open_console n' path k else k)
  end.

(** [buf[0] == 'c' && buf[1] == 'd' && buf[2] == ' '] *)
Definition is_cd (buf : line) : bool := (nth 0 buf 0 =? 99) && (nth 1 buf 0 =? 100) && (nth 2 buf 0 =? 32).

(** [getcmd] prints the prompt and takes the next of the [lines] that [gets] reads; an
    empty line is the end of the input. *)
Definition getcmd (lines : list line) (eof : prog) (k : line → list line → prog) : prog :=
  Sys (Print "$ " []) (λ _,
    match lines with [] => eof | buf :: lines' => if nth 0 buf 0 =? 0 then eof else k buf lines' end).

(** The loop of [main]. *)
Fixpoint sh_loop (lines : list line) : prog :=
  getcmd lines Exit (λ buf lines',
    if is_cd buf then
      let path := drop 3 (take (length buf - 1) buf) in  (* chop \n *)
      Sys (Chdir path) (λ r,
        if r <? 0 then Sys (Print ("cannot cd %s" +:+ nl) path) (λ _, sh_loop lines') else sh_loop lines')
    else
      fork1 (λ pid,
        if pid =? 0 then match parsecmd buf with Done c _ => runcmd c | Panic msg => sh_panic msg | _ => Exit end
        else Sys Wait (λ _, sh_loop lines'))).
Definition sh_main (console : line) (lines : list line) : prog := open_console 4 console (sh_loop lines).

(** ** Descriptors *)

(** What a descriptor refers to. *)
Inductive obj := Std (n : Z) | File (path : line) (mode : Z) | PipeR (id : nat) | PipeW (id : nat).
Abbreviation fds := (gmap Z obj).

(** [fdalloc] of sysfile.c: the lowest free of the 16 descriptors. *)
Definition lowest (d : fds) : Z := match list_find (λ n, d !! n = None) (seqZ 0 16) with Some (_, n) => n | None => -1 end.

(** The programs a process and its children start when system calls succeed, each with
    its arguments and its descriptors; [id] names the next pipe. *)
Fixpoint start (p : prog) (d : fds) (id : nat) : list (list line * fds) * nat :=
  match p with
  | Exit => ([], id)
  | Sys (Close fd) k => start (k 0) (delete fd d) id
  | Sys (Open f m) k => start (k (lowest d)) (<[lowest d := File f m]> d) id
  | Sys (Dup fd) k =>
    match d !! fd with
    | Some o => start (k (lowest d)) (<[lowest d := o]> d) id
    | None => start (k (-1)) d id
    end
  | Sys (Exec _ argv) _ => ([(argv, d)], id)
  | Sys Wait k => start (k 1) d id
  | Sys (Chdir _) k => start (k 0) d id
  | Sys (Print _ _) k => start (k 0) d id
  | SysPipe k =>
    let d1 := <[lowest d := PipeR id]> d in
    start (k 0 (lowest d) (lowest d1)) (<[lowest d1 := PipeW id]> d1) (S id)
  | SysFork k =>
    let '(l1, id1) := start (k 0) d id in
    let '(l2, id2) := start (k 1) d id1 in
    (l1 ++ l2, id2)
  end.

(** What a command means: where the descriptors of its programs go. *)
Fixpoint launch (c : cmd line) (d : fds) (id : nat) : list (list line * fds) * nat :=
  match c with
  | EXEC [] => ([], id)
  | EXEC argv => ([(argv, d)], id)
  | REDIR c file mode fd => launch c (<[fd := File file mode]> d) id
  | PIPE l r =>
    let '(l1, id1) := launch l (<[1 := PipeW id]> d) (S id) in
    let '(l2, id2) := launch r (<[0 := PipeR id]> d) id1 in
    (l1 ++ l2, id2)
  | LIST l r =>
    let '(l1, id1) := launch l d id in
    let '(l2, id2) := launch r d id1 in
    (l1 ++ l2, id2)
  | BACK c => launch c d id
  end.

(** Exactly the descriptors 0, 1 and 2 are open. *)
Definition three (d : fds) : Prop := ∀ n, is_Some (d !! n) ↔ 0 ≤ n < 3.

Lemma lowest_is d n : 0 ≤ n < 16 → d !! n = None → (∀ m, 0 ≤ m < n → d !! m ≠ None) → lowest d = n.
Proof.
  intros Hn Hd Hlow. unfold lowest.
  assert (list_find (λ m, d !! m = None) (seqZ 0 16) = Some (Z.to_nat n, n)) as ->; [|done]. apply list_find_Some. split; [|split; [done|]].
  - rewrite lookup_seqZ_lt by lia. f_equal. lia.
  - intros j y Hj Hlt. apply lookup_seqZ in Hj as [-> Hj]. apply Hlow. lia.
Qed.

Lemma three_insert d n o : three d → 0 ≤ n < 3 → three (<[n := o]> d).
Proof.
  intros Hd Hn m. destruct (decide (m = n)) as [->|Hne]; [rewrite lookup_insert_eq; split; [done|eauto]|]. rewrite lookup_insert_ne by done. apply Hd.
Qed.

Lemma three_in d n : three d → 0 ≤ n < 3 → d !! n ≠ None.
Proof. intros Hd Hn. apply Hd in Hn as [o Ho]. congruence. Qed.
Lemma three_out d n : three d → 3 ≤ n → d !! n = None.
Proof. intros Hd Hn. destruct (d !! n) eqn:E; [|done]. assert (0 ≤ n < 3) by (apply Hd; eauto). lia. Qed.

(** Closing [n] makes it the lowest free descriptor. *)
Lemma lowest_closed d n : three d → 0 ≤ n < 3 → lowest (delete n d) = n.
Proof.
  intros Hd Hn. apply lowest_is; [lia|apply lookup_delete_eq|]. intros m Hm. rewrite lookup_delete_ne by lia. apply three_in; [done|lia].
Qed.

(** The redirection steps: [close(fd); open(file)] puts the file at [fd]. *)
Lemma insert_closed (d : fds) n o : <[n := o]> (delete n d) = <[n := o]> d.
Proof. apply insert_delete_eq. Qed.

(** The two ends of a new pipe are the descriptors 3 and 4. *)
Lemma lowest_three d : three d → lowest d = 3.
Proof. intros Hd. apply lowest_is; [lia|by apply three_out|]. intros m Hm. by apply three_in. Qed.
Lemma lowest_four d o : three d → lowest (<[3 := o]> d) = 4.
Proof.
  intros Hd. apply lowest_is; [lia|rewrite lookup_insert_ne by lia; apply three_out; [done|lia]|]. intros m Hm. destruct (decide (m = 3)) as [->|]; [by rewrite lookup_insert_eq|].
  rewrite lookup_insert_ne by lia. apply three_in; [done|lia].
Qed.

(** [close(n); dup(p[e]); close(p[0]); close(p[1])] leaves only the wanted end of the pipe,
    at [n]. *)
Definition piped (d : fds) (r w : obj) : fds := <[4 := w]> (<[3 := r]> d).
Lemma piped_3 d r w n : n ≠ 3 → delete n (piped d r w) !! 3 = Some r.
Proof. intros. unfold piped. rewrite lookup_delete_ne, lookup_insert_ne by lia. apply lookup_insert_eq. Qed.
Lemma piped_4 d r w n : n ≠ 4 → delete n (piped d r w) !! 4 = Some w.
Proof. intros. unfold piped. rewrite lookup_delete_ne by lia. apply lookup_insert_eq. Qed.
Lemma lowest_piped d r w n : three d → 0 ≤ n < 3 → lowest (delete n (piped d r w)) = n.
Proof.
  intros Hd Hn. apply lowest_is; [lia|apply lookup_delete_eq|]. intros m Hm. unfold piped. rewrite lookup_delete_ne by lia.
  rewrite !lookup_insert_ne by lia. apply three_in; [done|lia].
Qed.
Lemma piped_end d r w n o :
  three d → 0 ≤ n < 3 → delete 4 (delete 3 (<[n := o]> (delete n (piped d r w)))) = <[n := o]> d.
Proof.
  intros Hd Hn. rewrite insert_closed. apply map_eq. intros m. unfold piped.
  destruct (decide (m = 4)) as [->|]; [rewrite lookup_delete_eq, lookup_insert_ne by lia; symmetry; apply three_out; [done|lia]|].
  rewrite lookup_delete_ne by done. destruct (decide (m = 3)) as [->|]; [rewrite lookup_delete_eq, lookup_insert_ne by lia; symmetry; apply three_out; [done|lia]|].
  rewrite lookup_delete_ne by done. destruct (decide (m = n)) as [->|]; [by rewrite !lookup_insert_eq|]. by rewrite !lookup_insert_ne by done.
Qed.

(** [runcmd] starts the programs of a command with the descriptors the command asks for. *)
Lemma start_runcmd (c : cmd line) (d : fds) (id : nat) :
  cmd_ok c → three d → start (runcmd c) d id = launch c d id.
Proof.
  revert d id. induction c as [argv|c IH f m fd|l IHl r IHr|l IHl r IHr|c IH]; intros d id Hc Hd; cbn [runcmd launch].
  - by destruct argv.
  - destruct Hc as (Hc & _ & Hm). assert (0 ≤ fd < 3) as Hfd by (destruct Hm as [[= -> ->]|[= -> ->]]; lia).
    cbn [start]. rewrite lowest_closed, insert_closed by done. replace (fd <? 0) with false by lia. apply IH; [done|by apply three_insert].
  - destruct Hc as [Hl Hr]. cbn [start fork1]. rewrite (lowest_three d), lowest_four by done. fold (piped d (PipeR id) (PipeW id)).
    cbn [Z.ltb Z.eqb Z.compare start fork1].
    rewrite piped_4, piped_3 by lia.
    rewrite !lowest_piped, !piped_end by (done || lia). rewrite IHl by (done || apply three_insert; done || lia).
    destruct (launch l _ _) as [l1 id1]. rewrite IHr by (done || apply three_insert; done || lia). destruct (launch r _ _). cbn. by rewrite app_nil_r.
  - destruct Hc as [Hl Hr]. cbn [start fork1 Z.eqb]. rewrite IHl by done. destruct (launch l _ _) as [l1 id1]. cbn [Z.eqb start]. by rewrite IHr.
  - cbn [start fork1 Z.eqb]. rewrite IH by done. destruct (launch c _ _). cbn. by rewrite app_nil_r.
Qed.

(** ** The shell *)

(** At most the descriptors 0, 1 and 2 are open, and what [main] makes of them. *)
Definition upto3 (d : fds) : Prop := ∀ n, is_Some (d !! n) → 0 ≤ n < 3.
Definition consoles (console : line) : fds := list_to_map [(0, File console 2); (1, File console 2); (2, File console 2)].
Definition filled (console : line) (d : fds) : fds := d ∪ consoles console.

Lemma consoles_lookup console n :
  consoles console !! n = if decide (0 ≤ n < 3) then Some (File console 2) else None.
Proof.
  destruct (decide _) as [Hn|Hn]; [assert (n = 0 ∨ n = 1 ∨ n = 2) as [->|[->| ->]] by lia; done|].
  apply not_elem_of_list_to_map_1. cbn. rewrite !elem_of_cons, elem_of_nil. intros [->|[->|[->|[]]]]; lia.
Qed.

Lemma filled_three console d : upto3 d → three (filled console d).
Proof.
  intros Hd n. unfold filled. rewrite lookup_union_is_Some, consoles_lookup. split.
  - intros [Hn|Hn]; [by apply Hd|]. destruct (decide _); [done|by destruct Hn].
  - intros Hn. right. rewrite decide_True by done. by eexists.
Qed.

Lemma filled_insert console d n : d !! n = None → 0 ≤ n < 3 → filled console (<[n := File console 2]> d) = filled console d.
Proof.
  intros Hd Hn. apply map_eq. intros m. unfold filled. destruct (decide (m = n)) as [->|Hne].
  - rewrite (lookup_union_Some_l _ _ _ (File console 2)) by apply lookup_insert_eq. rewrite lookup_union_r by done. rewrite consoles_lookup. by rewrite decide_True.
  - rewrite !lookup_union. by rewrite lookup_insert_ne.
Qed.

Lemma filled_id console d : three d → filled console d = d.
Proof.
  intros Hd. apply map_eq. intros n. unfold filled. destruct (d !! n) as [o|] eqn:E; [by apply lookup_union_Some_l|].
  rewrite lookup_union_r, consoles_lookup by done. rewrite decide_False; [done|]. intros Hn. by apply (three_in d n) in Hn.
Qed.

Lemma lowest_spec d : upto3 d → 0 ≤ lowest d ≤ 3 ∧ d !! lowest d = None ∧ ∀ m, 0 ≤ m < lowest d → d !! m ≠ None.
Proof.
  intros Hd. unfold lowest. destruct (list_find _ (seqZ 0 16)) as [[i n]|] eqn:E.
  - apply list_find_Some in E as (Hi & Hn & Hlow). apply lookup_seqZ in Hi as [-> Hi].
    assert (∀ m, 0 ≤ m < Z.of_nat i → d !! m ≠ None) as Hlow'.
    { intros m Hm. apply (Hlow (Z.to_nat m)); [|lia]. rewrite lookup_seqZ_lt by lia. f_equal. lia. }
    split; [|by split]. destruct (decide (i ≤ 3)%nat); [lia|]. destruct (Hlow' 3 ltac:(lia)). destruct (d !! 3) eqn:E3; [|done].
    assert (0 ≤ 3 < 3); [|lia]. apply Hd. by eexists.
  - apply list_find_None in E. rewrite Forall_lookup in E. destruct (E 3%nat 3 ltac:(done)). destruct (d !! 3) eqn:E3; [|done].
    assert (0 ≤ 3 < 3); [|lia]. apply Hd. by eexists.
Qed.

Lemma open_console_spec n console k d id :
  upto3 d → (∀ m, 0 ≤ m < 4 - Z.of_nat n → d !! m ≠ None) → (1 ≤ n)%nat →
  start (open_console n console k) d id = start k (filled console d) id.
Proof.
  revert d. induction n as [|n IH]; intros d Hd Hlow Hn; [lia|]. cbn [open_console start].
  destruct (lowest_spec d Hd) as (Hr & Hnone & Hfull). destruct (Z.leb_spec 0 (lowest d)); [|lia]. destruct (Z.leb_spec 3 (lowest d)) as [H3|H3].
  - assert (lowest d = 3) as E by lia. rewrite E in *. cbn [start]. rewrite delete_insert_id by done. rewrite filled_id; [done|].
    intros m. split; [apply Hd|]. intros Hm. by apply not_eq_None_Some, Hfull.
  - assert (4 - Z.of_nat (S n) ≤ lowest d) by (destruct (Z_le_gt_dec (4 - Z.of_nat (S n)) (lowest d)); [done|destruct (Hlow (lowest d)); [lia|done]]).
    rewrite IH; [by rewrite filled_insert| | |].
    + intros m. destruct (decide (m = lowest d)) as [->|]; [lia|]. rewrite lookup_insert_ne by done. apply Hd.
    + intros m Hm. destruct (decide (m = lowest d)) as [->|]; [by rewrite lookup_insert_eq|]. rewrite lookup_insert_ne by done. apply Hfull. lia.
    + lia.
Qed.

(** What the lines mean: [cd] changes the directory, another line is a command run in a
    child with the shell's descriptors. *)
Definition reads_as (buf : line) (c : option (cmd line)) : Prop :=
  nth 0 buf 0 ≠ 0 ∧
  match c with None => is_cd buf = true | Some c => is_cd buf = false ∧ parsecmd buf = Done c [] ∧ cmd_ok c end.
Fixpoint session (cs : list (option (cmd line))) (d : fds) (id : nat) : list (list line * fds) * nat :=
  match cs with
  | [] => ([], id)
  | None :: cs' => session cs' d id
  | Some c :: cs' =>
    let '(l1, id1) := launch c d id in
    let '(l2, id2) := session cs' d id1 in
    (l1 ++ l2, id2)
  end.

Lemma sh_loop_spec lines cs d id :
  three d → Forall2 reads_as lines cs → start (sh_loop lines) d id = session cs d id.
Proof.
  intros Hd H. revert id. induction H as [|buf c lines cs [Hn Hc] _ IH]; intros id; [done|]. cbn [sh_loop getcmd start].
  destruct (Z.eqb_spec (nth 0 buf 0) 0) as [?|_]; [done|]. destruct c as [c|]; cbn [session].
  - destruct Hc as (-> & E & Hok). cbn [start fork1 Z.eqb]. rewrite E. rewrite start_runcmd by done. destruct (launch c d id) as [l1 id1]. cbn [start Z.eqb]. by rewrite IH.
  - rewrite Hc. cbn [start Z.ltb Z.compare]. apply IH.
Qed.

(** C21: A shell session.  Started with any of the descriptors 0, 1 and 2, the shell opens
    the missing ones on the console, and then each line that parses as a command starts
    exactly the programs of the command: a redirected descriptor is the named file, the
    left side of a pipe has its output and the right side its input in one fresh pipe,
    everything else is the shell's, and no program holds an end of a pipe it does not use.
    [cd] starts nothing. *)
Theorem sh_session (console : line) (lines : list line) (cs : list (option (cmd line))) (d : fds) (id : nat) :
  upto3 d → Forall2 reads_as lines cs →
  start (sh_main console lines) d id = session cs (filled console d) id ∧ three (filled console d).
Proof.
  intros Hd Hl. split; [|by apply filled_three]. unfold sh_main. rewrite open_console_spec; [|done|lia|lia]. apply sh_loop_spec; [by apply filled_three|done].
Qed.

(** No descriptor is open, and the input is ["cd /"] and ["ls;wc"]. *)
Lemma sh_session_witness :
  let d := consoles [67] in
  start (sh_main [67] [[99; 100; 32; 47; 10]; [108; 115; 59; 119; 99; 10]]) ∅ 0 =
    ([([[108; 115]], d); ([[119; 99]], d)], 0%nat).
Proof.
  intros d. pose (cs := [None; Some (LIST (EXEC [[108; 115]]) (EXEC [[119; 99]]))]).
  destruct (sh_session [67] [[99; 100; 32; 47; 10]; [108; 115; 59; 119; 99; 10]] cs ∅ 0) as [H _].
  - intros n [o Ho]. rewrite lookup_empty in Ho. discriminate.
  - unfold cs. repeat apply Forall2_cons_2; [| |apply Forall2_nil_2].
    + split; [discriminate|reflexivity].
    + split; [discriminate|]. split; [reflexivity|]. split; [vm_compute; reflexivity|].
      repeat first [discriminate|reflexivity|split|apply Forall_cons_2|apply Forall_nil_2]; unfold MAXARGS; cbn; lia.
  - rewrite H. unfold filled, cs. rewrite (left_id_L ∅ (∪)). reflexivity.
Defined.
