(* ===== verification/Uthread.v ===== *)
(** uthread.c and uthread.h: user level threads scheduled by SIGALRM, and their
    binary and counting semaphores.  [Module Head] is the HEAD side of the unfinished
    merge; what comes before it is the code outside the conflict markers.

    The library runs in one process.  A library call that hands the CPU to another
    thread does it by sending SIGALRM to itself: the kernel then runs the handler
    [uthread_schedule] on the way out of that system call.  That point is the
    [Switch] of the monad; [uthread_schedule] itself is a state transformer.
    [malloc] and [free] are used through [Malloc]; the answers of [uptime] are an
    arbitrary sequence [clock], one per call. *)
From S2P Require Import Prelude Mem KState Signal.

Definition MAX_UTHREADS : nat := 64.
Abbreviation STACKSIZE := 4096 (only parsing).
Abbreviation UTHREAD_QUANTA := 5 (only parsing).
Definition MAX_BSEM : nat := 128.

Inductive tstate := T_UNUSED | T_SLEEPING | T_RUNNABLE | T_RUNNING.
#[export] Instance tstate_eq : EqDecision tstate.
Proof. solve_decision. Defined.

(** struct counting_semaphore (uthread.h) *)
Record csem := mkCsem { cs_val : Z; cs_s1 : Z; cs_s2 : Z }.

(** struct uthread (uthread.h), with the fields of both sides *)
Record uthread := mkUt {
  ut_tid : Z;  (* thread id *)
  ut_t_stack : Z;  (* pointer to the thread's stack *)
  ut_state : tstate;  (* thread state *)
  ut_tf : trapframe;  (* the trapframe backed up on the user stack *)
  ut_pid : Z;  (* the pid of the process running this thread *)
  ut_numOfJoining : Z;  (* HEAD: number of threads that wait for this one *)
  ut_joiningList : list Z;  (* HEAD: their indexes *)
  ut_joining : Z;  (* d445f14: the tid this thread waits for *)
  ut_wakeup : Z;  (* the time to wake up if sleeping *)
  ut_ind : Z;  (* t_ind / ind: index in u_table *)
}.

(** The memory of a process that uses the library, and what the kernel keeps for it. *)
Record ust (B H : Type) := mkUst {
  u_nexttid : Z;  (* nexttid *)
  u_numOfThreads : Z;  (* numOfThreads *)
  u_current : option nat;  (* current: an index in u_table, or null *)
  u_table : list uthread;  (* u_table *)
  u_currentInd : Z;  (* HEAD: currentInd *)
  u_sems : list (option B);  (* bsemtable / bisemtable: null or a semaphore *)
  u_csems : gmap Z csem;  (* counting semaphores, by address *)
  u_mem : mem;  (* user memory *)
  u_heap : H;  (* malloc's state *)
  u_alarm : Z;  (* ticks to the next SIGALRM, 0 for none *)
  u_pending : bool;  (* SIGALRM pending *)
  u_handler : Z;  (* handler of SIGALRM *)
  u_pid : Z;  (* what getpid returns *)
  u_calls : nat;  (* calls of uptime so far *)
  u_out : list (string * list Z);  (* printf calls, latest first *)
  u_exited : bool;  (* exit was called *)
}.
Arguments mkUst {B H}.
Arguments u_nexttid {B H}.
Arguments u_numOfThreads {B H}.
Arguments u_current {B H}.
Arguments u_table {B H}.
Arguments u_currentInd {B H}.
Arguments u_sems {B H}.
Arguments u_csems {B H}.
Arguments u_mem {B H}.
Arguments u_heap {B H}.
Arguments u_alarm {B H}.
Arguments u_pending {B H}.
Arguments u_handler {B H}.
Arguments u_pid {B H}.
Arguments u_calls {B H}.
Arguments u_out {B H}.
Arguments u_exited {B H}.

Definition set_ut_tid (v : Z) (r : uthread) : uthread :=
  mkUt v (ut_t_stack r) (ut_state r) (ut_tf r) (ut_pid r) (ut_numOfJoining r) (ut_joiningList r)
    (ut_joining r) (ut_wakeup r) (ut_ind r).
Definition set_ut_t_stack (v : Z) (r : uthread) : uthread :=
  mkUt (ut_tid r) v (ut_state r) (ut_tf r) (ut_pid r) (ut_numOfJoining r) (ut_joiningList r)
    (ut_joining r) (ut_wakeup r) (ut_ind r).
Definition set_ut_state (v : tstate) (r : uthread) : uthread :=
  mkUt (ut_tid r) (ut_t_stack r) v (ut_tf r) (ut_pid r) (ut_numOfJoining r) (ut_joiningList r)
    (ut_joining r) (ut_wakeup r) (ut_ind r).
Definition set_ut_tf (v : trapframe) (r : uthread) : uthread :=
  mkUt (ut_tid r) (ut_t_stack r) (ut_state r) v (ut_pid r) (ut_numOfJoining r) (ut_joiningList
    r) (ut_joining r) (ut_wakeup r) (ut_ind r).
Definition set_ut_pid (v : Z) (r : uthread) : uthread :=
  mkUt (ut_tid r) (ut_t_stack r) (ut_state r) (ut_tf r) v (ut_numOfJoining r) (ut_joiningList r)
    (ut_joining r) (ut_wakeup r) (ut_ind r).
Definition set_ut_numOfJoining (v : Z) (r : uthread) : uthread :=
  mkUt (ut_tid r) (ut_t_stack r) (ut_state r) (ut_tf r) (ut_pid r) v (ut_joiningList r)
    (ut_joining r) (ut_wakeup r) (ut_ind r).
Definition set_ut_joiningList (v : list Z) (r : uthread) : uthread :=
  mkUt (ut_tid r) (ut_t_stack r) (ut_state r) (ut_tf r) (ut_pid r) (ut_numOfJoining r) v
    (ut_joining r) (ut_wakeup r) (ut_ind r).
Definition set_ut_joining (v : Z) (r : uthread) : uthread :=
  mkUt (ut_tid r) (ut_t_stack r) (ut_state r) (ut_tf r) (ut_pid r) (ut_numOfJoining r)
    (ut_joiningList r) v (ut_wakeup r) (ut_ind r).
Definition set_ut_wakeup (v : Z) (r : uthread) : uthread :=
  mkUt (ut_tid r) (ut_t_stack r) (ut_state r) (ut_tf r) (ut_pid r) (ut_numOfJoining r)
    (ut_joiningList r) (ut_joining r) v (ut_ind r).
Definition set_ut_ind (v : Z) (r : uthread) : uthread :=
  mkUt (ut_tid r) (ut_t_stack r) (ut_state r) (ut_tf r) (ut_pid r) (ut_numOfJoining r)
    (ut_joiningList r) (ut_joining r) (ut_wakeup r) v.
Definition set_u_nexttid {B H} (v : Z) (r : ust B H) : ust B H :=
  mkUst v (u_numOfThreads r) (u_current r) (u_table r) (u_currentInd r) (u_sems r) (u_csems r)
    (u_mem r) (u_heap r) (u_alarm r) (u_pending r) (u_handler r) (u_pid r) (u_calls r) (u_out r)
    (u_exited r).
Definition set_u_numOfThreads {B H} (v : Z) (r : ust B H) : ust B H :=
  mkUst (u_nexttid r) v (u_current r) (u_table r) (u_currentInd r) (u_sems r) (u_csems r) (u_mem
    r) (u_heap r) (u_alarm r) (u_pending r) (u_handler r) (u_pid r) (u_calls r) (u_out r)
    (u_exited r).
Definition set_u_current {B H} (v : option nat) (r : ust B H) : ust B H :=
  mkUst (u_nexttid r) (u_numOfThreads r) v (u_table r) (u_currentInd r) (u_sems r) (u_csems r)
    (u_mem r) (u_heap r) (u_alarm r) (u_pending r) (u_handler r) (u_pid r) (u_calls r) (u_out r)
    (u_exited r).
Definition set_u_table {B H} (v : list uthread) (r : ust B H) : ust B H :=
  mkUst (u_nexttid r) (u_numOfThreads r) (u_current r) v (u_currentInd r) (u_sems r) (u_csems r)
    (u_mem r) (u_heap r) (u_alarm r) (u_pending r) (u_handler r) (u_pid r) (u_calls r) (u_out r)
    (u_exited r).
Definition set_u_currentInd {B H} (v : Z) (r : ust B H) : ust B H :=
  mkUst (u_nexttid r) (u_numOfThreads r) (u_current r) (u_table r) v (u_sems r) (u_csems r)
    (u_mem r) (u_heap r) (u_alarm r) (u_pending r) (u_handler r) (u_pid r) (u_calls r) (u_out r)
    (u_exited r).
Definition set_u_sems {B H} (v : list (option B)) (r : ust B H) : ust B H :=
  mkUst (u_nexttid r) (u_numOfThreads r) (u_current r) (u_table r) (u_currentInd r) v (u_csems
    r) (u_mem r) (u_heap r) (u_alarm r) (u_pending r) (u_handler r) (u_pid r) (u_calls r) (u_out
    r) (u_exited r).
Definition set_u_csems {B H} (v : gmap Z csem) (r : ust B H) : ust B H :=
  mkUst (u_nexttid r) (u_numOfThreads r) (u_current r) (u_table r) (u_currentInd r) (u_sems r) v
    (u_mem r) (u_heap r) (u_alarm r) (u_pending r) (u_handler r) (u_pid r) (u_calls r) (u_out r)
    (u_exited r).
Definition set_u_mem {B H} (v : mem) (r : ust B H) : ust B H :=
  mkUst (u_nexttid r) (u_numOfThreads r) (u_current r) (u_table r) (u_currentInd r) (u_sems r)
    (u_csems r) v (u_heap r) (u_alarm r) (u_pending r) (u_handler r) (u_pid r) (u_calls r)
    (u_out r) (u_exited r).
Definition set_u_heap {B H} (v : H) (r : ust B H) : ust B H :=
  mkUst (u_nexttid r) (u_numOfThreads r) (u_current r) (u_table r) (u_currentInd r) (u_sems r)
    (u_csems r) (u_mem r) v (u_alarm r) (u_pending r) (u_handler r) (u_pid r) (u_calls r) (u_out
    r) (u_exited r).
Definition set_u_alarm {B H} (v : Z) (r : ust B H) : ust B H :=
  mkUst (u_nexttid r) (u_numOfThreads r) (u_current r) (u_table r) (u_currentInd r) (u_sems r)
    (u_csems r) (u_mem r) (u_heap r) v (u_pending r) (u_handler r) (u_pid r) (u_calls r) (u_out
    r) (u_exited r).
Definition set_u_pending {B H} (v : bool) (r : ust B H) : ust B H :=
  mkUst (u_nexttid r) (u_numOfThreads r) (u_current r) (u_table r) (u_currentInd r) (u_sems r)
    (u_csems r) (u_mem r) (u_heap r) (u_alarm r) v (u_handler r) (u_pid r) (u_calls r) (u_out r)
    (u_exited r).
Definition set_u_handler {B H} (v : Z) (r : ust B H) : ust B H :=
  mkUst (u_nexttid r) (u_numOfThreads r) (u_current r) (u_table r) (u_currentInd r) (u_sems r)
    (u_csems r) (u_mem r) (u_heap r) (u_alarm r) (u_pending r) v (u_pid r) (u_calls r) (u_out r)
    (u_exited r).
Definition set_u_pid {B H} (v : Z) (r : ust B H) : ust B H :=
  mkUst (u_nexttid r) (u_numOfThreads r) (u_current r) (u_table r) (u_currentInd r) (u_sems r)
    (u_csems r) (u_mem r) (u_heap r) (u_alarm r) (u_pending r) (u_handler r) v (u_calls r)
    (u_out r) (u_exited r).
Definition set_u_calls {B H} (v : nat) (r : ust B H) : ust B H :=
  mkUst (u_nexttid r) (u_numOfThreads r) (u_current r) (u_table r) (u_currentInd r) (u_sems r)
    (u_csems r) (u_mem r) (u_heap r) (u_alarm r) (u_pending r) (u_handler r) (u_pid r) v (u_out
    r) (u_exited r).
Definition set_u_out {B H} (v : list (string * list Z)) (r : ust B H) : ust B H :=
  mkUst (u_nexttid r) (u_numOfThreads r) (u_current r) (u_table r) (u_currentInd r) (u_sems r)
    (u_csems r) (u_mem r) (u_heap r) (u_alarm r) (u_pending r) (u_handler r) (u_pid r) (u_calls
    r) v (u_exited r).
Definition set_u_exited {B H} (v : bool) (r : ust B H) : ust B H :=
  mkUst (u_nexttid r) (u_numOfThreads r) (u_current r) (u_table r) (u_currentInd r) (u_sems r)
    (u_csems r) (u_mem r) (u_heap r) (u_alarm r) (u_pending r) (u_handler r) (u_pid r) (u_calls
    r) (u_out r) v.
Ltac uunf := unfold set_u_nexttid, set_u_numOfThreads, set_u_current, set_u_table, set_u_currentInd, set_u_sems, set_u_csems, set_u_mem, set_u_heap, set_u_alarm, set_u_pending, set_u_handler, set_u_pid, set_u_calls, set_u_out, set_u_exited; cbn.

(** * What the library calls *)

Class Malloc (H : Type) := {
  h_malloc : Z → H → Z * H;   (* 0 when there is no room *)
  h_free : Z → H → H;
}.

Section Env.
Context {B H : Type} {MH : Malloc H}.
Abbreviation U := (M (ust B H)).

Definition malloc (n : Z) : U Z := λ s,
  let '(a, h) := h_malloc n (u_heap s) in Done a (set_u_heap h s).
Definition free (a : Z) : U unit := modify (λ s, set_u_heap (h_free a (u_heap s)) s).

Definition getpid : U Z := gets u_pid.
Definition printf (fmt : string) (args : list Z) : U unit :=
  modify (λ s, set_u_out ((fmt, args) :: u_out s) s).

(** [alarm(0)] also takes back a SIGALRM that is pending. *)
Definition alarm (n : Z) : U unit :=
  modify (λ s, set_u_alarm n (if n =? 0 then set_u_pending false s else s)).

Definition signal (handler : Z) : U unit := modify (set_u_handler handler).

(** [sigsend(pid, SIGALRM)]: to the process itself, the handler runs at once. *)
Definition sigsend (pid : Z) : U unit :=
  me <- getpid ;;
  if pid =? me then modify (set_u_pending true) ;;; swtch else ret tt.

(** [exit()]: nothing of this process runs again. *)
Definition exit : U unit := modify (set_u_exited true) ;;; λ s, Switch s (λ _, Spin).

Definition thread (i : nat) : U uthread :=
  o <- gets (λ s, u_table s !! i) ;;
  match o with Some t => ret t | None => panic "u_table: out of bounds" end.
Definition upd_thread (i : nat) (f : uthread → uthread) : U unit :=
  modify (λ s, set_u_table (alter f i (u_table s)) s).

Definition mycur : U nat :=
  o <- gets u_current ;; match o with Some i => ret i | None => panic "current: null" end.
Definition cur : U uthread := i <- mycur ;; thread i.
Definition upd_cur (f : uthread → uthread) : U unit := i <- mycur ;; upd_thread i f.

(** [ut++; if(ut >= &u_table[MAX_UTHREADS]) ut = u_table;] *)
Definition next (i : nat) : nat := if (MAX_UTHREADS <=? S i)%nat then O else S i.

Definition threads : list nat := seq 0 MAX_UTHREADS.

Variable clock : nat → Z.
Definition uptime : U Z :=
  n <- gets u_calls ;; modify (set_u_calls (S n)) ;;; ret (clock n).

(** The marker above the trap frame that the kernel pushed. *)
Fixpoint findTrapframe_loop (fuel : nat) (ans : Z) : U Z :=
  match fuel with
  | O => λ _, Fuel
  | S fuel' =>
    runner <- gets (λ s, load32 (u_mem s) ans) ;;
    if runner =? tfFlag then ret ans else findTrapframe_loop fuel' (u32 (ans + 4))
  end.
Definition findTrapframe (fuel : nat) (sp : Z) : U Z :=
  ans <- findTrapframe_loop fuel sp ;; ret (u32 (ans - Z.of_nat tf_size)).

(** [memmove(&ut->tf, tfAdd, sizeof(struct trapframe))] and back. *)
Definition load_tf (a : Z) : U trapframe := gets (λ s, tf_of_bytes (bytes (u_mem s) a tf_size)).
Definition store_tf (a : Z) (tf : trapframe) : U unit :=
  modify (λ s, set_u_mem (writes (u_mem s) a (tf_bytes tf)) s).

(** [*(void** )a = v] *)
Definition store_word (a v : Z) : U unit := modify (λ s, set_u_mem (store32 (u_mem s) a v) s).

(** The loop of [uthread_schedule], the same on both sides: from [ut] on, the first
    thread that is RUNNABLE or whose sleep is over; stacks of threads that ended
    are freed on the way.  Each round looks at one thread. *)
Definition schedule_visit (ut : nat) : U (option nat) :=
  t <- thread ut ;;
  if decide (ut_state t = T_RUNNABLE) then ret (Some ut)
  else
    due <- (if decide (ut_state t = T_SLEEPING) then
              if 0 <? ut_wakeup t then now <- uptime ;; ret (ut_wakeup t <=? now) else ret false
            else ret false) ;;
    if due : bool then
      upd_thread ut (set_ut_wakeup 0) ;;; upd_thread ut (set_ut_state T_RUNNABLE) ;;; ret (Some ut)
    else
      c <- cur ;;
      when (bool_decide (ut_state t = T_UNUSED) && negb (ut_t_stack t =? 0) &&
            negb (ut_tid t =? ut_tid c) && negb (ut_tid t =? 1))
        (free (ut_t_stack t) ;;; upd_thread ut (set_ut_t_stack 0)) ;;;
      ret None.

Fixpoint schedule_loop (fuel : nat) (ut : nat) : U nat :=
  match fuel with
  | O => λ _, Fuel
  | S fuel' =>
    r <- schedule_visit ut ;;
    match r with Some k => ret k | None => schedule_loop fuel' (next ut) end
  end.

End Env.

(** * The HEAD side *)

(** struct bsem (uthread.h); [bs_self] is where it was allocated, [bs_listp] where
    its array of waiting threads was. *)
Record bsem := mkBsem {
  bs_self : Z;
  bs_s : Z;
  bs_insert : Z;
  bs_toOut : Z;
  bs_size : Z;
  bs_num : Z;  (* numOfWatingThreads *)
  bs_listp : Z;
  bs_list : list (option nat);  (* void** list: threads, as indexes of u_table *)
}.

Module Head.
Section Head.
Context {H : Type} {MH : Malloc H}.
Abbreviation U := (M (ust bsem H)).
(** The addresses of the two functions the library hands out. *)
Variables schedule_addr exit_addr : Z.
Variable clock : nat → Z.

Definition uthread_init : U Z :=
  for_each threads (λ i, upd_thread i (set_ut_state T_UNUSED)) ;;;
  tid <- gets u_nexttid ;;
  modify (set_u_nexttid (u32 (tid + 1))) ;;;
  upd_thread 0 (set_ut_tid tid) ;;;
  pid <- getpid ;;
  upd_thread 0 (set_ut_pid pid) ;;;
  upd_thread 0 (set_ut_state T_RUNNING) ;;;
  upd_thread 0 (set_ut_t_stack 0) ;;;
  modify (λ s, set_u_numOfThreads (s32 (u_numOfThreads s + 1)) s) ;;;
  modify (set_u_current (Some 0%nat)) ;;;
  modify (set_u_currentInd 0) ;;;
  upd_thread 0 (set_ut_ind 0) ;;;
  for_each (seq 0 MAX_BSEM) (λ j, modify (λ s, set_u_sems (<[j := None]> (u_sems s)) s)) ;;;
  signal schedule_addr ;;;
  sigsend pid ;;;
  t <- thread 0 ;;
  ret (ut_tid t).

Definition find_unused : U (option nat) :=
  for_break threads (λ i, t <- thread i ;; ret (if decide (ut_state t = T_UNUSED) then Some i else None)).

(** The end of [uthread_create]: the new thread's stack and registers. *)
Definition create_frame (ut : nat) (start_func arg : Z) : U Z :=
  t <- thread ut ;;
  let sp := u32 (ut_t_stack t + STACKSIZE) in
  let sp := u32 (sp - 4) in
  store_word sp arg ;;;
  let sp := u32 (sp - 4) in
  store_word sp exit_addr ;;;
  upd_thread ut (λ t, set_ut_tf (set_tf_esp sp (ut_tf t)) t) ;;;
  upd_thread ut (λ t, set_ut_tf (set_tf_eip start_func (ut_tf t)) t) ;;;
  upd_thread ut (set_ut_state T_RUNNABLE) ;;;
  alarm UTHREAD_QUANTA ;;;
  t <- thread ut ;;
  ret (ut_tid t).

Definition uthread_create (start_func arg : Z) : U Z :=
  alarm 0 ;;;
  n <- gets u_nexttid ;;
  printf "creating threads num%d\n" [n] ;;;
  o <- find_unused ;;
  match o with
  | None => ret (-1)
  | Some ut =>
    modify (λ s, set_u_numOfThreads (s32 (u_numOfThreads s + 1)) s) ;;;
    tid <- gets u_nexttid ;;
    modify (set_u_nexttid (u32 (tid + 1))) ;;;
    upd_thread ut (set_ut_tid tid) ;;;
    pid <- getpid ;;
    upd_thread ut (set_ut_pid pid) ;;;
    c <- cur ;;
    upd_thread ut (set_ut_tf (ut_tf c)) ;;;
    upd_thread ut (set_ut_ind (Z.of_nat ut)) ;;;
    upd_thread ut (set_ut_numOfJoining 0) ;;;
    t <- thread ut ;;
    ok <- (if ut_t_stack t =? 0 then
             a <- malloc STACKSIZE ;;
             upd_thread ut (set_ut_t_stack a) ;;;
             ret (negb (a =? 0))
           else ret true) ;;
    if ok : bool then create_frame ut start_func arg
    else
      upd_thread ut (set_ut_state T_UNUSED) ;;;
      c <- cur ;;
      sigsend (ut_pid c) ;;;
      ret (-1)
  end.

(** The handler of SIGALRM; [sp] is its frame pointer. *)
Definition uthread_schedule (fuel : nat) (sp : Z) : U unit :=
  alarm 0 ;;;
  ut <- mycur ;;
  tfAdd <- findTrapframe fuel sp ;;
  tf <- load_tf tfAdd ;;
  upd_thread ut (set_ut_tf tf) ;;;
  t <- thread ut ;;
  when (bool_decide (ut_state t = T_RUNNING)) (upd_thread ut (set_ut_state T_RUNNABLE)) ;;;
  k <- schedule_loop clock fuel (next ut) ;;
  t <- thread k ;;
  store_tf tfAdd (ut_tf t) ;;;
  modify (set_u_current (Some k)) ;;;
  modify (set_u_currentInd (ut_ind t)) ;;;
  upd_thread k (set_ut_state T_RUNNING) ;;;
  alarm UTHREAD_QUANTA.

Definition uthread_exit : U unit :=
  alarm 0 ;;;
  modify (λ s, set_u_numOfThreads (s32 (u_numOfThreads s - 1)) s) ;;;
  n <- gets u_numOfThreads ;;
  when (n <=? 0) (
    for_each threads (λ i,
      t <- thread i ;;
      when (negb (ut_t_stack t =? 0)) (free (ut_t_stack t) ;;; upd_thread i (set_ut_t_stack 0))) ;;;
    exit) ;;;
  c <- cur ;;
  for_each (seq 0 (Z.to_nat (ut_numOfJoining c))) (λ j,
    c <- cur ;;
    match ut_joiningList c !! j with
    | None => panic "joiningList: out of bounds"
    | Some indToWakup =>
      _ <- thread (Z.to_nat indToWakup) ;; upd_thread (Z.to_nat indToWakup) (set_ut_state T_RUNNABLE)
    end) ;;;
  upd_cur (set_ut_state T_UNUSED) ;;;
  pid <- getpid ;;
  sigsend pid.

Definition uthread_self : U Z := c <- cur ;; ret (ut_tid c).

Definition uthread_join (tid : Z) : U Z :=
  alarm 0 ;;;
  r <- for_break threads (λ i,
    t <- thread i ;;
    if (ut_tid t =? u32 tid) && negb (bool_decide (ut_state t = T_UNUSED)) then
      c <- cur ;;
      (if ut_numOfJoining t <? Z.of_nat MAX_UTHREADS
       then upd_thread i (λ t, set_ut_joiningList
              (<[Z.to_nat (ut_numOfJoining t) := ut_ind c]> (ut_joiningList t)) t)
       else panic "joiningList: out of bounds") ;;;
      upd_thread i (λ t, set_ut_numOfJoining (u32 (ut_numOfJoining t + 1)) t) ;;;
      upd_cur (set_ut_state T_SLEEPING) ;;;
      c <- cur ;;
      sigsend (ut_pid c) ;;;
      ret (Some 0)
    else ret None) ;;
  match r with
  | Some v => ret v
  | None => alarm UTHREAD_QUANTA ;;; ret (-1)
  end.

Definition uthread_sleep (ticks : Z) : U Z :=
  alarm 0 ;;;
  current_ticks <- uptime clock ;;
  if ticks <? 0 then c <- cur ;; sigsend (ut_pid c) ;;; ret (-1)
  else
    (if ticks =? 0 then upd_cur (set_ut_wakeup 0)
     else upd_cur (set_ut_wakeup (s32 (ticks + current_ticks)))) ;;;
    upd_cur (set_ut_state T_SLEEPING) ;;;
    c <- cur ;;
    sigsend (ut_pid c) ;;;
    ret 0.

(** ** Binary semaphores *)

(** [bsemtable[i]]: reading outside the table, and following a null entry, are
    undefined. *)
Definition slot (i : Z) : U (option bsem) :=
  o <- gets (λ s, if (0 <=? i) && (i <? Z.of_nat MAX_BSEM) then u_sems s !! Z.to_nat i else None) ;;
  match o with Some e => ret e | None => panic "bsemtable: out of bounds" end.
Definition set_slot (i : Z) (e : option bsem) : U unit :=
  _ <- slot i ;; modify (λ s, set_u_sems (<[Z.to_nat i := e]> (u_sems s)) s).
Definition sem_at (i : Z) : U bsem :=
  o <- slot i ;; match o with Some b => ret b | None => panic "bsemtable: null" end.

Definition findNextDecriptor : U Z :=
  r <- for_break (seq 1 MAX_BSEM) (λ i,
    e <- slot (Z.of_nat i) ;; ret (match e with None => Some (Z.of_nat i) | Some _ => None end)) ;;
  ret (match r with Some i => i | None => -1 end).

Definition new_bsem (self : Z) : bsem := mkBsem self 1 0 0 (Z.of_nat MAX_UTHREADS) 0 0 [].

Definition bsem_alloc : U Z :=
  desc <- findNextDecriptor ;;
  a <- malloc 24 ;;
  _ <- slot desc ;;
  (if a =? 0 then panic "bsemtable: null" else ret tt) ;;;
  l <- malloc (4 * Z.of_nat MAX_UTHREADS) ;;
  let b := new_bsem a in
  set_slot desc (Some (mkBsem a (bs_s b) (bs_insert b) (bs_toOut b) (bs_size b) (bs_num b) l
    (if l =? 0 then [] else replicate MAX_UTHREADS None))) ;;;
  ret (if l =? 0 then 0 else desc).

Definition bsem_free (sem : Z) : U unit :=
  o <- slot sem ;;
  match o with
  | None => ret tt
  | Some b =>
    when (negb (bs_listp b =? 0)) (free (bs_listp b)) ;;;
    free (bs_self b) ;;;
    set_slot sem None
  end.

(** The fields [bsem_down] and [bsem_up] assign. *)
Definition take_sem (b : bsem) : bsem :=
  mkBsem (bs_self b) 0 (bs_insert b) (bs_toOut b) (bs_size b) (bs_num b) (bs_listp b) (bs_list b).
Definition give_sem (b : bsem) : bsem :=
  mkBsem (bs_self b) 1 (bs_insert b) (bs_toOut b) (bs_size b) (bs_num b) (bs_listp b) (bs_list b).
Definition enqueue (i : nat) (b : bsem) : bsem :=
  mkBsem (bs_self b) (bs_s b) (Z.rem (bs_insert b + 1) (Z.of_nat MAX_UTHREADS)) (bs_toOut b) (bs_size b)
    (s32 (bs_num b + 1)) (bs_listp b) (<[Z.to_nat (bs_insert b) := Some i]> (bs_list b)).
Definition dequeue (b : bsem) : bsem :=
  mkBsem (bs_self b) (bs_s b) (bs_insert b) (Z.rem (bs_toOut b + 1) (Z.of_nat MAX_UTHREADS)) (bs_size b)
    (s32 (bs_num b - 1)) (bs_listp b) (<[Z.to_nat (bs_toOut b) := None]> (bs_list b)).

Definition bsem_down (sem : Z) : U unit :=
  alarm 0 ;;;
  b <- sem_at sem ;;
  if negb (bs_s b =? 0) then set_slot sem (Some (take_sem b)) ;;; alarm UTHREAD_QUANTA
  else
    i <- mycur ;;
    (if bs_listp b =? 0 then panic "list: null" else ret tt) ;;;
    set_slot sem (Some (enqueue i b)) ;;;
    _ <- uthread_sleep 0 ;;
    ret tt.

Definition bsem_up (sem : Z) : U unit :=
  alarm 0 ;;;
  b <- sem_at sem ;;
  if (bs_num b =? 0) && (bs_s b =? 1) then ret tt
  else if (bs_num b =? 0) && (bs_s b =? 0) then set_slot sem (Some (give_sem b)) ;;; alarm UTHREAD_QUANTA
  else
    (if bs_listp b =? 0 then panic "list: null" else ret tt) ;;;
    match bs_list b !! Z.to_nat (bs_toOut b) with
    | Some (Some ut) =>
      set_slot sem (Some (dequeue b)) ;;;
      _ <- thread ut ;;
      upd_thread ut (set_ut_state T_RUNNABLE) ;;;
      alarm UTHREAD_QUANTA
    | _ => panic "list: null"
    end.

(** ** Counting semaphores *)

Definition csem_at (a : Z) : U csem :=
  o <- gets (λ s, u_csems s !! a) ;; match o with Some c => ret c | None => panic "csem" end.
Definition set_val (a v : Z) : U unit :=
  c <- csem_at a ;; modify (λ s, set_u_csems (<[a := mkCsem v (cs_s1 c) (cs_s2 c)]> (u_csems s)) s).

Definition csem_alloc (init_val : Z) : U Z :=
  sem <- malloc 12 ;;
  if sem =? 0 then ret 0
  else
    s1 <- bsem_alloc ;;
    s2 <- bsem_alloc ;;
    when (init_val <? 1) (bsem_down s2) ;;;
    modify (λ s, set_u_csems (<[sem := mkCsem init_val s1 s2]> (u_csems s)) s) ;;;
    ret sem.

Definition csem_free (sem : Z) : U unit :=
  c <- csem_at sem ;;
  bsem_free (cs_s1 c) ;;;
  bsem_free (cs_s2 c) ;;;
  free sem ;;;
  modify (λ s, set_u_csems (delete sem (u_csems s)) s).

Definition down (sem : Z) : U unit :=
  c <- csem_at sem ;;
  bsem_down (cs_s2 c) ;;;
  bsem_down (cs_s1 c) ;;;
  c <- csem_at sem ;;
  set_val sem (s32 (cs_val c - 1)) ;;;
  c <- csem_at sem ;;
  when (0 <? cs_val c) (bsem_up (cs_s2 c)) ;;;
  bsem_up (cs_s1 c).

Definition up (sem : Z) : U unit :=
  c <- csem_at sem ;;
  bsem_down (cs_s1 c) ;;;
  c <- csem_at sem ;;
  set_val sem (s32 (cs_val c + 1)) ;;;
  c <- csem_at sem ;;
  when (cs_val c =? 1) (bsem_up (cs_s2 c)) ;;;
  bsem_up (cs_s1 c).

End Head.
End Head.

Arguments alarm : simpl never.
Arguments upd_thread : simpl never.
Arguments thread : simpl never.
Arguments schedule_visit : simpl never.
Arguments next : simpl never.

(** * Scheduling *)
Section Schedule.
Context {B H : Type} {MH : Malloc H}.
Variable clock : nat → Z.
Implicit Types s : ust B H.
Implicit Types t : uthread.

Lemma thread_eq i t s : u_table s !! i = Some t → thread i s = Done t s.
Proof. intros E. unfold thread. mstep. by rewrite E. Qed.

Lemma mycur_eq i s : u_current s = Some i → mycur s = Done i s.
Proof. intros E. unfold mycur. mstep. by rewrite E. Qed.

Lemma cur_thread i t s : u_current s = Some i → u_table s !! i = Some t → cur s = Done t s.
Proof. intros E Ht. unfold cur. mstep. rewrite (mycur_eq i) by done. mstep. by apply thread_eq. Qed.

(** The table with [t] in slot [i]. *)
Definition with_thread (i : nat) t s : ust B H := set_u_table (<[i := t]> (u_table s)) s.

Lemma upd_thread_eq i f t s :
  u_table s !! i = Some t → upd_thread i f s = Done tt (with_thread i (f t) s).
Proof.
  intros E. unfold upd_thread, with_thread. mstep. do 2 f_equal. apply list_eq. intros j.
  destruct (decide (j = i)) as [->|].
  - rewrite list_lookup_alter_eq, E, list_lookup_insert_eq; [done|by eapply lookup_lt_Some].
  - by rewrite list_lookup_alter_ne, list_lookup_insert_ne.
Qed.

Lemma with_thread_at i t t' s : u_table s !! i = Some t → u_table (with_thread i t' s) !! i = Some t'.
Proof. intros E. cbn. rewrite list_lookup_insert_eq; [done|by eapply lookup_lt_Some]. Qed.
Lemma with_thread_ne i j t s : i ≠ j → u_table (with_thread i t s) !! j = u_table s !! j.
Proof. intros. cbn. by rewrite list_lookup_insert_ne. Qed.
Lemma with_thread_twice i t t' s : with_thread i t (with_thread i t' s) = with_thread i t s.
Proof. unfold with_thread. uunf. by rewrite list_insert_insert_eq. Qed.

Definition woken t : uthread := set_ut_state T_RUNNABLE (set_ut_wakeup 0 t).
Definition due t : Prop := ut_state t = T_SLEEPING ∧ 0 < ut_wakeup t.

(** What a round of the loop leaves of a thread it passes over. *)
Definition passed t t' : Prop := t' = t ∨ ut_state t = T_UNUSED ∧ t' = set_ut_t_stack 0 t.

(** [s'] differs from [s] only in the table, the heap and the count of clock reads. *)
Definition same_but_table s s' : Prop :=
  ∃ T h n, s' = set_u_table T (set_u_heap h (set_u_calls n s)).

Lemma same_but_table_refl s : same_but_table s s.
Proof. exists (u_table s), (u_heap s), (u_calls s). by destruct s. Qed.
Lemma same_but_table_trans s1 s2 s3 : same_but_table s1 s2 → same_but_table s2 s3 → same_but_table s1 s3.
Proof. intros (T & h & n & ->) (T' & h' & n' & ->). by exists T', h', n'. Qed.

Lemma schedule_visit_spec ut c t tc s :
  u_table s !! ut = Some t → u_current s = Some c → u_table s !! c = Some tc →
  ∃ r s', schedule_visit clock ut s = Done r s' ∧ same_but_table s s' ∧
    (∀ j, j ≠ ut → u_table s' !! j = u_table s !! j) ∧
    ∃ t', u_table s' !! ut = Some t' ∧
      match r with
      | Some k => k = ut ∧ (ut_state t = T_RUNNABLE ∧ t' = t ∨ due t ∧ t' = woken t)
      | None => ut_state t ≠ T_RUNNABLE ∧ passed t t'
      end.
Proof.
  intros Ht Hc Htc. unfold schedule_visit. mstep. rewrite (thread_eq ut t) by done. mstep.
  destruct (decide (ut_state t = T_RUNNABLE)) as [Hr|Hr].
  { eexists _, s. split; [done|]. split; [apply same_but_table_refl|]. split; [done|]. eauto 10. }
  (* the clock is read only for a sleeping thread with a wake-up time *)
  assert (Hpass : ∀ n, ∃ r s', (c0 <- cur ;;
      when (bool_decide (ut_state t = T_UNUSED) && negb (ut_t_stack t =? 0) &&
            negb (ut_tid t =? ut_tid c0) && negb (ut_tid t =? 1))
        (free (ut_t_stack t) ;;; upd_thread ut (set_ut_t_stack 0)) ;;; ret None) (set_u_calls n s)
      = Done r s' ∧ same_but_table s s' ∧ (∀ j, j ≠ ut → u_table s' !! j = u_table s !! j) ∧
      ∃ t', u_table s' !! ut = Some t' ∧ match r with
        | Some k => k = ut ∧ (ut_state t = T_RUNNABLE ∧ t' = t ∨ due t ∧ t' = woken t)
        | None => ut_state t ≠ T_RUNNABLE ∧ passed t t' end).
  { intros n. mstep. rewrite (cur_thread c tc) by done. mstep.
    destruct (bool_decide_reflect (ut_state t = T_UNUSED)) as [Hu|]; cbn [andb when]; mstep;
      [|eexists _, _; split; [done|]; split; [by exists (u_table s), (u_heap s), n; destruct s|];
        split; [done|]; exists t; split; [done|]; split; [done|by left]].
    destruct (negb (ut_t_stack t =? 0) && negb (ut_tid t =? ut_tid tc) && negb (ut_tid t =? 1));
      cbn [when]; mstep.
    - unfold free. mstep. rewrite (upd_thread_eq ut _ t) by done. mstep. eexists _, _. split; [done|].
      split; [by eexists _, _, n|]. split; [intros j Hj; by rewrite with_thread_ne|].
      eexists. split; [by eapply (with_thread_at ut t)|]. split; [done|]. by right.
    - eexists _, _. split; [done|]. split; [by exists (u_table s), (u_heap s), n; destruct s|].
      split; [done|]. exists t. split; [done|]. split; [done|by left]. }
  assert (Hid : set_u_calls (u_calls s) s = s) by (by destruct s).
  pose proof (Hpass (u_calls s)) as Hpass0. rewrite Hid in Hpass0.
  destruct (decide (ut_state t = T_SLEEPING)) as [Hs|Hs];
    [|exact Hpass0].
  destruct (Z.ltb_spec 0 (ut_wakeup t)) as [Hw|Hw];
    [|exact Hpass0].
  unfold uptime. mstep. destruct (ut_wakeup t <=? clock (u_calls s)).
  - mstep. rewrite (upd_thread_eq ut _ t) by done. mstep.
    erewrite (upd_thread_eq ut _ (set_ut_wakeup 0 t)); [|by eapply (with_thread_at ut t)]. mstep.
    rewrite with_thread_twice. eexists _, _. split; [done|].
    split; [by exists (<[ut := woken t]> (u_table s)), (u_heap s), (S (u_calls s)); destruct s|].
    split; [intros j Hj; by rewrite with_thread_ne|]. eexists. split; [by eapply (with_thread_at ut t)|].
    split; [done|]. by right.
  - apply (Hpass (S (u_calls s))).
Qed.

(** [e] places after [i] in the table, around its end. *)
Definition cyc (i e : nat) : nat := (i + e) `mod` MAX_UTHREADS.

Lemma cyc_lt i e : (cyc i e < MAX_UTHREADS)%nat.
Proof. apply Nat.mod_upper_bound. done. Qed.
Lemma cyc_0 i : (i < MAX_UTHREADS)%nat → cyc i 0 = i.
Proof. intros. unfold cyc. rewrite Nat.add_0_r. by apply Nat.mod_small. Qed.
Lemma cyc_next i e : (i < MAX_UTHREADS)%nat → cyc (next i) e = cyc i (S e).
Proof.
  intros Hi. unfold next, cyc. destruct (Nat.leb_spec MAX_UTHREADS (S i)).
  - replace (i + S e)%nat with (0 + e + 1 * MAX_UTHREADS)%nat by lia. by rewrite Nat.Div0.mod_add.
  - f_equal. lia.
Qed.
Lemma next_lt i : (i < MAX_UTHREADS)%nat → (next i < MAX_UTHREADS)%nat.
Proof. unfold next. destruct (Nat.leb_spec MAX_UTHREADS (S i)); unfold MAX_UTHREADS in *; lia. Qed.
Lemma cyc_onto i j : (i < MAX_UTHREADS)%nat → (j < MAX_UTHREADS)%nat →
  ∃ d, (d < MAX_UTHREADS)%nat ∧ cyc i d = j.
Proof.
  intros Hi Hj. unfold cyc. destruct (decide (i ≤ j)%nat).
  - exists (j - i)%nat. split; [lia|]. replace (i + (j - i))%nat with j by lia. by apply Nat.mod_small.
  - exists (j + MAX_UTHREADS - i)%nat. split; [lia|].
    replace (i + (j + MAX_UTHREADS - i))%nat with (j + 1 * MAX_UTHREADS)%nat by lia.
    rewrite Nat.Div0.mod_add. by apply Nat.mod_small.
Qed.
Lemma cyc_inj i d e : (d < MAX_UTHREADS)%nat → (e < MAX_UTHREADS)%nat → cyc i d = cyc i e → d = e.
Proof.
  unfold cyc, MAX_UTHREADS. intros Hd He E.
  pose proof (Nat.div_mod_eq (i + d) 64). pose proof (Nat.div_mod_eq (i + e) 64). lia.
Qed.

(** What the scan leaves of the table, given which thread [k] it stopped at. *)
Definition scanned (k : nat) s s' : Prop :=
  same_but_table s s' ∧
  (∀ j t, u_table s !! j = Some t → ∃ t', u_table s' !! j = Some t' ∧
    if decide (j = k) then ut_state t = T_RUNNABLE ∧ t' = t ∨ due t ∧ t' = woken t else passed t t') ∧
  (∀ j, u_table s !! j = None → u_table s' !! j = None).

Lemma passed_trans t1 t2 t3 : passed t1 t2 → passed t2 t3 → passed t1 t3.
Proof.
  intros [->|[Hu ->]] [->|[Hu' ->]]; [by left|by right|by right|]. by right.
Qed.

(** The loop ends: from [i] it needs at most one round more than the distance to a
    RUNNABLE thread, and no RUNNABLE thread lies before the one it stops at. *)
Lemma schedule_loop_spec d i c j t tc fuel s :
  (i < MAX_UTHREADS)%nat → length (u_table s) = MAX_UTHREADS →
  u_current s = Some c → u_table s !! c = Some tc →
  cyc i d = j → u_table s !! j = Some t → ut_state t = T_RUNNABLE → (d < fuel)%nat →
  ∃ e s', (e ≤ d)%nat ∧ schedule_loop clock fuel i s = Done (cyc i e) s' ∧ scanned (cyc i e) s s' ∧
    ∀ e' t', (e' < e)%nat → u_table s !! cyc i e' = Some t' → ut_state t' ≠ T_RUNNABLE.
Proof.
  revert i tc fuel s. induction d as [|d IH]; intros i tc [|fuel] s Hi Hlen Hc Htc Hj Ht Hr Hf;
    try lia; cbn [schedule_loop]; mstep;
    (destruct (lookup_lt_is_Some_2 (u_table s) i) as [ti Hti]; [lia|]);
    destruct (schedule_visit_spec i c ti tc s) as (r & s1 & -> & Hsb & Hne & t1 & Ht1 & Hm); try done; mstep.
  - rewrite cyc_0 in Hj by done. subst j. rewrite Ht in Hti. injection Hti as <-.
    destruct r as [k|]; [|by destruct Hm]. destruct Hm as [-> Hm]. mstep.
    exists O, s1. split; [lia|]. rewrite cyc_0 by done. split; [done|]. split; [|lia].
    split; [done|]. split.
    + intros j t' Ht'. destruct (decide (j = i)) as [->|]; [|rewrite Hne by done; exists t'; split; [done|by left]].
      rewrite Ht in Ht'. injection Ht' as <-. eauto.
    + intros j Hj. destruct (decide (j = i)) as [->|]; [congruence|by rewrite Hne].
  - destruct r as [k|].
    + destruct Hm as [-> Hm]. mstep. exists O, s1. split; [lia|]. rewrite cyc_0 by done.
      split; [done|]. split; [|lia]. split; [done|]. split.
      * intros j' t' Ht'. destruct (decide (j' = i)) as [->|]; [|rewrite Hne by done; exists t'; split; [done|by left]].
        rewrite Hti in Ht'. injection Ht' as <-. eauto.
      * intros j' Hj'. destruct (decide (j' = i)) as [->|]; [congruence|by rewrite Hne].
    + destruct Hm as [Hnr Hp].
      assert (Hji : j ≠ i) by (intros ->; congruence).
      assert (Hc1 : u_current s1 = Some c) by (destruct Hsb as (? & ? & ? & ->); done).
      assert (∃ tc1, u_table s1 !! c = Some tc1) as [tc1 Htc1].
      { destruct (decide (c = i)) as [->|]; [eauto|]. rewrite Hne by done. eauto. }
      assert (Hlen1 : length (u_table s1) = MAX_UTHREADS).
      { rewrite <- Hlen. apply Nat.le_antisymm; apply Nat.nlt_ge; intros Hlt.
        - apply lookup_lt_is_Some_2 in Hlt as [x Hx].
          destruct (decide (length (u_table s) = i)) as [E|]; [lia|]. rewrite Hne in Hx by done.
          apply lookup_lt_Some in Hx. lia.
        - destruct (lookup_lt_is_Some_2 (u_table s) (length (u_table s1)) Hlt) as [x Hx].
          destruct (decide (length (u_table s1) = i)) as [E|].
          + rewrite <- E in Ht1. apply lookup_lt_Some in Ht1. lia.
          + rewrite <- Hne in Hx by done. apply lookup_lt_Some in Hx. lia. }
      destruct (IH (next i) tc1 fuel s1) as (e & s2 & He & Hl & (Hsb2 & Hs2 & Hn2) & Hbefore);
        [by apply next_lt|done|done|done|by rewrite cyc_next|by rewrite Hne|done|lia|].
      rewrite cyc_next in * by done.
      exists (S e), s2. split; [lia|]. split; [done|].
      split; [split; [by eapply same_but_table_trans|]; split|].
      * intros j' t' Ht'. destruct (decide (j' = i)) as [->|Hj'].
        -- rewrite Hti in Ht'. injection Ht' as <-. destruct (Hs2 i t1 Ht1) as (t2 & Ht2 & Hm).
           exists t2. split; [done|]. destruct (decide (i = cyc i (S e))) as [E|].
           ++ destruct Hp as [->|[Hu ->]]; [done|]. destruct Hm as [[Hm _]|[[Hm _] _]]; cbn in Hm; congruence.
           ++ by eapply passed_trans.
        -- rewrite <- Hne in Ht' by done. by apply Hs2.
      * intros j' Hj'. apply Hn2. destruct (decide (j' = i)) as [->|]; [congruence|by rewrite Hne].
      * intros [|e'] t' He' Ht'.
        -- rewrite cyc_0, Hti in Ht' by done. injection Ht' as <-. done.
        -- destruct (decide (cyc i (S e') = i)) as [E|E].
           ++ rewrite E, Hti in Ht'. injection Ht' as <-. done.
           ++ apply (Hbefore e'); [lia|]. rewrite cyc_next by done. by rewrite Hne.
Qed.

End Schedule.

Section RoundRobin.
Context {H : Type} {MH : Malloc H}.
Variable clock : nat → Z.
Implicit Types s : ust bsem H.
Implicit Types t : uthread.

(** The marker is the [n]-th word from [sp] up, and the saved frame, at [a], lies
    just below it: the layout in which the kernel delivers a signal. *)
Definition frame_at (m : mem) (sp : Z) (n : nat) (a : Z) : Prop :=
  0 ≤ sp ∧ sp + 4 * Z.of_nat n < 2^32 ∧ a = u32 (sp + 4 * Z.of_nat n - Z.of_nat tf_size) ∧
  load32 m (sp + 4 * Z.of_nat n) = tfFlag ∧ ∀ k, (k < n)%nat → load32 m (sp + 4 * Z.of_nat k) ≠ tfFlag.

Lemma findTrapframe_eq sp n a fuel s :
  frame_at (u_mem s) sp n a → (n < fuel)%nat → findTrapframe fuel sp s = Done a s.
Proof.
  intros (H0 & Hn & -> & Hf & Hk) Hlt. unfold findTrapframe. mstep.
  enough (Hl : findTrapframe_loop fuel sp s = Done (sp + 4 * Z.of_nat n) s) by (rewrite Hl; done).
  clear -H0 Hn Hf Hk Hlt. revert sp fuel H0 Hn Hf Hk Hlt.
  induction n as [|n IH]; intros sp [|fuel] H0 Hn Hf Hk Hlt; try lia; cbn [findTrapframe_loop]; mstep.
  - rewrite Z.mul_0_r, Z.add_0_r in *. rewrite Hf, Z.eqb_refl. mstep. done.
  - destruct (Z.eqb_spec (load32 (u_mem s) sp) tfFlag) as [E|E].
    { destruct (Hk O); [lia|]. by rewrite Z.mul_0_r, Z.add_0_r. }
    rewrite u32_id by lia. rewrite IH.
    + f_equal. lia.
    + lia.
    + lia.
    + rewrite <- Hf. f_equal. lia.
    + intros k Hkn. replace (sp + 4 + 4 * Z.of_nat k) with (sp + 4 * Z.of_nat (S k)) by lia. apply Hk. lia.
    + lia.
Qed.

(** The thread that was interrupted, with its frame saved. *)
Definition saved (tf : trapframe) t : uthread :=
  let t := set_ut_tf tf t in if decide (ut_state t = T_RUNNING) then set_ut_state T_RUNNABLE t else t.

(** What becomes of the thread that is picked: RUNNING, no longer waiting for a time,
    and otherwise as it was. *)
Definition picked t : uthread :=
  set_ut_state T_RUNNING (if decide (ut_state t = T_SLEEPING) then set_ut_wakeup 0 t else t).

Lemma uthread_schedule_eq c tc sp n a fuel s :
  length (u_table s) = MAX_UTHREADS → u_current s = Some c → u_table s !! c = Some tc →
  frame_at (u_mem s) sp n a → (n < fuel)%nat → (MAX_UTHREADS ≤ fuel)%nat →
  let T := <[c := saved (tf_of_bytes (bytes (u_mem s) a tf_size)) tc]> (u_table s) in
  (∃ j t, T !! j = Some t ∧ ut_state t = T_RUNNABLE) →
  ∃ e tk s', (0 < e ≤ MAX_UTHREADS)%nat ∧ Head.uthread_schedule clock fuel sp s = Done tt s' ∧
    u_current s' = Some (cyc c e) ∧ T !! cyc c e = Some tk ∧ (ut_state tk = T_RUNNABLE ∨ due tk) ∧
    (∀ e' t, (0 < e' < e)%nat → T !! cyc c e' = Some t → ut_state t ≠ T_RUNNABLE) ∧
    u_mem s' = writes (u_mem s) a (tf_bytes (ut_tf tk)) ∧ u_alarm s' = UTHREAD_QUANTA ∧
    u_currentInd s' = ut_ind tk ∧
    u_table s' !! cyc c e = Some (picked tk) ∧
    (∀ j t, j ≠ cyc c e → T !! j = Some t → ∃ t', u_table s' !! j = Some t' ∧ passed t t') ∧
    length (u_table s') = MAX_UTHREADS.
Proof.
  intros Hlen Hc Htc Hfr Hn Hfuel T (j & t & Hj & Hr).
  pose proof (lookup_lt_Some _ _ _ Htc) as Hclt. rewrite Hlen in Hclt.
  set (tf := tf_of_bytes (bytes (u_mem s) a tf_size)) in *.
  set (s0 := set_u_table T (set_u_alarm 0 (set_u_pending false s))).
  assert (E0 : Head.uthread_schedule clock fuel sp s = (
    k <- schedule_loop clock fuel (next c) ;; t <- thread k ;; store_tf a (ut_tf t) ;;;
    modify (set_u_current (Some k)) ;;; modify (set_u_currentInd (ut_ind t)) ;;;
    upd_thread k (set_ut_state T_RUNNING) ;;; alarm UTHREAD_QUANTA) s0).
  { unfold Head.uthread_schedule, alarm at 1. mstep. cbn [Z.eqb].
    rewrite (mycur_eq c) by done. mstep. rewrite (findTrapframe_eq sp n a) by done. mstep.
    unfold load_tf. mstep. rewrite (upd_thread_eq c _ tc) by done. mstep.
    rewrite (thread_eq c (set_ut_tf tf tc)) by (by eapply (with_thread_at c tc)). mstep.
    replace s0 with (with_thread c (saved tf tc) (set_u_alarm 0 (set_u_pending false s))) by done.
    unfold saved. destruct (decide (ut_state (set_ut_tf tf tc) = T_RUNNING)) as [E|E].
    - rewrite bool_decide_true by done. cbn [when].
      rewrite (upd_thread_eq c _ (set_ut_tf tf tc)) by (by eapply (with_thread_at c tc)). mstep.
      by rewrite with_thread_twice.
    - rewrite bool_decide_false by done. cbn [when]. mstep. done. }
  assert (HlenT : length T = MAX_UTHREADS) by (unfold T; by rewrite length_insert).
  assert (HcT : T !! c = Some (saved tf tc)).
  { unfold T. rewrite list_lookup_insert_eq; [done|lia]. }
  destruct (cyc_onto (next c) j) as (d & Hd & Hdj).
  { by apply next_lt. } { apply lookup_lt_Some in Hj. lia. }
  destruct (schedule_loop_spec clock d (next c) c j t (saved tf tc) fuel s0)
    as (e & s1 & He & Hl & (Hsb & Hs1 & Hnone) & Hbef); try done.
  { by apply next_lt. } { lia. }
  rewrite cyc_next in * by done. set (k := cyc c (S e)) in *.
  destruct (lookup_lt_is_Some_2 T k) as [tk Htk]; [rewrite HlenT; apply cyc_lt|].
  destruct (Hs1 k tk Htk) as (tk' & Htk' & Hch). rewrite decide_True in Hch by done.
  destruct Hsb as (T1 & h1 & n1 & ->). cbn in Htk'.
  assert (Htid : ut_ind tk' = ut_ind tk ∧ ut_tf tk' = ut_tf tk) by (by destruct Hch as [[_ ->]|[_ ->]]).
  rewrite E0. clear E0. mstep. rewrite Hl. mstep. rewrite (thread_eq k tk') by done. mstep.
  unfold store_tf. mstep. rewrite (upd_thread_eq k _ tk') by done. mstep. unfold alarm. mstep. cbn [Z.eqb].
  exists (S e), tk. eexists. split; [lia|]. split; [done|]. split; [done|]. split; [done|].
  split; [destruct Hch as [[? _]|[? _]]; auto|]. split; [|split; [by rewrite (proj2 Htid)|split; [done|split; [apply Htid|split; [|split]]]]].
  - intros [|e'] t' He' Ht'; [lia|]. apply (Hbef e'); [lia|]. by rewrite cyc_next.
  - etransitivity; [by eapply (with_thread_at k tk')|]. f_equal. unfold picked.
    destruct Hch as [[Hst ->]|[[Hst _] ->]]; [by rewrite decide_False by congruence|by rewrite decide_True].
  - intros j' t' Hne Ht'. destruct (Hs1 j' t' Ht') as (t2 & Ht2 & Hp).
    rewrite decide_False in Hp by done. exists t2. split; [|done].
    cbn. rewrite list_lookup_insert_ne by done. done.
  - cbn. rewrite length_insert. apply Nat.le_antisymm; apply Nat.nlt_ge; intros Hlt.
    + apply lookup_lt_is_Some_2 in Hlt as [x Hx].
      specialize (Hnone MAX_UTHREADS). cbn in Hnone. rewrite Hnone in Hx; [done|].
      apply lookup_ge_None_2. cbn. lia.
    + destruct (lookup_lt_is_Some_2 T (length T1)) as [x Hx]; [lia|].
      destruct (Hs1 _ _ Hx) as (x' & Hx' & _). apply lookup_lt_Some in Hx'. cbn in Hx'. lia.
Qed.

(** The library's invariant: a table of the right size in which only the current
    thread may be RUNNING. *)
Record lib_wf (c : nat) s : Prop := {
  lw_len : length (u_table s) = MAX_UTHREADS;
  lw_cur : u_current s = Some c;
  lw_lt : (c < MAX_UTHREADS)%nat;
  lw_run j t : u_table s !! j = Some t → ut_state t = T_RUNNING → j = c;
}.

(** Thread [j] can be given the CPU: it is RUNNABLE, or it is the one running. *)
Definition ready (j : nat) s : Prop :=
  ∃ t, u_table s !! j = Some t ∧ (ut_state t = T_RUNNABLE ∨ ut_state t = T_RUNNING).

Lemma saved_runnable tf c t j s :
  lib_wf c s → u_table s !! j = Some t → ut_state t = T_RUNNABLE ∨ ut_state t = T_RUNNING →
  ∀ tc, u_table s !! c = Some tc →
  ∃ t', <[c := saved tf tc]> (u_table s) !! j = Some t' ∧ ut_state t' = T_RUNNABLE.
Proof.
  intros Hwf Ht Hst tc Htc. destruct (decide (j = c)) as [->|Hne].
  - rewrite Ht in Htc. injection Htc as <-. exists (saved tf t).
    rewrite list_lookup_insert_eq by (by eapply lookup_lt_Some). split; [done|].
    unfold saved. case_decide as E; cbn in *; [done|]. naive_solver.
  - exists t. rewrite list_lookup_insert_ne by done. split; [done|].
    destruct Hst as [?|Hr]; [done|]. by destruct (Hne (lw_run _ _ Hwf _ _ Ht Hr)).
Qed.

Lemma saved_not_running tf t : ut_state (saved tf t) ≠ T_RUNNING.
Proof. unfold saved. case_decide; done. Qed.

Lemma schedule_wf c sp n a fuel s :
  lib_wf c s → frame_at (u_mem s) sp n a → (n < fuel)%nat → (MAX_UTHREADS ≤ fuel)%nat →
  (∃ j, ready j s) →
  ∃ e s' tc tk, (0 < e ≤ MAX_UTHREADS)%nat ∧ Head.uthread_schedule clock fuel sp s = Done tt s' ∧
    lib_wf (cyc c e) s' ∧ u_table s !! c = Some tc ∧
    <[c := saved (tf_of_bytes (bytes (u_mem s) a tf_size)) tc]> (u_table s) !! cyc c e = Some tk ∧
    (ut_state tk = T_RUNNABLE ∨ due tk) ∧
    u_mem s' = writes (u_mem s) a (tf_bytes (ut_tf tk)) ∧ u_alarm s' = UTHREAD_QUANTA ∧
    (∀ e', (0 < e' < e)%nat → ~ ready (cyc c e') s) ∧
    u_currentInd s' = ut_ind tk ∧ u_table s' !! cyc c e = Some (picked tk) ∧
    (∀ j t, j ≠ cyc c e →
       <[c := saved (tf_of_bytes (bytes (u_mem s) a tf_size)) tc]> (u_table s) !! j = Some t →
       ∃ t', u_table s' !! j = Some t' ∧ passed t t').
Proof.
  intros Hwf Hfr Hn Hf (j & t & Ht & Hst). pose proof Hwf as [Hlen Hc Hlt Hrun].
  destruct (lookup_lt_is_Some_2 (u_table s) c) as [tc Htc]; [lia|].
  set (tf := tf_of_bytes (bytes (u_mem s) a tf_size)).
  destruct (saved_runnable tf c t j s Hwf Ht Hst tc Htc) as (t' & Ht' & Hr).
  destruct (uthread_schedule_eq c tc sp n a fuel s) as
    (e & tk & s' & He & Hs & Hc' & Htk & Hel & Hbef & Hm & Ha & Hci & Hpk & Hoth & Hlen'); eauto.
  exists e, s', tc, tk. split; [done|]. split; [done|].
  split; [|split; [done|split; [done|split; [done|split; [done|split; [done|split; [|done]]]]]]].
  - split; [done|done|apply cyc_lt|]. intros i u Hu Hur. destruct (decide (i = cyc c e)); [done|].
    destruct (lookup_lt_is_Some_2 (u_table s) i) as [v Hv]; [apply lookup_lt_Some in Hu; lia|].
    assert (∃ w, <[c := saved tf tc]> (u_table s) !! i = Some w ∧ ut_state w ≠ T_RUNNING) as (w & Hw & Hwr).
    { destruct (decide (i = c)) as [->|].
      - exists (saved tf tc). rewrite list_lookup_insert_eq by lia. split; [done|apply saved_not_running].
      - exists v. rewrite list_lookup_insert_ne by done. split; [done|]. naive_solver. }
    destruct (Hoth i w) as (u' & Hu' & Hp); [done..|]. rewrite Hu in Hu'. injection Hu' as <-.
    destruct Hp as [->|[Hx ->]]; [done|]. cbn in Hur. congruence.
  - intros e' He' (u & Hu & Hust). destruct (saved_runnable tf c u _ s Hwf Hu Hust tc Htc) as (u' & Hu' & Hur).
    by apply (Hbef e' u').
Qed.


(** [waits j n s]: from [s] on, [n] quanta pass in which thread [j] can run but is
    not picked.  Between quanta the other threads may do anything to the state that
    keeps the invariant and the current thread. *)
Inductive waits (j : nat) : nat → ust bsem H → Prop :=
| waits_0 s : waits j 0 s
| waits_S q c sp n a fuel s s1 s2 :
    lib_wf c s → c ≠ j → ready j s →
    frame_at (u_mem s) sp n a → (n < fuel)%nat → (MAX_UTHREADS ≤ fuel)%nat →
    Head.uthread_schedule clock fuel sp s = Done tt s1 → u_current s1 ≠ Some j →
    u_current s2 = u_current s1 → waits j q s2 → waits j (S q) s.

Lemma cyc_add i d e : cyc (cyc i d) e = cyc i (d + e).
Proof. unfold cyc. rewrite Nat.Div0.add_mod_idemp_l. f_equal. lia. Qed.

Lemma waits_bound j q s : waits j q s →
  ∀ c d, u_current s = Some c → (c < MAX_UTHREADS)%nat → cyc c d = j → (0 < d < MAX_UTHREADS)%nat → (q < d)%nat.
Proof.
  induction 1 as [s|q c sp n a fuel s s1 s2 Hwf Hne Hj Hfr Hn Hf Hs Hnot Hcur Hw IH];
    intros c' d Hc Hlt Hd Hd0; [lia|].
  rewrite (lw_cur _ _ Hwf) in Hc. injection Hc as <-.
  destruct (schedule_wf c sp n a fuel s) as (e & s' & tc & tk & He & Hs' & Hwf' & _ & _ & _ & _ & _ & Hbef & _); eauto.
  rewrite Hs in Hs'. injection Hs' as <-. rewrite (lw_cur _ _ Hwf') in Hnot, Hcur.
  assert (e < d)%nat.
  { destruct (decide (d < e)%nat); [|destruct (decide (d = e)) as [->|]; [congruence|lia]].
    destruct (Hbef d); [lia|]. by rewrite Hd. }
  specialize (IH (cyc c e) (d - e)%nat Hcur (cyc_lt _ _)). rewrite cyc_add in IH.
  replace (e + (d - e))%nat with d in IH by lia. specialize (IH Hd ltac:(lia)). lia.
Qed.

(** C32: Bounded waiting: a thread that can run is picked after at most 62 quanta
    given to others, whatever the others do. *)
Theorem bounded_waiting j q s : waits j q s → (j < MAX_UTHREADS)%nat → (q ≤ 62)%nat.
Proof.
  intros Hw Hj. destruct Hw as [s|q c sp n a fuel s s1 s2 Hwf Hne] eqn:E; [lia|]. clear E.
  assert (Hw' : waits j (S q) s) by (by econstructor).
  destruct (cyc_onto c j (lw_lt _ _ Hwf) Hj) as (d & Hd & Hdj).
  assert (d ≠ 0%nat) by (intros ->; rewrite cyc_0 in Hdj; [done|apply (lw_lt _ _ Hwf)]).
  pose proof (waits_bound j _ s Hw' c d (lw_cur _ _ Hwf) (lw_lt _ _ Hwf) Hdj ltac:(lia)).
  unfold MAX_UTHREADS in *. lia.
Qed.

End RoundRobin.

(** * Creating a thread *)
Section Create.
Context {H : Type} {MH : Malloc H}.
Variables exit_addr : Z.
Implicit Types s : ust bsem H.

Lemma find_unused_eq s :
  length (u_table s) = MAX_UTHREADS →
  Head.find_unused s = Done (fst <$> list_find (λ t, ut_state t = T_UNUSED) (u_table s)) s.
Proof.
  intros Hl. unfold Head.find_unused, threads. rewrite <- Hl.
  rewrite (for_break_find (λ t, ut_state t = T_UNUSED)); [done|].
  intros i t Ht. cbn [Nat.add]. mstep. rewrite (thread_eq i t) by done. mstep. done.
Qed.

(** The fields a new thread gets before its stack. *)
Definition born (ut : nat) (tf : trapframe) s (t : uthread) : uthread :=
  set_ut_numOfJoining 0 (set_ut_ind (Z.of_nat ut) (set_ut_tf tf (set_ut_pid (u_pid s)
    (set_ut_tid (u_nexttid s) t)))).

(** The new thread, ready to enter [start_func] with [stack] as its stack. *)
Definition started (ut : nat) (tf : trapframe) (start_func stack : Z) s (t : uthread) : uthread :=
  set_ut_state T_RUNNABLE (set_ut_tf (set_tf_eip start_func (set_tf_esp (u32 (stack + STACKSIZE - 8)) tf))
    (set_ut_t_stack stack (born ut tf s t))).

Lemma u32_minus_mod a b : u32 (u32 a - b) = u32 (a - b).
Proof. unfold u32. by rewrite Zminus_mod_idemp_l. Qed.

Lemma create_frame_eq ut start_func arg q t s :
  u_table s !! ut = Some t →
  ∃ s', Head.create_frame exit_addr ut start_func arg (with_thread ut q s) = Done (ut_tid q) s' ∧
    u_table s' = <[ut := set_ut_state T_RUNNABLE (set_ut_tf (set_tf_eip start_func
      (set_tf_esp (u32 (ut_t_stack q + STACKSIZE - 8)) (ut_tf q))) q)]> (u_table s) ∧
    u_mem s' = store32 (store32 (u_mem s) (u32 (ut_t_stack q + STACKSIZE - 4)) arg)
      (u32 (ut_t_stack q + STACKSIZE - 8)) exit_addr ∧
    u_heap s' = u_heap s ∧ u_nexttid s' = u_nexttid s ∧ u_alarm s' = UTHREAD_QUANTA.
Proof.
  intros Ht. unfold Head.create_frame, store_word, alarm. mstep.
  rewrite (thread_eq ut q) by (by eapply with_thread_at). mstep.
  assert (E8 : ∀ a, u32 (u32 (u32 a - 4) - 4) = u32 (a - 8)).
  { intros a. rewrite !u32_minus_mod. replace (u32 a - 4 - 4) with (u32 a - 8) by lia. apply u32_minus_mod. }
  rewrite E8, u32_minus_mod.
  pose proof (lookup_lt_Some _ _ _ Ht) as Hlt.
  do 3 (erewrite upd_thread_eq; [|cbn; apply list_lookup_insert_eq; rewrite ?length_insert; done]; mstep).
  cbn [Z.eqb].
  erewrite thread_eq; [|cbn; apply list_lookup_insert_eq; rewrite ?length_insert; done]. mstep.
  eexists. split; [done|]. cbn. rewrite ?list_insert_insert_eq. done.
Qed.

(** [uthread_create] takes the first unused slot and makes it a RUNNABLE thread
    with the next tid, which starts in [start_func] on its own stack with [arg] as
    argument and [uthread_exit] as return address, and touches no other thread; the
    alarm is back on.  A stack left from an earlier thread is used again.  With no
    slot left it returns -1 and leaves the alarm off. *)
Theorem uthread_create_spec start_func arg c tc s :
  length (u_table s) = MAX_UTHREADS → u_current s = Some c → u_table s !! c = Some tc →
  ut_state tc ≠ T_UNUSED →
  match list_find (λ t, ut_state t = T_UNUSED) (u_table s) with
  | None => ∃ s', Head.uthread_create exit_addr start_func arg s = Done (-1) s' ∧
      u_table s' = u_table s ∧ u_alarm s' = 0
  | Some (ut, t) => ∀ stack h,
      (if ut_t_stack t =? 0 then h_malloc STACKSIZE (u_heap s) else (ut_t_stack t, u_heap s)) = (stack, h) →
      stack ≠ 0 → let sp := u32 (stack + STACKSIZE - 8) in
      ∃ s', Head.uthread_create exit_addr start_func arg s = Done (u_nexttid s) s' ∧
        u_table s' = <[ut := started ut (ut_tf tc) start_func stack s t]> (u_table s) ∧
        u_mem s' = store32 (store32 (u_mem s) (u32 (stack + STACKSIZE - 4)) arg) sp exit_addr ∧
        u_heap s' = h ∧ u_nexttid s' = u32 (u_nexttid s + 1) ∧ u_alarm s' = UTHREAD_QUANTA
  end.
Proof.
  intros Hlen Hc Htc Hst.
  destruct (list_find (λ t, ut_state t = T_UNUSED) (u_table s)) as [[ut t]|] eqn:Ef;
    [intros stack h Ha Hne; cbn zeta|];
    unfold Head.uthread_create, alarm at 1, printf; mstep; cbn [Z.eqb];
    rewrite find_unused_eq by done; cbn [u_table set_u_out set_u_alarm set_u_pending]; rewrite Ef;
    cbn [fmap option_fmap option_map fst]; mstep; [|eauto].
  pose proof Ef as (Ht & Hu & _)%list_find_Some.
  assert (Hcu : c ≠ ut) by congruence.
  unfold getpid. mstep. do 2 (erewrite upd_thread_eq; [|first [done|by eapply with_thread_at]]; mstep;
    rewrite ?with_thread_twice).
  rewrite (cur_thread c tc); [|done|rewrite with_thread_ne; done]. mstep.
  do 3 (erewrite upd_thread_eq; [|by eapply with_thread_at]; mstep; rewrite ?with_thread_twice).
  erewrite thread_eq; [|by eapply with_thread_at]. mstep.
  match goal with |- context [with_thread ut ?q ?s0] => change q with (born ut (ut_tf tc) s t); set (s1 := s0) end.
  change (ut_t_stack (born ut (ut_tf tc) s t)) with (ut_t_stack t).
  assert (Hs1 : u_table s1 !! ut = Some t) by done.
  destruct (Z.eqb_spec (ut_t_stack t) 0) as [E|E].
  - unfold malloc. mstep. change (u_heap (with_thread ut _ s1)) with (u_heap s). rewrite Ha. mstep.
    erewrite upd_thread_eq; [|by eapply (with_thread_at ut t)]. mstep.
    destruct (Z.eqb_spec stack 0); [done|]. cbn [negb].
    destruct (create_frame_eq ut start_func arg (set_ut_t_stack stack (born ut (ut_tf tc) s t)) t (set_u_heap h s1))
      as (s' & Hf & Hs'); [done|].
    exists s'. split; [|exact Hs']. etransitivity; [|exact Hf]. f_equal.
    unfold with_thread. uunf. by rewrite list_insert_insert_eq.
  - injection Ha as <- <-. mstep.
    destruct (create_frame_eq ut start_func arg (born ut (ut_tf tc) s t) t s1) as (s' & Hf & Hs'); [done|].
    exists s'. split; [exact Hf|]. destruct t. exact Hs'.
Qed.
End Create.

(** * Binary semaphores refine a FIFO hand-off *)

(** The specification: a semaphore is free, or held with a queue of waiters.  [up]
    hands a held semaphore to the first waiter. *)
Record asem := mkA { a_free : bool; a_q : list nat }.
Definition adown (i : nat) (a : asem) : asem * bool :=
  if a_free a then (mkA false (a_q a), true) else (mkA false (a_q a ++ [i]), false).
Definition aup (a : asem) : asem * option nat :=
  match a_q a with
  | j :: q => (mkA (a_free a) q, Some j)
  | [] => (mkA true [], None)
  end.

(** The ring: position [k] of the queue, and the queue. *)
Definition place (b : bsem) (k : nat) : nat := Z.to_nat ((bs_toOut b + Z.of_nat k) mod 64).
Definition waiter (b : bsem) (k : nat) : nat := default O (mjoin (bs_list b !! place b k)).
Definition waiters (b : bsem) : list nat := waiter b <$> seq 0 (Z.to_nat (bs_num b)).
Definition abs (b : bsem) : asem := mkA (negb (bs_s b =? 0)) (waiters b).

Record bsem_wf (b : bsem) : Prop := {
  bw_list : bs_listp b ≠ 0;
  bw_len : length (bs_list b) = MAX_UTHREADS;
  bw_out : 0 ≤ bs_toOut b < 64;
  bw_num : 0 ≤ bs_num b ≤ 64;
  bw_ins : bs_insert b = (bs_toOut b + bs_num b) mod 64;
  bw_s : bs_s b = 0 ∨ bs_s b = 1 ∧ bs_num b = 0;
  bw_in k : (k < Z.to_nat (bs_num b))%nat → bs_list b !! place b k = Some (Some (waiter b k));
}.

Lemma place_lt b k : (place b k < 64)%nat.
Proof. unfold place. pose proof (Z.mod_pos_bound (bs_toOut b + Z.of_nat k) 64). lia. Qed.

Lemma place_inj b j k : (j < 64)%nat → (k < 64)%nat → place b j = place b k → j = k.
Proof.
  unfold place. intros Hj Hk E.
  pose proof (Z.mod_pos_bound (bs_toOut b + Z.of_nat j) 64). pose proof (Z.mod_pos_bound (bs_toOut b + Z.of_nat k) 64).
  apply Z2Nat.inj in E; [|lia..]. pose proof (Z.div_mod (bs_toOut b + Z.of_nat j) 64).
  pose proof (Z.div_mod (bs_toOut b + Z.of_nat k) 64). lia.
Qed.

Lemma enqueue_spec i b :
  bsem_wf b → bs_s b = 0 → bs_num b < 64 →
  bsem_wf (Head.enqueue i b) ∧ waiters (Head.enqueue i b) = waiters b ++ [i].
Proof.
  intros [Hl Hlen Ho Hn Hi Hs Hin] H0 Hr.
  assert (Hnum : bs_num (Head.enqueue i b) = bs_num b + 1) by (cbn; apply s32_id; lia).
  assert (Hins : Z.to_nat (bs_insert b) = place b (Z.to_nat (bs_num b))).
  { unfold place. rewrite Z2Nat.id by lia. by rewrite Hi. }
  assert (Hpl : ∀ k, place (Head.enqueue i b) k = place b k) by done.
  assert (Hw : ∀ k, (k < Z.to_nat (bs_num b))%nat →
    bs_list (Head.enqueue i b) !! place b k = bs_list b !! place b k).
  { intros k Hk. cbn. rewrite Hins, list_lookup_insert_ne; [done|].
    intros E. apply place_inj in E; lia. }
  assert (Hlast : bs_list (Head.enqueue i b) !! place b (Z.to_nat (bs_num b)) = Some (Some i)).
  { cbn. rewrite Hins, list_lookup_insert_eq; [done|]. rewrite Hlen. apply place_lt. }
  assert (Hwt : ∀ k, (k < Z.to_nat (bs_num b))%nat → waiter (Head.enqueue i b) k = waiter b k).
  { intros k Hk. unfold waiter. rewrite Hpl, Hw by done. done. }
  assert (Hwl : waiter (Head.enqueue i b) (Z.to_nat (bs_num b)) = i).
  { unfold waiter. rewrite Hpl, Hlast. done. }
  split.
  - split; rewrite ?Hnum; try done; cbn; try lia.
    + by rewrite length_insert.
    + change (Z.of_nat MAX_UTHREADS) with 64. pose proof (Z.mod_pos_bound (bs_toOut b + bs_num b) 64).
      rewrite Z.rem_mod_nonneg, Hi by lia. rewrite Z.add_mod_idemp_l by lia. f_equal. lia.
    + intros k Hk. rewrite Hpl. destruct (decide (k = Z.to_nat (bs_num b))) as [->|].
      * etransitivity; [exact Hlast|]. by rewrite Hwl.
      * assert (k < Z.to_nat (bs_num b))%nat by lia. etransitivity; [by apply Hw|].
        rewrite Hwt by done. by apply Hin.
  - unfold waiters. rewrite Hnum. replace (Z.to_nat (bs_num b + 1)) with (S (Z.to_nat (bs_num b))) by lia.
    rewrite seq_S, fmap_app. cbn [fmap list_fmap]. cbn [Nat.add]. rewrite Hwl. f_equal.
    apply list_fmap_ext. intros j x Hx. apply lookup_seq in Hx as [-> Hx]. by apply Hwt.
Qed.

Lemma dequeue_spec b :
  bsem_wf b → 0 < bs_num b →
  ∃ j, bs_list b !! Z.to_nat (bs_toOut b) = Some (Some j) ∧
    waiters b = j :: waiters (Head.dequeue b) ∧ bsem_wf (Head.dequeue b).
Proof.
  intros [Hl Hlen Ho Hn Hi Hs Hin] Hpos.
  assert (H0 : place b 0 = Z.to_nat (bs_toOut b)).
  { unfold place. rewrite Z.add_0_r, Z.mod_small by lia. done. }
  assert (Hnum : bs_num (Head.dequeue b) = bs_num b - 1) by (cbn; apply s32_id; lia).
  assert (Hpl : ∀ k, place (Head.dequeue b) k = place b (S k)).
  { intros k. unfold place. cbn. change (Z.of_nat MAX_UTHREADS) with 64.
    rewrite Z.rem_mod_nonneg by lia. rewrite Z.add_mod_idemp_l by lia. do 2 f_equal. lia. }
  assert (Hw : ∀ k, (0 < k < 64)%nat → bs_list (Head.dequeue b) !! place b k = bs_list b !! place b k).
  { intros k Hk. cbn. rewrite list_lookup_insert_ne; [done|]. rewrite <- H0. intros E.
    apply place_inj in E; lia. }
  assert (Hwt : ∀ k, (S k < 64)%nat → waiter (Head.dequeue b) k = waiter b (S k)).
  { intros k Hk. unfold waiter. by rewrite Hpl, Hw by lia. }
  exists (waiter b 0). split; [rewrite <- H0; apply Hin; lia|]. split.
  - unfold waiters. rewrite Hnum. replace (Z.to_nat (bs_num b)) with (S (Z.to_nat (bs_num b - 1))) by lia.
    cbn [seq fmap list_fmap]. f_equal. rewrite <- fmap_S_seq, <- list_fmap_compose.
    apply list_fmap_ext. intros j x Hx. apply lookup_seq in Hx as [-> Hx]. cbn. symmetry. apply Hwt. lia.
  - split; rewrite ?Hnum; try done; cbn; try lia.
    + by rewrite length_insert.
    + change (Z.of_nat MAX_UTHREADS) with 64. rewrite Z.rem_mod_nonneg by lia.
      pose proof (Z.mod_pos_bound (bs_toOut b + 1) 64). lia.
    + change (Z.of_nat MAX_UTHREADS) with 64. rewrite Z.rem_mod_nonneg by lia.
      rewrite Hi, Z.add_mod_idemp_l by lia. f_equal. lia.
    + intros k Hk. rewrite Hpl. rewrite Hwt by lia. etransitivity; [apply Hw; lia|]. apply Hin. lia.
Qed.

Section Bsem.
Context {H : Type} {MH : Malloc H}.
Variable clock : nat → Z.
Implicit Types s : ust bsem H.

Definition sem_is (sem : Z) (b : bsem) s : Prop :=
  0 ≤ sem < Z.of_nat MAX_BSEM ∧ u_sems s !! Z.to_nat sem = Some (Some b).

(** The state with [b'] as semaphore [sem]. *)
Definition with_sem (sem : Z) (b' : bsem) s : ust bsem H :=
  set_u_sems (<[Z.to_nat sem := Some b']> (u_sems s)) s.

Lemma slot_eq sem b s : sem_is sem b s → Head.slot sem s = Done (Some b) s.
Proof.
  intros [Hr Hl]. unfold Head.slot. mstep.
  destruct (Z.leb_spec 0 sem), (Z.ltb_spec sem (Z.of_nat MAX_BSEM)); try lia. cbn [andb]. by rewrite Hl.
Qed.
Lemma sem_at_eq sem b s : sem_is sem b s → Head.sem_at sem s = Done b s.
Proof. intros Hs. unfold Head.sem_at. mstep. by rewrite (slot_eq sem b). Qed.
Lemma set_slot_eq sem b b' s :
  sem_is sem b s → Head.set_slot sem (Some b') s = Done tt (with_sem sem b' s).
Proof. intros Hs. unfold Head.set_slot. mstep. by rewrite (slot_eq sem b). Qed.
Lemma with_sem_is sem b b' s : sem_is sem b s → sem_is sem b' (with_sem sem b' s).
Proof.
  intros [Hr Hl]. split; [done|]. cbn. rewrite list_lookup_insert_eq; [done|by eapply lookup_lt_Some].
Qed.

(** [uthread_sleep(0)]: the thread goes to sleep for an [up] to wake, and the CPU
    goes to another; it returns 0 when it is resumed. *)
Lemma sleep_zero c t s :
  u_current s = Some c → u_table s !! c = Some t → ut_pid t = u_pid s →
  ∃ s1 k, Head.uthread_sleep clock 0 s = Switch s1 k ∧ (∀ s', k s' = Done 0 s') ∧
    s1 = set_u_pending true (with_thread c (set_ut_state T_SLEEPING (set_ut_wakeup 0 t))
           (set_u_calls (S (u_calls s)) (set_u_alarm 0 (set_u_pending false s)))).
Proof.
  intros Hc Ht Hp. unfold Head.uthread_sleep, alarm, uptime. mstep. cbn [Z.eqb Z.ltb Z.compare].
  unfold upd_cur. mstep. rewrite (mycur_eq c) by done. mstep.
  rewrite (upd_thread_eq c _ t) by done. mstep. rewrite (mycur_eq c) by done. mstep.
  erewrite (upd_thread_eq c _ (set_ut_wakeup 0 t)); [|by eapply (with_thread_at c t)]. mstep.
  rewrite with_thread_twice.
  erewrite (cur_thread c (set_ut_state T_SLEEPING (set_ut_wakeup 0 t))); [|done|by eapply (with_thread_at c t)].
  mstep. unfold sigsend, getpid. mstep. cbn [ut_pid set_ut_state set_ut_wakeup u_pid with_thread set_u_table
    set_u_calls set_u_alarm set_u_pending]. rewrite Hp, Z.eqb_refl. unfold swtch. mstep.
  eexists _, _. split; [done|]. done.
Qed.

(** The alarm is off and nothing is pending: the first thing both operations do. *)
Abbreviation quiet s := (set_u_alarm 0 (set_u_pending false s)).

Definition asleep (t : uthread) : uthread := set_ut_state T_SLEEPING (set_ut_wakeup 0 t).

Lemma bsem_down_held sem b c t s :
  sem_is sem b s → bs_listp b ≠ 0 → bs_s b = 0 →
  u_current s = Some c → u_table s !! c = Some t → ut_pid t = u_pid s →
  ∃ s1 k, Head.bsem_down clock sem s = Switch s1 k ∧ (∀ s', k s' = Done tt s') ∧
    sem_is sem (Head.enqueue c b) s1 ∧ u_table s1 = <[c := asleep t]> (u_table s) ∧
    u_alarm s1 = 0 ∧ u_pending s1 = true.
Proof.
  intros Hs Hl Hz Hc Ht Hp. unfold Head.bsem_down, alarm at 1. mstep. cbn [Z.eqb].
  rewrite (sem_at_eq sem b) by done. mstep.
  rewrite Hz. cbn [Z.eqb negb]. mstep. rewrite (mycur_eq c) by done. mstep.
  destruct (Z.eqb_spec (bs_listp b) 0); [done|]. mstep. rewrite (set_slot_eq sem b) by done. mstep.
  destruct (sleep_zero c t (with_sem sem (Head.enqueue c b) (quiet s)))
    as (s1 & k & -> & Hk & ->); [done..|]. mstep.
  eexists _, _. split; [done|]. split; [intros s'; by rewrite Hk|]. split; [|done].
  by apply (with_sem_is sem b _ (quiet s)).
Qed.

Lemma bsem_down_free sem b s :
  sem_is sem b s → bs_s b = 1 →
  Head.bsem_down clock sem s = Done tt (set_u_alarm UTHREAD_QUANTA (with_sem sem (Head.take_sem b) (quiet s))).
Proof.
  intros Hs H1. unfold Head.bsem_down, alarm. mstep. cbn [Z.eqb]. rewrite (sem_at_eq sem b) by done. mstep.
  rewrite H1. cbn [Z.eqb negb]. mstep. rewrite (set_slot_eq sem b) by done. mstep. done.
Qed.

(** With a waiter [j] at the head of the queue. *)
Lemma bsem_up_pass sem b j s :
  sem_is sem b s → bs_listp b ≠ 0 → bs_num b ≠ 0 →
  bs_list b !! Z.to_nat (bs_toOut b) = Some (Some j) → is_Some (u_table s !! j) →
  ∃ s2, Head.bsem_up sem s = Done tt s2 ∧ sem_is sem (Head.dequeue b) s2 ∧
    u_table s2 = alter (set_ut_state T_RUNNABLE) j (u_table s) ∧ u_alarm s2 = UTHREAD_QUANTA.
Proof.
  intros Hs Hl Hn Hj [tj Htj]. unfold Head.bsem_up, alarm. mstep. cbn [Z.eqb].
  rewrite (sem_at_eq sem b) by done. mstep.
  destruct (Z.eqb_spec (bs_num b) 0); [lia|]. cbn [andb]. mstep.
  destruct (Z.eqb_spec (bs_listp b) 0); [done|]. mstep. rewrite Hj. mstep.
  rewrite (set_slot_eq sem b) by done. mstep. rewrite (thread_eq j tj) by done. mstep.
  unfold upd_thread. mstep. cbn [Z.eqb]. eexists. split; [done|].
  split; [by apply (with_sem_is sem b _ (quiet s))|]. done.
Qed.

Lemma bsem_up_empty sem b s :
  sem_is sem b s → bs_num b = 0 → bs_s b = 0 ∨ bs_s b = 1 →
  Head.bsem_up sem s = Done tt (if bs_s b =? 0
    then set_u_alarm UTHREAD_QUANTA (with_sem sem (Head.give_sem b) (quiet s)) else quiet s).
Proof.
  intros Hs Hn H01. unfold Head.bsem_up, alarm. mstep. cbn [Z.eqb]. rewrite (sem_at_eq sem b) by done. mstep.
  rewrite Hn. destruct H01 as [-> | ->]; cbn [Z.eqb andb]; mstep; [|done].
  rewrite (set_slot_eq sem b) by done. mstep. done.
Qed.

(** C33: The HEAD binary semaphore refines a FIFO hand-off.  [bsem_down] takes a free
    semaphore at once; on a held one it joins the end of the queue and sleeps with no
    wake-up time, giving up the CPU.  [bsem_up] wakes exactly the first waiter, which
    then holds the semaphore, or makes it free; on a semaphore that is free already it
    changes nothing but leaves the alarm off. *)
Theorem bsem_refines_queue sem b c t s :
  sem_is sem b s → bsem_wf b → u_current s = Some c → u_table s !! c = Some t → ut_pid t = u_pid s →
  bs_num b < 64 → (∀ j, j ∈ waiters b → is_Some (u_table s !! j)) →
  let '(a1, got) := adown c (abs b) in
  let '(a2, woke) := aup (abs b) in
  (∃ b1, bsem_wf b1 ∧ abs b1 = a1 ∧
    if got then ∃ s1, Head.bsem_down clock sem s = Done tt s1 ∧ sem_is sem b1 s1 ∧
      u_table s1 = u_table s ∧ u_alarm s1 = UTHREAD_QUANTA
    else ∃ s1 k, Head.bsem_down clock sem s = Switch s1 k ∧ (∀ s', k s' = Done tt s') ∧ sem_is sem b1 s1 ∧
      u_table s1 = <[c := asleep t]> (u_table s) ∧ u_alarm s1 = 0 ∧ u_pending s1 = true) ∧
  (∃ b2 s2, bsem_wf b2 ∧ abs b2 = a2 ∧ Head.bsem_up sem s = Done tt s2 ∧ sem_is sem b2 s2 ∧
    u_table s2 = match woke with Some j => alter (set_ut_state T_RUNNABLE) j (u_table s) | None => u_table s end ∧
    u_alarm s2 = if a_free (abs b) then 0 else UTHREAD_QUANTA).
Proof.
  intros Hs Hb Hc Ht Hp Hroom Hin. pose proof Hb as [Hl Hlen Ho Hn Hi Hbs Hw].
  unfold adown, aup. cbn [abs a_free a_q].
  destruct Hbs as [Hz|[H1 Hz]]; [rewrite Hz; cbn [Z.eqb negb]|rewrite H1; cbn [Z.eqb negb]].
  - destruct (enqueue_spec c b Hb Hz Hroom) as [He1 He2].
    destruct (bsem_down_held sem b c t s) as (s1 & k & Hd); [done..|].
    destruct (decide (bs_num b = 0)) as [E|E].
    + assert (Hq : waiters b = []) by (unfold waiters; by rewrite E). rewrite Hq in *. cbn [app] in *. split.
      * exists (Head.enqueue c b). split; [done|]. split; [unfold abs; rewrite He2; cbn; by rewrite Hz|]. eauto.
      * exists (Head.give_sem b). eexists. split; [by split; auto|]. split; [unfold abs; f_equal; exact Hq|].
        rewrite (bsem_up_empty sem b) by auto. rewrite Hz. cbn [Z.eqb]. split; [done|].
        split; [by apply (with_sem_is sem b _ (quiet s))|]. done.
    + destruct (dequeue_spec b Hb) as (j & Hj & Hq & Hwf); [lia|]. rewrite Hq in *. split.
      * exists (Head.enqueue c b). split; [done|]. split; [unfold abs; rewrite He2; cbn; by rewrite Hz|]. eauto.
      * destruct (bsem_up_pass sem b j s) as (s2 & Hu); [done..|apply Hin; by left|].
        exists (Head.dequeue b), s2. split; [done|]. split; [unfold abs; cbn; by rewrite Hz|]. done.
  - assert (Hq : waiters b = []) by (unfold waiters; by rewrite Hz). rewrite Hq. split.
    + exists (Head.take_sem b). split; [by split; auto; cbn; lia|]. split; [unfold abs; f_equal; exact Hq|].
      rewrite (bsem_down_free sem b) by done. eexists. split; [done|].
      split; [by apply (with_sem_is sem b _ (quiet s))|]. done.
    + exists b. eexists. split; [done|]. split; [unfold abs; rewrite Hq, H1; done|].
      rewrite (bsem_up_empty sem b) by auto. rewrite H1. done.
Qed.

End Bsem.

(** * A concrete process: three threads, the first one running, with the frame of an
    interrupt at address 1000 of its stack; [malloc] hands out fresh addresses. *)
Module Demo.
#[global] Instance bump : Malloc Z := {| h_malloc n h := (h, h + n); h_free _ h := h |}.
Definition th (tid : Z) (st : tstate) : uthread :=
  mkUt tid 0 st tf0 7 0 (replicate MAX_UTHREADS 0) 0 0 (tid - 1).
Definition sem1 : bsem := mkBsem 9000 0 1 0 64 1 9100 (Some 1%nat :: replicate 63 None).
Definition st : ust bsem Z :=
  mkUst 4 3 (Some 0%nat) ([th 1 T_RUNNING; th 2 T_RUNNABLE; th 3 T_RUNNABLE] ++ replicate 61 (th 0 T_UNUSED)) 0
    (None :: Some sem1 :: replicate 126 None) ∅ (store32 (λ _, 0) 1076 tfFlag) 8192 0 false 0 7 0 [] false.
Definition clock : nat → Z := λ _, 0.

Lemma ut_wf : lib_wf 0 st.
Proof.
  split; try done; [unfold MAX_UTHREADS; lia|]. intros [|[|[|j]]] t Ht Hr;
    [done|injection Ht as <-; done|injection Ht as <-; done|].
  change (replicate 61 (th 0 T_UNUSED) !! j = Some t) in Ht.
  apply lookup_replicate in Ht as [-> _]. done.
Qed.
Lemma ut_frame : frame_at (u_mem st) 1000 19 1000.
Proof.
  split; [lia|]. split; [lia|]. split; [done|]. split; [vm_compute; reflexivity|].
  intros k Hk. do 19 (destruct k as [|k]; [vm_compute; discriminate|]). lia.
Qed.
Lemma ut_ready j : (j < 3)%nat → ready j st.
Proof. intros Hj. destruct j as [|[|[|j]]]; [..|lia]; eexists; (split; [reflexivity|]); auto. Qed.
Definition st1 : ust bsem Z :=
  match Head.uthread_schedule clock 64 1000 st with Done _ s => s | _ => st end.
Lemma sem1_wf : bsem_wf sem1.
Proof. split; try done; try (cbn; lia). intros [|k] Hk; [done|cbn in Hk; lia]. Qed.
End Demo.


Lemma bounded_waiting_witness : waits Demo.clock 2 1 Demo.st ∧ (1 ≤ 62)%nat.
Proof.
  assert (Hw : waits Demo.clock 2 1 Demo.st).
  { eapply (waits_S Demo.clock 2 0 0 1000 19 1000 64 Demo.st Demo.st1 Demo.st1).
    - exact Demo.ut_wf.
    - discriminate.
    - apply Demo.ut_ready. lia.
    - exact Demo.ut_frame.
    - lia.
    - unfold MAX_UTHREADS. lia.
    - vm_compute. reflexivity.
    - vm_compute. discriminate.
    - reflexivity.
    - apply waits_0. }
  split; [exact Hw|]. apply (bounded_waiting Demo.clock 2 1 Demo.st Hw). unfold MAX_UTHREADS. lia.
Defined.

Lemma uthread_create_spec_witness : ∃ s', Head.uthread_create 33 44 55 Demo.st = Done 4 s' ∧
  u_alarm s' = UTHREAD_QUANTA.
Proof.
  destruct (uthread_create_spec 33 44 55 0 (Demo.th 1 T_RUNNING) Demo.st eq_refl eq_refl eq_refl
    ltac:(discriminate) 8192 12288 eq_refl ltac:(discriminate)) as (s' & H1 & _ & _ & _ & _ & H2).
  exists s'. split; [exact H1|exact H2].
Defined.

Lemma bsem_refines_queue_witness : ∃ s2, Head.bsem_up 1 Demo.st = Done tt s2 ∧
  u_table s2 = alter (set_ut_state T_RUNNABLE) 1%nat (u_table Demo.st).
Proof.
  destruct (bsem_refines_queue Demo.clock 1 Demo.sem1 0 (Demo.th 1 T_RUNNING) Demo.st)
    as [_ (b2 & s2 & _ & _ & H1 & _ & H2 & _)].
  - split; [unfold MAX_BSEM; lia|reflexivity].
  - exact Demo.sem1_wf.
  - reflexivity.
  - reflexivity.
  - reflexivity.
  - cbn. lia.
  - intros j Hj. apply list_elem_of_In in Hj as [<-|[]]. eexists. reflexivity.
  - exists s2. split; [exact H1|exact H2].
Defined.
