(* ===== verification/Csem.v ===== *)
(** The counting semaphores of uthread.c under every interleaving of threads.

    [down] and [up] are cut at their calls: every [bsem_down]/[bsem_up] runs with
    the alarm off and is atomic, and its effect is that of the FIFO hand-off
    semaphore which the binary semaphores of Uthread.v refine; an access to
    [sem->val] is an atomic step too.  Both sides of the merge have the same
    [down] and [up]. *)
From S2P Require Import Prelude Uthread.

(** Where a thread is in [down] or [up]; [..w] is asleep inside a [bsem_down]. *)
Inductive pc :=
| Idle
| D_s2 | D_s2w | D_s1 | D_s1w | D_dec | D_test | D_up1
| U_s1 | U_s1w | U_inc | U_test | U_up1.
#[export] Instance pc_eq : EqDecision pc.
Proof. solve_decision. Defined.

Record cfg := mkCfg {
  c_val : Z;           (* sem->val *)
  c_a1 : asem;         (* the mutex s1 *)
  c_a2 : asem;         (* the gate s2 *)
  c_pc : nat → pc;
  c_downs : Z;         (* decrements and increments so far *)
  c_ups : Z;
}.

Definition goto (i : nat) (p : pc) (f : nat → pc) : nat → pc := λ j, if decide (j = i) then p else f j.

(** Where a thread goes on when a semaphore is handed to it. *)
Definition resume (p : pc) : pc :=
  match p with D_s2w => D_s1 | D_s1w => D_dec | U_s1w => U_inc | _ => p end.
Definition wake (w : option nat) (f : nat → pc) : nat → pc :=
  match w with Some j => goto j (resume (f j)) f | None => f end.

(** One step of thread [i]; [is_up] says which call an idle thread makes. *)
Definition exec (is_up : bool) (i : nat) (c : cfg) : option cfg :=
  let '(mkCfg v a1 a2 f nd nu) := c in
  match f i with
  | Idle => Some (mkCfg v a1 a2 (goto i (if is_up then U_s1 else D_s2) f) nd nu)
  | D_s2 =>
    let '(a2', got) := adown i a2 in Some (mkCfg v a1 a2' (goto i (if got : bool then D_s1 else D_s2w) f) nd nu)
  | D_s1 =>
    let '(a1', got) := adown i a1 in Some (mkCfg v a1' a2 (goto i (if got : bool then D_dec else D_s1w) f) nd nu)
  | D_dec => Some (mkCfg (s32 (v - 1)) a1 a2 (goto i D_test f) (nd + 1) nu)
  | D_test =>
    let '(a2', w) := if 0 <? v then aup a2 else (a2, None) in
    Some (mkCfg v a1 a2' (wake w (goto i D_up1 f)) nd nu)
  | D_up1 => let '(a1', w) := aup a1 in Some (mkCfg v a1' a2 (wake w (goto i Idle f)) nd nu)
  | U_s1 =>
    let '(a1', got) := adown i a1 in Some (mkCfg v a1' a2 (goto i (if got : bool then U_inc else U_s1w) f) nd nu)
  | U_inc => Some (mkCfg (s32 (v + 1)) a1 a2 (goto i U_test f) nd (nu + 1))
  | U_test =>
    let '(a2', w) := if v =? 1 then aup a2 else (a2, None) in
    Some (mkCfg v a1 a2' (wake w (goto i U_up1 f)) nd nu)
  | U_up1 => let '(a1', w) := aup a1 in Some (mkCfg v a1' a2 (wake w (goto i Idle f)) nd nu)
  | D_s2w | D_s1w | U_s1w => None
  end.

Definition step (c c' : cfg) : Prop := ∃ op i, exec op i c = Some c'.

(** What [csem_alloc(init_val)] leaves: with [init_val < 1] the gate is taken. *)
Definition start (init : Z) : cfg :=
  mkCfg init (mkA true []) (if init <? 1 then fst (adown 0 (mkA true [])) else mkA true []) (λ _, Idle) 0 0.

(** * The invariant *)
Definition in1 (p : pc) : bool :=
  match p with D_dec | D_test | D_up1 | U_inc | U_test | U_up1 => true | _ => false end.
Definition in2 (p : pc) : bool :=
  match p with D_s1 | D_s1w | D_dec | D_test => true | _ => false end.
Definition wait1 (p : pc) : bool := match p with D_s1w | U_s1w => true | _ => false end.
Definition wait2 (p : pc) : bool := match p with D_s2w => true | _ => false end.

(** A semaphore whose holders are the threads at [hold] and whose queue is the
    threads at [wait]. *)
Record sem_ok (hold wait : pc → bool) (a : asem) (f : nat → pc) : Prop := {
  so_one i j : hold (f i) = true → hold (f j) = true → i = j;
  so_free i : a_free a = true → hold (f i) = false;
  so_empty : a_free a = true → a_q a = [];
  so_q i : i ∈ a_q a ↔ wait (f i) = true;
  so_nodup : NoDup (a_q a);
}.

(** Somebody is past the gate, or it is open, or about to be opened. *)
Definition permit (c : cfg) : Prop :=
  a_free (c_a2 c) = true ∨ (∃ i, in2 (c_pc c i) = true) ∨ (∃ i, c_pc c i = U_test ∧ c_val c = 1).

Record inv (init : Z) (c : cfg) : Prop := {
  iv_1 : sem_ok in1 wait1 (c_a1 c) (c_pc c);
  iv_2 : sem_ok in2 wait2 (c_a2 c) (c_pc c);
  iv_open : a_free (c_a2 c) = true → 1 ≤ c_val c;
  iv_in i : in2 (c_pc c i) = true → (if decide (c_pc c i = D_test) then 0 else 1) ≤ c_val c;
  iv_test i : c_pc c i = U_test → c_val c = 1 → a_free (c_a2 c) = false ∧ ∀ j, in2 (c_pc c j) = false;
  iv_permit : 1 ≤ c_val c → permit c;
  iv_val : c_val c = init + c_ups c - c_downs c;
  iv_low : Z.min init 0 ≤ c_val c;
  iv_pos : 0 ≤ c_ups c ∧ 0 ≤ c_downs c;
}.

Lemma goto_eq i p f : goto i p f i = p.
Proof. unfold goto. by rewrite decide_True. Qed.
Lemma goto_ne i j p f : j ≠ i → goto i p f j = f j.
Proof. intros. unfold goto. by rewrite decide_False. Qed.

Lemma sem_ok_ext hold wait a f f' :
  (∀ j, hold (f' j) = hold (f j)) → (∀ j, wait (f' j) = wait (f j)) →
  sem_ok hold wait a f → sem_ok hold wait a f'.
Proof.
  intros Hh Hw [H1 H2 H3 H4 H5]. split; try done.
  - intros i j. rewrite !Hh. apply H1.
  - intros i. rewrite Hh. apply H2.
  - intros i. rewrite Hw. apply H4.
Qed.

Lemma sem_ok_goto hold wait a f i p :
  hold p = hold (f i) → wait p = wait (f i) → sem_ok hold wait a f → sem_ok hold wait a (goto i p f).
Proof. intros Hh Hw. apply sem_ok_ext; intros j; unfold goto; case_decide; by subst. Qed.

Lemma sem_ok_down hold wait a f i pg pw a' got :
  sem_ok hold wait a f → hold (f i) = false → wait (f i) = false →
  hold pg = true → wait pg = false → hold pw = false → wait pw = true →
  adown i a = (a', got) → sem_ok hold wait a' (goto i (if got then pg else pw) f).
Proof.
  intros [H1 H2 H3 H4 H5] Hi Hwi Hg Hgw Hp Hpw. unfold adown.
  destruct (a_free a) eqn:Ef; intros [= <- <-].
  - split; cbn; try done.
    + intros j k. unfold goto. repeat case_decide; subst; rewrite ?H2 by done; done.
    + intros j. rewrite H4. unfold goto. case_decide; subst; [by rewrite Hgw, Hwi|done].
  - split; cbn; try done.
    + intros j k. unfold goto. repeat case_decide; subst; try congruence. apply H1.
    + intros j. rewrite elem_of_app, list_elem_of_singleton, H4. unfold goto. case_decide; subst; naive_solver.
    + apply NoDup_app. split; [done|]. split; [|apply NoDup_singleton].
      intros j Hj ->%list_elem_of_singleton. apply H4 in Hj. congruence.
Qed.

(** [up] by a thread that is, or stands in for, the only holder. *)
Lemma sem_ok_up hold wait a f i p a' w :
  sem_ok hold wait a f → a_free a = false → (∀ j, j ≠ i → hold (f j) = false) → wait (f i) = false →
  hold p = false → wait p = false →
  (∀ q, wait q = true → hold (resume q) = true ∧ wait (resume q) = false) →
  aup a = (a', w) → sem_ok hold wait a' (wake w (goto i p f)).
Proof.
  intros [H1 H2 H3 H4 H5] Hf Ho Hwi Hp Hpw Hres. unfold aup.
  destruct (a_q a) as [|j q] eqn:Eq; intros [= <- <-].
  - split; cbn; try done.
    + intros k l. unfold goto. repeat case_decide; subst; rewrite ?Ho by done; congruence.
    + intros k _. unfold goto. case_decide; [done|]. by apply Ho.
    + intros k. rewrite H4. unfold goto. case_decide; subst; [by rewrite Hpw, Hwi|done].
  - assert (Hj : wait (f j) = true) by (apply H4; by left).
    assert (Hne : j ≠ i) by congruence. apply NoDup_cons in H5 as [Hn5 H5].
    destruct (Hres _ Hj) as [Hr1 Hr2]. rewrite Hf. cbn [wake]. rewrite goto_ne by done.
    assert (Hhold : ∀ k, hold (goto j (resume (f j)) (goto i p f) k) = true → k = j).
    { intros k. unfold goto. repeat case_decide; subst; try done; rewrite ?Ho by done; congruence. }
    split; cbn; try done.
    + intros k l Hk%Hhold Hl%Hhold. congruence.
    + intros k. unfold goto. repeat case_decide; subst; try congruence.
      * split; [|by rewrite Hr2]. done.
      * split; [|by rewrite Hpw]. intros Hi. assert (i ∈ j :: q) as Hi'%H4 by (by right). congruence.
      * rewrite <- H4. set_solver.
Qed.

(** Handing a semaphore over moves only threads that wait for it. *)
Lemma wake_cases hold wait a f i p a' w :
  sem_ok hold wait a f → wait (f i) = false → aup a = (a', w) →
  ∀ j, wake w (goto i p f) j = goto i p f j ∨
    j ≠ i ∧ wait (f j) = true ∧ wake w (goto i p f) j = resume (f j).
Proof.
  intros [H1 H2 H3 H4 H5] Hwi. unfold aup. destruct (a_q a) as [|k q] eqn:Eq; intros [= <- <-] j; [by left|].
  assert (Hk : wait (f k) = true) by (apply H4; by left). cbn [wake].
  destruct (decide (j = k)) as [->|]; [|left; by rewrite (goto_ne k)].
  right. assert (k ≠ i) by congruence. by rewrite goto_eq, goto_ne.
Qed.

(** Steps that leave the gate, the value and the counts alone. *)
Lemma inv_same init v a1 a1' a2 f f' nd nu :
  (∀ j, in2 (f' j) = in2 (f j)) → (∀ j, wait2 (f' j) = wait2 (f j)) →
  (∀ j, f' j = D_test ↔ f j = D_test) → (∀ j, f' j = U_test ↔ f j = U_test) →
  sem_ok in1 wait1 a1' f' → inv init (mkCfg v a1 a2 f nd nu) → inv init (mkCfg v a1' a2 f' nd nu).
Proof.
  intros H2 Hw Hd Hu H1 [I1 I2 I3 I4 I5 I6 I7 I8 I9]; cbn in *. split; cbn; try done.
  - by apply (sem_ok_ext _ _ _ f).
  - intros i Hi. rewrite H2 in Hi. specialize (I4 i Hi). repeat case_decide; naive_solver.
  - intros i Hi Hv. destruct (I5 i) as [J1 J2]; [by apply Hu|done|]. split; [done|].
    intros j. by rewrite H2.
  - intros Hv. destruct (I6 Hv) as [?|[[i Hi]|[i [Hi Hv1]]]]; [by left|right; left|right; right]; exists i; cbn in *.
    + by rewrite H2.
    + split; [by apply Hu|done].
Qed.

(** What a thread's own move does to the four observations. *)
Lemma goto_same (P : pc → bool) f i p : P p = P (f i) → ∀ j, P (goto i p f j) = P (f j).
Proof. intros E j. unfold goto. case_decide; by subst. Qed.
Lemma goto_iff (q : pc) f i p : p ≠ q → f i ≠ q → ∀ j, goto i p f j = q ↔ f j = q.
Proof. intros H1 H2 j. unfold goto. case_decide; subst; naive_solver. Qed.

(** Waking a thread that waits for the mutex is invisible to the gate. *)
Lemma wake1_view a f i p a' w :
  sem_ok in1 wait1 a f → wait1 (f i) = false → aup a = (a', w) → ∀ j,
  in2 (wake w (goto i p f) j) = in2 (goto i p f j) ∧ wait2 (wake w (goto i p f) j) = wait2 (goto i p f j) ∧
  (wake w (goto i p f) j = D_test ↔ goto i p f j = D_test) ∧
  (wake w (goto i p f) j = U_test ↔ goto i p f j = U_test).
Proof.
  intros Hs Hi Ha j. destruct (wake_cases in1 wait1 a f i p a' w Hs Hi Ha j) as [->|(Hne & Hw & ->)]; [done|].
  rewrite goto_ne by done. destruct (f j); cbn in *; done.
Qed.

(** Waking a thread that waits for the gate is invisible to the mutex. *)
Lemma wake2_view a f i p a' w :
  sem_ok in2 wait2 a f → wait2 (f i) = false → aup a = (a', w) → ∀ j,
  in1 (wake w (goto i p f) j) = in1 (goto i p f j) ∧ wait1 (wake w (goto i p f) j) = wait1 (goto i p f j) ∧
  (wake w (goto i p f) j = U_test → goto i p f j = U_test) ∧
  (wake w (goto i p f) j = D_test → goto i p f j = D_test).
Proof.
  intros Hs Hi Ha j. destruct (wake_cases in2 wait2 a f i p a' w Hs Hi Ha j) as [->|(Hne & Hw & ->)]; [done|].
  rewrite goto_ne by done. destruct (f j); cbn in *; done.
Qed.

Lemma resume1 q : wait1 q = true → in1 (resume q) = true ∧ wait1 (resume q) = false.
Proof. by destruct q. Qed.
Lemma resume2 q : wait2 q = true → in2 (resume q) = true ∧ wait2 (resume q) = false.
Proof. by destruct q. Qed.

(** Giving the mutex back at the end of [down] or [up]. *)
Lemma inv_release init v a1 a2 f nd nu i a' w :
  inv init (mkCfg v a1 a2 f nd nu) → f i = D_up1 ∨ f i = U_up1 → aup a1 = (a', w) →
  inv init (mkCfg v a' a2 (wake w (goto i Idle f)) nd nu).
Proof.
  intros Hi Hpc Ha. pose proof (iv_1 _ _ Hi) as H1. cbn in H1.
  assert (E : in1 (f i) = true ∧ wait1 (f i) = false ∧ in2 (f i) = false ∧ wait2 (f i) = false ∧
    f i ≠ D_test ∧ f i ≠ U_test) by (destruct Hpc as [-> | ->]; done).
  destruct E as (E1 & E2 & E3 & E4 & E5 & E6).
  pose proof (wake1_view a1 f i Idle a' w H1 E2 Ha) as Hv.
  apply (inv_same init v a1 a' a2 f); [..|done].
  - intros j. rewrite (proj1 (Hv j)). by apply goto_same.
  - intros j. rewrite (proj1 (proj2 (Hv j))). by apply goto_same.
  - intros j. rewrite (proj1 (proj2 (proj2 (Hv j)))). by apply goto_iff.
  - intros j. rewrite (proj2 (proj2 (proj2 (Hv j)))). by apply goto_iff.
  - apply (sem_ok_up _ _ a1); try done; [| |apply resume1].
    + destruct (a_free a1) eqn:Ef; [|done]. by rewrite (so_free _ _ _ _ H1 i Ef) in E1.
    + intros j Hj. destruct (in1 (f j)) eqn:Ej; [|done]. by destruct (Hj (so_one _ _ _ _ H1 j i Ej E1)).
Qed.

(** Asking for the mutex. *)
Lemma inv_acquire init v a1 a2 f nd nu i a' got pg pw :
  inv init (mkCfg v a1 a2 f nd nu) →
  (f i = D_s1 ∧ pg = D_dec ∧ pw = D_s1w ∨ f i = U_s1 ∧ pg = U_inc ∧ pw = U_s1w) →
  adown i a1 = (a', got) →
  inv init (mkCfg v a' a2 (goto i (if got : bool then pg else pw) f) nd nu).
Proof.
  intros Hi Hpc Ha. pose proof (iv_1 _ _ Hi) as H1. cbn in H1.
  apply (inv_same init v a1 a' a2 f); [..|done].
  - apply goto_same. destruct Hpc as [(-> & -> & ->)|(-> & -> & ->)]; by destruct got.
  - apply goto_same. destruct Hpc as [(-> & -> & ->)|(-> & -> & ->)]; by destruct got.
  - destruct Hpc as [(E & -> & ->)|(E & -> & ->)]; apply goto_iff; rewrite ?E; by destruct got.
  - destruct Hpc as [(E & -> & ->)|(E & -> & ->)]; apply goto_iff; rewrite ?E; by destruct got.
  - destruct Hpc as [(E & -> & ->)|(E & -> & ->)]; apply (sem_ok_down _ _ a1); rewrite ?E; done.
Qed.

(** Asking for the gate. *)
Lemma inv_gate init v a1 a2 f nd nu i a' got :
  inv init (mkCfg v a1 a2 f nd nu) → f i = D_s2 → adown i a2 = (a', got) →
  inv init (mkCfg v a1 a' (goto i (if got : bool then D_s1 else D_s2w) f) nd nu).
Proof.
  intros [I1 I2 I3 I4 I5 I6 I7 I8 I9] E Ha; cbn in *.
  assert (H2 : sem_ok in2 wait2 a' (goto i (if got then D_s1 else D_s2w) f))
    by (apply (sem_ok_down _ _ a2); rewrite ?E; done).
  assert (Hfree : a_free a' = false) by (unfold adown in Ha; by destruct (a_free a2); injection Ha as <- <-).
  assert (Hgot : got = a_free a2) by (unfold adown in Ha; destruct (a_free a2); congruence).
  split; cbn; try done.
  - apply sem_ok_goto; rewrite ?E; by destruct got.
  - rewrite Hfree. done.
  - intros j. unfold goto. case_decide as Hj; [|apply I4]. destruct got; [|done]. intros _. cbn. by apply I3.
  - intros j. unfold goto at 1. case_decide as Hj; [by destruct got|]. intros Hu Hv.
    destruct (I5 j Hu Hv) as [J1 J2]. split; [done|]. intros k. unfold goto. case_decide; [|apply J2].
    rewrite Hgot, J1. done.
  - intros Hv. destruct (I6 Hv) as [Hf|[[j Hj]|[j [Hj Hv1]]]]; cbn in *.
    + right. left. exists i. cbn. rewrite goto_eq, Hgot, Hf. done.
    + right. left. exists j. cbn. rewrite goto_ne; [done|]. intros ->. by rewrite E in Hj.
    + right. right. exists j. cbn. rewrite goto_ne; [done|]. intros ->. by rewrite E in Hj.
Qed.

(** [sem->val--] *)
Lemma inv_dec init v a1 a2 f nd nu i :
  inv init (mkCfg v a1 a2 f nd nu) → f i = D_dec → - 2^31 ≤ init → init + nu < 2^31 →
  inv init (mkCfg (s32 (v - 1)) a1 a2 (goto i D_test f) (nd + 1) nu).
Proof.
  intros [I1 I2 I3 I4 I5 I6 I7 I8 [I9 I10]] E Hlo Hhi; cbn in *.
  pose proof (I4 i) as Hi. rewrite E in Hi. specialize (Hi eq_refl).
  rewrite decide_False in Hi by done.
  rewrite s32_id by lia.
  assert (Hfree : a_free a2 = false).
  { destruct (a_free a2) eqn:Ef; [|done]. pose proof (so_free _ _ _ _ I2 i Ef) as H. by rewrite E in H. }
  assert (Hoth : ∀ j, j ≠ i → in2 (f j) = false).
  { intros j Hj. destruct (in2 (f j)) eqn:Ej; [|done]. destruct Hj. apply (so_one _ _ _ _ I2); [done|by rewrite E]. }
  split; cbn; try done; try lia.
  - apply sem_ok_goto; by rewrite ?E.
  - apply sem_ok_goto; by rewrite ?E.
  - rewrite Hfree. done.
  - intros j. unfold goto. case_decide as Hj; [intros _; case_decide; done || lia|]. rewrite Hoth by done. done.
  - intros j. unfold goto at 1. case_decide as Hj; [done|]. intros Hu.
    assert (j = i); [|done]. apply (so_one _ _ _ _ I1); [by rewrite Hu|by rewrite E].
  - intros _. right. left. exists i. cbn. by rewrite goto_eq.
Qed.

(** [sem->val++] *)
Lemma inv_inc init v a1 a2 f nd nu i :
  inv init (mkCfg v a1 a2 f nd nu) → f i = U_inc → - 2^31 ≤ init → init + nu + 1 < 2^31 →
  inv init (mkCfg (s32 (v + 1)) a1 a2 (goto i U_test f) nd (nu + 1)).
Proof.
  intros [I1 I2 I3 I4 I5 I6 I7 I8 [I9 I10]] E Hlo Hhi; cbn in *. rewrite s32_id by lia.
  assert (Hm : ∀ j, in1 (f j) = true → j = i) by (intros j Hj; apply (so_one _ _ _ _ I1); [done|by rewrite E]).
  split; cbn; try done; try lia.
  - apply sem_ok_goto; by rewrite ?E.
  - apply sem_ok_goto; by rewrite ?E.
  - intros Hf. specialize (I3 Hf). lia.
  - intros j. unfold goto. case_decide as Hj; [done|]. intros Hj2. specialize (I4 j Hj2).
    repeat case_decide; lia.
  - intros j Hu Hv. assert (v = 0) by lia. subst v. split.
    + destruct (a_free a2) eqn:Ef; [|done]. specialize (I3 eq_refl). lia.
    + intros k. unfold goto. case_decide as Hk; [done|]. destruct (in2 (f k)) eqn:Ek; [|done].
      specialize (I4 k Ek). case_decide as Hd; [|lia]. destruct Hk. apply Hm. by rewrite Hd.
  - intros Hv. destruct (decide (v = 0)) as [->|].
    + right. right. exists i. cbn. by rewrite goto_eq.
    + destruct I6 as [Hf|[[j Hj]|[j [Hj Hv1]]]]; cbn in *; [lia|by left|right; left|].
      * exists j. cbn. rewrite goto_ne; [done|]. intros ->. by rewrite E in Hj.
      * assert (j = i) as -> by (apply Hm; by rewrite Hj). congruence.
Qed.

(** Opening the gate, in [down] while permits are left and in [up] for the first
    one: the thread at [i] is, or stands in for, the holder of the gate. *)
Lemma inv_open init v a1 a2 f nd nu i p a' w :
  inv init (mkCfg v a1 a2 f nd nu) → 1 ≤ v → a_free a2 = false → (∀ j, j ≠ i → in2 (f j) = false) →
  (f i = D_test ∧ p = D_up1 ∨ f i = U_test ∧ p = U_up1) → aup a2 = (a', w) →
  inv init (mkCfg v a1 a' (wake w (goto i p f)) nd nu).
Proof.
  intros [I1 I2 I3 I4 I5 I6 I7 I8 I9] Hv Hf Ho Hpc Ha; cbn in *.
  assert (Ew : wait2 (f i) = false ∧ in1 (f i) = true ∧ wait1 (f i) = false)
    by (by destruct Hpc as [[-> _]|[-> _]]).
  destruct Ew as (Ew & Em & Ew1).
  assert (Ep : in1 p = true ∧ wait1 p = false ∧ in2 p = false ∧ wait2 p = false ∧ p ≠ U_test ∧ p ≠ D_test)
    by (by destruct Hpc as [[_ ->]|[_ ->]]).
  destruct Ep as (Ep1 & Ep2 & Ep3 & Ep4 & Ep5 & Ep6).
  pose proof (wake2_view a2 f i p a' w I2 Ew Ha) as Hview.
  assert (H2 : sem_ok in2 wait2 a' (wake w (goto i p f))).
  { apply (sem_ok_up _ _ a2); try done. apply resume2. }
  assert (Hm : ∀ j, wake w (goto i p f) j ≠ U_test).
  { intros j Hj. apply Hview in Hj. unfold goto in Hj. case_decide as Hji; [done|].
    destruct Hji. apply (so_one _ _ _ _ I1); [by rewrite Hj|done]. }
  split; cbn; try done.
  - apply (sem_ok_ext _ _ _ (goto i p f)); [apply Hview..|]. apply sem_ok_goto; congruence.
  - intros j _. case_decide; lia.
  - intros j Hj. by destruct (Hm j).
  - intros _. unfold permit. cbn. unfold aup in Ha. destruct (a_q a2) as [|k q] eqn:Eq; injection Ha as <- <-.
    + by left.
    + right. left. exists k. cbn. rewrite goto_eq.
      assert (Hk : wait2 (f k) = true) by (apply (so_q _ _ _ _ I2); rewrite Eq; by left).
      rewrite goto_ne by congruence. by apply resume2.
Qed.

(** Leaving [down] with no permit left, or [up] with the gate open already. *)
Lemma inv_leave init v a1 a2 f nd nu i p :
  inv init (mkCfg v a1 a2 f nd nu) →
  (f i = D_test ∧ p = D_up1 ∧ v ≤ 0 ∨ f i = U_test ∧ p = U_up1 ∧ v ≠ 1) →
  inv init (mkCfg v a1 a2 (goto i p f) nd nu).
Proof.
  intros [I1 I2 I3 I4 I5 I6 I7 I8 I9] Hpc; cbn in *.
  assert (Hm : ∀ j, f j = U_test → j = i).
  { intros j Hj. apply (so_one _ _ _ _ I1); [by rewrite Hj|]. by destruct Hpc as [(-> & _)|(-> & _)]. }
  assert (Hnu : ∀ j, goto i p f j ≠ U_test).
  { intros j. unfold goto. case_decide as Hj; [by destruct Hpc as [(_ & -> & _)|(_ & -> & _)]|].
    intros Hu. by destruct (Hj (Hm j Hu)). }
  split; cbn; try done.
  - apply sem_ok_goto; [..|done]; by destruct Hpc as [(-> & -> & _)|(-> & -> & _)].
  - destruct Hpc as [(E & -> & _)|(E & -> & _)]; [|by apply sem_ok_goto; rewrite ?E].
    destruct I2 as [H1 H2 H3 H4 H5]. split; try done.
    + intros j k. unfold goto. repeat case_decide; subst; try done. apply H1.
    + intros j Hj. unfold goto. case_decide; [done|by apply H2].
    + intros j. rewrite H4. unfold goto. case_decide; [|done]. subst. by rewrite E.
  - intros j. unfold goto. case_decide; [by destruct Hpc as [(_ & -> & _)|(_ & -> & _)]|apply I4].
  - intros j Hu. by destruct (Hnu j).
  - intros Hv. destruct Hpc as [(_ & _ & Hv0)|(E & -> & Hv1)]; [lia|].
    destruct (I6 Hv) as [Hf|[[j Hj]|[j [_ Hj]]]]; cbn in *; [by left| |done].
    right. left. exists j. cbn. rewrite goto_ne; [done|]. intros ->. by rewrite E in Hj.
Qed.

Lemma csem_step_inv init c c' :
  - 2^31 ≤ init → init + c_ups c' < 2^31 → inv init c → step c c' → inv init c'.
Proof.
  intros Hlo Hhi Hi (op & i & Hs). destruct c as [v a1 a2 f nd nu]. unfold exec in Hs.
  destruct (f i) eqn:E; try done.
  - injection Hs as <-. apply (inv_same init v a1 a1 a2 f); [..|done].
    + apply goto_same. rewrite E. by destruct op.
    + apply goto_same. rewrite E. by destruct op.
    + apply goto_iff; rewrite ?E; by destruct op.
    + apply goto_iff; rewrite ?E; by destruct op.
    + apply sem_ok_goto; [..|apply (iv_1 _ _ Hi)]; rewrite E; by destruct op.
  - destruct (adown i a2) as [a' got] eqn:Ea. injection Hs as <-. by apply (inv_gate init v a1 a2 f nd nu).
  - destruct (adown i a1) as [a' got] eqn:Ea. injection Hs as <-.
    apply (inv_acquire init v a1 a2 f nd nu); auto.
  - injection Hs as <-. by apply inv_dec.
  - pose proof (iv_2 _ _ Hi) as H2. cbn in H2. destruct (Z.ltb_spec 0 v).
    + destruct (aup a2) as [a' w] eqn:Ea. injection Hs as <-.
      apply (inv_open init v a1 a2 f nd nu); auto; [lia| |].
      * destruct (a_free a2) eqn:Ef; [|done]. pose proof (so_free _ _ _ _ H2 i Ef) as H0. by rewrite E in H0.
      * intros j Hj. destruct (in2 (f j)) eqn:Ej; [|done]. destruct Hj. apply (so_one _ _ _ _ H2); [done|by rewrite E].
    + injection Hs as <-. cbn [wake]. apply inv_leave; auto.
  - destruct (aup a1) as [a' w] eqn:Ea. injection Hs as <-. apply (inv_release init v a1 a2 f nd nu); auto.
  - destruct (adown i a1) as [a' got] eqn:Ea. injection Hs as <-.
    apply (inv_acquire init v a1 a2 f nd nu); auto.
  - injection Hs as <-. cbn in Hhi. apply inv_inc; auto. lia.
  - destruct (Z.eqb_spec v 1) as [->|].
    + destruct (aup a2) as [a' w] eqn:Ea. injection Hs as <-.
      destruct (iv_test _ _ Hi i E eq_refl) as [Hf Hn]. cbn in Hf, Hn.
      apply (inv_open init 1 a1 a2 f nd nu); auto. lia.
    + injection Hs as <-. cbn [wake]. apply inv_leave; auto.
  - destruct (aup a1) as [a' w] eqn:Ea. injection Hs as <-. apply (inv_release init v a1 a2 f nd nu); auto.
Qed.

Lemma start_inv init : inv init (start init).
Proof.
  unfold start. destruct (Z.ltb_spec init 1); cbn; split; cbn; try done; try lia;
    first [by left|split; cbn; try done; first [set_solver|constructor]].
Qed.

Lemma ups_mono c c' : step c c' → c_ups c ≤ c_ups c'.
Proof.
  intros (op & i & Hs). destruct c as [v a1 a2 f nd nu]. unfold exec in Hs.
  destruct (f i); repeat case_match; simplify_eq; cbn; lia.
Qed.

Lemma csem_reachable init c :
  - 2^31 ≤ init → init + c_ups c < 2^31 → rtc step (start init) c → inv init c.
Proof.
  intros Hlo Hhi Hr. revert c Hr Hhi.
  apply (rtc_ind_r (λ c, init + c_ups c < 2^31 → inv init c)); [intros _; apply start_inv|].
  intros c c' Hr Hs IH Hhi. apply (csem_step_inv init c c'); auto. apply IH.
  pose proof (ups_mono _ _ Hs). lia.
Qed.

(** C13: A counting semaphore made with [init_val] never lets more [down]s through
    than [init_val] (at least 0) plus the [up]s, in any interleaving of any threads;
    [val] is the number of permits left; and permits are not lost: while some are
    left and nobody is inside [down] or [up], the gate is open. *)
Theorem csem_counts init c :
  - 2^31 ≤ init → init + c_ups c < 2^31 → rtc step (start init) c →
  c_downs c ≤ Z.max init 0 + c_ups c ∧ c_val c = init + c_ups c - c_downs c ∧
  (1 ≤ c_val c → (∀ i, c_pc c i = Idle) → a_free (c_a2 c) = true) ∧
  (∀ i j, in1 (c_pc c i) = true → in1 (c_pc c j) = true → i = j).
Proof.
  intros Hlo Hhi Hr. destruct (csem_reachable init c Hlo Hhi Hr) as [I1 I2 I3 I4 I5 I6 I7 I8 I9].
  split; [lia|]. split; [done|]. split; [|apply (so_one _ _ _ _ I1)].
  intros Hv Hidle. destruct (I6 Hv) as [?|[[i Hi]|[i [Hi _]]]]; [done| |]; by rewrite Hidle in Hi.
Qed.

Lemma csem_counts_witness : ∃ c, rtc step (start 1) c ∧ c_downs c = 1 ∧ c_downs c ≤ Z.max 1 0 + c_ups c.
Proof.
  pose (c1 := default (start 1) (exec false 0 (start 1))).
  pose (c2 := default c1 (exec false 0 c1)).
  pose (c3 := default c2 (exec false 0 c2)).
  pose (c4 := default c3 (exec false 0 c3)).
  assert (Hr : rtc step (start 1) c4).
  { do 4 (eapply rtc_l; [exists false, 0%nat; reflexivity|]). apply rtc_refl. }
  exists c4. split; [exact Hr|]. split; [reflexivity|].
  apply (csem_counts 1 c4); [lia|reflexivity|exact Hr].
Defined.
